(* ===== verification/_CoqProject ===== *)
-Q . S2P
Prelude.v
GoStrings.v
GoRegexp.v
GoNet.v
GoSha256.v
GoSha512.v
GoJson.v
GoPath.v
GoUrl.v
GoText.v
Packages.v
Distcc.v
Schema.v
Capabilities.v
CapacityLedger.v
Autoscale.v
DistccLedger.v
Budgets.v
Fairness.v
JobLedger.v
Scheduler.v
PhaseWork.v
RuntimeMetadata.v
Fencing.v
PhasePlan.v
JobSystem.v
JobSafety.v
JobHistory.v
WorkerGateway.v
GatewayRows.v
ArtifactRows.v
LeaseRuntime.v
GatewaySystem.v
GatewaySafety.v
ArtifactSystem.v
ArtifactSafety.v
Signing.v
Gpkg.v
GpkgSafety.v
SigningSafety.v
Iam.v
IamSystem.v
IamSafety.v
IamServer.v
IamServerSafety.v
ProjectPolicy.v
ProjectPolicySafety.v
GoTime.v
GoJsonTree.v
Generation.v
GenerationCodec.v
JobLimits.v
