(* ===== verification/Prelude.v ===== *)
(** * Portage Engine: verification development

    Portage Engine is a control plane that builds Gentoo packages: clients
    submit build requests, several server replicas hand the jobs to executors,
    each attempt runs through four phases on a provisioned machine, an
    autoscaler grows and shrinks the machine pools, and compile work is shared
    through distcc.  Everything durable is in one PostgreSQL database, and the
    replicas coordinate through transactions on it only.  This development
    models that core: the repositories under [src/internal/persistence] that
    run the job protocol, and the pure packages they rely on.

    ** Parts of the program and the files that model them

    The Go standard library, as far as the code uses it:
    - [GoStrings] (strings), [GoRegexp] (anchored regular expressions, with a
      matcher proved equal to the language), [GoNet] (addresses), [GoSha256]
      and [GoSha512] (the digests and hex), [GoJson] (the text of a string map, [json.Valid]),
      [GoPath] (lexical paths), [GoUrl] (escaping, parsed URLs, decimals),
      [GoText] (prefixes, cutting and splitting), [GoTime] (instants and their
      RFC 3339 text), [GoJsonTree] (JSON documents as trees: reading, printing,
      decoding into a struct without unknown fields).

    Contracts without a database:
    - [Distcc]: [internal/distcc] ([contract.go], [policy.go], [gate.go]):
      pools and their identity, leases, observations, endpoints, atoms, the
      builder's policy, the evidence gate;
    - [Capabilities]: [internal/builder/capabilities.go]: capability labels,
      capacity pools, what each phase requires.

    The database and its transactions:
    - [Schema]: the tables (from [internal/migrations/sql]) as a record [db] of
      lists of rows, and the errors of the repositories;
    - [CapacityLedger] ([capacity_actuator.go]) and [Autoscale]
      ([autoscale.go]): fenced capacity actions, provider instances, the
      recommendation and its reconciliation into actions;
    - [DistccLedger] ([distcc.go]): compile workers and slot leases;
    - [Budgets] ([usage_budgets.go], admission in [jobs.go] and
      [scheduler.go]): limits, meters, settlement, failure storms;
    - [Fairness] ([fairness.go]): which project is served next;
    - [JobLedger] ([jobs.go], the revocation in [worker_gateway.go]): status
      documents, submission, transitions, reservations, retention;
    - [Scheduler] ([scheduler.go]): registration, claim, renewal, recovery,
      cancellation, retry, pruning;
    - [PhaseWork] ([phase_work.go], [phase_context.go], the fence of
      [runtime_metadata.go]): the phases of an attempt.

    The job system, put together from the last five:
    - [Fencing]: the abstract protocol of attempts, fences and leases;
    - [PhasePlan]: the shape of an attempt's plan;
    - [JobSystem]: the operations as the steps of one system ([job_step]) and
      the proof that every step implements the protocol;
    - [JobSafety], [JobHistory], [LeaseRuntime], [JobLimits]: the theorems about
      every state the system reaches.

    The worker gateway, through which the machine of an attempt is driven:
    - [WorkerGateway] ([worker_gateway.go], and of [internal/workergateway] the
      identity in [protocol.go], the certificate record in [cert.go] and the
      upload destinations in [broker.go]): sessions, issuers and certificates,
      commands, uploads;
    - [GatewayRows]: how rows of its tables may change, and what the end of an
      attempt does to them;
    - [GatewaySystem]: its operations interleaved with the job system
      ([system_step]) and the invariant of the two;
    - [GatewaySafety]: the theorems about every state they reach.

    What an attempt leaves behind, and its signature:
    - [RuntimeMetadata] ([runtime_metadata.go], [infra_cleanup.go]): machines and
      artifacts under the attempt's fence, the budget of retained generations,
      reconciliation with the files that exist, cleanup of abandoned machines;
    - [ArtifactRows], [ArtifactSystem] ([artifact_step]), [ArtifactSafety]: these
      between the operations of the job system, and what holds of every state;
    - [Signing] ([signing.go], and of [internal/signing] [types.go] and
      [runner.go]): the queue of signing tasks and the signer's work on one;
    - [Gpkg] ([internal/signing/gpkg.go]): reading, signing and verifying a
      package; [GpkgSafety]: the theorems about it;
    - [SigningSafety]: the queue between the operations of the job system
      ([signing_step]), the signer's result, and what holds of every state.

    What is published:
    - [Packages] (of [internal/binpkg/index_merge.go] all but the store's
      projection): reading the index of a binhost, and merging the packages of a
      job into the index of the generation before;
    - [Generation] ([internal/storage/generation.go], and [ValidateBinhostPath] of
      [internal/catalog/catalog.go]): the manifest of a generation, the pointer of
      a channel, the quarantine manifest, their checks, texts and object keys;
      [GenerationCodec]: the theorems that these texts are read back.

    Who may do what:
    - [Iam] ([iam.go], [iam_sessions.go], [iam_device.go], [iam_logout.go] of
      [internal/persistence], the data of [internal/iam]): subjects, sessions and
      their derivation, revocation and watermarks, back-channel logout, device
      authorization, projects and members;
    - [IamSystem]: its operations as the steps of one system ([iam_step]) and
      the invariant; [IamSafety]: the theorems about every state it reaches;
    - [IamServer] (of [internal/server] all of [iam.go] but the policies, and the
      gate [apiKeyAuthMiddleware] of [server.go]; of [internal/iam] what the
      verifiers make of a token they accept): which request is let through, as
      whom; [IamServerSafety]: the theorems about the gate and the handlers;
    - [ProjectPolicy] (the policies in both files called [iam.go]) and
      [ProjectPolicySafety]: the limits of a project, their version and who
      replaces them.

    ** How state and operations correspond to the code

    A repository method is a function [op args clk d] from the database before
    to [Ok (result, d')] or [Err e]; an error is a rollback, so it has no
    database.  A query is a filter, count, sum or first row of a table; an
    [UPDATE ... WHERE] is [update_where], a [DELETE] is [delete_where], and the
    [RowsAffected] the code checks is [count_where].  [SKIP LOCKED] is a
    predicate [locked] on keys, and the theorems hold for any such predicate, on
    the condition they state ([Fairness.contend]).  Generated uuids are arguments, and an insert fails on a key that exists.
    The code reads the clock in every statement, so [clk k] is the time read by
    statement [k]; nothing assumes that these times increase unless a theorem
    says so.  [local] is the clock of the server process.

    ** What the theorems show

    - Job protocol: every operation of the ledger implements the fencing
      protocol, whatever transitions its callers record; whoever lost a claim, of
      a job or of a phase, is turned away for ever; plans run in order; leases end
      with the runtime budget; a submission can be repeated.  A transition is out
      of turn ([out_of_turn]) if it queues a job that is claimed, or ends one
      without its claim.  As long as no transition of a job was ([orderly_step]),
      the job has one holder, holds nothing when queued or ended, and can be given
      out when queued; [out_of_turn_keeps_claims] shows what is lost otherwise.
    - Limits: a claim and a phase change keep the project within its policy;
      settlement charges an attempt once and never more than it reserved; a
      failure storm suspends the project; the budget of a request is exact.
    - Loops: retention and pruning end and do the work of one statement.
    - Fairness: the selection is the least by (starved, virtual runtime, ...),
      and the virtual runtimes of contending projects stay close.
    - Capacity: an instance is deleted only after it was drained, by the holder
      of the fence; the ledger keeps its invariant; scale-ups stay within the
      ceiling, scale-downs wait for their dwell; an interrupted reservation is
      resumed.
    - Distcc: slots are never oversubscribed, dead leases stay dead, the policy
      admits only what it should, and identities, normal forms and the gate are
      characterised exactly.

    - Worker gateway: an attempt that lost its lease is shut out of every
      operation; revoked certificates and issuers authorise nobody again; a
      command and an upload end once, with one outcome, and under the newest
      fence only; uploads stay below the spool root; the URI in a certificate
      gives the identity back.
    - Artifacts: the bytes an attempt retains are counted exactly and within
      its limit, also where the 64-bit sum would wrap; a machine is cleaned up
      under one fence at a time.
    - Signing: a signed package is accepted by the verification, and what the
      verification accepts is signed member by member; a completed task names
      exactly the files that were verified; nothing is signed for an attempt that
      lost its lease, and a superseded signer changes nothing, not even by its
      cleanup; a signer that finishes in time is accepted, and has signed the
      verified files if they did not change between its two reads of them.
    - Publication: a merged index is read back as the job's packages over those
      published before, none lost and none twice; the documents of a generation
      are read back as they were written; both for texts and sizes that their
      readers take, which the writers do not check.
    - Identities: a request gets past the gate only with a live session, an
      administrator's path only with an administrator, and a path that needs
      step-up only with a fresh proof by the same person; a revoked session, all
      sessions derived from it, and every session of a revoked person are refused
      for ever, and nothing else is; a device code gives one session; an exchanged
      token opens a session that works; a project is reached by a role in it, and
      keeps its last owner; a policy is replaced by an owner only, and no
      replacement is lost.

    The places where the code does not do what it means to:
    - [JobSafety.out_of_turn_keeps_claims], whose witness is a job with two
      holders: a remote builder reports its new job as queued, and the poll
      records that under the claim ([internal/builder/manager.go]);
    - [ArtifactSafety.reconcile_follows_files], with its witness: of two artifacts
      recorded at one location only the older is compared with the file;
    - [Autoscale.retried_scale_up_escapes_ceiling]: the ceiling on scale-ups omits
      one kind of pending action;
    - [JobLimits.fresh_sample_registers]: the worker cache is never hit;
    - [IamServerSafety.refused_step_up_anonymous]: a refused step-up is audited
      without its actor;
    - [IamServerSafety.same_second_session_survives]: a session issued in the
      second of a revocation survives it;
    - [Signing.signArtifact] digests a file and then opens it again to copy it, so
      that a file replaced in between is signed; the members of a project cannot
      be served without a database, and the health probe is not public
      ([IamServer]).

    ** Assumptions, bounds and fuel

    - Each transaction runs as if alone: row locks and guarded updates give
      this for the statements that matter; anomalies of weaker isolation are
      outside the model.
    - Times are nanoseconds; the rounding of PostgreSQL to microseconds is not
      modelled.  Strings sort bytewise; stored text is valid UTF-8; identifiers
      are canonical uuids.
    - [MarshalStatus] and [MarshalRequest] ([encoding/json] on the stored
      documents), [uuid_Parse] (a third-party package) and [jsonb] (what
      PostgreSQL stores of a JSON text) are parameters; no theorem assumes
      anything of them.  So are BLAKE2b and gpg in [Gpkg]: the theorems that
      need it assume that a BLAKE2b digest has 64 bytes and that gpg verifies
      what it signed and gives the clear-signed text back.  The checks of a
      token's signature and of GitHub's answer are arguments of the verifiers,
      random bytes are part of the [ambient] of a request, and the tables of
      identities are a record [iam_db] of their own: no transaction writes both.
    - Integers are unbounded, except where the code's own bounds are the point
      ([Budgets.runtimeBudgetSpec_exact] and the 64-bit arithmetic it uses,
      the byte counters of [RuntimeMetadata] and [Signing]).
    - A completion is called with a task a claim handed out ([genuine_task]),
      as [RunOnce] does; [claimed_genuine] shows that such a task stays genuine.
    - The operations that end a job with its phase take a claim this system gave
      out ([genuine]): the callers in [internal/builder] pass nothing else.
      Transitions are not restricted.
    - [ExpireTerminal] and [PruneStaleWorkers] loop over batches of 256 rows
      and take fuel for the number of batches; [expire_terminal_complete] and
      [prune_stale_complete] show that fuel for the rows present, plus one
      batch, gives the result.  The other fuelled definitions walk a string
      and consume at least one element per call: [strip_version],
      [encode_bytes] and [blocks] are called with the length of their input,
      [parse_groups] with the eight groups an IPv6 address has.
      [read_document] has twice the length of the text;
      [document_fuel_enough] shows that more changes nothing.

    ** Not modelled

    The reconcile and repair path of [jobs.go] (an import of the job list of
    older servers), the read-only status queries, the remaining repositories
    (settings, logs, monitoring), the advisory lock of artifact promotion,
    the signer's object storage path and heartbeat loop, and the parts of the
    program that are input and output: the other HTTP handlers, the dashboard,
    builders and their containers, providers, the object stores and the
    publication of a generation on them, image factory, configuration.  Of
    [encoding/json], an array under a repeated key is decoded into the elements
    the one before it left, as Go does, but not into the spare capacity behind
    them. *)

From stdpp Require Export base numbers sorting strings gmap list.

(** ** Results of fallible Go code *)

Inductive result (E A : Type) : Type :=
| Ok (a : A)
| Err (e : E).
Arguments Ok {E A} a.
Arguments Err {E A} e.

Declare Scope engine_scope.
Delimit Scope engine_scope with engine.
#[global] Open Scope engine_scope.
#[global] Open Scope Z_scope.

Notation "'let!' x := c 'in' k" :=
  (match c with Ok x => k | Err e => Err e end)
  (at level 10, x pattern, c at level 200, k at level 200,
   format "'[v' 'let!'  x  :=  c  'in' '//' k ']'") : engine_scope.
Notation "'check' P 'else' e ;; k" :=
  (if decide P then k else Err e)
  (at level 10, P at level 200, e at level 99, k at level 200,
   format "'[v' 'check'  P  'else'  e  ;; '//' k ']'") : engine_scope.

#[global] Instance result_eq_dec `{EqDecision E, EqDecision A} :
  EqDecision (result E A).
Proof. solve_decision. Defined.

(** ** Record update

    A record type with an [Eta] instance (its eta expansion) gets the update
    notation [r <| f := v |>]. *)
Class Eta (R : Type) := eta_expand : R -> R.

Class Setter {R E : Type} (proj : R -> E) := set_field : (E -> E) -> R -> R.
Arguments set_field {R E} proj {_} _ _ /.

Ltac derive_setter :=
  lazymatch goal with
  | |- @Setter ?R _ ?p =>
      let inst := constr:(_ : Eta R) in
      let eta := eval hnf in inst in
      lazymatch eval pattern p in eta with
      | ?F _ => let g := eval cbv beta in (fun upd => F (fun r => upd (p r))) in
               exact g
      end
  end.

#[export] Hint Extern 1 (Setter _) => derive_setter : typeclass_instances.

Notation "r <| f := v |>" := (set_field f (fun _ => v) r)
  (at level 1, left associativity, f at level 9, v at level 200,
   format "r  <|  f  :=  v  |>") : engine_scope.

(** ** ORDER BY and Go comparison functions

    An [order] is a three-way comparison; [then_by] is the lexicographic
    combination an [ORDER BY a, b] clause (or a Go [less] function that falls
    through on ties) computes. *)
Definition order (A : Type) := A -> A -> comparison.

Definition by_key {A} (f : A -> Z) : order A := fun x y => f x ?= f y.
Definition by_str {A} (f : A -> string) : order A :=
  fun x y => String.compare (f x) (f y).
Definition desc {A} (o : order A) : order A := fun x y => o y x.
Definition then_by {A} (o1 o2 : order A) : order A := fun x y =>
  match o1 x y with Eq => o2 x y | c => c end.

(** PostgreSQL sorts NULL last in an ascending [ORDER BY]. *)
Definition by_nullable {A} (f : A -> option Z) : order A := fun x y =>
  match f x, f y with
  | Some a, Some b => a ?= b
  | Some _, None => Lt
  | None, Some _ => Gt
  | None, None => Eq
  end.

(** [false] sorts before [true]. *)
Definition by_flag {A} (f : A -> bool) : order A := fun x y =>
  match f x, f y with
  | false, true => Lt
  | true, false => Gt
  | _, _ => Eq
  end.
#[export] Typeclasses Opaque by_key by_str by_nullable by_flag desc then_by.

(** The laws every order built from these combinators has. *)
Class OrderLaws {A} (o : order A) : Prop := {
  order_sym : forall x y, o y x = CompOpp (o x y);
  order_trans : forall x y z, o x y <> Gt -> o y z <> Gt -> o x z <> Gt
}.
Arguments order_sym {A} o {_} x y.
Arguments order_trans {A} o {_} x y z.

Lemma order_refl {A} (o : order A) `{!OrderLaws o} x : o x x = Eq.
Proof. pose proof (order_sym o x x) as H. by destruct (o x x). Qed.

Lemma order_eq_l {A} (o : order A) `{!OrderLaws o} x y z :
  o x y = Eq -> o x z = o y z.
Proof.
  intros Hxy. assert (o y x = Eq) as Hyx by (by rewrite (order_sym o), Hxy).
  pose proof (order_trans o x y z) as H1. pose proof (order_trans o y x z) as H2.
  pose proof (order_trans o z x y) as H3. pose proof (order_trans o z y x) as H4.
  rewrite (order_sym o x z) in H3, H4. rewrite (order_sym o y z) in H3, H4.
  rewrite Hxy in *. rewrite Hyx in *.
  destruct (o x z), (o y z); try done; exfalso; naive_solver.
Qed.

#[export] Instance by_key_laws {A} (f : A -> Z) : OrderLaws (by_key f).
Proof.
  split; unfold by_key.
  - intros x y. apply Z.compare_antisym.
  - intros x y z. rewrite !Z.compare_le_iff. lia.
Qed.

Lemma string_compare_trans_eq s1 s2 s3 :
  String.compare s1 s2 <> Gt -> String.compare s2 s3 <> Gt ->
  String.compare s1 s3 <> Gt.
Proof.
  revert s2 s3. induction s1 as [|c1 s1 IH]; intros [|c2 s2] [|c3 s3]; simpl; try done.
  unfold Ascii.compare.
  destruct (N.compare_spec (Ascii.N_of_ascii c1) (Ascii.N_of_ascii c2)),
    (N.compare_spec (Ascii.N_of_ascii c2) (Ascii.N_of_ascii c3)),
    (N.compare_spec (Ascii.N_of_ascii c1) (Ascii.N_of_ascii c3));
    try done; try lia; eauto.
Qed.

#[export] Instance by_str_laws {A} (f : A -> string) : OrderLaws (by_str f).
Proof.
  split; unfold by_str.
  - intros x y. apply String.compare_antisym.
  - intros x y z. apply string_compare_trans_eq.
Qed.

#[export] Instance desc_laws {A} (o : order A) `{!OrderLaws o} : OrderLaws (desc o).
Proof.
  split; unfold desc.
  - intros x y. apply (order_sym o).
  - intros x y z Hxy Hyz. by apply (order_trans o z y x).
Qed.

#[export] Instance by_nullable_laws {A} (f : A -> option Z) : OrderLaws (by_nullable f).
Proof.
  split; unfold by_nullable.
  - intros x y. destruct (f x), (f y); try done. apply Z.compare_antisym.
  - intros x y z. destruct (f x), (f y), (f z); try done.
    rewrite !Z.compare_le_iff. lia.
Qed.

#[export] Instance by_flag_laws {A} (f : A -> bool) : OrderLaws (by_flag f).
Proof.
  split; unfold by_flag.
  - intros x y. by destruct (f x), (f y).
  - intros x y z. by destruct (f x), (f y), (f z).
Qed.

#[export] Instance then_by_laws {A} (o1 o2 : order A)
  `{!OrderLaws o1, !OrderLaws o2} : OrderLaws (then_by o1 o2).
Proof.
  split; unfold then_by.
  - intros x y. rewrite (order_sym o1 x y), (order_sym o2 x y).
    by destruct (o1 x y).
  - intros x y z Hxy Hyz.
    destruct (o1 x y) eqn:E1; [| |done].
    + rewrite (order_eq_l o1 x y z E1).
      destruct (o1 y z); try done. by apply (order_trans o2 x y z).
    + destruct (o1 y z) eqn:E2; try done.
      * assert (o1 x z = Lt) as ->; [|done].
        assert (o1 z y = Eq) as Ezy by (by rewrite (order_sym o1), E2).
        assert (o1 z x = Gt) as Ezx.
        { rewrite (order_eq_l o1 z y x Ezy). by rewrite (order_sym o1), E1. }
        by rewrite (order_sym o1), Ezx.
      * assert (o1 x z <> Gt) as Hle by (apply (order_trans o1 x y z); congruence).
        destruct (o1 x z) eqn:E3; [|done|done].
        rewrite (order_eq_l o1 x z y E3) in E1.
        rewrite (order_sym o1), E2 in E1. done.
Qed.

(** [ORDER BY o LIMIT 1]. *)
Fixpoint pick {A} (o : order A) (l : list A) : option A :=
  match l with
  | [] => None
  | x :: l' =>
      match pick o l' with
      | Some y => if decide (o y x = Lt) then Some y else Some x
      | None => Some x
      end
  end.

Lemma pick_elem {A} (o : order A) l x : pick o l = Some x -> x ∈ l.
Proof.
  revert x. induction l as [|a l IH]; intros x; simpl; [done|].
  destruct (pick o l) as [y|]; [case_decide|]; intros [= <-]; set_solver.
Qed.

Lemma pick_none {A} (o : order A) l : pick o l = None <-> l = [].
Proof.
  destruct l as [|a l]; simpl; [done|].
  destruct (pick o l); [case_decide|]; done.
Qed.

Lemma pick_least {A} (o : order A) `{!OrderLaws o} l x y :
  pick o l = Some x -> y ∈ l -> o x y <> Gt.
Proof.
  revert x. induction l as [|a l IH]; intros x; simpl; [done|].
  destruct (pick o l) as [b|] eqn:E.
  - intros Hx [->|Hy]%elem_of_cons.
    + case_decide as Hlt; simplify_eq.
      * congruence.
      * by rewrite order_refl.
    + specialize (IH b eq_refl Hy). case_decide as Hlt; simplify_eq; [done|].
      apply (order_trans o x b y); [|done].
      rewrite (order_sym o). destruct (o b x); try done; congruence.
  - apply pick_none in E as ->. intros [= <-] Hy.
    apply list_elem_of_singleton in Hy as ->. by rewrite order_refl.
Qed.

(** [sort.Strings] and [sort.Slice] with a comparison: the sorted list; the
    library's merge sort stands for Go's pattern-defeating quicksort, which
    gives the same list whenever the order has no ties between different
    elements. *)
Definition order_le {A} (o : order A) : relation A := fun x y => o x y <> Gt.
#[export] Instance order_le_dec {A} (o : order A) : RelDecision (order_le o).
Proof. intros x y. unfold order_le. apply _. Defined.
Definition sort_by {A} (o : order A) : list A -> list A := merge_sort (order_le o).

Section sort_by_lemmas.
Context {A : Type} (o : order A) `{!OrderLaws o}.

Lemma order_le_total x y : order_le o x y \/ order_le o y x.
Proof. unfold order_le. rewrite (order_sym o x y). destruct (o x y); naive_solver. Qed.
#[local] Instance order_le_Total : Total (order_le o) := order_le_total.
#[local] Instance order_le_Trans : Transitive (order_le o) := order_trans o.

Lemma sort_by_perm l : sort_by o l ≡ₚ l.
Proof. apply merge_sort_Permutation. Qed.

Lemma sort_by_sorted l : StronglySorted (order_le o) (sort_by o l).
Proof. apply StronglySorted_merge_sort; apply _. Qed.

Lemma elem_of_sort_by x l : x ∈ sort_by o l <-> x ∈ l.
Proof. by rewrite sort_by_perm. Qed.

(** Two sorted lists with the same elements are the same list when ties only
    happen between equal elements. *)
Lemma sort_by_unique l1 l2 :
  (forall x y, o x y = Eq -> x = y) ->
  l1 ≡ₚ l2 -> sort_by o l1 = sort_by o l2.
Proof.
  intros Heq Hperm.
  assert (AntiSymm (=) (order_le o)) as Hanti.
  { intros x y Hxy Hyx. apply Heq. unfold order_le in *.
    rewrite (order_sym o x y) in Hyx. by destruct (o x y). }
  apply (StronglySorted_unique (order_le o)); auto using sort_by_sorted.
  by rewrite !sort_by_perm.
Qed.

Lemma sort_by_id l : StronglySorted (order_le o) l ->
  (forall x y, o x y = Eq -> x = y) -> sort_by o l = l.
Proof.
  intros Hs Heq.
  assert (AntiSymm (=) (order_le o)) as Hanti.
  { intros x y Hxy Hyx. apply Heq. unfold order_le in *.
    rewrite (order_sym o x y) in Hyx. by destruct (o x y). }
  apply (StronglySorted_unique (order_le o)); auto using sort_by_sorted.
  by rewrite sort_by_perm.
Qed.
End sort_by_lemmas.

(** ** Relational tables

    A table is the list of its rows.  [SELECT count( * ) ... WHERE P] is
    [count_where P], [UPDATE ... SET f WHERE P] is [update_where P f] with
    [RowsAffected()] equal to [count_where P] of the table before it, and
    [DELETE ... WHERE P] is [delete_where P]. *)
Definition count_where {A} (P : A -> Prop) `{HdP : !forall x, Decision (P x)} (l : list A) : nat :=
  length (filter P l).
Arguments count_where : simpl never.

Definition update_where {A} (P : A -> Prop) `{HdP : !forall x, Decision (P x)}
    (f : A -> A) (l : list A) : list A :=
  (fun x => if decide (P x) then f x else x) <$> l.

Definition delete_where {A} (P : A -> Prop) `{HdP : !forall x, Decision (P x)} (l : list A) : list A :=
  filter (fun x => ~ P x) l.

(** [EXISTS (SELECT 1 FROM l WHERE P)]. *)
Definition exists_row {A} (P : A -> Prop) (l : list A) : Prop := Exists P l.
#[export] Instance exists_row_dec {A} (P : A -> Prop) `{HdP : !forall x, Decision (P x)} l :
  Decision (exists_row P l).
Proof. unfold exists_row. apply _. Defined.

(** [COALESCE(sum(f), 0)]. *)
Definition sum_by {A} (f : A -> Z) (l : list A) : Z :=
  foldr (fun x acc => f x + acc) 0 l.
Arguments sum_by : simpl never.

(** [COALESCE(max(f), 0)] over a column that is never negative. *)
Definition max_by {A} (f : A -> Z) (l : list A) : Z :=
  foldr (fun x acc => Z.max (f x) acc) 0 l.

Section table_lemmas.
Context {A : Type}.
Implicit Types (l : list A).

Lemma elem_of_update_where (P : A -> Prop) `{HdP : !forall x, Decision (P x)} f l y :
  y ∈ update_where P f l <->
  exists x, x ∈ l /\ ((P x /\ y = f x) \/ (~ P x /\ y = x)).
Proof.
  unfold update_where. rewrite list_elem_of_fmap. split.
  - intros (x & -> & Hx). exists x. case_decide; auto.
  - intros (x & Hx & [[HP ->]|[HP ->]]); exists x; case_decide; done.
Qed.

Lemma update_where_map {B} (g : A -> B) (P : A -> Prop) `{HdP : !forall x, Decision (P x)} f l :
  (forall x, P x -> g (f x) = g x) -> g <$> update_where P f l = g <$> l.
Proof.
  intros Hg. unfold update_where. rewrite <- list_fmap_compose.
  apply list_fmap_ext. intros i x Hx. simpl. case_decide; auto.
Qed.

Lemma update_where_none (P : A -> Prop) `{HdP : !forall x, Decision (P x)} f l :
  (forall x, x ∈ l -> ~ P x) -> update_where P f l = l.
Proof.
  intros H. unfold update_where. induction l as [|a l IH]; simpl; [done|].
  rewrite decide_False by (apply H; set_solver).
  f_equal. apply IH. intros x Hx. apply H. set_solver.
Qed.

Lemma length_update_where (P : A -> Prop) `{HdP : !forall x, Decision (P x)} f l :
  length (update_where P f l) = length l.
Proof. apply length_fmap. Qed.

Lemma elem_of_delete_where (P : A -> Prop) `{HdP : !forall x, Decision (P x)} l x :
  x ∈ delete_where P l <-> ~ P x /\ x ∈ l.
Proof. unfold delete_where. by rewrite list_elem_of_filter. Qed.

Lemma count_where_pos (P : A -> Prop) `{HdP : !forall x, Decision (P x)} l :
  (0 < count_where P l)%nat <-> exists x, x ∈ l /\ P x.
Proof.
  unfold count_where. split.
  - intros H. destruct (filter P l) as [|x l'] eqn:E; simpl in H; [lia|].
    exists x. assert (x ∈ filter P l) as Hx by (rewrite E; set_solver).
    apply list_elem_of_filter in Hx as [??]. done.
  - intros (x & Hx & HP). assert (x ∈ filter P l) as Hin by (by apply list_elem_of_filter).
    destruct (filter P l); [set_solver|simpl; lia].
Qed.

Lemma count_where_zero (P : A -> Prop) `{HdP : !forall x, Decision (P x)} l :
  count_where P l = 0%nat <-> forall x, x ∈ l -> ~ P x.
Proof.
  split.
  - intros H x Hx HP. assert (0 < count_where P l)%nat by (apply count_where_pos; eauto). lia.
  - intros H. destruct (decide (count_where P l = 0%nat)) as [|Hn]; [done|].
    assert (0 < count_where P l)%nat as Hp by lia.
    apply count_where_pos in Hp as (x & Hx & HP). by destruct (H x Hx).
Qed.

Lemma count_where_cons (P : A -> Prop) `{HdP : !forall x, Decision (P x)} a l :
  count_where P (a :: l) = ((if decide (P a) then 1 else 0) + count_where P l)%nat.
Proof. unfold count_where. rewrite filter_cons. by case_decide. Qed.

Lemma count_where_app (P : A -> Prop) `{HdP : !forall x, Decision (P x)} l1 l2 :
  count_where P (l1 ++ l2) = (count_where P l1 + count_where P l2)%nat.
Proof.
  induction l1 as [|a l1 IH]; [done|].
  rewrite <- app_comm_cons, !count_where_cons. lia.
Qed.

Lemma count_where_le_impl (P Q : A -> Prop)
    `{HdP : !forall x, Decision (P x), HdQ : !forall x, Decision (Q x)} l :
  (forall x, x ∈ l -> P x -> Q x) -> (count_where P l <= count_where Q l)%nat.
Proof.
  induction l as [|a l IH]; intros H; [done|].
  rewrite !count_where_cons.
  assert (count_where P l <= count_where Q l)%nat by (apply IH; set_solver).
  repeat case_decide; try lia. exfalso. set_solver.
Qed.

Lemma sum_by_app (f : A -> Z) l1 l2 : sum_by f (l1 ++ l2) = sum_by f l1 + sum_by f l2.
Proof. induction l1 as [|a l1 IH]; simpl; [done|]. unfold sum_by in *. simpl. lia. Qed.

Lemma sum_by_nonneg (f : A -> Z) l : (forall x, x ∈ l -> 0 <= f x) -> 0 <= sum_by f l.
Proof.
  induction l as [|a l IH]; intros H; [done|]. unfold sum_by in *. simpl.
  assert (0 <= f a) by (apply H; set_solver).
  assert (0 <= foldr (fun x acc => f x + acc) 0 l) by (apply IH; set_solver). lia.
Qed.

Lemma sum_by_perm (f : A -> Z) l1 l2 : l1 ≡ₚ l2 -> sum_by f l1 = sum_by f l2.
Proof. unfold sum_by. induction 1; simpl; lia. Qed.

Lemma max_by_ge (f : A -> Z) l x : x ∈ l -> f x <= max_by f l.
Proof.
  induction l as [|a l IH]; [set_solver|]. unfold max_by in *. simpl.
  intros [->|Hx]%elem_of_cons; [lia|]. specialize (IH Hx). lia.
Qed.
End table_lemmas.

(** [SELECT ... WHERE P] read as a single row. *)
Definition first_where {A} (P : A -> Prop) `{HdP : !forall x, Decision (P x)} (l : list A)
    : option A := head (filter P l).

(** Comparisons with a nullable column: NULL satisfies neither. *)
Definition later_than (o : option Z) (t : Z) : Prop :=
  match o with Some x => t < x | None => False end.
Definition at_or_before (o : option Z) (t : Z) : Prop :=
  match o with Some x => x <= t | None => False end.
#[export] Instance later_than_dec o t : Decision (later_than o t).
Proof. destruct o; simpl; apply _. Defined.
#[export] Instance at_or_before_dec o t : Decision (at_or_before o t).
Proof. destruct o; simpl; apply _. Defined.

Section first_where_lemmas.
Context {A : Type} (P : A -> Prop) `{HdP : !forall x, Decision (P x)}.
Implicit Types (l : list A).

Lemma first_where_some l x : first_where P l = Some x -> x ∈ l /\ P x.
Proof.
  unfold first_where. intros H. assert (x ∈ filter P l) as Hx.
  { destruct (filter P l); simplify_eq/=. set_solver. }
  apply list_elem_of_filter in Hx. naive_solver.
Qed.

Lemma first_where_none l : first_where P l = None -> forall x, x ∈ l -> ~ P x.
Proof.
  unfold first_where. intros H x Hx HP. assert (x ∈ filter P l) as Hin by (by apply list_elem_of_filter).
  destruct (filter P l); [set_solver|done].
Qed.

(** An update that keeps the selection updates the selected row. *)
Lemma first_where_update (f : A -> A) l : (forall x, P (f x) <-> P x) ->
  first_where P (update_where P f l) = f <$> first_where P l.
Proof.
  intros Hf. unfold first_where, update_where. induction l as [|a l IH]; [done|].
  rewrite fmap_cons, !filter_cons. specialize (Hf a). repeat case_decide; tauto || done.
Qed.
End first_where_lemmas.

(** A key column of a table determines the row. *)
Lemma key_unique {A K} (key : A -> K) (l : list A) x y :
  NoDup (key <$> l) -> x ∈ l -> y ∈ l -> key x = key y -> x = y.
Proof.
  intros Hnd (i & Hi)%list_elem_of_lookup (j & Hj)%list_elem_of_lookup Hk.
  assert (i = j) as ->; [|congruence].
  eapply (NoDup_lookup (key <$> l)); [done|by rewrite list_lookup_fmap, Hi|].
  by rewrite list_lookup_fmap, Hj, Hk.
Qed.

(** With a unique key, a predicate that pins the key holds of at most one row. *)
Lemma count_where_key {A K} (key : A -> K) (P : A -> Prop) `{HdP : !forall x, Decision (P x)}
    (l : list A) :
  NoDup (key <$> l) -> (forall x y, x ∈ l -> y ∈ l -> P x -> P y -> key x = key y) ->
  (count_where P l <= 1)%nat.
Proof.
  intros Hnd HP. induction l as [|a l IH]; [unfold count_where; cbn; lia|].
  rewrite fmap_cons in Hnd. inversion_clear Hnd as [|?? Ha Hnd'].
  rewrite count_where_cons. assert (count_where P l <= 1)%nat by (apply IH; set_solver).
  case_decide as Hpa; [|lia].
  assert (count_where P l = 0%nat); [|lia]. apply count_where_zero.
  intros x Hx Hpx. destruct Ha. apply list_elem_of_fmap. exists x.
  split; [|done]. apply HP; set_solver.
Qed.

Lemma count_where_update {A} (Q P : A -> Prop)
    `{HdQ : !forall x, Decision (Q x), HdP : !forall x, Decision (P x)} (f : A -> A) (l : list A) :
  (forall x, x ∈ l -> P x -> (Q (f x) <-> Q x)) ->
  count_where Q (update_where P f l) = count_where Q l.
Proof.
  intros H. induction l as [|a l IH]; [done|]. unfold update_where. rewrite fmap_cons.
  fold (update_where P f l). rewrite !count_where_cons, IH by (intros; apply H; set_solver). f_equal.
  destruct (decide (P a)) as [Hp|Hp]; [|done]. destruct (H a (list_elem_of_here a l) Hp). repeat case_decide; tauto.
Qed.

(** Rows that leave one group alone leave its count alone. *)
Lemma filter_update_where {A} (Q P : A -> Prop)
    `{HdQ : !forall x, Decision (Q x), HdP : !forall x, Decision (P x)} (f : A -> A) (l : list A) :
  (forall x, x ∈ l -> P x -> ~ Q x /\ ~ Q (f x)) -> filter Q (update_where P f l) = filter Q l.
Proof.
  intros H. induction l as [|a l IH]; [done|]. unfold update_where. rewrite fmap_cons.
  fold (update_where P f l). rewrite !filter_cons, IH by (intros; apply H; set_solver).
  destruct (decide (P a)) as [Hp|Hp]; [|done]. destruct (H a (list_elem_of_here a l) Hp). repeat case_decide; tauto.
Qed.

Lemma count_where_split {A} (P Q : A -> Prop)
    `{HdP : !forall x, Decision (P x), HdQ : !forall x, Decision (Q x)} (l : list A) :
  count_where P l =
  (count_where (fun x => P x /\ Q x) l + count_where (fun x => P x /\ ~ Q x) l)%nat.
Proof.
  induction l as [|a l IH]; [done|]. rewrite !count_where_cons, IH.
  repeat case_decide; lia || tauto.
Qed.

Lemma count_where_filter {A} (P Q : A -> Prop)
    `{HdP : !forall x, Decision (P x), HdQ : !forall x, Decision (Q x)} (l : list A) :
  count_where (fun x => P x /\ Q x) l = count_where P (filter Q l).
Proof.
  induction l as [|a l IH]; [done|]. rewrite count_where_cons, filter_cons, IH.
  repeat case_decide; rewrite ?count_where_cons; repeat case_decide; lia || tauto.
Qed.

Lemma sum_by_update_where {A} (f : A -> Z) (P : A -> Prop) `{HdP : !forall x, Decision (P x)}
    (g : A -> A) (l : list A) :
  (forall x, P x -> f (g x) = f x) -> sum_by f (update_where P g l) = sum_by f l.
Proof.
  intros H. unfold sum_by, update_where. induction l as [|a l IH]; [done|].
  rewrite fmap_cons. cbn [foldr]. rewrite IH. case_decide; [by rewrite H|done].
Qed.

Lemma filter_none {A} (P : A -> Prop) `{HdP : !forall x, Decision (P x)} (l : list A) :
  (forall x, x ∈ l -> ~ P x) -> filter P l = [].
Proof.
  intros H. destruct (filter P l) as [|x l'] eqn:E; [done|].
  assert (x ∈ filter P l) as [HP Hx]%list_elem_of_filter by (rewrite E; set_solver).
  by destruct (H x Hx).
Qed.

(** A sum over selected rows does not grow when the rows are rewritten without
    changing the summand and nothing new is selected. *)
Lemma sum_by_filter_le {A} (f : A -> Z) (g : A -> A) (P Q : A -> Prop)
    `{HdP : !forall x, Decision (P x), HdQ : !forall x, Decision (Q x)} (l : list A) :
  (forall x, x ∈ l -> 0 <= f x) -> (forall x, x ∈ l -> f (g x) = f x) ->
  (forall x, x ∈ l -> P (g x) -> Q x) ->
  sum_by f (filter P (g <$> l)) <= sum_by f (filter Q l).
Proof.
  intros Hpos Hf HPQ. unfold sum_by in *. induction l as [|a l IH]; [done|]. rewrite fmap_cons, !filter_cons.
  assert (foldr (fun x acc => f x + acc) 0 (filter P (g <$> l)) <=
          foldr (fun x acc => f x + acc) 0 (filter Q l)) as IH'.
  { apply IH; intros; [apply Hpos|apply Hf|apply HPQ]; set_solver. }
  pose proof (Hpos a (list_elem_of_here a l)). pose proof (Hf a (list_elem_of_here a l)).
  pose proof (HPQ a (list_elem_of_here a l)).
  repeat case_decide; cbn [foldr]; (lia || tauto).
Qed.

(** A rewrite that keeps the selection and lowers the summand lowers the sum. *)
Lemma sum_by_update_le {A} (f : A -> Z) (Q P : A -> Prop)
    `{HdQ : !forall x, Decision (Q x), HdP : !forall x, Decision (P x)} (g : A -> A) (l : list A) :
  (forall x, x ∈ l -> P x -> f (g x) <= f x /\ (Q (g x) <-> Q x)) ->
  sum_by f (filter Q (update_where P g l)) <= sum_by f (filter Q l).
Proof.
  intros H. unfold sum_by, update_where in *. induction l as [|a l IH]; [done|].
  rewrite fmap_cons, !filter_cons.
  assert (foldr (fun x acc => f x + acc) 0 (filter Q ((fun x => if decide (P x) then g x else x) <$> l)) <=
          foldr (fun x acc => f x + acc) 0 (filter Q l)) as IH'
    by (apply IH; intros; apply H; set_solver).
  specialize (H a (list_elem_of_here a l)).
  destruct (decide (P a)) as [HP|HP].
  - specialize (H HP). repeat case_decide; cbn [foldr]; (lia || tauto).
  - repeat case_decide; cbn [foldr]; lia.
Qed.

(** ** Tactics

    [inv_ok H] takes a hypothesis that a chain of [let!], [check] and
    conditionals returned [Ok] and leaves what each step established. *)
Ltac inv_ok_step H :=
  lazymatch type of H with
  | (if decide ?P then _ else Err _) = Ok _ =>
      let Hc := fresh "Hc" in destruct (decide P) as [Hc|Hc]; [|discriminate H]
  | (match ?c with Ok _ => _ | Err _ => _ end) = Ok _ =>
      let E := fresh "E" in let a := fresh "a" in
      destruct c as [a|] eqn:E; [|discriminate H];
      try match type of a with unit => destruct a end
  | (match ?c with Some _ => _ | None => Err _ end) = Ok _ =>
      let E := fresh "E" in let a := fresh "a" in
      destruct c as [a|] eqn:E; [|discriminate H]
  | (let '(_, _) := ?c in _) = Ok _ =>
      first [is_var c; destruct c | let E := fresh "E" in destruct c eqn:E]
  | Ok _ = Ok _ => injection H as H
  end.
Ltac inv_ok H := cbv beta zeta in H; repeat inv_ok_step H.

(** Membership of an enumeration value in a literal list. *)
Ltac enum_solve :=
  repeat match goal with H : _ ∈ _ :: _ |- _ => rewrite !elem_of_cons, elem_of_nil in H end;
  rewrite ?elem_of_cons, ?elem_of_nil; intuition congruence.

(** The library's hint database: facts about tables, lists and labels that
    proofs discharge with [auto with engine]. *)
Create HintDb engine.

(** ** How a statement changes a table

    [rows_evolve R N l l']: the rows of [l] changed by [R], in place, and at
    most one row was appended to them, which satisfies [N]. *)
Definition rows_evolve {A} (R : relation A) (N : A -> Prop) (l l' : list A) : Prop :=
  exists l1 o, l' = l1 ++ option_list o /\ Forall2 R l l1 /\ forall x, o = Some x -> N x.

Section rows_evolve_lemmas.
Context {A : Type} (R : relation A) (N : A -> Prop).
Implicit Types (l : list A).

Lemma rows_evolve_refl l : Reflexive R -> rows_evolve R N l l.
Proof.
  intros HR. exists l, None. simpl. rewrite app_nil_r. split_and!; [done| |done].
  induction l; constructor; auto.
Qed.

Lemma rows_evolve_update l (P : A -> Prop) `{HdP : !forall x, Decision (P x)} (f : A -> A) :
  Reflexive R -> (forall x, x ∈ l -> P x -> R x (f x)) -> rows_evolve R N l (update_where P f l).
Proof.
  intros HR Hf. exists (update_where P f l), None. simpl. rewrite app_nil_r. split_and!; [done| |done].
  unfold update_where. induction l as [|a l IH]; constructor.
  - case_decide; [apply Hf; set_solver|done].
  - apply IH. set_solver.
Qed.

Lemma rows_evolve_insert l x : Reflexive R -> N x -> rows_evolve R N l (l ++ [x]).
Proof.
  intros HR HN. exists l, (Some x). split_and!; [done| |naive_solver].
  induction l; constructor; auto.
Qed.

Lemma rows_evolve_old l l' x : rows_evolve R N l l' -> x ∈ l -> exists x', x' ∈ l' /\ R x x'.
Proof.
  intros (l1 & o & -> & H & _) Hx. apply list_elem_of_lookup in Hx as [i Hi].
  destruct (Forall2_lookup_l _ _ _ _ _ H Hi) as (y & Hy & HR). exists y.
  split; [|done]. apply elem_of_app. left. by eapply list_elem_of_lookup_2.
Qed.

Lemma rows_evolve_cases l l' : rows_evolve R N l l' -> exists o : option A,
  (forall x, o = Some x -> N x) /\
  forall x', x' ∈ l' -> (exists x, x ∈ l /\ R x x') \/ o = Some x'.
Proof.
  intros (l1 & o & -> & H & HN). exists o. split; [done|]. intros x' [Hx|Hx]%elem_of_app.
  - left. apply list_elem_of_lookup in Hx as [i Hi].
    destruct (Forall2_lookup_r _ _ _ _ _ H Hi) as (y & Hy & HR). exists y.
    split; [|done]. by eapply list_elem_of_lookup_2.
  - right. destruct o; set_solver.
Qed.

Lemma rows_evolve_new l l' x' : rows_evolve R N l l' -> x' ∈ l' -> (exists x, x ∈ l /\ R x x') \/ N x'.
Proof. intros (o & HN & H)%rows_evolve_cases Hx. destruct (H x' Hx); auto. Qed.

(** A key that [R] keeps and the new row does not repeat stays unique. *)
Lemma rows_evolve_key {K} (key : A -> K) l l' :
  rows_evolve R N l l' -> (forall x y, R x y -> key y = key x) ->
  (forall x, N x -> key x ∉ key <$> l) -> NoDup (key <$> l) -> NoDup (key <$> l').
Proof.
  intros (l1 & o & -> & H & HN) Hkey Hnew Hnd.
  assert (key <$> l1 = key <$> l) as Heq.
  { induction H as [|x y l l1 Hxy H IH]; [done|]. rewrite !fmap_cons, (Hkey x y Hxy).
    f_equal. apply IH; intros; [|inversion Hnd; done]. pose proof (Hnew x0). set_solver. }
  rewrite fmap_app, Heq. apply NoDup_app. split_and!; [done| |].
  - intros k Hk Hin. destruct o as [x|]; simpl in Hin; [|set_solver].
    apply list_elem_of_singleton in Hin as ->. by apply (Hnew x); auto.
  - destruct o; [apply NoDup_singleton|constructor].
Qed.
End rows_evolve_lemmas.
