(* ===== verification/GoStrings.v ===== *)
(** * Go strings

    Go strings are byte sequences; [string] is the type of byte strings here
    and [bytes] its list of bytes.  This file holds the functions of package
    [strings] the modelled code calls, with the lemmas the components share. *)

From S2P Require Import Prelude.
From Stdlib Require Import Ascii.
Open Scope string_scope.
Open Scope list_scope.

Definition bytes (s : string) : list ascii := String.list_ascii_of_string s.
Definition of_bytes (l : list ascii) : string := String.string_of_list_ascii l.

Lemma of_bytes_bytes s : of_bytes (bytes s) = s.
Proof. apply String.string_of_list_ascii_of_string. Qed.
Lemma bytes_of_bytes l : bytes (of_bytes l) = l.
Proof. apply String.list_ascii_of_string_of_list_ascii. Qed.

Lemma bytes_inj s1 s2 : bytes s1 = bytes s2 -> s1 = s2.
Proof. intros H. by rewrite <- (of_bytes_bytes s1), H, of_bytes_bytes. Qed.

Lemma bytes_app s1 s2 : bytes (s1 +:+ s2) = bytes s1 ++ bytes s2.
Proof. unfold bytes. induction s1 as [|c s1 IH]; simpl; [done|]. by rewrite IH. Qed.

Lemma bytes_nil s : bytes s = [] <-> s = "".
Proof. destruct s; done. Qed.

(** [len(s)] *)
Definition go_len (s : string) : Z := Z.of_nat (String.length s).

(** [s[:n]] for [0 <= n <= len(s)] *)
Definition prefix_bytes (n : Z) (s : string) : string :=
  of_bytes (take (Z.to_nat n) (bytes s)).

Lemma go_len_app s1 s2 : go_len (s1 +:+ s2) = go_len s1 + go_len s2.
Proof.
  unfold go_len. induction s1 as [|c s1 IH]; [done|].
  change (String.String c s1 +:+ s2) with (String.String c (s1 +:+ s2)). cbn [String.length]. lia.
Qed.

Lemma length_bytes s : length (bytes s) = String.length s.
Proof. induction s as [|c s IH]; [done|]. cbn. by f_equal. Qed.

Lemma length_of_bytes l : String.length (of_bytes l) = length l.
Proof. unfold of_bytes. induction l as [|c l IH]; cbn; [done|]. f_equal. exact IH. Qed.

Lemma prefix_bytes_len n s : 0 <= n -> go_len (prefix_bytes n s) <= n.
Proof. intros Hn. unfold go_len, prefix_bytes. rewrite length_of_bytes, length_take. lia. Qed.

(** PostgreSQL's [left(s, n)]: the first [n] characters of UTF-8 text; the
    continuation bytes of a character do not count. *)
Definition continuation (b : ascii) : bool :=
  let v := nat_of_ascii b in (128 <=? v)%nat && (v <? 192)%nat.
Fixpoint left_bytes (n : nat) (l : list ascii) : list ascii :=
  match l with
  | [] => []
  | b :: l =>
      if continuation b then b :: left_bytes n l
      else match n with O => [] | S n => b :: left_bytes n l end
  end.
Definition left_chars (n : Z) (s : string) : string := of_bytes (left_bytes (Z.to_nat n) (bytes s)).

(** ** [strconv.Atoi] on a 64-bit platform *)
Definition int64_min : Z := - 2 ^ 63.
Definition int64_max : Z := 2 ^ 63 - 1.
(** Two's complement arithmetic of [int64] (and [int]). *)
Definition int64 (x : Z) : Z := (x + 2 ^ 63) mod 2 ^ 64 - 2 ^ 63.

Definition digit_value (c : ascii) : option Z :=
  let v := Z.of_nat (nat_of_ascii c) in
  if decide (48 <= v <= 57)%Z then Some (v - 48)%Z else None.

Fixpoint parse_digits (acc : Z) (l : list ascii) : option Z :=
  match l with
  | [] => Some acc
  | c :: l => match digit_value c with Some v => parse_digits (10 * acc + v)%Z l | None => None end
  end.

Definition parse_unsigned (l : list ascii) : option Z :=
  match l with [] => None | _ => parse_digits 0 l end.

Definition Atoi (s : string) : option Z :=
  let in_range (v : Z) := if decide (int64_min <= v <= int64_max)%Z then Some v else None in
  match bytes s with
  | "+"%char :: l => parse_unsigned l ≫= in_range
  | "-"%char :: l => parse_unsigned l ≫= (fun v => in_range (- v)%Z)
  | l => parse_unsigned l ≫= in_range
  end.

Lemma int64_id x : (int64_min <= x <= int64_max)%Z -> int64 x = x.
Proof. unfold int64, int64_min, int64_max. intros H. rewrite Z.mod_small; lia. Qed.

Lemma Atoi_range s v : Atoi s = Some v -> (int64_min <= v <= int64_max)%Z.
Proof.
  unfold Atoi. intros H.
  assert (exists (x : option Z) (f : Z -> Z), x ≫= (fun v => if decide (int64_min <= f v <= int64_max)%Z
    then Some (f v) else None) = Some v) as (x & f & Hx).
  { destruct (bytes s) as [|c l] eqn:E; [by exists None, id|].
    destruct c as [[] [] [] [] [] [] [] []];
      first [by exists (parse_unsigned l), id | by exists (parse_unsigned l), Z.opp
            | by exists (parse_unsigned (bytes s)), id; rewrite E]. }
  destruct x; [|done]. cbn in Hx. case_decide; by simplify_eq.
Qed.

(** ** [strings.TrimSpace]

    [unicode.IsSpace] on the UTF-8 encodings: the six ASCII spaces, U+0085,
    U+00A0, U+1680, U+2000-U+200A, U+2028, U+2029, U+202F, U+205F, U+3000. *)
Definition code (c : ascii) : N := N_of_ascii c.

Definition ascii_space (c : ascii) : bool :=
  ((9 <=? code c) && (code c <=? 13) || (code c =? 32))%N.

Definition space2 (a b : ascii) : bool :=
  ((code a =? 194) && ((code b =? 133) || (code b =? 160)))%N.

Definition space3 (a b c : ascii) : bool :=
  ((code a =? 225) && (code b =? 154) && (code c =? 128)
   || (code a =? 226) && (code b =? 128)
      && ((128 <=? code c) && (code c <=? 138)
          || (code c =? 168) || (code c =? 169) || (code c =? 175))
   || (code a =? 226) && (code b =? 129) && (code c =? 159)
   || (code a =? 227) && (code b =? 128) && (code c =? 128))%N.

Fixpoint trim_left (l : list ascii) : list ascii :=
  match l with
  | [] => []
  | a :: l1 =>
      if ascii_space a then trim_left l1 else
      match l1 with
      | [] => l
      | b :: l2 =>
          if space2 a b then trim_left l2 else
          match l2 with
          | [] => l
          | c :: l3 => if space3 a b c then trim_left l3 else l
          end
      end
  end.

(** The same on the reversed list, where the bytes of a rune come last first. *)
Fixpoint trim_left_rev (l : list ascii) : list ascii :=
  match l with
  | [] => []
  | a :: l1 =>
      if ascii_space a then trim_left_rev l1 else
      match l1 with
      | [] => l
      | b :: l2 =>
          if space2 b a then trim_left_rev l2 else
          match l2 with
          | [] => l
          | c :: l3 => if space3 c b a then trim_left_rev l3 else l
          end
      end
  end.

Definition TrimSpace (s : string) : string :=
  of_bytes (rev (trim_left_rev (rev (trim_left (bytes s))))).

#[global] Arguments TrimSpace : simpl never.

(** A byte that is neither ASCII space nor part of a multi-byte rune. *)
Definition plain (c : ascii) : bool := (negb (ascii_space c) && (code c <? 128))%N.

Lemma plain_spec c : plain c = true <-> ascii_space c = false /\ (code c < 128)%N.
Proof.
  unfold plain. rewrite andb_true_iff, negb_true_iff, N.ltb_lt. done.
Qed.

Lemma space2_plain_l a b : plain a = true -> space2 a b = false.
Proof.
  intros [_ Ha]%plain_spec. unfold space2.
  destruct (N.eqb_spec (code a) 194); [lia|done].
Qed.
Lemma space3_plain_l a b c : plain a = true -> space3 a b c = false.
Proof.
  intros [_ Ha]%plain_spec. unfold space3.
  destruct (N.eqb_spec (code a) 225), (N.eqb_spec (code a) 226), (N.eqb_spec (code a) 227);
    first [lia|done].
Qed.
Lemma space2_plain_r a b : plain b = true -> space2 a b = false.
Proof.
  intros [_ Hb]%plain_spec. unfold space2.
  destruct (N.eqb_spec (code b) 133), (N.eqb_spec (code b) 160);
    first [lia|by rewrite andb_false_r].
Qed.
Lemma space3_plain_r a b c : plain c = true -> space3 a b c = false.
Proof.
  intros [_ Hc]%plain_spec. unfold space3.
  destruct (N.eqb_spec (code c) 128), (N.leb_spec 128 (code c)),
    (N.eqb_spec (code c) 168), (N.eqb_spec (code c) 169), (N.eqb_spec (code c) 175),
    (N.eqb_spec (code c) 159); first [lia|simpl; by rewrite !andb_false_r].
Qed.

Lemma trim_left_plain a l : plain a = true -> trim_left (a :: l) = a :: l.
Proof.
  intros Ha. pose proof Ha as [Hs _]%plain_spec. simpl. rewrite Hs.
  destruct l as [|b l]; [done|]. rewrite space2_plain_l by done.
  destruct l as [|c l]; [done|]. by rewrite space3_plain_l.
Qed.
Lemma trim_left_rev_plain a l : plain a = true -> trim_left_rev (a :: l) = a :: l.
Proof.
  intros Ha. pose proof Ha as [Hs _]%plain_spec. simpl. rewrite Hs.
  destruct l as [|b l]; [done|]. rewrite space2_plain_r by done.
  destruct l as [|c l]; [done|]. by rewrite space3_plain_r.
Qed.

(** A string of plain bytes is its own trimming. *)
Lemma TrimSpace_plain s :
  Forall (fun c => plain c = true) (bytes s) -> TrimSpace s = s.
Proof.
  intros H. unfold TrimSpace.
  assert (trim_left (bytes s) = bytes s) as ->.
  { destruct (bytes s); [done|]. apply trim_left_plain. by inversion H. }
  assert (trim_left_rev (rev (bytes s)) = rev (bytes s)) as ->.
  { destruct (rev (bytes s)) as [|a l] eqn:E; [done|]. apply trim_left_rev_plain.
    rewrite List.Forall_forall in H. apply H, in_rev.
    rewrite E. by left. }
  by rewrite rev_involutive, of_bytes_bytes.
Qed.

Example trim_ex : TrimSpace "  a b	
" = "a b".
Proof. reflexivity. Qed.

(** ** [strings.Join] *)
Fixpoint Join (parts : list string) (sep : string) : string :=
  match parts with
  | [] => ""
  | [p] => p
  | p :: rest => p +:+ sep +:+ Join rest sep
  end.

(** A byte that occurs in no part separates them: [Join] is injective on lists
    of the same length. *)
Definition free_of (c : ascii) (s : string) : Prop := c ∉ bytes s.
#[export] Instance free_of_dec c s : Decision (free_of c s).
Proof. unfold free_of. apply _. Defined.

Lemma split_at_sep (c : ascii) (l1 l2 r1 r2 : list ascii) :
  c ∉ l1 -> c ∉ l2 -> (l1 ++ c :: r1 = l2 ++ c :: r2) -> l1 = l2 /\ r1 = r2.
Proof.
  revert l2. induction l1 as [|a l1 IH]; intros [|b l2] H1 H2 Heq; simpl in Heq; simplify_eq.
  - done.
  - by rewrite not_elem_of_cons in H2; destruct H2.
  - by rewrite not_elem_of_cons in H1; destruct H1.
  - rewrite !not_elem_of_cons in H1, H2. destruct H1, H2.
    by destruct (IH l2) as [-> ->].
Qed.

Lemma Join_cons_bytes p q rest (c : ascii) :
  bytes (Join (p :: q :: rest) (String.String c "")) =
  (bytes p ++ c :: bytes (Join (q :: rest) (String.String c ""))).
Proof.
  change (Join (p :: q :: rest) (String.String c "")) with
    (p +:+ String.String c "" +:+ Join (q :: rest) (String.String c "")).
  by rewrite !bytes_app.
Qed.

Lemma Join_inj (c : ascii) ps qs :
  length ps = length qs -> Forall (free_of c) ps -> Forall (free_of c) qs ->
  Join ps (String.String c "") = Join qs (String.String c "") -> ps = qs.
Proof.
  revert qs. induction ps as [|p ps IH]; intros [|q qs] Hlen Hp Hq Heq; [done|done|done|].
  inversion Hp; inversion Hq; subst.
  destruct ps as [|p' ps], qs as [|q' qs]; try done.
  - simpl in Heq. by subst.
  - apply (f_equal bytes) in Heq. rewrite !Join_cons_bytes in Heq.
    apply split_at_sep in Heq as [->%bytes_inj Hrest%bytes_inj]; [|done|done].
    f_equal. apply IH; auto.
Qed.

(** A list of non-empty parts with no separator in them is determined by its
    join, whatever its length. *)
Lemma Join_inj_nonempty (c : ascii) ps qs :
  Forall (fun s => free_of c s /\ s <> "") ps ->
  Forall (fun s => free_of c s /\ s <> "") qs ->
  Join ps (String.String c "") = Join qs (String.String c "") -> ps = qs.
Proof.
  revert qs. induction ps as [|p ps IH]; intros [|q qs] Hp Hq Heq.
  - done.
  - inversion Hq as [|?? [Hf Hn]]; subst. destruct qs as [|q' qs].
    + simpl in Heq. congruence.
    + apply (f_equal bytes) in Heq. rewrite Join_cons_bytes in Heq. simpl in Heq.
      destruct (bytes q); done.
  - inversion Hp as [|?? [Hf Hn]]; subst. destruct ps as [|p' ps].
    + simpl in Heq. congruence.
    + apply (f_equal bytes) in Heq. rewrite Join_cons_bytes in Heq. simpl in Heq.
      destruct (bytes p); done.
  - inversion Hp as [|?? [Hfp Hnp] Hps]; inversion Hq as [|?? [Hfq Hnq] Hqs]; subst.
    destruct ps as [|p' ps], qs as [|q' qs].
    + simpl in Heq. by subst.
    + apply (f_equal bytes) in Heq. rewrite Join_cons_bytes in Heq. simpl in Heq.
      exfalso. apply Hfp. rewrite Heq. set_solver.
    + apply (f_equal bytes) in Heq. rewrite Join_cons_bytes in Heq. simpl in Heq.
      exfalso. apply Hfq. rewrite <- Heq. set_solver.
    + apply (f_equal bytes) in Heq. rewrite !Join_cons_bytes in Heq.
      apply split_at_sep in Heq as [->%bytes_inj Hrest%bytes_inj]; [|done|done].
      f_equal. by apply IH.
Qed.

(** ** [sort.Strings] *)
Definition SortStrings : list string -> list string := sort_by (by_str (fun s => s)).

Lemma by_str_eq (x y : string) : by_str (fun s => s) x y = Eq -> x = y.
Proof. apply String.compare_eq_iff. Qed.

(** ** Normalised label sets

    The loop the code runs over a list of labels: trim each, refuse the whole
    list at the first invalid one ([Err] with that label), keep the first
    occurrence of each. *)
Fixpoint trim_dedup (valid : string -> bool) (seen : gset string) (labels : list string)
    : result string (list string) :=
  match labels with
  | [] => Ok []
  | label :: labels =>
      let label := TrimSpace label in
      if negb (valid label) then Err label
      else if decide (label ∈ seen) then trim_dedup valid seen labels
      else let! rest := trim_dedup valid ({[label]} ∪ seen) labels in
           Ok (label :: rest)
  end.

Section trim_dedup_lemmas.
Context (valid : string -> bool).

Lemma trim_dedup_spec seen labels l :
  trim_dedup valid seen labels = Ok l ->
  NoDup l /\ Forall (fun s => valid s = true) l /\
  (forall x, x ∈ l <-> (x ∉ seen) /\ (x ∈ TrimSpace <$> labels)) /\
  (length l <= length labels)%nat.
Proof.
  revert seen l. induction labels as [|a labels IH]; intros seen l; cbn [trim_dedup].
  { intros [= <-]. split_and!; [constructor|constructor|set_solver|done]. }
  destruct (valid (TrimSpace a)) eqn:Hv; cbn [negb]; [|done].
  case_decide as Hin.
  - intros (Hnd & Hall & Hx & Hlen)%IH. split_and!; [done|done|set_solver|simpl; lia].
  - destruct (trim_dedup valid ({[TrimSpace a]} ∪ seen) labels) as [r|] eqn:E; [|done].
    intros [= <-]. apply IH in E as (Hnd & Hall & Hx & Hlen).
    split_and!; [|by constructor| |simpl; lia].
    + constructor; [|done]. rewrite Hx. set_solver.
    + intros x. rewrite elem_of_cons, Hx, fmap_cons, elem_of_cons.
      destruct (decide (x = TrimSpace a)); set_solver.
Qed.

Lemma trim_dedup_trimmed seen l :
  NoDup l -> (forall x, x ∈ l -> (x ∉ seen) /\ valid x = true /\ TrimSpace x = x) ->
  trim_dedup valid seen l = Ok l.
Proof.
  revert seen. induction l as [|a l IH]; intros seen Hnd H; simpl; [done|].
  inversion_clear Hnd as [|?? Ha Hnd'].
  destruct (H a) as (Hs & Hv & Ht); [set_solver|]. rewrite Ht, Hv. simpl.
  rewrite decide_False by done. rewrite IH; [done|done|].
  intros x Hx. destruct (H x) as (? & ? & ?); [set_solver|].
  repeat split; auto. assert (x <> a) by (intros ->; done). set_solver.
Qed.

(** Refused exactly when some trimmed label is invalid. *)
Lemma trim_dedup_total seen labels :
  (forall x, x ∈ labels -> valid (TrimSpace x) = true) ->
  exists l, trim_dedup valid seen labels = Ok l.
Proof.
  revert seen. induction labels as [|a labels IH]; intros seen H; simpl; [by eauto|].
  rewrite (H a) by set_solver. simpl.
  destruct (IH ({[TrimSpace a]} ∪ seen)) as [r Hr]; [set_solver|].
  case_decide; [apply IH; set_solver|]. rewrite Hr. eauto.
Qed.
End trim_dedup_lemmas.

Lemma elem_of_SortStrings x l : x ∈ SortStrings l <-> x ∈ l.
Proof. apply elem_of_sort_by. Qed.

(** A strictly sorted list of labels. *)
Lemma SortStrings_idemp l : SortStrings (SortStrings l) = SortStrings l.
Proof. apply sort_by_unique; [apply _|apply by_str_eq|apply sort_by_perm]. Qed.

Lemma NoDup_SortStrings l : NoDup l -> NoDup (SortStrings l).
Proof. intros H. unfold SortStrings. by rewrite sort_by_perm. Qed.

(** Two duplicate-free lists of the same labels sort to the same list. *)
Lemma SortStrings_ext l1 l2 :
  NoDup l1 -> NoDup l2 -> (forall x, x ∈ l1 <-> x ∈ l2) -> SortStrings l1 = SortStrings l2.
Proof.
  intros H1 H2 Hx. apply sort_by_unique; [apply _|apply by_str_eq|].
  by apply NoDup_Permutation.
Qed.

Lemma free_of_app c s1 s2 : free_of c (s1 +:+ s2) <-> free_of c s1 /\ free_of c s2.
Proof. unfold free_of. rewrite bytes_app. set_solver. Qed.

Lemma free_of_Join c sep l : free_of c sep -> Forall (free_of c) l -> free_of c (Join l sep).
Proof.
  intros Hsep. induction 1 as [|p l Hp Hl IH]; simpl.
  - unfold free_of. set_solver.
  - destruct l; [done|]. rewrite !free_of_app. done.
Qed.

(** ** Trimming a keyed label

    [key:value] loses only the trailing space of its value. *)
Definition TrimRight (s : string) : string := of_bytes (rev (trim_left_rev (rev (bytes s)))).

Lemma space3_plain_m a b c : plain b = true -> space3 a b c = false.
Proof.
  intros [_ Hb]%plain_spec. unfold space3.
  destruct (N.eqb_spec (code b) 154), (N.eqb_spec (code b) 128), (N.eqb_spec (code b) 129);
    first [lia|by rewrite ?andb_false_r, ?andb_false_l].
Qed.

Lemma trim_left_rev_app n l c r :
  (length l <= n)%nat -> plain c = true ->
  trim_left_rev (l ++ c :: r) = trim_left_rev l ++ c :: r.
Proof.
  revert l. induction n as [|n IH]; intros l Hlen Hc.
  { destruct l; [|simpl in Hlen; lia]. by apply trim_left_rev_plain. }
  destruct l as [|a [|b [|d l]]]; [by apply trim_left_rev_plain|..].
  - simpl. destruct (ascii_space a); [by apply trim_left_rev_plain|].
    rewrite space2_plain_l by done. destruct r; [done|]. by rewrite space3_plain_m.
  - simpl. destruct (ascii_space a); [|destruct (space2 b a)].
    + by apply (IH [b]); [simpl in *; lia|].
    + by apply trim_left_rev_plain.
    + by rewrite space3_plain_l.
  - assert (forall l', trim_left_rev (a :: b :: d :: l') =
      if ascii_space a then trim_left_rev (b :: d :: l') else
      if space2 b a then trim_left_rev (d :: l') else
      if space3 d b a then trim_left_rev l' else a :: b :: d :: l') as Hunf by done.
    rewrite <- !app_comm_cons, !Hunf. simpl in Hlen.
    destruct (ascii_space a); [|destruct (space2 b a); [|destruct (space3 d b a)]].
    + apply (IH (b :: d :: l)); [simpl; lia|done].
    + apply (IH (d :: l)); [simpl; lia|done].
    + apply IH; [lia|done].
    + done.
Qed.

Lemma TrimSpace_keyed key (c : ascii) s :
  key <> "" -> Forall (fun c => plain c = true) (bytes key) -> plain c = true ->
  TrimSpace (key +:+ String.String c s) = key +:+ String.String c (TrimRight s).
Proof.
  intros Hne Hkey Hc. apply bytes_inj. unfold TrimSpace, TrimRight.
  rewrite !bytes_of_bytes, !bytes_app.
  assert (trim_left (bytes key ++ bytes (String.String c s)) =
          bytes key ++ bytes (String.String c s)) as ->.
  { destruct key as [|k key]; [done|]. simpl. apply trim_left_plain. by inversion Hkey. }
  change (bytes (String.String c s)) with (c :: bytes s).
  rewrite rev_app_distr. simpl. rewrite <- app_assoc. simpl.
  rewrite (trim_left_rev_app (length (rev (bytes s)))) by done.
  rewrite rev_app_distr. simpl. rewrite rev_involutive, <- app_assoc. simpl.
  f_equal. unfold bytes at 2. simpl. f_equal. symmetry. apply bytes_of_bytes.
Qed.

Lemma trim_left_rev_suffix n l : (length l <= n)%nat -> exists k, l = k ++ trim_left_rev l.
Proof.
  revert l. induction n as [|n IH]; intros l Hlen.
  { destruct l; [by exists []|simpl in Hlen; lia]. }
  destruct l as [|a [|b [|d l]]]; simpl in *; [by exists []|..].
  - destruct (ascii_space a); [by exists [a]|by exists []].
  - destruct (ascii_space a); [|destruct (space2 b a); [by exists [a; b]|by exists []]].
    destruct (ascii_space b); [by exists [a; b]|by exists [a]].
  - destruct (ascii_space a).
    { destruct (IH (b :: d :: l)) as [k Hk]; [simpl; lia|]. exists (a :: k). simpl in *. congruence. }
    destruct (space2 b a).
    { destruct (IH (d :: l)) as [k Hk]; [simpl; lia|]. exists (a :: b :: k). simpl in *. congruence. }
    destruct (space3 d b a); [|by exists []].
    destruct (IH l) as [k Hk]; [lia|]. exists (a :: b :: d :: k). simpl. congruence.
Qed.

Lemma TrimRight_TrimSpace s c r :
  TrimRight s = String.String c r -> plain c = true -> TrimSpace s = TrimRight s.
Proof.
  intros H Hc. unfold TrimSpace, TrimRight in *. f_equal. f_equal. f_equal. f_equal.
  destruct (trim_left_rev_suffix (length (rev (bytes s))) (rev (bytes s))) as [k Hk]; [done|].
  apply (f_equal (@rev ascii)) in Hk. rewrite rev_involutive, rev_app_distr in Hk.
  apply (f_equal bytes) in H. rewrite bytes_of_bytes in H. rewrite H in Hk. simpl in Hk.
  rewrite Hk. by apply trim_left_plain.
Qed.

(** ** Letter case and search *)

(** [strings.ToLower] as far as an ASCII word can see it: ASCII letters, and
    the two other letters whose lower case is ASCII (U+212A and U+0130). *)
Fixpoint ascii_fold (l : list ascii) : list ascii :=
  match l with
  | [] => []
  | c :: l' =>
      let n := N_of_ascii c in
      let rest := ascii_fold l' in
      match l' with
      | b :: l'' =>
          if decide (n = 196%N /\ N_of_ascii b = 176%N) then "i"%char :: ascii_fold l''
          else match l'' with
          | a :: l3 =>
              if decide (n = 226%N /\ N_of_ascii b = 132%N /\ N_of_ascii a = 170%N)
              then "k"%char :: ascii_fold l3
              else (if decide (65 <= n <= 90)%N then ascii_of_N (n + 32) else c) :: rest
          | [] => (if decide (65 <= n <= 90)%N then ascii_of_N (n + 32) else c) :: rest
          end
      | [] => [if decide (65 <= n <= 90)%N then ascii_of_N (n + 32) else c]
      end
  end.

Fixpoint Contains (l sub : list ascii) : bool :=
  bool_decide (sub `prefix_of` l) || match l with [] => false | _ :: l' => Contains l' sub end.

(** [strings.ToLower] where the result only matters if it is ASCII. *)
Definition ToLower (s : string) : string := of_bytes (ascii_fold (bytes s)).

(** [strings.ContainsAny] for ASCII characters *)
Definition ContainsAny (s chars : string) : bool :=
  existsb (fun c => bool_decide (c ∈ bytes chars)) (bytes s).

(** Lower-case hexadecimal digits: the strings that [hex.DecodeString] accepts
    (at even length) and that [strings.ToLower] leaves alone. *)
Definition hex_digit (c : ascii) : bool :=
  let n := N_of_ascii c in (((48 <=? n) && (n <=? 57)) || ((97 <=? n) && (n <=? 102)))%N.
Definition lower_hex (s : string) : bool := forallb hex_digit (bytes s).

(** The number of characters of valid UTF-8 (PostgreSQL's [length]). *)
Definition char_length (s : string) : Z :=
  Z.of_nat (length (filter (fun c => ~ (128 <= N_of_ascii c < 192)%N) (bytes s))).
