(* ===== verification/GoRegexp.v ===== *)
(** * Go regular expressions

    The patterns of the modelled packages are anchored ([^...$]), so
    [MatchString] asks whether the whole string is in the language.  The
    matcher uses Brzozowski derivatives; [accepts_spec] proves it equal to the
    language [denotes]. *)

From S2P Require Import Prelude GoStrings.
From Stdlib Require Import Ascii.

Inductive re : Type :=
| Empty
| Eps
| Cls (f : ascii -> bool)        (* one byte of a class *)
| Cat (r1 r2 : re)
| Alt (r1 r2 : re)
| Star (r : re)
| UpTo (n : nat) (r : re).       (* r{0,n} *)

Inductive denotes : re -> list ascii -> Prop :=
| d_eps : denotes Eps []
| d_cls f c : f c = true -> denotes (Cls f) [c]
| d_cat r1 r2 l1 l2 : denotes r1 l1 -> denotes r2 l2 -> denotes (Cat r1 r2) (l1 ++ l2)
| d_alt_l r1 r2 l : denotes r1 l -> denotes (Alt r1 r2) l
| d_alt_r r1 r2 l : denotes r2 l -> denotes (Alt r1 r2) l
| d_star_nil r : denotes (Star r) []
| d_star_app r l1 l2 : denotes r l1 -> denotes (Star r) l2 -> denotes (Star r) (l1 ++ l2)
| d_upto_nil n r : denotes (UpTo n r) []
| d_upto_app n r l1 l2 :
    denotes r l1 -> denotes (UpTo n r) l2 -> denotes (UpTo (S n) r) (l1 ++ l2).

Fixpoint nullable (r : re) : bool :=
  match r with
  | Empty => false
  | Eps => true
  | Cls _ => false
  | Cat r1 r2 => nullable r1 && nullable r2
  | Alt r1 r2 => nullable r1 || nullable r2
  | Star _ => true
  | UpTo _ _ => true
  end.

(** Smart constructors keep derivatives small. *)
Definition cat (r1 r2 : re) : re :=
  match r1, r2 with
  | Empty, _ => Empty
  | _, Empty => Empty
  | Eps, r => r
  | r, _ => Cat r r2
  end.

Definition alt (r1 r2 : re) : re :=
  match r1, r2 with
  | Empty, r => r
  | r, Empty => r
  | _, _ => Alt r1 r2
  end.

Fixpoint der (c : ascii) (r : re) : re :=
  match r with
  | Empty => Empty
  | Eps => Empty
  | Cls f => if f c then Eps else Empty
  | Cat r1 r2 =>
      if nullable r1 then alt (cat (der c r1) r2) (der c r2) else cat (der c r1) r2
  | Alt r1 r2 => alt (der c r1) (der c r2)
  | Star r => cat (der c r) (Star r)
  | UpTo O _ => Empty
  | UpTo (S n) r => cat (der c r) (UpTo n r)
  end.

Fixpoint accepts (r : re) (l : list ascii) : bool :=
  match l with
  | [] => nullable r
  | c :: l => accepts (der c r) l
  end.

Definition MatchString (r : re) (s : string) : bool := accepts r (bytes s).
#[global] Arguments MatchString : simpl never.

(** r{n} and r+ *)
Fixpoint Times (n : nat) (r : re) : re :=
  match n with O => Eps | S n => Cat r (Times n r) end.
Definition Plus (r : re) : re := Cat r (Star r).
Definition Opt (r : re) : re := Alt Eps r.

(** A literal byte string. *)
Fixpoint Lit (s : string) : re :=
  match s with
  | String.EmptyString => Eps
  | String.String c s => Cat (Cls (fun x => Ascii.eqb x c)) (Lit s)
  end.

Definition in_range (lo hi c : ascii) : bool :=
  ((code lo <=? code c) && (code c <=? code hi))%N.
Definition one_of (s : string) (c : ascii) : bool := existsb (Ascii.eqb c) (bytes s).

(** ** Correctness of the matcher *)

Lemma nullable_spec r : nullable r = true <-> denotes r [].
Proof.
  split.
  - induction r; simpl; try done.
    + constructor.
    + rewrite andb_true_iff. intros [??]. apply (d_cat _ _ [] []); auto.
    + rewrite orb_true_iff. intros [?|?]; [apply d_alt_l|apply d_alt_r]; auto.
    + constructor.
    + constructor.
  - intros H. remember (@nil ascii) as l eqn:E. induction H; simpl; subst; try done.
    + apply app_eq_nil in E as [-> ->]. by rewrite IHdenotes1, IHdenotes2.
    + by rewrite IHdenotes.
    + rewrite IHdenotes by done. by rewrite orb_true_r.
Qed.

Lemma denotes_empty l : ~ denotes Empty l.
Proof. by inversion 1. Qed.

Lemma cat_spec r1 r2 l : denotes (cat r1 r2) l <-> denotes (Cat r1 r2) l.
Proof.
  split.
  - destruct r1, r2; simpl; try done; intros H;
      try (by apply denotes_empty in H);
      (apply (d_cat Eps _ [] l); [constructor|done]).
  - inversion 1 as [| |? ? l1 l2 H1 H2| | | | | |]; subst.
    destruct r1, r2; simpl; try done;
      try (by apply denotes_empty in H1); try (by apply denotes_empty in H2);
      inversion H1; subst; done.
Qed.

Lemma alt_spec r1 r2 l : denotes (alt r1 r2) l <-> denotes r1 l \/ denotes r2 l.
Proof.
  assert (forall r r', denotes (Alt r r') l <-> denotes r l \/ denotes r' l) as Halt.
  { intros r r'. split; [by inversion 1; auto|].
    intros [?|?]; [by apply d_alt_l|by apply d_alt_r]. }
  destruct r1; simpl; try (destruct r2; simpl); rewrite ?Halt;
    split; intros H; repeat destruct H as [H|H]; auto; by apply denotes_empty in H.
Qed.

Lemma denotes_upto_S n r l : denotes (UpTo n r) l -> denotes (UpTo (S n) r) l.
Proof.
  intros H. remember (UpTo n r) as q eqn:E. revert n E.
  induction H; intros n' E; simplify_eq.
  - constructor.
  - apply d_upto_app; [done|]. by apply IHdenotes2.
Qed.

Lemma der_spec c r l : denotes (der c r) l <-> denotes r (c :: l).
Proof.
  revert l. induction r as [| |f|r1 IH1 r2 IH2|r1 IH1 r2 IH2|r IH|n r IH]; intros l; simpl.
  - split; intros H; by apply denotes_empty in H.
  - split; intros H; [by apply denotes_empty in H|inversion H].
  - destruct (f c) eqn:E.
    + split; intros H; inversion H; subst; by constructor.
    + split; intros H; [by apply denotes_empty in H|]. inversion H; congruence.
  - assert (denotes (cat (der c r1) r2) l <->
            exists l1 l2, l = (l1 ++ l2) /\ denotes r1 (c :: l1) /\ denotes r2 l2) as Hc.
    { rewrite cat_spec. split.
      - inversion 1; subst. eexists _, _. split; [done|]. by rewrite <- IH1.
      - intros (l1 & l2 & -> & H1 & H2). apply d_cat; [by apply IH1|done]. }
    assert (denotes (Cat r1 r2) (c :: l) <->
      (exists l1 l2, l = (l1 ++ l2) /\ denotes r1 (c :: l1) /\ denotes r2 l2) \/
      (denotes r1 [] /\ denotes r2 (c :: l))) as Hcat.
    { split.
      - inversion 1 as [| |? ? l1 l2 H1 H2 Ha Hb| | | | | |]; subst.
        destruct l1 as [|a l1]; simplify_eq/=; [by right|]. left. eauto.
      - intros [(l1 & l2 & -> & H1 & H2)|[H1 H2]].
        + by apply (d_cat _ _ (c :: l1) l2).
        + by apply (d_cat _ _ [] (c :: l)). }
    rewrite Hcat. destruct (nullable r1) eqn:E.
    + rewrite alt_spec, Hc, IH2. apply nullable_spec in E. tauto.
    + rewrite Hc. split; [by left|]. intros [?|[H1 _]]; [done|].
      apply nullable_spec in H1. congruence.
  - rewrite alt_spec, IH1, IH2. split.
    + intros [?|?]; [by apply d_alt_l|by apply d_alt_r].
    + by inversion 1; auto.
  - rewrite cat_spec. split.
    + inversion 1; subst. apply (d_star_app r (c :: l1)); [by apply IH|done].
    + intros H. remember (Star r) as q eqn:Eq. remember (c :: l) as m eqn:Em.
      revert l Em. induction H as [| | | | | |r' l1 l2 H1 _ H2 IHs| |];
        intros m' Em; simplify_eq.
      destruct l1 as [|a l1]; simplify_eq/=; [by apply IHs|].
      apply d_cat; [by apply IH|done].
  - destruct n as [|n].
    + split; intros H; [by apply denotes_empty in H|]. inversion H.
    + rewrite cat_spec. split.
      * inversion 1; subst. apply (d_upto_app n r (c :: l1)); [by apply IH|done].
      * intros H. remember (UpTo (S n) r) as q eqn:Eq. remember (c :: l) as m eqn:Em.
        revert n l Eq Em.
        induction H as [| | | | | | | |k r' l1 l2 H1 _ H2 IHs]; intros n' m' Eq Em; simplify_eq.
        destruct l1 as [|a l1]; simplify_eq/=.
        -- destruct n' as [|n']; [by inversion H2|].
           specialize (IHs n' m' eq_refl eq_refl).
           inversion IHs as [| |? ? m1 m2 Hm1 Hm2| | | | | |]; subst.
           apply d_cat; [done|]. by apply denotes_upto_S.
        -- apply d_cat; [by apply IH|done].
Qed.

Lemma accepts_spec r l : accepts r l = true <-> denotes r l.
Proof.
  revert r. induction l as [|c l IH]; intros r; simpl; [apply nullable_spec|].
  by rewrite IH, der_spec.
Qed.

(** ** The alphabet of a pattern *)

Fixpoint uses (P : ascii -> Prop) (r : re) : Prop :=
  match r with
  | Empty | Eps => True
  | Cls f => forall c, f c = true -> P c
  | Cat r1 r2 | Alt r1 r2 => uses P r1 /\ uses P r2
  | Star r | UpTo _ r => uses P r
  end.

Lemma denotes_alphabet P r l : uses P r -> denotes r l -> Forall P l.
Proof.
  intros Hu H. induction H; simpl in *; rewrite ?Forall_app; naive_solver.
Qed.

Lemma MatchString_alphabet P r s :
  uses P r -> MatchString r s = true -> Forall P (bytes s).
Proof. intros Hu H. apply (denotes_alphabet P r); [done|]. by apply accepts_spec. Qed.

Lemma MatchString_nonempty r s : nullable r = false -> MatchString r s = true -> s <> ""%string.
Proof. intros Hn H ->. unfold MatchString in H. simpl in H. congruence. Qed.

Lemma denotes_star_cls f l : Forall (fun c => f c = true) l -> denotes (Star (Cls f)) l.
Proof.
  induction 1 as [|c l Hc Hl IH]; [constructor|].
  apply (d_star_app _ [c] l); [by constructor|done].
Qed.

Lemma denotes_plus_cls f l : l <> [] -> Forall (fun c => f c = true) l -> denotes (Plus (Cls f)) l.
Proof.
  intros Hne H. destruct H as [|c l Hc Hl]; [done|].
  apply (d_cat _ _ [c] l); [by constructor|by apply denotes_star_cls].
Qed.

Lemma denotes_cat r1 r2 l :
  denotes (Cat r1 r2) l <-> exists l1 l2, l = l1 ++ l2 /\ denotes r1 l1 /\ denotes r2 l2.
Proof.
  split; [inversion 1; subst; eauto|]. intros (l1 & l2 & -> & ? & ?). by constructor.
Qed.

Lemma denotes_lit s l : denotes (Lit s) l <-> l = bytes s.
Proof.
  revert l. induction s as [|c s IH]; intros l; simpl.
  - split; [by inversion 1|intros ->; constructor].
  - rewrite denotes_cat. split.
    + intros (l1 & l2 & -> & H1 & ->%IH). inversion H1 as [|f d Hd| | | | | | |]; subst.
      apply Ascii.eqb_eq in Hd as ->. done.
    + intros ->. exists [c], (bytes s). split_and!; [done| |by apply IH].
      constructor. apply Ascii.eqb_refl.
Qed.

Lemma denotes_opt r l : denotes (Opt r) l <-> l = [] \/ denotes r l.
Proof.
  unfold Opt. split.
  - inversion 1 as [| | |? ? ? He| | | | |]; subst; [left; by inversion He|by right].
  - intros [->|H]; [apply d_alt_l; constructor|by apply d_alt_r].
Qed.

(** A fact about every byte of a class, decided by enumeration. *)
Definition all_ascii : list ascii := (fun n => ascii_of_nat n) <$> seq 0 256.

Lemma class_forall (f : ascii -> bool) (P : ascii -> Prop) `{HdP : !forall c, Decision (P c)} :
  forallb (fun c => implb (f c) (bool_decide (P c))) all_ascii = true ->
  forall c, f c = true -> P c.
Proof.
  rewrite forallb_forall. intros H c Hf. specialize (H c).
  rewrite Hf in H. cbn [implb] in H. rewrite bool_decide_eq_true in H. apply H.
  apply list_elem_of_In, list_elem_of_fmap. exists (nat_of_ascii c).
  split; [symmetry; apply ascii_nat_embedding|].
  apply elem_of_seq. pose proof (nat_ascii_bounded c). lia.
Qed.

Ltac by_class := first [exact I | refine (class_forall _ _ _); vm_compute; reflexivity].
