(* ===== verification/GoNet.v ===== *)
(** * Go package [net]: the address functions the code calls

    [SplitHostPort], [ParseIP] (through [netip.ParseAddr]) and
    [IPNet.Contains], on byte strings.  An [IP] is its 16-byte form, IPv4
    addresses mapped to [::ffff:a.b.c.d] as [ParseIP] returns them. *)

From S2P Require Import Prelude GoStrings.
From Stdlib Require Import Ascii.
Open Scope string_scope.
Open Scope list_scope.

(** ** Bytes *)
Definition digit (c : ascii) : option Z :=
  let v := Z.of_N (code c) in
  if decide (48 <= v <= 57) then Some (v - 48) else None.

Definition hex_digit (c : ascii) : option Z :=
  let v := Z.of_N (code c) in
  if decide (48 <= v <= 57) then Some (v - 48)
  else if decide (97 <= v <= 102) then Some (v - 87)
  else if decide (65 <= v <= 70) then Some (v - 55)
  else None.

(** [strings.IndexByte] and [strings.LastIndexByte] *)
Fixpoint index_byte (c : ascii) (l : list ascii) : option nat :=
  match l with
  | [] => None
  | a :: l => if Ascii.eqb a c then Some O else S <$> index_byte c l
  end.

Definition last_index_byte (c : ascii) (l : list ascii) : option nat :=
  (fun i => length l - 1 - i)%nat <$> index_byte c (rev l).

(** ** [SplitHostPort]: host and port, [None] for every address error. *)
Definition SplitHostPort (hostport : list ascii) : option (list ascii * list ascii) :=
  match last_index_byte ":" hostport with
  | None => None
  | Some i =>
      let finish host j k :=
        if decide ("["%char ∈ drop j hostport) then None
        else if decide ("]"%char ∈ drop k hostport) then None
        else Some (host, drop (S i) hostport) in
      if decide (head hostport = Some "["%char) then
        match index_byte "]" hostport with
        | None => None
        | Some stop =>
            if decide (S stop = i)
            then finish (drop 1 (take stop hostport)) 1%nat (S stop)
            else None
        end
      else
        let host := take i hostport in
        if decide (":"%char ∈ host) then None else finish host O O
  end.

(** ** [parseIPv4Fields]

    The four octets of the whole of [l]; [prev] is the byte before [l] in the
    string (the code's [s[i-1]]), [val] and [digLen] the open octet. *)
Fixpoint parse_ipv4_fields (l : list ascii) (prev : option ascii) (val : Z) (digLen : nat)
    (fields : list Z) : option (list Z) :=
  match l with
  | [] => if decide (length fields = 3%nat) then Some (fields ++ [val]) else None
  | c :: rest =>
      match digit c with
      | Some d =>
          if decide (digLen = 1%nat /\ val = 0) then None
          else let val := val * 10 + d in
               if decide (255 < val) then None
               else parse_ipv4_fields rest (Some c) val (S digLen) fields
      | None =>
          if decide (c = "."%char) then
            if decide (prev = None \/ rest = [] \/ prev = Some "."%char) then None
            else if decide (length fields = 3%nat) then None
            else parse_ipv4_fields rest (Some c) 0 O (fields ++ [val])
          else None
      end
  end.

(** ** [parseIPv6], without a zone *)

(** One group: the leading hexadecimal digits, at most four of them. *)
Fixpoint hex_group (l : list ascii) (off : nat) (acc : Z) : option (nat * Z * list ascii) :=
  match l with
  | [] => Some (off, acc, [])
  | c :: rest =>
      match hex_digit c with
      | None => Some (off, acc, l)
      | Some d =>
          if decide (3 < off)%nat then None
          else hex_group rest (S off) (acc * 16 + d)
      end
  end.

(** The loop: at most eight groups, so [fuel] 8 is enough.  The result is the
    bytes read, the position of the ellipsis and the unread rest. *)
Fixpoint parse_groups (fuel : nat) (s : list ascii) (ip : list Z) (ellipsis : option nat)
    : option (list Z * option nat * list ascii) :=
  match fuel with
  | O => Some (ip, ellipsis, s)
  | S fuel =>
      match hex_group s O 0 with
      | None => None
      | Some (off, acc, rest) =>
          if decide (off = O) then None
          else if decide (head rest = Some "."%char) then
            if decide (ellipsis = None /\ length ip <> 12%nat) then None
            else if decide (16 < length ip + 4)%nat then None
            else match parse_ipv4_fields s None 0 O [] with
                 | None => None
                 | Some v4 => Some (ip ++ v4, ellipsis, [])
                 end
          else
            let ip := ip ++ [acc / 256; acc mod 256] in
            match rest with
            | [] => Some (ip, ellipsis, [])
            | c :: s1 =>
                if decide (c <> ":"%char) then None
                else match s1 with
                     | [] => None
                     | c1 :: s2 =>
                         if decide (c1 = ":"%char) then
                           if decide (is_Some ellipsis) then None
                           else match s2 with
                                | [] => Some (ip, Some (length ip), [])
                                | _ => parse_groups fuel s2 ip (Some (length ip))
                                end
                         else parse_groups fuel s1 ip ellipsis
                     end
            end
      end
  end.

Definition parse_ipv6 (s : list ascii) : option (list Z) :=
  if decide (s = bytes "::") then Some (replicate 16 0) else
  let '(s, ellipsis) :=
    if decide (take 2 s = bytes "::") then (drop 2 s, Some O) else (s, None) in
  match parse_groups 8 s [] ellipsis with
  | Some (ip, ellipsis, []) =>
      if decide (length ip < 16)%nat then
        match ellipsis with
        | None => None
        | Some e => Some (take e ip ++ replicate (16 - length ip) 0 ++ drop e ip)
        end
      else match ellipsis with None => Some ip | Some _ => None end
  | _ => None
  end.

(** [ParseIP]: the first of '.', ':' and '%' selects the family; an address
    with a zone is refused. *)
Definition v4_in_v6 (v4 : list Z) : list Z := replicate 10 0 ++ [255; 255] ++ v4.

Fixpoint first_of_family (l : list ascii) : option ascii :=
  match l with
  | [] => None
  | c :: l => if decide (c = "."%char \/ c = ":"%char \/ c = "%"%char) then Some c
              else first_of_family l
  end.

Definition ParseIP (s : list ascii) : option (list Z) :=
  match first_of_family s with
  | Some c =>
      if decide (c = "."%char) then v4_in_v6 <$> parse_ipv4_fields s None 0 O []
      else if decide (c = ":"%char) then
        if decide ("%"%char ∈ s) then None else parse_ipv6 s
      else None
  | None => None
  end.

(** ** [IPNet.Contains]

    A network is its address and its mask, both of 4 or both of 16 bytes as
    [ParseCIDR] builds them. *)
Record IPNet := mkIPNet { net_ip : list Z; net_mask : list Z }.

Definition To4 (ip : list Z) : option (list Z) :=
  if decide (length ip = 4%nat) then Some ip
  else if decide (length ip = 16%nat /\ take 12 ip = replicate 10 0 ++ [255; 255])
       then Some (drop 12 ip) else None.

Definition masked (m a b : Z) : bool := (Z.land a m =? Z.land b m)%Z.

Fixpoint all_masked (mask a b : list Z) : bool :=
  match mask, a, b with
  | m :: mask, x :: a, y :: b => masked m x y && all_masked mask a b
  | _, _, _ => true
  end.

Definition Contains (n : IPNet) (ip : list Z) : bool :=
  let nn := default (net_ip n) (To4 (net_ip n)) in
  let ip := default ip (To4 ip) in
  if decide (length ip = length nn /\ length nn = length (net_mask n))
  then all_masked (net_mask n) nn ip else false.

Example parse_v4_ex : ParseIP (bytes "10.0.0.7") = Some (v4_in_v6 [10; 0; 0; 7]).
Proof. vm_compute. reflexivity. Qed.
Example parse_v6_ex :
  ParseIP (bytes "fd00::1:2") =
  Some [253; 0; 0; 0; 0; 0; 0; 0; 0; 0; 0; 0; 0; 1; 0; 2].
Proof. vm_compute. reflexivity. Qed.
Example split_ex : SplitHostPort (bytes "[fd00::1]:3632") = Some (bytes "fd00::1", bytes "3632").
Proof. vm_compute. reflexivity. Qed.

(** Every parsed address has sixteen bytes. *)
Lemma parse_ipv4_fields_length l prev val n fields v :
  parse_ipv4_fields l prev val n fields = Some v -> length v = 4%nat.
Proof.
  revert prev val n fields. induction l as [|c l IH]; intros prev val n fields; simpl.
  - case_decide; [|done]. intros [= <-]. rewrite length_app. simpl. lia.
  - destruct (digit c); repeat case_decide; try done; apply IH.
Qed.

Lemma parse_groups_length fuel s ip e ip' e' rest :
  parse_groups fuel s ip e = Some (ip', e', rest) ->
  (length ip + 2 * fuel <= 16)%nat -> (length ip' <= 16)%nat.
Proof.
  revert s ip e. induction fuel as [|fuel IH]; intros s ip e; cbn -[hex_group]; intros H Hlen.
  { simplify_eq. lia. }
  destruct (hex_group s 0 0) as [[[off acc] r]|]; [|done].
  destruct (decide (off = 0%nat)); [done|].
  destruct (decide (head r = Some "."%char)).
  - repeat case_decide; try done.
    all: destruct (parse_ipv4_fields s None 0 0 []) as [v4|] eqn:E4; [|done].
    all: apply parse_ipv4_fields_length in E4; simplify_eq; rewrite length_app; lia.
  - destruct r as [|c [|c1 [|c2 s2]]]; repeat case_decide; simplify_eq;
      try (apply (IH _ _ _ H)); rewrite length_app; simpl; lia.
Qed.

Lemma ParseIP_length s ip : ParseIP s = Some ip -> length ip = 16%nat.
Proof.
  unfold ParseIP. destruct (first_of_family s) as [c|]; [|done].
  repeat case_decide; try done.
  - destruct (parse_ipv4_fields _ _ _ _ _) as [v4|] eqn:E; [|done].
    apply parse_ipv4_fields_length in E. simpl. intros [= <-].
    unfold v4_in_v6. rewrite !length_app, length_replicate. simpl. lia.
  - unfold parse_ipv6. case_decide; [by intros [= <-]|].
    destruct (if decide (take 2 s = bytes "::") then _ else _) as [s' e0].
    destruct (parse_groups 8 s' [] e0) as [[[ip' e] rest]|] eqn:E; [|done].
    apply parse_groups_length in E; [|simpl; lia].
    destruct rest; [|done]. case_decide; destruct e; try done; intros [= <-]; [|lia].
    rewrite !length_app, length_take, length_replicate, length_drop. lia.
Qed.

(** ** [IndexByte] and [LastIndexByte] *)
Lemma index_byte_app c l1 l2 : c ∉ l1 -> index_byte c (l1 ++ c :: l2) = Some (length l1).
Proof.
  induction l1 as [|a l1 IH]; intros H; simpl.
  - by rewrite Ascii.eqb_refl.
  - destruct (Ascii.eqb_spec a c) as [->|]; [set_solver|]. by rewrite IH by set_solver.
Qed.

Lemma index_byte_none c l : c ∉ l -> index_byte c l = None.
Proof.
  induction l as [|a l IH]; intros H; simpl; [done|].
  destruct (Ascii.eqb_spec a c) as [->|]; [set_solver|]. by rewrite IH by set_solver.
Qed.

Lemma elem_of_rev (c : ascii) l : c ∈ rev l <-> c ∈ l.
Proof. by rewrite !list_elem_of_In, <- in_rev. Qed.

Lemma last_index_byte_app c l1 l2 : c ∉ l2 -> last_index_byte c (l1 ++ c :: l2) = Some (length l1).
Proof.
  intros H. unfold last_index_byte. rewrite rev_app_distr. simpl. rewrite <- app_assoc. simpl.
  rewrite index_byte_app by (by rewrite elem_of_rev).
  simpl. f_equal. rewrite length_rev, length_app. simpl. lia.
Qed.

Lemma last_index_byte_none c l : c ∉ l -> last_index_byte c l = None.
Proof. intros H. unfold last_index_byte. rewrite index_byte_none; [done|]. by rewrite elem_of_rev. Qed.
