(* ===== verification/GoSha256.v ===== *)
(** * SHA-256 ([crypto/sha256.Sum256], FIPS 180-4) and [hex.EncodeToString]

    The code uses digests as identities, so the hash is defined here rather
    than assumed: pool identifiers evaluate to the strings the program
    computes.  No theorem relies on collision resistance. *)

From S2P Require Import Prelude GoStrings.
From Stdlib Require Import Ascii.
Open Scope string_scope.
Open Scope list_scope.

Definition w32 (x : Z) : Z := Z.land x 4294967295.
Definition add32 (x y : Z) : Z := w32 (x + y).
Definition rotr (n x : Z) : Z := Z.lor (Z.shiftr x n) (w32 (Z.shiftl x (32 - n))).
Definition not32 (x : Z) : Z := Z.lxor x 4294967295.

Definition sha_ch (x y z : Z) : Z := Z.lxor (Z.land x y) (Z.land (not32 x) z).
Definition sha_maj (x y z : Z) : Z :=
  Z.lxor (Z.lxor (Z.land x y) (Z.land x z)) (Z.land y z).
Definition big0 (x : Z) : Z := Z.lxor (Z.lxor (rotr 2 x) (rotr 13 x)) (rotr 22 x).
Definition big1 (x : Z) : Z := Z.lxor (Z.lxor (rotr 6 x) (rotr 11 x)) (rotr 25 x).
Definition small0 (x : Z) : Z := Z.lxor (Z.lxor (rotr 7 x) (rotr 18 x)) (Z.shiftr x 3).
Definition small1 (x : Z) : Z := Z.lxor (Z.lxor (rotr 17 x) (rotr 19 x)) (Z.shiftr x 10).

(** The constants are the first 32 fractional bits of the cube roots of the
    first 64 primes and of the square roots of the first 8; they are computed
    here from that definition. *)
Definition prime_test (n : nat) : bool :=
  forallb (fun d => negb (n mod d =? 0)%nat) (seq 2 (n - 2)).
Definition first_primes (count : nat) : list Z :=
  Z.of_nat <$> take count (List.filter prime_test (seq 2 310)).

(** The largest [r] below [2^bits] with [r * r * r <= n], bit by bit. *)
Fixpoint cube_root (bits : nat) (r n : Z) : Z :=
  match bits with
  | O => r
  | S bits =>
      let r' := r + Z.shiftl 1 (Z.of_nat bits) in
      cube_root bits (if (r' * r' * r' <=? n)%Z then r' else r) n
  end.

Definition K256 : list Z := Eval vm_compute in
  (fun p => w32 (cube_root 40 0 (Z.shiftl p 96))) <$> first_primes 64.
Definition H256 : list Z := Eval vm_compute in
  (fun p => w32 (Z.sqrt (Z.shiftl p 64))) <$> first_primes 8.

(** The message schedule, kept as the last sixteen words, newest first. *)
Fixpoint schedule (n : nat) (recent : list Z) : list Z :=
  match n with
  | O => []
  | S n =>
      let w i := default 0 (recent !! (i - 1)%nat) in
      let next := add32 (add32 (small1 (w 2%nat)) (w 7%nat))
                        (add32 (small0 (w 15%nat)) (w 16%nat)) in
      next :: schedule n (take 16 (next :: recent))
  end.

Definition round (st : list Z) (kw : Z * Z) : list Z :=
  match st with
  | [a; b; c; d; e; f; g; h] =>
      let t1 := add32 (add32 h (big1 e)) (add32 (sha_ch e f g) (add32 kw.1 kw.2)) in
      let t2 := add32 (big0 a) (sha_maj a b c) in
      [add32 t1 t2; a; b; c; add32 d t1; e; f; g]
  | _ => st
  end.

Definition compress (h : list Z) (block : list Z) : list Z :=
  let ws := block ++ schedule 48 (rev block) in
  zip_with add32 h (foldl round h (zip K256 ws)).

Fixpoint words (l : list Z) : list Z :=
  match l with
  | a :: b :: c :: d :: l => (a * 16777216 + b * 65536 + c * 256 + d) :: words l
  | _ => []
  end.

Fixpoint blocks (fuel : nat) (ws : list Z) : list (list Z) :=
  match fuel with
  | O => []
  | S fuel => match ws with [] => [] | _ => take 16 ws :: blocks fuel (drop 16 ws) end
  end.

Definition be_bytes (n : nat) (x : Z) : list Z :=
  (fun i => Z.shiftr x (8 * Z.of_nat (n - 1 - i)) mod 256) <$> seq 0 n.

Definition pad (msg : list Z) : list Z :=
  let len := length msg in
  let zeros := Z.to_nat ((55 - Z.of_nat len) mod 64) in
  msg ++ [128] ++ replicate zeros 0 ++ be_bytes 8 (8 * Z.of_nat len).

Definition Sum256 (msg : list ascii) : list Z :=
  let ws := words (pad ((fun c => Z.of_N (code c)) <$> msg)) in
  mbind (be_bytes 4) (foldl compress H256 (blocks (length ws) ws)).

(** ** Hexadecimal *)
Definition hex_char (v : Z) : ascii :=
  ascii_of_N (Z.to_N (if decide (v < 10) then 48 + v else 87 + v)).

Definition EncodeToString (l : list Z) : string :=
  of_bytes (mbind (fun b => [hex_char (b / 16); hex_char (b mod 16)]) l).

Example sha256_abc :
  EncodeToString (Sum256 (bytes "abc")) =
  "ba7816bf8f01cfea414140de5dae2223b00361a396177a9cb410ff61f20015ad".
Proof. vm_compute. reflexivity. Qed.
Example sha256_two_blocks :
  EncodeToString (Sum256 (bytes "abcdbcdecdefdefgefghfghighijhijkijkljklmklmnlmnomnopnopq")) =
  "248d6a61d20638b8e5c026930c3e6039a33ce45964ff2167f6ecedd419db06c1".
Proof. vm_compute. reflexivity. Qed.

(** Hexadecimal encoding loses nothing. *)
Lemma hex_char_inj a b : 0 <= a < 16 -> 0 <= b < 16 -> hex_char a = hex_char b -> a = b.
Proof.
  intros Ha Hb H. apply (f_equal N_of_ascii) in H. unfold hex_char in H.
  rewrite !N_ascii_embedding in H by (repeat case_decide; lia).
  repeat case_decide; lia.
Qed.

Lemma EncodeToString_inj l1 l2 :
  Forall (fun b => 0 <= b < 256) l1 -> Forall (fun b => 0 <= b < 256) l2 ->
  EncodeToString l1 = EncodeToString l2 -> l1 = l2.
Proof.
  intros H1 H2 H. apply (f_equal bytes) in H. unfold EncodeToString in H.
  rewrite !bytes_of_bytes in H. revert l2 H2 H.
  induction H1 as [|a l1 Ha H1 IH]; intros l2 H2 H; destruct H2 as [|b l2 Hb H2];
    simpl in H; [done|done|done|].
  injection H as Hq Hr Hrest.
  assert (a / 16 = b / 16) by (apply hex_char_inj; [| |done]; Z.to_euclidean_division_equations; lia).
  assert (a mod 16 = b mod 16) by (apply hex_char_inj; [| |done]; Z.to_euclidean_division_equations; lia).
  f_equal; [Z.to_euclidean_division_equations; lia|by apply IH].
Qed.

Lemma Sum256_bytes msg : Forall (fun b => 0 <= b < 256) (Sum256 msg).
Proof.
  unfold Sum256. apply Forall_bind, Forall_true. intros w.
  unfold be_bytes. apply Forall_fmap, Forall_true. intros i. simpl. apply Z.mod_pos_bound. lia.
Qed.

Lemma round_length st kw : length (round st kw) = length st.
Proof. by do 9 (destruct st as [|? st]; [done|]). Qed.

Lemma compress_length h block : length (compress h block) = length h.
Proof.
  unfold compress. rewrite length_zip_with.
  enough (forall kws st, length (foldl round st kws) = length st) as -> by lia.
  intros kws. induction kws as [|kw kws IH]; intros st; [done|]. cbn [foldl]. by rewrite IH, round_length.
Qed.

Lemma Sum256_length msg : length (Sum256 msg) = 32%nat.
Proof.
  unfold Sum256. cbv zeta. generalize (blocks (length (words (pad ((fun c => Z.of_N (code c)) <$> msg))))
    (words (pad ((fun c => Z.of_N (code c)) <$> msg)))). intros bs.
  assert (forall h, length (foldl compress h bs) = length h) as H.
  { induction bs as [|b bs IH]; intros h; [done|]. cbn [foldl]. by rewrite IH, compress_length. }
  specialize (H H256). generalize dependent (foldl compress H256 bs). intros l Hl.
  do 8 (destruct l as [|? l]; [done|]). by destruct l.
Qed.
