(* ===== verification/GoSha512.v ===== *)
(** * SHA-512 ([crypto/sha512.Sum512], FIPS 180-4)

    The manifest of a binary package lists its members by this hash and by
    BLAKE2b, which is not part of the standard library. *)

From S2P Require Import Prelude GoStrings GoSha256.
From Stdlib Require Import Ascii.
Open Scope string_scope.
Open Scope list_scope.
Open Scope Z_scope.

Definition mask64 : Z := Eval vm_compute in 2 ^ 64 - 1.
Definition w64 (x : Z) : Z := Z.land x mask64.
Definition add64 (x y : Z) : Z := w64 (x + y).
Definition rotr64 (n x : Z) : Z := Z.lor (Z.shiftr x n) (w64 (Z.shiftl x (64 - n))).
Definition ch64 (x y z : Z) : Z := Z.lxor (Z.land x y) (Z.land (Z.lxor x mask64) z).
Definition big0_64 (x : Z) : Z := Z.lxor (Z.lxor (rotr64 28 x) (rotr64 34 x)) (rotr64 39 x).
Definition big1_64 (x : Z) : Z := Z.lxor (Z.lxor (rotr64 14 x) (rotr64 18 x)) (rotr64 41 x).
Definition small0_64 (x : Z) : Z := Z.lxor (Z.lxor (rotr64 1 x) (rotr64 8 x)) (Z.shiftr x 7).
Definition small1_64 (x : Z) : Z := Z.lxor (Z.lxor (rotr64 19 x) (rotr64 61 x)) (Z.shiftr x 6).

Definition primes80 : list Z := Eval vm_compute in
  Z.of_nat <$> take 80 (List.filter prime_test (seq 2 410)).
Definition K512 : list Z := Eval vm_compute in
  (fun p => w64 (cube_root 70 0 (Z.shiftl p 192))) <$> primes80.
Definition H512 : list Z := Eval vm_compute in
  (fun p => w64 (Z.sqrt (Z.shiftl p 128))) <$> take 8 primes80.

Fixpoint schedule64 (n : nat) (recent : list Z) : list Z :=
  match n with
  | O => []
  | S n =>
      let w i := default 0 (recent !! (i - 1)%nat) in
      let next := add64 (add64 (small1_64 (w 2%nat)) (w 7%nat)) (add64 (small0_64 (w 15%nat)) (w 16%nat)) in
      next :: schedule64 n (take 16 (next :: recent))
  end.

Definition round64 (st : list Z) (kw : Z * Z) : list Z :=
  match st with
  | [a; b; c; d; e; f; g; h] =>
      let t1 := add64 (add64 h (big1_64 e)) (add64 (ch64 e f g) (add64 kw.1 kw.2)) in
      let t2 := add64 (big0_64 a) (sha_maj a b c) in
      [add64 t1 t2; a; b; c; add64 d t1; e; f; g]
  | _ => st
  end.

Definition compress64 (h : list Z) (block : list Z) : list Z :=
  let ws := block ++ schedule64 64 (rev block) in
  zip_with add64 h (foldl round64 h (zip K512 ws)).

Fixpoint words64 (l : list Z) : list Z :=
  match l with
  | a :: b :: c :: d :: e :: f :: g :: h :: l =>
      foldl (fun acc x => acc * 256 + x) 0 [a; b; c; d; e; f; g; h] :: words64 l
  | _ => []
  end.

Definition pad64 (msg : list Z) : list Z :=
  let len := length msg in
  let zeros := Z.to_nat ((111 - Z.of_nat len) mod 128) in
  msg ++ [128] ++ replicate zeros 0 ++ be_bytes 16 (8 * Z.of_nat len).

Definition Sum512 (msg : list ascii) : list Z :=
  let ws := words64 (pad64 ((fun c => Z.of_N (code c)) <$> msg)) in
  mbind (be_bytes 8) (foldl compress64 H512 (blocks (length ws) ws)).

Example sha512_abc :
  EncodeToString (Sum512 (bytes "abc")) =
  "ddaf35a193617abacc417349ae20413112e6fa4e89a97ea20a9eeee64b55d39a" +:+
  "2192992a274fc1a836ba3c23a3feebbd454d4423643ce80e2a9ac94fa54ca49f".
Proof. vm_compute. reflexivity. Qed.

(** ** Its shape *)
Lemma round64_length st kw : length st = 8%nat -> length (round64 st kw) = 8%nat.
Proof. intros H. do 8 (destruct st as [|? st]; [done|]). by destruct st. Qed.

Lemma compress64_length h block : length h = 8%nat -> length (compress64 h block) = 8%nat.
Proof.
  intros H. unfold compress64. rewrite length_zip_with, H.
  enough (forall kws st, length st = 8%nat -> length (foldl round64 st kws) = 8%nat) as -> by done.
  intros kws. induction kws as [|kw kws IH]; intros st Hst; [done|]. cbn. by apply IH, round64_length.
Qed.

Lemma Sum512_length msg : length (Sum512 msg) = 64%nat.
Proof.
  unfold Sum512. cbv zeta. generalize (blocks (length (words64 (pad64 ((fun c => Z.of_N (code c)) <$> msg))))
    (words64 (pad64 ((fun c => Z.of_N (code c)) <$> msg)))). intros bs.
  assert (length (foldl compress64 H512 bs) = 8%nat) as H.
  { assert (length H512 = 8%nat) as H0 by reflexivity. revert H0. generalize H512. induction bs as [|b bs IH]; intros h Hh; [done|].
    cbn. by apply IH, compress64_length. }
  generalize dependent (foldl compress64 H512 bs). intros l Hl. do 8 (destruct l as [|? l]; [done|]). by destruct l.
Qed.

Lemma be_bytes_range n x : Forall (fun b => 0 <= b < 256) (be_bytes n x).
Proof. unfold be_bytes. apply Forall_fmap, Forall_forall. intros i _. cbn. apply Z.mod_pos_bound. lia. Qed.

Lemma Sum512_range msg : Forall (fun b => 0 <= b < 256) (Sum512 msg).
Proof. unfold Sum512. cbv zeta. apply Forall_bind, Forall_forall. intros x _. apply be_bytes_range. Qed.

(** A 64-byte digest in hexadecimal: 128 lower-case digits. *)
Lemma hex_char_digit v : 0 <= v < 16 -> hex_digit (hex_char v) = true.
Proof.
  intros H. assert (forallb (fun n => hex_digit (hex_char (Z.of_nat n))) (seq 0 16) = true) as Hall by reflexivity.
  rewrite forallb_forall in Hall. specialize (Hall (Z.to_nat v)). rewrite Z2Nat.id in Hall by lia.
  apply Hall, in_seq. lia.
Qed.

Lemma EncodeToString_hex l : Forall (fun b => 0 <= b < 256) l ->
  lower_hex (EncodeToString l) = true /\ String.length (EncodeToString l) = (2 * length l)%nat.
Proof.
  intros H. unfold lower_hex, EncodeToString. rewrite bytes_of_bytes, length_of_bytes.
  induction H as [|b l Hb _ [IH1 IH2]]; [done|]. cbn [mbind list_bind]. rewrite length_app, forallb_app, IH1, IH2. cbn.
  rewrite !hex_char_digit; [split; [done|lia]| |].
  - apply Z.mod_pos_bound. lia.
  - split; [apply Z.div_pos; lia|apply Z.div_lt_upper_bound; lia].
Qed.
