(* ===== verification/GoJson.v ===== *)
(** * [encoding/json]

    The text [json.Marshal] gives a [map[string]string] (object keys in sorted
    order, strings with HTML-safe escaping, invalid UTF-8 replaced by the escaped
    U+FFFD), which bounds the size of stored documents; and [json.Valid], the
    package's scanner, byte by byte. *)

From S2P Require Import Prelude GoStrings GoSha256.
From Stdlib Require Import Ascii.
Open Scope string_scope.
Open Scope list_scope.

Definition cont (lo hi : Z) (c : ascii) : bool :=
  ((lo <=? Z.of_N (code c)) && (Z.of_N (code c) <=? hi))%Z.

(** The bytes of the leading rune of a byte list that starts with a byte at or
    above 128; [None] when they are not valid UTF-8. *)
Definition utf8_rune (l : list ascii) : option nat :=
  match l with
  | b0 :: b1 :: rest =>
      let v := Z.of_N (code b0) in
      if decide (194 <= v <= 223) then if cont 128 191 b1 then Some 2%nat else None
      else if decide (224 <= v <= 239) then
        let lo := if decide (v = 224) then 160 else 128 in
        let hi := if decide (v = 237) then 159 else 191 in
        match rest with
        | b2 :: _ => if cont lo hi b1 && cont 128 191 b2 then Some 3%nat else None
        | [] => None
        end
      else if decide (240 <= v <= 244) then
        let lo := if decide (v = 240) then 144 else 128 in
        let hi := if decide (v = 244) then 143 else 191 in
        match rest with
        | b2 :: b3 :: _ =>
            if cont lo hi b1 && cont 128 191 b2 && cont 128 191 b3 then Some 4%nat else None
        | _ => None
        end
      else None
  | _ => None
  end.

Definition BS : ascii := "\"%char.
Definition QUOTE : ascii := ascii_of_N 34.
Definition hex4 (v : Z) : list ascii :=
  [BS; "u"%char; hex_char (v / 4096); hex_char (v / 256 mod 16); hex_char (v / 16 mod 16);
   hex_char (v mod 16)].

Definition escape_ascii (c : ascii) : list ascii :=
  let v := Z.of_N (code c) in
  if decide (c = BS \/ c = QUOTE) then [BS; c]
  else if decide (v = 8) then [BS; "b"%char]
  else if decide (v = 12) then [BS; "f"%char]
  else if decide (v = 10) then [BS; "n"%char]
  else if decide (v = 13) then [BS; "r"%char]
  else if decide (v = 9) then [BS; "t"%char]
  else if decide (v < 32 \/ c = "<"%char \/ c = ">"%char \/ c = "&"%char) then hex4 v
  else [c].

(** U+2028 and U+2029 are escaped as well. *)
Definition line_separator (l : list ascii) : option Z :=
  if decide (take 3 l = ascii_of_N <$> [226; 128; 168]%N) then Some 8232
  else if decide (take 3 l = ascii_of_N <$> [226; 128; 169]%N) then Some 8233
  else None.

Fixpoint encode_bytes (fuel : nat) (l : list ascii) : list ascii :=
  match fuel, l with
  | O, _ | _, [] => []
  | S fuel, c :: rest =>
      if decide (Z.of_N (code c) < 128) then escape_ascii c ++ encode_bytes fuel rest
      else match utf8_rune l with
           | None => hex4 65533 ++ encode_bytes fuel rest
           | Some n =>
               (match line_separator l with Some v => hex4 v | None => take n l end) ++
               encode_bytes fuel (drop n l)
           end
  end.

(** Each step consumes at least a byte, so the length is fuel enough. *)
Definition encode_string (s : string) : list ascii :=
  QUOTE :: encode_bytes (length (bytes s)) (bytes s) ++ [QUOTE].

Definition encode_members (m : gmap string string) : list (list ascii) :=
  (fun k => encode_string k ++ ":"%char :: encode_string (default "" (m !! k))) <$>
  SortStrings (elements (dom m)).

Fixpoint join_bytes (parts : list (list ascii)) : list ascii :=
  match parts with
  | [] => []
  | [p] => p
  | p :: rest => p ++ ","%char :: join_bytes rest
  end.

Definition MarshalStringMap (m : gmap string string) : list ascii :=
  "{"%char :: join_bytes (encode_members m) ++ ["}"%char].

Example marshal_ex :
  MarshalStringMap {["zone" := "a<b"; "ip" := "10.0.0.1"]} =
  bytes (of_bytes ("{"%char :: QUOTE :: bytes "ip" ++ QUOTE :: ":"%char :: QUOTE ::
    bytes "10.0.0.1" ++ QUOTE :: ","%char :: QUOTE :: bytes "zone" ++ QUOTE :: ":"%char ::
    QUOTE :: bytes "a\u003cb" ++ [QUOTE; "}"%char])).
Proof. vm_compute. reflexivity. Qed.

(** ** [json.Valid] *)
Inductive parse_state := ParseObjectKey | ParseObjectValue | ParseArrayValue.

(** The [step] function of the scanner; [SLit] has the letters still to come of
    [true], [false] or [null], [SEscU] the hexadecimal digits of an escape. *)
Inductive scan_state :=
| SBeginValue | SBeginValueOrEmpty | SBeginString | SBeginStringOrEmpty | SEndValue | SEndTop
| SInString | SEsc | SEscU (digits : nat) | SNeg | SOne | SZero | SDot | SDotZero | SExp | SExpSign | SExpZero
| SLit (rest : list ascii) | SError.

Record scanner := mkScanner { sc_step : scan_state; sc_stack : list parse_state; sc_end_top : bool }.

Definition maxNestingDepth : Z := 10000.

Definition is_space (c : ascii) : bool := bool_decide (N_of_ascii c ∈ [32; 9; 13; 10]%N).
Definition digit_byte (c : ascii) : bool := ((48 <=? N_of_ascii c) && (N_of_ascii c <=? 57))%N.
Definition hex_byte (c : ascii) : bool :=
  (digit_byte c || ((97 <=? N_of_ascii c) && (N_of_ascii c <=? 102)) ||
   ((65 <=? N_of_ascii c) && (N_of_ascii c <=? 70)))%N%bool.

Definition go_step (s : scanner) (t : scan_state) : scanner := mkScanner t (sc_stack s) (sc_end_top s).
Definition push_state (s : scanner) (p : parse_state) (t : scan_state) : scanner :=
  let stack := p :: sc_stack s in
  mkScanner (if decide (Z.of_nat (length stack) <= maxNestingDepth)%Z then t else SError) stack (sc_end_top s).
Definition pop_state (s : scanner) : scanner :=
  match sc_stack s with
  | [] => go_step s SError
  | [_] => mkScanner SEndTop [] true
  | _ :: stack => mkScanner SEndValue stack (sc_end_top s)
  end.

Definition end_value (s : scanner) (c : ascii) : scanner :=
  match sc_stack s with
  | [] => mkScanner (if is_space c then SEndTop else SError) [] true
  | top :: stack =>
      if is_space c then go_step s SEndValue else
      match top with
      | ParseObjectKey =>
          if decide (c = ":"%char) then mkScanner SBeginValue (ParseObjectValue :: stack) (sc_end_top s)
          else go_step s SError
      | ParseObjectValue =>
          if decide (c = ","%char) then mkScanner SBeginString (ParseObjectKey :: stack) (sc_end_top s)
          else if decide (c = "}"%char) then pop_state s else go_step s SError
      | ParseArrayValue =>
          if decide (c = ","%char) then go_step s SBeginValue
          else if decide (c = "]"%char) then pop_state s else go_step s SError
      end
  end.

Definition begin_value (s : scanner) (c : ascii) : scanner :=
  if is_space c then s
  else if decide (c = "{"%char) then push_state s ParseObjectKey SBeginStringOrEmpty
  else if decide (c = "["%char) then push_state s ParseArrayValue SBeginValueOrEmpty
  else if decide (c = ascii_of_N 34) then go_step s SInString
  else if decide (c = "-"%char) then go_step s SNeg
  else if decide (c = "0"%char) then go_step s SZero
  else if decide (c = "t"%char) then go_step s (SLit (bytes "rue"))
  else if decide (c = "f"%char) then go_step s (SLit (bytes "alse"))
  else if decide (c = "n"%char) then go_step s (SLit (bytes "ull"))
  else if digit_byte c then go_step s SOne else go_step s SError.

Definition begin_string (s : scanner) (c : ascii) : scanner :=
  if is_space c then s else if decide (c = ascii_of_N 34) then go_step s SInString else go_step s SError.

Definition zero_step (s : scanner) (c : ascii) : scanner :=
  if decide (c = "."%char) then go_step s SDot
  else if decide (c = "e"%char \/ c = "E"%char) then go_step s SExp else end_value s c.

Definition exp_sign (s : scanner) (c : ascii) : scanner :=
  if digit_byte c then go_step s SExpZero else go_step s SError.

Definition scan_byte (s : scanner) (c : ascii) : scanner :=
  match sc_step s with
  | SBeginValue => begin_value s c
  | SBeginValueOrEmpty =>
      if is_space c then s else if decide (c = "]"%char) then end_value s c else begin_value s c
  | SBeginStringOrEmpty =>
      if is_space c then s
      else if decide (c = "}"%char) then
        end_value (mkScanner (sc_step s) (ParseObjectValue :: tail (sc_stack s)) (sc_end_top s)) c
      else begin_string s c
  | SBeginString => begin_string s c
  | SEndValue => end_value s c
  | SEndTop => if is_space c then s else go_step s SError
  | SInString =>
      if decide (c = ascii_of_N 34) then go_step s SEndValue
      else if decide (c = ascii_of_N 92) then go_step s SEsc
      else if decide (N_of_ascii c < 32)%N then go_step s SError else s
  | SEsc =>
      if decide (c ∈ bytes "bfnrt/" ++ [ascii_of_N 92; ascii_of_N 34]) then go_step s SInString
      else if decide (c = "u"%char) then go_step s (SEscU 4) else go_step s SError
  | SEscU n =>
      if hex_byte c then go_step s (match n with S (S k) => SEscU (S k) | _ => SInString end)
      else go_step s SError
  | SNeg =>
      if decide (c = "0"%char) then go_step s SZero
      else if digit_byte c then go_step s SOne else go_step s SError
  | SOne => if digit_byte c then s else zero_step s c
  | SZero => zero_step s c
  | SDot => if digit_byte c then go_step s SDotZero else go_step s SError
  | SDotZero =>
      if digit_byte c then s
      else if decide (c = "e"%char \/ c = "E"%char) then go_step s SExp else end_value s c
  | SExp => if decide (c = "+"%char \/ c = "-"%char) then go_step s SExpSign else exp_sign s c
  | SExpSign => exp_sign s c
  | SExpZero => if digit_byte c then s else end_value s c
  | SLit rest =>
      match rest with
      | [x] => if decide (c = x) then go_step s SEndValue else go_step s SError
      | x :: rest => if decide (c = x) then go_step s (SLit rest) else go_step s SError
      | [] => go_step s SError
      end
  | SError => s
  end.

(** At the end of the input a space settles a number that is still open. *)
Definition json_Valid (data : string) : bool :=
  let s := foldl scan_byte (mkScanner SBeginValue [] false) (bytes data) in
  match sc_step s with
  | SError => false
  | _ => sc_end_top s || (let s := scan_byte s " "%char in
                          match sc_step s with SError => false | _ => sc_end_top s end)
  end.

Example json_Valid_ex :
  (json_Valid <$> ["1"; " [1, -0.5e+3, {}] "; "{}"; "[]"; "true"; "nul"; "01"; "[1,]"; "1 2"; "-"; "1."; "{1:2}"])
  = [true; true; true; true; true; false; false; false; false; false; false; false].
Proof. vm_compute. reflexivity. Qed.
