(* ===== verification/GoPath.v ===== *)
(** * Package [path/filepath] on a Unix system

    Lexical paths: [Clean], [IsAbs], [Join], [Abs] and [Rel] (between absolute
    paths), on the components between slashes.  [VolumeName] is empty there. *)

From S2P Require Import Prelude GoStrings.
From Stdlib Require Import Ascii.
Open Scope string_scope.
Open Scope list_scope.

Definition SLASH : ascii := "/"%char.

(** [strings.Split] on one byte, and [strings.Join] with it *)
Fixpoint split_byte (c : ascii) (l : list ascii) : list (list ascii) :=
  match l with
  | [] => [[]]
  | x :: l =>
      if decide (x = c) then [] :: split_byte c l
      else match split_byte c l with h :: t => (x :: h) :: t | [] => [[x]] end
  end.

Fixpoint join_byte (c : ascii) (ll : list (list ascii)) : list ascii :=
  match ll with
  | [] => []
  | [h] => h
  | h :: t => h ++ c :: join_byte c t
  end.

(** [strings.Trim] of one byte *)
Fixpoint trim_byte_left (c : ascii) (l : list ascii) : list ascii :=
  match l with
  | [] => []
  | x :: l' => if decide (x = c) then trim_byte_left c l' else l
  end.
Definition trim_byte (c : ascii) (l : list ascii) : list ascii :=
  rev (trim_byte_left c (rev (trim_byte_left c l))).

Definition DOT : list ascii := bytes ".".
Definition DOTDOT : list ascii := bytes "..".

(** One component of the path: the ones kept so far are in reverse. *)
Definition clean_component (rooted : bool) (kept : list (list ascii)) (comp : list ascii)
    : list (list ascii) :=
  if decide (comp = [] \/ comp = DOT) then kept
  else if decide (comp = DOTDOT) then
    match kept with
    | [] => if rooted then [] else [DOTDOT]
    | top :: rest => if decide (top = DOTDOT) then DOTDOT :: kept else rest
    end
  else comp :: kept.

Definition clean_components (rooted : bool) (comps : list (list ascii)) : list (list ascii) :=
  reverse (foldl (clean_component rooted) [] comps).

Definition slashed (l : list ascii) : bool :=
  match l with x :: _ => bool_decide (x = SLASH) | [] => false end.
Definition IsAbs (path : string) : bool := slashed (bytes path).

Definition clean_bytes (l : list ascii) : list ascii :=
  let out := join_byte SLASH (clean_components (slashed l) (split_byte SLASH l)) in
  if slashed l then SLASH :: out else if decide (out = []) then DOT else out.
Definition Clean (path : string) : string := of_bytes (clean_bytes (bytes path)).

(** [filepath.Join] of two nonempty elements *)
Definition path_Join (a b : string) : string := of_bytes (clean_bytes (bytes a ++ SLASH :: bytes b)).

Definition Abs (cwd path : string) : string := if IsAbs path then Clean path else path_Join cwd path.

Definition path_components (l : list ascii) : list (list ascii) :=
  filter (fun c => c <> []) (split_byte SLASH l).

Fixpoint strip_common (base targ : list (list ascii)) : list (list ascii) * list (list ascii) :=
  match base, targ with
  | b :: base', t :: targ' => if decide (b = t) then strip_common base' targ' else (base, targ)
  | _, _ => (base, targ)
  end.

(** [filepath.Rel] between absolute paths *)
Definition Rel (base targ : string) : string :=
  let base := clean_bytes (bytes base) in
  let targ := clean_bytes (bytes targ) in
  if decide (base = targ) then "."
  else
    let '(up, down) := strip_common (path_components base) (path_components targ) in
    of_bytes (join_byte SLASH (replicate (length up) DOTDOT ++ down)).

Example clean_ex :
  (Clean <$> ["a//b/./c/.."; "/../a"; ""; "../../x/.."; "/"; "a/.."; ".."]) =
  ["a/b"; "/a"; "."; "../.."; "/"; "."; ".."].
Proof. vm_compute. reflexivity. Qed.

Example rel_ex :
  (Rel "/a/b" <$> ["/a/b"; "/a/b/c/d"; "/a/c"; "/"; "/a/b/../b/x"]) = ["."; "c/d"; "../c"; "../.."; "x"].
Proof. vm_compute. reflexivity. Qed.

(** ** Lemmas *)
Lemma split_byte_free c l : c ∉ l -> split_byte c l = [l].
Proof.
  induction l as [|x l IH]; intros Hc; [done|]. apply not_elem_of_cons in Hc as [Hx Hl].
  simpl. rewrite decide_False by congruence. by rewrite (IH Hl).
Qed.

Lemma split_byte_nonempty c l : split_byte c l <> [].
Proof. destruct l as [|x l]; simpl; [done|]. case_decide; [done|]. by destruct (split_byte c l). Qed.

Lemma split_byte_app c l1 l2 : split_byte c (l1 ++ c :: l2) = split_byte c l1 ++ split_byte c l2.
Proof.
  induction l1 as [|x l1 IH]; simpl; [by rewrite decide_True|]. rewrite IH. case_decide; [done|].
  pose proof (split_byte_nonempty c l1). by destruct (split_byte c l1).
Qed.

Lemma split_join c ll : ll <> [] -> Forall (fun l => c ∉ l) ll -> split_byte c (join_byte c ll) = ll.
Proof.
  intros Hne H. induction H as [|l ll Hl _ IH]; [done|]. destruct ll as [|l' ll].
  - by apply split_byte_free.
  - change (join_byte c (l :: l' :: ll)) with (l ++ c :: join_byte c (l' :: ll)).
    by rewrite split_byte_app, split_byte_free, IH.
Qed.

Lemma join_split c l : join_byte c (split_byte c l) = l.
Proof.
  induction l as [|x l IH]; [done|]. simpl. case_decide as Hx.
  - subst x. pose proof (split_byte_nonempty c l). destruct (split_byte c l) as [|h t] eqn:E; [done|].
    change (join_byte c ([] :: h :: t)) with (c :: join_byte c (h :: t)). by rewrite IH.
  - pose proof (split_byte_nonempty c l). destruct (split_byte c l) as [|h t] eqn:E; [done|].
    destruct t as [|h' t]; [by rewrite <- IH|].
    change (join_byte c ((x :: h) :: h' :: t)) with (x :: join_byte c (h :: h' :: t)). by rewrite IH.
Qed.

Lemma split_byte_parts c l : Forall (fun p => c ∉ p) (split_byte c l).
Proof.
  induction l as [|x l IH]; simpl; [by repeat constructor; set_solver|].
  case_decide; [constructor; [set_solver|done]|].
  destruct (split_byte c l) as [|h t]; [repeat constructor; set_solver|].
  inversion IH; subst. constructor; [set_solver|done].
Qed.

(** A component that names something below its directory. *)
Definition proper (c : list ascii) : Prop := c <> [] /\ c <> DOT /\ c <> DOTDOT /\ SLASH ∉ c.

Lemma clean_component_proper rooted kept c : proper c -> clean_component rooted kept c = c :: kept.
Proof.
  intros (H1 & H2 & H3 & _). unfold clean_component. rewrite decide_False by tauto. by rewrite decide_False.
Qed.

(** What [Clean] keeps: dot-dots in front, of a relative path only, and proper
    components behind them. *)
Lemma clean_components_shape rooted comps : Forall (fun c => SLASH ∉ c) comps ->
  exists n rest, clean_components rooted comps = replicate n DOTDOT ++ rest /\ Forall proper rest /\
    (rooted = true -> n = 0%nat).
Proof.
  intros Hs. unfold clean_components.
  assert (forall kept n rest, kept = reverse (replicate n DOTDOT ++ rest) -> Forall proper rest ->
    (rooted = true -> n = 0%nat) -> exists n' rest', foldl (clean_component rooted) kept comps =
      reverse (replicate n' DOTDOT ++ rest') /\ Forall proper rest' /\ (rooted = true -> n' = 0%nat)) as Hgen.
  { induction Hs as [|c comps Hc _ IH]; intros kept n rest Hk Hr Hn; simpl; [eauto|].
    unfold clean_component at 2. case_decide as Hskip; [by eapply IH|]. case_decide as Hup.
    - induction rest as [|x rest' _] using rev_ind.
      + rewrite app_nil_r, reverse_replicate in Hk. destruct n as [|n]; simpl in Hk; subst kept.
        * destruct rooted; [by apply (IH [] 0%nat [])|]. by apply (IH [DOTDOT] 1%nat []).
        * rewrite decide_True by done. apply (IH _ (S (S n)) []); [|done|].
          { by rewrite app_nil_r, reverse_replicate. } { intros Hro. specialize (Hn Hro). lia. }
      + apply Forall_app in Hr as [Hr Hx]. rewrite Forall_singleton in Hx. rewrite app_assoc, reverse_snoc in Hk.
        subst kept. destruct Hx as (_ & _ & Hx & _). rewrite decide_False by done. by eapply IH.
    - apply (IH _ n (rest ++ [c])); [by rewrite app_assoc, reverse_snoc, Hk| |done].
      apply Forall_app. split; [done|]. constructor; [|done]. unfold proper. tauto. }
  destruct (Hgen [] 0%nat []) as (n & rest & -> & Hr & Hn); [done|done|done|].
  exists n, rest. by rewrite reverse_involutive.
Qed.

(** Proper components are kept, empty ones dropped. *)
Lemma clean_components_proper rooted comps : Forall proper (filter (fun c => c <> []) comps) ->
  clean_components rooted comps = filter (fun c => c <> []) comps.
Proof.
  intros H. unfold clean_components.
  assert (forall kept, foldl (clean_component rooted) kept comps =
    reverse (filter (fun c => c <> []) comps) ++ kept) as Hgen.
  { induction comps as [|c comps IH]; intros kept; [done|]. rewrite filter_cons in *. simpl. case_decide as Hc.
    - inversion H; subst. rewrite clean_component_proper, IH by done. by rewrite reverse_cons, <- app_assoc.
    - subst c. unfold clean_component. rewrite decide_True by auto. by apply IH. }
  by rewrite Hgen, app_nil_r, reverse_involutive.
Qed.

Lemma path_components_app l1 l2 :
  path_components (l1 ++ SLASH :: l2) = path_components l1 ++ path_components l2.
Proof. unfold path_components. by rewrite split_byte_app, filter_app. Qed.

Lemma filter_proper cs : Forall proper cs -> filter (fun c => c <> []) cs = cs.
Proof.
  induction 1 as [|c cs Hc _ IH]; [done|]. rewrite filter_cons, decide_True by apply Hc. by rewrite IH.
Qed.

Lemma path_components_join cs : Forall proper cs -> path_components (join_byte SLASH cs) = cs.
Proof.
  intros H. unfold path_components. destruct cs as [|c cs]; [done|].
  rewrite split_join; [by apply filter_proper|done|]. eapply Forall_impl; [exact H|]. by intros x (_ & _ & _ & ?).
Qed.

Lemma join_not_slashed cs : Forall proper cs -> slashed (join_byte SLASH cs) = false.
Proof.
  destruct 1 as [|c cs (Hne & _ & _ & Hs) _]; [done|]. destruct c as [|x c]; [done|].
  apply not_elem_of_cons in Hs as [Hx _]. destruct cs; simpl; by rewrite bool_decide_eq_false_2.
Qed.

Lemma join_nil cs : Forall proper cs -> join_byte SLASH cs = [] -> cs = [].
Proof. destruct 1 as [|[|x c] cs (Hne & _) _]; [done|done|]. by destruct cs. Qed.

(** An absolute path is a slash before proper components once it is clean. *)
Lemma clean_absolute l : slashed l = true ->
  exists cs, Forall proper cs /\ clean_bytes l = SLASH :: join_byte SLASH cs.
Proof.
  intros Hl. unfold clean_bytes. rewrite Hl.
  destruct (clean_components_shape true (split_byte SLASH l) (split_byte_parts _ _)) as (n & rest & -> & Hr & Hn).
  rewrite (Hn eq_refl). eauto.
Qed.

Lemma components_absolute cs : Forall proper cs -> path_components (SLASH :: join_byte SLASH cs) = cs.
Proof. intros H. etrans; [apply (path_components_app [])|]. by rewrite path_components_join. Qed.

(** Cleaning a path whose components are all proper changes nothing but repeated
    slashes. *)
Lemma clean_proper l : Forall proper (path_components l) ->
  clean_bytes l = if slashed l then SLASH :: join_byte SLASH (path_components l)
                  else if decide (path_components l = []) then DOT
                  else join_byte SLASH (path_components l).
Proof.
  intros H. unfold clean_bytes. rewrite clean_components_proper by done. fold (path_components l).
  destruct (slashed l); [done|]. case_decide as H1; case_decide as H2; try done.
  - by apply join_nil in H1.
  - by rewrite H2 in H1.
Qed.

(** A clean relative path that is neither dot nor starts with dot-dot. *)
Lemma clean_relative l : clean_bytes l = l -> slashed l = false -> l <> DOT -> l <> DOTDOT ->
  ~ DOTDOT ++ [SLASH] `prefix_of` l ->
  exists cs, Forall proper cs /\ cs <> [] /\ l = join_byte SLASH cs.
Proof.
  intros Hc Hl H1 H2 H3. unfold clean_bytes in Hc. rewrite Hl in Hc. case_decide as Ho; [by subst|].
  destruct (clean_components_shape false (split_byte SLASH l) (split_byte_parts _ _)) as (n & rest & E & Hr & _).
  rewrite E in Hc, Ho. destruct n as [|n].
  - exists rest. split_and!; [done|by intros ->|done].
  - exfalso. simpl in Hc. destruct (replicate n DOTDOT ++ rest) as [|c cs] eqn:E'; [by subst|].
    apply H3. rewrite <- Hc. exists (join_byte SLASH (c :: cs)). done.
Qed.

Lemma strip_common_prefix base targ : exists common,
  base = common ++ (strip_common base targ).1 /\ targ = common ++ (strip_common base targ).2.
Proof.
  revert targ. induction base as [|b base IH]; intros [|t targ]; simpl; try (by exists []).
  case_decide as Hb; [|by exists []]. subst t. destruct (IH targ) as (c & H1 & H2). exists (b :: c). simpl. by rewrite <- H1, <- H2.
Qed.

Lemma strip_common_app base down : strip_common base (base ++ down) = ([], down).
Proof.
  induction base as [|b base IH]; simpl; [by destruct down|]. by rewrite decide_True.
Qed.

Lemma trim_byte_fenced c l : head l <> Some c -> last l <> Some c -> trim_byte c (c :: l) = l.
Proof.
  assert (forall m : list ascii, head m <> Some c -> trim_byte_left c m = m) as Hl.
  { intros [|x m] Hm; [done|]. simpl. rewrite decide_False; [done|]. by intros ->. }
  intros H1 H2. unfold trim_byte. simpl. rewrite decide_True by done. rewrite (Hl l H1), Hl, rev_involutive; [done|].
  rewrite rev_alt. change (rev_append l []) with (reverse l). by rewrite head_reverse.
Qed.
