(* ===== verification/GoUrl.v ===== *)
(** * Package [net/url], and decimal numbers

    Escaping of paths and path segments, the path and the query of a parsed
    URL, [EscapedPath]; [%d] of package [fmt] and [strconv.ParseInt]. *)

From S2P Require Import Prelude GoStrings GoPath.
From Stdlib Require Import Ascii.
Open Scope string_scope.
Open Scope list_scope.
Open Scope Z_scope.

(** ** Escaping *)
Inductive encoding := EncodePath | EncodePathSegment.

Definition alphanumeric (c : ascii) : bool :=
  let n := N_of_ascii c in
  (((97 <=? n) && (n <=? 122)) || ((65 <=? n) && (n <=? 90)) || ((48 <=? n) && (n <=? 57)))%N.

Definition shouldEscape (mode : encoding) (c : ascii) : bool :=
  if alphanumeric c || bool_decide (c ∈ bytes "-_.~") then false
  else if bool_decide (c ∈ bytes "$&+,/:;=?@") then
    match mode with
    | EncodePath => bool_decide (c ∈ bytes "?")
    | EncodePathSegment => bool_decide (c ∈ bytes "/;,?")
    end
  else true.

Definition upper_hex (n : N) : ascii := ascii_of_N (if decide (n < 10)%N then 48 + n else 55 + n)%N.
Definition PERCENT : ascii := "%"%char.

Definition escape_byte (mode : encoding) (c : ascii) : list ascii :=
  if shouldEscape mode c then [PERCENT; upper_hex (N_of_ascii c / 16); upper_hex (N_of_ascii c mod 16)] else [c].
Definition escape (mode : encoding) (l : list ascii) : list ascii := l ≫= escape_byte mode.

Definition unhex (c : ascii) : option N :=
  let n := N_of_ascii c in
  if decide (48 <= n <= 57)%N then Some (n - 48)%N
  else if decide (97 <= n <= 102)%N then Some (n - 87)%N
  else if decide (65 <= n <= 70)%N then Some (n - 55)%N
  else None.

(** The two modes read escapes alike. *)
Fixpoint unescape (l : list ascii) : option (list ascii) :=
  match l with
  | [] => Some []
  | c :: l' =>
      if decide (c = PERCENT) then
        match l' with
        | hi :: lo :: l'' =>
            match unhex hi, unhex lo with
            | Some h, Some v => cons (ascii_of_N (16 * h + v)) <$> unescape l''
            | _, _ => None
            end
        | _ => None
        end
      else cons c <$> unescape l'
  end.

Definition PathEscape (s : string) : list ascii := escape EncodePathSegment (bytes s).
Definition PathUnescape (l : list ascii) : option string := of_bytes <$> unescape l.

(** ** Parsed URLs *)
Record URL := mkURL {
  u_scheme : string;
  u_host : string;
  u_path : list ascii;
  u_raw_path : list ascii;
  u_raw_query : list ascii;
  u_fragment : list ascii
}.

Definition validEncoded (l : list ascii) : bool :=
  forallb (fun c => bool_decide (c ∈ bytes "!$&'()*+,;=:@[]%") || negb (shouldEscape EncodePath c)) l.

(** [EscapedPath] *)
Definition EscapedPath (u : URL) : list ascii :=
  if decide (u_raw_path u <> [] /\ validEncoded (u_raw_path u) = true /\ unescape (u_raw_path u) = Some (u_path u))
  then u_raw_path u
  else if decide (u_path u = bytes "*") then bytes "*"
  else escape EncodePath (u_path u).

(** [strings.Cut] *)
Fixpoint Cut (c : ascii) (l : list ascii) : list ascii * list ascii :=
  match l with
  | [] => ([], [])
  | x :: l' => if decide (x = c) then ([], l') else let '(a, b) := Cut c l' in (x :: a, b)
  end.

Definition control_byte (c : ascii) : bool := let n := N_of_ascii c in ((n <? 32) || (n =? 127))%N.

(** [url.Parse] of a scheme in lower case, "://", a host of letters and hyphens
    and [rest], which begins with a slash. *)
Definition url_Parse (scheme host : string) (rest : list ascii) : option URL :=
  let '(u, fragment) := Cut "#"%char rest in
  if existsb control_byte u then None
  else
    let '(path, query) := Cut "?"%char u in
    match unescape path, unescape fragment with
    | Some p, Some f =>
        Some (mkURL scheme host p (if decide (escape EncodePath p = path) then [] else path) query f)
    | _, _ => None
    end.

(** ** Decimal numbers *)
Definition digit (n : Z) : ascii := ascii_of_N (Z.to_N (48 + n)).
Definition digit_value (c : ascii) : option Z :=
  let n := Z.of_N (N_of_ascii c) in if decide (48 <= n <= 57) then Some (n - 48) else None.

Fixpoint digits (fuel : nat) (n : Z) (acc : list ascii) : list ascii :=
  match fuel with
  | O => acc
  | S fuel => if decide (n < 10) then digit n :: acc else digits fuel (n / 10) (digit (n mod 10) :: acc)
  end.

(** [%d]: a number has at most as many decimal digits as binary ones. *)
Definition format_decimal (n : Z) : list ascii :=
  if decide (n < 0) then "-"%char :: digits (S (Z.to_nat (Z.log2 (- n)))) (- n) []
  else digits (S (Z.to_nat (Z.log2 n))) n [].

Fixpoint read_digits (l : list ascii) (v : Z) : option Z :=
  match l with
  | [] => Some v
  | c :: l => match digit_value c with Some k => read_digits l (10 * v + k) | None => None end
  end.

(** [strconv.ParseInt(s, 10, 64)] *)
Definition ParseInt (l : list ascii) : option Z :=
  let '(negative, ds) := match l with
    | c :: t => if decide (c = "-"%char) then (true, t) else if decide (c = "+"%char) then (false, t) else (false, l)
    | [] => (false, l)
    end in
  if decide (ds = []) then None
  else match read_digits ds 0 with
       | None => None
       | Some v => if negative : bool then if decide (v <= 2 ^ 63) then Some (- v) else None
                   else if decide (v < 2 ^ 63) then Some v else None
       end.

Example url_ex :
  (EscapedPath <$> url_Parse "spiffe" "h" (bytes "/a%20b/c;d")) = Some (bytes "/a%20b/c;d") /\
  (u_path <$> url_Parse "spiffe" "h" (bytes "/a%20b?q#f")) = Some (bytes "/a b") /\
  PathEscape "a/b c;é" = bytes "a%2Fb%20c%3B%C3%A9" /\
  ParseInt (bytes "-9223372036854775808") = Some (- 2 ^ 63) /\ ParseInt (bytes "9223372036854775808") = None /\
  format_decimal 1230 = bytes "1230".
Proof. vm_compute. repeat split. Qed.

(** ** Lemmas *)
Lemma all_bytes (P : ascii -> bool) : forallb P (ascii_of_nat <$> seq 0 256) = true -> forall c, P c = true.
Proof.
  intros H c. apply (proj1 (forallb_forall _ _) H). rewrite <- (ascii_nat_embedding c) at 1.
  apply list_elem_of_In, list_elem_of_fmap_2, elem_of_seq. pose proof (nat_ascii_bounded c). lia.
Qed.

(** An escape gives the byte back. *)
Definition escape_ok (mode : encoding) (c : ascii) : bool :=
  match escape_byte mode c with
  | [p; hi; lo] =>
      bool_decide (p = PERCENT) &&
      match unhex hi, unhex lo with Some h, Some v => bool_decide (ascii_of_N (16 * h + v) = c) | _, _ => false end
  | [x] => bool_decide (x = c) && bool_decide (x <> PERCENT)
  | _ => false
  end.

Lemma unescape_byte mode c l : unescape (escape_byte mode c ++ l) = cons c <$> unescape l.
Proof.
  assert (escape_ok mode c = true) as H by (apply all_bytes; destruct mode; vm_compute; reflexivity).
  unfold escape_ok in H. destruct (escape_byte mode c) as [|x [|hi [|lo [|]]]]; try done;
    apply andb_true_iff in H as [Hx H]; apply bool_decide_eq_true in Hx as ->.
  - apply bool_decide_eq_true in H. simpl. by rewrite decide_False.
  - simpl. destruct (unhex hi), (unhex lo); try done. by apply bool_decide_eq_true in H as ->.
Qed.

Lemma unescape_escape mode l : unescape (escape mode l) = Some l.
Proof. unfold escape. induction l as [|c l IH]; [done|]. by rewrite bind_cons, unescape_byte, IH. Qed.

(** A byte other than the delimiters that is valid in a path. *)
Definition plain (delimiters : string) (c : ascii) : bool :=
  negb (bool_decide (c ∈ bytes delimiters)) && negb (control_byte c) &&
  (bool_decide (c ∈ bytes "!$&'()*+,;=:@[]%") || negb (shouldEscape EncodePath c)).

Lemma escape_plain l : forallb (plain "/?#") (escape EncodePathSegment l) = true.
Proof.
  unfold escape. induction l as [|c l IH]; [done|]. rewrite bind_cons, forallb_app, IH, andb_true_r.
  revert c. apply (all_bytes (fun c => forallb (plain "/?#") (escape_byte EncodePathSegment c))). vm_compute. reflexivity.
Qed.

Lemma plain_path l : forallb (plain "/?#") l = true -> forallb (plain "?#") l = true.
Proof.
  rewrite !forallb_forall. intros H c Hc. specialize (H c Hc). revert H. apply implb_true_iff.
  revert c Hc. intros c _. revert c. apply (all_bytes (fun c => implb (plain "/?#" c) (plain "?#" c))). vm_compute. reflexivity.
Qed.

Lemma plain_delimiters delimiters l : forallb (plain delimiters) l = true ->
  (forall c, c ∈ bytes delimiters -> c ∉ l) /\ existsb control_byte l = false /\ validEncoded l = true.
Proof.
  intros H. rewrite forallb_forall in H.
  assert (forall c, In c l -> (c ∉ bytes delimiters) /\ control_byte c = false /\
    bool_decide (c ∈ bytes "!$&'()*+,;=:@[]%") || negb (shouldEscape EncodePath c) = true) as Hc.
  { intros c Hin. specialize (H c Hin). unfold plain in H. apply andb_true_iff in H as [[H1 H2]%andb_true_iff H3].
    apply negb_true_iff in H1, H2. by apply bool_decide_eq_false in H1. }
  split_and!.
  - intros c Hd Hin. by apply list_elem_of_In, Hc in Hin as [? _].
  - apply not_true_iff_false. intros (c & Hin & Hb)%existsb_exists. apply Hc in Hin as (_ & Hf & _). congruence.
  - apply forallb_forall. intros c Hin. by apply Hc.
Qed.

(** Text that can be unescaped whatever follows it. *)
Definition unescapes (l : list ascii) : Prop := exists q, forall rest, unescape (l ++ rest) = app q <$> unescape rest.

Lemma escape_unescapes mode l : unescapes (escape mode l).
Proof.
  exists l. intros rest. unfold escape. induction l as [|c l IH]; [cbn; by destruct (unescape rest)|].
  rewrite bind_cons, <- app_assoc, unescape_byte, IH. by destruct (unescape rest).
Qed.

Lemma text_unescapes l : PERCENT ∉ l -> unescapes l.
Proof.
  intros H. exists l. intros rest. induction l as [|c l IH]; [cbn; by destruct (unescape rest)|].
  apply not_elem_of_cons in H as [Hc Hl]. simpl. rewrite decide_False by congruence. rewrite (IH Hl). by destruct (unescape rest).
Qed.

Lemma unescape_slash l : unescape (SLASH :: l) = cons SLASH <$> unescape l.
Proof. done. Qed.

Lemma join_unescapes ps : Forall unescapes ps -> unescapes (join_byte SLASH ps).
Proof.
  induction 1 as [|p ps (q & Hq) _ (qs & Hqs)]; [exists []; intros rest; cbn; by destruct (unescape rest)|].
  destruct ps as [|p' ps]; [by exists q|]. exists (q ++ SLASH :: qs). intros rest.
  change (join_byte SLASH (p :: p' :: ps)) with (p ++ SLASH :: join_byte SLASH (p' :: ps)).
  rewrite <- app_assoc, Hq. cbn [app unescape]. rewrite decide_False by discriminate. rewrite Hqs.
  destruct (unescape rest); [|done]. cbn. by rewrite <- app_assoc.
Qed.

Lemma Cut_free c l : c ∉ l -> Cut c l = (l, []).
Proof.
  induction l as [|x l IH]; intros H; [done|]. apply not_elem_of_cons in H as [Hx Hl]. simpl.
  rewrite decide_False by congruence. by rewrite IH.
Qed.

(** A valid path is kept as it was written. *)
Lemma url_Parse_path scheme host path p : ("#"%char ∉ path) -> ("?"%char ∉ path) -> existsb control_byte path = false ->
  unescape path = Some p -> validEncoded path = true -> p <> bytes "*" ->
  exists u, url_Parse scheme host path = Some u /\ u_scheme u = scheme /\ u_host u = host /\ u_raw_query u = [] /\
    u_fragment u = [] /\ EscapedPath u = path.
Proof.
  intros H1 H2 Hc Hp Hv Hs. unfold url_Parse. rewrite Cut_free, Hc, Cut_free, Hp by done. simpl.
  eexists. split_and!; [done..|]. unfold EscapedPath. cbn [u_raw_path u_path]. destruct (decide (escape EncodePath p = path)) as [He|He].
  - rewrite decide_False by tauto. by rewrite decide_False.
  - destruct path as [|c path]; [|by rewrite decide_True]. simpl in Hp. injection Hp as <-. done.
Qed.

Lemma digit_digit n : 0 <= n < 10 -> digit_value (digit n) = Some n.
Proof.
  intros Hn. unfold digit, digit_value. rewrite N_ascii_embedding by lia. rewrite decide_True by lia. f_equal. lia.
Qed.

Definition is_digit (c : ascii) : Prop := exists n, 0 <= n < 10 /\ c = digit n.

Lemma digits_read fuel n acc : 0 <= n < 2 ^ Z.of_nat fuel -> (0 < fuel)%nat ->
  read_digits (digits fuel n acc) 0 = read_digits acc n /\
  exists c l, digits fuel n acc = c :: l ++ acc /\ Forall is_digit (c :: l).
Proof.
  revert n acc. induction fuel as [|fuel IH]; intros n acc Hn Hf; [lia|]. cbn [digits]. case_decide as Hlt.
  - cbn [read_digits]. rewrite digit_digit by lia. split; [f_equal; lia|]. exists (digit n), []. split; [done|].
    repeat constructor. exists n. split; [lia|done].
  - assert (0 < fuel)%nat as Hf' by (destruct fuel; cbn in Hn; lia).
    assert (0 <= n / 10 < 2 ^ Z.of_nat fuel) as Hn'.
    { split; [apply Z.div_pos; lia|]. apply Z.div_lt_upper_bound; [lia|]. rewrite Nat2Z.inj_succ, Z.pow_succ_r in Hn by lia. lia. }
    destruct (IH (n / 10) (digit (n mod 10) :: acc) Hn' Hf') as [Hr (c & l & E & Hd)].
    pose proof (Z.mod_pos_bound n 10 ltac:(lia)). split.
    + rewrite Hr. cbn [read_digits]. rewrite digit_digit by lia. f_equal. rewrite <- Z.div_mod by lia. done.
    + exists c, (l ++ [digit (n mod 10)]). split; [by rewrite <- app_assoc|].
      rewrite app_comm_cons. apply Forall_app. split; [done|]. repeat constructor. by exists (n mod 10).
Qed.

Lemma digit_code c : is_digit c -> (48 <= N_of_ascii c <= 57)%N.
Proof. intros (n & Hn & ->). unfold digit. rewrite N_ascii_embedding by lia. lia. Qed.

Lemma format_digits n : 0 < n -> exists c l, format_decimal n = c :: l /\ Forall is_digit (c :: l) /\
  read_digits (format_decimal n) 0 = Some n.
Proof.
  intros Hn. unfold format_decimal. rewrite decide_False by lia.
  destruct (digits_read (S (Z.to_nat (Z.log2 n))) n []) as [Hr (c & l & E & Hd)]; [|lia|].
  - split; [lia|]. rewrite Nat2Z.inj_succ, Z2Nat.id by apply Z.log2_nonneg. apply Z.log2_spec; lia.
  - exists c, l. rewrite app_nil_r in E. by rewrite Hr.
Qed.

Lemma parse_format n : 0 < n < 2 ^ 63 -> ParseInt (format_decimal n) = Some n.
Proof.
  intros Hn. destruct (format_digits n) as (c & l & E & Hd & Hr); [lia|]. unfold ParseInt. rewrite E in *.
  inversion Hd as [|? ? Hc]; subst. apply digit_code in Hc.
  rewrite decide_False by (intros ->; cbn in Hc; lia). rewrite decide_False by (intros ->; cbn in Hc; lia).
  rewrite decide_False by done. rewrite Hr. by rewrite decide_True by lia.
Qed.
