(* ===== verification/GoText.v ===== *)
(** * More of [strings] and [path]

    Prefixes and suffixes, cutting, splitting and replacing, letter case, and
    [path.Join]. *)

From S2P Require Import Prelude GoStrings GoPath.
From Stdlib Require Import Ascii.
Open Scope string_scope.
Open Scope list_scope.
Open Scope Z_scope.

Definition HasPrefix (s p : string) : bool := bool_decide (bytes p `prefix_of` bytes s).
Definition HasSuffix (s p : string) : bool := bool_decide (bytes p `suffix_of` bytes s).
Definition TrimPrefix (s p : string) : string :=
  if HasPrefix s p then of_bytes (drop (length (bytes p)) (bytes s)) else s.
Definition TrimSuffix (s p : string) : string :=
  if HasSuffix s p then of_bytes (take (length (bytes s) - length (bytes p)) (bytes s)) else s.
(** [strings.Cut] at one byte. *)
Fixpoint cut_byte (c : ascii) (l : list ascii) : option (list ascii * list ascii) :=
  match l with
  | [] => None
  | b :: l => if decide (b = c) then Some ([], l) else '(x, y) ← cut_byte c l; Some (b :: x, y)
  end.
Definition lower_ascii (c : ascii) : ascii :=
  let n := N_of_ascii c in if decide (65 <= n <= 90)%N then ascii_of_N (n + 32) else c.
(** [strings.EqualFold] against a word none of whose letters has a fold outside
    of ASCII. *)
Definition EqualFold (s word : string) : bool :=
  bool_decide (lower_ascii <$> bytes s = lower_ascii <$> bytes word).
(** [strings.ToUpper] as far as an ASCII word can see it: ASCII letters, and the
    two other letters whose upper case is ASCII (U+0131 and U+017F). *)
Fixpoint upper_fold (l : list ascii) : list ascii :=
  match l with
  | [] => []
  | c :: l' =>
      let n := N_of_ascii c in
      let one := (if decide (97 <= n <= 122)%N then ascii_of_N (n - 32) else c) :: upper_fold l' in
      match l' with
      | b :: l'' =>
          if decide (n = 196%N /\ N_of_ascii b = 177%N) then "I"%char :: upper_fold l''
          else if decide (n = 197%N /\ N_of_ascii b = 191%N) then "S"%char :: upper_fold l''
          else one
      | [] => one
      end
  end.

(** [strings.Split] at a separator of two bytes. *)
Fixpoint split_two (a b : ascii) (l : list ascii) : list (list ascii) :=
  match l with
  | x :: (y :: l2) as l1 =>
      if decide (x = a /\ y = b) then [] :: split_two a b l2
      else match split_two a b l1 with h :: t => (x :: h) :: t | [] => [[x]] end
  | [x] => [[x]]
  | [] => [[]]
  end.
(** [strings.Cut] at a separator of two bytes. *)
Fixpoint cut_two (a b : ascii) (l : list ascii) : option (list ascii * list ascii) :=
  match l with
  | x :: (y :: l2) as l1 =>
      if decide (x = a /\ y = b) then Some ([], l2) else '(u, v) ← cut_two a b l1; Some (x :: u, v)
  | _ => None
  end.
(** [strings.ReplaceAll]: a byte by a byte, and two bytes by the second. *)
Definition replace_byte (a b : ascii) (l : list ascii) : list ascii := (fun c => if decide (c = a) then b else c) <$> l.
Fixpoint drop_first_of (a b : ascii) (l : list ascii) : list ascii :=
  match l with
  | x :: l1 => match l1 with
               | y :: _ => if decide (x = a /\ y = b) then drop_first_of a b l1 else x :: drop_first_of a b l1
               | [] => [x]
               end
  | [] => []
  end.

(** [path.Join]: empty elements are left out. *)
Definition path_join (elems : list string) : string :=
  match filter (fun e => e <> []) (bytes <$> elems) with
  | [] => ""
  | l => of_bytes (clean_bytes (join_byte SLASH l))
  end.

Example text_ex :
  path_join ["a"; ""; "b/../c"; "d"] = "a/c/d" /\
  split_two "x"%char "y"%char (bytes "axybxyx") = [bytes "a"; bytes "b"; bytes "x"] /\
  drop_first_of "x"%char "y"%char (bytes "axxyyxz") = bytes "axyyxz".
Proof. vm_compute. repeat split. Qed.
