(* ===== verification/Packages.v ===== *)
(** * The Packages index

    [internal/binpkg/index_merge.go]: reading the stanzas of an index and laying
    the stanzas of a job over those of the generation before.  The merged index is
    read back as the overlay of the two, in order. *)

From S2P Require Import GoUrl Prelude GoStrings GoPath GoText GoSha256 GoJson.
From Stdlib Require Import Ascii.
Open Scope string_scope.
Open Scope list_scope.
Open Scope Z_scope.

Definition LF : ascii := ascii_of_N 10.
Definition CR : ascii := ascii_of_N 13.
Definition TAB : ascii := ascii_of_N 9.

Inductive packages_error :=
| MergeInvalid | IndexTooLarge | PreambleUnsupported | LineMalformed | FieldRepeated | StanzaInvalid | SizeInvalid | PathRepeated.

Record packagesStanza := mkStanza { st_cpv : string; st_path : string; st_document : list ascii }.

Fixpoint read_fields (lines : list (list ascii)) (fields : gmap string string) : result packages_error (gmap string string) :=
  match lines with
  | [] => Ok fields
  | line :: lines =>
      match cut_two ":"%char " "%char line with
      | None => Err LineMalformed
      | Some (key, value) =>
          check ~ (key = [] \/ " "%char ∈ key \/ TAB ∈ key) else LineMalformed;;
          check fields !! of_bytes key = None else FieldRepeated;;
          read_fields lines (<[of_bytes key := of_bytes value]> fields)
      end
  end.
Definition packagesFields (block : list ascii) : result packages_error (gmap string string) :=
  read_fields (split_byte LF block) ∅.
(** A map of Go gives the zero value for a key it does not have. *)
Definition field_value (fields : gmap string string) (key : string) : string := default "" (fields !! key).

Definition trim_space (l : list ascii) : list ascii := bytes (TrimSpace (of_bytes l)).

Definition stanza_of (block : list ascii) : result packages_error packagesStanza :=
  let! fields := packagesFields block in
  let cpv := field_value fields "CPV" in
  let relative := field_value fields "PATH" in
  let clean := Clean (of_bytes (replace_byte BS SLASH (bytes relative))) in
  check ~ (cpv = "" \/ relative = "" \/ clean <> relative \/ clean = "." \/ clean = ".." \/ HasPrefix clean "../" = true \/
           HasPrefix clean "/" = true) else StanzaInvalid;;
  check is_Some (ParseInt (bytes (field_value fields "SIZE"))) else SizeInvalid;;
  Ok (mkStanza cpv relative block).

Fixpoint read_stanzas (blocks : list (list ascii)) (seen : gset string) : result packages_error (list packagesStanza) :=
  match blocks with
  | [] => Ok []
  | block :: blocks =>
      let block := trim_space block in
      if decide (block = []) then read_stanzas blocks seen
      else
        let! stanza := stanza_of block in
        check st_path stanza ∉ seen else PathRepeated;;
        let! rest := read_stanzas blocks ({[st_path stanza]} ∪ seen) in
        Ok (stanza :: rest)
  end.

Definition parsePackagesStanzas (document : list ascii) : result packages_error (list packagesStanza) :=
  check ~ (64 * 2 ^ 20 < Z.of_nat (length document)) else IndexTooLarge;;
  let normalized := drop_first_of CR LF document in
  match split_two LF LF (trim_space normalized) with
  | [] => Err PreambleUnsupported
  | first :: blocks =>
      match packagesFields first with
      | Err _ => Err PreambleUnsupported
      | Ok preamble =>
          check field_value preamble "VERSION" = "0" else PreambleUnsupported;;
          read_stanzas blocks ∅
      end
  end.

(** An empty index has no stanzas. *)
Definition source_stanzas (source : list ascii) : result packages_error (list packagesStanza) :=
  if decide (source = []) then Ok [] else parsePackagesStanzas source.

Definition overlay (stanzas : list packagesStanza) (merged : gmap string packagesStanza) : gmap string packagesStanza :=
  foldl (fun m s => <[st_path s := s]> m) merged stanzas.
Definition stanza_order : order packagesStanza := then_by (by_str st_cpv) (by_str st_path).
#[export] Instance stanza_order_laws : OrderLaws stanza_order.
Proof. unfold stanza_order. apply _. Qed.

Definition line (text : list ascii) : list ascii := text ++ [LF].
Definition print_index (arch : string) (seconds : Z) (ordered : list packagesStanza) : list ascii :=
  line (bytes "ARCH: " ++ bytes arch) ++ line (bytes "TIMESTAMP: " ++ format_decimal seconds) ++ line (bytes "VERSION: 0") ++
  line (line (bytes "PACKAGES: " ++ format_decimal (Z.of_nat (length ordered)))) ++
  (ordered ≫= fun s => line (line (st_document s))).

(** [seconds] since 1970 of the timestamp, [None] for the zero time. *)
Definition MergePackagesIndexes (previous current : list ascii) (arch : string) (timestamp : option Z)
    : result packages_error (list ascii) :=
  match timestamp with
  | None => Err MergeInvalid
  | Some seconds =>
      check TrimSpace arch <> "" else MergeInvalid;;
      let! old := source_stanzas previous in
      let! new := source_stanzas current in
      let merged := overlay new (overlay old ∅) in
      Ok (print_index arch seconds (sort_by stanza_order (snd <$> map_to_list merged)))
  end.

(** ** Trimmed text *)
Definition left_trimmed (l : list ascii) : Prop := trim_left l = l.
Definition right_trimmed (l : list ascii) : Prop := trim_left_rev (rev l) = rev l.

Lemma trim_left_suffix n l : (length l <= n)%nat -> exists k, l = k ++ trim_left l.
Proof.
  revert l. induction n as [|n IH]; intros l Hlen; [destruct l; [by exists []|cbn in Hlen; lia]|].
  destruct l as [|a [|b [|d l]]]; cbn in *; [by exists []|..].
  - destruct (ascii_space a); [by exists [a]|by exists []].
  - destruct (ascii_space a); [|destruct (space2 a b); [by exists [a; b]|by exists []]].
    destruct (ascii_space b); [by exists [a; b]|by exists [a]].
  - destruct (ascii_space a).
    { destruct (IH (b :: d :: l)) as [k Hk]; [cbn; lia|]. exists (a :: k). cbn in *. congruence. }
    destruct (space2 a b).
    { destruct (IH (d :: l)) as [k Hk]; [cbn; lia|]. exists (a :: b :: k). cbn in *. congruence. }
    destruct (space3 a b d); [|by exists []].
    destruct (IH l) as [k Hk]; [lia|]. exists (a :: b :: d :: k). cbn. congruence.
Qed.

Lemma trim_left_fixed n l : (length l <= n)%nat -> trim_left (trim_left l) = trim_left l.
Proof.
  revert l. induction n as [|n IH]; intros l Hlen; [destruct l; [done|cbn in Hlen; lia]|].
  assert (forall a b d r, trim_left (a :: b :: d :: r) = if ascii_space a then trim_left (b :: d :: r) else
    if space2 a b then trim_left (d :: r) else if space3 a b d then trim_left r else a :: b :: d :: r) as Hunf by done.
  destruct l as [|a [|b [|d l]]]; [done|..].
  - cbn. destruct (ascii_space a) eqn:E; cbn; by rewrite ?E.
  - cbn. destruct (ascii_space a) eqn:E; [apply (IH [b]); cbn in *; lia|]. destruct (space2 a b) eqn:E2; [done|]. cbn. by rewrite E, E2.
  - rewrite !Hunf. cbn in Hlen. destruct (ascii_space a) eqn:E; [apply IH; cbn; lia|]. destruct (space2 a b) eqn:E2; [apply IH; cbn; lia|].
    destruct (space3 a b d) eqn:E3; [apply IH; lia|]. by rewrite Hunf, E, E2, E3.
Qed.
Lemma trim_left_rev_fixed n l : (length l <= n)%nat -> trim_left_rev (trim_left_rev l) = trim_left_rev l.
Proof.
  revert l. induction n as [|n IH]; intros l Hlen; [destruct l; [done|cbn in Hlen; lia]|].
  assert (forall a b d r, trim_left_rev (a :: b :: d :: r) = if ascii_space a then trim_left_rev (b :: d :: r) else
    if space2 b a then trim_left_rev (d :: r) else if space3 d b a then trim_left_rev r else a :: b :: d :: r) as Hunf by done.
  destruct l as [|a [|b [|d l]]]; [done|..].
  - cbn. destruct (ascii_space a) eqn:E; cbn; by rewrite ?E.
  - cbn. destruct (ascii_space a) eqn:E; [apply (IH [b]); cbn in *; lia|]. destruct (space2 b a) eqn:E2; [done|]. cbn. by rewrite E, E2.
  - rewrite !Hunf. cbn in Hlen. destruct (ascii_space a) eqn:E; [apply IH; cbn; lia|]. destruct (space2 b a) eqn:E2; [apply IH; cbn; lia|].
    destruct (space3 d b a) eqn:E3; [apply IH; lia|]. by rewrite Hunf, E, E2, E3.
Qed.

(** Only the first three bytes decide whether there is anything to trim. *)
Lemma left_trimmed_spec a l : left_trimmed (a :: l) <-> ascii_space a = false /\ (forall b r, l = b :: r -> space2 a b = false) /\
  (forall b c r, l = b :: c :: r -> space3 a b c = false).
Proof.
  unfold left_trimmed. split.
  - intros H. cbn in H. destruct (ascii_space a) eqn:E.
    { destruct (trim_left_suffix (length l) l) as [k Hk]; [done|]. rewrite H in Hk. apply (f_equal length) in Hk. rewrite length_app in Hk. cbn in Hk. lia. }
    split; [done|]. destruct l as [|b l]; [done|]. destruct (space2 a b) eqn:E2.
    { destruct (trim_left_suffix (length l) l) as [k Hk]; [done|]. rewrite H in Hk. apply (f_equal length) in Hk. rewrite length_app in Hk. cbn in Hk. lia. }
    split; [by intros ? ? [= <- <-]|]. destruct l as [|c l]; [done|]. destruct (space3 a b c) eqn:E3; [|by intros ? ? ? [= <- <- <-]].
    destruct (trim_left_suffix (length l) l) as [k Hk]; [done|]. rewrite H in Hk. apply (f_equal length) in Hk. rewrite length_app in Hk. cbn in Hk. lia.
  - intros (H1 & H2 & H3). cbn. rewrite H1. destruct l as [|b l]; [done|]. rewrite (H2 b l eq_refl). destruct l as [|c l]; [done|].
    by rewrite (H3 b c l eq_refl).
Qed.

Lemma left_trimmed_prefix l1 l2 : left_trimmed (l1 ++ l2) -> left_trimmed l1.
Proof.
  destruct l1 as [|a l1]; [done|]. cbn [app]. rewrite !left_trimmed_spec. intros (H1 & H2 & H3). split_and!; [done| |].
  - intros b r ->. by eapply H2.
  - intros b c r ->. by eapply H3.
Qed.

(** After something with nothing to trim, an ASCII byte changes nothing. *)
Lemma right_trimmed_after l c r : right_trimmed l -> l <> [] -> (code c < 128)%N -> trim_left_rev (rev l ++ c :: r) = rev l ++ c :: r.
Proof.
  unfold right_trimmed. intros H Hne Hc. destruct (rev l) as [|a [|b [|d m]]] eqn:E.
  - apply (f_equal (@rev _)) in E. by rewrite rev_involutive in E.
  - cbn in *. destruct (ascii_space a) eqn:E1; [done|]. assert (space2 c a = false) as ->.
    { unfold space2. destruct (N.eqb_spec (code c) 194); [lia|done]. }
    destruct r; [done|]. assert (space3 a0 c a = false) as ->; [|done]. unfold space3.
    destruct (N.eqb_spec (code c) 154), (N.eqb_spec (code c) 128), (N.eqb_spec (code c) 129); first [lia|by rewrite ?andb_false_r, ?andb_false_l].
  - cbn in *. destruct (ascii_space a) eqn:E1; [by destruct (ascii_space b)|]. destruct (space2 b a) eqn:E2; [done|].
    assert (space3 c b a = false) as ->; [|done]. unfold space3.
    destruct (N.eqb_spec (code c) 225), (N.eqb_spec (code c) 226), (N.eqb_spec (code c) 227); first [lia|done].
  - assert (forall r, trim_left_rev (a :: b :: d :: r) = if ascii_space a then trim_left_rev (b :: d :: r) else
      if space2 b a then trim_left_rev (d :: r) else if space3 d b a then trim_left_rev r else a :: b :: d :: r) as Hunf by done.
    cbn [app]. rewrite Hunf in H |- *.
    assert (forall m', (length m' < S (S (S (length m))))%nat -> trim_left_rev m' <> a :: b :: d :: m) as Hs.
    { intros m' Hm Heq. destruct (trim_left_rev_suffix (length m') m') as [k Hk]; [done|]. rewrite Heq in Hk.
      apply (f_equal length) in Hk. rewrite length_app in Hk. cbn in Hk. lia. }
    destruct (ascii_space a); [by apply Hs in H; cbn; lia|]. destruct (space2 b a); [by apply Hs in H; cbn; lia|].
    destruct (space3 d b a); [by apply Hs in H; cbn; lia|]. done.
Qed.

Lemma trim_space_eq l : trim_space l = rev (trim_left_rev (rev (trim_left l))).
Proof. unfold trim_space, TrimSpace. by rewrite !bytes_of_bytes. Qed.

Lemma trim_space_mid l : exists k1 k2, l = k1 ++ trim_space l ++ k2.
Proof.
  rewrite trim_space_eq. destruct (trim_left_suffix (length l) l) as [k1 H1]; [done|].
  destruct (trim_left_rev_suffix (length (rev (trim_left l))) (rev (trim_left l))) as [k2 H2]; [done|].
  exists k1, (rev k2). rewrite <- rev_app_distr, <- H2, rev_involutive. done.
Qed.
Lemma trim_space_trimmed l : left_trimmed (trim_space l) /\ right_trimmed (trim_space l).
Proof.
  rewrite trim_space_eq. split.
  - destruct (trim_left_rev_suffix (length (rev (trim_left l))) (rev (trim_left l))) as [k H]; [done|].
    apply (left_trimmed_prefix _ (rev k)). rewrite <- rev_app_distr, <- H, rev_involutive. unfold left_trimmed. by eapply trim_left_fixed.
  - unfold right_trimmed. rewrite rev_involutive. by eapply trim_left_rev_fixed.
Qed.
Lemma trimmed_trim_space l : left_trimmed l -> right_trimmed l -> trim_space l = l.
Proof. intros H1 H2. rewrite trim_space_eq, H1, H2. apply rev_involutive. Qed.

(** ** Blank lines *)
Fixpoint blank_in (l : list ascii) : Prop :=
  match l with
  | x :: l1 => match l1 with y :: _ => (x = LF /\ y = LF) \/ blank_in l1 | [] => False end
  | [] => False
  end.

Lemma blank_in_right l k : blank_in l -> blank_in (l ++ k).
Proof. induction l as [|x [|y l] IH]; [done|done|]. intros [H|H]; [by left|]. right. by apply IH. Qed.
Lemma blank_in_left k l : blank_in l -> blank_in (k ++ l).
Proof. induction k as [|x k IH]; [done|]. intros H%IH. cbn. destruct (k ++ l); [done|]. by right. Qed.

Fixpoint join_blank (bs : list (list ascii)) : list ascii :=
  match bs with
  | [] => []
  | [b] => b
  | b :: bs => b ++ LF :: LF :: join_blank bs
  end.

Lemma split_two_cons x y l : split_two LF LF (x :: y :: l) =
  if decide (x = LF /\ y = LF) then [] :: split_two LF LF l
  else match split_two LF LF (y :: l) with h :: t => (x :: h) :: t | [] => [[x]] end.
Proof. reflexivity. Qed.
Lemma split_two_nonempty l : split_two LF LF l <> [].
Proof.
  destruct l as [|x [|y l]]; [done|done|]. rewrite split_two_cons. destruct (decide (x = LF /\ y = LF)); [done|].
  by destruct (split_two LF LF (y :: l)).
Qed.

Lemma split_two_step b r : ~ blank_in b -> last b <> Some LF -> split_two LF LF (b ++ LF :: LF :: r) = b :: split_two LF LF r.
Proof.
  induction b as [|x b IH]; intros Hb Hl; [done|]. destruct b as [|y b].
  - cbn in Hl. cbn [app]. rewrite split_two_cons. rewrite decide_False by (intros [-> _]; done). by rewrite split_two_cons, decide_True by done.
  - cbn [app]. rewrite split_two_cons. rewrite decide_False by (intros ?; apply Hb; by left).
    change (y :: b ++ LF :: LF :: r) with ((y :: b) ++ LF :: LF :: r). rewrite IH; [done| |done]. intros H. apply Hb. by right.
Qed.
Lemma split_two_single b : ~ blank_in b -> split_two LF LF b = [b].
Proof.
  induction b as [|x [|y b] IH]; intros Hb; [done|done|]. rewrite split_two_cons. rewrite decide_False by (intros ?; apply Hb; by left).
  rewrite IH; [done|]. intros H. apply Hb. by right.
Qed.
Lemma split_two_join bs : bs <> [] -> Forall (fun b => ~ blank_in b /\ last b <> Some LF) bs -> split_two LF LF (join_blank bs) = bs.
Proof.
  intros Hne H. induction H as [|b bs [Hb Hl] Hbs IH]; [done|]. destruct bs as [|b' bs]; [by apply split_two_single|].
  change (join_blank (b :: b' :: bs)) with (b ++ LF :: LF :: join_blank (b' :: bs)). rewrite split_two_step by done. by rewrite IH.
Qed.

Lemma split_two_parts n l : (length l <= n)%nat -> Forall (fun b => ~ blank_in b /\ forall c, c ∈ b -> c ∈ l) (split_two LF LF l).
Proof.
  revert l. induction n as [|n IH]; intros l Hn.
  { destruct l; [|cbn in Hn; lia]. apply Forall_singleton. split; [intros []|set_solver]. }
  destruct l as [|x [|y l]]; [apply Forall_singleton; split; [intros []|set_solver]..|]. rewrite split_two_cons. cbn in Hn. case_decide as Hd.
  - constructor; [split; [intros []|set_solver]|]. eapply Forall_impl; [apply IH; lia|]. intros b [? ?]. set_solver.
  - pose proof (IH (y :: l) ltac:(cbn; lia)) as H. destruct (split_two LF LF (y :: l)) as [|h t] eqn:E; [by destruct (split_two_nonempty (y :: l))|].
    inversion H as [|? ? [Hh Hc] Ht]; subst. constructor.
    + split; [|set_solver]. destruct h as [|z h]; [intros []|]. intros [[-> ->]|?]; [|done].
      assert (y = LF) as ->; [|by apply Hd]. clear -E. destruct l as [|w l]; [by injection E as <- <-|]. rewrite split_two_cons in E.
      case_decide as Hw; [by injection E|]. destruct (split_two LF LF (w :: l)); by injection E as <- <-.
    + eapply Forall_impl; [exact Ht|]. set_solver.
Qed.

(** ** A printed index *)
Definition stanza_ok (s : packagesStanza) : Prop :=
  stanza_of (st_document s) = Ok s /\ left_trimmed (st_document s) /\ right_trimmed (st_document s) /\ st_document s <> [] /\
  ~ blank_in (st_document s) /\ CR ∉ st_document s.

Lemma stanza_document block s : stanza_of block = Ok s -> st_document s = block.
Proof. unfold stanza_of. intros H. inv_ok_step H. cbv zeta in H. do 2 inv_ok_step H. by injection H as <-. Qed.

Lemma read_stanzas_spec blocks seen l : Forall (fun b => ~ blank_in b /\ CR ∉ b) blocks -> read_stanzas blocks seen = Ok l ->
  Forall stanza_ok l /\ NoDup (st_path <$> l) /\ Forall (fun s => st_path s ∉ seen) l.
Proof.
  intros Hb. revert seen l. induction Hb as [|b bs [Hb Hc] _ IH]; intros seen l H; [injection H as <-; by repeat constructor|].
  cbn [read_stanzas] in H. cbv zeta in H. case_decide as Hd; [by apply IH|]. destruct (stanza_of (trim_space b)) as [s|] eqn:Es; [|done]. cbn in H.
  case_decide as Hs; [|done]. destruct (read_stanzas bs _) as [r|] eqn:Er; [|done]. cbn in H. injection H as <-.
  destruct (IH _ _ Er) as (H1 & H2 & H3). pose proof (stanza_document _ _ Es) as Hdoc. destruct (trim_space_trimmed b) as [Hl Hr].
  destruct (trim_space_mid b) as (k1 & k2 & Hk). split_and!.
  - constructor; [|done]. unfold stanza_ok. rewrite Hdoc. split_and!; try done.
    + intros Hbl. apply Hb. rewrite Hk. by apply blank_in_left, blank_in_right.
    + intros Hin. apply Hc. rewrite Hk. set_solver.
  - cbn. constructor; [|done]. intros (x & Hx & Hin)%list_elem_of_fmap. rewrite Forall_forall in H3. specialize (H3 x Hin). set_solver.
  - constructor; [done|]. eapply Forall_impl; [exact H3|]. set_solver.
Qed.

Lemma read_stanzas_back l seen : Forall stanza_ok l -> NoDup (st_path <$> l) -> Forall (fun s => st_path s ∉ seen) l ->
  read_stanzas (st_document <$> l) seen = Ok l.
Proof.
  intros H. revert seen. induction H as [|s l (Hs & Hl & Hr & Hne & _) _ IH]; intros seen Hnd Hseen; [done|].
  cbn [fmap list_fmap read_stanzas]. cbv zeta. rewrite trimmed_trim_space by done. rewrite decide_False by done. rewrite Hs. cbn.
  inversion Hseen as [|? ? Hn Hseen']; subst. rewrite decide_True by done. cbn in Hnd. apply NoDup_cons in Hnd as [Hni Hnd].
  rewrite IH; [done|done|]. apply Forall_forall. intros x Hx. rewrite Forall_forall in Hseen'. specialize (Hseen' x Hx).
  assert (st_path x <> st_path s); [|set_solver]. intros E. apply Hni. rewrite <- E. by apply list_elem_of_fmap_2.
Qed.

Definition preamble_lines (arch : string) (seconds : Z) (n : nat) : list (list ascii) :=
  [bytes "ARCH: " ++ bytes arch; bytes "TIMESTAMP: " ++ format_decimal seconds; bytes "VERSION: 0";
   bytes "PACKAGES: " ++ format_decimal (Z.of_nat n)].
Definition preamble (arch : string) (seconds : Z) (n : nat) : list ascii := join_byte LF (preamble_lines arch seconds n).

Lemma print_index_blocks arch seconds l :
  print_index arch seconds l = join_blank (preamble arch seconds (length l) :: (st_document <$> l)) ++ [LF; LF].
Proof.
  assert (forall p, p ++ [LF; LF] ++ (l ≫= fun s => line (line (st_document s))) = join_blank (p :: (st_document <$> l)) ++ [LF; LF]) as H.
  { induction l as [|s l IH]; intros p; [done|]. cbn [fmap list_fmap].
    change (join_blank (p :: st_document s :: (st_document <$> l))) with (p ++ LF :: LF :: join_blank (st_document s :: (st_document <$> l))).
    rewrite <- app_assoc. cbn [app]. rewrite <- IH. cbn. unfold line. by rewrite <- !app_assoc. }
  rewrite <- H. unfold print_index, preamble, preamble_lines, line. cbn [join_byte]. rewrite <- !app_assoc. cbn [app]. by rewrite <- !app_assoc.
Qed.

Lemma format_decimal_digits n : 0 <= n -> exists c l, format_decimal n = l ++ [c] /\ Forall is_digit (l ++ [c]).
Proof.
  intros Hn. destruct (decide (n = 0)) as [->|]; [exists (digit 0), []; split; [done|]; apply Forall_singleton; by exists 0|].
  destruct (format_digits n) as (c & l & E & Hd & _); [lia|]. rewrite E. destruct (exists_last (l := c :: l)) as (l' & c' & E'); [done|].
  exists c', l'. by rewrite <- E'.
Qed.
Lemma digit_not c d : is_digit c -> (N_of_ascii d < 48)%N -> c <> d.
Proof. intros Hc%digit_code Hd ->. lia. Qed.
Lemma digits_free n c : 0 <= n -> (N_of_ascii c < 48)%N -> c ∉ format_decimal n.
Proof.
  intros Hn Hc Hin. destruct (format_decimal_digits n Hn) as (d & l & E & Hd). rewrite E in Hin. rewrite Forall_forall in Hd.
  by apply (digit_not c c (Hd c Hin)).
Qed.

Lemma ends_app (x y : list ascii) c : (exists k, y = k ++ [c]) -> exists k, x ++ y = k ++ [c].
Proof. intros [k ->]. exists (x ++ k). by rewrite app_assoc. Qed.

Section printed.
Context (arch : string) (seconds : Z) (n : nat).
Context (Harch : LF ∉ bytes arch /\ CR ∉ bytes arch) (Hsec : 0 <= seconds).

Lemma preamble_lines_ok : Forall (fun l => LF ∉ l /\ CR ∉ l /\ l <> []) (preamble_lines arch seconds n).
Proof.
  destruct Harch as [H1 H2]. pose proof (digits_free seconds LF Hsec ltac:(done)). pose proof (digits_free seconds CR Hsec ltac:(done)).
  pose proof (digits_free (Z.of_nat n) LF ltac:(lia) ltac:(done)). pose proof (digits_free (Z.of_nat n) CR ltac:(lia) ltac:(done)).
  assert (forall c w, c ∈ [LF; CR] -> w ∈ ["ARCH: "; "TIMESTAMP: "; "VERSION: 0"; "PACKAGES: "] -> c ∉ bytes w) as Hw.
  { intros c w Hc Hw. apply (bool_decide_unpack (c ∉ bytes w)).
    repeat (apply elem_of_cons in Hc as [->|Hc]; [repeat (apply elem_of_cons in Hw as [->|Hw]; [vm_compute; exact I|]); by apply elem_of_nil in Hw|]).
    by apply elem_of_nil in Hc. }
  unfold preamble_lines. repeat (apply Forall_cons; split; [split_and!; [rewrite ?elem_of_app..|done]|]); [..|by apply Forall_nil];
    try (intros [Hin|Hin]; [by eapply Hw; [| |exact Hin]; set_solver|done]); intros Hin; by eapply Hw; [| |exact Hin]; set_solver.
Qed.

Lemma preamble_fields : exists fields, packagesFields (preamble arch seconds n) = Ok fields /\ field_value fields "VERSION" = "0".
Proof.
  unfold packagesFields, preamble. rewrite split_join; [|done|].
  2:{ eapply Forall_impl; [apply preamble_lines_ok|]. by intros l (? & _). }
  unfold preamble_lines. cbn [read_fields].
  change (cut_two ":"%char " "%char (bytes "ARCH: " ++ ?x)) with (Some (bytes "ARCH", x)).
  change (cut_two ":"%char " "%char (bytes "TIMESTAMP: " ++ ?x)) with (Some (bytes "TIMESTAMP", x)).
  change (cut_two ":"%char " "%char (bytes "PACKAGES: " ++ ?x)) with (Some (bytes "PACKAGES", x)).
  change (cut_two ":"%char " "%char (bytes "VERSION: 0")) with (Some (bytes "VERSION", bytes "0")). cbv iota beta.
  assert (forall w, w ∈ ["ARCH"; "TIMESTAMP"; "VERSION"; "PACKAGES"] -> ~ (bytes w = [] \/ " "%char ∈ bytes w \/ TAB ∈ bytes w)) as Hw.
  { intros w Hw. apply (bool_decide_unpack _). repeat (apply elem_of_cons in Hw as [->|Hw]; [vm_compute; exact I|]). by apply elem_of_nil in Hw. }
  rewrite !of_bytes_bytes. do 4 (rewrite decide_True by (apply Hw; set_solver); rewrite decide_True by (by simplify_map_eq)).
  eexists. split; [reflexivity|]. unfold field_value. by simplify_map_eq.
Qed.

Lemma join_lines_blank (ls : list (list ascii)) : Forall (fun l => LF ∉ l /\ l <> []) ls -> ~ blank_in (join_byte LF ls) /\ last (join_byte LF ls) <> Some LF.
Proof.
  assert (forall l, LF ∉ l -> ~ blank_in l) as Hfree.
  { induction l as [|x [|y l] IH]; [intros _ []|intros _ []|]. intros Hn [[-> ->]|H]; [set_solver|]. apply IH in H; [done|set_solver]. }
  intros H. induction H as [|l ls [Hl Hne] Hls IH]; [split; [intros []|done]|]. destruct ls as [|l' ls].
  - cbn. split; [by apply Hfree|]. intros E. apply Hl. apply last_Some in E as [l0 ->]. set_solver.
  - change (join_byte LF (l :: l' :: ls)) with (l ++ LF :: join_byte LF (l' :: ls)). destruct IH as [IH1 IH2]. inversion Hls as [|? ? [Hl' Hne'] _]; subst.
    assert (exists c r, join_byte LF (l' :: ls) = c :: r /\ c <> LF) as (c & r & Ej & Hc).
    { destruct l' as [|c l']; [done|]. exists c. destruct ls; cbn; eexists; (split; [reflexivity|]); intros ->; set_solver. }
    rewrite Ej in *. split; [|by rewrite last_app_cons].
    clear -Hl IH1 Hc Hfree. induction l as [|x l IH]; [intros [[_ ->]|?]; done|]. destruct l as [|y l].
    + intros [[-> _]|H]; [set_solver|]. by apply IH; [set_solver|].
    + intros [[-> ->]|H]; [set_solver|]. apply IH; [set_solver|done].
Qed.

Lemma preamble_ok : ~ blank_in (preamble arch seconds n) /\ last (preamble arch seconds n) <> Some LF /\ CR ∉ preamble arch seconds n /\
  left_trimmed (preamble arch seconds n) /\ right_trimmed (preamble arch seconds n).
Proof.
  pose proof preamble_lines_ok as H. destruct (join_lines_blank (preamble_lines arch seconds n)) as [H1 H2].
  { eapply Forall_impl; [exact H|]. by intros l (? & _ & ?). }
  split; [done|]. split; [done|]. split_and!.
  - assert (forall ls, Forall (fun l => CR ∉ l) ls -> CR ∉ join_byte LF ls) as Hj.
    { intros ls Hls. induction Hls as [|l ls Hl _ IH]; [by intros ?%elem_of_nil|]. destruct ls; [done|].
      change (join_byte LF (l :: l0 :: ls)) with (l ++ LF :: join_byte LF (l0 :: ls)). set_solver. }
    apply Hj. eapply Forall_impl; [exact H|]. by intros l (_ & ? & _).
  - unfold preamble, preamble_lines. cbn [join_byte bytes app]. apply trim_left_plain. done.
  - unfold right_trimmed, preamble, preamble_lines. cbn [join_byte]. destruct (format_decimal_digits (Z.of_nat n)) as (c & l & E & Hd); [lia|].
    rewrite E. assert (exists k, (bytes "ARCH: " ++ bytes arch) ++ LF :: (bytes "TIMESTAMP: " ++ format_decimal seconds) ++ LF ::
      bytes "VERSION: 0" ++ LF :: bytes "PACKAGES: " ++ l ++ [c] = k ++ [c]) as [k ->].
    { do 7 first [apply ends_app | apply (ends_app [LF])]. by exists l. }
    rewrite rev_app_distr. cbn [rev app]. apply trim_left_rev_plain. apply Forall_app in Hd as [_ Hc]. inversion Hc as [|? ? Hc1 _]; subst. clear Hc. rename Hc1 into Hc.
    apply digit_code in Hc. apply GoStrings.plain_spec. unfold ascii_space, code. split; [|lia].
    destruct (N.leb_spec (N_of_ascii c) 13), (N.eqb_spec (N_of_ascii c) 32); [lia..|]. by rewrite andb_false_r.
Qed.
End printed.

Lemma right_trimmed_join bs : bs <> [] -> Forall (fun b => right_trimmed b /\ b <> []) bs -> right_trimmed (join_blank bs) /\ join_blank bs <> [].
Proof.
  intros Hne H. induction H as [|b bs [Hb Hbn] _ IH]; [done|]. destruct bs as [|b' bs]; [done|]. destruct IH as [IH1 IH2]; [done|].
  change (join_blank (b :: b' :: bs)) with (b ++ LF :: LF :: join_blank (b' :: bs)). split; [|by destruct b].
  unfold right_trimmed. rewrite rev_app_distr. cbn [rev]. rewrite <- !app_assoc. cbn [app]. by apply right_trimmed_after.
Qed.
Lemma left_trimmed_app l k : left_trimmed l -> (exists a r, l = a :: r /\ GoStrings.plain a = true) -> left_trimmed (l ++ k).
Proof. intros _ (a & r & -> & Ha). by apply trim_left_plain. Qed.

Lemma drop_first_free l : CR ∉ l -> drop_first_of CR LF l = l.
Proof.
  induction l as [|x [|y l] IH]; intros H; [done|done|]. change (drop_first_of CR LF (x :: y :: l)) with
    (if decide (x = CR /\ y = LF) then drop_first_of CR LF (y :: l) else x :: drop_first_of CR LF (y :: l)).
  rewrite decide_False by (intros [-> _]; set_solver). rewrite IH by set_solver. done.
Qed.

(** An index of stanzas that can be read, with different paths, is read back. *)
Lemma index_reads_back arch seconds l : LF ∉ bytes arch -> CR ∉ bytes arch -> 0 <= seconds -> Forall stanza_ok l -> NoDup (st_path <$> l) ->
  Z.of_nat (length (print_index arch seconds l)) <= 64 * 2 ^ 20 -> parsePackagesStanzas (print_index arch seconds l) = Ok l.
Proof.
  intros Ha1 Ha2 Hs Hl Hnd Hlen. unfold parsePackagesStanzas. rewrite decide_True by lia. clear Hlen. rewrite print_index_blocks.
  destruct (preamble_ok arch seconds (length l) (conj Ha1 Ha2) Hs) as (Hb & Hla & Hcr & Hlt & Hrt).
  destruct (preamble_fields arch seconds (length l) (conj Ha1 Ha2) Hs) as (fields & Hf & Hv). set (p := preamble arch seconds (length l)) in *.
  assert (exists a r, p = a :: r /\ GoStrings.plain a = true) as Hp by (do 2 eexists; split; [reflexivity|done]). clearbody p.
  set (J := join_blank (p :: (st_document <$> l))). assert (CR ∉ J ++ [LF; LF]) as HJ.
  { assert (forall bs, Forall (fun b => CR ∉ b) bs -> CR ∉ join_blank bs) as H.
    { intros bs H. induction H as [|b bs ? _ IH]; [by intros ?%elem_of_nil|]. destruct bs; [done|].
      change (join_blank (b :: l0 :: bs)) with (b ++ LF :: LF :: join_blank (l0 :: bs)). set_solver. }
    intros [Hin|Hin]%elem_of_app; [|set_solver]. eapply H; [|exact Hin]. constructor; [done|]. apply Forall_fmap.
    eapply Forall_impl; [exact Hl|]. by intros s (_ & _ & _ & _ & _ & ?). }
  rewrite drop_first_free by done. assert (right_trimmed J) as HrJ.
  { apply right_trimmed_join; [done|]. constructor; [split; [done|]; by destruct Hp as (a & r & -> & _)|]. apply Forall_fmap.
    eapply Forall_impl; [exact Hl|]. by intros s (_ & _ & ? & ? & _). }
  assert (trim_space (J ++ [LF; LF]) = J) as ->.
  { rewrite trim_space_eq. assert (left_trimmed (J ++ [LF; LF])) as ->.
    { destruct Hp as (a & r & -> & Hpl). subst J. destruct (st_document <$> l); cbn; by apply trim_left_plain. }
    rewrite rev_app_distr. cbn [rev app]. change (trim_left_rev (LF :: LF :: rev J)) with (trim_left_rev (rev J)). rewrite HrJ. apply rev_involutive. }
  subst J. rewrite split_two_join; [|done|].
  2:{ constructor; [done|]. apply Forall_fmap. eapply Forall_impl; [exact Hl|]. intros s (_ & _ & Hr & Hne & Hbl & _). split; [done|].
      intros E. apply last_Some in E as [k E]. unfold right_trimmed in Hr. cbn in Hr. rewrite E in Hr. rewrite rev_app_distr in Hr. cbn [rev app] in Hr.
      change (trim_left_rev (LF :: rev k)) with (trim_left_rev (rev k)) in Hr.
      destruct (trim_left_rev_suffix (length (rev k)) (rev k)) as [m Hm]; [done|]. rewrite Hr in Hm. apply (f_equal length) in Hm.
      rewrite length_app in Hm. cbn in Hm. lia. }
  rewrite Hf. rewrite decide_True by done. apply read_stanzas_back; [done|done|]. apply Forall_true. set_solver.
Qed.

(** No carriage return but those that end a line before its line feed. *)
Definition plain_lines (doc : list ascii) : Prop := CR ∉ drop_first_of CR LF doc.
#[export] Instance plain_lines_dec doc : Decision (plain_lines doc).
Proof. unfold plain_lines. apply _. Defined.

Lemma parse_spec doc l : plain_lines doc -> parsePackagesStanzas doc = Ok l -> Forall stanza_ok l /\ NoDup (st_path <$> l).
Proof.
  intros Hc H. unfold parsePackagesStanzas in H. inv_ok_step H. cbv zeta in H. unfold plain_lines in Hc.
  set (text := drop_first_of CR LF doc) in *. clearbody text.
  destruct (trim_space_mid text) as (k1 & k2 & Hk). pose proof (split_two_parts _ (trim_space text) (Nat.le_refl _)) as Hp.
  destruct (split_two LF LF (trim_space text)) as [|first blocks]; [done|]. destruct (packagesFields first); [|done]. inv_ok_step H.
  inversion Hp as [|? ? _ Hbs]; subst. apply read_stanzas_spec in H; [by destruct H as (? & ? & _)|].
  eapply Forall_impl; [exact Hbs|]. intros b [Hb Hin]. split; [done|]. intros Hcr. apply Hc. rewrite Hk. apply Hin in Hcr. set_solver.
Qed.
Lemma source_stanzas_spec source l : plain_lines source -> source_stanzas source = Ok l -> Forall stanza_ok l /\ NoDup (st_path <$> l).
Proof. unfold source_stanzas. case_decide; [intros _ [= <-]; by repeat constructor|]. apply parse_spec. Qed.

(** A map of stanzas under their paths. *)
Definition by_path (m : gmap string packagesStanza) : Prop := forall p s, m !! p = Some s -> st_path s = p.
Lemma overlay_lookup l m p : NoDup (st_path <$> l) -> overlay l m !! p =
  match first_where (fun s => st_path s = p) l with Some s => Some s | None => m !! p end.
Proof.
  revert m. induction l as [|s l IH]; intros m Hnd; [done|]. cbn in Hnd. apply NoDup_cons in Hnd as [Hn Hnd]. cbn [overlay foldl].
  change (foldl _ (<[st_path s := s]> m) l) with (overlay l (<[st_path s := s]> m)). rewrite IH by done.
  destruct (decide (st_path s = p)) as [E|E].
  - destruct (first_where (fun s => st_path s = p) l) as [x|] eqn:Ex.
    + apply first_where_some in Ex as [Hx Hxp]. exfalso. apply Hn. rewrite E, <- Hxp. by apply list_elem_of_fmap_2.
    + rewrite E, lookup_insert_eq. unfold first_where. by rewrite filter_cons, decide_True.
  - rewrite lookup_insert_ne by done. unfold first_where. by rewrite filter_cons, decide_False.
Qed.
Lemma overlay_by_path l m : by_path m -> by_path (overlay l m).
Proof.
  revert m. induction l as [|s l IH]; intros m Hm; [done|]. apply IH. intros p x Hx. apply lookup_insert_Some in Hx as [[<- <-]|[_ Hx]]; [done|by apply Hm].
Qed.
Lemma by_path_values m : by_path m -> NoDup (st_path <$> (snd <$> map_to_list m)).
Proof.
  intros Hm. rewrite <- list_fmap_compose. replace (st_path ∘ snd <$> map_to_list m) with (fst <$> map_to_list m); [apply NoDup_fst_map_to_list|].
  apply list_fmap_ext. intros i [p s] Hi. cbn. symmetry. apply Hm. apply elem_of_map_to_list. by eapply list_elem_of_lookup_2.
Qed.

(** C30. A merged index is the overlay of its two sources: it is read back, in the
    order of package and path, as the stanzas of the job and those of the
    generation before whose path the job does not have, each word for word.  This
    needs sources in which a carriage return only ends a line before its line feed,
    an architecture without line ends, a timestamp not before 1970, and a merged
    index of at most the 64 mebibytes that the reader takes; the merge checks none
    of these. *)
Theorem merged_index_reads_back (previous current doc : list ascii) (arch : string) (seconds : Z) (old new : list packagesStanza)
    (Hold : source_stanzas previous = Ok old) (Hnew : source_stanzas current = Ok new)
    (Hp : plain_lines previous) (Hc : plain_lines current) (Ha : LF ∉ bytes arch /\ CR ∉ bytes arch) (Hs : 0 <= seconds)
    (Hm : MergePackagesIndexes previous current arch (Some seconds) = Ok doc) (Hl : Z.of_nat (length doc) <= 64 * 2 ^ 20) :
  exists l, parsePackagesStanzas doc = Ok l /\ NoDup (st_path <$> l) /\ StronglySorted (order_le stanza_order) l /\
    forall s, s ∈ l <-> s ∈ new \/ (s ∈ old /\ st_path s ∉ st_path <$> new).
Proof.
  unfold MergePackagesIndexes in Hm. inv_ok_step Hm. rewrite Hold, Hnew in Hm. cbv iota beta zeta in Hm.
  apply (f_equal (fun r => match r with Ok d => d | Err _ => [] end)) in Hm. cbv iota beta in Hm. subst doc.
  destruct (source_stanzas_spec _ _ Hp Hold) as [Ho Hno], (source_stanzas_spec _ _ Hc Hnew) as [Hn Hnn].
  set (m := overlay new (overlay old ∅)) in *. assert (by_path m) as Hby by (apply overlay_by_path, overlay_by_path; by intros p s ?%lookup_empty_Some).
  assert (forall s, s ∈ snd <$> map_to_list m <-> s ∈ new \/ (s ∈ old /\ st_path s ∉ st_path <$> new)) as Hin.
  { intros s. transitivity (m !! st_path s = Some s).
    - rewrite list_elem_of_fmap. split; [intros ([p x] & -> & Hx%elem_of_map_to_list); cbn; by rewrite (Hby _ _ Hx)|].
      intros H%elem_of_map_to_list. by exists (st_path s, s).
    - subst m. rewrite !overlay_lookup by done. rewrite lookup_empty. destruct (first_where _ new) as [x|] eqn:Ex.
      + apply first_where_some in Ex as [Hx Hxp]. split; [intros [= ->]; by left|]. intros [H|[_ H]].
        * f_equal. by apply (key_unique st_path new).
        * exfalso. apply H. rewrite <- Hxp. by apply list_elem_of_fmap_2.
      + assert (st_path s ∉ st_path <$> new) as Hnot.
        { intros (x & Hx & Hxin)%list_elem_of_fmap. by apply (first_where_none _ _ Ex x). }
        destruct (first_where _ old) as [x|] eqn:Ey.
        * apply first_where_some in Ey as [Hx Hxp]. split; [intros [= ->]; by right|]. intros [H|[H _]]; [by destruct Hnot; apply list_elem_of_fmap_2|].
          f_equal. by apply (key_unique st_path old).
        * split; [done|]. intros [H|[H _]]; [by destruct Hnot; apply list_elem_of_fmap_2|]. by destruct (first_where_none _ _ Ey s). }
  exists (sort_by stanza_order (snd <$> map_to_list m)). split_and!.
  - apply index_reads_back; [apply Ha|apply Ha|done| | |done].
    + apply Forall_forall. intros s. rewrite elem_of_sort_by, Hin. rewrite Forall_forall in Ho, Hn. naive_solver.
    + rewrite sort_by_perm. by apply by_path_values.
  - rewrite sort_by_perm. by apply by_path_values.
  - apply (sort_by_sorted _).
  - intros s. by rewrite elem_of_sort_by, Hin.
Qed.

(** A job that rebuilt one of two published packages. *)
Definition stanza_ex (cpv path size : string) : list ascii :=
  line (bytes "CPV: " ++ bytes cpv) ++ line (bytes "PATH: " ++ bytes path) ++ bytes "SIZE: " ++ bytes size.
Definition index_ex (stanzas : list (list ascii)) : list ascii :=
  line (line (bytes "VERSION: 0")) ++ (stanzas ≫= fun s => line (line s)).
Definition foo_old : list ascii := stanza_ex "app-misc/foo-1" "app-misc/foo-1.gpkg.tar" "10".
Definition foo_new : list ascii := stanza_ex "app-misc/foo-1" "app-misc/foo-1.gpkg.tar" "12".
Definition bar_old : list ascii := stanza_ex "app-misc/bar-2" "app-misc/bar-2.gpkg.tar" "7".
Definition merged_ex : list ascii :=
  match MergePackagesIndexes (index_ex [foo_old; bar_old]) (index_ex [foo_new]) "amd64" (Some 1700000000) with Ok doc => doc | Err _ => [] end.

Lemma merged_index_reads_back_witness :
  exists l, parsePackagesStanzas merged_ex = Ok l /\ NoDup (st_path <$> l) /\ StronglySorted (order_le stanza_order) l /\
    forall s, s ∈ l <-> s ∈ [mkStanza "app-misc/foo-1" "app-misc/foo-1.gpkg.tar" foo_new] \/
      (s ∈ [mkStanza "app-misc/foo-1" "app-misc/foo-1.gpkg.tar" foo_old; mkStanza "app-misc/bar-2" "app-misc/bar-2.gpkg.tar" bar_old] /\
       st_path s ∉ ["app-misc/foo-1.gpkg.tar"]).
Proof.
  apply (merged_index_reads_back (index_ex [foo_old; bar_old]) (index_ex [foo_new]) merged_ex "amd64" 1700000000
    [mkStanza "app-misc/foo-1" "app-misc/foo-1.gpkg.tar" foo_old; mkStanza "app-misc/bar-2" "app-misc/bar-2.gpkg.tar" bar_old]
    [mkStanza "app-misc/foo-1" "app-misc/foo-1.gpkg.tar" foo_new]).
  - vm_compute. reflexivity.
  - vm_compute. reflexivity.
  - apply (bool_decide_unpack _). vm_compute. exact I.
  - apply (bool_decide_unpack _). vm_compute. exact I.
  - split; apply (bool_decide_unpack _); vm_compute; exact I.
  - lia.
  - vm_compute. reflexivity.
  - vm_compute. discriminate.
Defined.
