(* ===== verification/Distcc.v ===== *)
(** * Package [distcc]: the distributed-compile contract

    [internal/distcc/contract.go] (pools, leases, observations, endpoints,
    dependency atoms), [policy.go] (the builder's defence-in-depth policy) and
    [gate.go] (comparison of local-only and distcc evidence). *)

From S2P Require Import Prelude GoStrings GoRegexp GoNet GoSha256.
From Stdlib Require Import Ascii.
Open Scope string_scope.
Open Scope list_scope.

(** ** Constants and patterns *)
Definition FallbackLocal : string := "local".
Definition FallbackBlocked : string := "blocked".
Definition OutcomeLocal : string := "local".
Definition OutcomeRemote : string := "remote".
Definition OutcomeHit : string := "hit".
Definition OutcomeFallback : string := "fallback".

Definition maxCPUFeatures : nat := 64.
Definition poolHashBytes : nat := 16.
Definition maxEligibleAtoms : nat := 512.
Definition atomOperatorChars : string := "!=<>~".

Definition lower (c : ascii) : bool := in_range "a" "z" c.
Definition upper (c : ascii) : bool := in_range "A" "Z" c.
Definition dec (c : ascii) : bool := in_range "0" "9" c.
Definition lower_hex (c : ascii) : bool := dec c || in_range "a" "f" c.
Definition alnum (c : ascii) : bool := lower c || upper c || dec c.

Definition dimensionPattern : re :=
  Cat (Cls alnum) (UpTo 255 (Cls (fun c => alnum c || one_of "+._/@:-" c))).
Definition atom_char (c : ascii) : bool := alnum c || one_of "+_.-" c.
Definition atomPattern : re :=
  Cat (Plus (Cls atom_char)) (Cat (Lit "/") (Plus (Cls atom_char))).

(** A version without its revision suffix, and with it. *)
Definition version_body : re :=
  Cat (Plus (Cls dec))
  (Cat (Star (Cat (Lit ".") (Plus (Cls dec))))
  (Cat (Opt (Cls lower))
       (Star (Cat (Lit "_")
             (Cat (Alt (Lit "alpha") (Alt (Lit "beta") (Alt (Lit "pre") (Alt (Lit "rc") (Lit "p")))))
                  (Star (Cls dec))))))).
Definition atomVersionPattern : re :=
  Cat version_body (Opt (Cat (Lit "-r") (Plus (Cls dec)))).
Definition compilerDigestPattern : re := Cat (Lit "sha256:") (Times 64 (Cls lower_hex)).

Definition failureReasons : list string :=
  [""; "capacity"; "connect"; "lease-expired"; "lease-fenced"; "pool-mismatch";
   "remote-compile"; "worker-stale"; "policy"; "unknown"].

(** ** Errors, one constructor per [return fmt.Errorf] *)
Inductive error : Type :=
| EDimension (name value : string)
| ECompilerDigest
| EFeatureCount
| EFeature (feature : string)
| EStableName (name : string)
| EMaxSlots
| ELeaseExpired
| EIdentityIncomplete
| EPumpForbidden
| EFallbackPolicy (policy : string)
| EPoolMismatch
| EAtomCount
| EAtom (atom : string)
| EReportGroups
| EOutcome (outcome : string)
| EFailureReason (reason : string)
| ECounters
| EEndpointShape
| EEndpointHost
| EEndpointNetwork
| EAllowlistAtom (entry : string)
| EAllowlistEmpty
| EDisabled
| ENotAllowed (atom : string)
| ELeaseRequired
| EToolchain
| ETrustDomain
| EAttemptFence
| EGateManifest
| EGateDigest
| EGateInstall
| EGateGUI
| EGateDuplicate (scenario : string)
| EGateLocalClaim
| EGateDistcc
| EGateModes
| EGateInput
| EGateArtifact
| EGateABI
| EGateGUIMismatch (scenario : string)
| EGateOmitted
| EGateInstallMismatch.
#[export] Instance error_eq_dec : EqDecision error.
Proof. solve_decision. Defined.

(** ** Pools *)
Record Pool := mkPool {
  Architecture : string;
  CHOST : string;
  CompilerDigest : string;
  ToolchainImageGeneration : string;
  CPUFeatures : list string;
  NetworkZone : string;
  ProjectTrustDomain : string
}.
#[export] Instance Pool_eta : Eta Pool := fun p =>
  mkPool (Architecture p) (CHOST p) (CompilerDigest p) (ToolchainImageGeneration p)
    (CPUFeatures p) (NetworkZone p) (ProjectTrustDomain p).
#[export] Instance Pool_eq_dec : EqDecision Pool.
Proof. solve_decision. Defined.

Definition pool_values (p : Pool) : list (string * string) :=
  [("architecture", Architecture p); ("CHOST", CHOST p);
   ("compiler digest", CompilerDigest p);
   ("toolchain image generation", ToolchainImageGeneration p);
   ("network zone", NetworkZone p); ("project trust domain", ProjectTrustDomain p)].

Fixpoint check_dimensions (values : list (string * string)) : result error unit :=
  match values with
  | [] => Ok tt
  | (name, value) :: values =>
      let value := TrimSpace value in
      check MatchString dimensionPattern value = true else EDimension name value;;
      check_dimensions values
  end.

Definition Normalize (p : Pool) : result error Pool :=
  let! _ := check_dimensions (pool_values p) in
  check MatchString compilerDigestPattern (TrimSpace (CompilerDigest p)) = true
    else ECompilerDigest;;
  check (length (CPUFeatures p) <= maxCPUFeatures)%nat else EFeatureCount;;
  match trim_dedup (MatchString dimensionPattern) ∅ (CPUFeatures p) with
  | Err feature => Err (EFeature feature)
  | Ok features =>
      Ok (mkPool (TrimSpace (Architecture p)) (TrimSpace (CHOST p))
            (TrimSpace (CompilerDigest p)) (TrimSpace (ToolchainImageGeneration p))
            (SortStrings features) (TrimSpace (NetworkZone p))
            (TrimSpace (ProjectTrustDomain p)))
  end.

(** The bytes [ID] hashes, for a normalised pool. *)
Definition NUL : string := String.String "000" "".
Definition pool_parts (p : Pool) : list string :=
  [Architecture p; CHOST p; CompilerDigest p; ToolchainImageGeneration p;
   Join (CPUFeatures p) ","; NetworkZone p; ProjectTrustDomain p].
Definition pool_preimage (p : Pool) : string := Join (pool_parts p) NUL.

Definition ID (p : Pool) : result error string :=
  let! normalized := Normalize p in
  let digest := Sum256 (bytes (pool_preimage normalized)) in
  Ok ("distcc-" +:+ EncodeToString (take poolHashBytes digest)).

(** ** Endpoints *)
Definition ValidateEndpoint (endpoint : string) (isolatedNetworks : list (option IPNet))
    : result error unit :=
  match SplitHostPort (bytes endpoint) with
  | None => Err EEndpointShape
  | Some (host, port) =>
      check port <> [] else EEndpointShape;;
      match ParseIP host with
      | None => Err EEndpointHost
      | Some ip =>
          if decide (length isolatedNetworks = 0%nat) then Ok tt
          else if existsb (fun n => match n with Some n => Contains n ip | None => false end)
                    isolatedNetworks
               then Ok tt else Err EEndpointNetwork
      end
  end.

(** ** Dependency atoms *)
Definition ValidAtom (atom : string) : bool := MatchString atomPattern atom.

(** [strings.TrimLeft], [s[:strings.Index(s, c)]] and [strings.TrimSuffix] *)
Fixpoint TrimLeft (l : list ascii) (cutset : string) : list ascii :=
  match l with
  | [] => []
  | c :: l' => if one_of cutset c then TrimLeft l' cutset else l
  end.
Definition cut_at (c : ascii) (l : list ascii) : list ascii :=
  match index_byte c l with Some i => take i l | None => l end.
Definition TrimSuffix (l : list ascii) (c : ascii) : list ascii :=
  match rev l with
  | a :: r => if Ascii.eqb a c then rev r else l
  | [] => l
  end.

(** The loop over the dashes of [name], from the last one; [upto] is
    [name[:index]].  The index decreases, so [length name] steps are enough
    ([strip_version_cuts], [strip_version_keeps]). *)
Fixpoint strip_version (fuel : nat) (name upto : list ascii) : list ascii :=
  match fuel with
  | O => name
  | S fuel =>
      match last_index_byte "-" upto with
      | None | Some O => name
      | Some index =>
          if accepts atomVersionPattern (drop (S index) name) then take index name
          else strip_version fuel name (take index upto)
      end
  end.

Definition NormalizeAtom (atom : string) : option string :=
  let atom := TrimLeft (bytes (TrimSpace atom)) atomOperatorChars in
  let atom := cut_at "[" atom in
  let atom := cut_at ":" atom in
  let atom := TrimSuffix atom "*" in
  match index_byte "/" atom with
  | None => None
  | Some slash =>
      let category := take slash atom in
      let name := drop (S slash) atom in
      let name := strip_version (length name) name name in
      let reduced := of_bytes (category ++ bytes "/" ++ name) in
      if ValidAtom reduced then Some reduced else None
  end.

(** ** Worker heartbeats *)
Record WorkerHeartbeat := mkHeartbeat {
  hbStableName : string;
  hbEndpoint : string;
  hbMaxSlots : Z;
  hbPool : Pool
}.

Definition heartbeat_Validate (h : WorkerHeartbeat) : result error unit :=
  check MatchString dimensionPattern (TrimSpace (hbStableName h)) = true
    else EStableName (hbStableName h);;
  check 1 <= hbMaxSlots h <= 256 else EMaxSlots;;
  let! _ := Normalize (hbPool h) in
  ValidateEndpoint (hbEndpoint h) [].

(** ** Leases

    Times and durations are in nanoseconds. *)
Record Lease := mkLease {
  leaseID : string;
  WorkerID : string;
  WorkerEndpoint : string;
  BuilderID : string;
  BuilderNetworkIdentity : string;
  AttemptID : string;
  AttemptFence : Z;
  Fence : Z;
  Slots : Z;
  PoolID : string;
  leasePool : Pool;
  FallbackPolicy : string;
  Pump : bool;
  ExpiresAt : Z;
  QueueTime : Z;
  EligibleAtoms : list string
}.
#[export] Instance Lease_eta : Eta Lease := fun l =>
  mkLease (leaseID l) (WorkerID l) (WorkerEndpoint l) (BuilderID l) (BuilderNetworkIdentity l)
    (AttemptID l) (AttemptFence l) (Fence l) (Slots l) (PoolID l) (leasePool l)
    (FallbackPolicy l) (Pump l) (ExpiresAt l) (QueueTime l) (EligibleAtoms l).

Definition Expired (l : Lease) (now : Z) : Prop := ExpiresAt l <= now.
#[export] Instance Expired_dec l now : Decision (Expired l now).
Proof. unfold Expired. apply _. Defined.

Fixpoint check_atoms (atoms : list string) : result error unit :=
  match atoms with
  | [] => Ok tt
  | atom :: atoms => check ValidAtom atom = true else EAtom atom;; check_atoms atoms
  end.

Definition ValidateShape (l : Lease) : result error unit :=
  check ~ (leaseID l = "" \/ WorkerID l = "" \/ BuilderID l = "" \/
           BuilderNetworkIdentity l = "" \/ AttemptID l = "" \/
           AttemptFence l <= 0 \/ Fence l <= 0 \/ Slots l <= 0)
    else EIdentityIncomplete;;
  check Pump l = false else EPumpForbidden;;
  check FallbackPolicy l = FallbackLocal \/ FallbackPolicy l = FallbackBlocked
    else EFallbackPolicy (FallbackPolicy l);;
  let! poolID := ID (leasePool l) in
  check PoolID l = poolID else EPoolMismatch;;
  check (length (EligibleAtoms l) <= maxEligibleAtoms)%nat else EAtomCount;;
  let! _ := check_atoms (EligibleAtoms l) in
  ValidateEndpoint (WorkerEndpoint l) [].

Definition lease_Validate (l : Lease) (now : Z) : result error unit :=
  let! _ := ValidateShape l in
  check ~ Expired l now else ELeaseExpired;;
  Ok tt.

(** ** Observations and reports *)
Record Observation := mkObservation {
  Outcome : string;
  FailureReason : string;
  NetworkBytes : Z;
  QueueMillis : Z;
  Count : Z
}.

Definition observation_Validate (o : Observation) : result error unit :=
  check Outcome o ∈ [OutcomeLocal; OutcomeRemote; OutcomeHit; OutcomeFallback]
    else EOutcome (Outcome o);;
  check FailureReason o ∈ failureReasons else EFailureReason (FailureReason o);;
  check ~ (NetworkBytes o < 0 \/ QueueMillis o < 0 \/ Count o <= 0) else ECounters;;
  Ok tt.

Fixpoint check_observations (l : list Observation) : result error unit :=
  match l with
  | [] => Ok tt
  | o :: l => let! _ := observation_Validate o in check_observations l
  end.

Definition report_Validate (observations : list Observation) : result error unit :=
  check (length observations <= length failureReasons * 4)%nat else EReportGroups;;
  check_observations observations.

(** ** The builder's policy *)
Record BuilderPolicy := mkPolicy {
  Enabled : bool;
  Allowlist : list string;
  IsolatedNetworks : list (option IPNet);
  polArchitecture : string;
  polCHOST : string;
  polCompilerDigest : string;
  ImageGeneration : string;
  polCPUFeatures : list string;
  polNetworkZone : string;
  allowed : gset string
}.
#[export] Instance BuilderPolicy_eta : Eta BuilderPolicy := fun p =>
  mkPolicy (Enabled p) (Allowlist p) (IsolatedNetworks p) (polArchitecture p) (polCHOST p)
    (polCompilerDigest p) (ImageGeneration p) (polCPUFeatures p) (polNetworkZone p) (allowed p).

Definition Allowed (p : BuilderPolicy) (atom : string) : bool :=
  Enabled p && bool_decide (atom ∈ allowed p).

(** The loop of [NewBuilderPolicy]: the reduced list in order of first
    occurrence, and the set. *)
Fixpoint reduce_allowlist (entries : list string) (allowlist : list string) (allowed : gset string)
    : result error (list string * gset string) :=
  match entries with
  | [] => Ok (allowlist, allowed)
  | entry :: entries =>
      match NormalizeAtom entry with
      | None => Err (EAllowlistAtom entry)
      | Some atom =>
          if decide (atom ∈ allowed) then reduce_allowlist entries allowlist allowed
          else reduce_allowlist entries (allowlist ++ [atom]) ({[atom]} ∪ allowed)
      end
  end.

Definition NewBuilderPolicy (policy : BuilderPolicy) : result error BuilderPolicy :=
  let! (allowlist, allowedSet) := reduce_allowlist (Allowlist policy) [] ∅ in
  let policy := policy <| Allowlist := SortStrings allowlist |>
                       <| polCPUFeatures := SortStrings (polCPUFeatures policy) |>
                       <| allowed := allowedSet |> in
  check ~ (Enabled policy = true /\
           (length allowlist = 0%nat \/ length (IsolatedNetworks policy) = 0%nat))
    else EAllowlistEmpty;;
  Ok policy.

Definition Authorize (p : BuilderPolicy) (atom projectTrustDomain attemptID : string)
    (attemptFence : Z) (lease : option Lease) (now : Z) : result error unit :=
  check Enabled p = true else EDisabled;;
  check atom ∈ allowed p else ENotAllowed atom;;
  match lease with
  | None => Err ELeaseRequired
  | Some lease =>
      let! _ := lease_Validate lease now in
      let! pool := Normalize (leasePool lease) in
      let features := SortStrings (polCPUFeatures p) in
      check Architecture pool = polArchitecture p /\ CHOST pool = polCHOST p /\
            CompilerDigest pool = polCompilerDigest p /\
            ToolchainImageGeneration pool = ImageGeneration p /\
            NetworkZone pool = polNetworkZone p /\
            Join (CPUFeatures pool) NUL = Join features NUL
        else EToolchain;;
      check projectTrustDomain <> "" /\ ProjectTrustDomain pool = projectTrustDomain
        else ETrustDomain;;
      check ~ (attemptID = "" \/ attemptFence <= 0 \/
               AttemptID lease <> attemptID \/ AttemptFence lease <> attemptFence)
        else EAttemptFence;;
      ValidateEndpoint (WorkerEndpoint lease) (IsolatedNetworks p)
  end.

(** ** The evidence gate *)
Record GUIEvidence := mkGUI { ScenarioID : string; guiPassed : bool; guiDigest : string }.
Record DistCCGateEvidence := mkDistCC {
  gatePoolID : string; PumpMode : bool; OutputFenced : bool
}.
Record GateManifest := mkManifest {
  SchemaVersion : Z;
  Mode : string;
  BuildInputDigest : string;
  ArtifactDigest : string;
  ABIDigest : string;
  InstallPassed : bool;
  InstallDigest : string;
  GUI : list GUIEvidence;
  DistCC : option DistCCGateEvidence
}.
Record GateReceipt := mkReceipt {
  rcSchemaVersion : Z;
  rcState : string;
  rcBuildInputDigest : string;
  rcArtifactDigest : string;
  rcABIDigest : string;
  GUIScenarios : list string;
  ComparedAt : Z
}.

Definition sha256Pattern : re := Cat (Lit "sha256:") (Times 64 (Cls lower_hex)).

Fixpoint check_gui (seen : gset string) (l : list GUIEvidence) : result error unit :=
  match l with
  | [] => Ok tt
  | g :: l =>
      check ~ (ScenarioID g = "" \/ guiPassed g = false \/
               MatchString sha256Pattern (guiDigest g) = false) else EGateGUI;;
      check ScenarioID g ∉ seen else EGateDuplicate (ScenarioID g);;
      check_gui ({[ScenarioID g]} ∪ seen) l
  end.

Definition distcc_claim_ok (d : option DistCCGateEvidence) : bool :=
  match d with
  | None => false
  | Some d => negb (bool_decide (gatePoolID d = "")) && negb (PumpMode d) && OutputFenced d
  end.

(** The code ranges over a map of four digests; the map's order only decides
    which digest an error names. *)
Definition manifest_Validate (m : GateManifest) : result error unit :=
  check SchemaVersion m = 1 /\ (Mode m = "local-only" \/ Mode m = "distcc")
    else EGateManifest;;
  check Forall (fun digest => MatchString sha256Pattern digest = true)
          [BuildInputDigest m; ArtifactDigest m; ABIDigest m; InstallDigest m]
    else EGateDigest;;
  check InstallPassed m = true /\ length (GUI m) <> 0%nat else EGateInstall;;
  let! _ := check_gui ∅ (GUI m) in
  check ~ (Mode m = "local-only" /\ is_Some (DistCC m)) else EGateLocalClaim;;
  check ~ (Mode m = "distcc" /\ distcc_claim_ok (DistCC m) = false) else EGateDistcc;;
  Ok tt.

(** The loop over the remote evidence: the local map with the scenarios seen
    deleted, and the scenarios. A missing key reads as the empty string. *)
Fixpoint match_gui (localGUI : gmap string string) (scenarios : list string)
    (l : list GUIEvidence) : result error (gmap string string * list string) :=
  match l with
  | [] => Ok (localGUI, scenarios)
  | g :: l =>
      check default "" (localGUI !! ScenarioID g) = guiDigest g
        else EGateGUIMismatch (ScenarioID g);;
      match_gui (delete (ScenarioID g) localGUI) (scenarios ++ [ScenarioID g]) l
  end.

Definition gui_map (l : list GUIEvidence) : gmap string string :=
  foldl (fun m g => <[ScenarioID g := guiDigest g]> m) ∅ l.

Definition CompareGate (local remote : GateManifest) (now : Z) : result error GateReceipt :=
  let! _ := manifest_Validate local in
  let! _ := manifest_Validate remote in
  check Mode local = "local-only" /\ Mode remote = "distcc" else EGateModes;;
  check BuildInputDigest local = BuildInputDigest remote else EGateInput;;
  check ArtifactDigest local = ArtifactDigest remote else EGateArtifact;;
  check ABIDigest local = ABIDigest remote else EGateABI;;
  let! (localGUI, scenarios) := match_gui (gui_map (GUI local)) [] (GUI remote) in
  check localGUI = ∅ else EGateOmitted;;
  check InstallDigest local = InstallDigest remote else EGateInstallMismatch;;
  Ok (mkReceipt 1 "passed" (BuildInputDigest local) (ArtifactDigest local) (ABIDigest local)
        (SortStrings scenarios) now).

(** ** Dimensions: what the pattern guarantees *)
Definition dim_byte (c : ascii) : Prop :=
  plain c = true /\ c <> ","%char /\ c <> "000"%char.
#[export] Instance dim_byte_dec c : Decision (dim_byte c).
Proof. unfold dim_byte. apply _. Defined.

Lemma dimension_bytes s : MatchString dimensionPattern s = true -> Forall dim_byte (bytes s).
Proof.
  apply MatchString_alphabet. unfold dimensionPattern. cbn [uses].
  split; by_class.
Qed.

Lemma dimension_nonempty s : MatchString dimensionPattern s = true -> s <> "".
Proof. by apply MatchString_nonempty. Qed.

Lemma dimension_trimmed s : MatchString dimensionPattern s = true -> TrimSpace s = s.
Proof.
  intros H. apply TrimSpace_plain. eapply Forall_impl; [by apply dimension_bytes|].
  by intros c [? _].
Qed.

Lemma free_of_dim c s :
  (forall d, dim_byte d -> d <> c) -> MatchString dimensionPattern s = true -> free_of c s.
Proof.
  intros Hc H%dimension_bytes Hin. rewrite List.Forall_forall in H.
  destruct (Hc c); [|done]. apply H. by apply list_elem_of_In.
Qed.

Lemma dimension_no_comma s : MatchString dimensionPattern s = true -> free_of "," s.
Proof. apply free_of_dim. by intros d (? & ? & ?). Qed.
Lemma dimension_no_nul s : MatchString dimensionPattern s = true -> free_of "000" s.
Proof. apply free_of_dim. by intros d (? & ? & ?). Qed.
#[export] Hint Resolve dimension_nonempty dimension_trimmed dimension_no_comma
  dimension_no_nul : engine.

(** ** Normalised pools *)
Definition valid_dim (s : string) : Prop := MatchString dimensionPattern s = true.

Record normal (p : Pool) : Prop := {
  normal_dims : Forall valid_dim [Architecture p; CHOST p; CompilerDigest p;
                  ToolchainImageGeneration p; NetworkZone p; ProjectTrustDomain p];
  normal_digest : MatchString compilerDigestPattern (CompilerDigest p) = true;
  normal_count : (length (CPUFeatures p) <= maxCPUFeatures)%nat;
  normal_features : Forall valid_dim (CPUFeatures p);
  normal_nodup : NoDup (CPUFeatures p);
  normal_sorted : SortStrings (CPUFeatures p) = CPUFeatures p
}.

Lemma check_dimensions_ok values :
  check_dimensions values = Ok tt <-> Forall (fun v => valid_dim (TrimSpace v.2)) values.
Proof.
  induction values as [|[n v] values IH]; simpl; [done|].
  rewrite Forall_cons, <- IH. unfold valid_dim. simpl. case_decide; naive_solver.
Qed.

Lemma Normalize_normal p q : Normalize p = Ok q -> normal q.
Proof.
  unfold Normalize. intros H. inv_ok H. subst q.
  apply check_dimensions_ok in E. unfold pool_values in E.
  apply trim_dedup_spec in E0 as (Hnd & Hall & _ & Hlen). split; simpl.
  - rewrite !Forall_cons in E. simpl in E. rewrite !Forall_cons. naive_solver.
  - done.
  - unfold SortStrings. rewrite sort_by_perm. lia.
  - apply Forall_forall. intros x. rewrite elem_of_SortStrings.
    rewrite Forall_forall in Hall. apply Hall.
  - by apply NoDup_SortStrings.
  - apply SortStrings_idemp.
Qed.

Lemma normal_Normalize q : normal q -> Normalize q = Ok q.
Proof.
  intros [Hd Hdig Hcount Hf Hnd Hs]. unfold Normalize.
  assert (forall s, valid_dim s -> TrimSpace s = s) as Ht by (unfold valid_dim; auto with engine).
  rewrite !Forall_cons in Hd. destruct Hd as (H1 & H2 & H3 & H4 & H5 & H6 & _).
  rewrite (proj2 (check_dimensions_ok (pool_values q))).
  2:{ unfold pool_values. rewrite !Forall_cons. simpl. by rewrite !Ht by done. }
  rewrite !Ht by done. rewrite !decide_True by done.
  rewrite trim_dedup_trimmed; [|done|].
  - rewrite Hs. by destruct q.
  - intros x Hx. rewrite Forall_forall in Hf. specialize (Hf x Hx).
    split_and!; auto. set_solver.
Qed.

(** [Normalize] returns a canonical form: normalising it again changes
    nothing, and every pool with the same trimmed dimensions and the same set of
    trimmed CPU features (in any order, with any repetition up to the feature
    limit) normalises to that same pool. *)
Theorem Normalize_canonical (p q : Pool) (Hn : Normalize p = Ok q) :
  Normalize q = Ok q /\
  forall p', (length (CPUFeatures p') <= maxCPUFeatures)%nat ->
    (TrimSpace <$> (pool_values p').*2) = (TrimSpace <$> (pool_values p).*2) ->
    (forall f, f ∈ TrimSpace <$> CPUFeatures p' <-> f ∈ TrimSpace <$> CPUFeatures p) ->
    Normalize p' = Ok q.
Proof.
  split; [eapply normal_Normalize, Normalize_normal, Hn|].
  intros p' Hlen Hdims Hfeat. unfold Normalize in *. inv_ok Hn. subst q.
  cbn in Hdims. injection Hdims as H1 H2 H3 H4 H5 H6.
  apply check_dimensions_ok in E. unfold pool_values in E. rewrite !Forall_cons in E.
  rewrite (proj2 (check_dimensions_ok (pool_values p'))).
  2:{ unfold pool_values. rewrite !Forall_cons. cbn [snd] in *.
      rewrite H1, H2, H3, H4, H5, H6. naive_solver. }
  rewrite H1, H2, H3, H4, H5, H6, !decide_True by done.
  apply trim_dedup_spec in E0 as (Hnd & Hall & Hx & _).
  destruct (trim_dedup_total (MatchString dimensionPattern) ∅ (CPUFeatures p')) as [b Hb].
  { intros f Hf. rewrite Forall_forall in Hall. apply Hall, Hx.
    split; [set_solver|]. apply Hfeat. by apply list_elem_of_fmap_2. }
  rewrite Hb. apply trim_dedup_spec in Hb as (Hnd' & _ & Hx' & _).
  do 2 f_equal. apply SortStrings_ext; [done|done|]. intros x. rewrite Hx, Hx', Hfeat. done.
Qed.

(** The hashed bytes determine a normalised pool: no dimension contains the NUL
    separator and no CPU feature the comma. *)
Lemma pool_parts_no_nul p : normal p -> Forall (free_of "000") (pool_parts p).
Proof.
  intros [Hd _ _ Hf _ _]. unfold valid_dim, pool_parts in *.
  rewrite !Forall_cons in *. destruct Hd as (? & ? & ? & ? & ? & ? & _).
  split_and!; auto with engine.
  apply free_of_Join; [by vm_compute; set_solver|].
  eapply Forall_impl; [exact Hf|]. auto with engine.
Qed.

Lemma pool_preimage_inj p q : normal p -> normal q -> pool_preimage p = pool_preimage q -> p = q.
Proof.
  intros Hp Hq H. apply Join_inj in H; [|done|by apply pool_parts_no_nul..].
  unfold pool_parts in H. injection H as H1 H2 H3 H4 H5 H6 H7.
  apply Join_inj_nonempty in H5.
  - destruct p, q. simpl in *. congruence.
  - eapply Forall_impl; [apply (normal_features p Hp)|]. split; auto with engine.
  - eapply Forall_impl; [apply (normal_features q Hq)|]. split; auto with engine.
Qed.

(** A pool identifier identifies the pool: two pools with the same [ID] have
    the same normal form, unless the first sixteen bytes of SHA-256 collide on
    two different encodings.  The encoding itself never confuses two pools. *)
Theorem ID_identifies_pool (p q p' q' : Pool)
    (Hp : Normalize p = Ok p') (Hq : Normalize q = Ok q') (Hid : ID p = ID q) :
  p' = q' \/
  (pool_preimage p' <> pool_preimage q' /\
   take poolHashBytes (Sum256 (bytes (pool_preimage p'))) =
   take poolHashBytes (Sum256 (bytes (pool_preimage q')))).
Proof.
  destruct (decide (pool_preimage p' = pool_preimage q')) as [Heq|Hne].
  - left. eapply pool_preimage_inj; eauto using Normalize_normal.
  - right. split; [done|]. unfold ID in Hid. rewrite Hp, Hq in Hid.
    injection Hid as Hid. apply EncodeToString_inj; auto using Forall_take, Sum256_bytes.
Qed.

Definition pool_ex : Pool :=
  mkPool "amd64" " x86_64-pc-linux-gnu"
    "sha256:0123456789abcdef0123456789abcdef0123456789abcdef0123456789abcdef"
    "gen-7" ["sse4.2"; "avx2"; " avx2 "] "zone-a" "project-1".
Definition pool_ex' : Pool := pool_ex <| CHOST := "x86_64-pc-linux-gnu" |>
                                      <| CPUFeatures := ["avx2"; "sse4.2"] |>.

Lemma Normalize_canonical_witness :
  Normalize pool_ex = Ok pool_ex' /\ Normalize pool_ex' = Ok pool_ex'.
Proof.
  assert (Normalize pool_ex = Ok pool_ex') as H by (vm_compute; reflexivity).
  split; [exact H|]. exact (proj1 (Normalize_canonical pool_ex pool_ex' H)).
Defined.

Lemma ID_identifies_pool_witness :
  ID pool_ex = Ok "distcc-f9fd752204ad31f625d5656da12a3da8" /\
  (pool_ex' = pool_ex' \/
   (pool_preimage pool_ex' <> pool_preimage pool_ex' /\
    take poolHashBytes (Sum256 (bytes (pool_preimage pool_ex'))) =
    take poolHashBytes (Sum256 (bytes (pool_preimage pool_ex'))))).
Proof.
  split; [vm_compute; reflexivity|].
  apply (ID_identifies_pool pool_ex pool_ex'); vm_compute; reflexivity.
Defined.

(** ** Reduction of dependency atoms *)

(** The only dash of a version is the one of its revision, and what follows a
    dash is no version. *)
Lemma version_dash v : accepts atomVersionPattern v = true ->
  exists v1 v2, v = v1 ++ v2 /\ ("-"%char ∉ v1) /\
    (v2 = [] \/ exists d, v2 = "-"%char :: "r"%char :: d /\ ("-"%char ∉ d)).
Proof.
  rewrite accepts_spec. unfold atomVersionPattern. rewrite denotes_cat.
  intros (v1 & v2 & -> & H1 & H2). exists v1, v2. split; [done|]. split.
  - apply (denotes_alphabet (fun c => c <> "-"%char)) in H1.
    + intros Hin. rewrite Forall_forall in H1. by apply (H1 "-"%char).
    + unfold version_body. cbn [uses Plus Opt Lit]. split_and!; by_class.
  - apply denotes_opt in H2 as [->|Hr]; [by left|].
    + right. apply denotes_cat in Hr as (l1 & l2 & -> & ->%denotes_lit & Hd).
      exists l2. split; [done|].
      apply (denotes_alphabet (fun c => c <> "-"%char)) in Hd.
      * intros Hin. rewrite Forall_forall in Hd. by apply (Hd "-"%char).
      * cbn [uses Plus]. split; by_class.
Qed.

Lemma revision_no_version d : accepts atomVersionPattern ("r"%char :: d) = false.
Proof.
  apply not_true_iff_false. rewrite accepts_spec. intros H%der_spec.
  assert (der "r" atomVersionPattern = Empty) as He by (vm_compute; reflexivity).
  rewrite He in H. by apply denotes_empty in H.
Qed.

Lemma strip_version_cuts fuel name v :
  (2 <= fuel)%nat -> name <> [] -> accepts atomVersionPattern v = true ->
  strip_version fuel (name ++ "-"%char :: v) (name ++ "-"%char :: v) = name.
Proof.
  intros Hfuel Hname Hv. destruct (version_dash v Hv) as (v1 & v2 & -> & Hv1 & Hv2).
  assert (forall fuel, (1 <= fuel)%nat ->
    strip_version fuel (name ++ "-"%char :: v1 ++ v2) (name ++ "-"%char :: v1) = name) as Hcut.
  { intros [|f]; [lia|]. intros _. cbn [strip_version].
    rewrite last_index_byte_app by done. destruct (length name) as [|n] eqn:El.
    { by destruct name. }
    rewrite <- El. rewrite drop_app_ge by lia.
    replace (S (length name) - length name)%nat with 1%nat by lia.
    change (drop 1 ("-"%char :: v1 ++ v2)) with (v1 ++ v2). rewrite Hv.
    by rewrite take_app_length. }
  destruct Hv2 as [->|(d & -> & Hd)]; [rewrite app_nil_r in *; apply Hcut; lia|].
  destruct fuel as [|fuel]; [lia|]. cbn [strip_version].
  assert (name ++ "-"%char :: v1 ++ "-"%char :: "r"%char :: d =
          (name ++ "-"%char :: v1) ++ "-"%char :: "r"%char :: d) as Hassoc
    by (by rewrite <- app_assoc).
  rewrite Hassoc, last_index_byte_app by set_solver.
  destruct (length (name ++ "-"%char :: v1)) as [|n] eqn:El.
  { by destruct name. }
  rewrite <- El. rewrite drop_app_ge by lia.
  replace (S (length (name ++ "-"%char :: v1)) - length (name ++ "-"%char :: v1))%nat
    with 1%nat by lia.
  change (drop 1 _) with ("r"%char :: d). rewrite revision_no_version, take_app_length.
  rewrite <- Hassoc. apply Hcut. lia.
Qed.

(** No dash after the first byte of [name] starts a version. *)
Definition unversioned (name : list ascii) : Prop :=
  forall pre v, name = pre ++ "-"%char :: v -> pre <> [] -> accepts atomVersionPattern v = false.

Lemma last_index_byte_some c l i : last_index_byte c l = Some i ->
  exists l1 l2, l = l1 ++ c :: l2 /\ length l1 = i.
Proof.
  intros H. destruct (decide (c ∈ l)) as [Hin|Hnin].
  - apply list_elem_of_split_r in Hin as (l1 & l2 & -> & Hl2).
    rewrite last_index_byte_app in H by done. exists l1, l2. split; [done|congruence].
  - by rewrite last_index_byte_none in H.
Qed.

Lemma strip_version_keeps fuel name upto rest :
  name = upto ++ rest -> unversioned name -> strip_version fuel name upto = name.
Proof.
  revert upto rest. induction fuel as [|fuel IH]; intros upto rest Hname Hu; cbn [strip_version]; [done|].
  destruct (last_index_byte "-" upto) as [[|i]|] eqn:E; [done| |done].
  apply last_index_byte_some in E as (l1 & l2 & -> & Hlen).
  rewrite <- Hlen. rewrite <- app_assoc in Hname. simpl in Hname.
  assert (drop (S (length l1)) name = l2 ++ rest) as ->.
  { rewrite Hname. rewrite drop_app_ge by lia. by replace (S (length l1) - length l1)%nat with 1%nat by lia. }
  rewrite (Hu l1 (l2 ++ rest)); [|done|by destruct l1].
  rewrite take_app_length. by apply (IH l1 ("-"%char :: l2 ++ rest)).
Qed.

Lemma TrimLeft_app ops l cutset :
  Forall (fun c => one_of cutset c = true) ops -> TrimLeft (ops ++ l) cutset = TrimLeft l cutset.
Proof. induction 1 as [|c ops Hc Hops IH]; simpl; [done|]. by rewrite Hc. Qed.

Lemma cut_at_app c l r : c ∉ l -> cut_at c (l ++ c :: r) = l.
Proof. intros H. unfold cut_at. by rewrite index_byte_app, take_app_length. Qed.
Lemma cut_at_none c l : c ∉ l -> cut_at c l = l.
Proof. intros H. unfold cut_at. by rewrite index_byte_none. Qed.

(** Slot, repository and USE qualifiers start at the first colon or bracket. *)
Definition qualifiers (q : list ascii) : Prop :=
  match q with [] => True | c :: _ => c = ":"%char \/ c = "["%char end.

Lemma cut_qualifiers body q :
  "["%char ∉ body -> ":"%char ∉ body -> qualifiers q -> cut_at ":" (cut_at "[" (body ++ q)) = body.
Proof.
  intros Hb Hc Hq. destruct q as [|c q]; [by rewrite app_nil_r, (cut_at_none "["), cut_at_none|].
  destruct Hq as [->| ->]; [|by rewrite cut_at_app, cut_at_none].
  destruct (decide ("["%char ∈ q)) as [Hin|Hnin].
  - apply list_elem_of_split_l in Hin as (q1 & q2 & -> & Hq1).
    rewrite app_comm_cons, app_assoc, cut_at_app by set_solver. by rewrite cut_at_app.
  - rewrite (cut_at_none "["), cut_at_app by set_solver. done.
Qed.

Lemma TrimSuffix_star l star :
  "*"%char ∉ l -> star = [] \/ star = ["*"%char] -> TrimSuffix (l ++ star) "*" = l.
Proof.
  intros Hl Hs. unfold TrimSuffix. destruct Hs as [->| ->].
  - rewrite app_nil_r. destruct (rev l) as [|a r] eqn:E; [done|].
    destruct (Ascii.eqb_spec a "*") as [->|]; [|done].
    exfalso. apply Hl. apply elem_of_rev. rewrite E. set_solver.
  - rewrite rev_app_distr. simpl. apply rev_involutive.
Qed.

Definition atom_byte (c : ascii) : Prop := atom_char c = true.

Lemma atom_byte_spec c : atom_byte c -> plain c = true /\ one_of atomOperatorChars c = false /\
  c <> "["%char /\ c <> ":"%char /\ c <> "*"%char /\ c <> "/"%char.
Proof. revert c. unfold atom_byte. by_class. Qed.

Lemma atom_bytes_avoid c l :
  Forall atom_byte l -> c ∈ bytes "[:*/" -> c ∉ l.
Proof.
  intros H Hc Hin. rewrite Forall_forall in H. specialize (H c Hin).
  apply atom_byte_spec in H. set_solver.
Qed.

Lemma version_bytes v : accepts atomVersionPattern v = true -> Forall atom_byte v.
Proof.
  rewrite accepts_spec. apply denotes_alphabet.
  unfold atomVersionPattern, version_body, atom_byte. cbn [uses Plus Opt Lit].
  split_and!; by_class.
Qed.

Lemma ValidAtom_intro category name :
  category <> [] -> name <> [] -> Forall atom_byte category -> Forall atom_byte name ->
  ValidAtom (of_bytes (category ++ bytes "/" ++ name)) = true.
Proof.
  intros ????. unfold ValidAtom, MatchString. rewrite bytes_of_bytes. apply accepts_spec.
  unfold atomPattern. repeat apply d_cat; [by apply denotes_plus_cls|by apply denotes_lit|].
  by apply denotes_plus_cls.
Qed.

Lemma NormalizeAtom_bytes ops category nm star quals :
  Forall (fun c => one_of atomOperatorChars c = true) ops ->
  category <> [] -> Forall atom_byte category -> Forall atom_byte nm ->
  star = [] \/ star = ["*"%char] -> qualifiers quals -> Forall (fun c => plain c = true) quals ->
  NormalizeAtom (of_bytes (ops ++ category ++ bytes "/" ++ nm ++ star ++ quals)) =
  let name := strip_version (length nm) nm nm in
  let reduced := of_bytes (category ++ bytes "/" ++ name) in
  if ValidAtom reduced then Some reduced else None.
Proof.
  intros Hops Hcat Hcatb Hnm Hstar Hq Hqp.
  assert (Forall (fun c => plain c = true) (category ++ bytes "/" ++ nm ++ star)) as Hplain.
  { rewrite !Forall_app. split_and!; [..|destruct Hstar as [->| ->]; by repeat constructor].
    all: try by repeat constructor.
    all: eapply Forall_impl; [eassumption|]; by intros c [? _]%atom_byte_spec. }
  unfold NormalizeAtom. rewrite TrimSpace_plain, bytes_of_bytes.
  2:{ rewrite bytes_of_bytes. rewrite !Forall_app in *. split_and!; try naive_solver.
      eapply Forall_impl; [exact Hops|]. unfold atomOperatorChars. by_class. }
  rewrite TrimLeft_app by done.
  assert (forall r, TrimLeft (category ++ r) atomOperatorChars = category ++ r) as ->.
  { intros r. destruct category as [|c cat']; [done|]. cbn [TrimLeft app].
    apply Forall_cons in Hcatb as [(_ & -> & _)%atom_byte_spec _]. done. }
  assert (category ++ bytes "/" ++ nm ++ star ++ quals =
          (category ++ bytes "/" ++ nm ++ star) ++ quals) as ->
    by (by rewrite <- !app_assoc).
  assert (forall c, c ∈ bytes "[:" -> c ∉ category ++ bytes "/" ++ nm ++ star) as Hav.
  { intros c Hc. rewrite !not_elem_of_app. split_and!.
    - apply atom_bytes_avoid; set_solver.
    - set_solver.
    - apply atom_bytes_avoid; set_solver.
    - destruct Hstar as [->| ->]; set_solver. }
  rewrite cut_qualifiers by (done || (apply Hav; set_solver)).
  replace (category ++ bytes "/" ++ nm ++ star) with ((category ++ bytes "/" ++ nm) ++ star)
    by (by rewrite <- !app_assoc).
  rewrite TrimSuffix_star; [|rewrite !not_elem_of_app; split_and!|done].
  2,4: apply atom_bytes_avoid; set_solver. 2: set_solver.
  change (bytes "/" ++ nm) with ("/"%char :: nm).
  rewrite index_byte_app by (apply atom_bytes_avoid; set_solver).
  rewrite take_app_length, drop_app_ge by lia.
  by replace (S (length category) - length category)%nat with 1%nat by lia.
Qed.

(** [NormalizeAtom] reduces every form of a dependency atom to its
    category/name: any operators, any complete version (revision included) with
    an optional star, any slot, repository and USE qualifiers are removed; an
    atom without a version keeps its whole name when no dash in it starts a
    version. *)
Theorem NormalizeAtom_reduces (ops category name v star quals : list ascii)
    (Hops : Forall (fun c => one_of atomOperatorChars c = true) ops)
    (Hcat : category <> [] /\ Forall atom_byte category)
    (Hname : name <> [] /\ Forall atom_byte name)
    (Hv : accepts atomVersionPattern v = true)
    (Hstar : star = [] \/ star = ["*"%char])
    (Hq : qualifiers quals /\ Forall (fun c => plain c = true) quals) :
  let atom := of_bytes (category ++ bytes "/" ++ name) in
  NormalizeAtom (of_bytes (ops ++ category ++ bytes "/" ++ (name ++ "-"%char :: v) ++ star ++ quals))
    = Some atom /\
  (unversioned name ->
   NormalizeAtom (of_bytes (ops ++ category ++ bytes "/" ++ name ++ [] ++ quals)) = Some atom).
Proof.
  destruct Hcat as [Hc Hcb], Hname as [Hn Hnb], Hq as [Hq Hqp]. cbv zeta. split.
  - rewrite NormalizeAtom_bytes; auto.
    + rewrite strip_version_cuts by (auto; destruct name; rewrite ?length_app; simpl; lia || done).
      cbv zeta. by rewrite ValidAtom_intro.
    + apply Forall_app. split; [done|]. constructor; [done|by apply version_bytes].
  - intros Hu. rewrite NormalizeAtom_bytes by auto.
    rewrite (strip_version_keeps _ _ _ []) by (rewrite ?app_nil_r; done).
    cbv zeta. by rewrite ValidAtom_intro.
Qed.

Lemma NormalizeAtom_reduces_witness :
  NormalizeAtom "~dev-libs/docbook-xml-dtd-4.5_rc2-r1*:0/3[doc,-test]" =
    Some "dev-libs/docbook-xml-dtd".
Proof.
  refine (proj1 (NormalizeAtom_reduces (bytes "~") (bytes "dev-libs") (bytes "docbook-xml-dtd")
    (bytes "4.5_rc2-r1") (bytes "*") (bytes ":0/3[doc,-test]") _ _ _ _ _ _)).
  - repeat constructor.
  - split; [done|]. apply (bool_decide_unpack _). vm_compute. reflexivity.
  - split; [done|]. apply (bool_decide_unpack _). vm_compute. reflexivity.
  - vm_compute. reflexivity.
  - right. reflexivity.
  - split; [left; reflexivity|]. apply (bool_decide_unpack _). vm_compute. reflexivity.
Defined.

(** ** The builder's policy *)
Lemma reduce_allowlist_spec entries l s l' s' :
  reduce_allowlist entries l s = Ok (l', s') -> (forall a, a ∈ l <-> a ∈ s) -> NoDup l ->
  (forall a, a ∈ s' <-> a ∈ s \/ exists e, e ∈ entries /\ NormalizeAtom e = Some a) /\
  (forall a, a ∈ l' <-> a ∈ s') /\ NoDup l'.
Proof.
  revert l s. induction entries as [|e entries IH]; intros l s; cbn [reduce_allowlist].
  - intros [= <- <-] Hls Hnd. split_and!; [set_solver|done|done].
  - destruct (NormalizeAtom e) as [a|] eqn:E; [|done]. case_decide as Ha.
    + intros H Hls Hnd. apply IH in H as (H1 & H2 & H3); [|done|done].
      split_and!; [|done|done]. intros b. rewrite H1. set_solver.
    + intros H Hls Hnd. apply IH in H as (H1 & H2 & H3).
      * split_and!; [|done|done]. intros b. rewrite H1. set_solver.
      * set_solver.
      * apply NoDup_app. split_and!; [done|set_solver|apply NoDup_singleton].
Qed.

Lemma ValidateEndpoint_networks endpoint networks :
  networks <> [] -> ValidateEndpoint endpoint networks = Ok tt ->
  exists host port ip n, SplitHostPort (bytes endpoint) = Some (host, port) /\
    ParseIP host = Some ip /\ Some n ∈ networks /\ Contains n ip = true.
Proof.
  unfold ValidateEndpoint. intros Hne H.
  destruct (SplitHostPort (bytes endpoint)) as [[host port]|]; [|done].
  inv_ok H. case_decide as Hlen; [by destruct networks|].
  destruct (existsb _ networks) eqn:Ex; [|done].
  apply existsb_exists in Ex as ([n|] & Hn & Hin); [|done].
  exists host, port, a, n. split_and!; auto. by apply list_elem_of_In.
Qed.

Lemma Join_nul_features l1 l2 :
  Forall (fun s => free_of "000" s /\ s <> "") l1 -> Forall (fun s => free_of "000" s /\ s <> "") l2 ->
  Join l1 NUL = Join l2 NUL -> l1 = l2.
Proof. apply Join_inj_nonempty. Qed.

(** A builder authorises remote compilation only for an exact, live,
    reviewed contract: with a policy built by [NewBuilderPolicy] from operator
    configuration (its features non-empty and NUL-free), [Authorize] returning
    no error means that distcc is enabled, the package is the reduction of an
    allowlist entry, the lease is unexpired and without pump mode, its pool is
    exactly the builder's architecture, CHOST, compiler, image generation, CPU
    features and zone, its trust domain is the claimed project's, it belongs to
    the claimed attempt and fence, and its endpoint is a literal address in one
    of the isolated networks. *)
Theorem Authorize_sound (config policy : BuilderPolicy) atom domain attemptID fence lease now
    (Hnew : NewBuilderPolicy config = Ok policy)
    (Hfeat : Forall (fun s => free_of "000" s /\ s <> "") (polCPUFeatures config))
    (Hok : Authorize policy atom domain attemptID fence (Some lease) now = Ok tt) :
  Enabled config = true /\
  (exists e, e ∈ Allowlist config /\ NormalizeAtom e = Some atom) /\
  now < ExpiresAt lease /\ Pump lease = false /\
  Normalize (leasePool lease) =
    Ok (mkPool (polArchitecture config) (polCHOST config) (polCompilerDigest config)
          (ImageGeneration config) (SortStrings (polCPUFeatures config))
          (polNetworkZone config) domain) /\
  AttemptID lease = attemptID /\ AttemptFence lease = fence /\ 0 < fence /\
  (exists host port ip n, SplitHostPort (bytes (WorkerEndpoint lease)) = Some (host, port) /\
     ParseIP host = Some ip /\ Some n ∈ IsolatedNetworks config /\ Contains n ip = true).
Proof.
  unfold NewBuilderPolicy in Hnew. inv_ok Hnew. subst policy. cbn in Hc.
  apply reduce_allowlist_spec in E as (Hset & _ & _); [|set_solver|constructor].
  unfold Authorize in Hok. inv_ok Hok. cbn in Hc0, Hc1, Hc2, Hok.
  unfold lease_Validate in E. inv_ok E. unfold ValidateShape in E1. inv_ok E1.
  unfold Expired in *. pose proof (Normalize_normal _ _ E0) as Hnorm.
  destruct Hc2 as (<- & <- & <- & <- & <- & Hj).
  rewrite SortStrings_idemp in Hj. apply Join_nul_features in Hj.
  - destruct Hc3 as [Hne <-]. apply Decidable.not_or in Hc4 as (_ & [Hf [Ha Hfe]%Decidable.not_or]%Decidable.not_or).
    split_and!.
    + done.
    + apply Hset in Hc1 as [?|?]; [set_solver|done].
    + lia.
    + done.
    + f_equal. destruct a. simpl in *. congruence.
    + by apply dec_stable.
    + by apply dec_stable.
    + lia.
    + apply ValidateEndpoint_networks; [|done]. intros Hn. apply Hc.
      split; [done|]. right. by rewrite Hn.
  - eapply Forall_impl; [apply (normal_features _ Hnorm)|]. unfold valid_dim. auto with engine.
  - unfold SortStrings. by rewrite sort_by_perm.
Qed.

Definition policy_config_ex : BuilderPolicy :=
  mkPolicy true [">=dev-qt/qtwebengine-6.7.2"; "sys-devel/gcc:13"]
    [None; Some (mkIPNet [10; 0; 0; 0] [255; 255; 255; 0])]
    "amd64" "x86_64-pc-linux-gnu" (CompilerDigest pool_ex) "gen-7" ["sse4.2"; "avx2"] "zone-a" ∅.
Definition lease_ex : Lease :=
  mkLease "lease-1" "worker-1" "10.0.0.7:3632" "builder-1" "net-1" "attempt-1" 3 9 4
    "distcc-f9fd752204ad31f625d5656da12a3da8" pool_ex FallbackLocal false 100 0
    ["dev-qt/qtwebengine"].

Definition policy_ex : BuilderPolicy :=
  policy_config_ex <| Allowlist := ["dev-qt/qtwebengine"; "sys-devel/gcc"] |>
                   <| polCPUFeatures := ["avx2"; "sse4.2"] |>
                   <| allowed := {["dev-qt/qtwebengine"; "sys-devel/gcc"]} |>.

Lemma Authorize_sound_witness :
  NewBuilderPolicy policy_config_ex = Ok policy_ex /\
  Authorize policy_ex "dev-qt/qtwebengine" "project-1" "attempt-1" 3 (Some lease_ex) 99 = Ok tt /\
  99 < ExpiresAt lease_ex.
Proof.
  assert (NewBuilderPolicy policy_config_ex = Ok policy_ex) as Hn by (vm_compute; reflexivity).
  assert (Authorize policy_ex "dev-qt/qtwebengine" "project-1" "attempt-1" 3 (Some lease_ex) 99
          = Ok tt) as Ha by (vm_compute; reflexivity).
  split; [exact Hn|]. split; [exact Ha|].
  refine (proj1 (proj2 (proj2 (Authorize_sound _ _ _ _ _ _ _ _ Hn _ Ha)))).
  apply (bool_decide_unpack _). vm_compute. reflexivity.
Defined.

(** ** The evidence gate *)
Definition gui_pairs (l : list GUIEvidence) : list (string * string) :=
  (fun g => (ScenarioID g, guiDigest g)) <$> l.

Lemma gui_pairs_fst l : (gui_pairs l).*1 = ScenarioID <$> l.
Proof. unfold gui_pairs. by rewrite <- list_fmap_compose. Qed.

Lemma check_gui_ok seen l : check_gui seen l = Ok tt ->
  NoDup (ScenarioID <$> l) /\ Forall (fun g => (ScenarioID g ∉ seen) /\ guiDigest g <> "") l.
Proof.
  revert seen. induction l as [|g l IH]; intros seen; cbn [check_gui]; [by repeat constructor|].
  intros H. inv_ok H. apply IH in H as [Hnd Hall]. rewrite Forall_forall in Hall.
  apply Decidable.not_or in Hc as [_ [_ Hd]%Decidable.not_or].
  split.
  - rewrite fmap_cons. constructor; [|done]. intros (g' & Hg' & Hin)%list_elem_of_fmap.
    destruct (Hall g' Hin). set_solver.
  - constructor.
    + split; [done|]. intros He. apply Hd. rewrite He. by vm_compute.
    + apply Forall_forall. intros g' Hg'. destruct (Hall g' Hg'). set_solver.
Qed.

Lemma gui_map_fold (m : gmap string string) l :
  NoDup (ScenarioID <$> l) ->
  foldl (fun m g => <[ScenarioID g := guiDigest g]> m) m l = list_to_map (gui_pairs l) ∪ m.
Proof.
  revert m. induction l as [|g l IH]; intros m Hnd; simpl; [by rewrite map_empty_union|].
  rewrite fmap_cons in Hnd. inversion_clear Hnd as [|?? Hg Hnd'].
  rewrite IH by done. fold (gui_pairs l). rewrite <- insert_union_r.
  - by rewrite insert_union_l.
  - apply not_elem_of_list_to_map_1. by rewrite gui_pairs_fst.
Qed.

Lemma match_gui_ok m sc l :
  NoDup (ScenarioID <$> l) -> Forall (fun g => guiDigest g <> "") l ->
  m = list_to_map (gui_pairs l) <->
  match_gui m sc l = Ok (∅, sc ++ (ScenarioID <$> l)).
Proof.
  revert m sc. induction l as [|g l IH]; intros m sc Hnd Hd; cbn [match_gui].
  { simpl. rewrite app_nil_r. split; [by intros ->|by intros [= ->]]. }
  rewrite fmap_cons in Hnd. inversion_clear Hnd as [|?? Hg Hnd'].
  inversion_clear Hd as [|?? Hdg Hd'].
  assert ((list_to_map (gui_pairs l) : gmap string string) !! ScenarioID g = None) as Hnone.
  { apply not_elem_of_list_to_map_1. by rewrite gui_pairs_fst. }
  rewrite fmap_cons. change (ScenarioID g :: (ScenarioID <$> l)) with ([ScenarioID g] ++ (ScenarioID <$> l)).
  rewrite app_assoc. split.
  - intros ->. simpl. rewrite lookup_insert_eq. rewrite decide_True by done.
    apply IH; [done|done|]. by rewrite delete_insert_id.
  - case_decide as Hlk; [|done]. intros H%IH; [|done|done]. simpl. fold (gui_pairs l).
    rewrite <- H. rewrite insert_delete_id; [done|].
    destruct (m !! ScenarioID g); simpl in *; congruence.
Qed.

Lemma manifest_gui_ok m : manifest_Validate m = Ok tt ->
  NoDup (ScenarioID <$> GUI m) /\ Forall (fun g => guiDigest g <> "") (GUI m).
Proof.
  unfold manifest_Validate. intros H. inv_ok H.
  apply check_gui_ok in E as [Hnd Hall]. split; [done|].
  eapply Forall_impl; [exact Hall|]. by intros g [_ ?].
Qed.

Lemma match_gui_scenarios m sc l m' sc' :
  match_gui m sc l = Ok (m', sc') -> sc' = sc ++ (ScenarioID <$> l).
Proof.
  revert m sc. induction l as [|g l IH]; intros m sc; cbn [match_gui].
  - intros [= <- <-]. by rewrite app_nil_r.
  - case_decide; [|done]. intros ->%IH. by rewrite <- app_assoc.
Qed.

(** The gate passes exactly when both manifests are valid, one is local-only
    and the other distcc, they are about the same build input, their artifact,
    ABI and installation evidence are identical, and their GUI evidence is the
    same map from scenarios to digests (none missing, added or different); the
    receipt then lists the scenarios in sorted order. *)
Theorem CompareGate_exact (local remote : GateManifest) (now : Z) (receipt : GateReceipt) :
  CompareGate local remote now = Ok receipt <->
  manifest_Validate local = Ok tt /\ manifest_Validate remote = Ok tt /\
  Mode local = "local-only" /\ Mode remote = "distcc" /\
  BuildInputDigest local = BuildInputDigest remote /\
  ArtifactDigest local = ArtifactDigest remote /\
  ABIDigest local = ABIDigest remote /\
  InstallDigest local = InstallDigest remote /\
  gui_map (GUI local) = gui_map (GUI remote) /\
  receipt = mkReceipt 1 "passed" (BuildInputDigest local) (ArtifactDigest local)
              (ABIDigest local) (SortStrings (ScenarioID <$> GUI remote)) now.
Proof.
  unfold CompareGate. split.
  - intros H. inv_ok H. pose proof (manifest_gui_ok _ E0) as [Hnd Hd].
    subst g. pose proof (match_gui_scenarios _ _ _ _ _ E1) as Hl. simpl in Hl. subst l.
    split_and!; try naive_solver.
    apply (match_gui_ok _ [] _ Hnd Hd) in E1. rewrite E1.
    unfold gui_map at 1. by rewrite gui_map_fold, map_union_empty.
  - intros (Hl & Hr & Hml & Hmr & Hi & Ha & Hb & Hins & Hg & ->).
    rewrite Hl, Hr. rewrite !decide_True by done.
    pose proof (manifest_gui_ok _ Hr) as [Hnd Hd].
    rewrite (proj1 (match_gui_ok (gui_map (GUI local)) [] _ Hnd Hd)).
    + simpl. by rewrite !decide_True.
    + rewrite Hg. unfold gui_map. by rewrite gui_map_fold, map_union_empty.
Qed.
