(* ===== verification/Schema.v ===== *)
(** * The PostgreSQL ledger: row types and the database state

    Every table the modelled operations read or write is a list of rows; columns
    that none of them reads ([created_at], [deleted_at], [reason] and the like)
    are left out.  Columns with a
    [CHECK (... IN (...))] constraint are inductive types, nullable columns are
    options, [timestamptz] and durations are integers (nanoseconds), uuids are
    strings, and JSON documents are typed records.  Source: the migrations
    under [src/internal/migrations/sql]. *)

From S2P Require Import Prelude.

Notation time := Z (only parsing).
Notation duration := Z (only parsing).
Notation uuid := string (only parsing).

Definition Nanosecond : duration := 1.
Definition Microsecond : duration := 1000.
Definition Millisecond : duration := 1000000.
Definition Second : duration := 1000000000.
Definition Minute : duration := 60 * Second.
Definition Hour : duration := 60 * Minute.

(** ** Enumerated columns *)
Inductive WorkerState := WActive | WDraining.
Inductive LeaseKind := KAttempt | KAdmission.
Inductive Phase := Provision | Build | Verify | Publish.
Inductive WorkState := SBlocked | SReady | SClaimed | SCompleted | SFailed | SCanceled.
Inductive ExecutionMode := Shadow | ActiveMode.
Inductive ReservationPhase := RClaimed | RWaiting | RPhase (p : Phase).
Inductive ReleaseState := Live | Released.
Inductive UsageState := UActive | USettled.
Inductive ActionKind := ScaleUp | ScaleDown.
Inductive ActionState :=
| ARequested | AClaimed | AWaitingForHeartbeat | AWaitingForDrain
| ACompleted | AFailed | ACanceled.
Inductive InstanceState :=
| IProvisioning | IActive | IDraining | IDeleting | IDeleted | IFailed.
Inductive SlotLeaseState := LActive | LReleased | LExpired.
Inductive ScaleMode := MOff | MObserve | MActuate.
Inductive Recommendation := RecOff | RecHold | RecScaleUp | RecScaleDown.

#[export] Instance WorkerState_eq : EqDecision WorkerState. Proof. solve_decision. Defined.
#[export] Instance LeaseKind_eq : EqDecision LeaseKind. Proof. solve_decision. Defined.
#[export] Instance Phase_eq : EqDecision Phase. Proof. solve_decision. Defined.
#[export] Instance WorkState_eq : EqDecision WorkState. Proof. solve_decision. Defined.
#[export] Instance ExecutionMode_eq : EqDecision ExecutionMode. Proof. solve_decision. Defined.
#[export] Instance ReservationPhase_eq : EqDecision ReservationPhase. Proof. solve_decision. Defined.
#[export] Instance ReleaseState_eq : EqDecision ReleaseState. Proof. solve_decision. Defined.
#[export] Instance UsageState_eq : EqDecision UsageState. Proof. solve_decision. Defined.
#[export] Instance ActionKind_eq : EqDecision ActionKind. Proof. solve_decision. Defined.
#[export] Instance ActionState_eq : EqDecision ActionState. Proof. solve_decision. Defined.
#[export] Instance InstanceState_eq : EqDecision InstanceState. Proof. solve_decision. Defined.
#[export] Instance SlotLeaseState_eq : EqDecision SlotLeaseState. Proof. solve_decision. Defined.
#[export] Instance ScaleMode_eq : EqDecision ScaleMode. Proof. solve_decision. Defined.
#[export] Instance Recommendation_eq : EqDecision Recommendation. Proof. solve_decision. Defined.

(** ** Workers and leases *)

(** The JSON document of [workers.capabilities]. *)
Record WorkerCapabilities := mkCapabilities {
  cap_role : option string;
  cap_labels : option (list string);
  cap_pressure_score : option Z
}.
#[export] Instance WorkerCapabilities_eta : Eta WorkerCapabilities := fun c =>
  mkCapabilities (cap_role c) (cap_labels c) (cap_pressure_score c).
#[export] Instance WorkerCapabilities_eq : EqDecision WorkerCapabilities.
Proof. solve_decision. Defined.

Record worker := mkWorker {
  w_id : uuid;
  w_stable_name : string;
  w_desired_state : WorkerState;
  w_capabilities : WorkerCapabilities;
  w_max_slots : Z;
  w_last_seen_at : option time;
  w_executor_protocol : Z;
  w_generation : Z;
  w_updated_at : time
}.
#[export] Instance worker_eta : Eta worker := fun w =>
  mkWorker (w_id w) (w_stable_name w) (w_desired_state w) (w_capabilities w) (w_max_slots w)
    (w_last_seen_at w) (w_executor_protocol w) (w_generation w) (w_updated_at w).

(** [COALESCE(capabilities -> 'labels', '[]'::jsonb)] *)
Definition w_labels (w : worker) : list string := default [] (cap_labels (w_capabilities w)).

Record worker_lease := mkWorkerLease {
  wl_id : uuid;
  wl_worker_id : uuid;
  wl_attempt_id : uuid;
  wl_fence_token : Z;
  wl_lease_kind : LeaseKind;
  wl_expires_at : time;
  wl_renewed_at : time
}.
#[export] Instance worker_lease_eta : Eta worker_lease := fun l =>
  mkWorkerLease (wl_id l) (wl_worker_id l) (wl_attempt_id l) (wl_fence_token l)
    (wl_lease_kind l) (wl_expires_at l) (wl_renewed_at l).

(** ** Build requests and status documents *)

(** The fields of [catalog.ResolvedBuildContext] the modelled code reads; the others,
    which are only stored and digested, are [rx_rest]. *)
Record ResolvedContext := mkResolved {
  rx_profile_id : string;
  rx_arch : string;
  rx_provider : string;
  rx_execution_zone : string;
  rx_build_mode : string;
  rx_image_id : string;
  rx_image_generation : string;
  rx_resource_class : string;
  rx_machine_spec : gmap string string;
  rx_max_runtime_minutes : Z;
  rx_cloud_cost_microunits_per_minute : Z;
  rx_egress_policy_id : string;
  rx_egress_policy_digest : string;
  rx_rest : string;
  rx_resolved_at : time
}.
#[export] Instance ResolvedContext_eta : Eta ResolvedContext := fun r =>
  mkResolved (rx_profile_id r) (rx_arch r) (rx_provider r) (rx_execution_zone r)
    (rx_build_mode r) (rx_image_id r) (rx_image_generation r) (rx_resource_class r)
    (rx_machine_spec r) (rx_max_runtime_minutes r) (rx_cloud_cost_microunits_per_minute r)
    (rx_egress_policy_id r) (rx_egress_policy_digest r) (rx_rest r) (rx_resolved_at r).
#[export] Instance ResolvedContext_eq : EqDecision ResolvedContext.
Proof. solve_decision. Defined.

(** [builder.ConfigBundle]: its content is opaque, apart from the creation time
    in its metadata. *)
Record ConfigBundle := mkBundle { cb_content : string; cb_created_at : time }.
#[export] Instance ConfigBundle_eta : Eta ConfigBundle := fun b =>
  mkBundle (cb_content b) (cb_created_at b).
#[export] Instance ConfigBundle_eq : EqDecision ConfigBundle. Proof. solve_decision. Defined.

(** [storedBuildRequest] *)
Record BuildRequest := mkRequest {
  rq_project_id : string;
  rq_requested_by : string;
  rq_package_name : string;
  rq_version : string;
  rq_arch : string;
  rq_use_flags : list string;
  rq_cloud_provider : string;
  rq_profile_id : string;
  rq_repository_ids : list string;
  rq_resource_class : string;
  rq_machine_spec : gmap string string;
  rq_resolved_context : option ResolvedContext;
  rq_config_bundle : option ConfigBundle;
  rq_idempotency_key : string
}.
#[export] Instance BuildRequest_eta : Eta BuildRequest := fun r =>
  mkRequest (rq_project_id r) (rq_requested_by r) (rq_package_name r) (rq_version r) (rq_arch r)
    (rq_use_flags r) (rq_cloud_provider r) (rq_profile_id r) (rq_repository_ids r)
    (rq_resource_class r) (rq_machine_spec r) (rq_resolved_context r) (rq_config_bundle r)
    (rq_idempotency_key r).
#[export] Instance BuildRequest_eq : EqDecision BuildRequest.
Proof. solve_decision. Defined.

(** [storedJobStatus], the document of [build_jobs.status_snapshot]. *)
Record JobStatus := mkStatus {
  st_job_id : string;
  st_project_id : string;
  st_requested_by : string;
  st_status : string;
  st_package_name : string;
  st_version : string;
  st_arch : string;
  st_created_at : time;
  st_updated_at : time;
  st_instance_id : string;
  st_error : string;
  st_artifact_path : string;
  st_artifact_url : string;
  st_artifacts : list string;
  st_signed : bool;
  st_resolved_context : option ResolvedContext;
  st_failed_stage : string
}.
#[export] Instance JobStatus_eta : Eta JobStatus := fun s =>
  mkStatus (st_job_id s) (st_project_id s) (st_requested_by s) (st_status s) (st_package_name s)
    (st_version s) (st_arch s) (st_created_at s) (st_updated_at s) (st_instance_id s)
    (st_error s) (st_artifact_path s) (st_artifact_url s) (st_artifacts s) (st_signed s)
    (st_resolved_context s) (st_failed_stage s).
#[export] Instance JobStatus_eq : EqDecision JobStatus.
Proof. solve_decision. Defined.

(** ** Jobs, attempts and phase work *)
Record build_job := mkJob {
  j_id : uuid;
  j_project_id : uuid;
  j_requested_by : option uuid;
  j_idempotency_key : option string;
  j_state : string;
  j_priority : Z;
  j_request : BuildRequest;
  j_request_digest : string;
  j_status_snapshot : JobStatus;
  j_status_digest : string;
  j_cancel_requested_at : option time;
  j_terminal_reason : string;
  j_max_attempts : Z;
  j_next_attempt_at : time;
  j_legacy_visible : bool;
  j_ledger_revision : Z;
  j_minimum_executor_protocol : Z;
  j_required_capabilities : list string;
  j_created_at : time;
  j_updated_at : time;
  j_completed_at : option time
}.
#[export] Instance build_job_eta : Eta build_job := fun j =>
  mkJob (j_id j) (j_project_id j) (j_requested_by j) (j_idempotency_key j) (j_state j)
    (j_priority j) (j_request j) (j_request_digest j) (j_status_snapshot j) (j_status_digest j)
    (j_cancel_requested_at j) (j_terminal_reason j) (j_max_attempts j) (j_next_attempt_at j)
    (j_legacy_visible j) (j_ledger_revision j) (j_minimum_executor_protocol j)
    (j_required_capabilities j) (j_created_at j) (j_updated_at j) (j_completed_at j).

Record build_attempt := mkAttempt {
  a_id : uuid;
  a_job_id : uuid;
  a_attempt_no : Z;
  a_state : string;
  a_worker_id : option uuid;
  a_fence_token : Z;
  a_failure_class : string;
  a_failure_detail : string;
  a_started_at : option time;
  a_finished_at : option time;
  a_updated_at : time
}.
#[export] Instance build_attempt_eta : Eta build_attempt := fun a =>
  mkAttempt (a_id a) (a_job_id a) (a_attempt_no a) (a_state a) (a_worker_id a)
    (a_fence_token a) (a_failure_class a) (a_failure_detail a) (a_started_at a)
    (a_finished_at a) (a_updated_at a).

Record phase_work := mkPhaseWork {
  pw_id : uuid;
  pw_project_id : uuid;
  pw_job_id : uuid;
  pw_attempt_id : uuid;
  pw_phase : Phase;
  pw_sequence : Z;
  pw_execution_mode : ExecutionMode;
  pw_required_capabilities : list string;
  pw_state : WorkState;
  pw_available_at : time;
  pw_ready_since : option time;
  pw_claim_owner : string;
  pw_claim_fence : Z;
  pw_lease_expires_at : option time;
  pw_started_at : option time;
  pw_finished_at : option time;
  pw_error : string;
  pw_created_at : time;
  pw_updated_at : time
}.
#[export] Instance phase_work_eta : Eta phase_work := fun p =>
  mkPhaseWork (pw_id p) (pw_project_id p) (pw_job_id p) (pw_attempt_id p) (pw_phase p)
    (pw_sequence p) (pw_execution_mode p) (pw_required_capabilities p) (pw_state p)
    (pw_available_at p) (pw_ready_since p) (pw_claim_owner p) (pw_claim_fence p)
    (pw_lease_expires_at p) (pw_started_at p) (pw_finished_at p) (pw_error p)
    (pw_created_at p) (pw_updated_at p).

(** ** Capacity pools, actions and instances *)
Record capacity_pool := mkCapacityPool {
  cp_pool_id : string;
  cp_provider : string;
  cp_execution_zone : string;
  cp_architecture : string;
  cp_build_mode : string;
  cp_profile_id : string;
  cp_image_id : string;
  cp_image_generation : string;
  cp_selector : list string;
  cp_mode : ScaleMode;
  cp_provider_max_slots : Z;
  cp_active_slots : Z;
  cp_busy_slots : Z;
  cp_backlog : Z;
  cp_unschedulable_backlog : Z;
  cp_desired_slots : Z;
  cp_recommendation : Recommendation;
  cp_reason : string;
  cp_under_target_since : option time;
  cp_last_changed_at : option time;
  cp_last_evaluated_at : time;
  cp_updated_at : time
}.
#[export] Instance capacity_pool_eta : Eta capacity_pool := fun p =>
  mkCapacityPool (cp_pool_id p) (cp_provider p) (cp_execution_zone p) (cp_architecture p)
    (cp_build_mode p) (cp_profile_id p) (cp_image_id p) (cp_image_generation p) (cp_selector p)
    (cp_mode p) (cp_provider_max_slots p) (cp_active_slots p) (cp_busy_slots p) (cp_backlog p)
    (cp_unschedulable_backlog p) (cp_desired_slots p) (cp_recommendation p) (cp_reason p)
    (cp_under_target_since p) (cp_last_changed_at p) (cp_last_evaluated_at p) (cp_updated_at p).

Record capacity_action := mkAction {
  ca_id : uuid;
  ca_pool_id : string;
  ca_kind : ActionKind;
  ca_state : ActionState;
  ca_requested_slots : Z;
  ca_observed_slots : Z;
  ca_delta_slots : Z;
  ca_reason : string;
  ca_claim_owner : string;
  ca_claim_fence : Z;
  ca_claim_lease_expires_at : option time;
  ca_attempts : Z;
  ca_next_attempt_at : time;
  ca_failure_detail : string;
  ca_requested_at : time;
  ca_claimed_at : option time;
  ca_completed_at : option time;
  ca_updated_at : time
}.
#[export] Instance capacity_action_eta : Eta capacity_action := fun a =>
  mkAction (ca_id a) (ca_pool_id a) (ca_kind a) (ca_state a) (ca_requested_slots a)
    (ca_observed_slots a) (ca_delta_slots a) (ca_reason a) (ca_claim_owner a) (ca_claim_fence a)
    (ca_claim_lease_expires_at a) (ca_attempts a) (ca_next_attempt_at a) (ca_failure_detail a)
    (ca_requested_at a) (ca_claimed_at a) (ca_completed_at a) (ca_updated_at a).

Record capacity_instance := mkInstance {
  ci_id : uuid;
  ci_pool_id : string;
  ci_create_action_id : uuid;
  ci_delete_action_id : option uuid;
  ci_provider : string;
  ci_provider_instance_id : string;
  ci_owner_token : uuid;
  ci_generation : Z;
  ci_state : InstanceState;
  ci_remote_state_ref : string;
  ci_attributes : gmap string string;
  ci_failure_detail : string;
  ci_heartbeat_observed_at : option time;
  ci_drain_requested_at : option time;
  ci_deleted_at : option time;
  ci_created_at : time;
  ci_updated_at : time
}.
#[export] Instance capacity_instance_eta : Eta capacity_instance := fun i =>
  mkInstance (ci_id i) (ci_pool_id i) (ci_create_action_id i) (ci_delete_action_id i)
    (ci_provider i) (ci_provider_instance_id i) (ci_owner_token i) (ci_generation i)
    (ci_state i) (ci_remote_state_ref i) (ci_attributes i) (ci_failure_detail i)
    (ci_heartbeat_observed_at i) (ci_drain_requested_at i) (ci_deleted_at i) (ci_created_at i)
    (ci_updated_at i).

Record autoscale_state := mkAutoscale {
  as_scope : string;
  as_mode : ScaleMode;
  as_active_slots : Z;
  as_busy_slots : Z;
  as_backlog : Z;
  as_unschedulable_backlog : Z;
  as_desired_slots : Z;
  as_recommendation : Recommendation;
  as_reason : string;
  as_under_target_since : option time;
  as_last_changed_at : option time;
  as_last_evaluated_at : time;
  as_updated_at : time
}.
#[export] Instance autoscale_state_eta : Eta autoscale_state := fun s =>
  mkAutoscale (as_scope s) (as_mode s) (as_active_slots s) (as_busy_slots s) (as_backlog s)
    (as_unschedulable_backlog s) (as_desired_slots s) (as_recommendation s) (as_reason s)
    (as_under_target_since s) (as_last_changed_at s) (as_last_evaluated_at s) (as_updated_at s).

(** ** Project policies and accounting *)
Record project_policy := mkPolicyRow {
  pp_project_id : uuid;
  pp_suspended : bool;
  pp_max_queued_jobs : Z;
  pp_max_active_jobs : Z;
  pp_max_daily_submissions : Z;
  pp_max_active_vcpus : Z;
  pp_max_active_memory_mib : Z;
  pp_max_active_disk_gib : Z;
  pp_max_claimed_attempts : Z;
  pp_max_provision_attempts : Z;
  pp_max_build_attempts : Z;
  pp_max_verify_attempts : Z;
  pp_max_publish_attempts : Z;
  pp_max_artifact_bytes_per_job : Z;
  pp_max_daily_build_seconds : Z;
  pp_max_daily_cloud_cost_microunits : Z;
  pp_max_failures_per_hour : Z;
  pp_abuse_cooldown_seconds : Z;
  pp_abuse_suspended_until : option time;
  pp_abuse_reason : string;
  pp_abuse_generation : Z;
  pp_priority_weight : Z;
  pp_starvation_threshold_seconds : Z;
  pp_version : Z;
  pp_updated_by : string;
  pp_updated_at : time
}.
#[export] Instance project_policy_eta : Eta project_policy := fun p =>
  mkPolicyRow (pp_project_id p) (pp_suspended p) (pp_max_queued_jobs p) (pp_max_active_jobs p)
    (pp_max_daily_submissions p) (pp_max_active_vcpus p) (pp_max_active_memory_mib p)
    (pp_max_active_disk_gib p) (pp_max_claimed_attempts p) (pp_max_provision_attempts p)
    (pp_max_build_attempts p) (pp_max_verify_attempts p) (pp_max_publish_attempts p)
    (pp_max_artifact_bytes_per_job p) (pp_max_daily_build_seconds p)
    (pp_max_daily_cloud_cost_microunits p) (pp_max_failures_per_hour p)
    (pp_abuse_cooldown_seconds p) (pp_abuse_suspended_until p) (pp_abuse_reason p)
    (pp_abuse_generation p) (pp_priority_weight p) (pp_starvation_threshold_seconds p)
    (pp_version p) (pp_updated_by p) (pp_updated_at p).

Record reservation := mkReservation {
  rv_attempt_id : uuid;
  rv_project_id : uuid;
  rv_job_id : uuid;
  rv_resource_class : string;
  rv_vcpus : Z;
  rv_memory_mib : Z;
  rv_disk_gib : Z;
  rv_phase : ReservationPhase;
  rv_state : ReleaseState;
  rv_reserved_at : time;
  rv_phase_updated_at : time;
  rv_released_at : option time;
  rv_release_reason : string
}.
#[export] Instance reservation_eta : Eta reservation := fun r =>
  mkReservation (rv_attempt_id r) (rv_project_id r) (rv_job_id r) (rv_resource_class r)
    (rv_vcpus r) (rv_memory_mib r) (rv_disk_gib r) (rv_phase r) (rv_state r) (rv_reserved_at r)
    (rv_phase_updated_at r) (rv_released_at r) (rv_release_reason r).

(** [budget_day] is the number of the UTC day. *)
Record attempt_usage := mkUsage {
  us_attempt_id : uuid;
  us_project_id : uuid;
  us_job_id : uuid;
  us_budget_day : Z;
  us_max_runtime_seconds : Z;
  us_cloud_cost_microunits_per_minute : Z;
  us_reserved_build_seconds : Z;
  us_reserved_cloud_cost_microunits : Z;
  us_charged_build_seconds : Z;
  us_charged_cloud_cost_microunits : Z;
  us_metering_started_at : time;
  us_cloud_started_at : option time;
  us_state : UsageState;
  us_settled_at : option time;
  us_settlement_reason : string
}.
#[export] Instance attempt_usage_eta : Eta attempt_usage := fun u =>
  mkUsage (us_attempt_id u) (us_project_id u) (us_job_id u) (us_budget_day u)
    (us_max_runtime_seconds u) (us_cloud_cost_microunits_per_minute u)
    (us_reserved_build_seconds u) (us_reserved_cloud_cost_microunits u)
    (us_charged_build_seconds u) (us_charged_cloud_cost_microunits u)
    (us_metering_started_at u) (us_cloud_started_at u) (us_state u) (us_settled_at u)
    (us_settlement_reason u).

Record artifact_budget := mkArtifactBudget {
  ab_attempt_id : uuid;
  ab_project_id : uuid;
  ab_job_id : uuid;
  ab_limit_bytes : Z;
  ab_active_bytes : Z;
  ab_peak_bytes : Z;
  ab_state : ReleaseState;
  ab_updated_at : time;
  ab_released_at : option time;
  ab_release_reason : string
}.
#[export] Instance artifact_budget_eta : Eta artifact_budget := fun b =>
  mkArtifactBudget (ab_attempt_id b) (ab_project_id b) (ab_job_id b) (ab_limit_bytes b)
    (ab_active_bytes b) (ab_peak_bytes b) (ab_state b) (ab_updated_at b) (ab_released_at b)
    (ab_release_reason b).

Record generation_reservation := mkGeneration {
  gr_attempt_id : uuid;
  gr_generation : string;
  gr_size_bytes : Z;
  gr_state : ReleaseState;
  gr_updated_at : time;
  gr_released_at : option time;
  gr_release_reason : string
}.
#[export] Instance generation_reservation_eta : Eta generation_reservation := fun g =>
  mkGeneration (gr_attempt_id g) (gr_generation g) (gr_size_bytes g) (gr_state g)
    (gr_updated_at g) (gr_released_at g) (gr_release_reason g).

(** ** Fairness, counters, decisions *)
Record fairness := mkFairness {
  fa_project_id : uuid;
  fa_admission_vruntime : Z;
  fa_phase_vruntime : Z;
  fa_admission_dispatches : Z;
  fa_phase_dispatches : Z;
  fa_last_admission_wait_seconds : Z;
  fa_last_phase_wait_seconds : Z;
  fa_last_admission_at : option time;
  fa_last_phase_at : option time;
  fa_updated_at : time
}.
#[export] Instance fairness_eta : Eta fairness := fun f =>
  mkFairness (fa_project_id f) (fa_admission_vruntime f) (fa_phase_vruntime f)
    (fa_admission_dispatches f) (fa_phase_dispatches f) (fa_last_admission_wait_seconds f)
    (fa_last_phase_wait_seconds f) (fa_last_admission_at f) (fa_last_phase_at f)
    (fa_updated_at f).

Record expiry_counter := mkCounter {
  ec_lease_kind : string;
  ec_result : string;
  ec_total : Z;
  ec_last_occurred_at : option time
}.
#[export] Instance expiry_counter_eta : Eta expiry_counter := fun c =>
  mkCounter (ec_lease_kind c) (ec_result c) (ec_total c) (ec_last_occurred_at c).

Record worker_decision := mkDecision {
  wd_work_kind : string;
  wd_job_id : uuid;
  wd_phase : string;
  wd_worker_id : uuid;
  wd_candidate_count : Z;
  wd_pressure_score : Z;
  wd_recent_failures : Z;
  wd_selected_at : time
}.

(** ** Compile workers and slot leases *)
Record compile_worker := mkCompileWorker {
  cw_id : uuid;
  cw_stable_name : string;
  cw_endpoint : string;
  cw_pool_id : string;
  cw_architecture : string;
  cw_chost : string;
  cw_compiler_digest : string;
  cw_toolchain_image_generation : string;
  cw_cpu_features : list string;
  cw_network_zone : string;
  cw_project_trust_domain : string;
  cw_max_slots : Z;
  cw_desired_state : WorkerState;
  cw_next_fence : Z;
  cw_last_heartbeat_at : time;
  cw_updated_at : time
}.
#[export] Instance compile_worker_eta : Eta compile_worker := fun w =>
  mkCompileWorker (cw_id w) (cw_stable_name w) (cw_endpoint w) (cw_pool_id w)
    (cw_architecture w) (cw_chost w) (cw_compiler_digest w) (cw_toolchain_image_generation w)
    (cw_cpu_features w) (cw_network_zone w) (cw_project_trust_domain w) (cw_max_slots w)
    (cw_desired_state w) (cw_next_fence w) (cw_last_heartbeat_at w) (cw_updated_at w).

Record slot_lease := mkSlotLease {
  sl_id : uuid;
  sl_worker_id : uuid;
  sl_project_id : uuid;
  sl_job_id : uuid;
  sl_attempt_id : uuid;
  sl_attempt_fence : Z;
  sl_builder_id : string;
  sl_builder_network_identity : string;
  sl_fence_token : Z;
  sl_slots : Z;
  sl_pool_id : string;
  sl_fallback_policy : string;
  sl_state : SlotLeaseState;
  sl_expires_at : time;
  sl_reserved_at : time;
  sl_renewed_at : time;
  sl_released_at : option time;
  sl_failure_reason : string
}.
#[export] Instance slot_lease_eta : Eta slot_lease := fun l =>
  mkSlotLease (sl_id l) (sl_worker_id l) (sl_project_id l) (sl_job_id l) (sl_attempt_id l)
    (sl_attempt_fence l) (sl_builder_id l) (sl_builder_network_identity l) (sl_fence_token l)
    (sl_slots l) (sl_pool_id l) (sl_fallback_policy l) (sl_state l) (sl_expires_at l)
    (sl_reserved_at l) (sl_renewed_at l) (sl_released_at l) (sl_failure_reason l).

Record compile_observation := mkCompileObservation {
  co_lease_id : uuid;
  co_outcome : string;
  co_failure_reason : string;
  co_compile_count : Z;
  co_network_bytes : Z;
  co_queue_millis : Z;
  co_observed_at : time
}.

(** ** Phase hand-off documents *)
Record PhaseInstanceContext := mkPhaseInstance {
  pi_id : string;
  pi_provider : string;
  pi_status : string;
  pi_ip_address : string;
  pi_public_ip : string;
  pi_private_ip : string;
  pi_arch : string;
  pi_metadata : gmap string string;
  pi_terraform_dir : string;
  pi_ssh_user : string;
  pi_builder_endpoint : string;
  pi_created_at : time;
  pi_ttl : duration
}.

Record PhaseExecutionContext := mkPhaseContext {
  px_instance : option PhaseInstanceContext;
  px_worker_id : string;
  px_staging_root : string;
  px_verification_token : string;
  px_staged_artifacts : list string;
  px_staged_primary : string;
  px_signed : bool;
  px_signing_key_id : string;
  px_artifact_path : string;
  px_artifact_url : string;
  px_artifact_paths : list string;
  px_artifacts : list string
}.

Record phase_context := mkContextRow {
  pc_attempt_id : uuid;
  pc_project_id : uuid;
  pc_job_id : uuid;
  pc_attempt_fence : Z;
  pc_sequence : Z;
  pc_context : PhaseExecutionContext;
  pc_revision : Z;
  pc_updated_at : time
}.
#[export] Instance phase_context_eta : Eta phase_context := fun c =>
  mkContextRow (pc_attempt_id c) (pc_project_id c) (pc_job_id c) (pc_attempt_fence c)
    (pc_sequence c) (pc_context c) (pc_revision c) (pc_updated_at c).

(** ** Worker gateway *)
Inductive SessionState := SessActive | SessRevoked.
Inductive IssuerState := IssActive | IssDraining | IssRevoked.
Inductive CommandState := CmdQueued | CmdDelivered | CmdCompleted | CmdFailed | CmdCanceled.
Inductive UploadState := UpReady | UpUploading | UpCompleted | UpCanceled.
#[export] Instance SessionState_eq : EqDecision SessionState. Proof. solve_decision. Defined.
#[export] Instance IssuerState_eq : EqDecision IssuerState. Proof. solve_decision. Defined.
#[export] Instance CommandState_eq : EqDecision CommandState. Proof. solve_decision. Defined.
#[export] Instance UploadState_eq : EqDecision UploadState. Proof. solve_decision. Defined.

Record workload_issuer := mkIssuer {
  wi_fingerprint : string;
  wi_issuer_id : string;
  wi_provider : string;
  wi_subject : string;
  wi_serial_hex : string;
  wi_not_before : time;
  wi_not_after : time;
  wi_state : IssuerState;
  wi_last_issued_at : time;
  wi_revoked_at : option time;
  wi_revoke_reason : string
}.
#[export] Instance workload_issuer_eta : Eta workload_issuer := fun i =>
  mkIssuer (wi_fingerprint i) (wi_issuer_id i) (wi_provider i) (wi_subject i) (wi_serial_hex i)
    (wi_not_before i) (wi_not_after i) (wi_state i) (wi_last_issued_at i) (wi_revoked_at i)
    (wi_revoke_reason i).

Record workload_certificate := mkCertificate {
  wc_fingerprint : string;
  wc_serial_hex : string;
  wc_issuer_fingerprint : string;
  wc_worker_id : string;
  wc_job_id : uuid;
  wc_attempt_id : uuid;
  wc_attempt_fence : Z;
  wc_not_before : time;
  wc_not_after : time;
  wc_state : SessionState;
  wc_issued_at : time;
  wc_first_seen_at : option time;
  wc_last_seen_at : option time;
  wc_revoked_at : option time;
  wc_revoke_reason : string
}.
#[export] Instance workload_certificate_eta : Eta workload_certificate := fun c =>
  mkCertificate (wc_fingerprint c) (wc_serial_hex c) (wc_issuer_fingerprint c) (wc_worker_id c)
    (wc_job_id c) (wc_attempt_id c) (wc_attempt_fence c) (wc_not_before c) (wc_not_after c)
    (wc_state c) (wc_issued_at c) (wc_first_seen_at c) (wc_last_seen_at c) (wc_revoked_at c)
    (wc_revoke_reason c).

Record gateway_session := mkSession {
  gs_worker_id : string;
  gs_project_id : uuid;
  gs_job_id : uuid;
  gs_attempt_id : uuid;
  gs_attempt_fence : Z;
  gs_state : SessionState;
  gs_connected_at : option time;
  gs_last_seen_at : option time;
  gs_certificate_fingerprint : option string;
  gs_revoked_at : option time;
  gs_revoke_reason : string;
  gs_updated_at : time
}.
#[export] Instance gateway_session_eta : Eta gateway_session := fun s =>
  mkSession (gs_worker_id s) (gs_project_id s) (gs_job_id s) (gs_attempt_id s) (gs_attempt_fence s)
    (gs_state s) (gs_connected_at s) (gs_last_seen_at s) (gs_certificate_fingerprint s)
    (gs_revoked_at s) (gs_revoke_reason s) (gs_updated_at s).

(** [jsonb] values are kept as text, equal values as equal text. *)
Record gateway_command := mkCommand {
  gc_id : uuid;
  gc_worker_id : string;
  gc_project_id : uuid;
  gc_job_id : uuid;
  gc_attempt_id : uuid;
  gc_action : string;
  gc_request : string;
  gc_state : CommandState;
  gc_delivery_fence : Z;
  gc_delivery_lease_expires_at : option time;
  gc_response : option string;
  gc_error : string;
  gc_created_at : time;
  gc_delivered_at : option time;
  gc_completed_at : option time;
  gc_updated_at : time
}.
#[export] Instance gateway_command_eta : Eta gateway_command := fun c =>
  mkCommand (gc_id c) (gc_worker_id c) (gc_project_id c) (gc_job_id c) (gc_attempt_id c) (gc_action c)
    (gc_request c) (gc_state c) (gc_delivery_fence c) (gc_delivery_lease_expires_at c)
    (gc_response c) (gc_error c) (gc_created_at c) (gc_delivered_at c) (gc_completed_at c)
    (gc_updated_at c).

Record gateway_upload := mkUpload {
  gu_id : uuid;
  gu_worker_id : string;
  gu_project_id : uuid;
  gu_job_id : uuid;
  gu_attempt_id : uuid;
  gu_destination : string;
  gu_max_bytes : Z;
  gu_state : UploadState;
  gu_upload_fence : Z;
  gu_upload_lease_expires_at : option time;
  gu_digest : string;
  gu_size_bytes : option Z;
  gu_completed_at : option time;
  gu_updated_at : time
}.
#[export] Instance gateway_upload_eta : Eta gateway_upload := fun u =>
  mkUpload (gu_id u) (gu_worker_id u) (gu_project_id u) (gu_job_id u) (gu_attempt_id u)
    (gu_destination u) (gu_max_bytes u) (gu_state u) (gu_upload_fence u)
    (gu_upload_lease_expires_at u) (gu_digest u) (gu_size_bytes u) (gu_completed_at u)
    (gu_updated_at u).

(** ** Infrastructure, artifacts and signing

    JSON documents are kept as the values they encode; a document of arbitrary
    JSON as the text of its stored value. *)
Record infra_instance := mkInfra {
  inf_id : uuid;
  inf_project_id : option uuid;
  inf_job_id : option uuid;
  inf_attempt_id : option uuid;
  inf_provider : string;
  inf_provider_instance_id : string;
  inf_state : string;
  inf_fence_token : Z;
  inf_owner_token : string;
  inf_remote_state_ref : string;
  inf_attributes : gmap string string;
  inf_failure_detail : string;
  inf_cleanup_after : option time;
  inf_deleted_at : option time;
  inf_cleanup_owner : string;
  inf_cleanup_fence : Z;
  inf_cleanup_lease_expires_at : option time;
  inf_cleanup_attempts : Z;
  inf_next_cleanup_at : time;
  inf_updated_at : time
}.
#[export] Instance infra_instance_eta : Eta infra_instance := fun i =>
  mkInfra (inf_id i) (inf_project_id i) (inf_job_id i) (inf_attempt_id i) (inf_provider i)
    (inf_provider_instance_id i) (inf_state i) (inf_fence_token i) (inf_owner_token i)
    (inf_remote_state_ref i) (inf_attributes i) (inf_failure_detail i) (inf_cleanup_after i)
    (inf_deleted_at i) (inf_cleanup_owner i) (inf_cleanup_fence i) (inf_cleanup_lease_expires_at i)
    (inf_cleanup_attempts i) (inf_next_cleanup_at i) (inf_updated_at i).

(** The digest algorithm is always sha256. *)
Record artifact := mkArtifact {
  af_id : uuid;
  af_project_id : option uuid;
  af_job_id : option uuid;
  af_attempt_id : option uuid;
  af_kind : string;
  af_state : string;
  af_digest : string;
  af_size_bytes : Z;
  af_media_type : string;
  af_location : string;
  af_lineage : string;
  af_retention_until : option time;
  af_created_at : time;
  af_published_at : option time;
  af_updated_at : time
}.
#[export] Instance artifact_eta : Eta artifact := fun a =>
  mkArtifact (af_id a) (af_project_id a) (af_job_id a) (af_attempt_id a) (af_kind a) (af_state a)
    (af_digest a) (af_size_bytes a) (af_media_type a) (af_location a) (af_lineage a)
    (af_retention_until a) (af_created_at a) (af_published_at a) (af_updated_at a).

Inductive SigningState := SgQueued | SgClaimed | SgCompleted | SgFailed | SgCanceled.
#[export] Instance SigningState_eq : EqDecision SigningState. Proof. solve_decision. Defined.

Record SigningArtifact := mkSigningArtifact {
  sa_relative_path : string;
  sa_input_digest : string;
  sa_input_size : Z;
  sa_output_digest : string;
  sa_output_size : Z
}.
#[export] Instance SigningArtifact_eq : EqDecision SigningArtifact. Proof. solve_decision. Defined.

Record signing_task := mkSigningRow {
  sg_id : uuid;
  sg_job_id : uuid;
  sg_attempt_id : uuid;
  sg_attempt_fence : Z;
  sg_state : SigningState;
  sg_source_token : string;
  sg_architecture : string;
  sg_max_output_bytes : Z;
  sg_input_manifest : list SigningArtifact;
  sg_output_manifest : option (list SigningArtifact);
  sg_signing_key_id : string;
  sg_owner : string;
  sg_claim_fence : Z;
  sg_lease_expires_at : option time;
  sg_claim_attempts : Z;
  sg_error_detail : string;
  sg_created_at : time;
  sg_updated_at : time;
  sg_completed_at : option time
}.
#[export] Instance signing_task_eta : Eta signing_task := fun t =>
  mkSigningRow (sg_id t) (sg_job_id t) (sg_attempt_id t) (sg_attempt_fence t) (sg_state t)
    (sg_source_token t) (sg_architecture t) (sg_max_output_bytes t) (sg_input_manifest t)
    (sg_output_manifest t) (sg_signing_key_id t) (sg_owner t) (sg_claim_fence t)
    (sg_lease_expires_at t) (sg_claim_attempts t) (sg_error_detail t) (sg_created_at t)
    (sg_updated_at t) (sg_completed_at t).

(** ** Events

    One constructor per event the modelled operations write, with the payload
    fields it carries; [insertJobEvent] writes the event to [job_events] and to
    the outbox. *)
Inductive event_payload : Type :=
| EvClaimed (attempt_id : uuid) (attempt_no fence_token : Z) (worker : string)
    (lease_expires_at : time) (reserved_seconds reserved_cost : Z)
| EvFairDispatch (kind phase work_ref : string) (claim_fence priority_weight threshold : Z)
    (starved : bool) (oldest_at : time) (vruntime_before vruntime_after wait_seconds : Z)
| EvLeaseExpired (attempt_id : uuid) (attempt_no : Z) (next_state : string)
    (lease_kind : LeaseKind) (reason : string)
| EvCreated (state request_digest status_digest source : string)
| EvCanceled (reason : string)
| EvRetryQueued (previous_state : string) (next_attempt : Z)
| EvTransition (from to status_digest : string) (ledger_revision : Z) (source : string)
| EvHidden (reason : string)
| EvRetentionHidden (before : time)
| EvPhasePlanCompleted (attempt_id : uuid) (attempt_fence phase_claim_fence : Z)
| EvPhaseFailed (attempt_id : uuid) (phase : string) (phase_claim_fence : Z) (detail : string).

Record job_event := mkEvent { ev_job_id : uuid; ev_type : string; ev_payload : event_payload }.

Record audit_event := mkAudit {
  au_actor : string;
  au_action : string;
  au_project_id : uuid;
  au_failures : Z;
  au_limit : Z;
  au_suspended_until : time;
  au_generation : Z;
  au_occurred_at : time
}.

Record project := mkProject { pr_id : uuid; pr_name : string; pr_description : string }.

(** ** The database *)
Record db := mkDb {
  projects : list project;
  workers : list worker;
  worker_leases : list worker_lease;
  build_jobs : list build_job;
  build_attempts : list build_attempt;
  phase_work_items : list phase_work;
  phase_execution_contexts : list phase_context;
  project_policies : list project_policy;
  resource_reservations : list reservation;
  attempt_usages : list attempt_usage;
  artifact_budgets : list artifact_budget;
  generation_reservations : list generation_reservation;
  scheduler_fairness : list fairness;
  expiry_counters : list expiry_counter;
  worker_decisions : list worker_decision;
  capacity_pools : list capacity_pool;
  capacity_actions : list capacity_action;
  capacity_instances : list capacity_instance;
  autoscale_states : list autoscale_state;
  compile_workers : list compile_worker;
  slot_leases : list slot_lease;
  compile_observations : list compile_observation;
  workload_issuers : list workload_issuer;
  workload_certificates : list workload_certificate;
  gateway_sessions : list gateway_session;
  gateway_commands : list gateway_command;
  gateway_uploads : list gateway_upload;
  infra_instances : list infra_instance;
  artifacts : list artifact;
  signing_tasks : list signing_task;
  job_events : list job_event;
  outbox_events : list job_event;
  audit_events : list audit_event
}.
#[export] Instance db_eta : Eta db := fun d =>
  mkDb (projects d) (workers d) (worker_leases d) (build_jobs d) (build_attempts d)
    (phase_work_items d) (phase_execution_contexts d) (project_policies d) (resource_reservations d) (attempt_usages d) (artifact_budgets d)
    (generation_reservations d) (scheduler_fairness d) (expiry_counters d) (worker_decisions d)
    (capacity_pools d) (capacity_actions d) (capacity_instances d) (autoscale_states d)
    (compile_workers d) (slot_leases d) (compile_observations d) (workload_issuers d)
    (workload_certificates d)
    (gateway_sessions d) (gateway_commands d) (gateway_uploads d) (infra_instances d)
    (artifacts d) (signing_tasks d) (job_events d)
    (outbox_events d) (audit_events d).

Definition empty_db : db :=
  mkDb [] [] [] [] [] [] [] [] [] [] [] [] [] [] [] [] [] [] [] [] [] [] [] [] [] [] [] [] [] [] [] [] [].

(** The database clock: statement [k] of a transaction reads [clk k]. *)
Definition clock := nat -> time.
Definition monotone (clk : clock) : Prop := forall i j, (i <= j)%nat -> clk i <= clk j.

(** ** Sample rows and clocks for concrete runs *)
Definition at_time (t : time) : clock := fun _ => t * Second.
Definition unlocked : uuid -> bool := fun _ => false.
Definition ok_or {E A} (x : A) (r : result E A) : A := match r with Ok a => a | Err _ => x end.
Definition is_ok {E A} (r : result E A) : bool := match r with Ok _ => true | Err _ => false end.
Lemma ok_or_ran {E A} (x : A) (r : result E A) : is_ok r = true -> r = Ok (ok_or x r).
Proof. by destruct r. Qed.

Definition request_ex : BuildRequest :=
  mkRequest "p1" "u1" "app-editors/vim" "9.1" "amd64" [] "" "desktop" [] "" ∅ None None "".
Definition status_ex (id : uuid) : JobStatus :=
  mkStatus id "p1" "u1" "queued" "app-editors/vim" "9.1" "amd64" 0 0 "" "" "" "" [] false None "".
Definition job_ex (id project : uuid) (state : string) : build_job :=
  mkJob id project None None state 0 request_ex "" (status_ex id) "" None "" 3 0 true 0 1 [] 0 0 None.
Definition attempt_ex (id job : uuid) (fence : Z) : build_attempt :=
  mkAttempt id job fence "building" (Some "w1") fence "" "" (Some 0) None 0.
