(* ===== verification/Capabilities.v ===== *)
(** * Executor capabilities and capacity pools

    [internal/builder/capabilities.go]: normalised capability labels, the
    identity of a capacity pool, and the labels a phase requires.  The functions
    of that file that walk the build catalog ([resolveCapacityPools],
    [resolveExecutorCapabilities], [resolveExecutorProfiles]) are not here. *)

From S2P Require Import Prelude GoStrings GoRegexp GoSha256 Schema.
From Stdlib Require Import Ascii.
Open Scope string_scope.
Open Scope list_scope.

Definition maxExecutorCapabilities : nat := 4096.
Definition defaultExecutionZone : string := "default".
Definition capacityPoolHashBytes : nat := 12.

Definition cap_lower (c : ascii) : bool := in_range "a" "z" c.
Definition cap_digit (c : ascii) : bool := in_range "0" "9" c.
Definition cap_alnum (c : ascii) : bool := cap_lower c || in_range "A" "Z" c || cap_digit c.
Definition key_pattern : re :=
  Cat (Cls cap_lower) (UpTo 31 (Cls (fun c => cap_lower c || cap_digit c || one_of "-" c))).
Definition value_pattern : re :=
  Cat (Cls cap_alnum) (UpTo 479 (Cls (fun c => cap_alnum c || one_of "+._/@:-" c))).
Definition executorCapabilityPattern : re := Cat key_pattern (Cat (Lit ":") value_pattern).

Inductive cap_error : Type :=
| CapCount
| CapInvalid (label : string)
| CapPhase (phase : string)
| CapContextRequired
| CapPoolIncomplete.

Record SchedulerCapacityPoolDefinition := mkPoolDefinition {
  pd_id : string;
  pd_provider : string;
  pd_execution_zone : string;
  pd_arch : string;
  pd_build_mode : string;
  pd_profile_id : string;
  pd_image_id : string;
  pd_image_generation : string;
  pd_selector : list string
}.

(** ** Normalised labels *)
Definition NormalizeExecutorCapabilities (labels : list string) : result cap_error (list string) :=
  check (1 <= length labels <= maxExecutorCapabilities)%nat else CapCount;;
  match trim_dedup (MatchString executorCapabilityPattern) ∅ labels with
  | Err label => Err (CapInvalid label)
  | Ok normalized => Ok (SortStrings normalized)
  end.

(** ** Capacity pool identity *)
Definition zone_of (resolved : ResolvedContext) : string :=
  let zone := TrimSpace (rx_execution_zone resolved) in
  if decide (zone = "") then defaultExecutionZone else zone.

Definition capacity_pool_parts (resolved : ResolvedContext) : list string :=
  [TrimSpace (rx_provider resolved); zone_of resolved; TrimSpace (rx_arch resolved);
   TrimSpace (rx_build_mode resolved); TrimSpace (rx_profile_id resolved);
   TrimSpace (rx_image_id resolved); TrimSpace (rx_image_generation resolved)].

Definition NUL : string := String.String "000" "".

Definition CapacityPoolID (resolved : option ResolvedContext) : result cap_error string :=
  match resolved with
  | None => Err CapContextRequired
  | Some resolved =>
      let parts := capacity_pool_parts resolved in
      check Forall (fun part => part <> "") parts else CapPoolIncomplete;;
      let digest := Sum256 (bytes (Join parts NUL)) in
      Ok (Join (take 3 parts) "-" +:+ "-" +:+ EncodeToString (take capacityPoolHashBytes digest))
  end.

Definition capacityPoolDefinition (resolved : ResolvedContext)
    : result cap_error SchedulerCapacityPoolDefinition :=
  let! id := CapacityPoolID (Some resolved) in
  let zone := zone_of resolved in
  let! selector := NormalizeExecutorCapabilities
    ["capacity-pool:" +:+ id; "provider:" +:+ rx_provider resolved; "zone:" +:+ zone;
     "arch:" +:+ rx_arch resolved; "build-mode:" +:+ rx_build_mode resolved;
     "profile:" +:+ rx_profile_id resolved;
     "image:" +:+ rx_image_id resolved +:+ "@" +:+ rx_image_generation resolved] in
  Ok (mkPoolDefinition id (rx_provider resolved) zone (rx_arch resolved)
        (rx_build_mode resolved) (rx_profile_id resolved) (rx_image_id resolved)
        (rx_image_generation resolved) selector).

(** ** What a phase requires of its executor *)
Definition phase_labels (resolved : ResolvedContext) (phase poolID : string) : list string :=
  ["phase:" +:+ phase; "capacity-pool:" +:+ poolID; "zone:" +:+ zone_of resolved;
   "provider:" +:+ rx_provider resolved; "arch:" +:+ rx_arch resolved;
   "build-mode:" +:+ rx_build_mode resolved; "profile:" +:+ rx_profile_id resolved;
   "image:" +:+ rx_image_id resolved +:+ "@" +:+ rx_image_generation resolved] ++
  (if decide (rx_egress_policy_id resolved <> "" /\ rx_egress_policy_digest resolved <> "")
   then ["egress:" +:+ rx_egress_policy_id resolved +:+ "@" +:+ rx_egress_policy_digest resolved]
   else []).

Definition PhaseCapabilityRequirements (request : option BuildRequest) (phase : string)
    : result cap_error (list string) :=
  check phase ∈ ["provision"; "build"; "verify"; "publish"] else CapPhase phase;;
  match request with
  | None => Err CapContextRequired
  | Some request =>
      match rq_resolved_context request with
      | None => NormalizeExecutorCapabilities ["phase:" +:+ phase; "context:legacy"]
      | Some resolved =>
          let! poolID := CapacityPoolID (Some resolved) in
          NormalizeExecutorCapabilities (phase_labels resolved phase poolID)
      end
  end.

Definition workerKindCapabilities (labels : list string) (kind : string) : list string :=
  match NormalizeExecutorCapabilities (labels ++ ["worker-kind:" +:+ kind]) with
  | Ok normalized => normalized
  | Err _ => labels
  end.

Definition bindCapacityInstance (instanceID : string) (labels : list string)
    : result cap_error (list string) :=
  let instanceID := TrimSpace instanceID in
  NormalizeExecutorCapabilities
    (if decide (instanceID <> "") then labels ++ ["capacity-instance:" +:+ instanceID] else labels).

(** ** Normalisation *)
Definition valid_label (s : string) : Prop := MatchString executorCapabilityPattern s = true.

Lemma label_plain s : valid_label s -> Forall (fun c => plain c = true) (bytes s).
Proof.
  apply MatchString_alphabet. unfold executorCapabilityPattern, key_pattern, value_pattern.
  cbn [uses Lit]. split_and!; by_class.
Qed.

Lemma label_trimmed s : valid_label s -> TrimSpace s = s.
Proof. intros H. by apply TrimSpace_plain, label_plain. Qed.
#[export] Hint Resolve label_trimmed : engine.

Lemma NormalizeExecutorCapabilities_ok labels l :
  NormalizeExecutorCapabilities labels = Ok l ->
  NoDup l /\ SortStrings l = l /\ Forall valid_label l /\
  (1 <= length labels <= maxExecutorCapabilities)%nat /\
  (forall x, x ∈ l <-> x ∈ TrimSpace <$> labels).
Proof.
  unfold NormalizeExecutorCapabilities. intros H. inv_ok H. subst l.
  apply trim_dedup_spec in E as (Hnd & Hall & Hx & _). split_and!; try lia.
  - by apply NoDup_SortStrings.
  - apply SortStrings_idemp.
  - apply Forall_forall. intros x. rewrite elem_of_SortStrings.
    rewrite Forall_forall in Hall. apply Hall.
  - intros x. rewrite elem_of_SortStrings, Hx. set_solver.
Qed.

Lemma NormalizeExecutorCapabilities_defined labels :
  (1 <= length labels <= maxExecutorCapabilities)%nat ->
  (forall x, x ∈ labels -> valid_label (TrimSpace x)) ->
  exists l, NormalizeExecutorCapabilities labels = Ok l.
Proof.
  intros Hlen Hv. unfold NormalizeExecutorCapabilities. rewrite decide_True by done.
  destruct (trim_dedup_total (MatchString executorCapabilityPattern) ∅ labels Hv) as [l ->].
  eauto.
Qed.

(** [NormalizeExecutorCapabilities] succeeds exactly when there are between
    one and 4096 labels and every trimmed label is well formed; its result is
    then the sorted list, without duplicates, of the trimmed labels: it depends
    only on their set, and normalising it again changes nothing. *)
Theorem NormalizeExecutorCapabilities_spec (labels : list string) :
  ((exists l, NormalizeExecutorCapabilities labels = Ok l) <->
   (1 <= length labels <= maxExecutorCapabilities)%nat /\
   forall x, x ∈ labels -> valid_label (TrimSpace x)) /\
  (forall l, NormalizeExecutorCapabilities labels = Ok l ->
   NoDup l /\ SortStrings l = l /\ (forall x, x ∈ l <-> x ∈ TrimSpace <$> labels) /\
   NormalizeExecutorCapabilities l = Ok l).
Proof.
  split.
  - split; [|intros [??]; by apply NormalizeExecutorCapabilities_defined].
    intros [l Hl]. apply NormalizeExecutorCapabilities_ok in Hl as (_ & _ & Hv & Hlen & Hx).
    split; [done|]. intros x Hin. rewrite Forall_forall in Hv.
    by apply Hv, Hx, list_elem_of_fmap_2.
  - intros l Hl. pose proof (NormalizeExecutorCapabilities_ok _ _ Hl) as (Hnd & Hs & Hv & Hlen & Hx).
    split_and!; try done. unfold NormalizeExecutorCapabilities. rewrite decide_True.
    + rewrite Forall_forall in Hv. rewrite trim_dedup_trimmed; [by rewrite Hs|done|].
      intros x Hin. specialize (Hv x Hin). split_and!; [set_solver|done|auto with engine].
    + unfold NormalizeExecutorCapabilities in Hl. inv_ok Hl. subst l.
      apply trim_dedup_spec in E as (_ & _ & Hx' & Hlen').
      unfold SortStrings in *. rewrite sort_by_perm. split; [|lia].
      destruct labels as [|y labels]; [simpl in Hlen; lia|].
      assert (TrimSpace y ∈ a) as Hy by (apply Hx'; set_solver).
      destruct a; [set_solver|simpl; lia].
Qed.

(** ** Exact routing *)
Definition keyed (kv : string * string) : string := kv.1 +:+ String.String ":" kv.2.

Definition plain_key (k : string) : Prop :=
  k <> "" /\ Forall (fun c => plain c = true) (bytes k) /\ free_of ":" k.

Lemma keyed_inj k1 v1 k2 v2 :
  free_of ":" k1 -> free_of ":" k2 -> keyed (k1, v1) = keyed (k2, v2) -> k1 = k2 /\ v1 = v2.
Proof.
  intros H1 H2 Heq. unfold keyed in Heq. simpl in Heq. apply (f_equal bytes) in Heq.
  rewrite !bytes_app in Heq. apply split_at_sep in Heq as [->%bytes_inj ->%bytes_inj]; done.
Qed.

Lemma label_value k v : free_of ":" k -> valid_label (keyed (k, v)) ->
  exists c r, v = String.String c r /\ plain c = true.
Proof.
  intros Hk H. unfold valid_label, MatchString in H. apply accepts_spec in H.
  unfold executorCapabilityPattern in H. apply denotes_cat in H as (l1 & l2 & Heq & H1 & H2).
  apply denotes_cat in H2 as (l3 & l4 & -> & ->%denotes_lit & H4).
  assert (":"%char ∉ l1) as Hl1.
  { apply (denotes_alphabet (fun c => c <> ":"%char)) in H1.
    - intros Hin. rewrite Forall_forall in H1. by apply (H1 ":"%char).
    - unfold key_pattern. cbn [uses]. split; by_class. }
  unfold keyed in Heq. simpl in Heq. rewrite bytes_app in Heq.
  apply (split_at_sep ":" (bytes k) l1 (bytes v) l4) in Heq as [_ Hv]; [|done|done].
  apply denotes_cat in H4 as (l5 & l6 & -> & H5 & _).
  inversion H5 as [|f c Hc| | | | | | |]; subst. destruct v as [|c' r]; [done|].
  injection Hv as -> _. exists c, r. split; [done|].
  assert (forall c, cap_alnum c = true -> plain c = true) as Ha by by_class. by apply Ha.
Qed.

(** A well-formed label carries the trimmed value under its key. *)
Lemma keyed_trim k v : plain_key k -> valid_label (TrimSpace (keyed (k, v))) ->
  TrimSpace (keyed (k, v)) = keyed (k, TrimSpace v).
Proof.
  intros (Hne & Hp & Hf) H. unfold keyed in *. simpl in *.
  rewrite TrimSpace_keyed in * by done.
  destruct (label_value k (TrimRight v) Hf H) as (c & r & Hr & Hc).
  by rewrite (TrimRight_TrimSpace v c r).
Qed.

Definition phase_pairs (resolved : ResolvedContext) (phase poolID : string) : list (string * string) :=
  [("phase", phase); ("capacity-pool", poolID); ("zone", zone_of resolved);
   ("provider", rx_provider resolved); ("arch", rx_arch resolved);
   ("build-mode", rx_build_mode resolved); ("profile", rx_profile_id resolved);
   ("image", rx_image_id resolved +:+ "@" +:+ rx_image_generation resolved)] ++
  (if decide (rx_egress_policy_id resolved <> "" /\ rx_egress_policy_digest resolved <> "")
   then [("egress", rx_egress_policy_id resolved +:+ "@" +:+ rx_egress_policy_digest resolved)]
   else []).

Lemma phase_labels_pairs r phase pool : phase_labels r phase pool = keyed <$> phase_pairs r phase pool.
Proof. unfold phase_labels, phase_pairs. case_decide; reflexivity. Qed.

Lemma phase_keys r phase pool : Forall (fun kv => plain_key kv.1) (phase_pairs r phase pool) /\
  NoDup (phase_pairs r phase pool).*1.
Proof.
  unfold phase_pairs, plain_key.
  case_decide; (split; [rewrite ?Forall_app, ?Forall_cons|]);
    apply (bool_decide_unpack _); vm_compute; reflexivity.
Qed.

Lemma phase_label_shared r1 r2 ph1 ph2 p1 p2 l1 l2 k v1 :
  NormalizeExecutorCapabilities (phase_labels r1 ph1 p1) = Ok l1 ->
  NormalizeExecutorCapabilities (phase_labels r2 ph2 p2) = Ok l2 ->
  l1 ⊆ l2 -> (k, v1) ∈ phase_pairs r1 ph1 p1 ->
  exists v2, (k, v2) ∈ phase_pairs r2 ph2 p2 /\ TrimSpace v1 = TrimSpace v2.
Proof.
  intros (_ & _ & Hv1 & _ & Hx1)%NormalizeExecutorCapabilities_ok
    (_ & _ & Hv2 & _ & Hx2)%NormalizeExecutorCapabilities_ok Hsub Hin.
  rewrite Forall_forall in Hv1, Hv2. rewrite phase_labels_pairs in Hx1, Hx2.
  destruct (phase_keys r1 ph1 p1) as [Hk1 _]. destruct (phase_keys r2 ph2 p2) as [Hk2 _].
  rewrite Forall_forall in Hk1, Hk2.
  assert (TrimSpace (keyed (k, v1)) ∈ l1) as H1.
  { apply Hx1. by do 2 apply list_elem_of_fmap_2. }
  pose proof (Hk1 _ Hin) as Hpk. simpl in Hpk.
  pose proof (keyed_trim k v1 Hpk (Hv1 _ H1)) as E1.
  pose proof (proj1 (Hx2 _) (Hsub _ H1)) as H2.
  apply list_elem_of_fmap in H2 as (x & Hx & ([k2 v2] & -> & Hin2)%list_elem_of_fmap).
  pose proof (Hk2 _ Hin2) as Hpk2. simpl in Hpk2.
  rewrite (keyed_trim k2 v2 Hpk2) in Hx by (rewrite <- Hx; auto).
  rewrite E1 in Hx. apply keyed_inj in Hx as [-> Hv]; [|apply Hpk|apply Hpk2].
  eauto.
Qed.

Lemma phase_pairs_key r phase pool k v v' :
  (k, v) ∈ phase_pairs r phase pool -> (k, v') ∈ phase_pairs r phase pool -> v = v'.
Proof.
  destruct (phase_keys r phase pool) as [_ Hnd]. revert Hnd.
  induction (phase_pairs r phase pool) as [|[k0 v0] l IH]; [set_solver|].
  rewrite fmap_cons. intros Hnd. inversion_clear Hnd as [|?? Hk Hnd']. simpl in Hk.
  rewrite !elem_of_cons. intros [[= -> ->]|H1] [[= ->]|H2]; auto.
  - destruct Hk. apply list_elem_of_fmap. by exists (k0, v').
  - destruct Hk. apply list_elem_of_fmap. by exists (k0, v).
Qed.

(** Routing never falls back to a similar environment: if every label a
    resolved request requires for a phase is among the labels another resolved
    request requires for a phase, the two have the same phase, provider, zone,
    architecture, build mode, profile and image generation (up to surrounding
    space), and the same capacity pool. *)
Theorem PhaseCapabilityRequirements_exact (q1 q2 : BuildRequest) (r1 r2 : ResolvedContext)
    (ph1 ph2 : string) (l1 l2 : list string)
    (Hr1 : rq_resolved_context q1 = Some r1) (Hr2 : rq_resolved_context q2 = Some r2)
    (H1 : PhaseCapabilityRequirements (Some q1) ph1 = Ok l1)
    (H2 : PhaseCapabilityRequirements (Some q2) ph2 = Ok l2)
    (Hsub : l1 ⊆ l2) :
  TrimSpace ph1 = TrimSpace ph2 /\
  TrimSpace (rx_provider r1) = TrimSpace (rx_provider r2) /\
  TrimSpace (zone_of r1) = TrimSpace (zone_of r2) /\
  TrimSpace (rx_arch r1) = TrimSpace (rx_arch r2) /\
  TrimSpace (rx_build_mode r1) = TrimSpace (rx_build_mode r2) /\
  TrimSpace (rx_profile_id r1) = TrimSpace (rx_profile_id r2) /\
  TrimSpace (rx_image_id r1 +:+ "@" +:+ rx_image_generation r1) =
  TrimSpace (rx_image_id r2 +:+ "@" +:+ rx_image_generation r2) /\
  exists p1 p2, CapacityPoolID (Some r1) = Ok p1 /\ CapacityPoolID (Some r2) = Ok p2 /\
    TrimSpace p1 = TrimSpace p2.
Proof.
  unfold PhaseCapabilityRequirements in *. rewrite Hr1 in H1. rewrite Hr2 in H2.
  inv_ok_step H1. inv_ok_step H2. inv_ok_step H1. inv_ok_step H2.
  assert (forall k v1 v2, (k, v1) ∈ phase_pairs r1 ph1 a -> (k, v2) ∈ phase_pairs r2 ph2 a0 ->
            TrimSpace v1 = TrimSpace v2) as Hkey.
  { intros k v1 v2 Hin1 Hin2.
    destruct (phase_label_shared _ _ _ _ _ _ _ _ _ _ H1 H2 Hsub Hin1) as (v & Hin & ->).
    by rewrite (phase_pairs_key _ _ _ _ _ _ Hin Hin2). }
  assert (forall i kv1 kv2, phase_pairs r1 ph1 a !! i = Some kv1 ->
            phase_pairs r2 ph2 a0 !! i = Some kv2 -> kv1.1 = kv2.1 ->
            TrimSpace kv1.2 = TrimSpace kv2.2) as Hi.
  { intros i [k v] [k' v'] Hl1 Hl2 Heq. simpl in Heq. subst k'.
    apply (Hkey k); by eapply list_elem_of_lookup_2. }
  split_and!; [by apply (Hi 0%nat _ _ eq_refl eq_refl)|by apply (Hi 3%nat _ _ eq_refl eq_refl)
    |by apply (Hi 2%nat _ _ eq_refl eq_refl)|by apply (Hi 4%nat _ _ eq_refl eq_refl)
    |by apply (Hi 5%nat _ _ eq_refl eq_refl)|by apply (Hi 6%nat _ _ eq_refl eq_refl)
    |by apply (Hi 7%nat _ _ eq_refl eq_refl)|].
  exists a, a0. split_and!; [done|done|]. by apply (Hi 1%nat _ _ eq_refl eq_refl).
Qed.

Definition resolved_ex : ResolvedContext :=
  mkResolved "desktop" "amd64" "pve" "" "vm" "gentoo-base" "g12" "large" ∅ 90 2000 "egress-1"
    "sha256:ab" "" 0.
Definition request_ex : BuildRequest :=
  mkRequest "" "" "app-misc/jq" "" "amd64" [] "pve" "desktop" [] "large" ∅ (Some resolved_ex) None "".

Lemma PhaseCapabilityRequirements_exact_witness : exists l,
  PhaseCapabilityRequirements (Some request_ex) "build" = Ok l /\ length l = 9%nat /\
  TrimSpace "build" = TrimSpace "build".
Proof.
  destruct (PhaseCapabilityRequirements (Some request_ex) "build") as [l|e] eqn:E.
  - exists l. split; [reflexivity|].
    split; [revert E; vm_compute; intros [= <-]; reflexivity|].
    exact (proj1 (PhaseCapabilityRequirements_exact request_ex request_ex resolved_ex resolved_ex
             "build" "build" l l eq_refl eq_refl E E (fun x H => H))).
  - exfalso. revert E. vm_compute. discriminate.
Defined.
