(* ===== verification/CapacityLedger.v ===== *)
(** * The capacity-action ledger

    [internal/persistence/capacity_actuator.go]: actions are requested, leased
    to one actuator with a fence, bound to a provider instance and completed;
    instances move from provisioning to deleted.  Each operation is one
    transaction on [db]; [Err] is its rollback.  Statement [k] of an operation
    reads the database clock [clk k]; [locked] are the rows concurrent
    transactions hold, which [SKIP LOCKED] passes over. *)

From S2P Require Import Prelude GoStrings GoJson Schema Capabilities.
Open Scope string_scope.
Open Scope list_scope.

Definition capacityActionMaxDetail : Z := 4096.

Inductive ledger_error : Type :=
| PoolIdRequired
| ActionKindUnknown
| TransitionInvalid
| ActionRowMissing
| DuplicateKey
| OwnerAndLeaseRequired
| ClaimIncomplete
| FenceStale
| LeaseNotPositive
| ScaleUpClaimRequired
| ScaleDownClaimRequired
| AttributesTooLarge
| OwnershipStale
| StillOwnsWork
| CompletionStale.

(** [builder.CapacityActionClaim] and [builder.CapacityInstance] *)
Record CapacityActionClaim := mkClaim {
  cl_id : uuid;
  cl_pool : SchedulerCapacityPoolDefinition;
  cl_kind : ActionKind;
  cl_requested_slots : Z;
  cl_observed_slots : Z;
  cl_delta_slots : Z;
  cl_reason : string;
  cl_owner : string;
  cl_fence : Z;
  cl_lease_expires_at : option time
}.

Record CapacityInstance := mkCapacityInstance {
  in_id : uuid;
  in_pool_id : string;
  in_create_action_id : uuid;
  in_delete_action_id : option uuid;
  in_provider : string;
  in_provider_instance_id : string;
  in_owner_token : uuid;
  in_generation : Z;
  in_state : InstanceState;
  in_remote_state_ref : string;
  in_attributes : gmap string string
}.

Definition validateCapacityActionKind (kind : string) : result ledger_error ActionKind :=
  if decide (kind = "scale-up") then Ok ScaleUp
  else if decide (kind = "scale-down") then Ok ScaleDown
  else Err ActionKindUnknown.

Definition pool_definition (p : capacity_pool) : SchedulerCapacityPoolDefinition :=
  mkPoolDefinition (cp_pool_id p) (cp_provider p) (cp_execution_zone p) (cp_architecture p)
    (cp_build_mode p) (cp_profile_id p) (cp_image_id p) (cp_image_generation p) (cp_selector p).

Definition scanCapacityAction (a : capacity_action) (p : capacity_pool) : CapacityActionClaim :=
  mkClaim (ca_id a) (pool_definition p) (ca_kind a) (ca_requested_slots a) (ca_observed_slots a)
    (ca_delta_slots a) (ca_reason a) (ca_claim_owner a) (ca_claim_fence a)
    (ca_claim_lease_expires_at a).

Definition scanCapacityInstance (i : capacity_instance) : CapacityInstance :=
  mkCapacityInstance (ci_id i) (ci_pool_id i) (ci_create_action_id i) (ci_delete_action_id i)
    (ci_provider i) (ci_provider_instance_id i) (ci_owner_token i) (ci_generation i) (ci_state i)
    (ci_remote_state_ref i) (ci_attributes i).

(** ** Requesting an action *)
Definition open_action (a : capacity_action) : Prop :=
  ca_state a ∈ [ARequested; AClaimed; AWaitingForHeartbeat; AWaitingForDrain].
#[export] Instance open_action_dec a : Decision (open_action a).
Proof. unfold open_action. apply _. Defined.

Definition open_for (pool : string) (a : capacity_action) : Prop :=
  ca_pool_id a = pool /\ open_action a.
#[export] Instance open_for_dec pool a : Decision (open_for pool a).
Proof. unfold open_for. apply _. Defined.

Definition find_pool (pool : string) (d : db) : option capacity_pool :=
  first_where (fun p => cp_pool_id p = pool) (capacity_pools d).

Definition new_action (id : uuid) (pool : string) (kind : ActionKind)
    (requested observed delta : Z) (reason : string) (now : time) : capacity_action :=
  mkAction id pool kind ARequested requested observed delta reason "" 0 None 0 now "" now None
    None now.

(** [INSERT ... ON CONFLICT (pool_id) WHERE open DO NOTHING]: the open action
    there is, or the inserted one; the primary key and the foreign key to the
    pool are checked. *)
Definition insert_action (a : capacity_action) (d : db) : result ledger_error (capacity_action * db) :=
  match first_where (open_for (ca_pool_id a)) (capacity_actions d) with
  | Some existing => Ok (existing, d)
  | None =>
      check ca_id a ∉ (ca_id <$> capacity_actions d) else DuplicateKey;;
      check is_Some (find_pool (ca_pool_id a) d) else ActionRowMissing;;
      Ok (a, d <| capacity_actions := capacity_actions d ++ [a] |>)
  end.

Definition truncate_detail (s : string) : string :=
  if decide (capacityActionMaxDetail < go_len s) then prefix_bytes capacityActionMaxDetail s else s.

Definition RequestCapacityAction (actionID : uuid) (poolID kind : string)
    (requestedSlots observedSlots : Z) (reason : string) (clk : clock) (d : db)
    : result ledger_error (CapacityActionClaim * db) :=
  check TrimSpace poolID <> "" else PoolIdRequired;;
  let! k := validateCapacityActionKind kind in
  check ~ (requestedSlots < 0 \/ observedSlots < 0 \/
           (k = ScaleUp /\ requestedSlots <= observedSlots) \/
           (k = ScaleDown /\ requestedSlots >= observedSlots))
    else TransitionInvalid;;
  let! (a, d) := insert_action
    (new_action actionID poolID k requestedSlots observedSlots 1 (truncate_detail reason) (clk 0%nat)) d in
  match find_pool (ca_pool_id a) d with
  | None => Err ActionRowMissing
  | Some p => Ok (scanCapacityAction a p, d)
  end.

(** ** Claiming *)
Definition claimable (now : time) (a : capacity_action) : Prop :=
  ca_next_attempt_at a <= now /\
  (ca_state a = ARequested \/
   (ca_state a = AClaimed /\ at_or_before (ca_claim_lease_expires_at a) now)).
#[export] Instance claimable_dec now a : Decision (claimable now a).
Proof. unfold claimable. apply _. Defined.

Definition claim_order : order capacity_action := then_by (by_key ca_requested_at) (by_str ca_id).

Definition claim_row (owner : string) (lease : duration) (now : time) (a : capacity_action)
    : capacity_action :=
  a <| ca_state := AClaimed |> <| ca_claim_owner := owner |>
    <| ca_claim_fence := ca_claim_fence a + 1 |>
    <| ca_claim_lease_expires_at := Some (now + lease) |>
    <| ca_attempts := ca_attempts a + 1 |> <| ca_claimed_at := Some now |>
    <| ca_updated_at := now |>.

Definition ClaimCapacityAction (owner : string) (lease : duration) (locked : uuid -> bool)
    (clk : clock) (d : db) : result ledger_error (option CapacityActionClaim * db) :=
  let owner := TrimSpace owner in
  check ~ (owner = "" \/ 256 < go_len owner \/ lease <= 0) else OwnerAndLeaseRequired;;
  let now := clk 0%nat in
  match pick claim_order (filter (fun a => claimable now a /\ locked (ca_id a) = false)
                            (capacity_actions d)) with
  | None => Ok (None, d)
  | Some a =>
      let d' := d <| capacity_actions :=
        update_where (fun x => ca_id x = ca_id a) (claim_row owner lease now) (capacity_actions d) |> in
      match find_pool (ca_pool_id a) d with
      | None => Ok (None, d')
      | Some p => Ok (Some (scanCapacityAction (claim_row owner lease now a) p), d')
      end
  end.

(** ** The fence *)
Definition fenced (claim : CapacityActionClaim) (now : time) (a : capacity_action) : Prop :=
  ca_id a = cl_id claim /\ ca_state a = AClaimed /\ ca_claim_owner a = cl_owner claim /\
  ca_claim_fence a = cl_fence claim /\ later_than (ca_claim_lease_expires_at a) now.
#[export] Instance fenced_dec claim now a : Decision (fenced claim now a).
Proof. unfold fenced. apply _. Defined.

Definition validateCapacityActionFence (claim : option CapacityActionClaim) (now : time) (d : db)
    : result ledger_error unit :=
  match claim with
  | None => Err ClaimIncomplete
  | Some claim =>
      check ~ (cl_id claim = "" \/ cl_owner claim = "" \/ cl_fence claim <= 0) else ClaimIncomplete;;
      match first_where (fun a => ca_id a = cl_id claim) (capacity_actions d) with
      | None => Err ActionRowMissing
      | Some a => check fenced claim now a else FenceStale;; Ok tt
      end
  end.

Definition RenewCapacityAction (claim : CapacityActionClaim) (lease : duration) (clk : clock)
    (d : db) : result ledger_error db :=
  check 0 < lease else LeaseNotPositive;;
  let now := clk 0%nat in
  check count_where (fenced claim now) (capacity_actions d) = 1%nat else FenceStale;;
  Ok (d <| capacity_actions :=
        update_where (fenced claim now)
          (fun a => a <| ca_claim_lease_expires_at := Some (now + lease) |> <| ca_updated_at := now |>)
          (capacity_actions d) |>).

(** ** Binding an instance *)
Definition capacityInstanceLabel (instanceID : uuid) : string := "capacity-instance:" +:+ instanceID.

Definition ReserveCapacityInstance (instanceID ownerToken : uuid)
    (claim : option CapacityActionClaim) (clk : clock) (d : db)
    : result ledger_error (CapacityInstance * db) :=
  match claim with
  | None => Err ScaleUpClaimRequired
  | Some cl =>
      check cl_kind cl = ScaleUp /\ cl_delta_slots cl = 1 else ScaleUpClaimRequired;;
      let! _ := validateCapacityActionFence claim (clk 0%nat) d in
      match first_where (fun i => ci_create_action_id i = cl_id cl) (capacity_instances d) with
      | Some existing => Ok (scanCapacityInstance existing, d)
      | None =>
          let now := clk 1%nat in
          let providerID := "portage-capacity-" +:+ instanceID in
          let i := mkInstance instanceID (pd_id (cl_pool cl)) (cl_id cl) None
                     (pd_provider (cl_pool cl)) providerID ownerToken 1 IProvisioning "" ∅ ""
                     None None None now now in
          check ~ exists_row (fun x => ci_id x = instanceID \/ ci_owner_token x = ownerToken \/
                    (ci_provider x = ci_provider i /\ ci_provider_instance_id x = providerID))
                  (capacity_instances d) else DuplicateKey;;
          Ok (scanCapacityInstance i, d <| capacity_instances := capacity_instances d ++ [i] |>)
      end
  end.

Definition encodeCapacityAttributes (attributes : gmap string string)
    : result ledger_error (list Ascii.ascii) :=
  let data := MarshalStringMap attributes in
  check Z.of_nat (length data) <= 65536 else AttributesTooLarge;;
  Ok data.

(** [WHERE id AND owner_token AND generation AND pool_id AND state]: the
    instance ownership fence of every instance update. *)
Definition owned (claim : CapacityActionClaim) (i : CapacityInstance) (s : InstanceState)
    (row : capacity_instance) : Prop :=
  ci_id row = in_id i /\ ci_owner_token row = in_owner_token i /\
  ci_generation row = in_generation i /\ ci_pool_id row = pd_id (cl_pool claim) /\
  ci_state row = s.
#[export] Instance owned_dec claim i s row : Decision (owned claim i s row).
Proof. unfold owned. apply _. Defined.

(** [UPDATE instances SET f WHERE owned], exactly one row. *)
Definition update_owned (claim : CapacityActionClaim) (i : CapacityInstance) (s : InstanceState)
    (f : capacity_instance -> capacity_instance) (d : db) : result ledger_error db :=
  check count_where (owned claim i s) (capacity_instances d) = 1%nat else OwnershipStale;;
  Ok (d <| capacity_instances := update_where (owned claim i s) f (capacity_instances d) |>).

Definition RecordCapacityInstanceProvisioned (claim : CapacityActionClaim) (i : CapacityInstance)
    (remoteStateRef : string) (attributes : gmap string string) (clk : clock) (d : db)
    : result ledger_error db :=
  let! _ := encodeCapacityAttributes attributes in
  let! _ := validateCapacityActionFence (Some claim) (clk 0%nat) d in
  update_owned claim i IProvisioning
    (fun row => row <| ci_remote_state_ref := remoteStateRef |> <| ci_attributes := attributes |>
                    <| ci_updated_at := clk 1%nat |>) d.

(** ** Completion *)
Definition completeCapacityActionTx (claim : CapacityActionClaim) (now : time) (d : db)
    : result ledger_error db :=
  check count_where (fenced claim now) (capacity_actions d) = 1%nat else CompletionStale;;
  Ok (d <| capacity_actions :=
        update_where (fenced claim now)
          (fun a => a <| ca_state := ACompleted |> <| ca_claim_owner := "" |>
                      <| ca_claim_lease_expires_at := None |> <| ca_failure_detail := "" |>
                      <| ca_completed_at := Some now |> <| ca_updated_at := now |>)
          (capacity_actions d) |>).

(** [labels ? x] for every required label *)
Definition has_labels (required : list string) (w : worker) : Prop := required ⊆ w_labels w.
#[export] Instance has_labels_dec required w : Decision (has_labels required w).
Proof. unfold has_labels. apply _. Defined.

Definition fresh_worker (now : time) (age : duration) (w : worker) : Prop :=
  w_desired_state w = WActive /\ later_than (w_last_seen_at w) (now - age).
#[export] Instance fresh_worker_dec now age w : Decision (fresh_worker now age w).
Proof. unfold fresh_worker. apply _. Defined.

Definition ConfirmCapacityInstanceHeartbeat (claim : CapacityActionClaim) (i : CapacityInstance)
    (clk : clock) (d : db) : result ledger_error (bool * db) :=
  let! _ := validateCapacityActionFence (Some claim) (clk 0%nat) d in
  let live := count_where (fun w => fresh_worker (clk 1%nat) (45 * Second) w /\
                 capacityInstanceLabel (in_id i) ∈ w_labels w /\
                 has_labels (pd_selector (cl_pool claim)) w) (workers d) in
  if decide (live = 0%nat) then Ok (false, d) else
  let! d := update_owned claim i IProvisioning
    (fun row => row <| ci_state := IActive |> <| ci_heartbeat_observed_at := Some (clk 2%nat) |>
                    <| ci_updated_at := clk 2%nat |>) d in
  let! d := completeCapacityActionTx claim (clk 3%nat) d in
  Ok (true, d).

(** ** Draining *)
Definition drain_order : order capacity_instance :=
  then_by (by_nullable ci_heartbeat_observed_at) (then_by (by_key ci_created_at) (by_str ci_id)).

Definition drain_row (action : uuid) (now : time) (i : capacity_instance) : capacity_instance :=
  i <| ci_state := if decide (ci_state i = IDeleting) then IDeleting else IDraining |>
    <| ci_delete_action_id := Some action |>
    <| ci_drain_requested_at := Some (default now (ci_drain_requested_at i)) |>
    <| ci_updated_at := now |>.

Definition SelectCapacityInstanceForDrain (claim : option CapacityActionClaim)
    (locked : uuid -> bool) (clk : clock) (d : db)
    : result ledger_error (option CapacityInstance * db) :=
  match claim with
  | None => Err ScaleDownClaimRequired
  | Some cl =>
      check cl_kind cl = ScaleDown /\ cl_delta_slots cl = 1 else ScaleDownClaimRequired;;
      let! _ := validateCapacityActionFence claim (clk 0%nat) d in
      let pool := pd_id (cl_pool cl) in
      let existing := first_where (fun i => ci_delete_action_id i = Some (cl_id cl) /\
                        ci_pool_id i = pool /\ ci_state i ∈ [IDraining; IDeleting])
                        (capacity_instances d) in
      let candidate := pick drain_order
                         (filter (fun i => ci_pool_id i = pool /\ ci_state i = IActive /\
                                           locked (ci_id i) = false) (capacity_instances d)) in
      match (match existing with Some i => Some i | None => candidate end) with
      | None => Ok (None, d)
      | Some i =>
          check ~ exists_row (fun x => ci_delete_action_id x = Some (cl_id cl) /\ ci_id x <> ci_id i)
                  (capacity_instances d) else DuplicateKey;;
          let d := d <| capacity_instances :=
            update_where (fun x => ci_id x = ci_id i) (drain_row (cl_id cl) (clk 1%nat))
              (capacity_instances d) |> in
          let d := d <| workers :=
            update_where (fun w => capacityInstanceLabel (ci_id i) ∈ w_labels w)
              (fun w => w <| w_desired_state := WDraining |> <| w_updated_at := clk 2%nat |>)
              (workers d) |> in
          Ok (Some (scanCapacityInstance (drain_row (cl_id cl) (clk 1%nat) i)), d)
      end
  end.

(** No live attempt lease and no live phase claim belongs to a worker of the
    instance, and the instance is draining under this ownership. *)
Definition instance_drained (claim : CapacityActionClaim) (i : CapacityInstance) (now : time)
    (d : db) : Prop :=
  (~ exists_row (fun w => capacityInstanceLabel (in_id i) ∈ w_labels w /\
        exists_row (fun l => wl_worker_id l = w_id w /\ now < wl_expires_at l) (worker_leases d))
      (workers d)) /\
  (~ exists_row (fun p => pw_state p = SClaimed /\ later_than (pw_lease_expires_at p) now /\
        exists_row (fun w => w_stable_name w = pw_claim_owner p /\
                             capacityInstanceLabel (in_id i) ∈ w_labels w) (workers d))
      (phase_work_items d)) /\
  exists_row (owned claim i IDraining) (capacity_instances d).
#[export] Instance instance_drained_dec claim i now d : Decision (instance_drained claim i now d).
Proof. unfold instance_drained, exists_row. apply _. Defined.

Definition CapacityInstanceDrained (claim : CapacityActionClaim) (i : CapacityInstance)
    (clk : clock) (d : db) : result ledger_error (bool * db) :=
  let! _ := validateCapacityActionFence (Some claim) (clk 0%nat) d in
  Ok (bool_decide (instance_drained claim i (clk 1%nat) d), d).

Definition capacityInstanceDrainedTx (claim : CapacityActionClaim) (i : CapacityInstance)
    (now : time) (d : db) : bool := bool_decide (instance_drained claim i now d).

(** ** Deleting *)
Definition BeginCapacityInstanceDelete (claim : CapacityActionClaim) (i : CapacityInstance)
    (clk : clock) (d : db) : result ledger_error db :=
  let! _ := validateCapacityActionFence (Some claim) (clk 0%nat) d in
  check capacityInstanceDrainedTx claim i (clk 1%nat) d = true else StillOwnsWork;;
  update_owned claim i IDraining
    (fun row => row <| ci_state := IDeleting |> <| ci_updated_at := clk 2%nat |>) d.

Definition CompleteCapacityInstanceDelete (claim : CapacityActionClaim) (i : CapacityInstance)
    (clk : clock) (d : db) : result ledger_error db :=
  let! _ := validateCapacityActionFence (Some claim) (clk 0%nat) d in
  let! d := update_owned claim i IDeleting
    (fun row => row <| ci_state := IDeleted |> <| ci_deleted_at := Some (clk 1%nat) |>
                    <| ci_updated_at := clk 1%nat |>) d in
  completeCapacityActionTx claim (clk 2%nat) d.

(** ** Retrying with exponential backoff *)
Definition retry_delay (attempts : Z) : duration :=
  Z.min 300 (2 ^ Z.min attempts 8) * Second.

Definition RetryCapacityAction (claim : CapacityActionClaim) (detail : string) (clk : clock)
    (d : db) : result ledger_error db :=
  let now := clk 0%nat in
  check count_where (fenced claim now) (capacity_actions d) = 1%nat else FenceStale;;
  Ok (d <| capacity_actions :=
        update_where (fenced claim now)
          (fun a => a <| ca_state := ARequested |> <| ca_failure_detail := truncate_detail detail |>
                      <| ca_claim_owner := "" |> <| ca_claim_lease_expires_at := None |>
                      <| ca_next_attempt_at := now + retry_delay (ca_attempts a) |>
                      <| ca_updated_at := now |>)
          (capacity_actions d) |>).

(** ** The reconciler's statements

    [autoscale.go] writes the same table: it requests or refreshes an action,
    cancels a requested one and reopens closed actions that still own an
    instance. *)

(** A live instance is bound to the action. *)
Definition bound (d : db) (a : capacity_action) : Prop :=
  exists_row (fun i => (ci_create_action_id i = ca_id a \/ ci_delete_action_id i = Some (ca_id a)) /\
                       (ci_state i ∉ [IDeleted; IFailed])) (capacity_instances d).
#[export] Instance bound_dec d a : Decision (bound d a).
Proof. unfold bound, exists_row. apply _. Defined.

Definition refresh_row (kind : ActionKind) (requested observed : Z) (reason : string) (now : time)
    (a : capacity_action) : capacity_action :=
  a <| ca_kind := kind |> <| ca_requested_slots := requested |> <| ca_observed_slots := observed |>
    <| ca_reason := reason |> <| ca_next_attempt_at := now |> <| ca_failure_detail := "" |>
    <| ca_updated_at := now |>.

Definition requestCapacityActionTx (id : uuid) (poolID : string) (kind : ActionKind)
    (requestedSlots observedSlots : Z) (reason : string) (now : time) (d : db)
    : result ledger_error db :=
  let reason := truncate_detail reason in
  match first_where (open_for poolID) (capacity_actions d) with
  | None =>
      let! (_, d) := insert_action
        (new_action id poolID kind requestedSlots observedSlots 1 reason now) d in
      Ok d
  | Some existing =>
      Ok (d <| capacity_actions :=
            update_where (fun a => ca_id a = ca_id existing /\ ca_state a = ARequested /\ ~ bound d a)
              (refresh_row kind requestedSlots observedSlots reason now) (capacity_actions d) |>)
  end.

Definition cancelRequestedCapacityActionTx (poolID reason : string) (now : time) (d : db) : db :=
  d <| capacity_actions :=
    update_where (fun a => ca_pool_id a = poolID /\ ca_state a = ARequested /\ ~ bound d a)
      (fun a => a <| ca_state := ACanceled |> <| ca_failure_detail := truncate_detail reason |>
                  <| ca_completed_at := Some now |> <| ca_updated_at := now |>)
      (capacity_actions d) |>.

(** A closed action that still owns an instance, in a pool without an open
    action. *)
Definition reopenable (d : db) (a : capacity_action) : Prop :=
  ca_state a ∈ [ACanceled; AFailed] /\
  exists_row (fun i => ((ci_create_action_id i = ca_id a /\ ca_kind a = ScaleUp) \/
                        (ci_delete_action_id i = Some (ca_id a) /\ ca_kind a = ScaleDown)) /\
                       ci_state i ∈ [IProvisioning; IDraining; IDeleting]) (capacity_instances d) /\
  ~ exists_row (open_for (ca_pool_id a)) (capacity_actions d).
#[export] Instance reopenable_dec d a : Decision (reopenable d a).
Proof. unfold reopenable, exists_row. apply _. Defined.

(** [DISTINCT ON (pool_id) ... ORDER BY pool_id, requested_at, id] *)
Definition reopened (d : db) (a : capacity_action) : Prop :=
  reopenable d a /\
  ca_id <$> pick claim_order (filter (fun x => reopenable d x /\ ca_pool_id x = ca_pool_id a)
                               (capacity_actions d)) = Some (ca_id a).
#[export] Instance reopened_dec d a : Decision (reopened d a).
Proof. unfold reopened. apply _. Defined.

Definition reopen_note : string := "reopened: a live provider instance is bound to this action".

Definition reopen_row (now : time) (a : capacity_action) : capacity_action :=
  a <| ca_state := ARequested |> <| ca_claim_owner := "" |>
    <| ca_claim_lease_expires_at := None |> <| ca_completed_at := None |>
    <| ca_next_attempt_at := now + retry_delay (ca_attempts a) |>
    <| ca_failure_detail := left_chars capacityActionMaxDetail
         ((if decide (ca_failure_detail a = "") then "" else ca_failure_detail a +:+ " | ")
          +:+ reopen_note) |>
    <| ca_updated_at := now |>.

Definition reopenBoundCapacityActionsTx (now : time) (d : db) : db :=
  d <| capacity_actions := update_where (reopened d) (reopen_row now) (capacity_actions d) |>.

(** ** The ledger as a transition system

    The steps are the operations above, whoever runs them and with whatever
    arguments, and [step_other]: everything the other components do to their
    own tables. *)
Inductive cap_step : db -> db -> Prop :=
| step_request id pool kind rs os reason clk d c d' :
    RequestCapacityAction id pool kind rs os reason clk d = Ok (c, d') -> cap_step d d'
| step_claim owner lease locked clk d c d' :
    ClaimCapacityAction owner lease locked clk d = Ok (c, d') -> cap_step d d'
| step_renew c lease clk d d' : RenewCapacityAction c lease clk d = Ok d' -> cap_step d d'
| step_reserve id tok c clk d i d' :
    ReserveCapacityInstance id tok c clk d = Ok (i, d') -> cap_step d d'
| step_provisioned c i ref attrs clk d d' :
    RecordCapacityInstanceProvisioned c i ref attrs clk d = Ok d' -> cap_step d d'
| step_heartbeat c i clk d b d' :
    ConfirmCapacityInstanceHeartbeat c i clk d = Ok (b, d') -> cap_step d d'
| step_drain c locked clk d i d' :
    SelectCapacityInstanceForDrain c locked clk d = Ok (i, d') -> cap_step d d'
| step_begin_delete c i clk d d' : BeginCapacityInstanceDelete c i clk d = Ok d' -> cap_step d d'
| step_complete_delete c i clk d d' :
    CompleteCapacityInstanceDelete c i clk d = Ok d' -> cap_step d d'
| step_retry c detail clk d d' : RetryCapacityAction c detail clk d = Ok d' -> cap_step d d'
| step_refresh id pool kind rs os reason now d d' :
    requestCapacityActionTx id pool kind rs os reason now d = Ok d' -> cap_step d d'
| step_cancel pool reason now d : cap_step d (cancelRequestedCapacityActionTx pool reason now d)
| step_reopen now d : cap_step d (reopenBoundCapacityActionsTx now d)
| step_other d d' : capacity_actions d' = capacity_actions d ->
    capacity_instances d' = capacity_instances d -> cap_step d d'.

(** A claimed action has an owner, a lease and a positive fence. *)
Definition action_ok (a : capacity_action) : Prop :=
  0 <= ca_claim_fence a /\
  (ca_state a = AClaimed ->
   ca_claim_owner a <> "" /\ is_Some (ca_claim_lease_expires_at a) /\ 0 < ca_claim_fence a).

(** How one action and one instance may change in a step. *)
Record action_evolves (a a' : capacity_action) : Prop := {
  ae_id : ca_id a' = ca_id a;
  ae_pool : ca_pool_id a' = ca_pool_id a;
  ae_fence : ca_claim_fence a <= ca_claim_fence a';
  ae_ok : action_ok a -> action_ok a'
}.

(** The edges of the instance state machine; [BeginCapacityInstanceDelete] is
    the only operation that takes the last one. *)
Definition edge (s s' : InstanceState) : Prop :=
  (s, s') ∈ [(IProvisioning, IActive); (IActive, IDraining); (IDeleting, IDeleted)].
Definition delete_edge (s s' : InstanceState) : Prop := (s, s') = (IDraining, IDeleting).
Definition lifecycle (s s' : InstanceState) : Prop := edge s s' \/ delete_edge s s'.

Record instance_evolves (T : InstanceState -> InstanceState -> Prop) (i i' : capacity_instance) : Prop := {
  ie_id : ci_id i' = ci_id i;
  ie_pool : ci_pool_id i' = ci_pool_id i;
  ie_create : ci_create_action_id i' = ci_create_action_id i;
  ie_provider : ci_provider i' = ci_provider i;
  ie_provider_id : ci_provider_instance_id i' = ci_provider_instance_id i;
  ie_token : ci_owner_token i' = ci_owner_token i;
  ie_generation : ci_generation i' = ci_generation i;
  ie_state : ci_state i = ci_state i' \/ T (ci_state i) (ci_state i')
}.

#[export] Instance action_evolves_refl : Reflexive action_evolves.
Proof. intros a. split; auto; lia. Qed.
#[export] Instance instance_evolves_refl T : Reflexive (instance_evolves T).
Proof. intros i. split; auto. Qed.

Definition fresh_action (l : list capacity_action) (a : capacity_action) : Prop :=
  ca_state a = ARequested /\ ca_claim_fence a = 0 /\ (ca_id a ∉ ca_id <$> l) /\
  forall b, b ∈ l -> ~ open_for (ca_pool_id a) b.
Definition provider_key (i : capacity_instance) : string * string :=
  (ci_provider i, ci_provider_instance_id i).
Definition fresh_instance (l : list capacity_instance) (i : capacity_instance) : Prop :=
  ci_state i = IProvisioning /\ (ci_id i ∉ ci_id <$> l) /\
  (ci_create_action_id i ∉ ci_create_action_id <$> l) /\
  (ci_owner_token i ∉ ci_owner_token <$> l) /\ (provider_key i ∉ provider_key <$> l).

(** The partial unique index: at most one open action per pool. *)
Definition one_open (l : list capacity_action) : Prop := forall a b, a ∈ l -> b ∈ l ->
  open_action a -> open_action b -> ca_pool_id a = ca_pool_id b -> ca_id a = ca_id b.

Record evolves (T : InstanceState -> InstanceState -> Prop) (d d' : db) : Prop := {
  ev_actions : rows_evolve action_evolves (fresh_action (capacity_actions d))
    (capacity_actions d) (capacity_actions d');
  ev_instances : rows_evolve (instance_evolves T) (fresh_instance (capacity_instances d))
    (capacity_instances d) (capacity_instances d');
  ev_one_open : one_open (capacity_actions d) -> one_open (capacity_actions d')
}.

Lemma validate_fence_ok c now d :
  validateCapacityActionFence (Some c) now d = Ok tt ->
  0 < cl_fence c /\ exists a, a ∈ capacity_actions d /\ fenced c now a.
Proof.
  unfold validateCapacityActionFence. intros H. inv_ok H.
  apply first_where_some in E as [Ha _]. split; [lia|eauto].
Qed.

Lemma evolves_with_actions T d l :
  rows_evolve action_evolves (fresh_action (capacity_actions d)) (capacity_actions d) l ->
  (one_open (capacity_actions d) -> one_open l) ->
  evolves T d (d <| capacity_actions := l |>).
Proof. intros Hl Ho. split; [done| |done]. apply rows_evolve_refl. apply _. Qed.

Lemma evolves_with_instances T d d' :
  capacity_actions d' = capacity_actions d ->
  rows_evolve (instance_evolves T) (fresh_instance (capacity_instances d))
    (capacity_instances d) (capacity_instances d') ->
  evolves T d d'.
Proof. intros Ha Hl. split; rewrite ?Ha; [|done|done]. apply rows_evolve_refl. apply _. Qed.

(** An update that opens no action keeps [one_open]. *)
Lemma one_open_update P `{HdP : !forall x, Decision (P x)} f l :
  (forall a, a ∈ l -> P a -> action_evolves a (f a) /\ (open_action (f a) -> open_action a)) ->
  one_open l -> one_open (update_where P f l).
Proof.
  intros Hf Ho a' b' Ha Hb Oa Ob Hp.
  assert (forall x', x' ∈ update_where P f l -> open_action x' ->
            exists x, x ∈ l /\ open_action x /\ ca_id x' = ca_id x /\ ca_pool_id x' = ca_pool_id x) as Hback.
  { intros x' (x & Hx & [[HP ->]|[_ ->]])%elem_of_update_where Hop; [|by eauto].
    destruct (Hf x Hx HP) as [[] Hopen]. exists x. auto. }
  destruct (Hback a' Ha Oa) as (a & Ia & Oa' & -> & Pa), (Hback b' Hb Ob) as (b & Ib & Ob' & -> & Pb).
  apply Ho; auto. congruence.
Qed.

Lemma evolves_actions T d P `{HdP : !forall x, Decision (P x)} f :
  (forall a, a ∈ capacity_actions d -> P a ->
     action_evolves a (f a) /\ (open_action (f a) -> open_action a)) ->
  evolves T d (d <| capacity_actions := update_where P f (capacity_actions d) |>).
Proof.
  intros Hf. apply evolves_with_actions.
  - apply rows_evolve_update; [apply _|]. intros. by apply Hf.
  - by apply one_open_update.
Qed.

Lemma evolves_instances T d P `{HdP : !forall x, Decision (P x)} f :
  (forall i, i ∈ capacity_instances d -> P i -> instance_evolves T i (f i)) ->
  evolves T d (d <| capacity_instances := update_where P f (capacity_instances d) |>).
Proof.
  intros Hf. apply evolves_with_instances; [done|].
  apply rows_evolve_update; [apply _|auto].
Qed.

Lemma update_owned_evolves T c i s f d d' :
  (forall row, owned c i s row -> instance_evolves T row (f row)) ->
  update_owned c i s f d = Ok d' -> evolves T d d' /\ capacity_actions d' = capacity_actions d.
Proof.
  unfold update_owned. intros Hf H. inv_ok H. subst d'. split; [|done].
  apply evolves_instances. auto.
Qed.

Lemma complete_evolves T c now d d' :
  completeCapacityActionTx c now d = Ok d' ->
  evolves T d d' /\ capacity_instances d' = capacity_instances d.
Proof.
  unfold completeCapacityActionTx. intros H. inv_ok H. subst d'. split; [|done].
  apply evolves_actions. intros a _ (_ & Hs & _). split; [split; cbn; auto; try lia|].
  - unfold action_ok. cbn. intros [? _]. split; [done|discriminate].
  - unfold open_action. cbn. rewrite Hs. set_solver.
Qed.

Lemma evolves_both T d d1 d2 :
  evolves T d d1 -> capacity_actions d1 = capacity_actions d ->
  evolves T d1 d2 -> capacity_instances d2 = capacity_instances d1 -> evolves T d d2.
Proof.
  intros [_ H1 _] E1 [H2 _ H3] E2. rewrite E1 in H2, H3. rewrite <- E2 in H1. by split.
Qed.

Lemma evolves_refl T d : evolves T d d.
Proof. split; [apply rows_evolve_refl; apply _..|done]. Qed.

Lemma insert_action_evolves T a d a' d' :
  ca_state a = ARequested -> ca_claim_fence a = 0 ->
  insert_action a d = Ok (a', d') -> evolves T d d'.
Proof.
  unfold insert_action. intros Hs Hf H.
  destruct (first_where _ _) eqn:Hw; inv_ok H; simplify_eq; [apply evolves_refl|].
  pose proof (first_where_none _ _ Hw) as Hno. apply evolves_with_actions.
  - apply rows_evolve_insert; [apply _|]. by split_and!.
  - intros Ho x y [Hx| ->%list_elem_of_singleton]%elem_of_app
      [Hy| ->%list_elem_of_singleton]%elem_of_app Ox Oy Hp; [by apply Ho| | |done].
    + by destruct (Hno x Hx).
    + by destruct (Hno y Hy).
Qed.

Lemma claim_row_evolves owner lease now a :
  owner <> "" -> action_evolves a (claim_row owner lease now a).
Proof.
  intros Ho. split; cbn; auto; [lia|]. unfold action_ok. cbn.
  intros [? _]. split; [lia|]. intros _. split_and!; [done|eauto|lia].
Qed.

Lemma claim_evolves T owner lease locked clk d c d' :
  NoDup (ca_id <$> capacity_actions d) ->
  ClaimCapacityAction owner lease locked clk d = Ok (c, d') -> evolves T d d'.
Proof.
  unfold ClaimCapacityAction. intros Hnd H. inv_ok H.
  destruct (pick _ _) as [a|] eqn:Hp; [|simplify_eq; apply evolves_refl].
  assert (d' = d <| capacity_actions := update_where (fun x => ca_id x = ca_id a)
            (claim_row (TrimSpace owner) lease (clk 0%nat)) (capacity_actions d) |>) as ->
    by (destruct (find_pool _ _); simplify_eq; done).
  apply pick_elem, list_elem_of_filter in Hp as [[Hcl _] Ha].
  apply evolves_actions.
  intros x Hx Heq. rewrite (key_unique ca_id _ _ _ Hnd Hx Ha Heq).
  split; [apply claim_row_evolves; tauto|]. intros _. unfold open_action.
  destruct Hcl as [_ [->|[-> _]]]; set_solver.
Qed.

Lemma renew_evolves T c lease clk d d' : RenewCapacityAction c lease clk d = Ok d' -> evolves T d d'.
Proof.
  unfold RenewCapacityAction. intros H. inv_ok H. subst d'. apply evolves_actions.
  intros a _ _. split; [|done]. split; cbn; auto; [lia|]. unfold action_ok. cbn. naive_solver.
Qed.

Lemma retry_evolves T c detail clk d d' : RetryCapacityAction c detail clk d = Ok d' -> evolves T d d'.
Proof.
  unfold RetryCapacityAction. intros H. inv_ok H. subst d'. apply evolves_actions.
  intros a _ (_ & Hs & _). split; [split; cbn; auto; [lia|]|].
  - unfold action_ok. cbn. intros [? _]. split; [done|discriminate].
  - unfold open_action. rewrite Hs. set_solver.
Qed.

Lemma reserve_evolves T id tok c clk d i d' :
  ReserveCapacityInstance id tok c clk d = Ok (i, d') -> evolves T d d'.
Proof.
  unfold ReserveCapacityInstance. intros H. destruct c as [c|]; [|done].
  do 2 inv_ok_step H. destruct (first_where _ _) eqn:Hw; inv_ok H; simplify_eq; [apply evolves_refl|].
  apply evolves_with_instances; [done|]. apply rows_evolve_insert; [apply _|].
  pose proof (first_where_none _ _ Hw) as Hcreate.
  unfold exists_row in *. rewrite <- Forall_Exists_neg, Forall_forall in Hc0.
  split_and!; [done|..]; intros (x & Hx & Hin)%list_elem_of_fmap; cbn in Hx;
    [apply (Hc0 x Hin)|apply (Hcreate x Hin)|apply (Hc0 x Hin)|apply (Hc0 x Hin)];
    unfold provider_key in *; simplify_eq/=; naive_solver.
Qed.

Lemma provisioned_evolves T c i ref attrs clk d d' :
  RecordCapacityInstanceProvisioned c i ref attrs clk d = Ok d' -> evolves T d d'.
Proof.
  unfold RecordCapacityInstanceProvisioned. intros H. do 2 inv_ok_step H.
  apply (update_owned_evolves T) in H as [? _]; [done|].
  intros row _. split; cbn; auto.
Qed.

Lemma heartbeat_evolves c i clk d b d' :
  ConfirmCapacityInstanceHeartbeat c i clk d = Ok (b, d') -> evolves edge d d'.
Proof.
  unfold ConfirmCapacityInstanceHeartbeat. intros H. inv_ok_step H.
  case_decide; [simplify_eq; apply evolves_refl|]. inv_ok H. simplify_eq.
  apply (update_owned_evolves edge) in E0 as [H1 H2].
  - apply (complete_evolves edge) in E1 as [H3 H4]. by eapply evolves_both.
  - intros row (_ & _ & _ & _ & Hs). split; cbn; auto. right. rewrite Hs. unfold edge, delete_edge. set_solver.
Qed.

Lemma begin_delete_evolves c i clk d d' :
  BeginCapacityInstanceDelete c i clk d = Ok d' -> evolves delete_edge d d'.
Proof.
  unfold BeginCapacityInstanceDelete. intros H. do 2 inv_ok_step H.
  apply (update_owned_evolves delete_edge) in H as [? _]; [done|].
  intros row (_ & _ & _ & _ & Hs). split; cbn; auto. right. rewrite Hs. unfold edge, delete_edge. set_solver.
Qed.

Lemma complete_delete_evolves c i clk d d' :
  CompleteCapacityInstanceDelete c i clk d = Ok d' -> evolves edge d d'.
Proof.
  unfold CompleteCapacityInstanceDelete. intros H. do 2 inv_ok_step H.
  apply (update_owned_evolves edge) in E0 as [H1 H2].
  - apply (complete_evolves edge) in H as [H3 H4]. by eapply evolves_both.
  - intros row (_ & _ & _ & _ & Hs). split; cbn; auto. right. rewrite Hs. unfold edge, delete_edge. set_solver.
Qed.

Lemma drain_evolves c locked clk d i d' :
  NoDup (ci_id <$> capacity_instances d) ->
  SelectCapacityInstanceForDrain c locked clk d = Ok (i, d') -> evolves edge d d'.
Proof.
  unfold SelectCapacityInstanceForDrain. intros Hnd H. destruct c as [c|]; [|done].
  do 2 inv_ok_step H.
  destruct (match first_where _ _ with Some i => Some i | None => _ end) as [row|] eqn:Hrow.
  2:{ simplify_eq. apply evolves_refl. }
  inv_ok H. simplify_eq.
  assert (row ∈ capacity_instances d /\ ci_state row ∈ [IActive; IDraining; IDeleting]) as [Hin Hst].
  { destruct (first_where _ _) as [r|] eqn:Hw; simplify_eq.
    - apply first_where_some in Hw as [? (_ & _ & ?)]. split; [done|set_solver].
    - apply pick_elem, list_elem_of_filter in Hrow as [(_ & -> & _) ?]. split; [done|set_solver]. }
  apply evolves_with_instances; [done|]. cbn. apply rows_evolve_update; [apply _|].
  intros x Hx Heq. rewrite (key_unique ci_id _ _ _ Hnd Hx Hin Heq).
  split; cbn; auto. unfold edge.
  destruct (ci_state row); try (exfalso; set_solver); case_decide; try done; set_solver.
Qed.

Lemma refresh_evolves T id pool kind rs os reason now d d' :
  requestCapacityActionTx id pool kind rs os reason now d = Ok d' -> evolves T d d'.
Proof.
  unfold requestCapacityActionTx. intros H. destruct (first_where _ _) eqn:Hw.
  - simplify_eq. apply evolves_actions. intros a _ _. split; [|done]. split; cbn; auto. lia.
  - inv_ok H. simplify_eq. by eapply (insert_action_evolves T) in E.
Qed.

Lemma cancel_evolves T pool reason now d :
  evolves T d (cancelRequestedCapacityActionTx pool reason now d).
Proof.
  apply evolves_actions. intros a _ (_ & Hs & _). split; [split; cbn; auto; [lia|]|].
  - unfold action_ok. cbn. intros [? _]. split; [done|discriminate].
  - unfold open_action. rewrite Hs. set_solver.
Qed.

(** A reopened action becomes the only open action of its pool. *)
Lemma reopen_one_open now d :
  one_open (capacity_actions d) -> one_open (capacity_actions (reopenBoundCapacityActionsTx now d)).
Proof.
  intros Ho a' b' Ha Hb Oa Ob Hp. cbn in Ha, Hb.
  assert (forall x y, reopened d x -> y ∈ capacity_actions d -> open_action y ->
            ca_pool_id x = ca_pool_id y -> False) as Hclosed.
  { intros x y [(_ & _ & Hno) _] Hy Oy Hxy. apply Hno, Exists_exists. exists y. by split. }
  apply elem_of_update_where in Ha as (a & Ia & [[Ra ->]|[_ ->]]);
    apply elem_of_update_where in Hb as (b & Ib & [[Rb ->]|[_ ->]]); cbn in *.
  - destruct Ra as [_ Ha], Rb as [_ Hb]. rewrite Hp in Ha. congruence.
  - by destruct (Hclosed a b).
  - by destruct (Hclosed b a).
  - by apply Ho.
Qed.

(** Reopening leaves an open action that owns a live instance. *)
Lemma reopened_exists now d a : a ∈ capacity_actions d -> reopenable d a ->
  exists b, b ∈ capacity_actions (reopenBoundCapacityActionsTx now d) /\
    ca_pool_id b = ca_pool_id a /\ open_action b /\ bound d b.
Proof.
  intros Ha Hre.
  destruct (pick claim_order (filter (fun x => reopenable d x /\ ca_pool_id x = ca_pool_id a)
              (capacity_actions d))) as [b|] eqn:Hpick.
  2:{ apply pick_none in Hpick. assert (a ∈ @nil capacity_action) as []%elem_of_nil.
      rewrite <- Hpick. apply list_elem_of_filter. by split_and!. }
  pose proof (pick_elem _ _ _ Hpick) as [[Hreb Hpb] Hb]%list_elem_of_filter.
  exists (reopen_row now b). split_and!; [|done| |].
  - cbn. apply elem_of_update_where. exists b. split; [done|]. left. split; [|done].
    split; [done|]. rewrite Hpb, Hpick. done.
  - unfold open_action. cbn. set_solver.
  - destruct Hreb as (_ & (i & Hi & Hown & Hs)%Exists_exists & _). apply Exists_exists.
    exists i. split_and!; [done|cbn; tauto|enum_solve].
Qed.

Lemma reopen_evolves T now d : evolves T d (reopenBoundCapacityActionsTx now d).
Proof.
  apply evolves_with_actions; [|apply (reopen_one_open now)].
  apply rows_evolve_update; [apply _|]. intros a _ _. split; cbn; auto; [lia|].
  unfold action_ok. cbn. intros [? _]. split; [done|discriminate].
Qed.

(** ** Well-formed ledgers *)
Record wf_capacity (d : db) : Prop := {
  wf_action_ids : NoDup (ca_id <$> capacity_actions d);
  wf_action_ok : forall a, a ∈ capacity_actions d -> action_ok a;
  wf_one_open : one_open (capacity_actions d);
  wf_instance_ids : NoDup (ci_id <$> capacity_instances d);
  wf_create_ids : NoDup (ci_create_action_id <$> capacity_instances d);
  wf_tokens : NoDup (ci_owner_token <$> capacity_instances d);
  wf_provider_keys : NoDup (provider_key <$> capacity_instances d)
}.

Lemma step_cases d d' : wf_capacity d -> cap_step d d' ->
  evolves edge d d' \/ exists c i clk, BeginCapacityInstanceDelete c i clk d = Ok d'.
Proof.
  intros [Ha _ _ Hi _ _ _] Hstep. destruct Hstep as [? ? ? ? ? ? ? ? ? ? H|? ? ? ? ? ? ? H|? ? ? ? ? H
    |? ? ? ? ? ? ? H|? ? ? ? ? ? ? H|? ? ? ? ? ? H|? ? ? ? ? ? H|? ? ? ? ? H|? ? ? ? ? H|? ? ? ? ? H
    |? ? ? ? ? ? ? ? ? H|?|?|? ? Ha' Hi'];
    try (right; by eauto); left.
  - unfold RequestCapacityAction in H. inv_ok H. simplify_eq. by apply (insert_action_evolves edge) in E0.
  - by apply (claim_evolves edge) in H.
  - by apply (renew_evolves edge) in H.
  - by apply (reserve_evolves edge) in H.
  - by apply (provisioned_evolves edge) in H.
  - by apply heartbeat_evolves in H.
  - by apply drain_evolves in H.
  - by apply complete_delete_evolves in H.
  - by apply (retry_evolves edge) in H.
  - by apply (refresh_evolves edge) in H.
  - apply cancel_evolves.
  - apply reopen_evolves.
  - apply evolves_with_instances; [done|]. rewrite Hi'. apply rows_evolve_refl. apply _.
Qed.

Lemma evolves_mono (T T' : InstanceState -> InstanceState -> Prop) d d' :
  (forall s s', T s s' -> T' s s') -> evolves T d d' -> evolves T' d d'.
Proof.
  intros HT [Ha (l1 & o & Heq & H & HN) Ho]. split; [done| |done]. exists l1, o. split_and!; [done| |done].
  eapply Forall2_impl; [exact H|]. intros i i' [? ? ? ? ? ? ? [?|?]]; split; auto.
Qed.

Lemma step_evolves d d' : wf_capacity d -> cap_step d d' -> evolves lifecycle d d'.
Proof.
  intros Hwf Hs. destruct (step_cases _ _ Hwf Hs) as [He|(c & i & clk & H)].
  - eapply evolves_mono; [|done]. by left.
  - eapply evolves_mono; [|by apply begin_delete_evolves in H]. by right.
Qed.

Lemma evolves_wf T d d' : evolves T d d' -> wf_capacity d -> wf_capacity d'.
Proof.
  intros [Ha Hi Ho] [W1 W2 W3 W4 W5 W6 W7]. split.
  - eapply rows_evolve_key; eauto; [apply ae_id|]. by intros x (_ & _ & ? & _).
  - intros a' [(a & Hin & Hev)|(Hs & Hf & _)]%(rows_evolve_new _ _ _ _ _ Ha).
    + apply (ae_ok _ _ Hev), W2, Hin.
    + split; [lia|]. congruence.
  - by apply Ho.
  - eapply rows_evolve_key; eauto; [apply ie_id|]. by intros x (_ & ? & _).
  - eapply rows_evolve_key; eauto; [apply ie_create|]. by intros x (_ & _ & ? & _).
  - eapply rows_evolve_key; eauto; [apply ie_token|]. by intros x (_ & _ & _ & ? & _).
  - eapply rows_evolve_key; eauto.
    + intros x y Hev. unfold provider_key. by rewrite (ie_provider _ _ _ Hev), (ie_provider_id _ _ _ Hev).
    + by intros x (_ & _ & _ & _ & ?).
Qed.

(** ** Runs of the ledger *)
Lemma steps_wf d d' : rtc cap_step d d' -> wf_capacity d -> wf_capacity d'.
Proof.
  induction 1 as [|d d1 d2 Hstep _ IH]; [done|]. intros Hwf. apply IH.
  eapply evolves_wf; [|done]. by apply step_evolves.
Qed.

Lemma steps_action d d' a :
  rtc cap_step d d' -> wf_capacity d -> a ∈ capacity_actions d ->
  exists a', a' ∈ capacity_actions d' /\ ca_id a' = ca_id a /\
    ca_claim_fence a <= ca_claim_fence a'.
Proof.
  intros H. revert a. induction H as [d|d d1 d2 Hstep H IH]; intros a Hwf Ha.
  { exists a. split_and!; auto. lia. }
  pose proof (step_evolves _ _ Hwf Hstep) as Hev.
  destruct (rows_evolve_old _ _ _ _ _ (ev_actions _ _ _ Hev) Ha) as (a1 & Ha1 & E1).
  destruct (IH a1) as (a2 & Ha2 & Hid & Hf); [by eapply evolves_wf|done|].
  exists a2. pose proof (ae_id _ _ E1). pose proof (ae_fence _ _ E1).
  split_and!; [done|congruence|lia].
Qed.

Lemma steps_instance d d' i :
  rtc cap_step d d' -> wf_capacity d -> i ∈ capacity_instances d ->
  exists i', i' ∈ capacity_instances d' /\ ci_id i' = ci_id i /\
    ci_create_action_id i' = ci_create_action_id i /\ provider_key i' = provider_key i /\
    ci_owner_token i' = ci_owner_token i /\ ci_generation i' = ci_generation i.
Proof.
  intros H. revert i. induction H as [d|d d1 d2 Hstep H IH]; intros i Hwf Hi.
  { exists i. split_and!; auto. }
  pose proof (step_evolves _ _ Hwf Hstep) as Hev.
  destruct (rows_evolve_old _ _ _ _ _ (ev_instances _ _ _ Hev) Hi) as (i1 & Hi1 & E1).
  destruct (IH i1) as (i2 & Hi2 & H1 & H2 & H3 & H4 & H5); [by eapply evolves_wf|done|].
  exists i2. destruct E1. unfold provider_key in *. split_and!; congruence.
Qed.

(** What a successful claim returns. *)
Lemma claim_ok owner lease locked clk d c d' :
  wf_capacity d -> ClaimCapacityAction owner lease locked clk d = Ok (Some c, d') ->
  exists a a', a ∈ capacity_actions d /\ a' ∈ capacity_actions d' /\
    ca_id a = cl_id c /\ ca_id a' = cl_id c /\
    ca_claim_fence a' = cl_fence c /\ cl_fence c = ca_claim_fence a + 1 /\
    (forall now, now < clk 0%nat + lease -> fenced c now a').
Proof.
  unfold ClaimCapacityAction. intros Hwf H. inv_ok H.
  destruct (pick _ _) as [a|] eqn:Hp; [|done].
  destruct (find_pool _ _) as [p|]; simplify_eq.
  apply pick_elem, list_elem_of_filter in Hp as [_ Ha].
  exists a, (claim_row (TrimSpace owner) lease (clk 0%nat) a).
  split_and!; try done.
  cbn. apply elem_of_update_where. exists a. split; [done|]. left. done.
Qed.

(** Every operation that presents the claim is refused. *)
Definition claim_rejected (c : CapacityActionClaim) (d : db) : Prop :=
  (forall lease clk r, RenewCapacityAction c lease clk d <> Ok r) /\
  (forall id tok clk r, ReserveCapacityInstance id tok (Some c) clk d <> Ok r) /\
  (forall i ref attrs clk r, RecordCapacityInstanceProvisioned c i ref attrs clk d <> Ok r) /\
  (forall i clk r, ConfirmCapacityInstanceHeartbeat c i clk d <> Ok r) /\
  (forall locked clk r, SelectCapacityInstanceForDrain (Some c) locked clk d <> Ok r) /\
  (forall i clk r, CapacityInstanceDrained c i clk d <> Ok r) /\
  (forall i clk r, BeginCapacityInstanceDelete c i clk d <> Ok r) /\
  (forall i clk r, CompleteCapacityInstanceDelete c i clk d <> Ok r) /\
  (forall detail clk r, RetryCapacityAction c detail clk d <> Ok r).

Lemma unfenced_rejected c d :
  (forall now a, a ∈ capacity_actions d -> ~ fenced c now a) -> claim_rejected c d.
Proof.
  intros Hno.
  assert (forall now, validateCapacityActionFence (Some c) now d <> Ok tt) as Hv.
  { intros now (_ & a & Ha & Hf)%validate_fence_ok. by apply (Hno now a). }
  assert (forall now, count_where (fenced c now) (capacity_actions d) <> 1%nat) as Hc1.
  { intros now. rewrite (proj2 (count_where_zero _ _)); [done|]. intros a. apply Hno. }
  unfold claim_rejected, RenewCapacityAction, ReserveCapacityInstance,
    RecordCapacityInstanceProvisioned, ConfirmCapacityInstanceHeartbeat,
    SelectCapacityInstanceForDrain, CapacityInstanceDrained, BeginCapacityInstanceDelete,
    CompleteCapacityInstanceDelete, RetryCapacityAction.
  split_and!; intros; intros H; repeat inv_ok_step H; first [by eapply Hv|by eapply Hc1].
Qed.

(** A superseded actuator is powerless: once an action has been claimed a
    second time, no operation accepts the first claim any more, in any later
    state of the ledger and whatever the clock says. *)
Theorem superseded_claim_rejected o1 l1 k1 clk1 o2 l2 k2 clk2 (d d1 d2 d3 d4 : db)
    (c1 c2 : CapacityActionClaim)
    (Hwf : wf_capacity d)
    (H1 : ClaimCapacityAction o1 l1 k1 clk1 d = Ok (Some c1, d1)) (R1 : rtc cap_step d1 d2)
    (H2 : ClaimCapacityAction o2 l2 k2 clk2 d2 = Ok (Some c2, d3)) (R2 : rtc cap_step d3 d4)
    (Hid : cl_id c1 = cl_id c2) :
  cl_fence c1 < cl_fence c2 /\ claim_rejected c1 d4.
Proof.
  assert (wf_capacity d1) as W1 by (eapply steps_wf; [apply rtc_once; by econstructor|done]).
  assert (wf_capacity d2) as W2 by (by eapply steps_wf).
  assert (wf_capacity d3) as W3 by (eapply steps_wf; [apply rtc_once; by eapply step_claim|done]).
  assert (wf_capacity d4) as W4 by (by eapply steps_wf).
  apply claim_ok in H1 as (_ & a1 & _ & Ha1 & _ & I1 & F1 & _ & _); [|done].
  apply claim_ok in H2 as (a2 & a3 & Ha2 & Ha3 & I2 & I3 & F3 & F2 & _); [|done].
  destruct (steps_action _ _ _ R1 W1 Ha1) as (a2' & Ha2' & Hi & Hle).
  assert (a2' = a2) as -> by (apply (key_unique ca_id (capacity_actions d2)); [apply W2|done|done|congruence]).
  destruct (steps_action _ _ _ R2 W3 Ha3) as (a4 & Ha4 & Hi4 & Hle4).
  split; [lia|]. apply unfenced_rejected. intros now a Ha (Hida & _ & _ & Hf & _).
  assert (a = a4) as -> by (apply (key_unique ca_id (capacity_actions d4)); [apply W4|done|done|congruence]).
  lia.
Qed.

(** The instance has been handed to its provider for deletion. *)
Definition going (i : capacity_instance) : Prop := ci_state i = IDeleting \/ ci_state i = IDeleted.

Lemma step_going d d' i i' :
  wf_capacity d -> cap_step d d' -> i ∈ capacity_instances d -> i' ∈ capacity_instances d' ->
  ci_id i' = ci_id i -> ~ going i -> going i' ->
  exists c inst clk, BeginCapacityInstanceDelete c inst clk d = Ok d' /\ in_id inst = ci_id i.
Proof.
  intros Hwf Hstep Hi Hi' Hid Hn Hg.
  assert (forall T, evolves T d d' -> instance_evolves T i i') as Hev.
  { intros T [_ He _]. destruct (rows_evolve_old _ _ _ _ _ He Hi) as (x & Hx & Ex).
    assert (wf_capacity d') as W' by (eapply evolves_wf; [by apply step_evolves|done]).
    rewrite <- (key_unique ci_id _ x i' (wf_instance_ids _ W') Hx Hi'); [done|].
    by rewrite (ie_id _ _ _ Ex). }
  destruct (step_cases _ _ Hwf Hstep) as [He|(c & inst & clk & H)].
  - exfalso. destruct (ie_state _ _ _ (Hev _ He)) as [Heq|Hedge].
    + apply Hn. unfold going in *. by rewrite Heq.
    + unfold edge in Hedge. rewrite !elem_of_cons, elem_of_nil in Hedge.
      unfold going in *. naive_solver congruence.
  - exists c, inst, clk. split; [done|]. unfold BeginCapacityInstanceDelete, update_owned in H.
    inv_ok H. subst d'. cbn in Hi'. apply elem_of_update_where in Hi' as (x & Hx & [[Ho ->]|[_ ->]]).
    + cbn in Hid. rewrite <- Hid. symmetry. apply Ho.
    + exfalso. apply Hn. by rewrite <- (key_unique ci_id _ x i (wf_instance_ids _ Hwf) Hx Hi).
Qed.

(** C7. No instance is handed to its provider for deletion while it owns work:
    if an instance that was not being deleted is deleting or deleted after some
    steps of the ledger, then one of those steps was the transaction that began
    the deletion, and in that very state no worker of the instance held a live
    attempt lease or a live phase claim, and the instance was draining under
    the claim's ownership token and generation. *)
Theorem deletion_only_after_drain (d0 dn : db) (i i' : capacity_instance)
    (Hwf : wf_capacity d0) (R : rtc cap_step d0 dn)
    (Hi : i ∈ capacity_instances d0) (Hi' : i' ∈ capacity_instances dn)
    (Hid : ci_id i' = ci_id i) (Hn : ~ going i) (Hg : going i') :
  exists d1 d2 c inst clk, rtc cap_step d0 d1 /\ rtc cap_step d2 dn /\
    BeginCapacityInstanceDelete c inst clk d1 = Ok d2 /\ in_id inst = ci_id i /\
    instance_drained c inst (clk 1%nat) d1.
Proof.
  revert i Hwf Hi Hid Hn. induction R as [d|d d1 dn Hstep R IH]; intros i Hwf Hi Hid Hn.
  { exfalso. apply Hn. by rewrite <- (key_unique ci_id _ i' i (wf_instance_ids _ Hwf) Hi' Hi). }
  pose proof (step_evolves _ _ Hwf Hstep) as Hev.
  assert (wf_capacity d1) as W1 by (by eapply evolves_wf).
  destruct (rows_evolve_old _ _ _ _ _ (ev_instances _ _ _ Hev) Hi) as (x & Hx & Ex).
  pose proof (ie_id _ _ _ Ex) as Hidx.
  destruct (decide (ci_state x = IDeleting \/ ci_state x = IDeleted)) as [Hgx|Hnx].
  - destruct (step_going _ _ _ _ Hwf Hstep Hi Hx Hidx Hn Hgx) as (c & inst & clk & H & Hin).
    exists d, d1, c, inst, clk. split_and!; [done..|].
    unfold BeginCapacityInstanceDelete, capacityInstanceDrainedTx in H. inv_ok H.
    by apply bool_decide_eq_true in Hc.
  - destruct (IH Hi' x W1 Hx) as (e1 & e2 & c & inst & clk & R1 & R2 & H & Hin & Hd);
      [congruence|done|].
    exists e1, e2, c, inst, clk. split_and!; [by eapply rtc_l|done|done|congruence|done].
Qed.

(** A retried scale-up resumes the instance it was bound to instead of
    allocating a second one: once a claim of an action has reserved an
    instance, every later reservation under that action returns the instance
    with the same identifier, provider identifier, owner token and generation,
    and leaves the ledger as it was. *)
Theorem reservation_is_resumed id1 tok1 clk1 id2 tok2 clk2 (d d1 d2 d3 : db)
    (c1 c2 : CapacityActionClaim) (i1 i2 : CapacityInstance)
    (Hwf : wf_capacity d)
    (H1 : ReserveCapacityInstance id1 tok1 (Some c1) clk1 d = Ok (i1, d1))
    (R : rtc cap_step d1 d2)
    (H2 : ReserveCapacityInstance id2 tok2 (Some c2) clk2 d2 = Ok (i2, d3))
    (Hid : cl_id c1 = cl_id c2) :
  in_id i2 = in_id i1 /\ in_provider_instance_id i2 = in_provider_instance_id i1 /\
  in_owner_token i2 = in_owner_token i1 /\ in_generation i2 = in_generation i1 /\ d3 = d2.
Proof.
  assert (exists row, row ∈ capacity_instances d1 /\ ci_create_action_id row = cl_id c1 /\
            i1 = scanCapacityInstance row) as (row & Hrow & Hcreate & ->).
  { unfold ReserveCapacityInstance in H1. do 2 inv_ok_step H1.
    destruct (first_where _ _) as [r|] eqn:Hw; inv_ok H1; simplify_eq.
    - apply first_where_some in Hw as [? ?]. eauto.
    - refine (ex_intro _ _ (conj _ (conj _ eq_refl))); [cbn; set_solver|done]. }
  assert (wf_capacity d1) as W1 by (eapply steps_wf; [apply rtc_once; by eapply step_reserve|done]).
  assert (wf_capacity d2) as W2 by (by eapply steps_wf).
  destruct (steps_instance _ _ _ R W1 Hrow) as (row2 & Hrow2 & Hi2 & Hc2 & Hp2 & Ht2 & Hg2).
  unfold ReserveCapacityInstance in H2. do 2 inv_ok_step H2.
  destruct (first_where _ _) as [r|] eqn:Hw.
  - apply first_where_some in Hw as [Hr Hcr]. simplify_eq.
    assert (r = row2) as -> by (apply (key_unique ci_create_action_id (capacity_instances d3));
      [apply W2|done|done|congruence]).
    cbn. split_and!; congruence.
  - exfalso. apply (first_where_none _ _ Hw row2 Hrow2). congruence.
Qed.

Lemma no_rows_wf d : capacity_actions d = [] -> capacity_instances d = [] -> wf_capacity d.
Proof.
  intros Ha Hi. split; rewrite ?Ha, ?Hi; try apply NoDup_nil_2; unfold one_open; set_solver.
Qed.

(** Every ledger reachable from one without capacity rows is well formed:
    action identifiers are unique and each pool has at most one open action; a
    claimed action has an owner, a lease and a positive fence; instances have
    unique identifiers, owner tokens and provider identities, and no two of
    them were created by the same action. *)
Theorem reachable_ledger_wf (d0 d : db)
    (Ha : capacity_actions d0 = []) (Hi : capacity_instances d0 = [])
    (R : rtc cap_step d0 d) : wf_capacity d.
Proof.
  eapply steps_wf; [done|]. by apply no_rows_wf.
Qed.

(** ** A run of the ledger *)
Definition pool_row_ex : capacity_pool :=
  mkCapacityPool "pve-a" "pve" "default" "amd64" "vm" "desktop" "base" "g1" ["arch:amd64"]
    MActuate 4 0 0 0 0 0 RecHold "" None None 0 0.
Definition worker_row_ex : worker :=
  mkWorker "w1" "builder-1" WActive
    (mkCapabilities None (Some ["arch:amd64"; "capacity-instance:i1"]) None) 1 (Some (50 * Second)) 5 1 0.
Definition ledger_ex : db :=
  empty_db <| capacity_pools := [pool_row_ex] |> <| workers := [worker_row_ex] |>.

Definition db1 : db := (ok_or (mkClaim "" (pool_definition pool_row_ex) ScaleUp 0 0 0 "" "" 0 None, ledger_ex)
  (RequestCapacityAction "a1" "pve-a" "scale-up" 1 0 "" (at_time 1) ledger_ex)).2.
Definition claim_at (d : db) (t : time) : option CapacityActionClaim * db :=
  ok_or (None, d) (ClaimCapacityAction "act" (10 * Second) unlocked (at_time t) d).
Definition db2 : db := (claim_at db1 2).2.
Definition claim1 : CapacityActionClaim := default (mkClaim "" (pool_definition pool_row_ex) ScaleUp 0 0 0 "" "" 0 None)
  (claim_at db1 2).1.
Definition db3 : db := (claim_at db2 20).2.
Definition claim2 : CapacityActionClaim := default claim1 (claim_at db2 20).1.

Lemma ledger_ex_wf d : rtc cap_step ledger_ex d -> wf_capacity d.
Proof. intros H. apply (steps_wf ledger_ex); [done|]. by apply no_rows_wf. Qed.

Lemma db1_step : cap_step ledger_ex db1.
Proof. by eapply (step_request "a1" "pve-a" "scale-up" 1 0 "" (at_time 1)). Qed.

Lemma superseded_claim_rejected_witness :
  cl_fence claim1 < cl_fence claim2 /\ claim_rejected claim1 db3.
Proof.
  apply (superseded_claim_rejected "act" (10 * Second) unlocked (at_time 2)
           "act" (10 * Second) unlocked (at_time 20) db1 db2 db2 db3 db3 claim1 claim2);
    [|vm_compute; reflexivity|apply rtc_refl|vm_compute; reflexivity|apply rtc_refl|vm_compute; reflexivity].
  apply ledger_ex_wf, rtc_once, db1_step.
Defined.

Lemma reachable_ledger_wf_witness : wf_capacity db1 /\ length (capacity_actions db1) = 1%nat.
Proof.
  split; [|vm_compute; reflexivity].
  exact (reachable_ledger_wf ledger_ex db1 eq_refl eq_refl (rtc_once _ _ db1_step)).
Defined.

(** The action's instance is reserved, the claim retried and resumed; the
    instance then reports a heartbeat and is later drained and deleted. *)
Definition reserve_at (id : uuid) (c : CapacityActionClaim) (t : time) (d : db) : result ledger_error (CapacityInstance * db) :=
  ReserveCapacityInstance id ("token-" +:+ id) (Some c) (at_time t) d.
Definition no_instance : CapacityInstance := mkCapacityInstance "" "" "" None "" "" "" 0 IFailed "" ∅.
Definition inst1 : CapacityInstance := (ok_or (no_instance, db2) (reserve_at "i1" claim1 3 db2)).1.
Definition db4 : db := (ok_or (no_instance, db2) (reserve_at "i1" claim1 3 db2)).2.
Definition db5 : db := ok_or db4 (RetryCapacityAction claim1 "timeout" (at_time 4) db4).
Definition claim3 : CapacityActionClaim := default claim1 (claim_at db5 60).1.
Definition db6 : db := (claim_at db5 60).2.
Definition db7 : db := (ok_or (false, db6) (ConfirmCapacityInstanceHeartbeat claim3 inst1 (at_time 61) db6)).2.
Definition db8 : db := (ok_or (claim1, db7)
  (RequestCapacityAction "a2" "pve-a" "scale-down" 0 1 "idle" (at_time 70) db7)).2.
Definition claim4 : CapacityActionClaim := default claim1 (claim_at db8 71).1.
Definition db9 : db := (claim_at db8 71).2.
Definition drained_ex : option CapacityInstance * db :=
  ok_or (None, db9) (SelectCapacityInstanceForDrain (Some claim4) unlocked (at_time 72) db9).
Definition inst2 : CapacityInstance := default no_instance drained_ex.1.
Definition db10 : db := drained_ex.2.
Definition db11 : db := ok_or db10 (BeginCapacityInstanceDelete claim4 inst2 (at_time 73) db10).

Lemma db4_run : rtc cap_step ledger_ex db4.
Proof.
  eapply rtc_l; [apply db1_step|].
  eapply rtc_l; [eapply (step_claim "act" (10 * Second) unlocked (at_time 2) _ (Some claim1)); vm_compute; reflexivity|].
  apply rtc_once. eapply (step_reserve "i1" "token-i1" (Some claim1) (at_time 3) _ inst1).
  vm_compute. reflexivity.
Qed.

Lemma db5_step : cap_step db4 db5.
Proof. eapply (step_retry claim1 "timeout" (at_time 4)). vm_compute. reflexivity. Qed.
Lemma db6_step : cap_step db5 db6.
Proof. eapply (step_claim "act" (10 * Second) unlocked (at_time 60) _ (Some claim3)). vm_compute. reflexivity. Qed.

Lemma db11_run : rtc cap_step db4 db11.
Proof.
  eapply rtc_l; [apply db5_step|]. eapply rtc_l; [apply db6_step|].
  eapply rtc_l; [eapply (step_heartbeat claim3 inst1 (at_time 61) _ true db7); vm_compute; reflexivity|].
  eapply rtc_l; [eapply (step_request "a2" "pve-a" "scale-down" 0 1 "idle" (at_time 70) _ _ db8); vm_compute; reflexivity|].
  eapply rtc_l; [eapply (step_claim "act" (10 * Second) unlocked (at_time 71) _ (Some claim4) db9); vm_compute; reflexivity|].
  eapply rtc_l; [eapply (step_drain (Some claim4) unlocked (at_time 72) _ (Some inst2) db10); vm_compute; reflexivity|].
  apply rtc_once. eapply (step_begin_delete claim4 inst2 (at_time 73)). vm_compute. reflexivity.
Qed.

Lemma reservation_is_resumed_witness :
  in_id inst1 = "i1" /\ in_id (ok_or (no_instance, db6) (reserve_at "i2" claim3 60 db6)).1 = in_id inst1.
Proof.
  split; [vm_compute; reflexivity|].
  refine (proj1 (reservation_is_resumed "i1" "token-i1" (at_time 3) "i2" "token-i2" (at_time 60)
    db2 db4 db6 db6 claim1 claim3 inst1 _ _ _ _ _ _)).
  - apply ledger_ex_wf. eapply rtc_l; [apply db1_step|].
    apply rtc_once. eapply (step_claim "act" (10 * Second) unlocked (at_time 2) _ (Some claim1)).
    vm_compute. reflexivity.
  - vm_compute. reflexivity.
  - eapply rtc_l; [apply db5_step|]. apply rtc_once, db6_step.
  - vm_compute. reflexivity.
  - vm_compute. reflexivity.
Defined.

Definition first_instance (d : db) : capacity_instance :=
  default (mkInstance "" "" "" None "" "" "" 0 IFailed "" ∅ "" None None None 0 0)
    (head (capacity_instances d)).

Lemma deletion_only_after_drain_witness :
  going (first_instance db11) /\
  exists d1 d2 c inst clk, rtc cap_step db4 d1 /\ rtc cap_step d2 db11 /\
    BeginCapacityInstanceDelete c inst clk d1 = Ok d2 /\
    in_id inst = ci_id (first_instance db4) /\ instance_drained c inst (clk 1%nat) d1.
Proof.
  assert (going (first_instance db11)) as Hg by (left; vm_compute; reflexivity).
  split; [exact Hg|].
  refine (deletion_only_after_drain db4 db11 (first_instance db4) (first_instance db11)
    (ledger_ex_wf _ db4_run) db11_run _ _ _ _ Hg).
  - apply (list_elem_of_lookup_2 _ 0). vm_compute. reflexivity.
  - apply (list_elem_of_lookup_2 _ 0). vm_compute. reflexivity.
  - vm_compute. reflexivity.
  - intros [H|H]; vm_compute in H; discriminate.
Defined.
