(* ===== verification/Autoscale.v ===== *)
(** * The autoscaler

    [internal/persistence/autoscale.go]: demand observation, the recommendation
    with cooldown and dwell, and the reconciliation of recommendations into
    capacity actions. *)

From stdpp Require Import pretty.
From S2P Require Import Prelude GoStrings Schema Capabilities CapacityLedger.
Open Scope string_scope.
Open Scope list_scope.
Open Scope Z_scope.

Definition autoscaleScope : string := "phase-executor:global".

Record autoscaleObservation := mkObs {
  activeSlots : Z;
  busySlots : Z;
  backlog : Z;
  unschedulable : Z
}.

Record autoscaleDecisionState := mkDecisionState {
  desired : Z;
  underTarget : option time;
  lastChanged : option time
}.

Record autoscaleDecision := mkDecisionOut {
  decision_state : autoscaleDecisionState;
  recommendation : Recommendation;
  reason : string
}.

Record SchedulerAutoscalePolicy := mkAutoscalePolicy {
  Mode : string;
  MinSlots : Z;
  MaxSlots : Z;
  TargetReady : Z;
  Cooldown : duration;
  ScaleDownDelay : duration;
  Pools : list SchedulerCapacityPoolDefinition;
  ProviderMaxSlots : gmap string Z
}.
#[export] Instance SchedulerAutoscalePolicy_eta : Eta SchedulerAutoscalePolicy := fun p =>
  mkAutoscalePolicy (Mode p) (MinSlots p) (MaxSlots p) (TargetReady p) (Cooldown p)
    (ScaleDownDelay p) (Pools p) (ProviderMaxSlots p).

Definition clampSlots (value minimum maximum : Z) : Z :=
  if decide (value < minimum) then minimum
  else if decide (maximum < value) then maximum
  else value.

(** ** Observed demand *)
Definition phase_executor (now : time) (w : worker) : Prop :=
  fresh_worker now (45 * Second) w /\ cap_role (w_capabilities w) = Some "phase-executor".
#[export] Instance phase_executor_dec now w : Decision (phase_executor now w).
Proof. unfold phase_executor. apply _. Defined.

(** Some fresh worker satisfies the protocol and every required label. *)
Definition schedulable (now : time) (protocol : Z) (required : list string) (d : db) : Prop :=
  exists_row (fun w => fresh_worker now (45 * Second) w /\ protocol <= w_executor_protocol w /\
                       has_labels required w) (workers d).
#[export] Instance schedulable_dec now protocol required d :
  Decision (schedulable now protocol required d).
Proof. unfold schedulable, exists_row. apply _. Defined.

Definition queued_job (j : build_job) : Prop := j_legacy_visible j = true /\ j_state j = "queued".
#[export] Instance queued_job_dec j : Decision (queued_job j).
Proof. unfold queued_job. apply _. Defined.

Definition active_work (s : WorkState) (w : phase_work) : Prop :=
  pw_execution_mode w = ActiveMode /\ pw_state w = s.
#[export] Instance active_work_dec s w : Decision (active_work s w).
Proof. unfold active_work. apply _. Defined.

(** The job of a phase work item, and whether some worker could run the item. *)
Definition work_unschedulable (now : time) (d : db) (w : phase_work) : Prop :=
  exists_row (fun j => j_id j = pw_job_id w /\
    ~ schedulable now (j_minimum_executor_protocol j) (pw_required_capabilities w) d)
    (build_jobs d).
#[export] Instance work_unschedulable_dec now d w : Decision (work_unschedulable now d w).
Proof. unfold work_unschedulable, exists_row. apply _. Defined.

(** Both observation queries, restricted by [sel] to the rows that carry a
    capability label (everything for the deployment, the pool label for a
    pool). *)
Definition observe (sel : list string -> bool) (now : time) (d : db) : autoscaleObservation :=
  mkObs
    (Z.of_nat (count_where (fun w => phase_executor now w /\ sel (w_labels w) = true) (workers d)))
    (Z.of_nat (count_where (fun w => active_work SClaimed w /\
                              sel (pw_required_capabilities w) = true) (phase_work_items d)))
    (Z.of_nat (count_where (fun j => queued_job j /\ sel (j_required_capabilities j) = true)
                 (build_jobs d)) +
     Z.of_nat (count_where (fun w => active_work SReady w /\
                              sel (pw_required_capabilities w) = true) (phase_work_items d)))
    (Z.of_nat (count_where (fun j => queued_job j /\ sel (j_required_capabilities j) = true /\
                 ~ schedulable now (j_minimum_executor_protocol j) (j_required_capabilities j) d)
                 (build_jobs d)) +
     Z.of_nat (count_where (fun w => active_work SReady w /\
                 sel (pw_required_capabilities w) = true /\ work_unschedulable now d w)
                 (phase_work_items d))).

Definition readAutoscaleObservation (now : time) (d : db) : autoscaleObservation :=
  observe (fun _ => true) now d.

Definition readCapacityPoolObservation (poolLabel : string) (now : time) (d : db)
    : autoscaleObservation :=
  observe (fun labels => bool_decide (poolLabel ∈ labels)) now d.

(** ** Policies *)
Inductive autoscale_error : Type :=
| AutoscaleMode
| AutoscalePolicyInvalid
| AutoscaleTooManyPools
| AutoscalePoolIncomplete
| AutoscalePoolDuplicate (id : string)
| AutoscalePoolSelector (id : string)
| AutoscalePoolLabel (id : string)
| AutoscaleProviderLimit (provider : string)
| AutoscaleLedger (e : ledger_error).

Definition pool_complete (pool : SchedulerCapacityPoolDefinition) : Prop :=
  Forall (fun s => TrimSpace s <> "")
    [pd_id pool; pd_provider pool; pd_execution_zone pool; pd_arch pool; pd_profile_id pool;
     pd_image_id pool; pd_image_generation pool].
#[export] Instance pool_complete_dec pool : Decision (pool_complete pool).
Proof. unfold pool_complete. apply _. Defined.

Fixpoint check_pools (policy : SchedulerAutoscalePolicy) (seen : gset string)
    (pools : list SchedulerCapacityPoolDefinition) : result autoscale_error unit :=
  match pools with
  | [] => Ok tt
  | pool :: pools =>
      check pool_complete pool else AutoscalePoolIncomplete;;
      check pd_id pool ∉ seen else AutoscalePoolDuplicate (pd_id pool);;
      match NormalizeExecutorCapabilities (pd_selector pool) with
      | Err _ => Err (AutoscalePoolSelector (pd_id pool))
      | Ok selector =>
          check "capacity-pool:" +:+ pd_id pool ∈ selector else AutoscalePoolLabel (pd_id pool);;
          check ~ (Mode policy = "actuate" /\
                   ~ (0 < default 0 (ProviderMaxSlots policy !! pd_provider pool) <= 10000))
            else AutoscaleProviderLimit (pd_provider pool);;
          check_pools policy ({[pd_id pool]} ∪ seen) pools
      end
  end.

Definition validateAutoscalePolicy (policy : SchedulerAutoscalePolicy) : result autoscale_error unit :=
  check Mode policy = "off" \/ Mode policy = "observe" \/ Mode policy = "actuate"
    else AutoscaleMode;;
  check ~ (MinSlots policy < 0 \/ MaxSlots policy < MinSlots policy \/ TargetReady policy <= 0 \/
           Cooldown policy < 0 \/ ScaleDownDelay policy < 0) else AutoscalePolicyInvalid;;
  check (length (Pools policy) <= 1024)%nat else AutoscaleTooManyPools;;
  check_pools policy ∅ (Pools policy).

(** ** The decision *)
Definition schedulableBacklog (observation : autoscaleObservation) : Z :=
  Z.max 0 (backlog observation - unschedulable observation).

Definition rawDesired (policy : SchedulerAutoscalePolicy) (observation : autoscaleObservation) : Z :=
  clampSlots (busySlots observation +
      Z.quot (schedulableBacklog observation + TargetReady policy - 1) (TargetReady policy))
    (MinSlots policy) (MaxSlots policy).

Definition decideAutoscale (observation : autoscaleObservation)
    (policy : SchedulerAutoscalePolicy) (now : time) (state : autoscaleDecisionState)
    : autoscaleDecision :=
  let rawDesired := rawDesired policy observation in
  let why := "busy=" +:+ pretty (busySlots observation) +:+ " schedulable_backlog=" +:+
    pretty (schedulableBacklog observation) +:+ " target_ready_per_slot=" +:+ pretty (TargetReady policy) in
  let cooldownReady := match lastChanged state with
    | None => true | Some t => bool_decide (Cooldown policy <= now - t) end in
  let recommend s :=
    if decide (activeSlots observation < desired s) then RecScaleUp
    else if decide (desired s < activeSlots observation) then RecScaleDown
    else RecHold in
  if decide (Mode policy = "off") then
    mkDecisionOut (mkDecisionState (activeSlots observation) None (lastChanged state)) RecOff why
  else if decide (desired state < rawDesired) then
    if cooldownReady
    then let s := mkDecisionState rawDesired None (Some now) in mkDecisionOut s (recommend s) why
    else let s := mkDecisionState (desired state) None (lastChanged state) in
         mkDecisionOut s (recommend s) (why +:+ "; scale-up cooldown active")
  else if decide (rawDesired < desired state) then
    let since := default now (underTarget state) in
    if cooldownReady && bool_decide (ScaleDownDelay policy <= now - since)
    then let s := mkDecisionState rawDesired None (Some now) in mkDecisionOut s (recommend s) why
    else let s := mkDecisionState (desired state) (Some since) (lastChanged state) in
         mkDecisionOut s (recommend s) (why +:+ "; scale-down dwell active")
  else let s := mkDecisionState (desired state) None (lastChanged state) in
       mkDecisionOut s (recommend s) why.

(** ** Pools *)
Record SchedulerCapacityPoolStatus := mkPoolStatus {
  ps_pool : SchedulerCapacityPoolDefinition;
  ps_provider_max_slots : Z;
  ps_mode : ScaleMode;
  ps_active_slots : Z;
  ps_busy_slots : Z;
  ps_backlog : Z;
  ps_unschedulable_backlog : Z;
  ps_desired_slots : Z;
  ps_recommendation : Recommendation;
  ps_reason : string;
  ps_under_target_since : option time;
  ps_last_changed_at : option time;
  ps_last_evaluated_at : option time
}.
Definition ps_id (p : SchedulerCapacityPoolStatus) : string := pd_id (ps_pool p).
Definition ps_provider (p : SchedulerCapacityPoolStatus) : string := pd_provider (ps_pool p).

(** The mode column of a validated policy. *)
Definition mode_column (mode : string) : ScaleMode :=
  if decide (mode = "off") then MOff else if decide (mode = "observe") then MObserve else MActuate.

(** The pool row of an evaluation. *)
Definition pool_row (pool : SchedulerCapacityPoolDefinition) (mode : ScaleMode) (limit : Z)
    (o : autoscaleObservation) (dec : autoscaleDecision) (now : time) : capacity_pool :=
  mkCapacityPool (pd_id pool) (pd_provider pool) (pd_execution_zone pool) (pd_arch pool)
    (pd_build_mode pool) (pd_profile_id pool) (pd_image_id pool) (pd_image_generation pool)
    (pd_selector pool) mode limit (activeSlots o) (busySlots o) (backlog o) (unschedulable o)
    (desired (decision_state dec)) (recommendation dec) (reason dec)
    (underTarget (decision_state dec)) (lastChanged (decision_state dec)) now now.

Definition pool_status (p : capacity_pool) : SchedulerCapacityPoolStatus :=
  mkPoolStatus (pool_definition p) (cp_provider_max_slots p) (cp_mode p) (cp_active_slots p)
    (cp_busy_slots p) (cp_backlog p) (cp_unschedulable_backlog p) (cp_desired_slots p)
    (cp_recommendation p) (cp_reason p) (cp_under_target_since p) (cp_last_changed_at p)
    (Some (cp_last_evaluated_at p)).

Definition pool_decision_state (p : capacity_pool) : autoscaleDecisionState :=
  mkDecisionState (cp_desired_slots p) (cp_under_target_since p) (cp_last_changed_at p).

(** The pool is observed at [seen] and evaluated at [now]. *)
Definition reconcileCapacityPool (pool : SchedulerCapacityPoolDefinition)
    (policy : SchedulerAutoscalePolicy) (now seen : time) (d : db)
    : SchedulerCapacityPoolStatus * db :=
  let observation := readCapacityPoolObservation ("capacity-pool:" +:+ pd_id pool) seen d in
  let poolPolicy := policy <| MinSlots := 0 |> in
  let providerMaxSlots := default 0 (ProviderMaxSlots policy !! pd_provider pool) in
  let mode := mode_column (Mode policy) in
  let initialDesired := clampSlots (activeSlots observation) 0 (MaxSlots policy) in
  let '(current, d) := match find_pool (pd_id pool) d with
    | Some p => (p, d)
    | None =>
        let p := pool_row pool mode providerMaxSlots observation
          (mkDecisionOut (mkDecisionState initialDesired None None) RecHold "initial observation") now in
        (p, d <| capacity_pools := capacity_pools d ++ [p] |>)
    end in
  let decision := decideAutoscale observation poolPolicy now (pool_decision_state current) in
  let row := pool_row pool mode providerMaxSlots observation decision now in
  (mkPoolStatus pool providerMaxSlots mode (activeSlots observation) (busySlots observation)
     (backlog observation) (unschedulable observation) (desired (decision_state decision))
     (recommendation decision) (reason decision) (underTarget (decision_state decision))
     (lastChanged (decision_state decision)) (Some now),
   d <| capacity_pools :=
     update_where (fun p => cp_pool_id p = pd_id pool) (fun _ => row) (capacity_pools d) |>).

(** ** Turning recommendations into actions *)
Definition demand_order : order SchedulerCapacityPoolStatus :=
  then_by (desc (by_key ps_unschedulable_backlog))
    (then_by (desc (by_key ps_backlog)) (by_str ps_id)).

Definition pending_scale_up (a : capacity_action) : Prop :=
  ca_kind a = ScaleUp /\ ca_state a ∈ [AClaimed; AWaitingForHeartbeat].
#[export] Instance pending_scale_up_dec a : Decision (pending_scale_up a).
Proof. unfold pending_scale_up. apply _. Defined.

Definition pool_has_provider (provider : string) (d : db) (a : capacity_action) : Prop :=
  exists_row (fun p => cp_pool_id p = ca_pool_id a /\ cp_provider p = provider) (capacity_pools d).
#[export] Instance pool_has_provider_dec provider d a : Decision (pool_has_provider provider d a).
Proof. unfold pool_has_provider, exists_row. apply _. Defined.

Definition provider_budget (now : time) (d : db) (provider : string) (limit : Z) : Z :=
  let active := Z.of_nat (count_where (fun w => phase_executor now w /\
                  "provider:" +:+ provider ∈ w_labels w) (workers d)) in
  let pending := Z.of_nat (count_where (fun a => pending_scale_up a /\
                   pool_has_provider provider d a) (capacity_actions d)) in
  Z.max 0 (limit - active - pending).

(** One pass over the ordered pools: pool [k] uses the fresh identifier
    [ids k] and the clock [clk k]. *)
Fixpoint reconcile_pools (scaleUpBudget scaleDownBudget : Z) (providerBudgets : gmap string Z)
    (ids : nat -> uuid) (clk : clock) (ordered : list SchedulerCapacityPoolStatus) (d : db)
    : result ledger_error db :=
  match ordered with
  | [] => Ok d
  | pool :: ordered =>
      let provider := default 0 (providerBudgets !! ps_provider pool) in
      let next := (fun k => ids (S k)) in
      let later := (fun k => clk (S k)) in
      if decide (ps_recommendation pool = RecScaleUp /\ 0 < scaleUpBudget /\ 0 < provider) then
        let! d := requestCapacityActionTx (ids 0%nat) (ps_id pool) ScaleUp (ps_desired_slots pool)
                    (ps_active_slots pool) (ps_reason pool) (clk 0%nat) d in
        reconcile_pools (scaleUpBudget - 1) scaleDownBudget
          (<[ps_provider pool := provider - 1]> providerBudgets) next later ordered d
      else if decide (ps_recommendation pool = RecScaleDown /\ 0 < scaleDownBudget) then
        let! d := requestCapacityActionTx (ids 0%nat) (ps_id pool) ScaleDown (ps_desired_slots pool)
                    (ps_active_slots pool) (ps_reason pool) (clk 0%nat) d in
        reconcile_pools scaleUpBudget (scaleDownBudget - 1) providerBudgets next later ordered d
      else
        reconcile_pools scaleUpBudget scaleDownBudget providerBudgets next later ordered
          (cancelRequestedCapacityActionTx (ps_id pool)
             "pool recommendation no longer has global capacity budget" (clk 0%nat) d)
  end.

Fixpoint cancel_pools (clk : clock) (pools : list SchedulerCapacityPoolStatus) (d : db) : db :=
  match pools with
  | [] => d
  | pool :: pools =>
      cancel_pools (fun k => clk (S k)) pools
        (cancelRequestedCapacityActionTx (ps_id pool) "autoscale actuation is disabled" (clk 0%nat) d)
  end.

Definition pendingScaleUp (d : db) : Z := Z.of_nat (count_where pending_scale_up (capacity_actions d)).

(** The provider queries run at [seen provider]. *)
Definition reconcileCapacityActionsTx (policy : SchedulerAutoscalePolicy)
    (pools : list SchedulerCapacityPoolStatus) (active : Z) (ids : nat -> uuid)
    (seen : string -> time) (clk : clock) (d : db) : result ledger_error db :=
  let d := reopenBoundCapacityActionsTx (clk 0%nat) d in
  let later := (fun k => clk (S k)) in
  if decide (Mode policy = "actuate") then
    let scaleUpBudget := Z.max 0 (MaxSlots policy - active - pendingScaleUp d) in
    let scaleDownBudget := Z.max 0 (active - MinSlots policy) in
    let providerBudgets := map_imap (fun provider limit =>
      Some (provider_budget (seen provider) d provider limit)) (ProviderMaxSlots policy) in
    reconcile_pools scaleUpBudget scaleDownBudget providerBudgets ids later
      (sort_by demand_order pools) d
  else Ok (cancel_pools later pools d).

(** ** The reconciliation transaction *)
Record CapacityActionStatus := mkActionStatus {
  xs_id : uuid; xs_pool_id : string; xs_kind : ActionKind; xs_state : ActionState;
  xs_requested_slots : Z; xs_observed_slots : Z; xs_attempts : Z; xs_failure_detail : string;
  xs_requested_at : time; xs_updated_at : time; xs_completed_at : option time
}.

Record CapacityInstanceStatus := mkInstanceStatus {
  is_id : uuid; is_pool_id : string; is_provider : string; is_provider_instance_id : string;
  is_generation : Z; is_state : InstanceState; is_attributes : gmap string string;
  is_heartbeat_observed_at : option time; is_drain_requested_at : option time;
  is_created_at : time; is_updated_at : time
}.

Record CapacityActuatorStatus := mkActuatorStatus {
  OpenActions : Z;
  FailedActions : Z;
  ProvisioningInstances : Z;
  ActiveInstances : Z;
  DrainingInstances : Z;
  DeletingInstances : Z;
  Actions : list CapacityActionStatus;
  Instances : list CapacityInstanceStatus
}.

Record SchedulerAutoscaleStatus := mkAutoscaleStatus {
  au_scope : string;
  au_mode : ScaleMode;
  au_active_slots : Z;
  au_busy_slots : Z;
  au_backlog : Z;
  au_unschedulable_backlog : Z;
  au_desired_slots : Z;
  au_recommendation : Recommendation;
  au_reason : string;
  au_under_target_since : option time;
  au_last_changed_at : option time;
  au_last_evaluated_at : option time;
  au_pools : list SchedulerCapacityPoolStatus;
  au_actuator : CapacityActuatorStatus
}.

Definition no_actuator_status : CapacityActuatorStatus := mkActuatorStatus 0 0 0 0 0 0 [] [].

Definition state_row (mode : ScaleMode) (o : autoscaleObservation) (dec : autoscaleDecision)
    (now : time) : autoscale_state :=
  mkAutoscale autoscaleScope mode (activeSlots o) (busySlots o) (backlog o) (unschedulable o)
    (desired (decision_state dec)) (recommendation dec) (reason dec)
    (underTarget (decision_state dec)) (lastChanged (decision_state dec)) now now.

Definition state_decision_state (s : autoscale_state) : autoscaleDecisionState :=
  mkDecisionState (as_desired_slots s) (as_under_target_since s) (as_last_changed_at s).

Definition status_of (s : autoscale_state) (pools : list SchedulerCapacityPoolStatus)
    (actuator : CapacityActuatorStatus) : SchedulerAutoscaleStatus :=
  mkAutoscaleStatus (as_scope s) (as_mode s) (as_active_slots s) (as_busy_slots s) (as_backlog s)
    (as_unschedulable_backlog s) (as_desired_slots s) (as_recommendation s) (as_reason s)
    (as_under_target_since s) (as_last_changed_at s) (Some (as_last_evaluated_at s)) pools actuator.

Fixpoint reconcile_all_pools (policy : SchedulerAutoscalePolicy) (now : time) (clk : clock)
    (pools : list SchedulerCapacityPoolDefinition) (d : db)
    : list SchedulerCapacityPoolStatus * db :=
  match pools with
  | [] => ([], d)
  | pool :: pools =>
      let '(status, d) := reconcileCapacityPool pool policy now (clk 0%nat) d in
      let '(rest, d) := reconcile_all_pools policy now (fun k => clk (S k)) pools d in
      (status :: rest, d)
  end.

(** Statement times: the deployment observation, the evaluation time, one
    observation per pool, then the action statements. *)
Definition ReconcileAutoscaling (policy : SchedulerAutoscalePolicy) (ids : nat -> uuid)
    (seen : string -> time) (clk : clock) (d : db)
    : result autoscale_error (SchedulerAutoscaleStatus * db) :=
  let! _ := validateAutoscalePolicy policy in
  let observation := readAutoscaleObservation (clk 0%nat) d in
  let now := clk 1%nat in
  let initialDesired := clampSlots (activeSlots observation) (MinSlots policy) (MaxSlots policy) in
  let mode := mode_column (Mode policy) in
  let '(current, d) := match first_where (fun s => as_scope s = autoscaleScope) (autoscale_states d) with
    | Some s => (s, d)
    | None =>
        let s := state_row mode observation
          (mkDecisionOut (mkDecisionState initialDesired None None) RecHold "initial observation") now in
        (s, d <| autoscale_states := autoscale_states d ++ [s] |>)
    end in
  let decision := decideAutoscale observation policy now (state_decision_state current) in
  let row := state_row mode observation decision now in
  let d := d <| autoscale_states :=
    update_where (fun s => as_scope s = autoscaleScope) (fun _ => row) (autoscale_states d) |> in
  let '(pools, d) := reconcile_all_pools policy now (fun k => clk (2 + k)%nat) (Pools policy) d in
  match reconcileCapacityActionsTx policy pools (activeSlots observation) ids seen
          (fun k => clk (2 + length (Pools policy) + k)%nat) d with
  | Err e => Err (AutoscaleLedger e)
  | Ok d => Ok (status_of row pools no_actuator_status, d)
  end.

(** ** Runtime status *)
Definition readCapacityPoolRuntimeStatus (d : db) : list SchedulerCapacityPoolStatus :=
  pool_status <$> sort_by (then_by (by_str cp_provider) (then_by (by_str cp_execution_zone)
    (then_by (by_str cp_architecture) (then_by (by_str cp_profile_id) (by_str cp_pool_id)))))
    (capacity_pools d).

Definition readCapacityActionRuntimeStatus (d : db) : list CapacityActionStatus :=
  (fun a => mkActionStatus (ca_id a) (ca_pool_id a) (ca_kind a) (ca_state a) (ca_requested_slots a)
     (ca_observed_slots a) (ca_attempts a) (ca_failure_detail a) (ca_requested_at a)
     (ca_updated_at a) (ca_completed_at a)) <$>
  take 50 (sort_by (then_by (desc (by_key ca_requested_at)) (desc (by_str ca_id)))
             (capacity_actions d)).

Definition readCapacityInstanceRuntimeStatus (now : time) (d : db) : list CapacityInstanceStatus :=
  (fun i => mkInstanceStatus (ci_id i) (ci_pool_id i) (ci_provider i) (ci_provider_instance_id i)
     (ci_generation i) (ci_state i) (ci_attributes i) (ci_heartbeat_observed_at i)
     (ci_drain_requested_at i) (ci_created_at i) (ci_updated_at i)) <$>
  take 100 (sort_by (then_by (desc (by_key ci_created_at)) (desc (by_str ci_id)))
    (filter (fun i => ci_state i <> IDeleted \/ later_than (ci_deleted_at i) (now - 24 * Hour))
       (capacity_instances d))).

Definition readCapacityActuatorRuntimeStatus (now : time) (d : db) : CapacityActuatorStatus :=
  let in_state s := Z.of_nat (count_where (fun i => ci_state i = s) (capacity_instances d)) in
  mkActuatorStatus (Z.of_nat (count_where open_action (capacity_actions d)))
    (Z.of_nat (count_where (fun a => ca_state a = AFailed) (capacity_actions d)))
    (in_state IProvisioning) (in_state IActive) (in_state IDraining) (in_state IDeleting)
    (readCapacityActionRuntimeStatus d) (readCapacityInstanceRuntimeStatus now d).

Definition readAutoscaleRuntimeStatus (now : time) (d : db) : SchedulerAutoscaleStatus :=
  match first_where (fun s => as_scope s = autoscaleScope) (autoscale_states d) with
  | None =>
      mkAutoscaleStatus autoscaleScope MOff 0 0 0 0 0 RecOff
        "autoscale observer has not evaluated this deployment" None None None [] no_actuator_status
  | Some s => status_of s (readCapacityPoolRuntimeStatus d) (readCapacityActuatorRuntimeStatus now d)
  end.

(** ** Damping

    The evaluations of one scope, as a sequence of observations with their
    times. *)
Definition evaluation : Type := autoscaleObservation * time.
Definition evaluate (policy : SchedulerAutoscalePolicy) (s : autoscaleDecisionState)
    (ev : evaluation) : autoscaleDecisionState :=
  decision_state (decideAutoscale ev.1 policy ev.2 s).
Definition evaluations (policy : SchedulerAutoscalePolicy) (s : autoscaleDecisionState)
    (evs : list evaluation) : autoscaleDecisionState := foldl (evaluate policy) s evs.

Definition cooled (policy : SchedulerAutoscalePolicy) (now : time) (s : autoscaleDecisionState) : Prop :=
  forall t, lastChanged s = Some t -> Cooldown policy <= now - t.

(** The four outcomes of an evaluation when the autoscaler is not off. *)
Lemma evaluate_cases policy s ev : Mode policy <> "off" ->
  let s' := evaluate policy s ev in
  let raw := rawDesired policy ev.1 in
  (desired s < raw /\ cooled policy ev.2 s /\ s' = mkDecisionState raw None (Some ev.2)) \/
  (raw < desired s /\ cooled policy ev.2 s /\
     ScaleDownDelay policy <= ev.2 - default ev.2 (underTarget s) /\
     s' = mkDecisionState raw None (Some ev.2)) \/
  (raw < desired s /\
     s' = mkDecisionState (desired s) (Some (default ev.2 (underTarget s))) (lastChanged s)) \/
  (desired s <= raw /\ s' = mkDecisionState (desired s) None (lastChanged s)).
Proof.
  intros Hmode. cbv zeta. destruct ev as [o now]. unfold evaluate, decideAutoscale, cooled. simpl.
  rewrite decide_False by done.
  assert (forall b : bool, (match lastChanged s with
      | None => true | Some t => bool_decide (Cooldown policy <= now - t) end) = b ->
    b = true -> forall t, lastChanged s = Some t -> Cooldown policy <= now - t) as Hcool.
  { intros b Hb -> t Ht. rewrite Ht in Hb. by apply bool_decide_eq_true in Hb. }
  destruct (match lastChanged s with None => true | Some t => _ end) eqn:Hc;
    specialize (Hcool _ eq_refl);
    repeat (case_decide || case_bool_decide || simpl); naive_solver lia.
Qed.

Lemma clampSlots_range v lo hi : lo <= hi -> lo <= clampSlots v lo hi <= hi.
Proof. intros H. unfold clampSlots. repeat case_decide; lia. Qed.

Lemma evaluations_last_changed policy s evs t0 t : Mode policy <> "off" ->
  lastChanged s = Some t0 -> t <= t0 -> (forall ev, ev ∈ evs -> t <= ev.2) ->
  exists t1, lastChanged (evaluations policy s evs) = Some t1 /\ t <= t1.
Proof.
  intros Hm. revert s t0. induction evs as [|ev evs IH]; intros s t0 Hs Ht Hevs; [by exists t0|].
  cbn. assert (t <= ev.2) by (apply Hevs; set_solver).
  destruct (evaluate_cases policy s ev Hm) as [(_ & _ & ->)|[(_ & _ & _ & ->)|[(_ & ->)|(_ & ->)]]];
    (eapply IH; [done| |]; [done|]; intros; apply Hevs; set_solver).
Qed.

(** The autoscaler never leaves its bounds and changes its mind at most
    once per cooldown: in any sequence of evaluations under a valid policy in
    the observe or actuate mode, desired slots that start within the minimum
    and the maximum stay within them, and when two evaluations both change the
    desired slots, the second happens at least the cooldown after the first. *)
Theorem desired_slots_damped policy (s : autoscaleDecisionState) (before : list evaluation)
    (ev1 : evaluation) (between : list evaluation) (ev2 : evaluation)
    (Hvalid : validateAutoscalePolicy policy = Ok tt) (Hm : Mode policy <> "off")
    (Hrange : MinSlots policy <= desired s <= MaxSlots policy)
    (Htimes : forall ev, ev ∈ between -> ev1.2 <= ev.2) :
  let s1 := evaluations policy s before in
  let s2 := evaluations policy s (before ++ [ev1]) in
  let s3 := evaluations policy s (before ++ [ev1] ++ between) in
  let s4 := evaluations policy s (before ++ [ev1] ++ between ++ [ev2]) in
  (MinSlots policy <= desired s4 <= MaxSlots policy) /\
  (desired s2 <> desired s1 -> desired s4 <> desired s3 -> Cooldown policy <= ev2.2 - ev1.2).
Proof.
  cbv zeta. unfold validateAutoscalePolicy in Hvalid. inv_ok Hvalid.
  unfold evaluations. rewrite !foldl_app. cbn [foldl]. fold (evaluations policy s before).
  set (s1 := evaluations policy s before). fold (evaluations policy (evaluate policy s1 ev1) between).
  set (s3 := evaluations policy (evaluate policy s1 ev1) between). split.
  - assert (forall s0 ev, MinSlots policy <= desired s0 <= MaxSlots policy ->
      MinSlots policy <= desired (evaluate policy s0 ev) <= MaxSlots policy) as Hstep.
    { intros s0 ev H0. assert (MinSlots policy <= rawDesired policy ev.1 <= MaxSlots policy)
        by (apply clampSlots_range; lia).
      destruct (evaluate_cases policy s0 ev Hm) as [(_ & _ & ->)|[(_ & _ & _ & ->)|[(_ & ->)|(_ & ->)]]]; done. }
    assert (forall evs s0, MinSlots policy <= desired s0 <= MaxSlots policy ->
      MinSlots policy <= desired (evaluations policy s0 evs) <= MaxSlots policy) as Hall.
    { induction evs as [|ev evs IH]; intros s0 H0; [done|]. cbn. by apply IH, Hstep. }
    by apply Hstep, Hall, Hstep, Hall.
  - intros Hch1 Hch2.
    assert (lastChanged (evaluate policy s1 ev1) = Some ev1.2) as Hl.
    { destruct (evaluate_cases policy s1 ev1 Hm) as [(_ & _ & ->)|[(_ & _ & _ & ->)|[(_ & Heq)|(_ & Heq)]]];
        [done|done|by rewrite Heq in Hch1..]. }
    destruct (evaluations_last_changed policy _ between ev1.2 ev1.2 Hm Hl ltac:(lia) Htimes) as (t1 & Ht1 & Hle).
    destruct (evaluate_cases policy s3 ev2 Hm) as [(_ & Hcool & _)|[(_ & Hcool & _)|[(_ & Heq)|(_ & Heq)]]];
      [specialize (Hcool _ Ht1); lia|specialize (Hcool _ Ht1); lia|by rewrite Heq in Hch2..].
Qed.

(** The current under-target interval is a suffix of the evaluations, all of
    which wanted fewer slots than are desired now. *)
Definition under_target_since (policy : SchedulerAutoscalePolicy) (evs : list evaluation)
    (since : time) (slots : Z) : Prop :=
  exists pre o suf, evs = pre ++ (o, since) :: suf /\
    forall ev, ev ∈ (o, since) :: suf -> rawDesired policy ev.1 < slots.

Lemma under_target_snoc policy evs ev s : Mode policy <> "off" ->
  rawDesired policy ev.1 < desired s ->
  (forall t, underTarget s = Some t -> under_target_since policy evs t (desired s)) ->
  under_target_since policy (evs ++ [ev]) (default ev.2 (underTarget s)) (desired s).
Proof.
  intros Hm Hraw Hinv. destruct (underTarget s) as [t|] eqn:Ht; simpl.
  - destruct (Hinv t eq_refl) as (pre & o & suf & -> & Hall).
    exists pre, o, (suf ++ [ev]). rewrite <- app_assoc. split; [done|].
    intros ev' [Hin|Hin]%elem_of_cons; [subst; apply Hall; set_solver|].
    apply elem_of_app in Hin as [?| ->%list_elem_of_singleton]; [apply Hall; set_solver|done].
  - exists evs, ev.1, []. split; [by destruct ev|]. intros ev' ->%list_elem_of_singleton. done.
Qed.

Lemma under_target_invariant policy s evs : Mode policy <> "off" -> underTarget s = None ->
  forall t, underTarget (evaluations policy s evs) = Some t ->
    under_target_since policy evs t (desired (evaluations policy s evs)).
Proof.
  intros Hm Hs. induction evs as [|ev evs IH] using rev_ind; [cbn; congruence|].
  unfold evaluations in *. rewrite foldl_app. cbn [foldl]. set (s' := foldl _ s evs) in *.
  intros t Ht.
  destruct (evaluate_cases policy s' ev Hm) as [(_ & _ & Heq)|[(_ & _ & _ & Heq)|[(Hraw & Heq)|(_ & Heq)]]];
    rewrite Heq in *; cbn in *; try discriminate.
  injection Ht as <-. by apply under_target_snoc.
Qed.

(** Capacity is only given up after sustained low demand: when an
    evaluation lowers the desired slots in the observe or actuate mode, the
    sequence of evaluations ends with an interval at least the scale-down delay
    long in which every single evaluation wanted fewer slots than were
    desired. *)
Theorem scale_down_only_after_dwell policy (s : autoscaleDecisionState) (evs : list evaluation)
    (ev : evaluation) (Hm : Mode policy <> "off") (Hs : underTarget s = None)
    (Hdown : desired (evaluations policy s (evs ++ [ev])) < desired (evaluations policy s evs)) :
  exists since, ScaleDownDelay policy <= ev.2 - since /\
    under_target_since policy (evs ++ [ev]) since (desired (evaluations policy s evs)).
Proof.
  pose proof (under_target_invariant policy s evs Hm Hs) as Hinv.
  unfold evaluations in *. rewrite foldl_app in Hdown. cbn [foldl] in Hdown.
  set (s' := foldl _ s evs) in *.
  destruct (evaluate_cases policy s' ev Hm) as [(? & _ & Heq)|[(Hraw & _ & Hd & Heq)|[(? & Heq)|(? & Heq)]]];
    rewrite Heq in Hdown; cbn in Hdown; try lia.
  exists (default ev.2 (underTarget s')). split; [done|]. by apply under_target_snoc.
Qed.

(** Witness runs. *)
Definition policy_ex : SchedulerAutoscalePolicy :=
  mkAutoscalePolicy "observe" 1 8 2 (60 * Second) (300 * Second) [] ∅.
Definition busy_ex (busy waiting : Z) (t : Z) : evaluation := (mkObs 2 busy waiting 0, t * Second).

Lemma desired_slots_damped_witness :
  let s t := evaluations policy_ex (mkDecisionState 1 None None) t in
  (1 <= desired (s [busy_ex 2 4 0; busy_ex 2 9 30; busy_ex 2 9 60]) <= 8) /\
  (desired (s [busy_ex 2 4 0]) = 4 /\ desired (s [busy_ex 2 4 0; busy_ex 2 9 30]) = 4 /\
   desired (s [busy_ex 2 4 0; busy_ex 2 9 30; busy_ex 2 9 60]) = 7) /\
  60 * Second <= 60 * Second - 0.
Proof.
  cbv zeta.
  pose proof (desired_slots_damped policy_ex (mkDecisionState 1 None None) [] (busy_ex 2 4 0)
    [busy_ex 2 9 30] (busy_ex 2 9 60) eq_refl) as H.
  destruct H as [H1 H2].
  - discriminate.
  - cbn. lia.
  - intros ev ->%list_elem_of_singleton. vm_compute. discriminate.
  - split; [exact H1|]. split; [vm_compute; done|]. apply H2; vm_compute; discriminate.
Defined.

Lemma scale_down_only_after_dwell_witness :
  let evs := [busy_ex 1 0 0; busy_ex 0 0 100; busy_ex 1 1 200] in
  exists since, 300 * Second <= 300 * Second - since /\
    under_target_since policy_ex (evs ++ [busy_ex 0 0 300]) since 4.
Proof.
  apply (scale_down_only_after_dwell policy_ex (mkDecisionState 4 None None)
           [busy_ex 1 0 0; busy_ex 0 0 100; busy_ex 1 1 200] (busy_ex 0 0 300)).
  - discriminate.
  - reflexivity.
  - vm_compute. reflexivity.
Defined.

(** ** The deployment-wide ceiling *)
Definition requested_scale_up (a : capacity_action) : Prop :=
  ca_kind a = ScaleUp /\ ca_state a = ARequested.
#[export] Instance requested_scale_up_dec a : Decision (requested_scale_up a).
Proof. unfold requested_scale_up. apply _. Defined.

(** Requested scale-ups of the pools outside [todo]. *)
Definition settled_requests (todo : list string) (d : db) : nat :=
  count_where (fun a => requested_scale_up a /\ (ca_pool_id a ∉ todo)) (capacity_actions d).

(** No requested scale-up of a pool in [todo] is bound to an instance. *)
Definition unbound_requests (todo : list string) (d : db) : Prop :=
  forall a, a ∈ capacity_actions d -> requested_scale_up a -> ca_pool_id a ∈ todo -> ~ bound d a.

(** What one statement of the pass does to the other pools and to the
    pending actions. *)
Record pass_step (pool : string) (d d' : db) : Prop := {
  pt_wf : wf_capacity d';
  pt_instances : capacity_instances d' = capacity_instances d;
  pt_others : filter (fun a => ca_pool_id a <> pool) (capacity_actions d') =
              filter (fun a => ca_pool_id a <> pool) (capacity_actions d);
  pt_pending : count_where pending_scale_up (capacity_actions d') =
               count_where pending_scale_up (capacity_actions d)
}.

Lemma request_cases id pool kind rs os reason now d d' :
  requestCapacityActionTx id pool kind rs os reason now d = Ok d' ->
  (exists e, e ∈ capacity_actions d /\ open_for pool e /\
     d' = d <| capacity_actions :=
       update_where (fun a => ca_id a = ca_id e /\ ca_state a = ARequested /\ ~ bound d a)
         (refresh_row kind rs os (truncate_detail reason) now) (capacity_actions d) |>) \/
  ((forall a, a ∈ capacity_actions d -> ~ open_for pool a) /\
     d' = d <| capacity_actions := capacity_actions d ++
       [new_action id pool kind rs os 1 (truncate_detail reason) now] |>).
Proof.
  unfold requestCapacityActionTx, insert_action. intros H.
  destruct (first_where _ _) as [e|] eqn:Hw.
  - left. exists e. apply first_where_some in Hw as [? ?]. by simplify_eq.
  - right. split; [exact (first_where_none _ _ Hw)|]. change (ca_pool_id _) with pool in H. rewrite ?Hw in H.
    inv_ok H. inv_ok E. by simplify_eq.
Qed.

Lemma refresh_pass id pool kind rs os reason now d d' : wf_capacity d ->
  requestCapacityActionTx id pool kind rs os reason now d = Ok d' -> pass_step pool d d'.
Proof.
  intros Hwf H. assert (wf_capacity d') as Hwf'.
  { eapply steps_wf; [apply rtc_once; by eapply step_refresh|done]. }
  apply request_cases in H as [(e & He & [Hp _] & ->)|[_ ->]]; split; [done|done| | |done|done|..]; cbn.
  - apply filter_update_where. intros a Ha (Hid & _ & _).
    rewrite (key_unique ca_id _ _ _ (wf_action_ids _ Hwf) Ha He Hid). cbn. tauto.
  - apply count_where_update. intros a _ (_ & Hs & _). unfold pending_scale_up. cbn.
    rewrite Hs. set_solver.
  - rewrite filter_app, filter_cons_False, filter_nil, app_nil_r by (cbn; tauto). done.
  - rewrite count_where_app, count_where_cons, decide_False; [unfold count_where; cbn; lia|].
    unfold pending_scale_up. cbn. set_solver.
Qed.

Lemma cancel_pass pool reason now d : wf_capacity d ->
  pass_step pool d (cancelRequestedCapacityActionTx pool reason now d).
Proof.
  intros Hwf. split; cbn; [|done|..].
  - eapply steps_wf; [apply rtc_once; apply step_cancel|done].
  - apply filter_update_where. cbn. tauto.
  - apply count_where_update. intros a _ (_ & Hs & _). unfold pending_scale_up. cbn.
    rewrite Hs. set_solver.
Qed.

(** The requested scale-ups of the processed pool itself. *)
Definition own_requests (pool : string) (d : db) : nat :=
  count_where (fun a => requested_scale_up a /\ ca_pool_id a = pool) (capacity_actions d).

Lemma own_requests_one pool d : wf_capacity d -> (own_requests pool d <= 1)%nat.
Proof.
  intros Hwf. apply (count_where_key ca_id); [apply Hwf|].
  intros a b Ha Hb [[_ Sa] Pa] [[_ Sb] Pb]. apply (wf_one_open _ Hwf); auto; [..|congruence];
    unfold open_action; rewrite ?Sa, ?Sb; set_solver.
Qed.

Lemma cancel_own pool todo reason now d : unbound_requests (pool :: todo) d ->
  own_requests pool (cancelRequestedCapacityActionTx pool reason now d) = 0%nat.
Proof.
  intros Hub. apply count_where_zero. cbn.
  intros a' (a & Ha & [[_ ->]|[Hn ->]])%elem_of_update_where [[Hk Hs] Hp]; [done|].
  apply Hn. split_and!; [done..|]. apply Hub; [done|done|set_solver].
Qed.

Lemma refresh_down_own id pool todo rs os reason now d d' : wf_capacity d ->
  unbound_requests (pool :: todo) d ->
  requestCapacityActionTx id pool ScaleDown rs os reason now d = Ok d' -> own_requests pool d' = 0%nat.
Proof.
  intros Hwf Hub H. apply count_where_zero. intros a' Ha' [[Hk Hs] Hp].
  apply request_cases in H as [(e & He & [Hpe Hoe] & ->)|[Hno ->]]; cbn in Ha'.
  - apply elem_of_update_where in Ha' as (a & Ha & [[_ ->]|[Hn ->]]); [done|].
    apply Hn. split_and!; [|done|apply Hub; [done|done|set_solver]].
    apply (wf_one_open _ Hwf); auto; [|congruence]. unfold open_action. rewrite Hs. set_solver.
  - apply elem_of_app in Ha' as [Ha'| ->%list_elem_of_singleton]; [|done].
    apply (Hno a' Ha'). split; [done|]. unfold open_action. rewrite Hs. set_solver.
Qed.

Lemma pass_settled pool todo d d' : pass_step pool d d' ->
  (settled_requests todo d' <= settled_requests (pool :: todo) d + own_requests pool d')%nat.
Proof.
  intros [_ _ Ho _]. unfold settled_requests, own_requests.
  rewrite (count_where_split _ (fun a => ca_pool_id a <> pool)).
  rewrite count_where_filter, Ho, <- count_where_filter.
  apply Nat.add_le_mono; apply count_where_le_impl; intros a _.
  - intros [[Hr Hn] Hp]. split; [done|]. set_solver.
  - intros [[Hr _] Hp]. split; [done|]. destruct (decide (ca_pool_id a = pool)); tauto.
Qed.

Lemma pass_unbound pool todo d d' : pass_step pool d d' -> (pool ∉ todo) ->
  unbound_requests (pool :: todo) d -> unbound_requests todo d'.
Proof.
  intros [_ Hi Ho _] Hnin Hub a Ha Hr Hp.
  assert (a ∈ filter (fun a => ca_pool_id a <> pool) (capacity_actions d)) as Hd.
  { rewrite <- Ho. apply list_elem_of_filter. split; [|done]. congruence. }
  apply list_elem_of_filter in Hd as [_ Hd]. unfold bound. rewrite Hi.
  apply (Hub a Hd Hr). set_solver.
Qed.

Lemma reconcile_pools_bounded up down budgets ids clk ordered d d' :
  wf_capacity d -> NoDup (ps_id <$> ordered) -> unbound_requests (ps_id <$> ordered) d -> 0 <= up ->
  reconcile_pools up down budgets ids clk ordered d = Ok d' ->
  Z.of_nat (settled_requests [] d') <= Z.of_nat (settled_requests (ps_id <$> ordered) d) + up /\
  pendingScaleUp d' = pendingScaleUp d.
Proof.
  revert up down budgets ids clk d.
  induction ordered as [|pool ordered IH]; intros up down budgets ids clk d Hwf Hnd Hub Hup H.
  { cbn in H. simplify_eq. rewrite fmap_nil. split; [lia|done]. }
  rewrite fmap_cons in *. inversion_clear Hnd as [|?? Hnin Hnd']. cbn in H.
  assert (forall up' down' budgets' ids' clk' d1, pass_step (ps_id pool) d d1 -> 0 <= up' ->
      Z.of_nat (own_requests (ps_id pool) d1) + up' <= up ->
      reconcile_pools up' down' budgets' ids' clk' ordered d1 = Ok d' ->
      Z.of_nat (settled_requests [] d') <=
        Z.of_nat (settled_requests (ps_id pool :: (ps_id <$> ordered)) d) + up /\
      pendingScaleUp d' = pendingScaleUp d) as Hnext.
  { intros up' down' budgets' ids' clk' d1 Hp Hup' Hown H1.
    eapply IH in H1 as [H1 H2]; [|apply Hp|done|by eapply pass_unbound|done].
    pose proof (pass_settled _ (ps_id <$> ordered) _ _ Hp). split; [lia|]. rewrite H2.
    unfold pendingScaleUp. f_equal. apply Hp. }
  repeat case_decide; inv_ok H.
  - pose proof (refresh_pass _ _ _ _ _ _ _ _ _ Hwf E) as Hp.
    pose proof (own_requests_one (ps_id pool) _ (pt_wf _ _ _ Hp)).
    eapply Hnext; [done| | |done]; lia.
  - pose proof (refresh_pass _ _ _ _ _ _ _ _ _ Hwf E) as Hp.
    pose proof (refresh_down_own _ _ _ _ _ _ _ _ _ Hwf Hub E) as Ho.
    eapply Hnext; [done| | |done]; [lia|]. rewrite Ho. lia.
  - eapply Hnext; [by apply cancel_pass| | |done]; [lia|]. rewrite (cancel_own _ _ _ _ _ Hub). lia.
Qed.

(** Scale-up actions that are not closed: capacity that is on its way. *)
Definition open_scale_up (a : capacity_action) : Prop :=
  ca_kind a = ScaleUp /\ ca_state a ∈ [ARequested; AClaimed; AWaitingForHeartbeat].
#[export] Instance open_scale_up_dec a : Decision (open_scale_up a).
Proof. unfold open_scale_up. apply _. Defined.
Definition openScaleUp (d : db) : Z := Z.of_nat (count_where open_scale_up (capacity_actions d)).

Lemma openScaleUp_split d :
  openScaleUp d = pendingScaleUp d + Z.of_nat (settled_requests [] d).
Proof.
  unfold openScaleUp, pendingScaleUp, settled_requests.
  rewrite (count_where_split open_scale_up pending_scale_up), Nat2Z.inj_add. f_equal; f_equal;
    apply Nat.le_antisymm; apply count_where_le_impl; intros a _;
    unfold open_scale_up, pending_scale_up, requested_scale_up;
    rewrite ?elem_of_cons, ?elem_of_nil; intuition congruence.
Qed.

Lemma reopen_pending now d : pendingScaleUp (reopenBoundCapacityActionsTx now d) = pendingScaleUp d.
Proof.
  unfold pendingScaleUp. f_equal. apply count_where_update.
  intros a _ [[Hs _] _]. unfold pending_scale_up. cbn.
  revert Hs. rewrite !elem_of_cons, !elem_of_nil. intuition congruence.
Qed.

(** C35. The autoscaler never asks for more than the deployment may have: in the
    actuate mode, after a reconciliation pass the active slots together with
    every open scale-up action (claimed, waiting for its heartbeat, or still
    requested) stay within the maximum, or within what was already active and
    claimed before the pass when that was more.  The pass covers the pools of
    all requested scale-ups, and none of these is a retry that already owns an
    instance. *)
Theorem scale_up_within_ceiling policy pools active ids seen clk (d d' : db)
    (Hwf : wf_capacity d) (Hm : Mode policy = "actuate") (Hnd : NoDup (ps_id <$> pools))
    (Hcover : forall a, a ∈ capacity_actions (reopenBoundCapacityActionsTx (clk 0%nat) d) ->
       requested_scale_up a -> ca_pool_id a ∈ ps_id <$> pools)
    (Hfresh : forall a, a ∈ capacity_actions (reopenBoundCapacityActionsTx (clk 0%nat) d) ->
       requested_scale_up a -> ~ bound d a)
    (H : reconcileCapacityActionsTx policy pools active ids seen clk d = Ok d') :
  active + openScaleUp d' <= Z.max (MaxSlots policy) (active + pendingScaleUp d).
Proof.
  unfold reconcileCapacityActionsTx in H. rewrite decide_True in H by done.
  set (d1 := reopenBoundCapacityActionsTx (clk 0%nat) d) in *.
  assert (wf_capacity d1) as Hwf1 by (eapply steps_wf; [apply rtc_once, step_reopen|done]).
  assert (ps_id <$> sort_by demand_order pools ≡ₚ ps_id <$> pools) as Hperm
    by (by rewrite sort_by_perm).
  apply reconcile_pools_bounded in H as [H1 H2]; [|done|by rewrite Hperm| |lia].
  2:{ intros a Ha Hr _. apply (Hfresh a Ha Hr). }
  assert (settled_requests (ps_id <$> sort_by demand_order pools) d1 = 0%nat) as Hs.
  { apply count_where_zero. intros a Ha [Hr Hn]. apply Hn. rewrite Hperm. by apply Hcover. }
  assert (pendingScaleUp d1 = pendingScaleUp d) as Hpend by apply reopen_pending.
  rewrite openScaleUp_split, H2. rewrite Hs in H1. lia.
Qed.

(** ** The pass and the actuator *)

(** Open actions the reconciler must leave alone: those an actuator holds and
    those that own an instance. *)
Definition protected (d : db) (a : capacity_action) : Prop :=
  open_action a /\ (ca_state a <> ARequested \/ bound d a).

(** A statement of the pass: a ledger step that keeps the instances and the
    protected actions. *)
Record respectful (d d' : db) : Prop := {
  re_steps : rtc cap_step d d';
  re_instances : capacity_instances d' = capacity_instances d;
  re_protected : forall a, a ∈ capacity_actions d -> protected d a -> a ∈ capacity_actions d'
}.

Lemma respectful_refl d : respectful d d.
Proof. split; auto using rtc_refl. Qed.

Lemma respectful_trans d1 d2 d3 : respectful d1 d2 -> respectful d2 d3 -> respectful d1 d3.
Proof.
  intros [S1 I1 P1] [S2 I2 P2]. split; [by etrans|congruence|].
  intros a Ha Hp. apply P2; [by apply P1|]. unfold protected, bound in *. by rewrite I1.
Qed.

(** An update of unbound requested actions is respectful. *)
Lemma respectful_update d P `{HdP : !forall x, Decision (P x)} f :
  cap_step d (d <| capacity_actions := update_where P f (capacity_actions d) |>) ->
  (forall a, P a -> ~ protected d a) ->
  respectful d (d <| capacity_actions := update_where P f (capacity_actions d) |>).
Proof.
  intros Hs HP. split; [by apply rtc_once|done|]. intros a Ha Hp. cbn.
  apply elem_of_update_where. exists a. split; [done|]. right. split; [|done].
  intros H. by apply (HP a H).
Qed.

Lemma respectful_request id pool kind rs os reason now d d' :
  requestCapacityActionTx id pool kind rs os reason now d = Ok d' -> respectful d d'.
Proof.
  intros H. pose proof (step_refresh _ _ _ _ _ _ _ _ _ H) as Hs.
  apply request_cases in H as [(e & He & Ho & ->)|[_ ->]].
  - apply respectful_update; [done|]. intros a (_ & Hr & Hb) [_ [?|?]]; done.
  - split; [by apply rtc_once|done|]. intros a Ha _. cbn. set_solver.
Qed.

Lemma respectful_cancel pool reason now d :
  respectful d (cancelRequestedCapacityActionTx pool reason now d).
Proof.
  apply respectful_update; [apply step_cancel|]. intros a (_ & Hr & Hb) [_ [?|?]]; done.
Qed.

Lemma respectful_reopen now d : respectful d (reopenBoundCapacityActionsTx now d).
Proof.
  apply respectful_update; [apply step_reopen|]. intros a [(Hs & _) _] [Ho _].
  unfold open_action in Ho. enum_solve.
Qed.

Lemma respectful_cancel_pools clk pools d : respectful d (cancel_pools clk pools d).
Proof.
  revert clk d. induction pools as [|pool pools IH]; intros clk d; [apply respectful_refl|].
  cbn. eapply respectful_trans; [apply respectful_cancel|apply IH].
Qed.

Lemma respectful_pools up down budgets ids clk ordered d d' :
  reconcile_pools up down budgets ids clk ordered d = Ok d' -> respectful d d'.
Proof.
  revert up down budgets ids clk d.
  induction ordered as [|pool ordered IH]; intros up down budgets ids clk d H; cbn in H.
  { simplify_eq. apply respectful_refl. }
  repeat case_decide; inv_ok H.
  - eapply respectful_trans; [by eapply respectful_request|by eapply IH].
  - eapply respectful_trans; [by eapply respectful_request|by eapply IH].
  - eapply respectful_trans; [apply respectful_cancel|by eapply IH].
Qed.

Lemma respectful_actions policy pools active ids seen clk d d' :
  reconcileCapacityActionsTx policy pools active ids seen clk d = Ok d' ->
  respectful (reopenBoundCapacityActionsTx (clk 0%nat) d) d'.
Proof.
  unfold reconcileCapacityActionsTx. intros H. case_decide.
  - by eapply respectful_pools.
  - simplify_eq. apply respectful_cancel_pools.
Qed.

Definition same_ledger (d d' : db) : Prop :=
  capacity_actions d' = capacity_actions d /\ capacity_instances d' = capacity_instances d.

Lemma reconcile_all_pools_ledger policy now clk pools d :
  same_ledger d (reconcile_all_pools policy now clk pools d).2.
Proof.
  revert clk d. induction pools as [|pool pools IH]; intros clk d; [done|]. cbn.
  destruct (reconcileCapacityPool pool policy now (clk 0%nat) d) as [st d1] eqn:E.
  assert (same_ledger d d1) as [Ha Hi].
  { unfold reconcileCapacityPool in E. destruct (find_pool _ _); by simplify_eq. }
  specialize (IH (fun k => clk (S k)) d1).
  destruct (reconcile_all_pools _ _ _ _ _) as [rest d2]. cbn in *.
  destruct IH as [IHa IHi]. split; cbn; congruence.
Qed.

(** The transaction is its own writes to the recommendation tables followed by
    the pass over the actions. *)
Lemma reconcile_pass policy ids seen clk d st d' :
  ReconcileAutoscaling policy ids seen clk d = Ok (st, d') ->
  exists d1 pools active clk', same_ledger d d1 /\
    reconcileCapacityActionsTx policy pools active ids seen clk' d1 = Ok d'.
Proof.
  unfold ReconcileAutoscaling. intros H. inv_ok_step H.
  destruct (match first_where _ _ with Some s => _ | None => _ end) as [cur d0] eqn:E0.
  assert (same_ledger d d0) as [Ha Hi] by (destruct (first_where _ _); by simplify_eq).
  cbv zeta in H.
  match type of H with context [reconcile_all_pools ?p ?n ?c ?ps ?d1] =>
    pose proof (reconcile_all_pools_ledger p n c ps d1) as [Ha1 Hi1];
    destruct (reconcile_all_pools p n c ps d1) as [pools d2] end.
  cbn [snd] in Ha1, Hi1. cbn in Ha1, Hi1.
  destruct (reconcileCapacityActionsTx _ _ _ _ _ _ d2) eqn:E2; simplify_eq.
  do 4 eexists. split; [|exact E2]. split; congruence.
Qed.

(** The reconciler never works underneath an actuator: a reconciliation is
    a sequence of ledger steps that touches no instance, and every open action
    that an actuator holds, or that already owns an instance, is left exactly
    as it was, neither refreshed to another kind nor canceled.  A pool whose
    only trace of a live instance is a closed action gets that action reopened:
    afterwards an open action of the pool owns a live instance. *)
Theorem reconcile_respects_actuator policy ids seen clk (d d' : db) st
    (Hwf : wf_capacity d)
    (H : ReconcileAutoscaling policy ids seen clk d = Ok (st, d')) :
  rtc cap_step d d' /\ wf_capacity d' /\ capacity_instances d' = capacity_instances d /\
  (forall a, a ∈ capacity_actions d -> protected d a -> a ∈ capacity_actions d') /\
  (forall a, a ∈ capacity_actions d -> reopenable d a ->
     exists b, b ∈ capacity_actions d' /\ ca_pool_id b = ca_pool_id a /\ protected d' b).
Proof.
  apply reconcile_pass in H as (d1 & pools & active & clk' & [Ha1 Hi1] & H).
  apply respectful_actions in H. set (d2 := reopenBoundCapacityActionsTx (clk' 0%nat) d1) in *.
  assert (respectful d1 d') as [Hs Hi Hp]
    by (eapply respectful_trans; [apply respectful_reopen|exact H]).
  assert (rtc cap_step d d') as Hsteps.
  { eapply rtc_l; [|exact Hs]. by apply step_other. }
  assert (forall a, bound d1 a <-> bound d a) as Hbound by (intros; unfold bound; by rewrite Hi1).
  split_and!; [done|by eapply steps_wf|congruence| |].
  - intros a Ha [Ho Hr]. apply Hp; [by rewrite Ha1|]. split; [done|]. by rewrite Hbound.
  - intros a Ha Hre. assert (reopenable d1 a) as Hre1.
    { unfold reopenable in *. by rewrite Ha1, Hi1. }
    destruct (reopened_exists (clk' 0%nat) d1 a) as (b & Hb & Hpb & Hob & Hbb);
      [by rewrite Ha1|done|].
    exists b. split_and!; [|done|].
    + apply (re_protected _ _ H); [done|]. split; [done|]. right. done.
    + split; [done|]. right. unfold bound in *. rewrite Hi. done.
Qed.

(** ** Concrete passes *)
Definition pool_b_row : capacity_pool := pool_row_ex <| cp_pool_id := "pve-b" |>.
Definition two_pools : db := empty_db <| capacity_pools := [pool_row_ex; pool_b_row] |>.
Definition actuate_ex : SchedulerAutoscalePolicy :=
  mkAutoscalePolicy "actuate" 0 1 2 0 0 [] {["pve" := 4]}.
Definition wanting (p : capacity_pool) (rec : Recommendation) : SchedulerCapacityPoolStatus :=
  pool_status (p <| cp_recommendation := rec |> <| cp_desired_slots := 1 |>).
Definition fresh_ids (k : nat) : uuid := "n" +:+ pretty k.
Definition pass_ex (pools : list SchedulerCapacityPoolStatus) (d : db) : result ledger_error db :=
  reconcileCapacityActionsTx actuate_ex pools 0 fresh_ids (fun _ => 100 * Second) (at_time 100) d.

Lemma scale_up_within_ceiling_witness :
  let d' := ok_or two_pools
    (pass_ex [wanting pool_row_ex RecScaleUp; wanting pool_b_row RecScaleUp] two_pools) in
  openScaleUp d' = 1 /\ 0 + openScaleUp d' <= Z.max 1 (0 + pendingScaleUp two_pools).
Proof.
  split; [vm_compute; reflexivity|].
  apply (scale_up_within_ceiling actuate_ex
           [wanting pool_row_ex RecScaleUp; wanting pool_b_row RecScaleUp] 0 fresh_ids
           (fun _ => 100 * Second) (at_time 100)).
  - by apply no_rows_wf.
  - reflexivity.
  - apply (bool_decide_unpack _). vm_compute. reflexivity.
  - intros a []%elem_of_nil.
  - intros a []%elem_of_nil.
  - vm_compute. reflexivity.
Defined.

(** A scale-up of pool [pve-a] is claimed, reserves its instance and is put
    back for a retry. *)
Definition retry1 : db := (ok_or (claim1, two_pools)
  (RequestCapacityAction "a1" "pve-a" "scale-up" 1 0 "" (at_time 1) two_pools)).2.
Definition retry_claim : CapacityActionClaim := default claim1 (claim_at retry1 2).1.
Definition retry2 : db := (claim_at retry1 2).2.
Definition retry3 : db :=
  match ReserveCapacityInstance "i1" "t1" (Some retry_claim) (at_time 3) retry2 with
  | Ok (_, d) => d | Err _ => retry2 end.
Definition retrying : db :=
  ok_or retry3 (RetryCapacityAction retry_claim "provider timed out" (at_time 4) retry3).

Lemma retrying_wf : wf_capacity retrying.
Proof.
  apply (steps_wf two_pools); [|by apply no_rows_wf].
  apply (rtc_l _ _ retry1); [by eapply (step_request "a1" "pve-a" "scale-up" 1 0 "" (at_time 1))|].
  apply (rtc_l _ _ retry2).
  { eapply (step_claim "act" (10 * Second) unlocked (at_time 2)). vm_compute. reflexivity. }
  apply (rtc_l _ _ retry3).
  { eapply (step_reserve "i1" "t1" (Some retry_claim) (at_time 3)). vm_compute. reflexivity. }
  apply rtc_once. eapply (step_retry retry_claim "provider timed out" (at_time 4)).
  vm_compute. reflexivity.
Qed.

(** The ceiling does not count a scale-up that waits for its retry: with a
    maximum of one slot and a retry that already owns an instance, a pass in
    which only the other pool wants capacity leaves two open scale-ups. *)
Theorem retried_scale_up_escapes_ceiling :
  exists d', pass_ex [wanting pool_row_ex RecHold; wanting pool_b_row RecScaleUp] retrying = Ok d' /\
    wf_capacity retrying /\ pendingScaleUp retrying = 0 /\ MaxSlots actuate_ex = 1 /\
    openScaleUp d' = 2.
Proof.
  eexists. split; [vm_compute; reflexivity|]. split; [|vm_compute; done].
  apply retrying_wf.
Qed.

Definition pool_definition_ex : SchedulerCapacityPoolDefinition :=
  mkPoolDefinition "pve-a" "pve" "default" "amd64" "vm" "desktop" "base" "g1"
    ["arch:amd64"; "capacity-pool:pve-a"].
Definition reconciled : db :=
  match ReconcileAutoscaling (actuate_ex <| Pools := [pool_definition_ex] |>) fresh_ids
          (fun _ => 100 * Second) (at_time 100) retrying with
  | Ok (_, d) => d | Err _ => empty_db end.

(** The retry that owns an instance survives a pass that wants no capacity. *)
Lemma reconcile_respects_actuator_witness :
  wf_capacity reconciled /\ capacity_actions reconciled = capacity_actions retrying /\
  forall a, a ∈ capacity_actions retrying -> protected retrying a -> a ∈ capacity_actions reconciled.
Proof.
  destruct (reconcile_respects_actuator (actuate_ex <| Pools := [pool_definition_ex] |>) fresh_ids
    (fun _ => 100 * Second) (at_time 100) retrying reconciled
    (match ReconcileAutoscaling (actuate_ex <| Pools := [pool_definition_ex] |>) fresh_ids
          (fun _ => 100 * Second) (at_time 100) retrying with
     | Ok (st, _) => st | Err _ => readAutoscaleRuntimeStatus 0 empty_db end))
    as (_ & H1 & _ & H2 & _).
  - apply retrying_wf.
  - vm_compute. reflexivity.
  - split_and!; [exact H1|vm_compute; reflexivity|exact H2].
Defined.
