(* ===== verification/DistccLedger.v ===== *)
(** * Compile workers and slot leases

    [internal/persistence/distcc.go]: the inventory of compile workers, the
    reservation of slots under a per-worker fence, renewal, release and the
    observations a lease may record.  Each operation is one transaction on
    [db]. *)

From S2P Require Import Prelude GoStrings GoRegexp GoNet Distcc Schema.
Open Scope string_scope.
Open Scope list_scope.
Open Scope Z_scope.

Definition maxCompileLeaseDuration : duration := Hour.
Definition maxWorkerFreshness : duration := 10 * Minute.

Inductive compile_error : Type :=
| Contract (e : error)
| IdentityChanged
| CompileDuplicateKey
| InvalidID
| BuilderIdentityRequired
| AttemptFenceRequired
| SlotsOutOfRange
| LeaseDurationOutOfRange
| FreshnessOutOfRange
| FallbackInvalid
| AttemptNotLive
| HeartbeatDurationInvalid
| HeartbeatRejected
| LeaseNotValid
| ReleaseRejected
| ObservationRejected
| MetricsWindow.

Definition contract {A} (r : result error A) : result compile_error A :=
  match r with Ok a => Ok a | Err e => Err (Contract e) end.

(** [d.Milliseconds() * interval '1 millisecond'] *)
Definition whole_millis (d : duration) : duration := Z.quot d Millisecond * Millisecond.

Record Worker := mkCompileWorkerView {
  Worker_ID : uuid;
  Worker_StableName : string;
  Worker_Endpoint : string;
  Worker_MaxSlots : Z;
  Worker_PoolID : string;
  Worker_Pool : Pool;
  Worker_LastHeartbeat : time;
  Worker_NextFence : Z
}.

Record ReservationRequest := mkReservationRequest {
  rr_ProjectID : string;
  rr_JobID : string;
  rr_AttemptID : string;
  rr_AttemptFence : Z;
  rr_BuilderID : string;
  rr_BuilderNetworkIdentity : string;
  rr_Slots : Z;
  rr_LeaseDuration : duration;
  rr_WorkerFreshness : duration;
  rr_Pool : Pool;
  rr_FallbackPolicy : string
}.

(** ** Live leases *)
Definition live (now : time) (l : slot_lease) : Prop := sl_state l = LActive /\ now < sl_expires_at l.
#[export] Instance live_dec now l : Decision (live now l).
Proof. unfold live. apply _. Defined.

(** [sum(l.slots)] over the live leases of a worker *)
Definition live_slots (now : time) (worker : uuid) (d : db) : Z :=
  sum_by sl_slots (filter (fun l => sl_worker_id l = worker /\ live now l) (slot_leases d)).
Arguments live_slots : simpl never.

Definition same_dimensions (poolID : string) (pool : Pool) (w : compile_worker) : Prop :=
  cw_pool_id w = poolID /\ cw_architecture w = Architecture pool /\ cw_chost w = CHOST pool /\
  cw_compiler_digest w = CompilerDigest pool /\
  cw_toolchain_image_generation w = ToolchainImageGeneration pool /\
  cw_cpu_features w = CPUFeatures pool /\ cw_network_zone w = NetworkZone pool /\
  cw_project_trust_domain w = ProjectTrustDomain pool.
#[export] Instance same_dimensions_dec poolID pool w : Decision (same_dimensions poolID pool w).
Proof. unfold same_dimensions. apply _. Defined.

Definition fresh_compile_worker (now : time) (freshness : duration) (w : compile_worker) : Prop :=
  cw_desired_state w = WActive /\ now - whole_millis freshness < cw_last_heartbeat_at w.
#[export] Instance fresh_compile_worker_dec now freshness w :
  Decision (fresh_compile_worker now freshness w).
Proof. unfold fresh_compile_worker. apply _. Defined.

(** ** Worker heartbeats *)
Definition worker_view (pool : Pool) (w : compile_worker) : Worker :=
  mkCompileWorkerView (cw_id w) (cw_stable_name w) (cw_endpoint w) (cw_max_slots w) (cw_pool_id w)
    pool (cw_last_heartbeat_at w) (cw_next_fence w).

Definition heartbeat_row (h : WorkerHeartbeat) (now : time) (w : compile_worker) : compile_worker :=
  w <| cw_endpoint := hbEndpoint h |> <| cw_max_slots := hbMaxSlots h |>
    <| cw_last_heartbeat_at := now |> <| cw_updated_at := now |>.

Definition HeartbeatCompileWorker (workerID : uuid) (h : WorkerHeartbeat) (clk : clock) (d : db)
    : result compile_error (Worker * db) :=
  let! _ := contract (heartbeat_Validate h) in
  let! pool := contract (Normalize (hbPool h)) in
  let! poolID := contract (ID pool) in
  let now := clk 0%nat in
  match first_where (fun w => cw_stable_name w = hbStableName h) (compile_workers d) with
  | None =>
      check workerID ∉ (cw_id <$> compile_workers d) else CompileDuplicateKey;;
      let w := mkCompileWorker workerID (hbStableName h) (hbEndpoint h) poolID (Architecture pool)
                 (CHOST pool) (CompilerDigest pool) (ToolchainImageGeneration pool)
                 (CPUFeatures pool) (NetworkZone pool) (ProjectTrustDomain pool) (hbMaxSlots h)
                 WActive 0 now now in
      Ok (worker_view pool w, d <| compile_workers := compile_workers d ++ [w] |>)
  | Some w =>
      check same_dimensions poolID pool w /\
            ((cw_endpoint w = hbEndpoint h /\ cw_max_slots w = hbMaxSlots h) \/
             ~ exists_row (fun l => sl_worker_id l = cw_id w /\ live now l) (slot_leases d))
        else IdentityChanged;;
      Ok (worker_view pool (heartbeat_row h now w),
          d <| compile_workers :=
            update_where (fun x => cw_id x = cw_id w) (heartbeat_row h now) (compile_workers d) |>)
  end.

(** ** Reservations

    [uuid_Parse] is google/uuid's parser: whether it accepts the text. *)
Section reservations.
Context (uuid_Parse : string -> bool).

Definition validateCompileReservation (r : ReservationRequest) : result compile_error unit :=
  check uuid_Parse (rr_ProjectID r) = true /\ uuid_Parse (rr_JobID r) = true /\
        uuid_Parse (rr_AttemptID r) = true else InvalidID;;
  check ~ (rr_BuilderID r = "" \/ rr_BuilderNetworkIdentity r = "") else BuilderIdentityRequired;;
  check 0 < rr_AttemptFence r else AttemptFenceRequired;;
  check 1 <= rr_Slots r <= 256 else SlotsOutOfRange;;
  check 0 < rr_LeaseDuration r <= maxCompileLeaseDuration else LeaseDurationOutOfRange;;
  check 0 < rr_WorkerFreshness r <= maxWorkerFreshness else FreshnessOutOfRange;;
  check rr_FallbackPolicy r = FallbackLocal \/ rr_FallbackPolicy r = FallbackBlocked
    else FallbackInvalid;;
  let! _ := contract (Normalize (rr_Pool r)) in
  Ok tt.

Definition reservable (now : time) (poolID : string) (pool : Pool) (r : ReservationRequest) (d : db)
    (w : compile_worker) : Prop :=
  same_dimensions poolID pool w /\ fresh_compile_worker now (rr_WorkerFreshness r) w /\
  rr_Slots r <= cw_max_slots w - live_slots now (cw_id w) d.
#[export] Instance reservable_dec now poolID pool r d w : Decision (reservable now poolID pool r d w).
Proof. unfold reservable. apply _. Defined.

Definition free_order (now : time) (d : db) : order compile_worker :=
  then_by (desc (by_key (fun w => cw_max_slots w - live_slots now (cw_id w) d)))
    (then_by (by_str cw_stable_name) (by_str cw_id)).

#[export] Instance free_order_laws now d : OrderLaws (free_order now d).
Proof. unfold free_order. apply _. Qed.

(** The attempt is running under the presented fence and the job is open. *)
Definition attempt_live (now : time) (r : ReservationRequest) (d : db) : Prop :=
  exists_row (fun a => a_id a = rr_AttemptID r /\ a_job_id a = rr_JobID r /\
      a_fence_token a = rr_AttemptFence r /\
      (a_state a ∉ ["completed"; "success"; "failed"; "canceled"; "expired"])) (build_attempts d) /\
  exists_row (fun j => j_id j = rr_JobID r /\ j_project_id j = rr_ProjectID r /\
      (j_state j ∉ ["completed"; "success"; "failed"; "canceled"])) (build_jobs d) /\
  exists_row (fun l => wl_attempt_id l = rr_AttemptID r /\ wl_fence_token l = rr_AttemptFence r /\
      now < wl_expires_at l) (worker_leases d).
#[export] Instance attempt_live_dec now r d : Decision (attempt_live now r d).
Proof. unfold attempt_live, exists_row. apply _. Defined.

(** [queued] is the time the caller waited; the worker is selected at
    [clk 0], its fence advanced at [clk 1] and the lease inserted at [clk 2]. *)
Definition ReserveCompileSlots (newID : uuid) (queued : duration) (r : ReservationRequest)
    (clk : clock) (d : db) : result compile_error (option Lease * db) :=
  let! _ := validateCompileReservation r in
  let! pool := contract (Normalize (rr_Pool r)) in
  let! poolID := contract (ID pool) in
  match pick (free_order (clk 0%nat) d)
          (filter (reservable (clk 0%nat) poolID pool r d) (compile_workers d)) with
  | None => Ok (None, d)
  | Some w =>
      let fence := cw_next_fence w + 1 in
      let d := d <| compile_workers :=
        update_where (fun x => cw_id x = cw_id w)
          (fun x => x <| cw_next_fence := cw_next_fence x + 1 |> <| cw_updated_at := clk 1%nat |>)
          (compile_workers d) |> in
      let now := clk 2%nat in
      check attempt_live now r d else AttemptNotLive;;
      check ~ exists_row (fun l => sl_id l = newID \/
                (sl_worker_id l = cw_id w /\ sl_fence_token l = fence)) (slot_leases d)
        else CompileDuplicateKey;;
      let expires := now + whole_millis (rr_LeaseDuration r) in
      let row := mkSlotLease newID (cw_id w) (rr_ProjectID r) (rr_JobID r) (rr_AttemptID r)
                   (rr_AttemptFence r) (rr_BuilderID r) (rr_BuilderNetworkIdentity r) fence
                   (rr_Slots r) poolID (rr_FallbackPolicy r) LActive expires now now None "" in
      Ok (Some (mkLease newID (cw_id w) (cw_endpoint w) (rr_BuilderID r)
                  (rr_BuilderNetworkIdentity r) (rr_AttemptID r) (rr_AttemptFence r) fence
                  (rr_Slots r) poolID pool (rr_FallbackPolicy r) false expires queued []),
          d <| slot_leases := slot_leases d ++ [row] |>)
  end.
End reservations.

(** ** Using a lease *)

(** [WHERE id AND worker_id AND builder AND attempt AND fence AND pool_id] *)
Definition lease_row (lease : Lease) (l : slot_lease) : Prop :=
  sl_id l = leaseID lease /\ sl_worker_id l = WorkerID lease /\
  sl_builder_id l = BuilderID lease /\
  sl_builder_network_identity l = BuilderNetworkIdentity lease /\
  sl_attempt_id l = AttemptID lease /\ sl_attempt_fence l = AttemptFence lease /\
  sl_fence_token l = Fence lease /\ sl_pool_id l = PoolID lease.
#[export] Instance lease_row_dec lease l : Decision (lease_row lease l).
Proof. unfold lease_row. apply _. Defined.

(** The attempt of the lease still holds its admission lease, and its compile
    worker is fresh. *)
Definition backed (now : time) (freshness : duration) (d : db) (l : slot_lease) : Prop :=
  exists_row (fun a => wl_attempt_id a = sl_attempt_id l /\ wl_fence_token a = sl_attempt_fence l /\
      now < wl_expires_at a) (worker_leases d) /\
  exists_row (fun w => cw_id w = sl_worker_id l /\ fresh_compile_worker now freshness w)
    (compile_workers d).
#[export] Instance backed_dec now freshness d l : Decision (backed now freshness d l).
Proof. unfold backed, exists_row. apply _. Defined.

Definition usable (lease : Lease) (now : time) (freshness : duration) (d : db) (l : slot_lease) : Prop :=
  lease_row lease l /\ live now l /\ backed now freshness d l.
#[export] Instance usable_dec lease now freshness d l : Decision (usable lease now freshness d l).
Proof. unfold usable. apply _. Defined.

Definition HeartbeatCompileLease (lease : Lease) (duration workerFreshness : duration) (clk : clock)
    (d : db) : result compile_error db :=
  check ~ (duration <= 0 \/ maxCompileLeaseDuration < duration \/ workerFreshness <= 0 \/
           maxWorkerFreshness < workerFreshness) else HeartbeatDurationInvalid;;
  let now := clk 0%nat in
  check count_where (usable lease now workerFreshness d) (slot_leases d) = 1%nat
    else HeartbeatRejected;;
  Ok (d <| slot_leases :=
        update_where (usable lease now workerFreshness d)
          (fun l => l <| sl_expires_at := now + whole_millis duration |> <| sl_renewed_at := now |>)
          (slot_leases d) |>).

Definition CheckCompileLease (lease : Lease) (workerFreshness : duration) (clk : clock) (d : db)
    : result compile_error unit :=
  check ~ (workerFreshness <= 0 \/ maxWorkerFreshness < workerFreshness) else FreshnessOutOfRange;;
  check exists_row (usable lease (clk 0%nat) workerFreshness d) (slot_leases d) else LeaseNotValid;;
  Ok tt.

Definition ReleaseCompileLease (lease : Lease) (failureReason : string) (clk : clock) (d : db)
    : result compile_error db :=
  let! _ := contract (observation_Validate (mkObservation OutcomeLocal failureReason 0 0 1)) in
  let now := clk 0%nat in
  let mine l := lease_row lease l /\ sl_state l = LActive in
  check count_where mine (slot_leases d) = 1%nat else ReleaseRejected;;
  Ok (d <| slot_leases :=
        update_where mine
          (fun l => l <| sl_state := if decide (sl_expires_at l <= now) then LExpired else LReleased |>
                      <| sl_released_at := Some now |> <| sl_failure_reason := failureReason |>)
          (slot_leases d) |>).

Definition RecordCompileObservation (lease : Lease) (o : Observation) (clk : clock) (d : db)
    : result compile_error db :=
  let! _ := contract (observation_Validate o) in
  let now := clk 0%nat in
  let rows := filter (fun l => lease_row lease l /\ live now l) (slot_leases d) in
  check length rows = 1%nat else ObservationRejected;;
  Ok (d <| compile_observations := compile_observations d ++
        ((fun l => mkCompileObservation (sl_id l) (Outcome o) (FailureReason o) (Count o)
                     (NetworkBytes o) (QueueMillis o) now) <$> rows) |>).

(** ** Metrics *)
Record MetricsSnapshot := mkMetrics {
  WorkersFresh : Z;
  SlotsTotal : Z;
  SlotsLeased : Z;
  LocalCompiles : Z;
  RemoteCompiles : Z;
  Hits : Z;
  Fallbacks : Z;
  ms_NetworkBytes : Z;
  ms_QueueMillis : Z;
  FailuresByReason : gmap string Z
}.
#[export] Instance MetricsSnapshot_eta : Eta MetricsSnapshot := fun m =>
  mkMetrics (WorkersFresh m) (SlotsTotal m) (SlotsLeased m) (LocalCompiles m) (RemoteCompiles m)
    (Hits m) (Fallbacks m) (ms_NetworkBytes m) (ms_QueueMillis m) (FailuresByReason m).

(** One row of [GROUP BY outcome, failure_reason]. *)
Record metric_group := mkGroup {
  mg_outcome : string;
  mg_reason : string;
  mg_count : Z;
  mg_bytes : Z;
  mg_queue : Z
}.

Definition observation_groups (rows : list compile_observation) : list metric_group :=
  (fun key : string * string =>
     let rows := filter (fun o => (co_outcome o, co_failure_reason o) = key) rows in
     mkGroup key.1 key.2 (sum_by co_compile_count rows) (sum_by co_network_bytes rows)
       (sum_by co_queue_millis rows)) <$>
  remove_dups ((fun o => (co_outcome o, co_failure_reason o)) <$> rows).

(** The body of the loop over the groups. *)
Definition add_group (m : MetricsSnapshot) (g : metric_group) : MetricsSnapshot :=
  let m :=
    if decide (mg_outcome g = OutcomeLocal) then
      m <| LocalCompiles := LocalCompiles m + mg_count g |>
    else if decide (mg_outcome g = OutcomeRemote) then
      m <| RemoteCompiles := RemoteCompiles m + mg_count g |>
    else if decide (mg_outcome g = OutcomeHit) then m <| Hits := Hits m + mg_count g |>
    else if decide (mg_outcome g = OutcomeFallback) then m <| Fallbacks := Fallbacks m + mg_count g |>
    else m in
  let m := m <| ms_NetworkBytes := ms_NetworkBytes m + mg_bytes g |>
             <| ms_QueueMillis := ms_QueueMillis m + mg_queue g |> in
  if decide (mg_reason g = "") then m
  else m <| FailuresByReason := <[mg_reason g :=
         default 0 (FailuresByReason m !! mg_reason g) + mg_count g]> (FailuresByReason m) |>.

(** The inventory is read at [clk 0], the observations at [clk 1]. *)
Definition CompileMetrics (workerFreshness observationWindow : duration) (clk : clock) (d : db)
    : result compile_error MetricsSnapshot :=
  check ~ (workerFreshness <= 0 \/ maxWorkerFreshness < workerFreshness \/
           observationWindow <= 0 \/ 30 * 24 * Hour < observationWindow) else MetricsWindow;;
  let now := clk 0%nat in
  let fresh := filter (fresh_compile_worker now workerFreshness) (compile_workers d) in
  let leased := filter (fun l => live now l /\ exists_row (fun w => cw_id w = sl_worker_id l) fresh)
                  (slot_leases d) in
  let recent := filter (fun o => clk 1%nat - whole_millis observationWindow < co_observed_at o)
                  (compile_observations d) in
  Ok (foldl add_group
        (mkMetrics (Z.of_nat (length fresh)) (sum_by cw_max_slots fresh) (sum_by sl_slots leased)
           0 0 0 0 0 0 ∅)
        (observation_groups recent)).

(** ** The ledger as a timed transition system

    A state is the database with the time its last operation started; each
    operation starts no earlier.  [slot_other] is what the other components do
    to their own tables. *)
Section slot_ledger.
Context (uuid_Parse : string -> bool).

Inductive slot_step : time * db -> time * db -> Prop :=
| slot_worker T id h clk d w d' : T <= clk 0%nat ->
    HeartbeatCompileWorker id h clk d = Ok (w, d') -> slot_step (T, d) (clk 0%nat, d')
| slot_reserve T id queued r clk d l d' : T <= clk 0%nat -> monotone clk ->
    ReserveCompileSlots uuid_Parse id queued r clk d = Ok (l, d') ->
    slot_step (T, d) (clk 0%nat, d')
| slot_renew T lease dur fresh clk d d' : T <= clk 0%nat ->
    HeartbeatCompileLease lease dur fresh clk d = Ok d' -> slot_step (T, d) (clk 0%nat, d')
| slot_release T lease reason clk d d' : T <= clk 0%nat ->
    ReleaseCompileLease lease reason clk d = Ok d' -> slot_step (T, d) (clk 0%nat, d')
| slot_observe T lease o clk d d' : T <= clk 0%nat ->
    RecordCompileObservation lease o clk d = Ok d' -> slot_step (T, d) (clk 0%nat, d')
| slot_other T T' d d' : T <= T' -> compile_workers d' = compile_workers d ->
    slot_leases d' = slot_leases d -> slot_step (T, d) (T', d').

Definition lease_fence (l : slot_lease) : uuid * Z := (sl_worker_id l, sl_fence_token l).

(** The invariant.  [inv_capacity] is the point: at any time from [T] on, the
    live leases of a worker fit into its slots. *)
Record slot_inv (T : time) (d : db) : Prop := {
  inv_worker_ids : NoDup (cw_id <$> compile_workers d);
  inv_lease_ids : NoDup (sl_id <$> slot_leases d);
  inv_fences : NoDup (lease_fence <$> slot_leases d);
  inv_slots : forall l, l ∈ slot_leases d -> 0 <= sl_slots l;
  inv_owner : forall l, l ∈ slot_leases d ->
    exists w, w ∈ compile_workers d /\ cw_id w = sl_worker_id l /\ sl_fence_token l <= cw_next_fence w;
  inv_capacity : forall w t, w ∈ compile_workers d -> T <= t ->
    live_slots t (cw_id w) d <= cw_max_slots w
}.

Lemma live_slots_le (f : slot_lease -> slot_lease) w t c (l : list slot_lease) :
  (forall x, x ∈ l -> 0 <= sl_slots x) -> (forall x, x ∈ l -> sl_slots (f x) = sl_slots x) ->
  (forall x, x ∈ l -> sl_worker_id (f x) = w -> live t (f x) -> sl_worker_id x = w /\ live c x) ->
  sum_by sl_slots (filter (fun x => sl_worker_id x = w /\ live t x) (f <$> l)) <=
  sum_by sl_slots (filter (fun x => sl_worker_id x = w /\ live c x) l).
Proof. intros Hp Hs Hl. apply sum_by_filter_le; auto. intros x Hx [? ?]. auto. Qed.

Lemma live_slots_later t c w d : slot_inv c d -> c <= t -> live_slots t w d <= live_slots c w d.
Proof.
  intros Hi Hle. unfold live_slots. rewrite <- (list_fmap_id (slot_leases d)) at 1.
  apply (live_slots_le id); [apply Hi|done|]. intros x _ Hw [? ?]. split; [done|].
  unfold live, id in *. split; [done|lia].
Qed.

Lemma slot_inv_later T T' d : slot_inv T d -> T <= T' -> slot_inv T' d.
Proof. intros [] HT. split; auto. intros w t Hw Ht. apply inv_capacity0; [done|lia]. Qed.

(** Leases rewritten in place, without new live time except for leases that
    are live now. *)
Lemma slot_inv_update T d c P `{HdP : !forall x, Decision (P x)} f : T <= c -> slot_inv T d ->
  (forall l, l ∈ slot_leases d -> P l -> sl_id (f l) = sl_id l /\ lease_fence (f l) = lease_fence l /\
     sl_slots (f l) = sl_slots l /\ (forall t, c <= t -> live t (f l) -> live c l)) ->
  slot_inv c (d <| slot_leases := update_where P f (slot_leases d) |>).
Proof.
  intros HT [H1 H2 H3 H4 H5 H6] Hf.
  assert (forall {B} (g : slot_lease -> B),
    (forall l, l ∈ slot_leases d -> P l -> g (f l) = g l) ->
    g <$> update_where P f (slot_leases d) = g <$> slot_leases d) as Hmap.
  { intros B g Hg. unfold update_where. rewrite <- list_fmap_compose.
    apply list_fmap_ext. intros i x Hx%list_elem_of_lookup_2. cbn. case_decide; auto. }
  split; cbn; [done|..].
  - rewrite Hmap; [done|]. intros. by apply Hf.
  - rewrite Hmap; [done|]. intros. by apply Hf.
  - intros l' (l & Hl & [[HP ->]|[_ ->]])%elem_of_update_where; [|by apply H4].
    destruct (Hf l Hl HP) as (_ & _ & -> & _). by apply H4.
  - intros l' (l & Hl & [[HP ->]|[_ ->]])%elem_of_update_where; [|by apply H5].
    destruct (Hf l Hl HP) as (_ & [= -> ->] & _ & _). by apply H5.
  - intros w t Hw Ht. etrans; [|apply (H6 w c Hw HT)]. unfold live_slots, update_where. cbn.
    apply (live_slots_le (fun x => if decide (P x) then f x else x)); [done|..].
    + intros x Hx. case_decide as HP; [|done]. by apply Hf.
    + intros x Hx. case_decide as HP.
      * destruct (Hf x Hx HP) as (_ & [= -> _] & _ & Hlive). intros. split; [done|]. by eapply Hlive.
      * intros ? [? ?]. split; [done|]. split; [done|lia].
Qed.

Lemma live_slots_none t w d :
  (forall l, l ∈ slot_leases d -> sl_worker_id l = w -> ~ live t l) -> live_slots t w d = 0.
Proof.
  intros H. unfold live_slots. rewrite filter_none; [done|].
  intros l Hl [Hw Hlive]. by apply (H l Hl).
Qed.

Lemma slot_inv_worker T id h clk d w d' : T <= clk 0%nat -> slot_inv T d ->
  HeartbeatCompileWorker id h clk d = Ok (w, d') -> slot_inv (clk 0%nat) d'.
Proof.
  intros HT Hinv0 H. pose proof (slot_inv_later _ _ _ Hinv0 HT) as Hinv. clear Hinv0.
  set (now := clk 0%nat) in *.
  pose proof Hinv as [H1 H2 H3 H4 H5 H6].
  unfold HeartbeatCompileWorker in H. inv_ok H. fold now in H.
  assert (0 <= hbMaxSlots h) as Hmax.
  { unfold contract, heartbeat_Validate in E. destruct (decide (MatchString _ _ = true)); [|done].
    destruct (decide (1 <= hbMaxSlots h <= 256)); [lia|done]. }
  destruct (first_where _ _) as [x|] eqn:Hw; inv_ok H; simplify_eq.
  - apply first_where_some in Hw as [Hx _]. destruct Hc as [_ Hc].
    assert (forall y, y ∈ compile_workers d -> cw_id y = cw_id x -> y = x) as Huniq
      by (intros; by eapply (key_unique cw_id)).
    split; cbn; [by rewrite update_where_map|done|done|done|..].
    + intros l Hl. destruct (H5 l Hl) as (y & Hy & Hid & Hf).
      exists (if decide (cw_id y = cw_id x) then heartbeat_row h now y else y).
      split; [apply elem_of_update_where; exists y; split; [done|]; case_decide; auto|].
      by case_decide.
    + intros y' t (y & Hy & [[Heq ->]|[_ ->]])%elem_of_update_where Ht; [|by apply H6].
      cbn. rewrite (Huniq y Hy Heq). destruct Hc as [[_ Hs]|Hnone].
      * rewrite <- Hs. by apply H6.
      * etrans; [exact (live_slots_later t now (cw_id x) d Hinv Ht)|].
        rewrite live_slots_none; [done|].
        intros l Hl Hwl Hlive. apply Hnone, Exists_exists. by exists l.
  - split; cbn; [|done|done|done|..].
    + rewrite fmap_app. apply NoDup_app. split_and!; [done| |apply NoDup_singleton].
      intros k Hk ->%list_elem_of_singleton. done.
    + intros l Hl. destruct (H5 l Hl) as (y & Hy & ?). exists y. set_solver.
    + intros y t [Hy| ->%list_elem_of_singleton]%elem_of_app Ht; [by apply H6|]. cbn.
      rewrite live_slots_none; [done|]. intros l Hl Hwl _. destruct (H5 l Hl) as (y & Hy & Hid & _).
      apply Hc. rewrite <- Hwl, <- Hid. by apply list_elem_of_fmap_2.
Qed.

Lemma slot_inv_reserve T id queued r clk d l d' : T <= clk 0%nat -> slot_inv T d ->
  ReserveCompileSlots uuid_Parse id queued r clk d = Ok (l, d') -> slot_inv (clk 0%nat) d'.
Proof.
  intros HT Hinv0 H. pose proof (slot_inv_later _ _ _ Hinv0 HT) as Hinv. clear Hinv0.
  set (now := clk 0%nat) in *.
  pose proof Hinv as [H1 H2 H3 H4 H5 H6].
  unfold ReserveCompileSlots in H. inv_ok H. fold now in H.
  assert (1 <= rr_Slots r) as Hslots.
  { unfold validateCompileReservation in E. inv_ok E. lia. }
  destruct (pick _ _) as [w|] eqn:Hp; inv_ok H; simplify_eq; [|done].
  apply pick_elem, list_elem_of_filter in Hp as [(_ & _ & Hfree) Hw].
  unfold exists_row in *. rewrite <- Forall_Exists_neg, Forall_forall in Hc0. cbn in Hc0.
  split; cbn.
  - by rewrite update_where_map.
  - rewrite fmap_app. apply NoDup_app. split_and!; [done| |apply NoDup_singleton].
    intros k (x & -> & Hx)%list_elem_of_fmap Hk%list_elem_of_singleton. apply (Hc0 x Hx). by left.
  - rewrite fmap_app. apply NoDup_app. split_and!; [done| |apply NoDup_singleton].
    intros k (x & -> & Hx)%list_elem_of_fmap Hk%list_elem_of_singleton. apply (Hc0 x Hx).
    right. by injection Hk.
  - intros x [Hx| ->%list_elem_of_singleton]%elem_of_app; [by apply H4|]. cbn. lia.
  - intros x Hx. assert (exists y, y ∈ compile_workers d /\ cw_id y = sl_worker_id x /\
      sl_fence_token x <= if decide (cw_id y = cw_id w) then cw_next_fence y + 1 else cw_next_fence y)
      as (y & Hy & Hid & Hf).
    { apply elem_of_app in Hx as [Hx| ->%list_elem_of_singleton].
      - destruct (H5 x Hx) as (y & Hy & Hid & Hf). exists y. split_and!; [done|done|]. case_decide; lia.
      - exists w. split_and!; [done|done|]. rewrite decide_True by done. cbn. lia. }
    case_decide as Heq.
    + exists (y <| cw_next_fence := cw_next_fence y + 1 |> <| cw_updated_at := clk 1%nat |>).
      split_and!; [apply elem_of_update_where; exists y; auto|done|done].
    + exists y. split_and!; [apply elem_of_update_where; exists y; auto|done|done].
  - intros y' t Hy' Ht.
    assert (exists y, y ∈ compile_workers d /\ cw_id y' = cw_id y /\ cw_max_slots y' = cw_max_slots y)
      as (y & Hy & -> & ->).
    { apply elem_of_update_where in Hy' as (y & Hy & [[_ ->]|[_ ->]]); eauto. }
    unfold live_slots. cbn. rewrite filter_app, sum_by_app.
    fold (live_slots t (cw_id y) d). rewrite filter_cons. case_decide as Hn; cbn.
    + destruct Hn as [Hid _]. cbn in Hid. rewrite (key_unique cw_id _ y w H1 Hy Hw) by done.
      pose proof (live_slots_later t now (cw_id w) d Hinv Ht). unfold sum_by. cbn. lia.
    + pose proof (H6 y t Hy Ht). unfold sum_by. cbn. lia.
Qed.

Lemma slot_inv_renew T lease dur fresh clk d d' : T <= clk 0%nat -> slot_inv T d ->
  HeartbeatCompileLease lease dur fresh clk d = Ok d' -> slot_inv (clk 0%nat) d'.
Proof.
  unfold HeartbeatCompileLease. intros HT Hi H. inv_ok H. subst d'.
  apply (slot_inv_update T); [done|done|]. intros l _ (_ & Hl & _). by split_and!.
Qed.

Lemma slot_inv_release T lease reason clk d d' : T <= clk 0%nat -> slot_inv T d ->
  ReleaseCompileLease lease reason clk d = Ok d' -> slot_inv (clk 0%nat) d'.
Proof.
  unfold ReleaseCompileLease. intros HT Hi H. inv_ok H. subst d'.
  apply (slot_inv_update T); [done|done|]. intros l _ _. split_and!; [done..|].
  intros t _ [Hs _]. cbn in Hs. by case_decide.
Qed.

Lemma slot_step_inv p q : slot_step p q -> slot_inv p.1 p.2 -> slot_inv q.1 q.2 /\ p.1 <= q.1.
Proof.
  intros H Hi. destruct H as [T id h clk d w d' HT H|T id queued r clk d l d' HT _ H
    |T lease dur fresh clk d d' HT H|T lease reason clk d d' HT H|T lease o clk d d' HT H
    |T T' d d' HT Hw Hl]; cbn in *; (split; [|done]).
  - by eapply slot_inv_worker.
  - by eapply slot_inv_reserve.
  - by eapply slot_inv_renew.
  - by eapply slot_inv_release.
  - unfold RecordCompileObservation in H. inv_ok H. subst d'.
    destruct (slot_inv_later _ _ _ Hi HT). by split.
  - destruct (slot_inv_later _ _ _ Hi HT) as [? ? ? ? ? H6].
    split; unfold live_slots; rewrite ?Hw, ?Hl; done.
Qed.

Lemma slot_run_inv p q : rtc slot_step p q -> slot_inv p.1 p.2 -> slot_inv q.1 q.2 /\ p.1 <= q.1.
Proof.
  induction 1 as [|p p1 q Hs _ IH]; intros Hi; [split; [done|lia]|].
  apply slot_step_inv in Hs as [Hi1 Hle]; [|done]. destruct (IH Hi1). split; [done|lia].
Qed.

Lemma no_leases_inv T d : compile_workers d = [] -> slot_leases d = [] -> slot_inv T d.
Proof.
  intros Hw Hl. split; rewrite ?Hw, ?Hl; try apply NoDup_nil_2; set_solver.
Qed.

(** A lease of the later state comes from one of the earlier state that was
    live whenever it is live, or is new. *)
Lemma slot_step_lease p q l' : slot_step p q -> slot_inv p.1 p.2 -> l' ∈ slot_leases q.2 ->
  (exists l, l ∈ slot_leases p.2 /\ sl_id l' = sl_id l /\
     (forall t, q.1 <= t -> live t l' -> live q.1 l)) \/
  (forall l, l ∈ slot_leases p.2 -> sl_id l <> sl_id l').
Proof.
  intros H Hi. destruct H as [T id h clk d w d' HT H|T id queued r clk d l d' HT _ H
    |T lease dur fresh clk d d' HT H|T lease reason clk d d' HT H|T lease o clk d d' HT H
    |T T' d d' HT Hw Hl]; cbn in *.
  - unfold HeartbeatCompileWorker in H. inv_ok H.
    destruct (first_where _ _); inv_ok H; simplify_eq; cbn; intros Hl'; left; exists l';
      (split_and!; [done|done|]; intros t ? [? ?]; split; [done|lia]).
  - unfold ReserveCompileSlots in H. inv_ok H.
    destruct (pick _ _) as [w|]; inv_ok H; simplify_eq; cbn.
    + intros [Hl'| ->%list_elem_of_singleton]%elem_of_app.
      * left. exists l'. split_and!; [done|done|]. intros t ? [? ?]; split; [done|lia].
      * right. intros x Hx Hid. apply Hc0, Exists_exists. exists x. split; [done|]. by left.
    + intros Hl'. left. exists l'. split_and!; [done|done|]. intros t ? [? ?]; split; [done|lia].
  - unfold HeartbeatCompileLease in H. inv_ok H. subst d'. cbn.
    intros (l & Hl & [[(_ & Hlive & _) ->]|[_ ->]])%elem_of_update_where; left; exists l;
      (split_and!; [done|done|]; intros t ? [? ?]; split; [apply Hlive || done|apply Hlive || lia]).
  - unfold ReleaseCompileLease in H. inv_ok H. subst d'. cbn.
    intros (l & Hl & [[_ ->]|[_ ->]])%elem_of_update_where; left; exists l;
      (split_and!; [done|done|]); intros t ? [Hs ?]; cbn in *; [by case_decide|split; [done|lia]].
  - unfold RecordCompileObservation in H. inv_ok H. subst d'. cbn. intros Hl'. left. exists l'.
    split_and!; [done|done|]. intros t ? [? ?]; split; [done|lia].
  - rewrite Hl. intros Hl'. left. exists l'. split_and!; [done|done|].
    intros t ? [? ?]; split; [done|lia].
Qed.

Lemma slot_step_ids p q id : slot_step p q -> id ∈ sl_id <$> slot_leases p.2 ->
  id ∈ sl_id <$> slot_leases q.2.
Proof.
  intros H. destruct H as [T wid h clk d w d' HT H|T lid queued r clk d l d' HT _ H
    |T lease dur fresh clk d d' HT H|T lease reason clk d d' HT H|T lease o clk d d' HT H
    |T T' d d' HT Hw Hl]; cbn in *.
  - unfold HeartbeatCompileWorker in H. inv_ok H.
    destruct (first_where _ _); inv_ok H; by simplify_eq.
  - unfold ReserveCompileSlots in H. inv_ok H.
    destruct (pick _ _) as [w|]; inv_ok H; simplify_eq; [|done]. cbn. rewrite fmap_app. set_solver.
  - unfold HeartbeatCompileLease in H. inv_ok H. subst d'. cbn. by rewrite update_where_map.
  - unfold ReleaseCompileLease in H. inv_ok H. subst d'. cbn. by rewrite update_where_map.
  - unfold RecordCompileObservation in H. inv_ok H. by subst d'.
  - by rewrite Hl.
Qed.

(** No row with this identifier is live from [T] on. *)
Definition dead (id : uuid) (T : time) (d : db) : Prop :=
  id ∈ sl_id <$> slot_leases d /\
  forall l t, l ∈ slot_leases d -> sl_id l = id -> T <= t -> ~ live t l.

Lemma slot_step_dead id p q : slot_step p q -> slot_inv p.1 p.2 ->
  dead id p.1 p.2 -> dead id q.1 q.2.
Proof.
  intros Hs Hi [Hin Hdead]. destruct (slot_step_inv _ _ Hs Hi) as [Hi' Hle]. split.
  - eapply slot_step_ids; eauto.
  - intros l' t Hl' Hid Ht Hlive.
    destruct (slot_step_lease _ _ l' Hs Hi Hl') as [(l & Hl & Hidl & Hback)|Hnew].
    + apply (Hdead l q.1 Hl); [congruence|lia|]. by apply (Hback t).
    + apply list_elem_of_fmap in Hin as (l & Heq & Hl). apply (Hnew l Hl). congruence.
Qed.

Lemma slot_run_dead id p q : rtc slot_step p q -> slot_inv p.1 p.2 ->
  dead id p.1 p.2 -> dead id q.1 q.2.
Proof.
  induction 1 as [|p p1 q Hs _ IH]; intros Hi Hd; [done|].
  apply IH; [by apply (slot_step_inv _ _ Hs)|by eapply slot_step_dead].
Qed.

(** C6. A compile worker is never oversubscribed: in every state the operations
    reach from an empty inventory, and at every time from then on, the slots of
    the worker's live leases fit into its current slot count; and the fence
    tokens of a worker identify its leases and never exceed the counter the
    next reservation increments. *)
Theorem slots_never_oversubscribed (T0 T : time) (d0 d : db)
    (Hw0 : compile_workers d0 = []) (Hl0 : slot_leases d0 = [])
    (R : rtc slot_step (T0, d0) (T, d)) (w : compile_worker) (Hw : w ∈ compile_workers d) :
  (forall t, T <= t -> live_slots t (cw_id w) d <= cw_max_slots w) /\
  (forall l, l ∈ slot_leases d -> sl_worker_id l = cw_id w -> sl_fence_token l <= cw_next_fence w) /\
  (forall l1 l2, l1 ∈ slot_leases d -> l2 ∈ slot_leases d ->
     sl_worker_id l1 = cw_id w -> sl_worker_id l2 = cw_id w ->
     sl_fence_token l1 = sl_fence_token l2 -> l1 = l2).
Proof.
  apply slot_run_inv in R as [Hi _]; [|by apply no_leases_inv]. cbn in Hi. split_and!.
  - intros t Ht. by apply (inv_capacity _ _ Hi).
  - intros l Hl Hlw. destruct (inv_owner _ _ Hi l Hl) as (y & Hy & Hid & Hf).
    rewrite <- (key_unique cw_id _ y w (inv_worker_ids _ _ Hi) Hy Hw); [done|congruence].
  - intros l1 l2 H1 H2 W1 W2 Hf. apply (key_unique lease_fence (slot_leases d)); auto.
    + apply Hi.
    + unfold lease_fence. congruence.
Qed.

(** A lease that has expired or been released stays dead: whatever the
    components do afterwards, no presentation of it, with any claimed owner,
    fence or pool, is renewed, passes the authorization check, or records an
    observation. *)
Theorem dead_lease_stays_dead (T T' : time) (d d' : db) (l : slot_lease) (lease : Lease) (clk : clock)
    (Hi : slot_inv T d) (Hl : l ∈ slot_leases d) (Hdead : ~ live T l)
    (R : rtc slot_step (T, d) (T', d')) (Hid : leaseID lease = sl_id l) (Hclk : T' <= clk 0%nat) :
  (forall dur fresh r, HeartbeatCompileLease lease dur fresh clk d' <> Ok r) /\
  (forall fresh, CheckCompileLease lease fresh clk d' <> Ok tt) /\
  (forall o r, RecordCompileObservation lease o clk d' <> Ok r).
Proof.
  assert (dead (sl_id l) T' d') as [_ Hd].
  { apply (slot_run_dead _ (T, d) (T', d') R Hi). split; [by apply list_elem_of_fmap_2|]. cbn.
    intros x t Hx Hxid Ht [Hs He]. apply Hdead.
    rewrite <- (key_unique sl_id _ x l (inv_lease_ids _ _ Hi) Hx Hl Hxid). split; [done|lia]. }
  assert (forall x, x ∈ slot_leases d' -> lease_row lease x -> ~ live (clk 0%nat) x) as Hno.
  { intros x Hx Hr. apply (Hd x _ Hx); [|done]. rewrite <- Hid. apply Hr. }
  split_and!.
  - intros dur fresh r H. unfold HeartbeatCompileLease in H. inv_ok H.
    assert (0 < count_where (usable lease (clk 0%nat) fresh d') (slot_leases d'))%nat
      as (x & Hx & Hr & Hlive & _)%count_where_pos by lia.
    by apply (Hno x Hx).
  - intros fresh H. unfold CheckCompileLease, exists_row in H. inv_ok H.
    apply Exists_exists in Hc0 as (x & Hx & Hr & Hlive & _). by apply (Hno x Hx).
  - intros o r H. unfold RecordCompileObservation in H. inv_ok H.
    rewrite filter_none in Hc; [done|]. intros x Hx [Hr Hlive]. by apply (Hno x Hx).
Qed.

(** Reservations are exact.  A valid request is answered with no lease only
    when no fresh worker of exactly its pool has enough free slots; a granted
    lease names such a worker, one with the most free slots, carries a fence
    greater than every earlier one of the worker, and passes the authorization
    check from then until it expires, for as long as its attempt keeps its
    admission lease and its worker stays fresh. *)
Theorem reservation_exact id queued (r : ReservationRequest) (clk : clock) (d d' : db)
    (pool : Pool) (poolID : string) (lease : option Lease) (T : time)
    (Hi : slot_inv T d) (HT : T <= clk 0%nat)
    (Hpool : Normalize (rr_Pool r) = Ok pool) (HID : ID pool = Ok poolID)
    (H : ReserveCompileSlots uuid_Parse id queued r clk d = Ok (lease, d')) :
  match lease with
  | None => d' = d /\ forall w, w ∈ compile_workers d -> ~ reservable (clk 0%nat) poolID pool r d w
  | Some lease =>
      (exists w, w ∈ compile_workers d /\ cw_id w = WorkerID lease /\
         reservable (clk 0%nat) poolID pool r d w /\
         (forall w', w' ∈ compile_workers d -> reservable (clk 0%nat) poolID pool r d w' ->
            cw_max_slots w' - live_slots (clk 0%nat) (cw_id w') d <=
            cw_max_slots w - live_slots (clk 0%nat) (cw_id w) d)) /\
      (forall l, l ∈ slot_leases d -> sl_worker_id l = WorkerID lease -> sl_fence_token l < Fence lease) /\
      (forall now fresh, 0 < fresh <= maxWorkerFreshness -> now < ExpiresAt lease ->
         exists_row (fun a => wl_attempt_id a = AttemptID lease /\
           wl_fence_token a = AttemptFence lease /\ now < wl_expires_at a) (worker_leases d') ->
         exists_row (fun w => cw_id w = WorkerID lease /\ fresh_compile_worker now fresh w)
           (compile_workers d') ->
         CheckCompileLease lease fresh (fun _ => now) d' = Ok tt)
  end.
Proof.
  unfold ReserveCompileSlots in H. rewrite Hpool in H. cbn [contract] in H. rewrite HID in H.
  cbn [contract] in H. clear Hpool HID. inv_ok_step H.
  destruct (pick _ _) as [w|] eqn:Hp; inv_ok H; simplify_eq.
  2:{ split; [done|]. intros w Hw Hr. apply pick_none in Hp.
      assert (w ∈ @nil compile_worker) as []%elem_of_nil. rewrite <- Hp. by apply list_elem_of_filter. }
  pose proof (pick_elem _ _ _ Hp) as [Hr Hw]%list_elem_of_filter. cbn. split_and!.
  - exists w. split_and!; [done|done|done|]. intros w' Hw' Hr'.
    assert (w' ∈ filter (reservable (clk 0%nat) poolID pool r d) (compile_workers d)) as Hf
      by (by apply list_elem_of_filter).
    pose proof (pick_least _ _ _ w' Hp Hf) as Hle. revert Hle.
    unfold free_order, then_by, desc, by_key. destruct (Z.compare_spec
      (cw_max_slots w' - live_slots (clk 0%nat) (cw_id w') d)
      (cw_max_slots w - live_slots (clk 0%nat) (cw_id w) d)); [lia|lia|done].
  - intros l Hl Hlw. destruct (inv_owner _ _ Hi l Hl) as (y & Hy & Hid & Hf).
    rewrite (key_unique cw_id _ y w (inv_worker_ids _ _ Hi) Hy Hw) in Hf by congruence. lia.
  - intros now fresh Hfresh Hnow Hadm Hworker. unfold CheckCompileLease.
    rewrite decide_True by lia. rewrite decide_True; [done|]. apply Exists_exists. cbn.
    eexists. split; [apply elem_of_app; right; by apply list_elem_of_singleton|].
    split; [by split_and!|]. split; [done|]. by split.
Qed.
End slot_ledger.

(** ** A run of the slot ledger *)
Definition uuid_ex (s : string) : bool := bool_decide (String.length s = 36%nat).
Definition project_id : uuid := "00000000-0000-0000-0000-00000000000a".
Definition job_id : uuid := "00000000-0000-0000-0000-00000000000b".
Definition attempt_id : uuid := "00000000-0000-0000-0000-00000000000c".
Definition heartbeat_ex : WorkerHeartbeat := mkHeartbeat "cc-1" "10.1.0.5:3632" 4 pool_ex.
Definition reservation_ex (slots : Z) : ReservationRequest :=
  mkReservationRequest project_id job_id attempt_id 1 "b1" "net-1" slots (60 * Second) (30 * Second)
    pool_ex "local".

Definition slots0 : db :=
  empty_db <| build_jobs := [job_ex job_id project_id "building"] |>
           <| build_attempts := [attempt_ex attempt_id job_id 1] |>
           <| worker_leases := [mkWorkerLease "l1" "w1" attempt_id 1 KAttempt (500 * Second) 0] |>.
Definition slots1 : db := match HeartbeatCompileWorker "cw1" heartbeat_ex (at_time 1) slots0 with
  | Ok (_, d) => d | Err _ => slots0 end.
Definition reserve_at (id : uuid) (slots t : Z) (d : db) : option Lease * db :=
  ok_or (None, d) (ReserveCompileSlots uuid_ex id 0 (reservation_ex slots) (at_time t) d).
Definition slots2 : db := (reserve_at "s1" 3 2 slots1).2.
Definition lease1 : Lease := default lease_ex (reserve_at "s1" 3 2 slots1).1.

Lemma slots2_run : rtc (slot_step uuid_ex) (0, slots0) (2 * Second, slots2).
Proof.
  apply (rtc_l _ _ (1 * Second, slots1)).
  - eapply (slot_worker uuid_ex 0 "cw1" heartbeat_ex (at_time 1)); [done|].
    vm_compute. reflexivity.
  - apply rtc_once. eapply (slot_reserve uuid_ex (1 * Second) "s1" 0 (reservation_ex 3) (at_time 2));
      [done|done|]. vm_compute. reflexivity.
Qed.

Lemma slots_never_oversubscribed_witness :
  (forall t, 2 * Second <= t -> live_slots t "cw1" slots2 <= 4) /\
  live_slots (2 * Second) "cw1" slots2 = 3 /\ (reserve_at "s2" 2 3 slots2).1 = None.
Proof.
  split; [|vm_compute; done].
  assert (exists w, compile_workers slots2 = [w] /\ cw_id w = "cw1" /\ cw_max_slots w = 4)
    as (w & Hw & Hid & Hmax).
  { eexists. split; [vm_compute; reflexivity|]. done. }
  rewrite <- Hid, <- Hmax.
  apply (slots_never_oversubscribed uuid_ex 0 (2 * Second) slots0 slots2);
    [reflexivity|reflexivity|apply slots2_run|]. rewrite Hw. by apply list_elem_of_singleton.
Defined.

Lemma slots2_inv : slot_inv (2 * Second) slots2.
Proof. apply (slot_run_inv uuid_ex _ _ slots2_run). by apply no_leases_inv. Qed.

Lemma dead_lease_stays_dead_witness :
  CheckCompileLease lease1 (30 * Second) (at_time 20) slots2 = Ok tt /\
  CheckCompileLease lease1 (30 * Second) (at_time 100) slots2 <> Ok tt /\
  forall r, HeartbeatCompileLease lease1 (60 * Second) (30 * Second) (at_time 100) slots2 <> Ok r.
Proof.
  split; [vm_compute; reflexivity|].
  assert (exists l, slot_leases slots2 = [l] /\ ~ live (100 * Second) l /\ leaseID lease1 = sl_id l)
    as (l & Hl & Hn & Hid).
  { eexists. split; [vm_compute; reflexivity|]. split; [|vm_compute; reflexivity].
    apply (bool_decide_unpack _). vm_compute. reflexivity. }
  destruct (dead_lease_stays_dead uuid_ex (100 * Second) (100 * Second) slots2 slots2 l lease1
    (at_time 100)) as (H1 & H2 & _).
  - eapply slot_inv_later; [apply slots2_inv|done].
  - rewrite Hl. by apply list_elem_of_singleton.
  - exact Hn.
  - apply rtc_refl.
  - exact Hid.
  - done.
  - split; [apply H2|]. intros r. apply H1.
Defined.

Lemma reservation_exact_witness :
  exists poolID, ID pool_ex' = Ok poolID /\
    (forall w, w ∈ compile_workers slots2 ->
       ~ reservable (3 * Second) poolID pool_ex' (reservation_ex 2) slots2 w) /\
    (forall l, l ∈ slot_leases slots1 -> sl_worker_id l = WorkerID lease1 ->
       sl_fence_token l < Fence lease1).
Proof.
  eexists. split; [vm_compute; reflexivity|]. split.
  - eapply (reservation_exact uuid_ex "s2" 0 (reservation_ex 2) (at_time 3) slots2 slots2 pool_ex' _
              None (2 * Second)); [apply slots2_inv|done|vm_compute; reflexivity..].
  - eapply (reservation_exact uuid_ex "s1" 0 (reservation_ex 3) (at_time 2) slots1 slots2 pool_ex' _
              (Some lease1) (1 * Second)); [|done|vm_compute; reflexivity..].
    apply (slot_run_inv uuid_ex (0, slots0) (1 * Second, slots1)); [|by apply no_leases_inv].
    apply rtc_once. eapply (slot_worker uuid_ex 0 "cw1" heartbeat_ex (at_time 1)); [done|].
    vm_compute. reflexivity.
Defined.
