(* ===== verification/Budgets.v ===== *)
(** * Admission limits and runtime budgets

    [internal/persistence/usage_budgets.go] and the accounting half of
    [jobs.go] and [scheduler.go]: what a request reserves, the limits a
    submission, a retry and a claim are checked against, the charge of a
    finished attempt, and the failure-storm gate. *)

From stdpp Require Import pretty.
From S2P Require Import Prelude GoStrings Schema.
Open Scope string_scope.
Open Scope list_scope.
Open Scope Z_scope.

Definition legacyMaxRuntimeMinutes : Z := 60.
Definition legacyCloudCostMicrounitsPerMinute : Z := 1000.

(** [builder.AdmissionError]: code, limit, current usage, retry delay *)
Record AdmissionError := mkAdmissionError {
  ae_code : string;
  ae_limit : Z;
  ae_current : Z;
  ae_retry_after : duration
}.

Inductive budget_error : Type :=
| RequestRequired
| RuntimeContractMissing (class : string)
| RuntimeContractBounds
| RuntimeContractOverflow
| ResourceInvalid (class key : string)
| Admission (e : AdmissionError)
| PolicyMissing.

(** ** What a request reserves *)
Record runtimeBudgetSpec := mkRuntimeBudget {
  MaxRuntimeSeconds : Z;
  CloudCostMicrounitsPerMinute : Z;
  ReservedCloudCostMicrounits : Z
}.

Definition runtime_contract (r : BuildRequest) : result budget_error (Z * Z) :=
  match rq_resolved_context r with
  | None => Ok (legacyMaxRuntimeMinutes, legacyCloudCostMicrounitsPerMinute)
  | Some c =>
      let '(minutes, rate) :=
        if decide (rx_max_runtime_minutes c <> 0 \/ rx_cloud_cost_microunits_per_minute c <> 0)
        then (rx_max_runtime_minutes c, rx_cloud_cost_microunits_per_minute c)
        else (legacyMaxRuntimeMinutes, legacyCloudCostMicrounitsPerMinute) in
      check ~ (minutes <= 0 \/ rate <= 0) else RuntimeContractMissing (rq_resource_class r);;
      Ok (minutes, rate)
  end.

Definition runtimeBudgetSpecFromRequest (request : option BuildRequest)
    : result budget_error runtimeBudgetSpec :=
  match request with
  | None => Err RequestRequired
  | Some r =>
      let! (minutes, rate) := runtime_contract r in
      check ~ (minutes <= 0 \/ 24 * 60 < minutes \/ rate <= 0 \/ 1000000000000 < rate)
        else RuntimeContractBounds;;
      let seconds := int64 (minutes * 60) in
      check ~ (Z.quot int64_max minutes < rate) else RuntimeContractOverflow;;
      Ok (mkRuntimeBudget seconds rate (int64 (minutes * rate)))
  end.

Record resourceVector := mkResources { VCPUs : Z; MemoryMiB : Z; DiskGiB : Z }.

Definition parse_resource (class : string) (spec : gmap string string) (key : string)
    : result budget_error Z :=
  match Atoi (TrimSpace (default "" (spec !! key))) with
  | None => Err (ResourceInvalid class key)
  | Some value => check 0 < value else ResourceInvalid class key;; Ok value
  end.

Definition resourceVectorFromRequest (req : option BuildRequest) : result budget_error resourceVector :=
  match req with
  | None => Err RequestRequired
  | Some r =>
      let spec := match rq_resolved_context r with
        | Some c => if decide (rq_machine_spec r = ∅) then rx_machine_spec c else rq_machine_spec r
        | None => rq_machine_spec r
        end in
      if decide (spec = ∅ /\ rq_resource_class r = "") then Ok (mkResources 4 8192 50) else
      let! vcpus := parse_resource (rq_resource_class r) spec "cores" in
      let! memoryMiB := parse_resource (rq_resource_class r) spec "memory" in
      let! diskGiB := parse_resource (rq_resource_class r) spec "disk_size" in
      Ok (mkResources vcpus memoryMiB diskGiB)
  end.

(** ** Request limits *)
Definition admission {A} (code : string) (limit current : Z) (retry : duration)
    : result budget_error A := Err (Admission (mkAdmissionError code limit current retry)).

Definition checkRuntimeRequestLimits (request : option BuildRequest)
    (maxBuildSeconds maxCloudCost : Z) : result budget_error unit :=
  match runtimeBudgetSpecFromRequest request with
  | Err _ => admission "runtime_budget_request_invalid" 0 0 0
  | Ok spec =>
      if decide (maxBuildSeconds < MaxRuntimeSeconds spec) then
        admission "build_minute_request_exceeds_daily_limit" maxBuildSeconds (MaxRuntimeSeconds spec) 0
      else if decide (maxCloudCost < ReservedCloudCostMicrounits spec) then
        admission "cloud_cost_request_exceeds_daily_limit" maxCloudCost
          (ReservedCloudCostMicrounits spec) 0
      else Ok tt
  end.

Definition checkResourceRequestLimits (request : option BuildRequest)
    (maxVCPUs maxMemoryMiB maxDiskGiB : Z) : result budget_error unit :=
  match resourceVectorFromRequest request with
  | Err _ => admission "resource_request_invalid" 0 0 0
  | Ok resources =>
      if decide (maxVCPUs < VCPUs resources) then
        admission "vcpu_request_exceeds_limit" maxVCPUs (VCPUs resources) 0
      else if decide (maxMemoryMiB < MemoryMiB resources) then
        admission "memory_request_exceeds_limit" maxMemoryMiB (MemoryMiB resources) 0
      else if decide (maxDiskGiB < DiskGiB resources) then
        admission "disk_request_exceeds_limit" maxDiskGiB (DiskGiB resources) 0
      else Ok tt
  end.

(** ** The project's policy and usage *)
Definition policy_of (projectID : uuid) (d : db) : result budget_error project_policy :=
  match first_where (fun p => pp_project_id p = projectID) (project_policies d) with
  | Some p => Ok p
  | None => Err PolicyMissing
  end.

Definition day_length : duration := 24 * Hour.
Definition utc_day (t : time) : Z := t / day_length.
Definition day_end (t : time) : time := (utc_day t + 1) * day_length.

Definition in_project (projectID : uuid) (j : build_job) : Prop :=
  j_project_id j = projectID /\ j_legacy_visible j = true.
#[export] Instance in_project_dec projectID j : Decision (in_project projectID j).
Proof. unfold in_project. apply _. Defined.

Definition queued_jobs (projectID : uuid) (d : db) : Z :=
  Z.of_nat (count_where (fun j => in_project projectID j /\ j_state j = "queued") (build_jobs d)).

(** The states in which a job holds an active slot of its project. *)
Definition activeJobStates : list string :=
  ["claimed"; "provisioning"; "forwarding"; "deploying"; "building"; "collecting"; "verifying";
   "signing"; "publishing"].

Definition active_jobs (projectID : uuid) (except : build_job -> bool) (d : db) : Z :=
  Z.of_nat (count_where (fun j => in_project projectID j /\ except j = false /\
              j_state j ∈ activeJobStates) (build_jobs d)).

Definition live_reservation (projectID : uuid) (r : reservation) : Prop :=
  rv_project_id r = projectID /\ rv_state r = Live.
#[export] Instance live_reservation_dec projectID r : Decision (live_reservation projectID r).
Proof. unfold live_reservation. apply _. Defined.

Definition live_reservations (projectID : uuid) (d : db) : list reservation :=
  filter (live_reservation projectID) (resource_reservations d).

(** The charge of an attempt to its day: what it reserved while it runs, what
    it was charged once settled. *)
Definition build_seconds (u : attempt_usage) : Z :=
  if decide (us_state u = UActive) then us_reserved_build_seconds u else us_charged_build_seconds u.
Definition cloud_cost (u : attempt_usage) : Z :=
  if decide (us_state u = UActive) then us_reserved_cloud_cost_microunits u
  else us_charged_cloud_cost_microunits u.
Definition day_usage (projectID : uuid) (day : Z) (d : db) : list attempt_usage :=
  filter (fun u => us_project_id u = projectID /\ us_budget_day u = day) (attempt_usages d).

(** ** Submissions and retries *)

(** The policy row, with the time it was read at. *)
Definition lockSubmissionPolicy (projectID : uuid) (now : time) (d : db)
    : result budget_error (project_policy * time) :=
  let! p := policy_of projectID d in
  Ok (p, now).

Definition abuse_suspended (p : project_policy) (now : time) : option time :=
  match pp_abuse_suspended_until p with
  | Some until => if decide (now < until) then Some until else None
  | None => None
  end.

(** The limits that concern the request alone. *)
Definition check_policy_gates (p : project_policy) (now : time) (request : option BuildRequest)
    : result budget_error unit :=
  if decide (pp_suspended p = true) then admission "project_suspended" 0 0 0 else
  match abuse_suspended p now with
  | Some until => admission "project_abuse_suspended" 0 0 (until - now)
  | None =>
      let! _ := checkResourceRequestLimits request (pp_max_active_vcpus p)
                  (pp_max_active_memory_mib p) (pp_max_active_disk_gib p) in
      checkRuntimeRequestLimits request (pp_max_daily_build_seconds p)
        (pp_max_daily_cloud_cost_microunits p)
  end.

(** [local] is the server's own clock, which [time.Until] reads. *)
Definition checkSubmissionAdmission (projectID : uuid) (policy : project_policy * time)
    (request : option BuildRequest) (now local : time) (d : db) : result budget_error unit :=
  let '(p, policyNow) := policy in
  let! _ := check_policy_gates p policyNow request in
  let queued := queued_jobs projectID d in
  let starts := utc_day now * day_length in
  let daily := Z.of_nat (count_where (fun j => j_project_id j = projectID /\
                 starts <= j_created_at j < starts + day_length) (build_jobs d)) in
  if decide (pp_max_queued_jobs p <= queued) then
    admission "queued_limit_reached" (pp_max_queued_jobs p) queued (30 * Second)
  else if decide (pp_max_daily_submissions p <= daily) then
    admission "daily_submission_limit_reached" (pp_max_daily_submissions p) daily
      (Z.max Second (day_end now - local))
  else Ok tt.

Definition lockAndCheckRetryAdmission (projectID jobID : uuid) (request : option BuildRequest)
    (now : time) (d : db) : result budget_error unit :=
  let! p := policy_of projectID d in
  let! _ := check_policy_gates p now request in
  let queued := Z.of_nat (count_where (fun j => in_project projectID j /\ j_id j <> jobID /\
                  j_state j = "queued") (build_jobs d)) in
  if decide (pp_max_queued_jobs p <= queued) then
    admission "queued_limit_reached" (pp_max_queued_jobs p) queued (30 * Second)
  else Ok tt.

(** ** Claims

    [None] is Go's zero time: no retry time. *)
Definition lockAndCheckClaimAdmission (projectID excludeJobID : uuid) (request : resourceVector)
    (budget : runtimeBudgetSpec) (now : time) (d : db)
    : result budget_error (bool * option time) :=
  let! p := policy_of projectID d in
  if decide (pp_suspended p = true) then Ok (false, None) else
  match abuse_suspended p now with
  | Some until => Ok (false, Some until)
  | None =>
      let active := active_jobs projectID (fun j => bool_decide (j_id j = excludeJobID)) d in
      if decide (pp_max_active_jobs p <= active) then Ok (false, None) else
      let live := live_reservations projectID d in
      let claimed := Z.of_nat (count_where (fun r => rv_phase r = RClaimed) live) in
      if decide (pp_max_claimed_attempts p <= claimed) then Ok (false, None) else
      if decide (sum_by rv_vcpus live + VCPUs request <= pp_max_active_vcpus p /\
                 sum_by rv_memory_mib live + MemoryMiB request <= pp_max_active_memory_mib p /\
                 sum_by rv_disk_gib live + DiskGiB request <= pp_max_active_disk_gib p) then
        let usage := day_usage projectID (utc_day now) d in
        if decide (pp_max_daily_build_seconds p < sum_by build_seconds usage + MaxRuntimeSeconds budget \/
                   pp_max_daily_cloud_cost_microunits p <
                     sum_by cloud_cost usage + ReservedCloudCostMicrounits budget) then
          Ok (false, Some (day_end now))
        else Ok (true, None)
      else Ok (false, None)
  end.

(** ** Metering an attempt *)
Definition insertAttemptUsage (attemptID projectID jobID : uuid) (spec : runtimeBudgetSpec)
    (startedAt : time) (d : db) : db :=
  d <| attempt_usages := attempt_usages d ++
    [mkUsage attemptID projectID jobID (utc_day startedAt) (MaxRuntimeSeconds spec)
       (CloudCostMicrounitsPerMinute spec) (MaxRuntimeSeconds spec)
       (ReservedCloudCostMicrounits spec) 0 0 startedAt None UActive None ""] |>.

Definition active_usage (attemptID : uuid) (u : attempt_usage) : Prop :=
  us_attempt_id u = attemptID /\ us_state u = UActive.
#[export] Instance active_usage_dec attemptID u : Decision (active_usage attemptID u).
Proof. unfold active_usage. apply _. Defined.

Definition markAttemptCloudStarted (attemptID : uuid) (startedAt : time) (d : db) : db :=
  d <| attempt_usages :=
    update_where (active_usage attemptID)
      (fun u => u <| us_cloud_started_at := Some (default startedAt (us_cloud_started_at u)) |>)
      (attempt_usages d) |>.

(** [CEIL(EXTRACT(EPOCH FROM elapsed) / unit)] *)
Definition ceil_units (elapsed unit : duration) : Z := - ((- elapsed) / unit).

Definition settle_row (settledAt : time) (reason : string) (u : attempt_usage) : attempt_usage :=
  u <| us_charged_build_seconds :=
         Z.min (us_reserved_build_seconds u)
           (Z.max 1 (ceil_units (settledAt - us_metering_started_at u) Second)) |>
    <| us_charged_cloud_cost_microunits :=
         match us_cloud_started_at u with
         | None => 0
         | Some started =>
             Z.min (us_reserved_cloud_cost_microunits u)
               (Z.max 1 (ceil_units (settledAt - started) Minute) *
                us_cloud_cost_microunits_per_minute u)
         end |>
    <| us_state := USettled |> <| us_settled_at := Some settledAt |>
    <| us_settlement_reason := reason |>.

Definition in_hour (now : time) (o : option time) : Prop :=
  match o with Some t => now - Hour <= t <= now | None => False end.
#[export] Instance in_hour_dec now o : Decision (in_hour now o).
Proof. destruct o; simpl; apply _. Defined.

(** Failed or expired attempts of the project in the hour up to [now]. *)
Definition recent_failures (projectID : uuid) (now : time) (d : db) : Z :=
  Z.of_nat (count_where (fun a => exists_row (fun j => j_id j = a_job_id a /\
                j_project_id j = projectID) (build_jobs d) /\
              a_state a ∈ ["failed"; "expired"] /\
              in_hour now (a_finished_at a))
            (build_attempts d)).

Definition applyFailureStormSuspension (projectID : uuid) (now : time) (d : db)
    : result budget_error db :=
  let! p := policy_of projectID d in
  let failures := recent_failures projectID now d in
  if decide (failures < pp_max_failures_per_hour p) then Ok d else
  let until := now + pp_abuse_cooldown_seconds p * Second in
  let generation := pp_abuse_generation p + 1 in
  let d := d <| project_policies :=
    update_where (fun x => pp_project_id x = projectID)
      (fun x => x <| pp_abuse_suspended_until :=
                       Some (match pp_abuse_suspended_until x with
                             | Some t => Z.max t until | None => until end) |>
                  <| pp_abuse_reason :=
                       pretty failures +:+ " failed or expired attempts in the trailing hour" |>
                  <| pp_abuse_generation := pp_abuse_generation x + 1 |>
                  <| pp_updated_by := "scheduler.abuse-gate" |> <| pp_updated_at := now |>)
      (project_policies d) |> in
  Ok (d <| audit_events := audit_events d ++
        [mkAudit "scheduler" "project.abuse_suspended" projectID failures
           (pp_max_failures_per_hour p) until generation now] |>).

Definition settleAttemptUsage (attemptID : uuid) (reason terminalState : string) (settledAt : time)
    (d : db) : result budget_error db :=
  match first_where (active_usage attemptID) (attempt_usages d) with
  | None => Ok d
  | Some u =>
      let projectID := us_project_id u in
      let d := d <| attempt_usages :=
        update_where (active_usage attemptID) (settle_row settledAt reason) (attempt_usages d) |> in
      let d := d <| build_jobs :=
        update_where (fun j => j_project_id j = projectID /\ j_state j = "queued" /\
                               j_cancel_requested_at j = None)
          (fun j => j <| j_next_attempt_at := Z.min (j_next_attempt_at j) settledAt |>)
          (build_jobs d) |> in
      if decide (terminalState = "failed" \/ terminalState = "expired")
      then applyFailureStormSuspension projectID settledAt d
      else Ok d
  end.

Fixpoint settle_all (attemptIDs : list uuid) (reason terminalState : string) (settledAt : time)
    (d : db) : result budget_error db :=
  match attemptIDs with
  | [] => Ok d
  | id :: ids =>
      let! d := settleAttemptUsage id reason terminalState settledAt d in
      settle_all ids reason terminalState settledAt d
  end.

Definition settleJobAttemptUsage (jobID : uuid) (reason terminalState : string) (settledAt : time)
    (d : db) : result budget_error db :=
  settle_all (us_attempt_id <$> sort_by (by_key us_metering_started_at)
                (filter (fun u => us_job_id u = jobID /\ us_state u = UActive) (attempt_usages d)))
    reason terminalState settledAt d.

(** ** Theorems *)

Lemma runtime_contract_positive r minutes rate :
  runtime_contract r = Ok (minutes, rate) -> 0 < minutes /\ 0 < rate.
Proof.
  unfold runtime_contract, legacyMaxRuntimeMinutes, legacyCloudCostMicrounitsPerMinute.
  destruct (rq_resolved_context r) as [c|]; intros H; [|simplify_eq; lia].
  destruct (if decide _ then _ else _) as [m q]. inv_ok H. simplify_eq. lia.
Qed.

(** Runtime accounting is exact in 64-bit arithmetic: an accepted request
    reserves exactly its contract's minutes in seconds and minutes times rate in
    cloud cost, between one minute and one day, with no product wrapping
    around; the overflow guard behind the bounds check can never fire; and a
    request without a resolved contract gets the compatibility class. *)
Theorem runtimeBudgetSpec_exact (request : option BuildRequest) :
  match runtimeBudgetSpecFromRequest request with
  | Ok spec => exists r minutes rate, request = Some r /\ runtime_contract r = Ok (minutes, rate) /\
      1 <= minutes <= 1440 /\ 1 <= rate <= 1000000000000 /\
      spec = mkRuntimeBudget (minutes * 60) rate (minutes * rate) /\
      60 <= MaxRuntimeSeconds spec <= 86400 /\
      minutes * rate <= int64_max
  | Err e => e <> RuntimeContractOverflow
  end.
Proof.
  unfold runtimeBudgetSpecFromRequest. destruct request as [r|]; [|done].
  destruct (runtime_contract r) as [[minutes rate]|e] eqn:Hc.
  2:{ unfold runtime_contract in Hc. destruct (rq_resolved_context r); [|done].
      destruct (if decide _ then _ else _) in Hc. case_decide; by simplify_eq. }
  apply runtime_contract_positive in Hc as Hpos.
  case_decide as Hb; [|done].
  assert (minutes * rate <= 1440 * 1000000000000) by (apply Z.mul_le_mono_nonneg; lia).
  assert (rate <= Z.quot int64_max minutes) as Hq.
  { apply Z.quot_le_lower_bound; [lia|]. unfold int64_max. lia. }
  rewrite decide_True by lia.
  rewrite !int64_id by (unfold int64_min, int64_max; lia).
  exists r, minutes, rate. unfold int64_max. cbn. split_and!; [done|done|lia..|done|lia|lia|lia].
Qed.

Lemma ceil_units_pos e u : 0 < u -> 0 < e -> 1 <= ceil_units e u.
Proof.
  intros Hu He. unfold ceil_units. assert ((- e) / u < 0); [|lia]. apply Z.div_lt_upper_bound; lia.
Qed.

(** The rows of other attempts and the settled rows are left alone. *)
Lemma settle_usages id reason terminal t d d' :
  settleAttemptUsage id reason terminal t d = Ok d' ->
  attempt_usages d' = update_where (active_usage id) (settle_row t reason) (attempt_usages d).
Proof.
  unfold settleAttemptUsage. destruct (first_where _ _) as [u|] eqn:Hw.
  - intros H. destruct (decide (terminal = _ \/ _)); [|by simplify_eq].
    unfold applyFailureStormSuspension in H. inv_ok_step H.
    destruct (decide (_ < _)); by simplify_eq.
  - intros [= <-]. symmetry. apply update_where_none. exact (first_where_none _ _ Hw).
Qed.

Lemma settle_row_le t reason u : us_state u = UActive ->
  build_seconds (settle_row t reason u) <= build_seconds u /\
  (0 <= us_reserved_cloud_cost_microunits u -> cloud_cost (settle_row t reason u) <= cloud_cost u).
Proof.
  intros Hs. unfold build_seconds, cloud_cost. cbn. rewrite !(decide_True (P := us_state u = UActive)) by done.
  rewrite !decide_False by done. split; [lia|]. destruct (us_cloud_started_at u); lia.
Qed.


(** Settlement charges an attempt once and never more than it reserved:
    settling rewrites only the attempt's own active row; the charge is at least
    one second and at most the reservation; cloud cost is charged only if the
    cloud meter ran, and never above the reservation; settling again changes no
    row; and a project's usage of any day never grows. *)
Theorem settlement_charges_once id reason terminal t (d d' : db)
    (Hpos : forall u, u ∈ attempt_usages d ->
       1 <= us_reserved_build_seconds u /\ 0 <= us_reserved_cloud_cost_microunits u)
    (H : settleAttemptUsage id reason terminal t d = Ok d') :
  (forall u, u ∈ attempt_usages d -> active_usage id u ->
     settle_row t reason u ∈ attempt_usages d' /\
     1 <= us_charged_build_seconds (settle_row t reason u) <= us_reserved_build_seconds u /\
     us_charged_cloud_cost_microunits (settle_row t reason u) <= us_reserved_cloud_cost_microunits u /\
     (us_cloud_started_at u = None -> us_charged_cloud_cost_microunits (settle_row t reason u) = 0)) /\
  (forall u, u ∈ attempt_usages d -> ~ active_usage id u -> u ∈ attempt_usages d') /\
  (forall reason2 terminal2 t2 d2, settleAttemptUsage id reason2 terminal2 t2 d' = Ok d2 ->
     attempt_usages d2 = attempt_usages d') /\
  (forall project day,
     sum_by build_seconds (day_usage project day d') <= sum_by build_seconds (day_usage project day d) /\
     sum_by cloud_cost (day_usage project day d') <= sum_by cloud_cost (day_usage project day d)).
Proof.
  apply settle_usages in H. rewrite H. split_and!.
  - intros u Hu Ha. destruct (Hpos u Hu). split_and!.
    + apply elem_of_update_where. exists u. auto.
    + cbn. lia.
    + cbn. lia.
    + cbn. destruct (us_cloud_started_at u); lia.
    + cbn. by intros ->.
  - intros u Hu Ha. apply elem_of_update_where. exists u. auto.
  - intros reason2 terminal2 t2 d2 H2%settle_usages. rewrite H2, H. apply update_where_none.
    intros u' (u & Hu & [[_ ->]|[Hn ->]])%elem_of_update_where [Hid Hs]; [done|]. by apply Hn.
  - intros project day. unfold day_usage. rewrite H.
    split; apply sum_by_update_le; intros u Hu Ha; (split; [|done]).
    + exact (proj1 (settle_row_le t reason u (proj2 Ha))).
    + apply settle_row_le; [apply Ha|]. by apply Hpos.
Qed.

(** The failure-storm gate holds: once a project has reached its hourly
    failure limit, the suspension reaches at least the cooldown ahead, and
    until then every claim of the project is refused with the end of the
    suspension as its retry time (unless the project is suspended outright),
    and every submission and every retry is refused. *)
Theorem failure_storm_suspends project now (d d' : db) (p : project_policy)
    (Hp : policy_of project d = Ok p)
    (Hstorm : pp_max_failures_per_hour p <= recent_failures project now d)
    (H : applyFailureStormSuspension project now d = Ok d') :
  forall t, t < now + pp_abuse_cooldown_seconds p * Second ->
  (forall job resources budget, exists until,
     lockAndCheckClaimAdmission project job resources budget t d' = Ok (false, until) /\
     (pp_suspended p = false ->
      exists u, until = Some u /\ now + pp_abuse_cooldown_seconds p * Second <= u)) /\
  (forall request now2 local p2, lockSubmissionPolicy project t d' = Ok p2 ->
     checkSubmissionAdmission project p2 request now2 local d' <> Ok tt) /\
  (forall job request, lockAndCheckRetryAdmission project job request t d' <> Ok tt).
Proof.
  intros t Ht.
  assert (exists p', policy_of project d' = Ok p' /\ pp_suspended p' = pp_suspended p /\
            exists u, abuse_suspended p' t = Some u /\
              now + pp_abuse_cooldown_seconds p * Second <= u)
    as (p' & Hp' & Hsus & u & Hu & Hle).
  { unfold applyFailureStormSuspension in H. rewrite Hp in H. rewrite decide_False in H by lia.
    simplify_eq. unfold policy_of in *. cbn. rewrite first_where_update; [|done].
    destruct (first_where _ _) as [x|]; [|done]. simplify_eq. cbn.
    eexists. split; [done|]. split; [done|]. unfold abuse_suspended. cbn.
    destruct (pp_abuse_suspended_until p) as [s|];
      (rewrite decide_True by lia); (eexists; split; [done|lia]). }
  assert (forall request, check_policy_gates p' t request <> Ok tt) as Hgate.
  { intros request. unfold check_policy_gates. rewrite Hu. by case_decide. }
  split_and!.
  - intros job resources budget. unfold lockAndCheckClaimAdmission. rewrite Hp', Hu.
    case_decide as Hs; eexists; (split; [done|]); [congruence|]. intros _. by exists u.
  - intros request now2 local p2 H2. unfold lockSubmissionPolicy in H2. rewrite Hp' in H2.
    simplify_eq. unfold checkSubmissionAdmission. intros H3. inv_ok_step H3. by apply (Hgate request).
  - intros job request H3. unfold lockAndCheckRetryAdmission in H3. rewrite Hp' in H3.
    inv_ok_step H3. by apply (Hgate request).
Qed.

(** ** Concrete projects *)
Definition policy_row_ex : project_policy :=
  mkPolicyRow "p1" false 10 2 100 16 32768 500 2 1 1 1 1 1000000 7200 1000000 2 600 None "" 0 100 300 1 "" 0.
Definition usage_row_ex (id : uuid) (started : Z) : attempt_usage :=
  mkUsage id "p1" "j1" 0 3600 1000 3600 60000 0 0 (started * Second) (Some (started * Second)) UActive None "".
Definition failed_attempt_ex (id : uuid) (fence finished : Z) : build_attempt :=
  (attempt_ex id "j1" fence) <| a_state := "failed" |> <| a_finished_at := Some (finished * Second) |>.
Definition project_ex : db :=
  empty_db <| project_policies := [policy_row_ex] |>
           <| build_jobs := [job_ex "j1" "p1" "failed"] |>
           <| build_attempts := [failed_attempt_ex "a1" 1 50; failed_attempt_ex "a2" 2 100] |>
           <| attempt_usages := [usage_row_ex "a1" 10; usage_row_ex "a2" 60] |>.

Lemma settlement_charges_once_witness :
  exists d', settleAttemptUsage "a1" "job_failed" "failed" (100 * Second) project_ex = Ok d' /\
    sum_by build_seconds (day_usage "p1" 0 d') <= sum_by build_seconds (day_usage "p1" 0 project_ex) /\
    us_charged_build_seconds <$> attempt_usages d' = [90; 0].
Proof.
  eexists. split; [vm_compute; reflexivity|]. split; [|vm_compute; reflexivity].
  refine (proj1 (proj2 (proj2 (proj2 (settlement_charges_once "a1" "job_failed" "failed"
    (100 * Second) project_ex _ _ _))) "p1" 0)).
  - intros u Hu. repeat (apply elem_of_cons in Hu as [->|Hu]; [cbn; lia|]). by apply elem_of_nil in Hu.
  - vm_compute. reflexivity.
Defined.

Lemma failure_storm_suspends_witness :
  exists d', applyFailureStormSuspension "p1" (100 * Second) project_ex = Ok d' /\
    forall job request, lockAndCheckRetryAdmission "p1" job request (600 * Second) d' <> Ok tt.
Proof.
  eexists. split; [vm_compute; reflexivity|].
  refine (proj2 (proj2 (failure_storm_suspends "p1" (100 * Second) project_ex _ policy_row_ex
    _ _ _ (600 * Second) _))).
  - reflexivity.
  - vm_compute. discriminate.
  - vm_compute. reflexivity.
  - vm_compute. reflexivity.
Defined.
