(* ===== verification/Fairness.v ===== *)
(** * Weighted fairness between projects

    [internal/persistence/fairness.go]: every project has a virtual runtime per
    kind of dispatch; the eligible project with the least virtual runtime is
    served next, unless a project has waited past its starvation threshold.
    [locked] are the rows that concurrent transactions hold. *)

From S2P Require Import Prelude GoStrings Schema Capabilities CapacityLedger Budgets.
Open Scope string_scope.
Open Scope list_scope.
Open Scope Z_scope.

Definition fairnessVRuntimeScale : Z := 1000.

Inductive fairness_error : Type :=
| FairnessKindUnknown (kind : string)
| FairnessRowMissing.

Record fairProjectSelection := mkSelection {
  ProjectID : uuid;
  PriorityWeight : Z;
  StarvationThreshold : Z;
  VRuntimeBefore : Z;
  OldestAt : time;
  Starved : bool
}.

Record fairDispatchRecord := mkDispatch {
  VRuntimeAfter : Z;
  ItemWaitSecond : Z
}.

(** New projects start at the largest virtual runtime there is. *)
Definition ensureProjectFairnessRows (now : time) (d : db) : db :=
  let admission := max_by fa_admission_vruntime (scheduler_fairness d) in
  let phase := max_by fa_phase_vruntime (scheduler_fairness d) in
  let known := fa_project_id <$> scheduler_fairness d in
  d <| scheduler_fairness := scheduler_fairness d ++
    ((fun p => mkFairness (pp_project_id p) admission phase 0 0 0 0 None None now) <$>
     filter (fun p => pp_project_id p ∉ known) (project_policies d)) |>.

(** ** Eligibility *)

(** The executor is active, was seen in the last 45 seconds, speaks the
    protocol and carries every required label. *)
Definition executor_fits (now : time) (protocol : Z) (required : list string) (w : worker) : Prop :=
  fresh_worker now (45 * Second) w /\ protocol <= w_executor_protocol w /\ has_labels required w.
#[export] Instance executor_fits_dec now protocol required w :
  Decision (executor_fits now protocol required w).
Proof. unfold executor_fits. apply _. Defined.

Definition project_open (now : time) (p : project_policy) : Prop :=
  pp_suspended p = false /\
  match pp_abuse_suspended_until p with Some t => t <= now | None => True end.
#[export] Instance project_open_dec now p : Decision (project_open now p).
Proof. unfold project_open. destruct (pp_abuse_suspended_until p); apply _. Defined.

(** A queued job the executor may be given now. *)
Definition claimable_job (now : time) (workerID : uuid) (d : db) (j : build_job) : Prop :=
  j_state j = "queued" /\ j_cancel_requested_at j = None /\ j_legacy_visible j = true /\
  j_next_attempt_at j <= now /\
  exists_row (fun p => pp_project_id p = j_project_id j /\ project_open now p /\
      active_jobs (j_project_id j) (fun _ => false) d < pp_max_active_jobs p) (project_policies d) /\
  exists_row (fun w => w_id w = workerID /\
      executor_fits now (j_minimum_executor_protocol j) (j_required_capabilities j) w) (workers d).
#[export] Instance claimable_job_dec now workerID d j : Decision (claimable_job now workerID d j).
Proof. unfold claimable_job. apply _. Defined.

Definition terminal (state : string) : Prop := state ∈ ["completed"; "success"; "failed"; "canceled"].
#[export] Instance terminal_dec state : Decision (terminal state).
Proof. unfold terminal. apply _. Defined.

(** The attempt's runtime deadline. *)
Definition deadline (u : attempt_usage) : time :=
  us_metering_started_at u + us_max_runtime_seconds u * Second.

Definition phase_limit (p : Phase) (policy : project_policy) : Z :=
  match p with
  | Provision => pp_max_provision_attempts policy
  | Build => pp_max_build_attempts policy
  | Verify => pp_max_verify_attempts policy
  | Publish => pp_max_publish_attempts policy
  end.

(** Live reservations of the project in a phase, other than the attempt's. *)
Definition phase_used (projectID attemptID : uuid) (phase : ReservationPhase) (d : db) : Z :=
  Z.of_nat (count_where (fun r => live_reservation projectID r /\ rv_phase r = phase /\
              rv_attempt_id r <> attemptID) (resource_reservations d)).

Definition attempt_reservation (attemptID : uuid) (d : db) : option reservation :=
  first_where (fun r => rv_attempt_id r = attemptID /\ rv_state r = Live) (resource_reservations d).

(** A ready phase the executor may be given now, capacity aside. *)
Definition ready_phase (now : time) (workerID : uuid) (phases : list Phase) (d : db) (w : phase_work)
    : Prop :=
  pw_state w = SReady /\ pw_execution_mode w = ActiveMode /\ pw_available_at w <= now /\
  (phases = [] \/ pw_phase w ∈ phases) /\
  exists_row (fun j => j_id j = pw_job_id w /\ ~ terminal (j_state j) /\
      exists_row (fun e => w_id e = workerID /\
        executor_fits now (j_minimum_executor_protocol j) (pw_required_capabilities w) e) (workers d))
    (build_jobs d) /\
  exists_row (fun a => a_id a = pw_attempt_id w /\ ~ terminal (a_state a) /\
      exists_row (fun l => wl_attempt_id l = a_id a /\ wl_fence_token l = a_fence_token a /\
        now < wl_expires_at l) (worker_leases d)) (build_attempts d) /\
  exists_row (fun u => active_usage (pw_attempt_id w) u /\ now < deadline u) (attempt_usages d) /\
  is_Some (attempt_reservation (pw_attempt_id w) d).
#[export] Instance ready_phase_dec now workerID phases d w :
  Decision (ready_phase now workerID phases d w).
Proof. unfold ready_phase. apply _. Defined.

(** The attempt's reservation already sits in the phase of the item. *)
Definition replay (d : db) (w : phase_work) : Prop :=
  rv_phase <$> attempt_reservation (pw_attempt_id w) d = Some (RPhase (pw_phase w)).
#[export] Instance replay_dec d w : Decision (replay d w).
Proof. unfold replay. apply _. Defined.

Definition claimable_phase (now : time) (workerID : uuid) (phases : list Phase) (d : db)
    (w : phase_work) : Prop :=
  ready_phase now workerID phases d w /\
  exists_row (fun p => pp_project_id p = pw_project_id w /\
      (replay d w \/
       phase_used (pw_project_id w) (pw_attempt_id w) (RPhase (pw_phase w)) d <
         phase_limit (pw_phase w) p)) (project_policies d).
#[export] Instance claimable_phase_dec now workerID phases d w :
  Decision (claimable_phase now workerID phases d w).
Proof. unfold claimable_phase. apply _. Defined.

(** ** Selecting a project *)

(** [min(...)]: NULL over no rows *)
Definition min_of (l : list Z) : option Z :=
  foldr (fun x acc => Some (match acc with Some y => Z.min x y | None => x end)) None l.

(** One row of the selection query: a fairness row with its policy and the age
    of the project's oldest eligible item. *)
Record fair_row := mkFairRow {
  fr_project : uuid;
  fr_policy : project_policy;
  fr_vruntime : Z;
  fr_oldest : time;
  fr_replay : bool
}.

Definition fair_rows (vruntime : fairness -> Z) (oldest : uuid -> option time)
    (has_replay : uuid -> bool) (d : db) : list fair_row :=
  omap (fun f =>
    match first_where (fun p => pp_project_id p = fa_project_id f) (project_policies d),
          oldest (fa_project_id f) with
    | Some p, Some t => Some (mkFairRow (fa_project_id f) p (vruntime f) t (has_replay (fa_project_id f)))
    | _, _ => None
    end) (scheduler_fairness d).

Definition starved (now : time) (r : fair_row) : bool :=
  bool_decide (fr_oldest r <= now - pp_starvation_threshold_seconds (fr_policy r) * Second).

(** Replays first, then starved projects by age, then the least virtual
    runtime. *)
Definition fair_order (now : time) : order fair_row :=
  then_by (desc (by_flag fr_replay))
  (then_by (desc (by_flag (starved now)))
  (then_by (by_nullable (fun r => if starved now r then Some (fr_oldest r) else None))
  (then_by (by_key fr_vruntime)
  (then_by (by_key fr_oldest) (by_str fr_project))))).
#[export] Instance fair_order_laws now : OrderLaws (fair_order now).
Proof. unfold fair_order. apply _. Qed.

Definition fair_selection (now : time) (r : fair_row) : fairProjectSelection :=
  mkSelection (fr_project r) (pp_priority_weight (fr_policy r))
    (pp_starvation_threshold_seconds (fr_policy r)) (fr_vruntime r) (fr_oldest r) (starved now r).

Definition oldest_job (now : time) (workerID : uuid) (d : db) (project : uuid) : option time :=
  min_of (j_created_at <$> filter (fun j => j_project_id j = project /\ claimable_job now workerID d j)
            (build_jobs d)).

Definition admission_rows (now : time) (workerID : uuid) (d : db) : list fair_row :=
  fair_rows fa_admission_vruntime (oldest_job now workerID d) (fun _ => false) d.

Definition selectFairAdmissionProject (workerID : uuid) (locked : uuid -> bool) (clk : clock) (d : db)
    : option fairProjectSelection * db :=
  let d := ensureProjectFairnessRows (clk 0%nat) d in
  let now := clk 1%nat in
  (fair_selection now <$>
     pick (fair_order now) (filter (fun r => locked (fr_project r) = false)
                              (admission_rows now workerID d)), d).

Definition waiting_since (w : phase_work) : time := default (pw_available_at w) (pw_ready_since w).

Definition phase_items (now : time) (workerID : uuid) (phases : list Phase) (d : db) (project : uuid)
    : list phase_work :=
  filter (fun w => pw_project_id w = project /\ claimable_phase now workerID phases d w)
    (phase_work_items d).

Definition phase_rows (now : time) (workerID : uuid) (phases : list Phase) (d : db) : list fair_row :=
  fair_rows fa_phase_vruntime
    (fun project => min_of (waiting_since <$> phase_items now workerID phases d project))
    (fun project => bool_decide (exists_row (replay d) (phase_items now workerID phases d project))) d.

Definition selectFairPhaseProject (workerID : uuid) (phases : list Phase) (locked : uuid -> bool)
    (clk : clock) (d : db) : option fairProjectSelection * db :=
  let d := ensureProjectFairnessRows (clk 0%nat) d in
  let now := clk 1%nat in
  (fair_selection now <$>
     pick (fair_order now) (filter (fun r => locked (fr_project r) = false)
                              (phase_rows now workerID phases d)), d).

(** ** Charging a dispatch *)
Definition dispatch_cost (weight : Z) : Z :=
  Z.max 1 (Z.quot (fairnessVRuntimeScale + weight - 1) weight).

Definition wait_seconds (now queuedAt : time) : Z := Z.max 0 ((now - queuedAt) / Second).

Definition recordFairDispatch (selection : fairProjectSelection) (kind : string) (queuedAt : time)
    (now : time) (d : db) : result fairness_error (fairDispatchRecord * db) :=
  let project := ProjectID selection in
  let find d := first_where (fun f => fa_project_id f = project) (scheduler_fairness d) in
  match first_where (fun p => pp_project_id p = project) (project_policies d) with
  | None => if decide (kind = "admission" \/ kind = "phase") then Err FairnessRowMissing
            else Err (FairnessKindUnknown kind)
  | Some p =>
      let cost := dispatch_cost (pp_priority_weight p) in
      let wait := wait_seconds now queuedAt in
      if decide (kind = "admission") then
        let bump f := f <| fa_admission_vruntime := fa_admission_vruntime f + cost |>
                        <| fa_admission_dispatches := fa_admission_dispatches f + 1 |>
                        <| fa_last_admission_wait_seconds := wait |>
                        <| fa_last_admission_at := Some now |> <| fa_updated_at := now |> in
        match find d with
        | None => Err FairnessRowMissing
        | Some f => Ok (mkDispatch (fa_admission_vruntime f + cost) wait,
            d <| scheduler_fairness :=
              update_where (fun x => fa_project_id x = project) bump (scheduler_fairness d) |>)
        end
      else if decide (kind = "phase") then
        let bump f := f <| fa_phase_vruntime := fa_phase_vruntime f + cost |>
                        <| fa_phase_dispatches := fa_phase_dispatches f + 1 |>
                        <| fa_last_phase_wait_seconds := wait |>
                        <| fa_last_phase_at := Some now |> <| fa_updated_at := now |> in
        match find d with
        | None => Err FairnessRowMissing
        | Some f => Ok (mkDispatch (fa_phase_vruntime f + cost) wait,
            d <| scheduler_fairness :=
              update_where (fun x => fa_project_id x = project) bump (scheduler_fairness d) |>)
        end
      else Err (FairnessKindUnknown kind)
  end.

(** ** Runtime status *)
Record SchedulerFairnessStatus := mkFairnessStatus {
  EligibleProjects : Z;
  StarvedProjects : Z;
  AdmissionDispatches : Z;
  PhaseDispatches : Z;
  MaxQueueWaitSeconds : Z
}.

(** [LEAST] ignores NULL. *)
Definition least_time (a b : option time) : option time :=
  match a, b with Some x, Some y => Some (Z.min x y) | Some x, None => Some x | None, b => b end.

Definition project_wait (now : time) (d : db) (p : project_policy) : option time :=
  least_time
    (min_of (j_created_at <$> filter (fun j => in_project (pp_project_id p) j /\ j_state j = "queued")
               (build_jobs d)))
    (min_of (waiting_since <$> filter (fun w => pw_project_id w = pp_project_id p /\
               pw_execution_mode w = ActiveMode /\ pw_state w = SReady) (phase_work_items d))).

Definition readFairnessRuntimeStatus (now : time) (d : db) : SchedulerFairnessStatus :=
  let rows := omap (fun f =>
    match first_where (fun p => pp_project_id p = fa_project_id f /\ project_open now p)
            (project_policies d) with
    | Some p => Some (f, p)
    | None => None
    end) (scheduler_fairness d) in
  mkFairnessStatus
    (Z.of_nat (count_where (fun '(f, p) => is_Some (project_wait now d p)) rows))
    (Z.of_nat (count_where (fun '(f, p) =>
       at_or_before (project_wait now d p) (now - pp_starvation_threshold_seconds p * Second)) rows))
    (sum_by (fun '(f, p) => fa_admission_dispatches f) rows)
    (sum_by (fun '(f, p) => fa_phase_dispatches f) rows)
    (Z.max (max_by (fun '(f, p) => fa_last_admission_wait_seconds f) rows)
           (max_by (fun '(f, p) => fa_last_phase_wait_seconds f) rows)).

(** ** Theorems *)
Lemma then_by_le {A} (o1 o2 : order A) x y :
  then_by o1 o2 x y <> Gt -> o1 x y <> Gt /\ (o1 x y = Eq -> o2 x y <> Gt).
Proof. unfold then_by. destruct (o1 x y); naive_solver. Qed.

Lemma desc_by_flag_le {A} (f : A -> bool) x y :
  desc (by_flag f) x y <> Gt -> (f y = true -> f x = true) /\ (f x = f y -> desc (by_flag f) x y = Eq).
Proof. unfold desc, by_flag. destruct (f x), (f y); naive_solver. Qed.

(** The least row of the order, read off key by key. *)
Lemma fair_order_le now r q : fair_order now r q <> Gt -> fr_replay r = fr_replay q ->
  (starved now q = true -> starved now r = true) /\
  (starved now r = true -> starved now q = true -> fr_oldest r <= fr_oldest q) /\
  (starved now r = false -> fr_vruntime r <= fr_vruntime q).
Proof.
  unfold fair_order. intros H Hr.
  apply then_by_le in H as [H1 H]. apply desc_by_flag_le in H1 as [_ H1].
  specialize (H (H1 Hr)). apply then_by_le in H as [H2 H].
  apply desc_by_flag_le in H2 as [Hs H2]. split; [done|]. split.
  - intros Sr Sq. rewrite Sr, Sq in H2. specialize (H (H2 eq_refl)).
    apply then_by_le in H as [H3 _]. unfold by_nullable in H3. rewrite Sr, Sq in H3.
    apply Z.compare_ngt_iff in H3. lia.
  - intros Sr. destruct (starved now q) eqn:Sq; [by rewrite Hs in Sr|].
    rewrite Sr in H2. specialize (H (H2 eq_refl)). apply then_by_le in H as [_ H].
    unfold by_nullable in H. rewrite Sr, Sq in H. specialize (H eq_refl).
    apply then_by_le in H as [H4 _]. unfold by_key in H4. apply Z.compare_ngt_iff in H4. lia.
Qed.

Lemma fair_rows_replay vr oldest d r : r ∈ fair_rows vr oldest (fun _ => false) d -> fr_replay r = false.
Proof.
  unfold fair_rows. intros (f & _ & H)%list_elem_of_omap.
  destruct (first_where _ _); [destruct (oldest _)|]; by simplify_eq.
Qed.

Lemma admission_pick workerID locked clk d s d' :
  selectFairAdmissionProject workerID locked clk d = (Some s, d') ->
  let rows := filter (fun r => locked (fr_project r) = false) (admission_rows (clk 1%nat) workerID d') in
  exists r, r ∈ rows /\ s = fair_selection (clk 1%nat) r /\
    forall q, q ∈ rows ->
      (starved (clk 1%nat) q = true -> Starved s = true /\ OldestAt s <= fr_oldest q) /\
      (Starved s = false -> VRuntimeBefore s <= fr_vruntime q).
Proof.
  unfold selectFairAdmissionProject. intros H. cbv zeta.
  set (e := ensureProjectFairnessRows _ _) in *.
  set (rows := filter _ (admission_rows _ _ e)) in H.
  destruct (pick _ rows) as [r|] eqn:Hp; cbn in H; simplify_eq. fold rows.
  exists r. split; [by eapply pick_elem|]. split; [done|]. intros q Hq.
  pose proof (pick_least _ _ _ q Hp Hq) as Hle.
  assert (forall x, x ∈ rows -> fr_replay x = false) as Hrep.
  { intros x [_ Hx]%list_elem_of_filter. by eapply fair_rows_replay. }
  destruct (fair_order_le _ _ _ Hle) as (H1 & H2 & H3).
  { rewrite !Hrep; [done|done|by eapply pick_elem]. }
  cbn. split; [|done]. intros Hs. auto.
Qed.

(** Admission serves the project it should: among the projects with a job
    this executor may run, locked ones aside, a project past its starvation
    threshold is served before any other and the longest waiting of these
    first; if none is starved, no eligible project has a smaller virtual
    runtime than the one served.  If no project is served, none was eligible. *)
Theorem admission_selection_fair workerID locked clk (d d' : db) (s : option fairProjectSelection)
    (H : selectFairAdmissionProject workerID locked clk d = (s, d')) :
  let rows := filter (fun r => locked (fr_project r) = false) (admission_rows (clk 1%nat) workerID d') in
  match s with
  | None => rows = []
  | Some s => exists r, r ∈ rows /\ s = fair_selection (clk 1%nat) r /\
      forall q, q ∈ rows ->
        (starved (clk 1%nat) q = true -> Starved s = true /\ OldestAt s <= fr_oldest q) /\
        (Starved s = false -> VRuntimeBefore s <= fr_vruntime q)
  end.
Proof.
  destruct s as [s|]; [by apply admission_pick in H|].
  unfold selectFairAdmissionProject in H. cbv zeta. injection H as H <-.
  apply fmap_None, pick_none in H. exact H.
Qed.

Lemma dispatch_cost_bounds weight : 1 <= weight ->
  1 <= dispatch_cost weight <= fairnessVRuntimeScale.
Proof.
  intros H. unfold dispatch_cost, fairnessVRuntimeScale.
  rewrite Z.quot_div_nonneg by lia.
  assert ((1000 + weight - 1) / weight <= 1000) by (apply Z.div_le_upper_bound; nia). lia.
Qed.

(** ** Bounded unfairness *)
Definition vruntime (project : uuid) (d : db) : option Z :=
  fa_admission_vruntime <$> first_where (fun f => fa_project_id f = project) (scheduler_fairness d).

(** The constraints of the two tables. *)
Definition fairness_tables (d : db) : Prop :=
  NoDup (fa_project_id <$> scheduler_fairness d) /\
  forall p, p ∈ project_policies d -> 1 <= pp_priority_weight p.

(** [other] is offered to the executor beside the project that is selected: it
    has a job that the executor may run and no concurrent transaction holds its
    row. *)
Definition offered (workerID : uuid) (locked : uuid -> bool) (now : time) (d : db) (other : uuid) : Prop :=
  other ∈ fr_project <$> admission_rows now workerID d /\ locked other = false.
#[export] Instance offered_dec workerID locked now d other : Decision (offered workerID locked now d other).
Proof. unfold offered. apply _. Defined.

(** An admission dispatch, whatever rows concurrent transactions hold, which serves
    [a] or [b] only while the other one is offered too and not because it is
    starved; or anything that leaves their virtual runtimes alone. *)
Inductive contend (a b : uuid) : db -> db -> Prop :=
| contend_dispatch workerID locked clk d d1 s queued now rec d2 :
    selectFairAdmissionProject workerID locked clk d = (Some s, d1) -> fairness_tables d1 ->
    (ProjectID s = a -> Starved s = false /\ offered workerID locked (clk 1%nat) d1 b) ->
    (ProjectID s = b -> Starved s = false /\ offered workerID locked (clk 1%nat) d1 a) ->
    recordFairDispatch s "admission" queued now d1 = Ok (rec, d2) -> contend a b d d2
| contend_other d d' : vruntime a d' = vruntime a d -> vruntime b d' = vruntime b d -> contend a b d d'.

Lemma first_where_app {A} (P : A -> Prop) `{HdP : !forall x, Decision (P x)} (l1 l2 : list A) x :
  first_where P l1 = Some x -> first_where P (l1 ++ l2) = Some x.
Proof. unfold first_where. rewrite filter_app. by destruct (filter P l1). Qed.

Lemma ensure_vruntime now project d v :
  vruntime project d = Some v -> vruntime project (ensureProjectFairnessRows now d) = Some v.
Proof.
  unfold vruntime, ensureProjectFairnessRows. cbn.
  destruct (first_where _ (scheduler_fairness d)) as [f|] eqn:Hf; [|done].
  intros. by rewrite (first_where_app _ _ _ _ Hf).
Qed.

(** The row of a project in the selection carries its virtual runtime. *)
Lemma admission_row_vruntime now workerID d r v : NoDup (fa_project_id <$> scheduler_fairness d) ->
  r ∈ admission_rows now workerID d -> vruntime (fr_project r) d = Some v -> fr_vruntime r = v.
Proof.
  unfold admission_rows, fair_rows, vruntime. intros Hnd (f & Hf & H)%list_elem_of_omap Hv.
  destruct (first_where (fun p => pp_project_id p = _) _); [|done].
  destruct (oldest_job _ _ _ _); simplify_eq.
  cbn in Hv. destruct (first_where _ (scheduler_fairness d)) as [g|] eqn:Hg; [|done].
  apply first_where_some in Hg as [Hg Heq]. cbn in *.
  rewrite (key_unique fa_project_id _ f g Hnd Hf Hg) by done. by simplify_eq.
Qed.

(** What a dispatch does to the virtual runtimes. *)
Lemma dispatch_vruntime s queued now rec d d' :
  recordFairDispatch s "admission" queued now d = Ok (rec, d') -> fairness_tables d ->
  exists cost, 1 <= cost <= fairnessVRuntimeScale /\
    forall project, vruntime project d' =
      (if decide (project = ProjectID s) then (fun v => v + cost) <$> vruntime project d
       else vruntime project d).
Proof.
  unfold recordFairDispatch. intros H [_ Hw].
  destruct (first_where (fun p => pp_project_id p = _) _) as [p|] eqn:Hp.
  2:{ case_decide; done. }
  apply first_where_some in Hp as [Hp _].
  exists (dispatch_cost (pp_priority_weight p)). split; [by apply dispatch_cost_bounds, Hw|].
  rewrite decide_True in H by done.
  destruct (first_where _ (scheduler_fairness d)) as [f|]; [|done]. simplify_eq.
  intros project. unfold vruntime. cbn. case_decide as Heq.
  - subst project. rewrite first_where_update by done. rewrite <- !option_fmap_compose. done.
  - f_equal. unfold first_where. rewrite filter_update_where; [done|]. cbn. naive_solver.
Qed.

(** The selected project has the least virtual runtime of those offered. *)
Lemma offered_least workerID locked clk d s e :
  selectFairAdmissionProject workerID locked clk d = (Some s, e) -> fairness_tables e ->
  (forall v, vruntime (ProjectID s) e = Some v -> VRuntimeBefore s = v) /\
  (forall project v, Starved s = false -> offered workerID locked (clk 1%nat) e project ->
     vruntime project e = Some v -> VRuntimeBefore s <= v).
Proof.
  intros Hsel Htab. destruct (admission_pick _ _ _ _ _ _ Hsel) as (r & [_ Hr]%list_elem_of_filter & -> & Hmin).
  split; [intros v Hvs; by apply (admission_row_vruntime (clk 1%nat) workerID e _ _ (proj1 Htab))|].
  intros project v Hst [(q & -> & Hq)%list_elem_of_fmap Hl] Hvq.
  rewrite <- (admission_row_vruntime _ _ _ _ _ (proj1 Htab) Hq Hvq).
  apply Hmin; [|done]. by apply list_elem_of_filter.
Qed.

(** C37. Contending projects stay together: as long as a dispatch serves one of two
    projects only while the other has a job for the same executor, its fairness
    row is not held by a concurrent transaction, and the choice is not made by
    starvation, and nothing but dispatches changes their virtual runtimes, any
    number of admission dispatches, to them and to others, keeps the two virtual
    runtimes within the runtime scale of each other, so neither falls behind by
    more than one dispatch of the lightest weight. *)
Theorem contending_projects_bounded (a b : uuid) (d d' : db) (va vb : Z)
    (Ha : vruntime a d = Some va) (Hb : vruntime b d = Some vb)
    (Hd : Z.abs (va - vb) <= fairnessVRuntimeScale) (R : rtc (contend a b) d d') :
  exists va' vb', vruntime a d' = Some va' /\ vruntime b d' = Some vb' /\
    Z.abs (va' - vb') <= fairnessVRuntimeScale /\ va <= va' /\ vb <= vb'.
Proof.
  revert va vb Ha Hb Hd. induction R as [d|d d1 d2 Hs R IH]; intros va vb Ha Hb Hd.
  { exists va, vb. split_and!; auto; lia. }
  assert (exists va1 vb1, vruntime a d1 = Some va1 /\ vruntime b d1 = Some vb1 /\
    Z.abs (va1 - vb1) <= fairnessVRuntimeScale /\ va <= va1 /\ vb <= vb1) as
    (va1 & vb1 & Ha1 & Hb1 & Hd1 & Hle1 & Hle2).
  2:{ destruct (IH va1 vb1 Ha1 Hb1 Hd1) as (va2 & vb2 & ? & ? & ? & ? & ?).
      exists va2, vb2. split_and!; [done|done|done|lia|lia]. }
  destruct Hs as [workerID locked clk d e s queued now rec d1 Hsel Htab Hoa Hob Hrec|d d1 Hka Hkb].
  2:{ rewrite Hka, Hkb. exists va, vb. split_and!; auto; lia. }
  assert (vruntime a e = Some va /\ vruntime b e = Some vb) as [Hae Hbe].
  { unfold selectFairAdmissionProject in Hsel. simplify_eq. by split; apply ensure_vruntime. }
  destruct (dispatch_vruntime _ _ _ _ _ _ Hrec Htab) as (cost & Hcost & Hv).
  pose proof (offered_least _ _ _ _ _ _ Hsel Htab) as [Hown Hleast].
  rewrite (Hv a), (Hv b), Hae, Hbe.
  destruct (decide (a = ProjectID s)) as [Hpa|Hpa], (decide (b = ProjectID s)) as [Hpb|Hpb]; cbn.
  - exists (va + cost), (vb + cost). split_and!; auto; lia.
  - destruct (Hoa (eq_sym Hpa)) as [Hst Ho]. pose proof (Hown va ltac:(by rewrite <- Hpa)). pose proof (Hleast _ _ Hst Ho Hbe).
    exists (va + cost), vb. split_and!; auto; lia.
  - destruct (Hob (eq_sym Hpb)) as [Hst Ho]. pose proof (Hown vb ltac:(by rewrite <- Hpb)). pose proof (Hleast _ _ Hst Ho Hae).
    exists va, (vb + cost). split_and!; auto; lia.
  - exists va, vb. split_and!; auto; lia.
Qed.

(** ** Two projects sharing an executor *)
Definition executor_ex (seen : Z) : worker :=
  mkWorker "w1" "executor-1" WActive (mkCapabilities (Some "phase-executor") (Some []) None) 1
    (Some (seen * Second)) 1 1 0.
Definition fairness_row_ex (project : uuid) : fairness := mkFairness project 0 0 0 0 0 0 None None 0.
Definition shared_ex : db :=
  empty_db <| project_policies := [policy_row_ex; policy_row_ex <| pp_project_id := "p2" |>
                                                                <| pp_priority_weight := 50 |>] |>
           <| scheduler_fairness := [fairness_row_ex "p1"; fairness_row_ex "p2"] |>
           <| build_jobs := [job_ex "j1" "p1" "queued"; job_ex "j2" "p2" "queued"] |>
           <| workers := [executor_ex 9] |>.
Definition selection_ex : fairProjectSelection := mkSelection "p1" 100 300 0 0 false.
Definition dispatched_ex : db := match recordFairDispatch selection_ex "admission" 0 (10 * Second)
  shared_ex with Ok (_, d) => d | Err _ => empty_db end.

Lemma admission_selection_fair_witness :
  selectFairAdmissionProject "w1" (fun _ => false) (at_time 10) shared_ex =
    (Some selection_ex, shared_ex) /\
  exists r, r ∈ admission_rows (10 * Second) "w1" shared_ex /\ selection_ex = fair_selection (10 * Second) r.
Proof.
  assert (selectFairAdmissionProject "w1" (fun _ => false) (at_time 10) shared_ex =
            (Some selection_ex, shared_ex)) as H by (vm_compute; reflexivity).
  split; [exact H|]. apply admission_selection_fair in H as (r & Hr & Hs & _).
  apply list_elem_of_filter in Hr as [_ Hr]. by exists r.
Defined.

Lemma contending_projects_bounded_witness :
  exists va vb, vruntime "p1" dispatched_ex = Some va /\ vruntime "p2" dispatched_ex = Some vb /\
    Z.abs (va - vb) <= 1000 /\ 0 <= va /\ 0 <= vb.
Proof.
  apply (contending_projects_bounded "p1" "p2" shared_ex dispatched_ex 0 0); [reflexivity|reflexivity|done|].
  apply rtc_once.
  eapply (contend_dispatch _ _ "w1" (fun p => bool_decide (p = "p3")) (at_time 10) _ shared_ex selection_ex 0 (10 * Second)).
  - vm_compute. reflexivity.
  - split; [apply (bool_decide_unpack _); vm_compute; reflexivity|].
    intros p Hp. repeat (apply elem_of_cons in Hp as [->|Hp]; [cbn; lia|]). by apply elem_of_nil in Hp.
  - intros _. split; [reflexivity|]. apply (bool_decide_unpack _). vm_compute. reflexivity.
  - done.
  - vm_compute. reflexivity.
Defined.
