(* ===== verification/JobLedger.v ===== *)
(** * The job ledger

    [internal/persistence/jobs.go] and the revocation half of
    [worker_gateway.go]: status documents, the fenced transition of a job and
    its attempt, the release of everything an attempt holds when it ends, and
    the retention of terminal jobs.

    [MarshalStatus] and [MarshalRequest] are [encoding/json] on the stored
    status document and on the canonical request document; the ledger only
    compares digests of their output. *)

From S2P Require Import Prelude GoStrings GoSha256 Schema Capabilities CapacityLedger Budgets Fairness.
From Stdlib Require Import Ascii.
Open Scope string_scope.
Open Scope list_scope.
Open Scope Z_scope.

Definition maxLedgerErrorBytes : Z := 64 * 1024.
Definition terminalRetentionBatchSize : nat := 256.
Definition DefaultProjectName : string := "default".
Definition ExecutorProtocolVersion : Z := 5.
Definition defaultMaxAttempts : Z := 3.

Inductive job_error : Type :=
| JobMissing
| StateMismatch (found expected : string)
| ClaimInactive
| ClaimStale
| AttemptReplaced
| ReservationMissing
| PhaseCapacity (phase : ReservationPhase) (used limit : Z)
| BudgetFailure (e : budget_error)
| FairnessFailure (e : fairness_error)
| JobDuplicateKey
| JobHidden
| AlreadyTerminal (state : string)
| NotRetryable (state : string)
| AttemptsExhausted
| ClaimIdentityMissing
| WorkerNameRequired
| LeaseDurationInvalid
| CapabilitiesInvalid
| PhaseRequirements
| ExecutorProtocol
| CounterInvalid (kind result : string)
| CounterMissing (kind result : string)
| PhaseOwnerRequired
| PhaseFilterInvalid (phase : string)
| PhaseClaimInvalid
| PhaseLeaseExpired
| PhaseClaimMissing
| ExecutorIdentityMissing
| PhasePlanBoundary
| PhasePlanIncomplete
| MetadataIDInvalid
| MetadataFenceMissing
| MetadataFenceStale
| RequestMissing
| ProjectMissing
| IdempotencyConflict
| ContextSecretKey (key : string)
| ContextFenceStale.

Definition budget {A} (r : result budget_error A) : result job_error A :=
  match r with Ok a => Ok a | Err e => Err (BudgetFailure e) end.
Definition fairly {A} (r : result fairness_error A) : result job_error A :=
  match r with Ok a => Ok a | Err e => Err (FairnessFailure e) end.

(** [builder.BuildStatus]: the stored document with the hidden claim identity *)
Record BuildStatus := mkBuildStatus {
  bs_document : JobStatus;
  bs_request : option BuildRequest;
  bs_attempt_id : uuid;
  bs_fence_token : Z;
  bs_lease_owner : string
}.
#[export] Instance BuildStatus_eta : Eta BuildStatus := fun s =>
  mkBuildStatus (bs_document s) (bs_request s) (bs_attempt_id s) (bs_fence_token s) (bs_lease_owner s).
Definition bs_status (s : BuildStatus) : string := st_status (bs_document s).
Definition bs_job_id (s : BuildStatus) : uuid := st_job_id (bs_document s).

(** The document of [statusDocument]: a long error is cut. *)
Definition statusDocument (status : BuildStatus) : JobStatus :=
  let doc := bs_document status in
  if decide (maxLedgerErrorBytes < go_len (st_error doc)) then
    doc <| st_error := prefix_bytes maxLedgerErrorBytes (st_error doc) +:+
             String.String "010" "[... error truncated in ledger ...]" |>
  else doc.

Definition digestBytes (data : list ascii) : string := EncodeToString (Sum256 data).

Definition decodeStoredStatus (doc : JobStatus) (request : option BuildRequest) : BuildStatus :=
  mkBuildStatus doc request "" 0 "".

(** ** Events *)
Definition insertJobEvent (jobID : uuid) (eventType : string) (payload : event_payload) (d : db) : db :=
  let e := mkEvent jobID eventType payload in
  d <| job_events := job_events d ++ [e] |> <| outbox_events := outbox_events d ++ [e] |>.

(** ** States *)
Definition isLedgerTerminal (state : string) : bool := bool_decide (terminal state).

Definition reservationPhase (state : string) : option ReservationPhase :=
  if decide (state = "claimed") then Some RClaimed
  else if decide (state ∈ ["provisioning"; "deploying"]) then Some (RPhase Provision)
  else if decide (state ∈ ["forwarding"; "building"]) then Some (RPhase Build)
  else if decide (state ∈ ["collecting"; "verifying"]) then Some (RPhase Verify)
  else if decide (state ∈ ["signing"; "publishing"]) then Some (RPhase Publish)
  else None.

Definition reservation_limit (phase : ReservationPhase) (p : project_policy) : Z :=
  match phase with
  | RClaimed => pp_max_claimed_attempts p
  | RPhase phase => phase_limit phase p
  | RWaiting => 0
  end.

Definition updateResourceReservationPhase (attemptID : uuid) (state : string) (changedAt : time) (d : db)
    : result job_error db :=
  match reservationPhase state with
  | None => Ok d
  | Some phase =>
      match attempt_reservation attemptID d with
      | None => Err ReservationMissing
      | Some r =>
          match first_where (fun p => pp_project_id p = rv_project_id r) (project_policies d) with
          | None => Err ReservationMissing
          | Some p =>
              if decide (rv_phase r = phase) then Ok d else
              let used := phase_used (rv_project_id r) attemptID phase d in
              let limit := reservation_limit phase p in
              check used < limit else PhaseCapacity phase used limit;;
              Ok (d <| resource_reservations :=
                    update_where (fun x => rv_attempt_id x = attemptID /\ rv_state x = Live /\
                                           rv_phase x <> phase)
                      (fun x => x <| rv_phase := phase |> <| rv_phase_updated_at := changedAt |>)
                      (resource_reservations d) |>)
          end
      end
  end.

(** ** Ending an attempt *)
Definition releaseResourceReservation (attemptID : uuid) (reason : string) (releasedAt : time) (d : db)
    : db :=
  d <| resource_reservations :=
    update_where (fun r => rv_attempt_id r = attemptID /\ rv_state r = Live)
      (fun r => r <| rv_state := Released |> <| rv_released_at := Some releasedAt |>
                  <| rv_release_reason := reason |>) (resource_reservations d) |>.

Definition release_generation (reason : string) (releasedAt : time) (g : generation_reservation)
    : generation_reservation :=
  g <| gr_state := Released |> <| gr_released_at := Some releasedAt |>
    <| gr_updated_at := releasedAt |> <| gr_release_reason := reason |>.
Definition release_budget (reason : string) (releasedAt : time) (b : artifact_budget) : artifact_budget :=
  b <| ab_state := Released |> <| ab_active_bytes := 0 |> <| ab_released_at := Some releasedAt |>
    <| ab_updated_at := releasedAt |> <| ab_release_reason := reason |>.

Definition releaseArtifactBudgetReservation (attemptID : uuid) (reason : string) (releasedAt : time)
    (d : db) : db :=
  d <| generation_reservations :=
         update_where (fun g => gr_attempt_id g = attemptID /\ gr_state g = Live)
           (release_generation reason releasedAt) (generation_reservations d) |>
    <| artifact_budgets :=
         update_where (fun b => ab_attempt_id b = attemptID /\ ab_state b = Live)
           (release_budget reason releasedAt) (artifact_budgets d) |>.

Definition open_phase (w : phase_work) : Prop := pw_state w ∈ [SBlocked; SReady; SClaimed].
#[export] Instance open_phase_dec w : Decision (open_phase w).
Proof. unfold open_phase. apply _. Defined.

Definition cancel_phase (reason : string) (finishedAt : time) (w : phase_work) : phase_work :=
  w <| pw_state := SCanceled |> <| pw_lease_expires_at := None |>
    <| pw_finished_at := Some finishedAt |> <| pw_updated_at := finishedAt |> <| pw_error := reason |>.

Definition cancelPhaseWorkItems (attemptID : uuid) (reason : string) (finishedAt : time) (d : db) : db :=
  d <| phase_work_items :=
    update_where (fun w => pw_attempt_id w = attemptID /\ open_phase w)
      (cancel_phase reason finishedAt) (phase_work_items d) |>.

Definition revoke_certificate (reason : string) (at_ : time) (c : workload_certificate)
    : workload_certificate :=
  c <| wc_state := SessRevoked |> <| wc_revoked_at := Some at_ |> <| wc_revoke_reason := reason |>.
Definition revoke_session (reason : string) (at_ : time) (s : gateway_session) : gateway_session :=
  s <| gs_state := SessRevoked |> <| gs_revoked_at := Some at_ |> <| gs_revoke_reason := reason |>
    <| gs_updated_at := at_ |>.
Definition cancel_command (reason : string) (at_ : time) (c : gateway_command) : gateway_command :=
  c <| gc_state := CmdCanceled |> <| gc_completed_at := Some at_ |>
    <| gc_delivery_lease_expires_at := None |>
    <| gc_error := if decide (gc_error c = "") then reason else gc_error c |>
    <| gc_updated_at := at_ |>.
Definition cancel_upload (at_ : time) (u : gateway_upload) : gateway_upload :=
  u <| gu_state := UpCanceled |> <| gu_upload_lease_expires_at := None |> <| gu_updated_at := at_ |>.

Definition revokeWorkerGatewayAttempt (attemptID : uuid) (reason : string) (revokedAt : time) (d : db)
    : db :=
  d <| workload_certificates :=
         update_where (fun c => wc_attempt_id c = attemptID /\ wc_state c = SessActive)
           (revoke_certificate reason revokedAt) (workload_certificates d) |>
    <| gateway_sessions :=
         update_where (fun s => gs_attempt_id s = attemptID /\ gs_state s = SessActive)
           (revoke_session reason revokedAt) (gateway_sessions d) |>
    <| gateway_commands :=
         update_where (fun c => gc_attempt_id c = attemptID /\ gc_state c ∈ [CmdQueued; CmdDelivered])
           (cancel_command reason revokedAt) (gateway_commands d) |>
    <| gateway_uploads :=
         update_where (fun u => gu_attempt_id u = attemptID /\ gu_state u ∈ [UpReady; UpUploading])
           (cancel_upload revokedAt) (gateway_uploads d) |>.

Definition revokeWorkerGatewayJob (jobID : uuid) (reason : string) (revokedAt : time) (d : db) : db :=
  foldl (fun d attemptID => revokeWorkerGatewayAttempt attemptID reason revokedAt d) d
    (a_id <$> filter (fun a => a_job_id a = jobID) (build_attempts d)).

(** ** Fenced transitions *)

(** The row [validateTransitionClaim] reads: NULL when a join finds nothing. *)
Definition transition_claim (current : BuildStatus) (now : time) (d : db) : option bool :=
  match first_where (fun a => a_id a = bs_attempt_id current /\ a_job_id a = bs_job_id current)
          (build_attempts d),
        first_where (fun l => wl_attempt_id l = bs_attempt_id current) (worker_leases d),
        first_where (fun u => us_attempt_id u = bs_attempt_id current) (attempt_usages d) with
  | Some _, Some l, Some u =>
      match first_where (fun w => w_id w = wl_worker_id l) (workers d) with
      | None => None
      | Some w => Some (bool_decide (now < wl_expires_at l /\
          wl_fence_token l = bs_fence_token current /\ w_stable_name w = bs_lease_owner current /\
          us_state u = UActive /\ now < deadline u))
      end
  | _, _, _ => None
  end.

Definition validateTransitionClaim (current : BuildStatus) (now : time) (d : db)
    : result job_error unit :=
  if decide (bs_attempt_id current = "") then Ok tt else
  match transition_claim current now d with
  | None => Err ClaimInactive
  | Some active => check active = true else ClaimStale;; Ok tt
  end.

(** A job that never had a scheduler claim keeps one attempt row. *)
Definition upsertAttemptSnapshot (newID : uuid) (status : BuildStatus) (d : db) : result job_error db :=
  let doc := bs_document status in
  let state := st_status doc in
  let finished := if isLedgerTerminal state then Some (st_updated_at doc) else None in
  let first := fun a => a_job_id a = st_job_id doc /\ a_attempt_no a = 1 in
  match first_where first (build_attempts d) with
  | Some _ =>
      Ok (d <| build_attempts := update_where first
            (fun a => a <| a_state := state |>
                        <| a_failure_detail := if decide (state = "failed") then st_error doc
                                               else a_failure_detail a |>
                        <| a_started_at := Some (default (st_created_at doc) (a_started_at a)) |>
                        <| a_finished_at := match finished with Some t => Some t | None => a_finished_at a end |>
                        <| a_updated_at := st_updated_at doc |>) (build_attempts d) |>)
  | None =>
      check ~ exists_row (fun a => a_id a = newID \/ (a_job_id a = st_job_id doc /\ a_fence_token a = 1))
              (build_attempts d) else JobDuplicateKey;;
      Ok (d <| build_attempts := build_attempts d ++
            [mkAttempt newID (st_job_id doc) 1 state None 1 "" (st_error doc)
               (Some (st_created_at doc)) finished (st_updated_at doc)] |>)
  end.

(** Everything an attempt holds is given back when it reaches a terminal
    state. *)
Definition recordAttemptTransitionTx (newID : uuid) (current : BuildStatus) (transitionAt : time) (d : db)
    : result job_error db :=
  let id := bs_attempt_id current in
  let state := bs_status current in
  if decide (id = "") then
    if decide (state = "queued") then Ok d else upsertAttemptSnapshot newID current d
  else
  let mine := fun a => a_id a = id /\ a_job_id a = bs_job_id current /\
                       a_fence_token a = bs_fence_token current in
  check count_where mine (build_attempts d) = 1%nat else AttemptReplaced;;
  let d := d <| build_attempts := update_where mine
    (fun a => a <| a_state := state |>
                <| a_failure_detail := if decide (state = "failed") then st_error (bs_document current)
                                       else a_failure_detail a |>
                <| a_finished_at := if isLedgerTerminal state then Some transitionAt else a_finished_at a |>
                <| a_updated_at := transitionAt |>) (build_attempts d) |> in
  if isLedgerTerminal state then
    let reason := "job_" +:+ state in
    let! d := budget (settleAttemptUsage id reason state transitionAt d) in
    let d := d <| worker_leases := delete_where (fun l => wl_attempt_id l = id) (worker_leases d) |> in
    let d := releaseResourceReservation id reason transitionAt d in
    let d := releaseArtifactBudgetReservation id reason transitionAt d in
    let d := cancelPhaseWorkItems id reason transitionAt d in
    Ok (revokeWorkerGatewayAttempt id reason transitionAt d)
  else
    let d := if decide (reservationPhase state = Some (RPhase Provision))
             then markAttemptCloudStarted id transitionAt d else d in
    updateResourceReservationPhase id state transitionAt d.

Section documents.
Context (MarshalStatus : JobStatus -> list ascii) (MarshalRequest : BuildRequest -> list ascii).

Definition statusDigest (doc : JobStatus) : string := digestBytes (MarshalStatus doc).

Definition recordTransition (newID : uuid) (previous : option BuildStatus) (current : BuildStatus)
    (source : string) (clk : clock) (d : db) : result job_error db :=
  let doc := statusDocument current in
  let digest := statusDigest doc in
  let transitionAt := clk 0%nat in
  let state := bs_status current in
  match first_where (fun j => j_id j = bs_job_id current /\ j_legacy_visible j = true) (build_jobs d) with
  | None => Err JobMissing
  | Some j =>
      if decide (j_state j = state /\ j_status_digest j = digest) then Ok d else
      let expected := match previous with Some p => bs_status p | None => j_state j end in
      check j_state j = expected else StateMismatch (j_state j) expected;;
      let! _ := validateTransitionClaim current (clk 1%nat) d in
      let revision := j_ledger_revision j + 1 in
      let d := d <| build_jobs :=
        update_where (fun x => j_id x = bs_job_id current)
          (fun x => x <| j_state := state |> <| j_status_snapshot := doc |>
                      <| j_status_digest := digest |>
                      <| j_terminal_reason := st_error (bs_document current) |>
                      <| j_updated_at := transitionAt |>
                      <| j_completed_at := if isLedgerTerminal state then Some transitionAt
                                           else j_completed_at x |>
                      <| j_ledger_revision := revision |>) (build_jobs d) |> in
      let! d := recordAttemptTransitionTx newID current transitionAt d in
      let from := match previous with Some p => bs_status p | None => "" end in
      let changed := match previous with Some p => bool_decide (bs_status p <> state) | None => true end in
      Ok (insertJobEvent (bs_job_id current)
            (if changed then "job.state_changed" else "job.snapshot_updated")
            (EvTransition from state digest revision source) d)
  end.

(** ** Submission *)

(** The document the idempotency digest is taken of: the request without the
    times that resolution generates and without the submitter. *)
Definition digest_document (req : BuildRequest) : BuildRequest :=
  req <| rq_requested_by := "" |>
      <| rq_resolved_context := (fun c => c <| rx_resolved_at := 0 |>) <$> rq_resolved_context req |>
      <| rq_config_bundle := (fun b => b <| cb_created_at := 0 |>) <$> rq_config_bundle req |>.
Definition requestDigest (req : BuildRequest) : string :=
  digestBytes (MarshalRequest (digest_document req)).

Record LedgerCreateResult := mkCreateResult {
  lc_job_id : uuid;
  lc_status : BuildStatus;
  lc_created : bool
}.

Definition resolveJobProject (requested : string) (d : db) : result job_error uuid :=
  match (if decide (TrimSpace requested = "")
         then first_where (fun p => pr_name p = DefaultProjectName) (projects d)
         else first_where (fun p => pr_id p = requested) (projects d)) with
  | Some p => Ok (pr_id p)
  | None => Err ProjectMissing
  end.

Definition loadIdempotentJob (projectID : uuid) (key digest : string) (d : db)
    : result job_error (option LedgerCreateResult) :=
  match first_where (fun j => j_project_id j = projectID /\ j_idempotency_key j = Some key)
          (build_jobs d) with
  | None => Ok None
  | Some j =>
      check j_request_digest j = digest else IdempotencyConflict;;
      Ok (Some (mkCreateResult (j_id j) (decodeStoredStatus (j_status_snapshot j) None) false))
  end.

Definition load_keyed (projectID : uuid) (req : BuildRequest) (d : db)
    : result job_error (option LedgerCreateResult) :=
  if decide (rq_idempotency_key req = "") then Ok None
  else loadIdempotentJob projectID (rq_idempotency_key req) (requestDigest req) d.

(** [local] is the server's own clock. *)
Definition prepareJobCreation (projectID : uuid) (req : BuildRequest) (source : string)
    (clk : clock) (local : time) (d : db) : result job_error (option LedgerCreateResult) :=
  let! existing := load_keyed projectID req d in
  match existing with
  | Some r => Ok (Some r)
  | None =>
      if decide (source <> "api") then Ok None else
      let! policy := budget (lockSubmissionPolicy projectID (clk 0%nat) d) in
      let! existing := load_keyed projectID req d in
      match existing with
      | Some r => Ok (Some r)
      | None =>
          let! _ := budget (checkSubmissionAdmission projectID policy (Some req) (clk 1%nat) local d) in
          Ok None
      end
  end.

Definition non_empty (s : string) : option string := if decide (s = "") then None else Some s.

(** [build_jobs] with the column defaults of the migrations *)
Definition new_job (projectID : uuid) (req : BuildRequest) (status : BuildStatus) (source : string)
    (requirements : list string) (now : time) : build_job :=
  let doc := statusDocument status in
  mkJob (bs_job_id status) projectID (non_empty (rq_requested_by req))
    (non_empty (rq_idempotency_key req)) (bs_status status) 0 req (requestDigest req) doc
    (statusDigest doc) None "" defaultMaxAttempts now true 1 ExecutorProtocolVersion requirements
    (if decide (source = "api") then now else st_created_at (bs_document status))
    (st_updated_at (bs_document status)) None.

Definition createJob (newID : uuid) (req : option BuildRequest) (status : BuildStatus)
    (source : string) (clk : clock) (local : time) (d : db)
    : result job_error (LedgerCreateResult * db) :=
  match req with
  | None => Err RequestMissing
  | Some req =>
  let! requirements := match PhaseCapabilityRequirements (Some req) "provision" with
    | Ok labels => Ok labels | Err _ => Err PhaseRequirements end in
  let! projectID := resolveJobProject (rq_project_id req) d in
  let! existing := prepareJobCreation projectID req source clk local d in
  match existing with
  | Some r => Ok (r, d)
  | None =>
      let j := new_job projectID req status source requirements (clk 2%nat) in
      if decide (exists_row (fun x => j_project_id x = projectID /\ is_Some (j_idempotency_key j) /\
                   j_idempotency_key x = j_idempotency_key j) (build_jobs d)) then
        let! existing := load_keyed projectID req d in
        match existing with Some r => Ok (r, d) | None => Err IdempotencyConflict end
      else
      check ~ exists_row (fun x => j_id x = j_id j) (build_jobs d) else JobDuplicateKey;;
      let d := d <| build_jobs := build_jobs d ++ [j] |> in
      let! d := if decide (bs_status status = "queued") then Ok d
                else upsertAttemptSnapshot newID status d in
      Ok (mkCreateResult (j_id j) status true,
          insertJobEvent (j_id j) "job.created"
            (EvCreated (bs_status status) (requestDigest req) (j_status_digest j) source) d)
  end
  end.
End documents.

(** ** Retention *)

(** [deleted_at] is left out. *)
Definition HideJob (jobID : uuid) (reason : string) (now : time) (d : db) : result job_error db :=
  let mine := fun j => j_id j = jobID /\ j_legacy_visible j = true in
  check count_where mine (build_jobs d) = 1%nat else JobHidden;;
  Ok (insertJobEvent jobID "job.hidden" (EvHidden reason)
        (d <| build_jobs := update_where mine
                (fun j => j <| j_legacy_visible := false |> <| j_updated_at := now |>
                            <| j_ledger_revision := j_ledger_revision j + 1 |>) (build_jobs d) |>)).

Definition retention_order : order build_job := then_by (by_key j_updated_at) (by_str j_id).
#[export] Instance retention_order_laws : OrderLaws retention_order.
Proof. unfold retention_order. apply _. Qed.

Definition expirable (before : time) (locked : uuid -> bool) (j : build_job) : Prop :=
  j_legacy_visible j = true /\ terminal (j_state j) /\ j_updated_at j < before /\ locked (j_id j) = false.
#[export] Instance expirable_dec before locked j : Decision (expirable before locked j).
Proof. unfold expirable. apply _. Defined.

(** One transaction of [ExpireTerminal]: the ids it hid. *)
Definition expire_batch (before : time) (locked : uuid -> bool) (d : db) : list uuid * db :=
  let expired := j_id <$> take terminalRetentionBatchSize
                   (sort_by retention_order (filter (expirable before locked) (build_jobs d))) in
  (expired,
   foldl (fun d jobID => insertJobEvent jobID "job.retention_hidden" (EvRetentionHidden before) d)
     (d <| build_jobs := update_where (fun j => j_id j ∈ expired)
             (fun j => j <| j_legacy_visible := false |>
                         <| j_ledger_revision := j_ledger_revision j + 1 |>) (build_jobs d) |>)
     expired).

(** The loop, batch after batch; [None] when the fuel runs out. *)
Fixpoint ExpireTerminal (fuel : nat) (before : time) (locked : uuid -> bool) (d : db)
    : option (nat * db) :=
  match fuel with
  | O => None
  | S fuel =>
      let '(expired, d) := expire_batch before locked d in
      if decide (length expired < terminalRetentionBatchSize)%nat then Some (length expired, d)
      else match ExpireTerminal fuel before locked d with
           | Some (total, d) => Some ((length expired + total)%nat, d)
           | None => None
           end
  end.
