(* ===== verification/Scheduler.v ===== *)
(** * The durable scheduler

    [internal/persistence/scheduler.go]: worker registration, recovery of
    expired leases, the claim of a job, and the operations on a claim.
    Statement [k] of a transaction reads the clock at [clk k]; [after k] is the
    clock from statement [k] on. *)

From S2P Require Import Prelude GoStrings Schema Capabilities CapacityLedger Budgets Fairness JobLedger.
From Stdlib Require Import Ascii.
Open Scope string_scope.
Open Scope list_scope.
Open Scope Z_scope.

Definition schedulerRecoveryBatch : nat := 32.
Definition staleWorkerPruneBatch : nat := 256.

Definition after (k : nat) (clk : clock) : clock := fun i => clk (k + i)%nat.

(** ** Worker registration *)

(** The sample of the executor's host, taken outside the database. *)
Record ExecutorTelemetry := mkTelemetry {
  ObservedAt : time;
  Available : bool;
  CPUPressure : Z;
  MemoryPressure : Z;
  DiskPressure : Z;
  PressureScore : Z;
  CacheKeys : list string
}.
#[export] Instance ExecutorTelemetry_eq : EqDecision ExecutorTelemetry.
Proof. solve_decision. Defined.

(** One entry of the process's [workerIDs] cache; the key is the encoded
    document of labels and telemetry. *)
Record cachedWorker := mkCached {
  cached_id : uuid;
  cached_heartbeat : time;
  cached_key : list string * ExecutorTelemetry
}.
Definition worker_cache := gmap string cachedWorker.

Definition capabilities_document (role : string) (labels : list string) (t : ExecutorTelemetry)
    : WorkerCapabilities := mkCapabilities (Some role) (Some labels) (Some (PressureScore t)).

(** [INSERT INTO workers ... ON CONFLICT (stable_name) DO UPDATE]: the id of
    the row and the table after it. *)
Definition register_worker (newID : uuid) (stableName : string) (capabilities : WorkerCapabilities)
    (now : time) (d : db) : result job_error (uuid * db) :=
  match first_where (fun w => w_stable_name w = stableName) (workers d) with
  | Some w =>
      Ok (w_id w, d <| workers := update_where (fun w => w_stable_name w = stableName)
        (fun w => w <| w_last_seen_at := Some now |> <| w_capabilities := capabilities |>
                    <| w_executor_protocol := ExecutorProtocolVersion |>
                    <| w_generation := w_generation w +
                         (if decide (cap_labels (w_capabilities w) <> cap_labels capabilities \/
                                     cap_role (w_capabilities w) <> cap_role capabilities \/
                                     w_executor_protocol w <> ExecutorProtocolVersion)
                          then 1 else 0) |>
                    <| w_updated_at := now |>) (workers d) |>)
  | None =>
      check ~ exists_row (fun w => w_id w = newID) (workers d) else JobDuplicateKey;;
      Ok (newID, d <| workers := workers d ++
        [mkWorker newID stableName WActive capabilities 1 (Some now) ExecutorProtocolVersion 1 now] |>)
  end.

(** [local] is the server's own clock.  The cache outlives the transaction. *)
Definition schedulerWorker (newID : uuid) (stableName : string) (labels : list string)
    (telemetry : ExecutorTelemetry) (local now : time) (cache : worker_cache) (d : db)
    : result job_error (uuid * worker_cache * db) :=
  let key := (labels, telemetry) in
  let register id :=
    let! (id, d) := register_worker id stableName
                       (capabilities_document "control-plane-admission" labels telemetry) now d in
    Ok (id, <[stableName := mkCached id local key]> cache, d) in
  match cache !! stableName with
  | Some c =>
      if decide (cached_key c = key /\ local - cached_heartbeat c < 15 * Second)
      then Ok (cached_id c, cache, d)
      else register (cached_id c)
  | None => register newID
  end.

(** ** Expired leases *)
Record expiredLeaseRow := mkExpired {
  el_lease_id : uuid;
  el_attempt_id : uuid;
  el_job_id : uuid;
  el_attempt_no : Z;
  el_max_attempts : Z;
  el_canceled : bool;
  el_lease_kind : LeaseKind;
  el_status : JobStatus
}.

(** The joined row of an expired lease. *)
Definition expired_row (now : time) (d : db) (l : worker_lease) : option expiredLeaseRow :=
  if decide (wl_expires_at l <= now) then
    match first_where (fun a => a_id a = wl_attempt_id l) (build_attempts d) with
    | None => None
    | Some a =>
        match first_where (fun j => j_id j = a_job_id a /\ ~ terminal (j_state j)) (build_jobs d) with
        | None => None
        | Some j => Some (mkExpired (wl_id l) (a_id a) (a_job_id a) (a_attempt_no a) (j_max_attempts j)
                            (bool_decide (is_Some (j_cancel_requested_at j))) (wl_lease_kind l)
                            (j_status_snapshot j))
        end
    end
  else None.

(** [locked] are the leases other transactions hold. *)
Definition loadExpiredLeases (limit : nat) (locked : uuid -> bool) (now : time) (d : db)
    : list expiredLeaseRow :=
  take limit (omap (expired_row now d)
    (filter (fun l => locked (wl_id l) = false) (sort_by (by_key wl_expires_at) (worker_leases d)))).

Definition leaseExpiryResult (state : string) : string :=
  if decide (state = "queued") then "requeued"
  else if decide (state = "failed" \/ state = "canceled") then state
  else "".

Definition leaseExpiryKey : Type := string * string.
Definition tally := gmap leaseExpiryKey Z.

Definition validLeaseExpiryCounter (leaseKind result : string) : bool :=
  if decide (leaseKind = "phase") then bool_decide (result = "reclaimed")
  else bool_decide ((leaseKind = "attempt" \/ leaseKind = "admission") /\
                    (result = "requeued" \/ result = "failed" \/ result = "canceled")).

Definition recordLeaseExpiry (leaseKind result : string) (count : Z) (now : time) (d : db)
    : Prelude.result job_error db :=
  check validLeaseExpiryCounter leaseKind result = true /\ 0 < count else CounterInvalid leaseKind result;;
  let mine := fun c => ec_lease_kind c = leaseKind /\ ec_result c = result in
  check count_where mine (expiry_counters d) = 1%nat else CounterMissing leaseKind result;;
  Ok (d <| expiry_counters := update_where mine
        (fun c => c <| ec_total := ec_total c + count |> <| ec_last_occurred_at := Some now |>)
        (expiry_counters d) |>).

Definition counter_order : order leaseExpiryKey := then_by (by_str fst) (by_str snd).
#[export] Instance counter_order_laws : OrderLaws counter_order.
Proof. unfold counter_order. apply _. Qed.

(** The rows to update, in the order they are locked. *)
Definition flush_keys (t : tally) : list leaseExpiryKey := sort_by counter_order (map_to_list t).*1.

Fixpoint flush_all (keys : list leaseExpiryKey) (t : tally) (clk : clock) (d : db)
    : result job_error db :=
  match keys with
  | [] => Ok d
  | key :: keys =>
      let! d := recordLeaseExpiry key.1 key.2 (default 0 (t !! key)) (clk 0%nat) d in
      flush_all keys t (after 1 clk) d
  end.
Definition flushLeaseExpiries (t : tally) (clk : clock) (d : db) : result job_error db :=
  flush_all (flush_keys t) t clk d.

(** A transaction body that tallies, with its counters applied last; [n] is the
    number of clock readings of the body. *)
Definition withDeferredLeaseExpiries {A} (n : nat)
    (body : tally -> clock -> db -> result job_error (A * tally * db)) (clk : clock) (d : db)
    : result job_error (A * db) :=
  let! (a, t, d) := body ∅ clk d in
  let! d := flushLeaseExpiries t (after n clk) d in
  Ok (a, d).

Definition lease_kind_name (k : LeaseKind) : string :=
  match k with KAttempt => "attempt" | KAdmission => "admission" end.

Definition expiredLeaseOutcome (row : expiredLeaseRow) : string * string :=
  if decide (el_canceled row = true) then
    ("canceled", "job canceled while executor lease was active")
  else if decide (el_max_attempts row <= el_attempt_no row) then
    ("failed", "executor lease expired and maximum attempts were exhausted")
  else ("queued", "previous executor lease expired; job queued for a fenced retry").

Section recovery.
Context (MarshalStatus : JobStatus -> list ascii).

(** The stored document of a job, rewritten to a state without a claim. *)
Definition rewrite_status (state error : string) (now : time) (s : BuildStatus) : BuildStatus :=
  s <| bs_document := (bs_document s) <| st_status := state |> <| st_error := error |>
                                      <| st_updated_at := now |> |>
    <| bs_attempt_id := "" |> <| bs_fence_token := 0 |> <| bs_lease_owner := "" |>.

Definition recoverExpiredLease (row : expiredLeaseRow) (t : tally) (clk : clock) (d : db)
    : result job_error (tally * db) :=
  let now := clk 0%nat in
  let '(state, reason) := expiredLeaseOutcome row in
  let id := el_attempt_id row in
  let doc := statusDocument (rewrite_status state reason now (decodeStoredStatus (el_status row) None)) in
  let d := d <| build_attempts := update_where (fun a => a_id a = id)
    (fun a => a <| a_state := "expired" |> <| a_failure_class := "lease_expired" |>
                <| a_failure_detail := reason |> <| a_finished_at := Some now |>
                <| a_updated_at := now |>) (build_attempts d) |> in
  let! d := budget (settleAttemptUsage id "lease_expired" "expired" now d) in
  let d := d <| worker_leases := delete_where (fun l => wl_id l = el_lease_id row) (worker_leases d) |> in
  let d := releaseResourceReservation id "lease_expired" now d in
  let d := releaseArtifactBudgetReservation id "lease_expired" now d in
  let d := cancelPhaseWorkItems id "lease_expired" now d in
  let d := revokeWorkerGatewayAttempt id "lease_expired" now d in
  let d := d <| build_jobs := update_where (fun j => j_id j = el_job_id row)
    (fun j => j <| j_state := state |> <| j_status_snapshot := doc |>
                <| j_status_digest := statusDigest MarshalStatus doc |> <| j_terminal_reason := reason |>
                <| j_updated_at := now |>
                <| j_completed_at := if decide (state = "failed" \/ state = "canceled")
                                     then Some now else None |>
                <| j_next_attempt_at := clk 1%nat |>
                <| j_ledger_revision := j_ledger_revision j + 1 |>) (build_jobs d) |> in
  let d := insertJobEvent (el_job_id row) "job.lease_expired"
    (EvLeaseExpired id (el_attempt_no row) state (el_lease_kind row) reason) d in
  let key := (lease_kind_name (el_lease_kind row), leaseExpiryResult state) in
  check validLeaseExpiryCounter key.1 key.2 = true else CounterInvalid key.1 key.2;;
  Ok (<[key := default 0 (t !! key) + 1]> t, d).

Fixpoint recover_all (rows : list expiredLeaseRow) (t : tally) (clk : clock) (d : db)
    : result job_error (tally * db) :=
  match rows with
  | [] => Ok (t, d)
  | row :: rows =>
      let! (t, d) := recoverExpiredLease row t clk d in
      recover_all rows t (after 2 clk) d
  end.

Definition recoverExpiredTx (limit : nat) (locked : uuid -> bool) (clk : clock) (d : db)
    : result job_error (nat * db) :=
  let expired := loadExpiredLeases limit locked (clk 0%nat) d in
  let n := length expired in
  let! (t, d) := recover_all expired ∅ (after 1 clk) d in
  let! d := flushLeaseExpiries t (after (1 + 2 * n) clk) d in
  Ok (n, d).
End recovery.

(** ** Claiming *)
Definition worker_kind (label : string) : Prop := String.prefix "worker-kind:" label = true.
#[export] Instance worker_kind_dec label : Decision (worker_kind label).
Proof. unfold worker_kind. apply _. Defined.

(** The candidate shares one of the executor's kinds, if the executor has any. *)
Definition same_kind (executor candidate : worker) : Prop :=
  Forall (fun label => ~ worker_kind label) (w_labels executor) \/
  Exists (fun label => worker_kind label /\ label ∈ w_labels candidate) (w_labels executor).
#[export] Instance same_kind_dec e c : Decision (same_kind e c).
Proof. unfold same_kind. apply _. Defined.

Definition pressure_score (w : worker) : Z :=
  match cap_pressure_score (w_capabilities w) with
  | Some s => if decide (0 <= s <= 9999) then Z.min 1000 s else 500
  | None => 500
  end.

(** A live worker that could take the work; [busy] are the workers that hold
    work already. *)
Definition scoring_candidate (now : time) (protocol : Z) (required : list string) (busy : worker -> Prop)
    (executor w : worker) : Prop :=
  fresh_worker now (5 * Second) w /\ protocol <= w_executor_protocol w /\ has_labels required w /\
  ~ busy w /\ same_kind executor w.
#[export] Instance scoring_candidate_dec now protocol required busy
    `{Hb : !forall w, Decision (busy w)} e w :
  Decision (scoring_candidate now protocol required busy e w).
Proof. unfold scoring_candidate. apply _. Defined.

Definition admission_busy (now : time) (d : db) (w : worker) : Prop :=
  ("worker-kind:admission" ∉ w_labels w) /\
  exists_row (fun l => wl_worker_id l = w_id w /\ now < wl_expires_at l) (worker_leases d).
#[export] Instance admission_busy_dec now d w : Decision (admission_busy now d w).
Proof. unfold admission_busy. apply _. Defined.

(** [selected_worker]: number of candidates, pressure and recent failures of
    the executor, which has to be a candidate itself. *)
Definition admission_scoring (now : time) (workerID : uuid) (d : db) (j : build_job)
    : option (Z * Z * Z) :=
  match first_where (fun w => w_id w = workerID) (workers d) with
  | None => None
  | Some e =>
      let candidates := filter (scoring_candidate now (j_minimum_executor_protocol j)
        (j_required_capabilities j) (admission_busy now d) e) (workers d) in
      match first_where (fun w => w_id w = workerID) candidates with
      | None => None
      | Some w => Some (Z.of_nat (length candidates), pressure_score w,
          Z.of_nat (count_where (fun a => a_worker_id a = Some (w_id w) /\ a_state a = "failed" /\
                      now - Hour < a_updated_at a) (build_attempts d)))
      end
  end.

Record claimCandidate := mkCandidate {
  cc_job_id : uuid;
  cc_project_id : uuid;
  cc_max_attempts : Z;
  cc_created_at : time;
  cc_fairness : fairProjectSelection;
  cc_request : BuildRequest;
  cc_status : BuildStatus;
  cc_scoring : Z * Z * Z
}.

Definition claim_job_order : order build_job :=
  then_by (desc (by_key j_priority))
  (then_by (by_key j_next_attempt_at) (then_by (by_key j_created_at) (by_str j_id))).
#[export] Instance claim_job_order_laws : OrderLaws claim_job_order.
Proof. unfold claim_job_order. apply _. Qed.

Definition candidate_of (j : build_job) (selection : fairProjectSelection) (scoring : Z * Z * Z)
    : claimCandidate :=
  let requestedBy := default "" (j_requested_by j) in
  let request := (j_request j) <| rq_project_id := j_project_id j |> <| rq_requested_by := requestedBy |> in
  let status := decodeStoredStatus ((j_status_snapshot j) <| st_job_id := j_id j |>
                  <| st_project_id := j_project_id j |> <| st_requested_by := requestedBy |>)
                  (Some request) in
  mkCandidate (j_id j) (j_project_id j) (j_max_attempts j) (j_created_at j) selection request status
    scoring.

(** [locked_projects] and [locked_jobs] are the fairness rows and jobs other
    transactions hold. *)
Definition selectClaimCandidate (workerID : uuid) (locked_projects locked_jobs : uuid -> bool)
    (clk : clock) (d : db) : option claimCandidate * db :=
  let '(selection, d) := selectFairAdmissionProject workerID locked_projects clk d in
  let now := clk 2%nat in
  (match selection with
   | None => None
   | Some s =>
       match pick claim_job_order (filter (fun j => j_project_id j = ProjectID s /\
               claimable_job now workerID d j /\ is_Some (admission_scoring now workerID d j) /\
               locked_jobs (j_id j) = false) (build_jobs d)) with
       | None => None
       | Some j => candidate_of j s <$> admission_scoring now workerID d j
       end
   end, d).

Definition allocateAttemptFence (jobID : uuid) (maxAttempts : Z) (d : db) : result job_error (Z * Z) :=
  let mine := filter (fun a => a_job_id a = jobID) (build_attempts d) in
  let attemptNo := max_by a_attempt_no mine + 1 in
  check attemptNo <= maxAttempts else AttemptsExhausted;;
  Ok (attemptNo, max_by a_fence_token mine + 1).

Record claimIDs := mkClaimIDs {
  id_attempt : uuid;
  id_lease : uuid;
  id_phase : Phase -> uuid
}.

Definition phase_name (p : Phase) : string :=
  match p with Provision => "provision" | Build => "build" | Verify => "verify" | Publish => "publish" end.
Definition phase_sequence (p : Phase) : Z :=
  match p with Provision => 10 | Build => 20 | Verify => 30 | Publish => 40 end.
Definition all_phases : list Phase := [Provision; Build; Verify; Publish].

Definition plan_item (ids : claimIDs) (projectID jobID : uuid) (createdAt : time) (p : Phase)
    (required : list string) : phase_work :=
  let first := bool_decide (p = Provision) in
  mkPhaseWork (id_phase ids p) projectID jobID (id_attempt ids) p (phase_sequence p) Shadow required
    (if first then SReady else SBlocked) createdAt (if first then Some createdAt else None) "" 0 None
    None None "" createdAt createdAt.

(** The requirements of every phase, or the first error. *)
Fixpoint plan_requirements (request : BuildRequest) (phases : list Phase)
    : result job_error (list (Phase * list string)) :=
  match phases with
  | [] => Ok []
  | p :: phases =>
      match PhaseCapabilityRequirements (Some request) (phase_name p) with
      | Err _ => Err PhaseRequirements
      | Ok labels =>
          let! rest := plan_requirements request phases in
          Ok ((p, labels) :: rest)
      end
  end.

Definition insertPhaseWorkPlan (ids : claimIDs) (projectID jobID : uuid) (request : BuildRequest)
    (createdAt : time) (d : db) : result job_error db :=
  let! requirements := plan_requirements request all_phases in
  let items := (fun '(p, labels) => plan_item ids projectID jobID createdAt p labels) <$> requirements in
  check NoDup (pw_id <$> phase_work_items d ++ items) /\
        ~ exists_row (fun w => pw_attempt_id w = id_attempt ids) (phase_work_items d)
    else JobDuplicateKey;;
  Ok (d <| phase_work_items := phase_work_items d ++ items |>).

(** What the claim may use, or [None] after the job has been put off. *)
Definition prepareClaimAccounting (projectID jobID : uuid) (request : BuildRequest) (clk : clock) (d : db)
    : result job_error (option (resourceVector * runtimeBudgetSpec) * db) :=
  let! resources := budget (resourceVectorFromRequest (Some request)) in
  let! spec := budget (runtimeBudgetSpecFromRequest (Some request)) in
  let! (allowed, retryAt) := budget (lockAndCheckClaimAdmission projectID jobID resources spec
                               (clk 0%nat) d) in
  if allowed then Ok (Some (resources, spec), d) else
  let soon := clk 1%nat + 250 * Millisecond in
  Ok (None, d <| build_jobs :=
        update_where (fun j => j_id j = jobID /\ j_state j = "queued")
          (fun j => j <| j_next_attempt_at := match retryAt with Some t => Z.max t soon | None => soon end |>)
          (build_jobs d) |>).

(** The trigger [build_attempt_executor_protocol]. *)
Definition executor_protocol_ok (workerID jobID : uuid) (d : db) : Prop :=
  exists_row (fun w => w_id w = workerID /\
    Forall (fun j => j_id j = jobID -> j_minimum_executor_protocol j <= w_executor_protocol w)
      (build_jobs d)) (workers d).
#[export] Instance executor_protocol_ok_dec workerID jobID d :
  Decision (executor_protocol_ok workerID jobID d).
Proof. unfold executor_protocol_ok. apply _. Defined.

Record SchedulerClaim := mkSchedulerClaim { sc_request : BuildRequest; sc_status : BuildStatus }.

Section claiming.
Context (MarshalStatus : JobStatus -> list ascii).

(** The keys the inserts of a claim must not repeat. *)
Definition fresh_claim (ids : claimIDs) (d : db) : Prop :=
  ~ exists_row (fun a => a_id a = id_attempt ids) (build_attempts d) /\
  ~ exists_row (fun r => rv_attempt_id r = id_attempt ids) (resource_reservations d) /\
  ~ exists_row (fun u => us_attempt_id u = id_attempt ids) (attempt_usages d) /\
  ~ exists_row (fun l => wl_id l = id_lease ids \/ wl_attempt_id l = id_attempt ids) (worker_leases d).
#[export] Instance fresh_claim_dec ids d : Decision (fresh_claim ids d).
Proof. unfold fresh_claim. apply _. Defined.

Definition persistClaim (ids : claimIDs) (candidate : claimCandidate) (resources : resourceVector)
    (spec : runtimeBudgetSpec) (workerID : uuid) (stableWorker : string) (leaseKind : LeaseKind)
    (leaseDuration : duration) (attemptNo fenceToken : Z) (now : time) (d : db)
    : result job_error (SchedulerClaim * db) :=
  let attemptID := id_attempt ids in
  let projectID := cc_project_id candidate in
  let jobID := cc_job_id candidate in
  let expires := Z.min (now + leaseDuration) (now + MaxRuntimeSeconds spec * Second) in
  check executor_protocol_ok workerID jobID d else ExecutorProtocol;;
  check fresh_claim ids d else JobDuplicateKey;;
  let d := d <| build_attempts := build_attempts d ++
    [mkAttempt attemptID jobID attemptNo "claimed" (Some workerID) fenceToken "" "" (Some now) None now] |> in
  let d := d <| resource_reservations := resource_reservations d ++
    [mkReservation attemptID projectID jobID (rq_resource_class (cc_request candidate))
       (VCPUs resources) (MemoryMiB resources) (DiskGiB resources) RClaimed Live now now None ""] |> in
  let d := insertAttemptUsage attemptID projectID jobID spec now d in
  let! d := insertPhaseWorkPlan ids projectID jobID (cc_request candidate) now d in
  let d := d <| worker_leases := worker_leases d ++
    [mkWorkerLease (id_lease ids) workerID attemptID fenceToken leaseKind expires now] |> in
  let status := (cc_status candidate)
    <| bs_document := (bs_document (cc_status candidate)) <| st_status := "claimed" |>
                        <| st_updated_at := now |> <| st_error := "" |> |>
    <| bs_attempt_id := attemptID |> <| bs_fence_token := fenceToken |>
    <| bs_lease_owner := stableWorker |> in
  let doc := statusDocument status in
  let d := d <| build_jobs := update_where (fun j => j_id j = jobID)
    (fun j => j <| j_state := "claimed" |> <| j_status_snapshot := doc |>
                <| j_status_digest := statusDigest MarshalStatus doc |> <| j_updated_at := now |>
                <| j_terminal_reason := "" |> <| j_ledger_revision := j_ledger_revision j + 1 |>)
    (build_jobs d) |> in
  Ok (mkSchedulerClaim (cc_request candidate) status,
      insertJobEvent jobID "job.claimed"
        (EvClaimed attemptID attemptNo fenceToken stableWorker expires (MaxRuntimeSeconds spec)
           (ReservedCloudCostMicrounits spec)) d).

Definition claimNextTx (ids : claimIDs) (workerID : uuid) (stableWorker : string) (leaseKind : LeaseKind)
    (leaseDuration : duration) (locked_projects locked_jobs : uuid -> bool) (clk : clock) (d : db)
    : result job_error (option SchedulerClaim * db) :=
  let '(found, d) := selectClaimCandidate workerID locked_projects locked_jobs clk d in
  match found with
  | None => Ok (None, d)
  | Some candidate =>
      let! (accounting, d) := prepareClaimAccounting (cc_project_id candidate) (cc_job_id candidate)
                                (cc_request candidate) (after 3 clk) d in
      match accounting with
      | None => Ok (None, d)
      | Some (resources, spec) =>
          let! (attemptNo, fenceToken) := allocateAttemptFence (cc_job_id candidate)
                                            (cc_max_attempts candidate) d in
          let! (claim, d) := persistClaim ids candidate resources spec workerID stableWorker leaseKind
                               leaseDuration attemptNo fenceToken (clk 5%nat) d in
          let '(candidates, pressure, failures) := cc_scoring candidate in
          let d := d <| worker_decisions := worker_decisions d ++
            [mkDecision "admission" (cc_job_id candidate) "" workerID candidates pressure failures
               (clk 6%nat)] |> in
          let selection := cc_fairness candidate in
          let! (dispatch, d) := fairly (recordFairDispatch selection "admission" (cc_created_at candidate)
                                 (clk 7%nat) d) in
          Ok (Some claim,
              insertJobEvent (cc_job_id candidate) "scheduler.fair_dispatch"
                (EvFairDispatch "admission" "" (id_attempt ids) 0 (PriorityWeight selection)
                   (StarvationThreshold selection) (Starved selection) (OldestAt selection)
                   (VRuntimeBefore selection) (VRuntimeAfter dispatch) (ItemWaitSecond dispatch)) d)
      end
  end.

Definition schedulerLeaseKind (capabilities : list string) : LeaseKind :=
  if decide ("worker-kind:admission" ∈ capabilities) then KAdmission else KAttempt.

(** What a transaction reads from outside the database: fresh identifiers, the
    rows other transactions hold, the host sample and the server's clock. *)
Record claim_env := mkClaimEnv {
  ce_worker_id : uuid;
  ce_ids : claimIDs;
  ce_locked_leases : uuid -> bool;
  ce_locked_projects : uuid -> bool;
  ce_locked_jobs : uuid -> bool;
  ce_telemetry : ExecutorTelemetry;
  ce_local : time
}.

Definition claim_tx (env : claim_env) (stableWorker : string) (leaseDuration : duration)
    (capabilities : list string) (workerID : uuid) (clk : clock) (d : db)
    : result job_error (option SchedulerClaim * db) :=
  let! (recovered, d) := recoverExpiredTx MarshalStatus schedulerRecoveryBatch (ce_locked_leases env)
                           (after 1 clk) d in
  claimNextTx (ce_ids env) workerID stableWorker (schedulerLeaseKind capabilities) leaseDuration
    (ce_locked_projects env) (ce_locked_jobs env) (after (9 + 2 * recovered) clk) d.

(** The cache keeps a registration whose transaction rolled back. *)
Definition ClaimNext (env : claim_env) (stableWorker : string) (leaseDuration : duration)
    (executorCapabilities : option (list string)) (cache : worker_cache) (clk : clock) (d : db)
    : worker_cache * result job_error (option SchedulerClaim * db) :=
  if decide (stableWorker = "") then (cache, Err WorkerNameRequired) else
  if decide (leaseDuration <= 0) then (cache, Err LeaseDurationInvalid) else
  match NormalizeExecutorCapabilities
          (default ["phase:provision"; "context:legacy"] executorCapabilities) with
  | Err _ => (cache, Err CapabilitiesInvalid)
  | Ok capabilities =>
      match schedulerWorker (ce_worker_id env) stableWorker capabilities (ce_telemetry env)
              (ce_local env) (clk 0%nat) cache d with
      | Err e => (cache, Err e)
      | Ok (workerID, cache, d) =>
          (cache, claim_tx env stableWorker leaseDuration capabilities workerID clk d)
      end
  end.
End claiming.

(** ** Operations on a claim *)

(** The lease of the exact attempt, fence and owner, live and within the
    attempt's runtime. *)
Definition held_lease (status : BuildStatus) (now : time) (d : db) (l : worker_lease) : Prop :=
  wl_attempt_id l = bs_attempt_id status /\ wl_fence_token l = bs_fence_token status /\
  now < wl_expires_at l /\
  exists_row (fun a => a_id a = bs_attempt_id status /\ a_job_id a = bs_job_id status) (build_attempts d) /\
  exists_row (fun w => w_id w = wl_worker_id l /\ w_stable_name w = bs_lease_owner status) (workers d) /\
  exists_row (fun u => active_usage (bs_attempt_id status) u /\ now < deadline u) (attempt_usages d).
#[export] Instance held_lease_dec status now d l : Decision (held_lease status now d l).
Proof. unfold held_lease. apply _. Defined.

(** [started] is when the statement began, which is what [now()] gives; the
    [clock_timestamp()] of its conditions is [now]. *)
Definition RenewClaim (status : BuildStatus) (leaseDuration : duration) (started now : time) (d : db)
    : result job_error db :=
  check bs_attempt_id status <> "" /\ 0 < bs_fence_token status /\ bs_lease_owner status <> ""
    else ClaimIdentityMissing;;
  match first_where (active_usage (bs_attempt_id status)) (attempt_usages d) with
  | None => Err ClaimStale
  | Some u =>
      check count_where (held_lease status now d) (worker_leases d) = 1%nat else ClaimStale;;
      Ok (d <| worker_leases := update_where (held_lease status now d)
            (fun l => l <| wl_expires_at := Z.min (deadline u) (started + leaseDuration) |>
                        <| wl_renewed_at := started |>) (worker_leases d) |>)
  end.

Definition CheckClaim (status : BuildStatus) (now : time) (d : db) : result job_error unit :=
  check exists_row (held_lease status now d) (worker_leases d) /\
        exists_row (fun j => j_id j = bs_job_id status /\ ~ terminal (j_state j)) (build_jobs d)
    else ClaimStale;;
  Ok tt.

(** The claim of the newest attempt of the job that holds a live lease. *)
Definition live_claim (now : time) (d : db) (jobID : uuid) : option build_attempt :=
  pick (desc (by_key a_attempt_no))
    (filter (fun a => a_job_id a = jobID /\
       exists_row (fun l => wl_attempt_id l = a_id a /\ now < wl_expires_at l) (worker_leases d))
       (build_attempts d)).

Definition visible_status (now : time) (d : db) (j : build_job) : BuildStatus :=
  let requestedBy := default "" (j_requested_by j) in
  let request := (j_request j) <| rq_project_id := j_project_id j |> <| rq_requested_by := requestedBy |> in
  let doc := (j_status_snapshot j) <| st_job_id := j_id j |> <| st_project_id := j_project_id j |>
               <| st_requested_by := requestedBy |> in
  match live_claim now d (j_id j) with
  | None => decodeStoredStatus doc (Some request)
  | Some a =>
      let owner := match a_worker_id a with
        | Some id => default "" (w_stable_name <$> first_where (fun w => w_id w = id) (workers d))
        | None => "" end in
      mkBuildStatus doc (Some request) (a_id a) (a_fence_token a) owner
  end.

Definition LoadVisible (now : time) (d : db) : gmap string BuildStatus :=
  list_to_map ((fun j => (j_id j, visible_status now d j)) <$>
    filter (fun j => j_legacy_visible j = true) (build_jobs d)).

(** ** Operator actions *)
Section actions.
Context (MarshalStatus : JobStatus -> list ascii).

Definition job_attempts (jobID : uuid) (d : db) : list uuid :=
  a_id <$> filter (fun a => a_job_id a = jobID) (build_attempts d).

Definition CancelJob (jobID : uuid) (reason : string) (now : time) (d : db)
    : result job_error (BuildStatus * db) :=
  match first_where (fun j => j_id j = jobID /\ j_legacy_visible j = true) (build_jobs d) with
  | None => Err JobMissing
  | Some j =>
      check ~ terminal (j_state j) else AlreadyTerminal (j_state j);;
      let status := rewrite_status "canceled" reason now (decodeStoredStatus (j_status_snapshot j) None) in
      let doc := statusDocument status in
      let d := d <| build_jobs := update_where (fun j => j_id j = jobID)
        (fun j => j <| j_state := "canceled" |> <| j_cancel_requested_at := Some now |>
                    <| j_terminal_reason := reason |> <| j_completed_at := Some now |>
                    <| j_updated_at := now |> <| j_status_snapshot := doc |>
                    <| j_status_digest := statusDigest MarshalStatus doc |>
                    <| j_ledger_revision := j_ledger_revision j + 1 |>) (build_jobs d) |> in
      let d := d <| build_attempts :=
        update_where (fun a => a_job_id a = jobID /\ a_finished_at a = None)
          (fun a => a <| a_state := "canceled" |> <| a_failure_class := "canceled" |>
                      <| a_failure_detail := reason |> <| a_finished_at := Some now |>
                      <| a_updated_at := now |>) (build_attempts d) |> in
      let! d := budget (settleJobAttemptUsage jobID "job_canceled" "canceled" now d) in
      let d := d <| worker_leases :=
        delete_where (fun l => wl_attempt_id l ∈ job_attempts jobID d) (worker_leases d) |> in
      let d := d <| resource_reservations :=
        update_where (fun r => rv_job_id r = jobID /\ rv_state r = Live)
          (fun r => r <| rv_state := Released |> <| rv_released_at := Some now |>
                      <| rv_release_reason := "job_canceled" |>) (resource_reservations d) |> in
      let d := d <| phase_work_items :=
        update_where (fun w => pw_job_id w = jobID /\ open_phase w)
          (cancel_phase "job_canceled" now) (phase_work_items d) |> in
      let d := d <| generation_reservations :=
        update_where (fun g => gr_state g = Live /\
            exists_row (fun b => ab_job_id b = jobID /\ ab_attempt_id b = gr_attempt_id g) (artifact_budgets d))
          (release_generation "job_canceled" now) (generation_reservations d) |> in
      let d := d <| artifact_budgets :=
        update_where (fun b => ab_job_id b = jobID /\ ab_state b = Live)
          (release_budget "job_canceled" now) (artifact_budgets d) |> in
      let d := revokeWorkerGatewayJob jobID "job_canceled" now d in
      Ok (status, insertJobEvent jobID "job.canceled" (EvCanceled reason) d)
  end.

Definition RetryJob (jobID : uuid) (clk : clock) (d : db) : result job_error (BuildStatus * db) :=
  match first_where (fun j => j_id j = jobID /\ j_legacy_visible j = true) (build_jobs d) with
  | None => Err JobMissing
  | Some j =>
      let attempts := Z.of_nat (count_where (fun a => a_job_id a = jobID) (build_attempts d)) in
      check j_state j = "failed" \/ j_state j = "canceled" else NotRetryable (j_state j);;
      check attempts < j_max_attempts j else AttemptsExhausted;;
      let! _ := budget (lockAndCheckRetryAdmission (j_project_id j) jobID (Some (j_request j))
                  (clk 0%nat) d) in
      let now := clk 1%nat in
      let status := rewrite_status "queued" "" now
                      (decodeStoredStatus ((j_status_snapshot j) <| st_failed_stage := "" |>)
                         (Some (j_request j))) in
      let doc := statusDocument status in
      let previous := j_state j in
      let d := d <| build_jobs := update_where (fun j => j_id j = jobID)
        (fun j => j <| j_state := "queued" |> <| j_cancel_requested_at := None |>
                    <| j_terminal_reason := "" |> <| j_completed_at := None |>
                    <| j_next_attempt_at := clk 2%nat |> <| j_updated_at := now |>
                    <| j_status_snapshot := doc |> <| j_status_digest := statusDigest MarshalStatus doc |>
                    <| j_ledger_revision := j_ledger_revision j + 1 |>) (build_jobs d) |> in
      Ok (status, insertJobEvent jobID "job.retry_queued" (EvRetryQueued previous (attempts + 1)) d)
  end.
End actions.

(** ** Pruning *)
Definition idle_worker (d : db) (w : worker) : Prop :=
  ~ exists_row (fun l => wl_worker_id l = w_id w) (worker_leases d).
#[export] Instance idle_worker_dec d w : Decision (idle_worker d w).
Proof. unfold idle_worker. apply _. Defined.

Definition prunable (before : time) (locked : uuid -> bool) (d : db) (w : worker) : Prop :=
  match w_last_seen_at w with Some t => t < before | None => True end /\
  idle_worker d w /\ locked (w_id w) = false.
#[export] Instance prunable_dec before locked d w : Decision (prunable before locked d w).
Proof. unfold prunable. destruct (w_last_seen_at w); apply _. Defined.

(** [ORDER BY last_seen_at NULLS FIRST, id] *)
Definition prune_order : order worker :=
  then_by (desc (by_nullable (fun w => Z.opp <$> w_last_seen_at w))) (by_str w_id).
#[export] Instance prune_order_laws : OrderLaws prune_order.
Proof. unfold prune_order. apply _. Qed.

(** One transaction: the workers selected and the rows deleted, with the
    foreign key of the attempts set to NULL. *)
Definition prune_batch (before : time) (locked : uuid -> bool) (d : db) : nat * nat * db :=
  let ids := w_id <$> take staleWorkerPruneBatch
               (sort_by prune_order (filter (prunable before locked d) (workers d))) in
  let doomed := fun w => w_id w ∈ ids /\ idle_worker d w in
  let gone := w_id <$> filter doomed (workers d) in
  (length ids, count_where doomed (workers d),
   d <| worker_decisions := delete_where (fun x => wd_worker_id x ∈ ids) (worker_decisions d) |>
     <| build_attempts := update_where (fun a => exists_row (fun id => a_worker_id a = Some id) gone)
          (fun a => a <| a_worker_id := None |>) (build_attempts d) |>
     <| workers := delete_where doomed (workers d) |>).

Fixpoint PruneStaleWorkers (fuel : nat) (before : time) (locked : uuid -> bool) (d : db)
    : option (nat * db) :=
  match fuel with
  | O => None
  | S fuel =>
      let '(selected, pruned, d) := prune_batch before locked d in
      if decide (selected < staleWorkerPruneBatch)%nat then Some (pruned, d)
      else match PruneStaleWorkers fuel before locked d with
           | Some (total, d) => Some ((pruned + total)%nat, d)
           | None => None
           end
  end.

(** ** Counters *)
Record LeaseExpiryStatus := mkExpiryStatus {
  AttemptRequeued : Z;
  AttemptFailed : Z;
  AttemptCanceled : Z;
  AdmissionRequeued : Z;
  AdmissionFailed : Z;
  AdmissionCanceled : Z;
  PhaseReclaimed : Z
}.
Definition expiry_total (leaseKind result : string) (d : db) : Z :=
  sum_by ec_total (filter (fun c => ec_lease_kind c = leaseKind /\ ec_result c = result)
                     (expiry_counters d)).
Definition readLeaseExpiryStatus (d : db) : LeaseExpiryStatus :=
  mkExpiryStatus (expiry_total "attempt" "requeued" d) (expiry_total "attempt" "failed" d)
    (expiry_total "attempt" "canceled" d) (expiry_total "admission" "requeued" d)
    (expiry_total "admission" "failed" d) (expiry_total "admission" "canceled" d)
    (expiry_total "phase" "reclaimed" d).
