(* ===== verification/PhaseWork.v ===== *)
(** * Phase work

    [internal/persistence/phase_work.go], [phase_context.go] and the fence of
    [runtime_metadata.go]: the durable plan of an attempt (provision, build,
    verify, publish), the fenced claim of one phase, its renewal and its end,
    and the hand-off document between phases. *)

From S2P Require Import Prelude GoStrings Schema Capabilities CapacityLedger Budgets Fairness.
From S2P Require Import JobLedger Scheduler.
From Stdlib Require Import Ascii.
Open Scope string_scope.
Open Scope list_scope.
Open Scope Z_scope.

Definition phase_of (s : string) : option Phase :=
  if decide (s = "provision") then Some Provision
  else if decide (s = "build") then Some Build
  else if decide (s = "verify") then Some Verify
  else if decide (s = "publish") then Some Publish
  else None.

Definition phaseWorkState (p : Phase) : string :=
  match p with
  | Provision => "provisioning" | Build => "building" | Verify => "verifying" | Publish => "publishing"
  end.

Record PhaseWorkClaim := mkPhaseClaim {
  pk_id : uuid;
  pk_project_id : uuid;
  pk_job_id : uuid;
  pk_attempt_id : uuid;
  pk_attempt_fence : Z;
  pk_phase : Phase;
  pk_sequence : Z;
  pk_claim_owner : string;
  pk_claim_fence : Z;
  pk_lease_expires_at : time;
  pk_request : BuildRequest;
  pk_status : BuildStatus
}.

(** ** Claiming a phase *)

(** The lease of the item has run out. *)
Definition expired_phase (now : time) (w : phase_work) : Prop :=
  pw_state w = SClaimed /\ at_or_before (pw_lease_expires_at w) now.
#[export] Instance expired_phase_dec now w : Decision (expired_phase now w).
Proof. unfold expired_phase. apply _. Defined.

Definition reclaim_row (now : time) (w : phase_work) : phase_work :=
  w <| pw_state := SReady |> <| pw_claim_owner := "" |> <| pw_lease_expires_at := None |>
    <| pw_available_at := now |> <| pw_updated_at := now |>
    <| pw_ready_since := Some (default now (pw_ready_since w)) |>
    <| pw_error := "phase lease expired and was reclaimed" |>.

(** The rows affected and the table after them. *)
Definition reclaim_expired (now : time) (d : db) : Z * db :=
  (Z.of_nat (count_where (expired_phase now) (phase_work_items d)),
   d <| phase_work_items := update_where (expired_phase now) (reclaim_row now) (phase_work_items d) |>).

Definition phase_busy (now : time) (d : db) (w : worker) : Prop :=
  exists_row (fun x => pw_claim_owner x = w_stable_name w /\ pw_state x = SClaimed /\
                       later_than (pw_lease_expires_at x) now) (phase_work_items d).
#[export] Instance phase_busy_dec now d w : Decision (phase_busy now d w).
Proof. unfold phase_busy. apply _. Defined.

Definition phase_scoring (now : time) (workerID : uuid) (d : db) (x : phase_work) (j : build_job)
    : option (Z * Z * Z) :=
  match first_where (fun w => w_id w = workerID) (workers d) with
  | None => None
  | Some e =>
      let candidates := filter (scoring_candidate now (j_minimum_executor_protocol j)
        (pw_required_capabilities x) (phase_busy now d) e) (workers d) in
      match first_where (fun w => w_id w = workerID) candidates with
      | None => None
      | Some w => Some (Z.of_nat (length candidates), pressure_score w,
          Z.of_nat (count_where (fun y => pw_claim_owner y = w_stable_name w /\ pw_state y = SFailed /\
                      now - Hour < pw_updated_at y) (phase_work_items d)))
      end
  end.

(** The rows the selection joins to an item. *)
Record phase_join := mkPhaseJoin {
  pj_item : phase_work;
  pj_attempt : build_attempt;
  pj_job : build_job;
  pj_owner : worker;
  pj_scoring : Z * Z * Z
}.

Definition join_phase (now : time) (workerID : uuid) (d : db) (x : phase_work) : option phase_join :=
  match first_where (fun a => a_id a = pw_attempt_id x) (build_attempts d),
        first_where (fun j => j_id j = pw_job_id x) (build_jobs d),
        first_where (fun l => wl_attempt_id l = pw_attempt_id x) (worker_leases d) with
  | Some a, Some j, Some l =>
      match first_where (fun w => w_id w = wl_worker_id l) (workers d), phase_scoring now workerID d x j with
      | Some owner, Some scoring => Some (mkPhaseJoin x a j owner scoring)
      | _, _ => None
      end
  | _, _, _ => None
  end.

Definition claim_phase_order (d : db) : order phase_join :=
  then_by (desc (by_flag (fun p => bool_decide (replay d (pj_item p)))))
  (then_by (by_key (fun p => pw_available_at (pj_item p)))
  (then_by (by_key (fun p => pw_created_at (pj_item p))) (by_str (fun p => pw_id (pj_item p))))).
#[export] Instance claim_phase_order_laws d : OrderLaws (claim_phase_order d).
Proof. unfold claim_phase_order. apply _. Qed.

Definition select_phase (now : time) (workerID projectID : uuid) (phases : list Phase)
    (locked : uuid -> bool) (d : db) : option phase_join :=
  pick (claim_phase_order d) (omap (join_phase now workerID d)
    (filter (fun x => pw_project_id x = projectID /\ ready_phase now workerID phases d x /\
                      locked (pw_id x) = false) (phase_work_items d))).

Definition phase_claim_of (p : phase_join) (owner : string) (expires : time) : PhaseWorkClaim :=
  let x := pj_item p in
  let request := (j_request (pj_job p)) <| rq_project_id := pw_project_id x |> in
  let doc := (j_status_snapshot (pj_job p)) <| st_job_id := pw_job_id x |>
               <| st_project_id := pw_project_id x |> in
  mkPhaseClaim (pw_id x) (pw_project_id x) (pw_job_id x) (pw_attempt_id x) (a_fence_token (pj_attempt p))
    (pw_phase x) (pw_sequence x) owner (pw_claim_fence x + 1) expires request
    (mkBuildStatus doc (Some request) (pw_attempt_id x) (a_fence_token (pj_attempt p))
       (w_stable_name (pj_owner p))).

Definition claim_phase_row (owner : string) (fence : Z) (lease : duration) (now : time) (x : phase_work)
    : phase_work :=
  x <| pw_state := SClaimed |> <| pw_claim_owner := owner |> <| pw_claim_fence := fence |>
    <| pw_lease_expires_at := Some (now + lease) |>
    <| pw_started_at := Some (default now (pw_started_at x)) |>
    <| pw_updated_at := now |> <| pw_error := "" |>.

(** A full phase puts the item off. *)
Definition defer_phase (id : uuid) (now : time) (d : db) : db :=
  d <| phase_work_items := update_where (fun x => pw_id x = id)
    (fun x => x <| pw_available_at := now + 250 * Millisecond |> <| pw_updated_at := now |>)
    (phase_work_items d) |>.

Record phase_env := mkPhaseEnv {
  pe_worker_id : uuid;
  pe_locked_projects : uuid -> bool;
  pe_locked_items : uuid -> bool;
  pe_telemetry : ExecutorTelemetry
}.

Definition registerCapabilityWorker (newID : uuid) (stableName : string) (labels : list string)
    (telemetry : ExecutorTelemetry) (now : time) (d : db) : result job_error (uuid * db) :=
  register_worker newID stableName (capabilities_document "phase-executor" labels telemetry) now d.

(** The claim of the selected item, once its phase has room. *)
Definition take_phase (p : phase_join) (selection : fairProjectSelection) (owner : string)
    (lease : duration) (workerID : uuid) (clk : clock) (d : db)
    : result job_error (option PhaseWorkClaim * db) :=
  let x := pj_item p in
  match updateResourceReservationPhase (pw_attempt_id x) (phaseWorkState (pw_phase x)) (clk 0%nat) d with
  | Err (PhaseCapacity _ _ _) => Ok (None, defer_phase (pw_id x) (clk 1%nat) d)
  | Err e => Err e
  | Ok d =>
      let now := clk 1%nat in
      let claim := phase_claim_of p owner (now + lease) in
      check exists_row (fun y => pw_id y = pw_id x /\ pw_state y = SReady) (phase_work_items d)
        else PhaseClaimMissing;;
      let d := d <| phase_work_items :=
        update_where (fun y => pw_id y = pw_id x /\ pw_state y = SReady)
          (claim_phase_row owner (pk_claim_fence claim) lease now) (phase_work_items d) |> in
      let '(candidates, pressure, failures) := pj_scoring p in
      let d := d <| worker_decisions := worker_decisions d ++
        [mkDecision "phase" (pw_job_id x) (phase_name (pw_phase x)) workerID candidates pressure failures
           (clk 2%nat)] |> in
      let! (dispatch, d) := fairly (recordFairDispatch selection "phase" (waiting_since x) (clk 3%nat) d) in
      Ok (Some claim,
          insertJobEvent (pw_job_id x) "scheduler.fair_dispatch"
            (EvFairDispatch "phase" (phase_name (pw_phase x)) (pw_id x) (pk_claim_fence claim)
               (PriorityWeight selection) (StarvationThreshold selection) (Starved selection)
               (OldestAt selection) (VRuntimeBefore selection) (VRuntimeAfter dispatch)
               (ItemWaitSecond dispatch)) d)
  end.

(** The body of the transaction, which tallies the phases it reclaimed. *)
Definition claim_phase_body (env : phase_env) (owner : string) (lease : duration)
    (capabilities : list string) (phases : list Phase) (t : tally) (clk : clock) (d : db)
    : result job_error (option PhaseWorkClaim * tally * db) :=
  let! (workerID, d) := registerCapabilityWorker (pe_worker_id env) owner capabilities (pe_telemetry env)
                          (clk 0%nat) d in
  let '(reclaimed, d) := reclaim_expired (clk 1%nat) d in
  let key := ("phase", "reclaimed") in
  let t := if decide (0 < reclaimed) then <[key := default 0 (t !! key) + reclaimed]> t else t in
  let '(selection, d) := selectFairPhaseProject workerID phases (pe_locked_projects env) (after 2 clk) d in
  match selection with
  | None => Ok (None, t, d)
  | Some s =>
      match select_phase (clk 4%nat) workerID (ProjectID s) phases (pe_locked_items env) d with
      | None => Ok (None, t, d)
      | Some p =>
          let! (claim, d) := take_phase p s owner lease workerID (after 5 clk) d in
          Ok (claim, t, d)
      end
  end.

Fixpoint parse_phases (phases : list string) : result job_error (list Phase) :=
  match phases with
  | [] => Ok []
  | s :: phases =>
      match phase_of s with
      | None => Err (PhaseFilterInvalid s)
      | Some p => let! rest := parse_phases phases in Ok (p :: rest)
      end
  end.

Definition ClaimPhaseWork (env : phase_env) (owner : string) (lease : duration)
    (capabilities phases : list string) (clk : clock) (d : db)
    : result job_error (option PhaseWorkClaim * db) :=
  let owner := TrimSpace owner in
  check ~ (owner = "" \/ 256 < go_len owner) else PhaseOwnerRequired;;
  check 0 < lease else LeaseDurationInvalid;;
  match NormalizeExecutorCapabilities capabilities with
  | Err _ => Err CapabilitiesInvalid
  | Ok capabilities =>
      let! phases := parse_phases phases in
      withDeferredLeaseExpiries 9 (claim_phase_body env owner lease capabilities phases) clk d
  end.

(** ** Activating a plan *)
Section metadata.
Context (uuid_Parse : string -> bool).

(** The exact live attempt, or with [allowTerminal] an attempt and a job that
    have both ended. *)
Definition metadata_allowed (status : BuildStatus) (allowTerminal : bool) (now : time) (d : db) : Prop :=
  exists_row (fun a => a_id a = bs_attempt_id status /\ a_job_id a = bs_job_id status /\
    a_fence_token a = bs_fence_token status /\
    exists_row (fun j => j_id j = a_job_id a /\
      (exists_row (fun l => wl_attempt_id l = a_id a /\ now < wl_expires_at l /\
          wl_fence_token l = bs_fence_token status /\
          exists_row (fun w => w_id w = wl_worker_id l /\ w_stable_name w = bs_lease_owner status)
            (workers d)) (worker_leases d) \/
       (allowTerminal = true /\ terminal (j_state j) /\ terminal (a_state a)))) (build_jobs d))
    (build_attempts d).
#[export] Instance metadata_allowed_dec status allow now d : Decision (metadata_allowed status allow now d).
Proof. unfold metadata_allowed. apply _. Defined.

Definition validateMetadataFence (status : BuildStatus) (allowTerminal : bool) (now : time) (d : db)
    : result job_error (uuid * uuid) :=
  check uuid_Parse (bs_job_id status) = true else MetadataIDInvalid;;
  check ~ (bs_attempt_id status = "" \/ bs_fence_token status <= 0 \/ bs_lease_owner status = "")
    else MetadataFenceMissing;;
  check uuid_Parse (bs_attempt_id status) = true else MetadataIDInvalid;;
  check metadata_allowed status allowTerminal now d else MetadataFenceStale;;
  Ok (bs_job_id status, bs_attempt_id status).

Definition activatable (attemptID : uuid) (w : phase_work) : Prop :=
  pw_attempt_id w = attemptID /\ pw_execution_mode w = Shadow /\
  ((pw_phase w = Provision /\ pw_state w = SReady) \/ (pw_phase w <> Provision /\ pw_state w = SBlocked)).
#[export] Instance activatable_dec attemptID w : Decision (activatable attemptID w).
Proof. unfold activatable. apply _. Defined.

Definition ActivatePhasePlan (status : BuildStatus) (clk : clock) (d : db) : result job_error db :=
  let! (_, attemptID) := validateMetadataFence status false (clk 0%nat) d in
  match attempt_reservation attemptID d with
  | None => Err ReservationMissing
  | Some r =>
      check rv_phase r = RClaimed /\ bs_status status = "claimed" else PhasePlanBoundary;;
      check count_where (activatable attemptID) (phase_work_items d) = 4%nat else PhasePlanIncomplete;;
      let now := clk 1%nat in
      Ok (d <| phase_work_items := update_where (activatable attemptID)
            (fun w => w <| pw_execution_mode := ActiveMode |>
                        <| pw_ready_since := if decide (pw_state w = SReady)
                                             then Some (default now (pw_ready_since w))
                                             else pw_ready_since w |>
                        <| pw_updated_at := now |>) (phase_work_items d) |>)
  end.
End metadata.

(** ** Renewing a phase *)

(** The row of the exact owner and fence. *)
Definition claimed_by (claim : PhaseWorkClaim) (w : phase_work) : Prop :=
  pw_id w = pk_id claim /\ pw_state w = SClaimed /\ pw_claim_owner w = pk_claim_owner claim /\
  pw_claim_fence w = pk_claim_fence claim.
#[export] Instance claimed_by_dec claim w : Decision (claimed_by claim w).
Proof. unfold claimed_by. apply _. Defined.

Definition live_claim_row (claim : PhaseWorkClaim) (now : time) (w : phase_work) : Prop :=
  claimed_by claim w /\ later_than (pw_lease_expires_at w) now.
#[export] Instance live_claim_row_dec claim now w : Decision (live_claim_row claim now w).
Proof. unfold live_claim_row. apply _. Defined.

Definition renewable_attempt (claim : PhaseWorkClaim) (now : time) (d : db) (l : worker_lease) : Prop :=
  wl_attempt_id l = pk_attempt_id claim /\ wl_fence_token l = pk_attempt_fence claim /\
  now < wl_expires_at l /\
  exists_row (fun u => active_usage (wl_attempt_id l) u /\ now < deadline u) (attempt_usages d).
#[export] Instance renewable_attempt_dec claim now d l : Decision (renewable_attempt claim now d l).
Proof. unfold renewable_attempt. apply _. Defined.

(** [LEAST] of the attempt's deadline and the later of the old expiry and two
    minutes from now; NULL without a usage row is ignored by [LEAST]. *)
Definition attempt_expiry (now : time) (d : db) (l : worker_lease) : time :=
  let reach := Z.max (wl_expires_at l) (now + 2 * Minute) in
  match first_where (fun u => us_attempt_id u = wl_attempt_id l) (attempt_usages d) with
  | Some u => Z.min (deadline u) reach
  | None => reach
  end.

Definition phase_identity (owner : string) (w : worker) : Prop :=
  w_stable_name w = owner /\ cap_role (w_capabilities w) = Some "phase-executor".
#[export] Instance phase_identity_dec owner w : Decision (phase_identity owner w).
Proof. unfold phase_identity. apply _. Defined.

Definition RenewPhaseWork (claim : PhaseWorkClaim) (lease : duration) (clk : clock) (d : db)
    : result job_error db :=
  check 0 < lease else PhaseClaimInvalid;;
  let now := clk 0%nat in
  check count_where (live_claim_row claim now) (phase_work_items d) = 1%nat else PhaseClaimMissing;;
  let d := d <| phase_work_items := update_where (live_claim_row claim now)
    (fun w => w <| pw_lease_expires_at := Some (now + lease) |> <| pw_updated_at := now |>)
    (phase_work_items d) |> in
  let now := clk 1%nat in
  check count_where (renewable_attempt claim now d) (worker_leases d) = 1%nat else ClaimStale;;
  let d := d <| worker_leases := update_where (renewable_attempt claim now d)
    (fun l => l <| wl_expires_at := attempt_expiry now d l |> <| wl_renewed_at := now |>)
    (worker_leases d) |> in
  let now := clk 2%nat in
  check count_where (phase_identity (pk_claim_owner claim)) (workers d) = 1%nat
    else ExecutorIdentityMissing;;
  Ok (d <| workers := update_where (phase_identity (pk_claim_owner claim))
        (fun w => w <| w_last_seen_at := Some now |> <| w_updated_at := now |>) (workers d) |>).

(** ** Finishing a phase *)
Inductive PhaseEnd := EndCompleted | EndFailed.
#[export] Instance PhaseEnd_eq : EqDecision PhaseEnd. Proof. solve_decision. Defined.

Definition end_phase (state : WorkState) (now : time) (error : string) (w : phase_work) : phase_work :=
  w <| pw_state := state |> <| pw_lease_expires_at := None |> <| pw_finished_at := Some now |>
    <| pw_updated_at := now |> <| pw_error := error |>.

Definition later_blocked (attemptID : uuid) (sequence : Z) (w : phase_work) : Prop :=
  pw_attempt_id w = attemptID /\ sequence < pw_sequence w /\ pw_state w = SBlocked.
#[export] Instance later_blocked_dec attemptID sequence w : Decision (later_blocked attemptID sequence w).
Proof. unfold later_blocked. apply _. Defined.

(** The next blocked item becomes ready. *)
Definition release_next (attemptID : uuid) (sequence : Z) (now : time) (l : list phase_work)
    : list phase_work :=
  let next := min_of (pw_sequence <$> filter (later_blocked attemptID sequence) l) in
  update_where (fun w => later_blocked attemptID sequence w /\ Some (pw_sequence w) = next)
    (fun w => w <| pw_state := SReady |> <| pw_available_at := now |> <| pw_ready_since := Some now |>
                <| pw_updated_at := now |>) l.

(** Dependent items are canceled. *)
Definition cancel_dependants (attemptID : uuid) (sequence : Z) (now : time) (l : list phase_work)
    : list phase_work :=
  update_where (fun w => pw_attempt_id w = attemptID /\ sequence < pw_sequence w /\
                         pw_state w ∈ [SBlocked; SReady])
    (fun w => w <| pw_state := SCanceled |> <| pw_finished_at := Some now |> <| pw_updated_at := now |>
                <| pw_error := "prior phase failed" |>) l.

Definition finishPhaseWork (claim : PhaseWorkClaim) (state : PhaseEnd) (detail : string) (clk : clock)
    (d : db) : result job_error db :=
  match first_where (claimed_by claim) (phase_work_items d) with
  | None => Err PhaseClaimMissing
  | Some w =>
      check later_than (pw_lease_expires_at w) (clk 0%nat) else PhaseLeaseExpired;;
      let now := clk 1%nat in
      let attemptID := pw_attempt_id w in
      let ended := match state with EndCompleted => SCompleted | EndFailed => SFailed end in
      let l := update_where (fun x => pw_id x = pk_id claim)
                 (end_phase ended now (TrimSpace detail)) (phase_work_items d) in
      let l := match state with
        | EndCompleted => release_next attemptID (pw_sequence w) now l
        | EndFailed => cancel_dependants attemptID (pw_sequence w) now l
        end in
      let d := d <| resource_reservations :=
        update_where (fun r => rv_attempt_id r = attemptID /\ rv_state r = Live)
          (fun r => r <| rv_phase := RWaiting |> <| rv_phase_updated_at := now |>)
          (resource_reservations d) |> in
      Ok (d <| phase_work_items :=
            update_where (fun x => pw_project_id x = pw_project_id w /\ pw_phase x = pw_phase w /\
                                   pw_state x = SReady)
              (fun x => x <| pw_available_at := Z.min (pw_available_at x) now |> <| pw_updated_at := now |>)
              l |>)
  end.
Definition CompletePhaseWork (claim : PhaseWorkClaim) := finishPhaseWork claim EndCompleted "".
Definition FailPhaseWork (claim : PhaseWorkClaim) := finishPhaseWork claim EndFailed.

(** ** Counters *)
Record PhaseWorkStatus := mkPhaseStatus {
  ShadowItems : Z;
  ActiveItems : Z;
  BlockedItems : Z;
  ReadyItems : Z;
  UnschedulableItems : Z;
  ClaimedItems : Z;
  CompletedItems : Z;
  FailedItems : Z;
  CanceledItems : Z
}.

Definition unschedulable_item (now : time) (d : db) (w : phase_work) : Prop :=
  pw_execution_mode w = ActiveMode /\ pw_state w = SReady /\
  ~ exists_row (fun j => j_id j = pw_job_id w /\
      exists_row (executor_fits now (j_minimum_executor_protocol j) (pw_required_capabilities w))
        (workers d)) (build_jobs d).
#[export] Instance unschedulable_item_dec now d w : Decision (unschedulable_item now d w).
Proof. unfold unschedulable_item. apply _. Defined.

Definition phase_status (now : time) (d : db) (l : list phase_work) : PhaseWorkStatus :=
  let in_state s := Z.of_nat (count_where (fun w => pw_state w = s) l) in
  mkPhaseStatus (Z.of_nat (count_where (fun w => pw_execution_mode w = Shadow) l))
    (Z.of_nat (count_where (fun w => pw_execution_mode w = ActiveMode) l))
    (in_state SBlocked) (in_state SReady)
    (Z.of_nat (count_where (unschedulable_item now d) l))
    (in_state SClaimed) (in_state SCompleted) (in_state SFailed) (in_state SCanceled).
Definition project_phase_status (projectID : uuid) (now : time) (d : db) : PhaseWorkStatus :=
  phase_status now d (filter (fun w => pw_project_id w = projectID) (phase_work_items d)).
Definition GlobalPhaseWorkStatus (now : time) (d : db) : PhaseWorkStatus :=
  phase_status now d (phase_work_items d).

(** ** The hand-off document *)

Definition forbidden_words : list string :=
  ["password"; "secret"; "credential"; "private_key"; "token"; "cert_pem"].

(** The words are ASCII: [ascii_fold] is all of [strings.ToLower] they can match. *)
Definition secret_like (key : string) : bool :=
  existsb (fun word => Contains (ascii_fold (bytes key)) (bytes word)) forbidden_words.

(** The map is walked in some order; which offending key the error names is
    not specified. *)
Definition validatePhaseContext (value : PhaseExecutionContext) : result job_error unit :=
  match px_instance value with
  | None => Ok tt
  | Some i =>
      match first_where (fun key => secret_like key = true) (map_to_list (pi_metadata i)).*1 with
      | Some key => Err (ContextSecretKey key)
      | None => Ok tt
      end
  end.

(** The claim's attempt still holds its lease under the claim's fence. *)
Definition attempt_held (claim : PhaseWorkClaim) (now : time) (d : db) (attemptID : uuid) : Prop :=
  exists_row (fun a => a_id a = attemptID /\ a_fence_token a = pk_attempt_fence claim) (build_attempts d) /\
  exists_row (fun l => wl_attempt_id l = attemptID /\ wl_fence_token l = pk_attempt_fence claim /\
                       now < wl_expires_at l) (worker_leases d).
#[export] Instance attempt_held_dec claim now d attemptID : Decision (attempt_held claim now d attemptID).
Proof. unfold attempt_held. apply _. Defined.

Definition SavePhaseExecutionContext (claim : PhaseWorkClaim) (value : PhaseExecutionContext)
    (now : time) (d : db) : result job_error db :=
  let! _ := validatePhaseContext value in
  match first_where (fun w => live_claim_row claim now w /\ attempt_held claim now d (pw_attempt_id w))
          (phase_work_items d) with
  | None => Err ContextFenceStale
  | Some w =>
      match first_where (fun c => pc_attempt_id c = pw_attempt_id w) (phase_execution_contexts d) with
      | None =>
          Ok (d <| phase_execution_contexts := phase_execution_contexts d ++
                [mkContextRow (pw_attempt_id w) (pw_project_id w) (pw_job_id w) (pk_attempt_fence claim)
                   (pw_sequence w) value 1 now] |>)
      | Some c =>
          check pc_job_id c = pw_job_id w /\ pc_attempt_fence c = pk_attempt_fence claim
            else ContextFenceStale;;
          Ok (d <| phase_execution_contexts :=
                update_where (fun c => pc_attempt_id c = pw_attempt_id w)
                  (fun c => c <| pc_sequence := Z.max (pc_sequence c) (pw_sequence w) |>
                              <| pc_context := value |> <| pc_revision := pc_revision c + 1 |>
                              <| pc_updated_at := now |>) (phase_execution_contexts d) |>)
      end
  end.

Definition empty_context : PhaseExecutionContext :=
  mkPhaseContext None "" "" "" [] "" false "" "" "" [] [].

Definition LoadPhaseExecutionContext (claim : PhaseWorkClaim) (now : time) (d : db)
    : result job_error PhaseExecutionContext :=
  match first_where (fun w => live_claim_row claim now w /\ pw_attempt_id w = pk_attempt_id claim)
          (phase_work_items d) with
  | None => Err ContextFenceStale
  | Some w => Ok (default empty_context
      (pc_context <$> first_where (fun c => pc_attempt_id c = pw_attempt_id w) (phase_execution_contexts d)))
  end.

(** ** Ending the job with its phase *)
Definition terminal_claim (claim : PhaseWorkClaim) (now : time) (d : db) (w : phase_work) : Prop :=
  live_claim_row claim now w /\ pw_attempt_id w = pk_attempt_id claim /\
  attempt_held claim now d (pk_attempt_id claim) /\
  exists_row (fun u => active_usage (pk_attempt_id claim) u /\ now < deadline u) (attempt_usages d).
#[export] Instance terminal_claim_dec claim now d w : Decision (terminal_claim claim now d w).
Proof. unfold terminal_claim. apply _. Defined.

Definition lockTerminalPhaseClaim (claim : PhaseWorkClaim) (now : time) (d : db) : result job_error unit :=
  check exists_row (terminal_claim claim now d) (phase_work_items d) else PhaseClaimInvalid;;
  Ok tt.

Section terminal_phase.
Context (MarshalStatus : JobStatus -> list ascii).

Definition finishPhaseAttemptTx (claim : PhaseWorkClaim) (status : BuildStatus) (now : time)
    (detail : string) (d : db) : result job_error db :=
  let id := pk_attempt_id claim in
  let state := bs_status status in
  let reason := "job_" +:+ state in
  let doc := statusDocument status in
  let mine := fun a => a_id a = id /\ a_job_id a = pk_job_id claim /\ a_fence_token a = pk_attempt_fence claim in
  check count_where mine (build_attempts d) = 1%nat else AttemptReplaced;;
  let d := d <| build_attempts := update_where mine
    (fun a => a <| a_state := state |> <| a_failure_detail := detail |> <| a_finished_at := Some now |>
                <| a_updated_at := now |>) (build_attempts d) |> in
  let! d := budget (settleAttemptUsage id reason state now d) in
  check count_where (fun j => j_id j = pk_job_id claim) (build_jobs d) = 1%nat else JobMissing;;
  let d := d <| build_jobs := update_where (fun j => j_id j = pk_job_id claim)
    (fun j => j <| j_state := state |> <| j_status_snapshot := doc |>
                <| j_status_digest := statusDigest MarshalStatus doc |> <| j_terminal_reason := detail |>
                <| j_updated_at := now |> <| j_completed_at := Some now |>
                <| j_ledger_revision := j_ledger_revision j + 1 |>) (build_jobs d) |> in
  let d := d <| worker_leases :=
    delete_where (fun l => wl_attempt_id l = id /\ wl_fence_token l = pk_attempt_fence claim)
      (worker_leases d) |> in
  let d := releaseResourceReservation id reason now d in
  let d := releaseArtifactBudgetReservation id reason now d in
  Ok (revokeWorkerGatewayAttempt id reason now d).

(** The state the job has to be in. *)
Definition check_job_state (jobID : uuid) (expected : string) (d : db) : result job_error unit :=
  match first_where (fun j => j_id j = jobID) (build_jobs d) with
  | None => Err JobMissing
  | Some j => check j_state j = expected else StateMismatch (j_state j) expected;; Ok tt
  end.

(** [local] is the server's own clock, which stamps the end of the phase. *)
Definition FinalizePhaseWork (claim : PhaseWorkClaim) (previous completed : BuildStatus) (local now : time)
    (d : db) : result job_error db :=
  check pk_phase claim = Publish /\ bs_status completed = "completed" else PhaseClaimInvalid;;
  let! _ := lockTerminalPhaseClaim claim now d in
  let! _ := check_job_state (pk_job_id claim) (bs_status previous) d in
  let d := d <| phase_work_items := update_where (fun w => pw_id w = pk_id claim)
    (end_phase SCompleted local "") (phase_work_items d) |> in
  let! d := finishPhaseAttemptTx claim completed local "" d in
  Ok (insertJobEvent (pk_job_id claim) "job.phase_plan_completed"
        (EvPhasePlanCompleted (pk_attempt_id claim) (pk_attempt_fence claim) (pk_claim_fence claim)) d).

Definition failure_text (detail : string) : string :=
  let detail := TrimSpace detail in
  let detail := if decide (detail = "") then "phase execution failed" else detail in
  if decide (maxLedgerErrorBytes < go_len detail) then prefix_bytes maxLedgerErrorBytes detail else detail.

Definition FailPhaseWorkAndJob (claim : PhaseWorkClaim) (previous : BuildStatus) (detail : string)
    (local now : time) (d : db) : result job_error db :=
  let detail := failure_text detail in
  let failed := previous <| bs_document := (bs_document previous) <| st_status := "failed" |>
                  <| st_error := detail |> <| st_failed_stage := phase_name (pk_phase claim) |>
                  <| st_updated_at := local |> |> in
  let! _ := lockTerminalPhaseClaim claim now d in
  let! _ := check_job_state (pk_job_id claim) (bs_status previous) d in
  let d := d <| phase_work_items :=
    cancel_dependants (pk_attempt_id claim) (pk_sequence claim) local
      (update_where (fun w => pw_id w = pk_id claim) (end_phase SFailed local detail)
         (phase_work_items d)) |> in
  let! d := finishPhaseAttemptTx claim failed local detail d in
  Ok (insertJobEvent (pk_job_id claim) "job.phase_failed"
        (EvPhaseFailed (pk_attempt_id claim) (phase_name (pk_phase claim)) (pk_claim_fence claim) detail) d).
End terminal_phase.
