(* ===== verification/RuntimeMetadata.v ===== *)
(** * Runtime metadata

    [internal/persistence/runtime_metadata.go] and the cleanup queue of
    [infra_cleanup.go]: the provider resources and artifacts an attempt records
    under its fence, the byte budget of the artifact generations it retains,
    the comparison of the recorded artifacts with the files of the binhost, and
    the leased reclamation of abandoned infrastructure. *)

From S2P Require Import Prelude GoStrings GoJson GoUrl Schema JobLedger PhaseWork.
Open Scope string_scope.
Open Scope list_scope.
Open Scope Z_scope.

Inductive metadata_error :=
| FenceFailure (e : job_error) | InfraIncomplete | InfraOwned | MetadataDuplicateKey | ArtifactsEmpty
| ArtifactIncomplete | ArtifactOwned (location : string) | BudgetUnreadable | BudgetReleased
| GenerationInvalid | BudgetExceeded (requested active limit : Z) | CleanupOwnerRequired
| CleanupLeaseInvalid | CleanupStale.

Definition fencing {A} (r : result job_error A) : result metadata_error A :=
  match r with Ok a => Ok a | Err e => Err (FenceFailure e) end.

Section metadata.
Context (uuid_Parse : string -> bool).

(** ** Infrastructure *)
Record InfraRecord := mkInfraRecord {
  ir_provider : string;
  ir_provider_instance_id : string;
  ir_state : string;
  ir_remote_state_ref : string;
  ir_attributes : gmap string string;
  ir_failure_detail : string;
  ir_cleanup_after : option time;
  ir_deleted_at : option time
}.

Definition job_project (jobID : uuid) (d : db) : option uuid :=
  j_project_id <$> first_where (fun j => j_id j = jobID) (build_jobs d).

Definition owner_token (attemptID : uuid) (fence : Z) : string :=
  attemptID +:+ ":" +:+ of_bytes (format_decimal fence).

(** What the upsert overwrites in the row of the same owner. *)
Definition rewrite_infra (status : BuildStatus) (record : InfraRecord) (now : time) (i : infra_instance)
    : infra_instance :=
  i <| inf_job_id := Some (bs_job_id status) |> <| inf_attempt_id := Some (bs_attempt_id status) |>
    <| inf_state := ir_state record |> <| inf_fence_token := bs_fence_token status |>
    <| inf_remote_state_ref := ir_remote_state_ref record |> <| inf_attributes := ir_attributes record |>
    <| inf_failure_detail := ir_failure_detail record |> <| inf_cleanup_after := ir_cleanup_after record |>
    <| inf_deleted_at := ir_deleted_at record |> <| inf_updated_at := now |>.

Definition RecordInfra (newID : uuid) (status : BuildStatus) (record : InfraRecord) (clk : clock) (d : db)
    : result metadata_error db :=
  check ~ (ir_provider record = "" \/ ir_provider_instance_id record = "" \/ ir_state record = "")
    else InfraIncomplete;;
  let! (jobID, attemptID) := fencing (validateMetadataFence uuid_Parse status true (clk 0%nat) d) in
  let token := owner_token attemptID (bs_fence_token status) in
  let now := clk 1%nat in
  let same := fun i => inf_provider i = ir_provider record /\
                       inf_provider_instance_id i = ir_provider_instance_id record in
  match first_where same (infra_instances d) with
  | Some i =>
      check inf_owner_token i = token else InfraOwned;;
      Ok (d <| infra_instances := update_where same (rewrite_infra status record now) (infra_instances d) |>)
  | None =>
      check ~ exists_row (fun i => inf_id i = newID) (infra_instances d) else MetadataDuplicateKey;;
      Ok (d <| infra_instances := infra_instances d ++
            [mkInfra newID (job_project jobID d) (Some jobID) (Some attemptID) (ir_provider record)
               (ir_provider_instance_id record) (ir_state record) (bs_fence_token status) token
               (ir_remote_state_ref record) (ir_attributes record) (ir_failure_detail record)
               (ir_cleanup_after record) (ir_deleted_at record) "" 0 None 0 now now] |>)
  end.

(** ** Artifacts *)
Record ArtifactRecord := mkArtifactRecord {
  ar_kind : string;
  ar_state : string;
  ar_digest : string;
  ar_size_bytes : Z;
  ar_media_type : string;
  ar_location : string;
  ar_lineage : string;
  ar_published_at : option time;
  ar_retention_until : option time
}.

(** One upsert, on the key (digest, location). *)
Definition record_artifact (newID jobID attemptID : uuid) (record : ArtifactRecord) (now : time) (d : db)
    : result metadata_error db :=
  check ~ (ar_kind record = "" \/ ar_state record = "" \/ ar_digest record = "" \/
           ar_size_bytes record < 0 \/ ar_location record = "") else ArtifactIncomplete;;
  let mediaType := if decide (ar_media_type record = "") then "application/octet-stream"
                   else ar_media_type record in
  let same := fun a => af_digest a = ar_digest record /\ af_location a = ar_location record in
  match first_where same (artifacts d) with
  | Some a =>
      check af_job_id a = Some jobID /\ af_attempt_id a = Some attemptID
        else ArtifactOwned (ar_location record);;
      Ok (d <| artifacts := update_where same (fun a =>
            a <| af_state := ar_state record |>
              <| af_published_at := match ar_published_at record with Some t => Some t | None => af_published_at a end |>
              <| af_retention_until := ar_retention_until record |> <| af_lineage := ar_lineage record |>
              <| af_updated_at := now |>) (artifacts d) |>)
  | None =>
      check ~ exists_row (fun a => af_id a = newID) (artifacts d) else MetadataDuplicateKey;;
      Ok (d <| artifacts := artifacts d ++
            [mkArtifact newID (job_project jobID d) (Some jobID) (Some attemptID) (ar_kind record)
               (ar_state record) (ar_digest record) (ar_size_bytes record) mediaType (ar_location record)
               (ar_lineage record) (ar_retention_until record) now (ar_published_at record) now] |>)
  end.

(** [newID k] and [clk (k + 1)] belong to record [k]. *)
Fixpoint record_all (k : nat) (newID : nat -> uuid) (jobID attemptID : uuid) (records : list ArtifactRecord)
    (clk : clock) (d : db) : result metadata_error db :=
  match records with
  | [] => Ok d
  | record :: records =>
      let! d := record_artifact (newID k) jobID attemptID record (clk (S k)) d in
      record_all (S k) newID jobID attemptID records clk d
  end.

Definition RecordArtifacts (newID : nat -> uuid) (status : BuildStatus) (records : list ArtifactRecord)
    (clk : clock) (d : db) : result metadata_error db :=
  check records <> [] else ArtifactsEmpty;;
  let! (jobID, attemptID) := fencing (validateMetadataFence uuid_Parse status false (clk 0%nat) d) in
  record_all 0 newID jobID attemptID records clk d.

(** ** The budget of retained generations *)
Record ArtifactBudget := mkBudget { LimitBytes : Z; ActiveBytes : Z; PeakBytes : Z }.

(** The row a first use inserts. *)
Definition new_budget (jobID attemptID : uuid) (now : time) (d : db) : list artifact_budget :=
  if decide (exists_row (fun a => a_id a = attemptID /\ a_job_id a = jobID) (build_attempts d)) then
    match first_where (fun j => j_id j = jobID) (build_jobs d) with
    | None => []
    | Some j =>
        match first_where (fun p => pp_project_id p = j_project_id j) (project_policies d) with
        | None => []
        | Some p => [mkArtifactBudget attemptID (j_project_id j) jobID (pp_max_artifact_bytes_per_job p)
                       0 0 Live now None ""]
        end
    end
  else [].

Definition ensureArtifactBudget (jobID attemptID : uuid) (now : time) (d : db)
    : result metadata_error (ArtifactBudget * db) :=
  let d := match first_where (fun b => ab_attempt_id b = attemptID) (artifact_budgets d) with
           | Some _ => d
           | None => d <| artifact_budgets := artifact_budgets d ++ new_budget jobID attemptID now d |>
           end in
  match first_where (fun b => ab_attempt_id b = attemptID) (artifact_budgets d) with
  | None => Err BudgetUnreadable
  | Some b =>
      check ab_state b = Live else BudgetReleased;;
      Ok (mkBudget (ab_limit_bytes b) (ab_active_bytes b) (ab_peak_bytes b), d)
  end.

Definition ReadArtifactBudget (status : BuildStatus) (clk : clock) (d : db)
    : result metadata_error (ArtifactBudget * db) :=
  let! (jobID, attemptID) := fencing (validateMetadataFence uuid_Parse status false (clk 0%nat) d) in
  ensureArtifactBudget jobID attemptID (clk 1%nat) d.

(** The size a generation counts with: nothing once it was released. *)
Definition generation_of (attemptID : uuid) (generation : string) (g : generation_reservation) : Prop :=
  gr_attempt_id g = attemptID /\ gr_generation g = generation.
#[export] Instance generation_of_dec attemptID generation g : Decision (generation_of attemptID generation g).
Proof. unfold generation_of. apply _. Defined.

Definition old_size (attemptID : uuid) (generation : string) (d : db) : Z :=
  match first_where (generation_of attemptID generation) (generation_reservations d) with
  | Some g => if decide (gr_state g = Live) then gr_size_bytes g else 0
  | None => 0
  end.

Definition upsert_generation (attemptID : uuid) (generation : string) (sizeBytes : Z) (now : time) (d : db) : db :=
  match first_where (generation_of attemptID generation) (generation_reservations d) with
  | Some _ =>
      d <| generation_reservations := update_where (generation_of attemptID generation)
             (fun g => g <| gr_size_bytes := sizeBytes |> <| gr_state := Live |> <| gr_updated_at := now |>
                         <| gr_released_at := None |> <| gr_release_reason := "" |>) (generation_reservations d) |>
  | None =>
      d <| generation_reservations := generation_reservations d ++
             [mkGeneration attemptID generation sizeBytes Live now None ""] |>
  end.

Definition live_budget (attemptID : uuid) (b : artifact_budget) : Prop :=
  ab_attempt_id b = attemptID /\ ab_state b = Live.
#[export] Instance live_budget_dec attemptID b : Decision (live_budget attemptID b).
Proof. unfold live_budget. apply _. Defined.

(** The sum of 64-bit counters wraps; the check below rejects what wrapped. *)
Definition SetArtifactGenerationBytes (status : BuildStatus) (generation : string) (sizeBytes : Z) (clk : clock)
    (d : db) : result metadata_error (ArtifactBudget * db) :=
  check ~ (TrimSpace generation = "" \/ 160 < go_len generation \/ sizeBytes < 0) else GenerationInvalid;;
  let! (jobID, attemptID) := fencing (validateMetadataFence uuid_Parse status false (clk 0%nat) d) in
  let! (budget, d) := ensureArtifactBudget jobID attemptID (clk 1%nat) d in
  let oldSize := old_size attemptID generation d in
  let nextBytes := int64 (int64 (ActiveBytes budget - oldSize) + sizeBytes) in
  check ~ (nextBytes < 0 \/ LimitBytes budget < nextBytes)
    else BudgetExceeded sizeBytes (int64 (ActiveBytes budget - oldSize)) (LimitBytes budget);;
  let d := upsert_generation attemptID generation sizeBytes (clk 2%nat) d in
  let d := d <| artifact_budgets := update_where (live_budget attemptID)
    (fun b => b <| ab_active_bytes := nextBytes |> <| ab_peak_bytes := Z.max (ab_peak_bytes b) nextBytes |>
                <| ab_updated_at := clk 3%nat |>) (artifact_budgets d) |> in
  match first_where (live_budget attemptID) (artifact_budgets d) with
  | None => Err BudgetUnreadable
  | Some b => Ok (mkBudget (ab_limit_bytes b) (ab_active_bytes b) (ab_peak_bytes b), d)
  end.

Definition ReleaseArtifactGeneration (status : BuildStatus) (generation reason : string) (clk : clock) (d : db)
    : result metadata_error db :=
  let! (_, attemptID) := fencing (validateMetadataFence uuid_Parse status true (clk 0%nat) d) in
  match first_where (fun b => ab_attempt_id b = attemptID) (artifact_budgets d) with
  | None => Ok d
  | Some b =>
      if decide (ab_state b <> Live) then Ok d else
      match first_where (fun g => generation_of attemptID generation g /\ gr_state g = Live)
              (generation_reservations d) with
      | None => Ok d
      | Some g =>
          Ok (d <| generation_reservations :=
                 update_where (fun g => generation_of attemptID generation g /\ gr_state g = Live)
                   (release_generation reason (clk 1%nat)) (generation_reservations d) |>
                <| artifact_budgets := update_where (live_budget attemptID)
                     (fun b => b <| ab_active_bytes := Z.max (ab_active_bytes b - gr_size_bytes g) 0 |>
                                 <| ab_updated_at := clk 2%nat |>) (artifact_budgets d) |>)
      end
  end.

(** [local] is the clock of the server process. *)
Definition ReleaseArtifactBudget (status : BuildStatus) (reason : string) (clk : clock) (local : time) (d : db)
    : result metadata_error db :=
  let! (_, attemptID) := fencing (validateMetadataFence uuid_Parse status true (clk 0%nat) d) in
  match first_where (fun b => ab_attempt_id b = attemptID) (artifact_budgets d) with
  | None => Ok d
  | Some b =>
      if decide (ab_state b <> Live) then Ok d else
      Ok (releaseArtifactBudgetReservation attemptID reason local d)
  end.
End metadata.

(** ** Artifacts against the files of the binhost *)
Record RuntimeMetadataStatus := mkMetadataStatus {
  LiveInfra : Z;
  CleanupFailedInfra : Z;
  PublishedArtifacts : Z;
  StagedArtifacts : Z;
  MissingArtifacts : Z;
  CorruptArtifacts : Z;
  OrphanedArtifacts : Z
}.

(** Without the count of factory runs and the time of the last update. *)
Definition readRuntimeMetadataStatus (d : db) : RuntimeMetadataStatus :=
  let in_artifact_state s := Z.of_nat (count_where (fun a => af_state a = s) (artifacts d)) in
  mkMetadataStatus
    (Z.of_nat (count_where (fun i => inf_deleted_at i = None /\ inf_state i ∉ ["destroyed"; "terminated"])
       (infra_instances d)))
    (Z.of_nat (count_where (fun i => inf_deleted_at i = None /\ inf_state i = "destroy_failed")
       (infra_instances d)))
    (in_artifact_state "published") (in_artifact_state "staged") (in_artifact_state "missing")
    (in_artifact_state "corrupt") (in_artifact_state "orphaned").

Record ArtifactInventory := mkInventory { iv_location : string; iv_digest : string; iv_size_bytes : Z }.
Record ArtifactReconcileReport := mkReport { Published : Z; Matched : Z; Missing : Z; Corrupt : Z; Orphaned : Z }.
#[export] Instance report_eta : Eta ArtifactReconcileReport := fun r =>
  mkReport (Published r) (Matched r) (Missing r) (Corrupt r) (Orphaned r).

(** Files by location: the last of several items with one location. *)
Definition available_files (inventory : list ArtifactInventory) : gmap string ArtifactInventory :=
  foldl (fun m item => <[iv_location item := item]> m) ∅ inventory.

(** Rows of the same group and creation time come in the order of the table, one of
    the orders the database may give. *)
Definition reconcile_order : order artifact :=
  then_by (by_key (fun a => if decide (af_state a = "staged") then 1 else 0)) (by_key af_created_at).
Definition loadReconcileArtifacts (orphaned : bool) (d : db) : list artifact :=
  if orphaned then filter (fun a => af_state a = "orphaned") (artifacts d)
  else sort_by reconcile_order
         (filter (fun a => af_state a ∈ ["published"; "missing"; "corrupt"; "staged"]) (artifacts d)).

(** The state the file gives the row, and what it adds to the report. *)
Definition expected_state (expected : artifact) (actual : option ArtifactInventory) : string :=
  match actual with
  | None => "missing"
  | Some item => if decide (iv_digest item <> af_digest expected \/ iv_size_bytes item <> af_size_bytes expected)
                 then "corrupt" else "published"
  end.
Definition count_expected (expected : artifact) (state : string) (r : ArtifactReconcileReport)
    : ArtifactReconcileReport :=
  let r := if decide (af_state expected <> "staged") then r <| Published := Published r + 1 |> else r in
  if decide (state = "missing") then r <| Missing := Missing r + 1 |>
  else if decide (state = "corrupt") then r <| Corrupt := Corrupt r + 1 |>
  else let r := r <| Matched := Matched r + 1 |> in
       if decide (af_state expected = "staged") then r <| Published := Published r + 1 |> else r.

Definition set_artifact_state (state : string) (now : time) (a : artifact) : artifact :=
  a <| af_state := state |>
    <| af_published_at := if decide (state = "published") then Some (default now (af_published_at a))
                          else af_published_at a |>
    <| af_updated_at := now |>.

Definition reconcile_state := (gmap string ArtifactInventory * ArtifactReconcileReport * db)%type.

Fixpoint reconcileExpectedArtifacts (durable : list artifact) (k : nat) (clk : clock) (x : reconcile_state)
    : reconcile_state :=
  match durable with
  | [] => x
  | expected :: durable =>
      let '(available, report, d) := x in
      let actual := available !! af_location expected in
      if decide (af_state expected = "staged" /\ actual = None)
      then reconcileExpectedArtifacts durable (S k) clk x
      else
        let state := expected_state expected actual in
        reconcileExpectedArtifacts durable (S k) clk
          (delete (af_location expected) available, count_expected expected state report,
           d <| artifacts := update_where (fun a => af_id a = af_id expected)
                  (set_artifact_state state (clk k)) (artifacts d) |>)
  end.

Definition orphan_matches (orphan : artifact) (actual : option ArtifactInventory) : bool :=
  match actual with
  | Some item => bool_decide (iv_digest item = af_digest orphan /\ iv_size_bytes item = af_size_bytes orphan)
  | None => false
  end.

Fixpoint reconcileKnownOrphans (orphans : list artifact) (x : reconcile_state) : reconcile_state :=
  match orphans with
  | [] => x
  | orphan :: orphans =>
      let '(available, report, d) := x in
      if orphan_matches orphan (available !! af_location orphan)
      then reconcileKnownOrphans orphans
             (delete (af_location orphan) available, report <| Orphaned := Orphaned report + 1 |>, d)
      else reconcileKnownOrphans orphans
             (available, report, d <| artifacts := delete_where (fun a => af_id a = af_id orphan) (artifacts d) |>)
  end.

Definition orphan_lineage : string :=
  of_bytes (MarshalStringMap {["reason" := "discovered_without_job_lineage"]}).

(** The files in the order in which the map is traversed; [newID] gives the
    identifier generated for each location. *)
Fixpoint recordNewOrphans (newID : string -> uuid) (items : list ArtifactInventory) (k : nat) (clk : clock)
    (report : ArtifactReconcileReport) (d : db) : result metadata_error (ArtifactReconcileReport * db) :=
  match items with
  | [] => Ok (report, d)
  | item :: items =>
      if decide (iv_location item = "" \/ iv_digest item = "" \/ iv_size_bytes item < 0)
      then recordNewOrphans newID items (S k) clk report d
      else if decide (exists_row (fun a => af_digest a = iv_digest item /\ af_location a = iv_location item)
                        (artifacts d))
      then recordNewOrphans newID items (S k) clk report d
      else
        let id := newID (iv_location item) in
        check ~ exists_row (fun a => af_id a = id) (artifacts d) else MetadataDuplicateKey;;
        recordNewOrphans newID items (S k) clk (report <| Orphaned := Orphaned report + 1 |>)
          (d <| artifacts := artifacts d ++
                [mkArtifact id None None None "gentoo-binpkg" "orphaned" (iv_digest item) (iv_size_bytes item)
                   "application/vnd.gentoo.gpkg" (iv_location item) orphan_lineage None
                   (clk k) None (clk k)] |>)
  end.

Definition ReconcileArtifacts (newID : string -> uuid) (inventory : list ArtifactInventory) (clk : clock) (d : db)
    : result metadata_error (ArtifactReconcileReport * db) :=
  let durable := loadReconcileArtifacts false d in
  let '(available, report, d) :=
    reconcileExpectedArtifacts durable 0 clk (available_files inventory, mkReport 0 0 0 0 0, d) in
  let '(available, report, d) :=
    reconcileKnownOrphans (loadReconcileArtifacts true d) (available, report, d) in
  recordNewOrphans newID (map_to_list available).*2 (length durable) clk report d.

(** ** Reclaiming abandoned infrastructure *)
Record InfraCleanupClaim := mkCleanupClaim {
  cl_id : uuid;
  cl_provider : string;
  cl_provider_instance_id : string;
  cl_remote_state_ref : string;
  cl_cleanup_fence : Z
}.

(** The attempt of the resource holds no live lease. *)
Definition abandoned (now : time) (d : db) (i : infra_instance) : Prop :=
  match inf_attempt_id i with
  | None => True
  | Some id => ~ exists_row (fun l => wl_attempt_id l = id /\ now < wl_expires_at l) (worker_leases d)
  end.
#[export] Instance abandoned_dec now d i : Decision (abandoned now d i).
Proof. unfold abandoned. destruct (inf_attempt_id i); apply _. Defined.

Definition attempt_over (d : db) (i : infra_instance) : Prop :=
  match inf_attempt_id i with
  | None => False
  | Some id => exists_row (fun a => a_id a = id /\
      a_state a ∈ ["expired"; "failed"; "canceled"; "completed"; "success"]) (build_attempts d)
  end.
#[export] Instance attempt_over_dec d i : Decision (attempt_over d i).
Proof. unfold attempt_over. destruct (inf_attempt_id i); apply _. Defined.

Definition reclaimable (now : time) (d : db) (i : infra_instance) : Prop :=
  inf_deleted_at i = None /\ inf_remote_state_ref i <> "" /\ inf_state i ∉ ["destroyed"; "terminated"] /\
  inf_next_cleanup_at i <= now /\
  (inf_cleanup_lease_expires_at i = None \/ at_or_before (inf_cleanup_lease_expires_at i) now) /\
  abandoned now d i /\
  (inf_state i = "destroy_failed" \/ at_or_before (inf_cleanup_after i) now \/ attempt_over d i).
#[export] Instance reclaimable_dec now d i : Decision (reclaimable now d i).
Proof. unfold reclaimable. apply _. Defined.

Definition cleanup_order : order infra_instance :=
  then_by (by_key inf_next_cleanup_at) (then_by (by_key inf_updated_at) (by_str inf_id)).

Definition ClaimInfraCleanup (owner : string) (lease : duration) (locked : uuid -> bool) (clk : clock) (d : db)
    : result metadata_error (option InfraCleanupClaim * db) :=
  check owner <> "" else CleanupOwnerRequired;;
  check 0 < lease else CleanupLeaseInvalid;;
  let now := clk 0%nat in
  match pick cleanup_order (filter (fun i => reclaimable now d i /\ locked (inf_id i) = false) (infra_instances d)) with
  | None => Ok (None, d)
  | Some i =>
      Ok (Some (mkCleanupClaim (inf_id i) (inf_provider i) (inf_provider_instance_id i) (inf_remote_state_ref i)
                  (inf_cleanup_fence i + 1)),
          d <| infra_instances := update_where (fun x => inf_id x = inf_id i)
                 (fun i => i <| inf_cleanup_owner := owner |> <| inf_cleanup_fence := inf_cleanup_fence i + 1 |>
                             <| inf_cleanup_lease_expires_at := Some (now + lease) |>
                             <| inf_cleanup_attempts := inf_cleanup_attempts i + 1 |>
                             <| inf_state := "cleanup_claimed" |> <| inf_updated_at := now |>)
                 (infra_instances d) |>)
  end.

Definition cleanup_held (id owner : string) (fence : Z) (now : time) (i : infra_instance) : Prop :=
  inf_id i = id /\ inf_cleanup_owner i = owner /\ inf_cleanup_fence i = fence /\
  later_than (inf_cleanup_lease_expires_at i) now.
#[export] Instance cleanup_held_dec id owner fence now i : Decision (cleanup_held id owner fence now i).
Proof. unfold cleanup_held. apply _. Defined.

Definition CompleteInfraCleanup (id owner : string) (fence : Z) (now : time) (d : db) : result metadata_error db :=
  check count_where (cleanup_held id owner fence now) (infra_instances d) = 1%nat else CleanupStale;;
  Ok (d <| infra_instances := update_where (cleanup_held id owner fence now)
        (fun i => i <| inf_state := "destroyed" |> <| inf_deleted_at := Some now |> <| inf_failure_detail := "" |>
                    <| inf_cleanup_owner := "" |> <| inf_cleanup_lease_expires_at := None |>
                    <| inf_updated_at := now |>) (infra_instances d) |>).

Definition FailInfraCleanup (id owner : string) (fence : Z) (detail : string) (now : time) (d : db)
    : result metadata_error db :=
  let detail := if decide (4096 < go_len detail) then prefix_bytes 4096 detail else detail in
  check count_where (cleanup_held id owner fence now) (infra_instances d) = 1%nat else CleanupStale;;
  Ok (d <| infra_instances := update_where (cleanup_held id owner fence now)
        (fun i => i <| inf_state := "destroy_failed" |> <| inf_failure_detail := detail |>
                    <| inf_cleanup_owner := "" |> <| inf_cleanup_lease_expires_at := None |>
                    <| inf_next_cleanup_at := now + Z.min 300 (Z.max 5 (inf_cleanup_attempts i * 5)) * Second |>
                    <| inf_updated_at := now |>) (infra_instances d) |>).
