(* ===== verification/Fencing.v ===== *)
(** * The fencing protocol, abstractly

    What the durable scheduler does with attempts: every grant of a job carries
    the next fence and comes with a lease, whatever is held for a job is held by
    an attempt that has a lease, and an attempt that has lost its lease never
    gets one back.  The protocol is a step relation on the keys of the ledger
    alone; [JobSystem] shows that the operations of the ledger implement it.

    The state of a job may be assigned while somebody has a lease on it; nothing
    in the ledger prevents that.  [sound] is what holds of a job as long as no
    such assignment queues or ends it: it has one lease at most, that of its
    newest attempt, and none when it is queued or has ended. *)

From S2P Require Import Prelude Schema Fairness.
Open Scope string_scope.
Open Scope list_scope.
Open Scope Z_scope.

Record attempt_key := mkAttemptKey { ak_id : uuid; ak_job : uuid; ak_no : Z; ak_fence : Z }.
Record lease_key := mkLeaseKey { lk_id : uuid; lk_attempt : uuid; lk_fence : Z }.
Record job_key := mkJobKey { jk_id : uuid; jk_state : string; jk_max : Z }.

(** [f_held]: the attempt and the job of everything that is held. *)
Record fence_state := mkFenceState {
  f_attempts : list attempt_key;
  f_leases : list lease_key;
  f_jobs : list job_key;
  f_held : list (uuid * uuid)
}.

Definition attempts_of (J : uuid) (S : fence_state) : list attempt_key :=
  filter (fun a => ak_job a = J) (f_attempts S).
Definition attempt_count (J : uuid) (S : fence_state) : Z := Z.of_nat (length (attempts_of J S)).
Arguments attempts_of : simpl never.
Arguments attempt_count : simpl never.

(** The lease belongs to an attempt of the job. *)
Definition of_job (J : uuid) (S : fence_state) (l : lease_key) : Prop :=
  lk_attempt l ∈ ak_id <$> attempts_of J S.
#[export] Instance of_job_dec J S l : Decision (of_job J S l).
Proof. unfold of_job. apply _. Defined.

Definition set_job (J : uuid) (s : string) (l : list job_key) : list job_key :=
  update_where (fun j => jk_id j = J) (fun j => mkJobKey (jk_id j) s (jk_max j)) l.

Inductive fence_step : fence_state -> fence_state -> Prop :=
(* nothing happens to the keys; things may be given back *)
| fs_idle S held :
    held ⊆ f_held S ->
    fence_step S (mkFenceState (f_attempts S) (f_leases S) (f_jobs S) held)
(* a new job *)
| fs_create S J s max :
    J ∉ jk_id <$> f_jobs S -> 0 < max ->
    fence_step S (mkFenceState (f_attempts S) (f_leases S) (f_jobs S ++ [mkJobKey J s max]) (f_held S))
(* the attempt row of a job that was never claimed *)
| fs_record S J s max a :
    mkJobKey J s max ∈ f_jobs S -> s <> "queued" -> attempts_of J S = [] ->
    a ∉ ak_id <$> f_attempts S ->
    fence_step S (mkFenceState (f_attempts S ++ [mkAttemptKey a J 1 1]) (f_leases S) (f_jobs S) (f_held S))
(* a queued job is given out under the next fence *)
| fs_grant S J max a l held :
    mkJobKey J "queued" max ∈ f_jobs S -> attempt_count J S < max ->
    a ∉ ak_id <$> f_attempts S -> l ∉ lk_id <$> f_leases S ->
    (forall x, x ∈ held -> x ∈ f_held S \/ x = (a, J)) ->
    fence_step S (mkFenceState
      (f_attempts S ++ [mkAttemptKey a J (attempt_count J S + 1) (attempt_count J S + 1)])
      (f_leases S ++ [mkLeaseKey l a (attempt_count J S + 1)])
      (set_job J "claimed" (f_jobs S)) held)
(* the state of a job is set, and the leases stay *)
| fs_assign S J s held :
    held ⊆ f_held S ->
    fence_step S (mkFenceState (f_attempts S) (f_leases S) (set_job J s (f_jobs S)) held)
(* an attempt ends, with all it held *)
| fs_end S J s id held :
    (exists l, l ∈ f_leases S /\ lk_attempt l = id /\ of_job J S l) ->
    (forall x, x ∈ held -> x ∈ f_held S /\ x.1 <> id) ->
    fence_step S (mkFenceState (f_attempts S) (filter (fun l => lk_attempt l <> id) (f_leases S))
      (set_job J s (f_jobs S)) held)
(* the job is taken from whoever holds it, with all that was held *)
| fs_free S J s held :
    (forall x, x ∈ held -> x ∈ f_held S /\ x.2 <> J) ->
    fence_step S (mkFenceState (f_attempts S) (filter (fun l => ~ of_job J S l) (f_leases S))
      (set_job J s (f_jobs S)) held).

(** ** The invariant *)
Definition numbered (l : list attempt_key) : Prop :=
  ak_no <$> l = seqZ 1 (Z.of_nat (length l)) /\ ak_fence <$> l = seqZ 1 (Z.of_nat (length l)).

Definition lease_ok (S : fence_state) (l : lease_key) : Prop :=
  exists a, a ∈ f_attempts S /\ ak_id a = lk_attempt l /\ ak_fence a = lk_fence l.

Record fenced_ok (S : fence_state) : Prop := {
  fo_ids : NoDup (ak_id <$> f_attempts S);
  fo_numbered : forall J, numbered (attempts_of J S);
  fo_jobs : NoDup (jk_id <$> f_jobs S);
  fo_of : forall a, a ∈ f_attempts S -> ak_job a ∈ jk_id <$> f_jobs S;
  fo_lease_ids : NoDup (lk_id <$> f_leases S);
  fo_lease_attempts : NoDup (lk_attempt <$> f_leases S);
  fo_leases : forall l, l ∈ f_leases S -> lease_ok S l;
  fo_held : forall a J, (a, J) ∈ f_held S ->
    (exists l, l ∈ f_leases S /\ lk_attempt l = a) /\
    (exists k, k ∈ f_attempts S /\ ak_id k = a /\ ak_job k = J)
}.

(** A lease on the job belongs to its newest attempt, and the job is neither
    queued nor over; while it is queued it has attempts left. *)
Definition newest (J : uuid) (S : fence_state) (l : lease_key) : Prop :=
  exists a, a ∈ attempts_of J S /\ ak_id a = lk_attempt l /\ ak_no a = attempt_count J S.
Record sound (J : uuid) (S : fence_state) : Prop := {
  so_newest : forall l, l ∈ f_leases S -> of_job J S l -> newest J S l;
  so_running : forall l j, l ∈ f_leases S -> of_job J S l -> j ∈ f_jobs S -> jk_id j = J ->
    jk_state j <> "queued" /\ ~ terminal (jk_state j);
  so_queued : forall j, j ∈ f_jobs S -> jk_id j = J -> jk_state j = "queued" -> attempt_count J S < jk_max j
}.

(** ** Consequences *)
Lemma elem_of_attempts_of J S a : a ∈ attempts_of J S <-> ak_job a = J /\ a ∈ f_attempts S.
Proof. unfold attempts_of. by rewrite list_elem_of_filter. Qed.

Lemma elem_of_job J S l :
  of_job J S l <-> exists a, a ∈ f_attempts S /\ ak_job a = J /\ ak_id a = lk_attempt l.
Proof.
  unfold of_job. rewrite list_elem_of_fmap. split.
  - intros (a & -> & [HJ Ha]%elem_of_attempts_of). eauto.
  - intros (a & Ha & HJ & Hid). exists a. by rewrite elem_of_attempts_of.
Qed.

Lemma same_id S a b : fenced_ok S -> a ∈ f_attempts S -> b ∈ f_attempts S -> ak_id a = ak_id b -> a = b.
Proof. intros H Ha Hb. exact (key_unique ak_id _ _ _ (fo_ids S H) Ha Hb). Qed.

Lemma same_number S a b : fenced_ok S -> a ∈ f_attempts S -> b ∈ f_attempts S ->
  ak_job a = ak_job b -> ak_no a = ak_no b -> a = b.
Proof.
  intros H Ha Hb HJ. destruct (fo_numbered S H (ak_job b)) as [Hno _].
  apply (key_unique ak_no (attempts_of (ak_job b) S)).
  - rewrite Hno. apply NoDup_seqZ.
  - by apply elem_of_attempts_of.
  - by apply elem_of_attempts_of.
Qed.

Lemma one_lease S J l1 l2 : fenced_ok S -> sound J S -> l1 ∈ f_leases S -> l2 ∈ f_leases S ->
  of_job J S l1 -> of_job J S l2 -> l1 = l2.
Proof.
  intros H Hs H1 H2 Hj1 Hj2.
  destruct (so_newest J S Hs l1 H1 Hj1) as (a & [HJa Ha]%elem_of_attempts_of & Hid1 & Hna).
  destruct (so_newest J S Hs l2 H2 Hj2) as (b & [HJb Hb]%elem_of_attempts_of & Hid2 & Hnb).
  assert (a = b) as -> by (apply (same_number S); congruence).
  apply (key_unique lk_attempt (f_leases S)); [apply fo_lease_attempts|..]; congruence.
Qed.

(** Whatever is held for a job is held by the holder of a lease on it. *)
Lemma held_by_lease S a J : fenced_ok S -> (a, J) ∈ f_held S ->
  exists l, l ∈ f_leases S /\ lk_attempt l = a /\ of_job J S l.
Proof.
  intros H [(l & Hl & Ha) (k & Hk & Hid & HJ)]%(fo_held S H).
  exists l. split_and!; [done..|]. apply elem_of_job. exists k. naive_solver.
Qed.

Lemma free_nothing_held S a J : fenced_ok S -> (forall l, l ∈ f_leases S -> ~ of_job J S l) ->
  (a, J) ∉ f_held S.
Proof. intros H Hn Hin. destruct (held_by_lease S a J H Hin) as (l & Hl & _ & HJ). by apply (Hn l). Qed.

(** A queued or finished job has no lease. *)
Lemma unleased S J j : sound J S -> j ∈ f_jobs S -> jk_id j = J ->
  jk_state j = "queued" \/ terminal (jk_state j) -> forall l, l ∈ f_leases S -> ~ of_job J S l.
Proof.
  intros H Hj HJ Hst l Hl Hof. destruct (so_running J S H l j Hl Hof Hj HJ). naive_solver.
Qed.

(** ** The protocol keeps the invariant *)
Lemma set_job_ids J s l : jk_id <$> set_job J s l = jk_id <$> l.
Proof. by apply update_where_map. Qed.

Lemma elem_of_set_job J s l j : j ∈ set_job J s l ->
  exists k, k ∈ l /\ jk_id j = jk_id k /\ jk_max j = jk_max k /\
    ((jk_id k = J /\ jk_state j = s) \/ (jk_id k <> J /\ jk_state j = jk_state k)).
Proof.
  intros (k & Hk & [[HJ ->]|[HJ ->]])%elem_of_update_where; exists k; auto 10.
Qed.

Lemma numbered_snoc l a n : numbered l -> n = Z.of_nat (length l) + 1 ->
  ak_no a = n -> ak_fence a = n -> numbered (l ++ [a]).
Proof.
  intros [H1 H2] -> Ha Hf. unfold numbered. rewrite !fmap_app, H1, H2, !fmap_cons, Ha, Hf.
  rewrite length_app. cbn [length]. rewrite Nat2Z.inj_add.
  rewrite (seqZ_app 1 (Z.of_nat (length l)) (Z.of_nat 1)) by lia.
  replace (1 + Z.of_nat (length l)) with (Z.of_nat (length l) + 1) by lia. done.
Qed.

Lemma attempts_of_snoc J S a leases jobs held :
  attempts_of J (mkFenceState (f_attempts S ++ [a]) leases jobs held) =
  attempts_of J S ++ (if decide (ak_job a = J) then [a] else []).
Proof. unfold attempts_of. cbn. rewrite filter_app, filter_cons. by case_decide. Qed.

Lemma record_ok S J s max a : fenced_ok S -> mkJobKey J s max ∈ f_jobs S ->
  attempts_of J S = [] -> a ∉ ak_id <$> f_attempts S ->
  fenced_ok (mkFenceState (f_attempts S ++ [mkAttemptKey a J 1 1]) (f_leases S) (f_jobs S) (f_held S)).
Proof.
  intros H HJ Hno Ha. split; cbn.
  - rewrite fmap_app. apply NoDup_app. split_and!; [apply (fo_ids S H)| |apply NoDup_singleton]. set_solver.
  - intros K. rewrite attempts_of_snoc. cbn. case_decide as HK.
    + subst K. rewrite Hno. split; done.
    + rewrite app_nil_r. apply (fo_numbered S H).
  - apply (fo_jobs S H).
  - intros b [Hb|Hb]%elem_of_app; [by apply (fo_of S H)|]. apply list_elem_of_singleton in Hb as ->.
    apply list_elem_of_fmap. by exists (mkJobKey J s max).
  - apply (fo_lease_ids S H).
  - apply (fo_lease_attempts S H).
  - intros l Hl. destruct (fo_leases S H l Hl) as (b & Hb & Hid & Hf). exists b. set_solver.
  - intros b K Hb. destruct (fo_held S H b K Hb) as [Hl (k & Hk & ?)]. split; [done|]. exists k. set_solver.
Qed.

Lemma lease_known S l a : fenced_ok S -> l ∈ f_leases S -> a ∉ ak_id <$> f_attempts S -> lk_attempt l <> a.
Proof.
  intros H Hl Ha <-. destruct (fo_leases S H l Hl) as (b & Hb & Hid & _). apply Ha.
  rewrite <- Hid. by apply list_elem_of_fmap_2.
Qed.

Lemma grant_ok S J max a l held : fenced_ok S -> mkJobKey J "queued" max ∈ f_jobs S ->
  a ∉ ak_id <$> f_attempts S -> l ∉ lk_id <$> f_leases S ->
  (forall x, x ∈ held -> x ∈ f_held S \/ x = (a, J)) ->
  fenced_ok (mkFenceState
    (f_attempts S ++ [mkAttemptKey a J (attempt_count J S + 1) (attempt_count J S + 1)])
    (f_leases S ++ [mkLeaseKey l a (attempt_count J S + 1)]) (set_job J "claimed" (f_jobs S)) held).
Proof.
  intros H HJ Ha Hl Hheld. split; cbn.
  - rewrite fmap_app. apply NoDup_app. split_and!; [apply (fo_ids S H)|set_solver|apply NoDup_singleton].
  - intros K. rewrite attempts_of_snoc. cbn. case_decide as HK.
    + subst K. by eapply numbered_snoc; [apply (fo_numbered S H)|done..].
    + rewrite app_nil_r. apply (fo_numbered S H).
  - rewrite set_job_ids. apply (fo_jobs S H).
  - intros b Hb. rewrite set_job_ids. apply elem_of_app in Hb as [Hb|Hb]; [by apply (fo_of S H)|].
    apply list_elem_of_singleton in Hb as ->. apply list_elem_of_fmap. by exists (mkJobKey J "queued" max).
  - rewrite fmap_app. apply NoDup_app. split_and!; [apply (fo_lease_ids S H)|set_solver|apply NoDup_singleton].
  - rewrite fmap_app. apply NoDup_app. split_and!; [apply (fo_lease_attempts S H)| |apply NoDup_singleton].
    intros k (k' & -> & Hk)%list_elem_of_fmap Hin. cbn in Hin. apply list_elem_of_singleton in Hin.
    by apply (lease_known S k' a).
  - intros k [Hk|Hk]%elem_of_app.
    + destruct (fo_leases S H k Hk) as (b & Hb & Hid & Hf). exists b. set_solver.
    + apply list_elem_of_singleton in Hk as ->. eexists. cbn.
      split_and!; [apply elem_of_app; right; by apply list_elem_of_singleton|done|done].
  - intros b K Hb. destruct (Hheld _ Hb) as [Hin|[= -> ->]].
    + destruct (fo_held S H b K Hin) as [(k & Hk & ?) (x & Hx & ?)]. split; [exists k|exists x]; set_solver.
    + split; eexists; (split; [apply elem_of_app; right; by apply list_elem_of_singleton|done]).
Qed.

(** Leases are given back, with what was held under them. *)
Lemma drop_attempt_ok S J s held (P : lease_key -> Prop) `{HdP : !forall l, Decision (P l)} : fenced_ok S ->
  (forall x, x ∈ held -> x ∈ f_held S /\ forall l, l ∈ f_leases S -> lk_attempt l = x.1 -> P l) ->
  fenced_ok (mkFenceState (f_attempts S) (filter P (f_leases S)) (set_job J s (f_jobs S)) held).
Proof.
  intros H Hheld. split; cbn.
  - apply (fo_ids S H).
  - apply (fo_numbered S H).
  - rewrite set_job_ids. apply (fo_jobs S H).
  - intros b Hb. rewrite set_job_ids. by apply (fo_of S H).
  - eapply sublist_NoDup; [apply (fo_lease_ids S H)|]. apply fmap_sublist, sublist_filter.
  - eapply sublist_NoDup; [apply (fo_lease_attempts S H)|]. apply fmap_sublist, sublist_filter.
  - intros l [_ Hl]%list_elem_of_filter. by apply (fo_leases S H).
  - intros b K Hb. destruct (Hheld _ Hb) as [Hin HP].
    destruct (fo_held S H b K Hin) as [(l & Hl & Hlb) Hk]. split; [|done]. exists l. rewrite list_elem_of_filter. auto.
Qed.

Lemma filter_ext_elem {A} (P Q : A -> Prop)
    `{HdP : !forall x, Decision (P x), HdQ : !forall x, Decision (Q x)} (l : list A) :
  (forall x, x ∈ l -> (P x <-> Q x)) -> filter P l = filter Q l.
Proof.
  induction l as [|a l IH]; intros H; [done|]. rewrite !filter_cons, IH by (intros; apply H; set_solver).
  destruct (H a (list_elem_of_here a l)). repeat case_decide; tauto.
Qed.

Lemma filter_all {A} (P : A -> Prop) `{HdP : !forall x, Decision (P x)} (l : list A) :
  (forall x, x ∈ l -> P x) -> filter P l = l.
Proof.
  induction l as [|a l IH]; intros H; [done|]. rewrite filter_cons.
  rewrite decide_True by (apply H; set_solver). f_equal. apply IH. set_solver.
Qed.

Lemma fence_step_ok S S' : fence_step S S' -> fenced_ok S -> fenced_ok S'.
Proof.
  destruct 1 as [S held Hsub|S J s max HJ Hmax|S J s max a HJ Hs Hno Ha|S J max a l held HJ Hmax Ha Hl Hheld
    |S J s held Hsub|S J s id held Hid Hheld|S J s held Hheld]; intros H.
  - destruct H. split; try done. set_solver.
  - split; cbn; try apply H.
    + rewrite fmap_app. apply NoDup_app. split_and!; [apply (fo_jobs S H)|set_solver|apply NoDup_singleton].
    + intros a Ha. rewrite fmap_app. pose proof (fo_of S H a Ha). set_solver.
  - by apply (record_ok S J s max).
  - by apply (grant_ok S J max).
  - rewrite <- (filter_all (fun _ => True) (f_leases S)) by done. apply drop_attempt_ok; [done|]. auto.
  - apply drop_attempt_ok; [done|]. intros x Hx. destruct (Hheld x Hx) as [Hin Hne]. split; [done|]. congruence.
  - apply drop_attempt_ok; [done|]. intros [a K] Hx. destruct (Hheld _ Hx) as [Hin Hne]. cbn in *. split; [done|].
    intros l Hl Hla (b & Hb & HbJ & Hbl)%elem_of_job. apply Hne.
    destruct (fo_held S H a K Hin) as [_ (k & Hk & Hka & <-)]. rewrite <- HbJ. f_equal. apply (same_id S); congruence.
Qed.

(** ** Jobs stay sound *)
Lemma new_job_unleased J S : fenced_ok S -> attempts_of J S = [] -> forall l, ~ of_job J S l.
Proof. intros H Hno l Hl. unfold of_job in Hl. rewrite Hno in Hl. by apply elem_of_nil in Hl. Qed.

(** The state of a job is set and leases are given back. *)
Lemma sound_set K S J s leases held : sound K S -> leases ⊆ f_leases S ->
  (K = J -> (forall l, l ∈ leases -> ~ of_job J S l) \/ (s <> "queued" /\ ~ terminal s)) ->
  (K = J -> s = "queued" -> forall j, j ∈ f_jobs S -> jk_id j = J -> attempt_count J S < jk_max j) ->
  sound K (mkFenceState (f_attempts S) leases (set_job J s (f_jobs S)) held).
Proof.
  intros [H1 H2 H3] Hsub Hs Hq. split; cbn.
  - intros l Hl HK. by apply H1; [apply Hsub|].
  - intros l j Hl HK (k & Hk & Hid & _ & [[HJ ->]|[HJ ->]])%elem_of_set_job Hj; [|apply (H2 l); auto; congruence].
    destruct Hs as [Hn|?]; [congruence| |done]. destruct (Hn l Hl). by rewrite <- HJ, <- Hid, Hj.
  - intros j (k & Hk & Hid & -> & [[HJ ->]|[HJ ->]])%elem_of_set_job Hj Hst.
    + change (attempt_count K S < jk_max k). assert (K = J) as -> by congruence. by apply Hq.
    + by apply (H3 k); [|congruence|].
Qed.

Lemma sound_idle K S held : sound K S -> sound K (mkFenceState (f_attempts S) (f_leases S) (f_jobs S) held).
Proof. intros [H1 H2 H3]. by split. Qed.

Lemma sound_create K S J s max : fenced_ok S -> sound K S -> J ∉ jk_id <$> f_jobs S -> 0 < max ->
  sound K (mkFenceState (f_attempts S) (f_leases S) (f_jobs S ++ [mkJobKey J s max]) (f_held S)).
Proof.
  intros H [H1 H2 H3] HJ Hmax. assert (attempts_of J S = []) as Hno.
  { apply filter_none. intros a Ha HaJ. apply HJ. rewrite <- HaJ. by apply (fo_of S H). }
  split; cbn; [done|..].
  - intros l j Hl HK [Hj|Hj]%elem_of_app Hid; [by apply (H2 l)|]. apply list_elem_of_singleton in Hj as ->. cbn in Hid. subst K.
    by destruct (new_job_unleased J S H Hno l).
  - intros j [Hj|Hj]%elem_of_app Hid Hst; [by apply (H3 j)|]. apply list_elem_of_singleton in Hj as ->. cbn in *. subst K.
    change (attempt_count J S < max). unfold attempt_count. rewrite Hno. cbn. lia.
Qed.

(** An attempt of another job changes nothing for this one. *)
Lemma attempts_other K S a leases jobs held : ak_job a <> K ->
  attempts_of K (mkFenceState (f_attempts S ++ [a]) leases jobs held) = attempts_of K S.
Proof. intros Hne. rewrite attempts_of_snoc, decide_False by done. by rewrite app_nil_r. Qed.

Lemma sound_other K S a l jobs held : fenced_ok S -> sound K S -> ak_job a <> K -> ak_id a ∉ ak_id <$> f_attempts S ->
  (forall x, x ∈ l -> lk_attempt x = ak_id a) ->
  (forall j, j ∈ jobs -> jk_id j = K -> j ∈ f_jobs S) ->
  sound K (mkFenceState (f_attempts S ++ [a]) (f_leases S ++ l) jobs held).
Proof.
  intros H [H1 H2 H3] Hne Hnew Hl Hj.
  assert (forall x, x ∈ f_leases S ++ l -> of_job K (mkFenceState (f_attempts S ++ [a]) (f_leases S ++ l) jobs held) x ->
    x ∈ f_leases S /\ of_job K S x) as Hof.
  { intros x Hx. unfold of_job. rewrite attempts_other by done. intros HK. split; [|done].
    apply elem_of_app in Hx as [Hx|Hx]; [done|]. exfalso. apply Hnew. rewrite <- (Hl x Hx).
    apply list_elem_of_fmap in HK as (b & -> & [_ Hb]%elem_of_attempts_of). by apply list_elem_of_fmap_2. }
  split; cbn.
  - intros x Hx HK. destruct (Hof x Hx HK) as [Hx' HK']. destruct (H1 x Hx' HK') as (b & Hb & Hid & Hn).
    exists b. unfold attempt_count. by rewrite attempts_other.
  - intros x j Hx HK Hjin HjK. destruct (Hof x Hx HK). apply (H2 x); auto.
  - intros j Hjin HjK Hst. unfold attempt_count. rewrite attempts_other by done. apply (H3 j); auto.
Qed.

Lemma sound_record K S J s max a : fenced_ok S -> sound K S -> mkJobKey J s max ∈ f_jobs S -> s <> "queued" ->
  attempts_of J S = [] -> a ∉ ak_id <$> f_attempts S ->
  sound K (mkFenceState (f_attempts S ++ [mkAttemptKey a J 1 1]) (f_leases S) (f_jobs S) (f_held S)).
Proof.
  intros H Hs HJ Hst Hno Ha. destruct (decide (J = K)) as [<-|Hne].
  2:{ rewrite <- (app_nil_r (f_leases S)). apply sound_other; [done|done|done|done|by intros ? ?%elem_of_nil|done]. }
  assert (forall l, l ∈ f_leases S -> ~ of_job J (mkFenceState (f_attempts S ++ [mkAttemptKey a J 1 1]) (f_leases S) (f_jobs S) (f_held S)) l) as Hn.
  { intros l Hl (b & Hb & HbJ & Hbl)%elem_of_job. apply elem_of_app in Hb as [Hb|Hb].
    - assert (b ∈ attempts_of J S) as Hin by (by apply elem_of_attempts_of). rewrite Hno in Hin. by apply elem_of_nil in Hin.
    - apply list_elem_of_singleton in Hb as ->. by apply (lease_known S l a). }
  split; cbn.
  - intros l Hl Hof. by destruct (Hn l Hl).
  - intros l j Hl Hof. by destruct (Hn l Hl).
  - intros j Hj HjJ Hq. by rewrite (key_unique jk_id _ _ _ (fo_jobs S H) Hj HJ HjJ) in Hq.
Qed.

Lemma sound_grant K S J max a l held : fenced_ok S -> sound K S -> mkJobKey J "queued" max ∈ f_jobs S ->
  a ∉ ak_id <$> f_attempts S ->
  sound K (mkFenceState
    (f_attempts S ++ [mkAttemptKey a J (attempt_count J S + 1) (attempt_count J S + 1)])
    (f_leases S ++ [mkLeaseKey l a (attempt_count J S + 1)]) (set_job J "claimed" (f_jobs S)) held).
Proof.
  intros H Hs HJ Ha. destruct (decide (J = K)) as [<-|Hne].
  2:{ apply sound_other; [done|done|done|done|by intros x ->%list_elem_of_singleton|].
      intros j (i & Hi & Hidi & ? & [[HiJ _]|[HiJ Hst]])%elem_of_set_job Hjb; [congruence|].
      by destruct j, i; cbn in *; subst. }
  pose proof (unleased S J _ Hs HJ eq_refl (or_introl eq_refl)) as Hfree. split; cbn.
  - intros x [Hx|Hx]%elem_of_app Hof.
    + destruct (Hfree x Hx). apply elem_of_job in Hof as (b & [Hb|Hb]%elem_of_app & HbJ & Hbx); [apply elem_of_job; eauto|].
      apply list_elem_of_singleton in Hb as ->. by destruct (lease_known S x a H Hx Ha).
    + apply list_elem_of_singleton in Hx as ->.
      exists (mkAttemptKey a J (attempt_count J S + 1) (attempt_count J S + 1)). split_and!; [|done|].
      * rewrite attempts_of_snoc, decide_True by done. apply elem_of_app. right. by apply list_elem_of_singleton.
      * unfold attempt_count. rewrite attempts_of_snoc, decide_True, length_app by done. cbn. lia.
  - intros x j _ _ (i & _ & Hidi & _ & [[_ ->]|[HiJ _]])%elem_of_set_job Hj; [|congruence].
    split; [done|]. unfold terminal. enum_solve.
  - intros j (i & _ & Hidi & _ & [[_ ->]|[HiJ _]])%elem_of_set_job Hj; [done|congruence].
Qed.

(** The attempt that has the lease of a sound job leaves it without one. *)
Lemma sound_end K S J s id held : fenced_ok S -> sound K S ->
  (exists l, l ∈ f_leases S /\ lk_attempt l = id /\ of_job J S l) ->
  (K = J -> s = "queued" -> forall j, j ∈ f_jobs S -> jk_id j = J -> attempt_count J S < jk_max j) ->
  sound K (mkFenceState (f_attempts S) (filter (fun l => lk_attempt l <> id) (f_leases S)) (set_job J s (f_jobs S)) held).
Proof.
  intros H Hs (l & Hl & <- & HlJ) Hq. apply sound_set; [done| | |done].
  - intros x [_ Hx]%list_elem_of_filter. done.
  - intros ->. left. intros x [Hne Hx]%list_elem_of_filter Hof. apply Hne. by rewrite (one_lease S J x l).
Qed.

Lemma sound_free K S J s held : sound K S -> s <> "queued" ->
  sound K (mkFenceState (f_attempts S) (filter (fun l => ~ of_job J S l) (f_leases S)) (set_job J s (f_jobs S)) held).
Proof.
  intros Hs Hq. apply sound_set; [done| | |done].
  - intros x [_ Hx]%list_elem_of_filter. done.
  - intros ->. left. by intros x [Hne _]%list_elem_of_filter.
Qed.

(** Attempts stay, and an attempt without a lease never gets one. *)
Lemma fence_step_attempts S S' a : fence_step S S' -> a ∈ f_attempts S -> a ∈ f_attempts S'.
Proof. destruct 1; cbn; set_solver. Qed.

Lemma fence_step_unleased S S' a : fence_step S S' -> a ∈ ak_id <$> f_attempts S ->
  a ∉ lk_attempt <$> f_leases S -> a ∉ lk_attempt <$> f_leases S'.
Proof.
  assert (forall (P : lease_key -> Prop) (HdP : forall l, Decision (P l)) (leases : list lease_key),
    a ∉ lk_attempt <$> leases -> a ∉ lk_attempt <$> filter P leases) as Hf.
  { intros P HdP leases Hn Hin. apply Hn. apply list_elem_of_fmap in Hin as (l & -> & [_ Hl]%list_elem_of_filter).
    by apply list_elem_of_fmap_2. }
  destruct 1; cbn; auto. intros Ha Hn. rewrite fmap_app. set_solver.
Qed.

(** ** Numbers *)
Lemma attempts_unnumbered S J : fenced_ok S -> (forall a, a ∈ f_attempts S -> ak_job a = J -> ak_no a <> 1) ->
  attempts_of J S = [].
Proof.
  intros H Hn. destruct (fo_numbered S H J) as [Hno _].
  destruct (attempts_of J S) as [|a l] eqn:E; [done|]. exfalso.
  assert (a ∈ attempts_of J S) as [HJ Ha]%elem_of_attempts_of by (rewrite E; set_solver).
  apply (Hn a Ha HJ). rewrite fmap_cons, length_cons in Hno. rewrite seqZ_cons in Hno by lia. by simplify_eq.
Qed.

Lemma max_numbered (l : list attempt_key) :
  numbered l -> max_by ak_no l = Z.of_nat (length l) /\ max_by ak_fence l = Z.of_nat (length l).
Proof.
  assert (forall (f : attempt_key -> Z) (l : list attempt_key),
    f <$> l = seqZ 1 (Z.of_nat (length l)) -> max_by f l = Z.of_nat (length l)) as Hm.
  { intros f. induction l0 as [|a l0 IH] using rev_ind; [done|]. intros Hf.
    rewrite length_app in *. cbn [length] in *. rewrite Nat2Z.inj_add in *.
    rewrite (seqZ_app 1 (Z.of_nat (length l0)) (Z.of_nat 1)) in Hf by lia.
    rewrite fmap_app in Hf. apply app_inj_2 in Hf as [H1 H2]; [|by rewrite length_seqZ].
    specialize (IH H1). cbn in H2. injection H2 as Ha. unfold max_by in *. rewrite foldr_app. cbn.
    assert (forall n, 0 <= n -> foldr (fun x acc => Z.max (f x) acc) n l0 = Z.max n (foldr (fun x acc => Z.max (f x) acc) 0 l0)) as Hg.
    { intros n Hn. clear -Hn. induction l0 as [|b l0 IH]; cbn; lia. }
    rewrite Hg by lia. lia. }
  intros [H1 H2]. auto.
Qed.
