(* ===== verification/PhasePlan.v ===== *)
(** * The plan of an attempt

    An attempt's four phases run one after the other: completed phases first,
    then the one that is ready or claimed with the rest blocked behind it, or
    the one that failed or was canceled with the rest canceled behind it.  The
    operations of [PhaseWork] keep every plan of the table in this shape. *)

From S2P Require Import Prelude GoStrings Schema Capabilities CapacityLedger Budgets Fairness.
From S2P Require Import JobLedger Scheduler PhaseWork Fencing.
Open Scope string_scope.
Open Scope list_scope.
Open Scope Z_scope.

Definition plan_of (A : uuid) (l : list phase_work) : list phase_work :=
  filter (fun w => pw_attempt_id w = A) l.

Fixpoint plan_ok (ss : list WorkState) : Prop :=
  match ss with
  | [] => True
  | SCompleted :: ss => plan_ok ss
  | SReady :: ss | SClaimed :: ss => Forall (eq SBlocked) ss
  | SFailed :: ss | SCanceled :: ss => Forall (eq SCanceled) ss
  | SBlocked :: _ => False
  end.

(** The columns of an item that never change. *)
Definition plan_key (w : phase_work) : uuid * uuid * uuid * Phase * Z :=
  (pw_id w, pw_attempt_id w, pw_job_id w, pw_phase w, pw_sequence w).

Record plans_ok (l : list phase_work) : Prop := {
  po_ids : NoDup (pw_id <$> l);
  po_sequence : forall w, w ∈ l -> pw_sequence w = phase_sequence (pw_phase w);
  po_job : forall w x, w ∈ l -> x ∈ l -> pw_attempt_id w = pw_attempt_id x -> pw_job_id w = pw_job_id x;
  po_plan : forall A, plan_of A l = [] \/
    (pw_phase <$> plan_of A l = all_phases /\ plan_ok (pw_state <$> plan_of A l))
}.

(** ** Shapes *)
Definition active_state (s : WorkState) : Prop := s = SReady \/ s = SClaimed.

Lemma plan_ok_active ss ss' :
  Forall2 (fun s s' => s = s' \/ (active_state s /\ active_state s')) ss ss' -> plan_ok ss -> plan_ok ss'.
Proof.
  induction 1 as [|s s' ss ss' [<-|[H1 H2]] HF IH]; [done|..].
  - assert (forall s, ~ active_state s -> Forall (eq s) ss -> Forall (eq s) ss') as Hsame.
    { intros t Ht. clear -HF Ht. induction HF as [|x y ss ss' [<-|[Hx _]] HF IH]; [done|..];
        inversion 1; subst; constructor; auto. done. }
    destruct s; cbn; auto; apply Hsame; by intros [].
  - assert (Forall (eq SBlocked) ss -> Forall (eq SBlocked) ss') as Hsame.
    { clear -HF. induction HF as [|x y ss ss' [<-|[Hx _]] HF IH]; [done|..];
        inversion 1; subst; constructor; auto. by destruct Hx. }
    by destruct H1 as [-> | ->], H2 as [-> | ->]; cbn.
Qed.

Definition cancel_state (s : WorkState) : WorkState :=
  if decide (s ∈ [SBlocked; SReady; SClaimed]) then SCanceled else s.

Lemma plan_ok_cancel ss : plan_ok ss -> plan_ok (cancel_state <$> ss).
Proof.
  assert (forall s, s = SBlocked \/ s = SCanceled -> forall l, Forall (eq s) l ->
    Forall (eq SCanceled) (cancel_state <$> l)) as Hall.
  { intros s Hs l. induction 1 as [|x l <- H IH]; constructor; [by destruct Hs as [-> | ->]|done]. }
  induction ss as [|s ss IH]; [done|]. destruct s; cbn; try done; [apply (Hall SBlocked)|apply (Hall SBlocked)
    |apply (Hall SCanceled)|apply (Hall SCanceled)]; auto.
Qed.

(** Around the active phase: completed before it, blocked after it. *)
Lemma plan_ok_around s pre post : active_state s ->
  plan_ok (pre ++ s :: post) -> Forall (eq SCompleted) pre /\ Forall (eq SBlocked) post.
Proof.
  intros Hs. induction pre as [|t pre IH]; cbn; [by destruct Hs as [-> | ->]|]. destruct t; try done.
  3:{ intros H. destruct (IH H). by split; [constructor|]. }
  all: intros H; apply Forall_app in H as [_ H]; inversion H; subst; by destruct Hs.
Qed.

Lemma plan_ok_completed pre post : Forall (eq SCompleted) pre -> plan_ok post -> plan_ok (pre ++ post).
Proof. intros H1 H2. by induction H1 as [|s pre <- H1 IH]. Qed.

(** ** Rewriting the items *)
Lemma plan_of_fmap g l A : (forall w, plan_key (g w) = plan_key w) -> plan_of A (g <$> l) = g <$> plan_of A l.
Proof.
  intros Hg. unfold plan_of. induction l as [|w l IH]; [done|]. rewrite fmap_cons, !filter_cons.
  assert (pw_attempt_id (g w) = pw_attempt_id w) as -> by (specialize (Hg w); unfold plan_key in Hg; by simplify_eq).
  case_decide; by rewrite IH.
Qed.

Lemma plans_rewrite g l : plans_ok l -> (forall w, plan_key (g w) = plan_key w) ->
  (forall A, pw_phase <$> plan_of A l = all_phases -> plan_ok (pw_state <$> plan_of A l) ->
     plan_ok (pw_state <$> (g <$> plan_of A l))) ->
  plans_ok (g <$> l).
Proof.
  intros H Hg Hst.
  assert (forall w, pw_id (g w) = pw_id w /\ pw_attempt_id (g w) = pw_attempt_id w /\
    pw_job_id (g w) = pw_job_id w /\ pw_phase (g w) = pw_phase w /\ pw_sequence (g w) = pw_sequence w) as Hk.
  { intros w. specialize (Hg w). unfold plan_key in Hg. by simplify_eq. }
  split.
  - rewrite <- list_fmap_compose. rewrite (list_fmap_ext _ pw_id); [apply H|]. intros i w _. apply Hk.
  - intros w' (w & -> & Hw)%list_elem_of_fmap. destruct (Hk w) as (_ & _ & _ & -> & ->). by apply H.
  - intros w' x' (w & -> & Hw)%list_elem_of_fmap (x & -> & Hx)%list_elem_of_fmap.
    destruct (Hk w) as (_ & -> & -> & _), (Hk x) as (_ & -> & -> & _). by apply H.
  - intros A. rewrite plan_of_fmap by done. destruct (po_plan l H A) as [->|[Hp Ho]]; [by left|right].
    split; [|by apply Hst]. rewrite <- Hp, <- list_fmap_compose. apply list_fmap_ext. intros i w _. apply Hk.
Qed.

(** Items that keep their state, or go between ready and claimed. *)
Lemma plans_active g l : plans_ok l -> (forall w, plan_key (g w) = plan_key w) ->
  (forall w, w ∈ l -> pw_state (g w) = pw_state w \/ (active_state (pw_state w) /\ active_state (pw_state (g w)))) ->
  plans_ok (g <$> l).
Proof.
  intros H Hg Hst. apply plans_rewrite; [done..|]. intros A _ Ho.
  eapply plan_ok_active; [|exact Ho]. rewrite Forall2_fmap_r, Forall2_fmap_r, Forall2_fmap_l.
  apply Forall_Forall2_diag, Forall_forall. intros w [_ Hw]%list_elem_of_filter.
  destruct (Hst w Hw); naive_solver.
Qed.

Lemma plans_update (P : phase_work -> Prop) `{HdP : !forall x, Decision (P x)} f l :
  plans_ok l -> (forall w, P w -> plan_key (f w) = plan_key w) ->
  (forall w, P w -> pw_state (f w) = pw_state w \/ (active_state (pw_state w) /\ active_state (pw_state (f w)))) ->
  plans_ok (update_where P f l).
Proof.
  intros H Hk Hs. apply plans_active; [done|..]; intros w; [|intros _]; case_decide; auto.
Qed.

(** All open items of some attempts are canceled. *)
Lemma plans_cancel (Q : phase_work -> Prop) `{HdQ : !forall x, Decision (Q x)} f l :
  plans_ok l -> (forall w, plan_key (f w) = plan_key w /\ pw_state (f w) = SCanceled) ->
  (forall w x, w ∈ l -> x ∈ l -> pw_attempt_id w = pw_attempt_id x -> (Q w <-> Q x)) ->
  plans_ok (update_where (fun w => Q w /\ open_phase w) f l).
Proof.
  intros H Hf HQ. apply plans_rewrite; [done|intros w; case_decide; naive_solver|]. intros A Hph Ho.
  destruct (decide (Exists Q (plan_of A l))) as [Hex|Hex].
  - assert (forall w, w ∈ plan_of A l -> Q w) as Hall.
    { apply Exists_exists in Hex as (x & [HxA Hx]%list_elem_of_filter & HQx).
      intros w [HwA Hw]%list_elem_of_filter. apply (HQ w x); congruence. }
    rewrite <- list_fmap_compose.
    rewrite (list_fmap_ext _ (cancel_state ∘ pw_state)); [rewrite list_fmap_compose; by apply plan_ok_cancel|].
    intros i w Hw%list_elem_of_lookup_2. unfold cancel_state, open_phase. cbn. specialize (Hall w Hw).
    destruct (Hf w) as [_ Hs]. repeat case_decide; tauto || done.
  - rewrite <- list_fmap_compose. rewrite (list_fmap_ext _ pw_state); [done|].
    intros i w Hw%list_elem_of_lookup_2. cbn. rewrite decide_False; [done|]. intros [HQw _]. apply Hex.
    apply Exists_exists. eauto.
Qed.

(** ** Ending the claimed phase *)
Section active_phase.
Context (l : list phase_work) (w : phase_work).
Context (Hok : plans_ok l) (Hw : w ∈ l) (Hst : active_state (pw_state w)).

(** The plan around the active item. *)
Lemma plan_split : exists pre post, plan_of (pw_attempt_id w) l = pre ++ w :: post /\
  (forall x, x ∈ pre -> x ∈ l /\ pw_state x = SCompleted /\ pw_sequence x < pw_sequence w /\ pw_id x <> pw_id w) /\
  (forall x, x ∈ post -> x ∈ l /\ pw_state x = SBlocked /\ pw_sequence w < pw_sequence x /\ pw_id x <> pw_id w) /\
  StronglySorted Z.lt (pw_sequence <$> post).
Proof.
  assert (w ∈ plan_of (pw_attempt_id w) l) as Hin by (by apply list_elem_of_filter).
  destruct (po_plan l Hok (pw_attempt_id w)) as [Hnil|[Hph Ho]]; [rewrite Hnil in Hin; by apply elem_of_nil in Hin|].
  assert (pw_sequence <$> plan_of (pw_attempt_id w) l = [10; 20; 30; 40]) as Hseq.
  { change [10; 20; 30; 40] with (phase_sequence <$> all_phases). rewrite <- Hph, <- list_fmap_compose.
    apply list_fmap_ext. intros i x Hx%list_elem_of_lookup_2. cbn. apply (po_sequence l Hok).
    by apply list_elem_of_filter in Hx as [_ ?]. }
  assert (StronglySorted Z.lt (pw_sequence <$> plan_of (pw_attempt_id w) l)) as Hsort.
  { rewrite Hseq. repeat constructor; lia. }
  assert (forall x, x ∈ plan_of (pw_attempt_id w) l -> x ∈ l) as Hsub.
  { intros x Hx. by apply list_elem_of_filter in Hx as [_ ?]. }
  clear Hseq Hph. apply list_elem_of_split in Hin as (pre & post & Hsplit). exists pre, post.
  rewrite Hsplit in *. rewrite fmap_app, fmap_cons in Ho. apply plan_ok_around in Ho as [Hpre Hpost]; [|done].
  rewrite Forall_fmap in Hpre, Hpost. rewrite Forall_forall in Hpre, Hpost.
  rewrite fmap_app, fmap_cons in Hsort. apply StronglySorted_app in Hsort as (Hlt & _ & Hsort).
  apply StronglySorted_cons in Hsort as [Hgt Hsort]. rewrite Forall_fmap, Forall_forall in Hgt.
  split; [done|]. split_and!.
  - intros x Hx. split_and!; [apply Hsub; set_solver|by rewrite <- (Hpre x Hx)| |].
    + apply Hlt; [by apply list_elem_of_fmap_2|set_solver].
    + intros Hid. assert (x = w) as -> by (apply (key_unique pw_id l); [apply Hok|apply Hsub; set_solver|done..]).
      rewrite <- (Hpre w Hx) in Hst. by destruct Hst.
  - intros x Hx. split_and!; [apply Hsub; set_solver|by rewrite <- (Hpost x Hx)|by apply Hgt|].
    intros Hid. assert (x = w) as -> by (apply (key_unique pw_id l); [apply Hok|apply Hsub; set_solver|done..]).
    rewrite <- (Hpost w Hx) in Hst. by destruct Hst.
  - done.
Qed.

(** A rewrite that concerns the claimed item and its plan only. *)
Lemma plans_end g : (forall x, plan_key (g x) = plan_key x) ->
  (forall x, x ∈ l -> pw_attempt_id x <> pw_attempt_id w -> pw_state (g x) = pw_state x) ->
  (forall x, x ∈ l -> pw_id x <> pw_id w -> pw_state x = SCompleted -> pw_state (g x) = SCompleted) ->
  (forall pre post, plan_of (pw_attempt_id w) l = pre ++ w :: post ->
     (forall x, x ∈ pre -> pw_state x = SCompleted) ->
     (forall x, x ∈ post -> pw_attempt_id x = pw_attempt_id w /\ pw_state x = SBlocked /\
        pw_sequence w < pw_sequence x /\ pw_id x <> pw_id w) ->
     StronglySorted Z.lt (pw_sequence <$> post) ->
     plan_ok (pw_state (g w) :: (pw_state <$> (g <$> post)))) ->
  plans_ok (g <$> l).
Proof.
  intros Hg Hother Hdone Hpost. apply plans_rewrite; [done..|]. intros A Hph Ho.
  destruct (decide (A = pw_attempt_id w)) as [->|HA].
  - destruct plan_split as (pre & post & Hsplit & Hpre & Hp & Hs). rewrite Hsplit, !fmap_app, !fmap_cons.
    apply plan_ok_completed.
    + rewrite !Forall_fmap, Forall_forall. intros x Hx. destruct (Hpre x Hx) as (Hxl & Hxs & _ & Hxi).
      symmetry. by apply Hdone.
    + apply (Hpost pre post Hsplit); [intros x Hx; by apply Hpre| |done].
      intros x Hx. destruct (Hp x Hx) as (Hxl & Hxs & Hxq & Hxi). split_and!; try done.
      assert (x ∈ plan_of (pw_attempt_id w) l) as Hin by (rewrite Hsplit; set_solver).
      by apply list_elem_of_filter in Hin as [? _].
  - rewrite <- list_fmap_compose. rewrite (list_fmap_ext _ pw_state); [done|].
    intros i x Hx%list_elem_of_lookup_2. apply list_elem_of_filter in Hx as [HxA Hx]. apply Hother; congruence.
Qed.
End active_phase.

Lemma min_of_head x (l : list Z) : (forall y, y ∈ l -> x < y) -> min_of (x :: l) = Some x.
Proof.
  intros H. assert (forall y, min_of l = Some y -> x < y) as Hm.
  { intros y. revert y H. induction l as [|a l IH]; [done|]. intros y H. cbn.
    assert (forall z, min_of l = Some z -> x < z) as IH' by (intros z; apply IH; set_solver).
    unfold min_of in IH'. destruct (foldr _ None l) as [z|]; intros [= <-].
    - specialize (IH' z eq_refl). assert (x < a) by (apply H; set_solver). lia.
    - apply H. set_solver. }
  cbn. unfold min_of in Hm. destruct (foldr _ None l) as [z|]; [|done]. specialize (Hm z eq_refl). f_equal. lia.
Qed.

Lemma plan_id_attempt l w x : plans_ok l -> w ∈ l -> x ∈ l -> pw_attempt_id x <> pw_attempt_id w ->
  pw_id x <> pw_id w.
Proof. intros H Hw Hx Hne Hid. apply Hne. by rewrite (key_unique pw_id l x w (po_ids l H) Hx Hw Hid). Qed.

(** The blocked items behind the claimed one. *)
Lemma blocked_behind g l w pre post : plan_of (pw_attempt_id w) l = pre ++ w :: post ->
  (forall x, plan_key (g x) = plan_key x) -> pw_state (g w) <> SBlocked ->
  (forall x, x ∈ pre -> pw_state (g x) <> SBlocked) ->
  (forall x, x ∈ post -> pw_state (g x) = SBlocked /\ pw_sequence w < pw_sequence x) ->
  pw_sequence <$> filter (later_blocked (pw_attempt_id w) (pw_sequence w)) (g <$> l) = pw_sequence <$> post.
Proof.
  intros Hsplit Hg Hw Hpre Hpost.
  assert (filter (later_blocked (pw_attempt_id w) (pw_sequence w)) (g <$> l) =
    filter (fun x => pw_sequence w < pw_sequence x /\ pw_state x = SBlocked)
      (plan_of (pw_attempt_id w) (g <$> l))) as ->.
  { unfold plan_of. rewrite list_filter_filter. apply filter_ext_elem. intros x _. unfold later_blocked. tauto. }
  assert (forall x, pw_sequence (g x) = pw_sequence x) as Hseq.
  { intros x. specialize (Hg x). unfold plan_key in Hg. by simplify_eq. }
  rewrite plan_of_fmap, Hsplit, fmap_app, fmap_cons, filter_app, filter_cons by done.
  rewrite decide_False by tauto. rewrite (filter_none _ (g <$> pre)), (filter_all _ (g <$> post)).
  - cbn. rewrite <- list_fmap_compose. apply list_fmap_ext. intros i x _. apply Hseq.
  - intros x' (x & -> & Hx)%list_elem_of_fmap. rewrite Hseq. destruct (Hpost x Hx). auto.
  - intros x' (x & -> & Hx)%list_elem_of_fmap [_ Hb]. by apply (Hpre x).
Qed.

Lemma plans_complete l w now now' error :
  plans_ok l -> w ∈ l -> pw_state w = SClaimed ->
  plans_ok (release_next (pw_attempt_id w) (pw_sequence w) now
    (update_where (fun x => pw_id x = pw_id w) (end_phase SCompleted now' error) l)).
Proof.
  intros H Hw Hst. unfold release_next.
  set (g1 := fun x : phase_work => if decide (pw_id x = pw_id w) then end_phase SCompleted now' error x else x).
  change (update_where (fun x => pw_id x = pw_id w) _ l) with (g1 <$> l).
  assert (forall x, plan_key (g1 x) = plan_key x) as Hk1 by (intros x; unfold g1; by case_decide).
  assert (pw_state (g1 w) = SCompleted) as Hg1 by (unfold g1; by rewrite decide_True).
  assert (forall x, pw_id x <> pw_id w -> g1 x = x) as Hg1' by (intros x Hx; unfold g1; by rewrite decide_False).
  unfold update_where. rewrite <- list_fmap_compose. eapply (plans_end l w H Hw (or_intror Hst)).
  - intros x. cbn. rewrite <- (Hk1 x). by case_decide.
  - intros x Hx HA. cbn. rewrite Hg1' by (by apply (plan_id_attempt l)). by rewrite decide_False by (intros [[? _] _]; done).
  - intros x Hx Hid Hs. cbn. rewrite Hg1' by done. rewrite decide_False; [done|]. intros [(_ & _ & Hb) _]. congruence.
  - intros pre post Hsplit Hpre Hpost Hsort.
    rewrite (blocked_behind g1 l w pre post Hsplit Hk1); [|congruence| |].
    2:{ intros x Hx. unfold g1. case_decide; [done|]. by rewrite Hpre. }
    2:{ intros x Hx. destruct (Hpost x Hx) as (_ & ? & ? & ?). by rewrite Hg1'. }
    cbn. rewrite decide_False by (intros [(_ & _ & Hb) _]; congruence). rewrite Hg1.
    destruct post as [|h t]; [done|]. rewrite fmap_cons in Hsort.
    apply StronglySorted_cons in Hsort as [Hgt _]. rewrite Forall_fmap, Forall_forall in Hgt.
    assert (min_of (pw_sequence <$> h :: t) = Some (pw_sequence h)) as Hmin.
    { apply min_of_head. intros y (x & -> & Hx)%list_elem_of_fmap. by apply Hgt. }
    destruct (Hpost h ltac:(set_solver)) as (HhA & Hhs & Hhq & Hhi).
    rewrite (fmap_cons (_ ∘ g1)), (fmap_cons pw_state). cbn [compose]. rewrite Hg1' by done.
    rewrite decide_True by (by rewrite Hmin). cbn.
    rewrite !Forall_fmap, Forall_forall. intros x Hx.
    destruct (Hpost x ltac:(set_solver)) as (HxA & Hxs & Hxq & Hxi). cbn [compose]. rewrite Hg1' by done.
    rewrite decide_False; [done|]. intros [_ Heq]. specialize (Hgt x Hx). cbn in Hgt.
    assert (Some (pw_sequence x) = Some (pw_sequence h)) as [=] by (etransitivity; [exact Heq|exact Hmin]). lia.
Qed.

Lemma plans_fail l w now now' error :
  plans_ok l -> w ∈ l -> pw_state w = SClaimed ->
  plans_ok (cancel_dependants (pw_attempt_id w) (pw_sequence w) now
    (update_where (fun x => pw_id x = pw_id w) (end_phase SFailed now' error) l)).
Proof.
  intros H Hw Hst. unfold cancel_dependants.
  set (g1 := fun x : phase_work => if decide (pw_id x = pw_id w) then end_phase SFailed now' error x else x).
  change (update_where (fun x => pw_id x = pw_id w) _ l) with (g1 <$> l).
  assert (forall x, pw_id x <> pw_id w -> g1 x = x) as Hg1' by (intros x Hx; unfold g1; by rewrite decide_False).
  unfold update_where. rewrite <- list_fmap_compose. eapply (plans_end l w H Hw (or_intror Hst)).
  - intros x. cbn. unfold g1. repeat case_decide; done.
  - intros x Hx HA. cbn. rewrite Hg1' by (by apply (plan_id_attempt l)). by rewrite decide_False by (intros [? _]; done).
  - intros x Hx Hid Hs. cbn. rewrite Hg1' by done. rewrite decide_False; [done|]. rewrite Hs. intros (_ & _ & ?). enum_solve.
  - intros pre post Hsplit Hpre Hpost Hsort. cbn [compose].
    assert (g1 w = end_phase SFailed now' error w) as -> by (unfold g1; by rewrite decide_True).
    rewrite decide_False by (cbn; intros (_ & _ & ?); enum_solve).
    cbn. rewrite !Forall_fmap, Forall_forall. intros x Hx.
    destruct (Hpost x Hx) as (HxA & Hxs & Hxq & Hxi). cbn. rewrite Hg1', decide_True; [done| |done].
    split_and!; [done..|]. rewrite Hxs. enum_solve.
Qed.

(** Publishing is the last phase. *)
Lemma nothing_behind l w x : plans_ok l -> w ∈ l -> x ∈ l -> pw_phase w = Publish -> ~ pw_sequence w < pw_sequence x.
Proof.
  intros H Hw Hx Hp. rewrite (po_sequence l H w Hw), (po_sequence l H x Hx), Hp. by destruct (pw_phase x).
Qed.

Lemma plans_finalize l w now error : plans_ok l -> w ∈ l -> pw_state w = SClaimed -> pw_phase w = Publish ->
  plans_ok (update_where (fun x => pw_id x = pw_id w) (end_phase SCompleted now error) l).
Proof.
  intros H Hw Hst Hp. unfold update_where. eapply (plans_end l w H Hw (or_intror Hst)).
  - intros x. by case_decide.
  - intros x Hx HA. by rewrite decide_False by (by apply (plan_id_attempt l)).
  - intros x Hx Hid Hs. by rewrite decide_False.
  - intros pre post Hsplit Hpre Hpost _. rewrite decide_True by done. cbn. destruct post as [|x post]; [done|].
    destruct (Hpost x ltac:(set_solver)) as (_ & _ & Hlt & _). exfalso.
    apply (nothing_behind l w x); [done..| |done|done].
    assert (x ∈ plan_of (pw_attempt_id w) l) as Hin by (rewrite Hsplit; set_solver).
    by apply list_elem_of_filter in Hin as [_ ?].
Qed.

(** Nothing of the attempt is open once its publication ended ... *)
Lemma finalized_closed l w now error x : plans_ok l -> w ∈ l -> pw_state w = SClaimed -> pw_phase w = Publish ->
  x ∈ update_where (fun x => pw_id x = pw_id w) (end_phase SCompleted now error) l ->
  pw_attempt_id x = pw_attempt_id w -> ~ open_phase x.
Proof.
  intros H Hw Hst Hp (y & Hy & [[Hid ->]|[Hid ->]])%elem_of_update_where HA Hopen.
  - unfold open_phase in Hopen. cbn in Hopen. enum_solve.
  - destruct (plan_split l w H Hw (or_intror Hst)) as (pre & post & Hsplit & Hpre & Hpost & _).
    assert (y ∈ pre ++ w :: post) as Hin by (rewrite <- Hsplit; by apply list_elem_of_filter).
    apply elem_of_app in Hin as [Hin|[->|Hin]%elem_of_cons]; [|done|].
    + destruct (Hpre y Hin) as (_ & Hs & _). unfold open_phase in Hopen. rewrite Hs in Hopen. enum_solve.
    + destruct (Hpost y Hin) as (_ & _ & Hlt & _). by apply (nothing_behind l w y).
Qed.

(** ... or one of its phases failed. *)
Lemma failed_closed l w now now' error x : plans_ok l -> w ∈ l -> pw_state w = SClaimed ->
  x ∈ cancel_dependants (pw_attempt_id w) (pw_sequence w) now
        (update_where (fun x => pw_id x = pw_id w) (end_phase SFailed now' error) l) ->
  pw_attempt_id x = pw_attempt_id w -> ~ open_phase x.
Proof.
  intros H Hw Hst Hx HA Hopen.
  apply elem_of_update_where in Hx as (y & Hy & [[_ ->]|[Hn ->]]); [unfold open_phase in Hopen; cbn in Hopen; enum_solve|].
  apply elem_of_update_where in Hy as (z & Hz & [[Hid ->]|[Hid ->]]); [unfold open_phase in Hopen; cbn in Hopen; enum_solve|].
  destruct (plan_split l w H Hw (or_intror Hst)) as (pre & post & Hsplit & Hpre & Hpost & _).
  assert (z ∈ pre ++ w :: post) as Hin by (rewrite <- Hsplit; by apply list_elem_of_filter).
  apply elem_of_app in Hin as [Hin|[->|Hin]%elem_of_cons]; [|done|].
  - destruct (Hpre z Hin) as (_ & Hs & _). unfold open_phase in Hopen. rewrite Hs in Hopen. enum_solve.
  - destruct (Hpost z Hin) as (_ & Hs & Hlt & _). apply Hn. split_and!; [done..|]. rewrite Hs. enum_solve.
Qed.

(** ** A new plan *)
Lemma plan_requirements_phases request phases reqs :
  plan_requirements request phases = Ok reqs -> reqs.*1 = phases.
Proof.
  revert reqs. induction phases as [|p phases IH]; intros reqs; cbn; [by intros [= <-]|].
  destruct (PhaseCapabilityRequirements _ _) as [labels|]; [|done].
  destruct (plan_requirements request phases) as [rest|]; [|done]. intros [= <-]. cbn. f_equal. by apply IH.
Qed.

Lemma plans_insert ids project job request now d d' :
  insertPhaseWorkPlan ids project job request now d = Ok d' -> plans_ok (phase_work_items d) ->
  exists items, d' = d <| phase_work_items := phase_work_items d ++ items |> /\
    plans_ok (phase_work_items d ++ items) /\
    forall w, w ∈ items -> pw_attempt_id w = id_attempt ids /\ pw_job_id w = job.
Proof.
  unfold insertPhaseWorkPlan. intros H Hok. inv_ok_step H. rename a into reqs.
  apply plan_requirements_phases in E. destruct reqs as [|[p1 r1] [|[p2 r2] [|[p3 r3] [|[p4 r4] [|? ?]]]]]; try done.
  cbn in E. injection E as -> -> -> ->. cbv beta zeta in H. set (items := (_ : _ -> phase_work) <$> _) in H. inv_ok H. subst d'.
  destruct Hc as [Hnd Hfresh]. exists items. split; [done|].
  assert (forall w, w ∈ phase_work_items d -> pw_attempt_id w <> id_attempt ids) as Hnew.
  { intros w Hw HA. apply Hfresh. apply Exists_exists. eauto. }
  assert (forall w, w ∈ items -> pw_attempt_id w = id_attempt ids /\ pw_job_id w = job /\
    pw_sequence w = phase_sequence (pw_phase w)) as Hitems.
  { intros w (p & -> & _)%list_elem_of_fmap. by destruct p. }
  split; [split|].
  - done.
  - intros w [Hw|Hw]%elem_of_app; [by apply Hok|by apply Hitems].
  - intros w x [Hw|Hw]%elem_of_app [Hx|Hx]%elem_of_app HA.
    + by apply (po_job _ Hok).
    + destruct (Hitems x Hx) as (HxA & _). by destruct (Hnew w Hw); rewrite HA.
    + destruct (Hitems w Hw) as (HwA & _). by destruct (Hnew x Hx); rewrite <- HA.
    + destruct (Hitems w Hw) as (_ & -> & _), (Hitems x Hx) as (_ & -> & _). done.
  - intros A. unfold plan_of. rewrite filter_app. destruct (decide (A = id_attempt ids)) as [->|HA].
    + rewrite (filter_none _ (phase_work_items d)) by done. rewrite (filter_all _ items) by (intros; by apply Hitems).
      right. split; [done|]. cbn. repeat constructor.
    + rewrite (filter_none _ items), app_nil_r; [apply Hok|]. intros w Hw HwA.
      destruct (Hitems w Hw) as (HwA' & _). congruence.
  - intros w Hw. by destruct (Hitems w Hw) as (? & ? & _).
Qed.
