(* ===== verification/JobSystem.v ===== *)
(** * The job system

    The operations of [JobLedger], [Scheduler] and [PhaseWork] as the steps of
    one system, and what holds of every state it reaches.  [view] maps a
    database to a state of the fencing protocol; every step of the system is a
    sequence of steps of the protocol. *)

From S2P Require Import Prelude GoStrings Schema Capabilities CapacityLedger Budgets Fairness.
From S2P Require Import JobLedger Scheduler PhaseWork Fencing PhasePlan.
From Stdlib Require Import Ascii.
Open Scope string_scope.
Open Scope list_scope.
Open Scope Z_scope.

#[local] Arguments update_where : simpl never.

(** ** The view *)
Definition akey (a : build_attempt) : attempt_key :=
  mkAttemptKey (a_id a) (a_job_id a) (a_attempt_no a) (a_fence_token a).
Definition lkey (l : worker_lease) : lease_key := mkLeaseKey (wl_id l) (wl_attempt_id l) (wl_fence_token l).
Definition jkey (j : build_job) : job_key := mkJobKey (j_id j) (j_state j) (j_max_attempts j).

(** What is held, table by table. *)
Definition reserved (d : db) : list (uuid * uuid) :=
  (fun r => (rv_attempt_id r, rv_job_id r)) <$> filter (fun r => rv_state r = Live) (resource_reservations d).
Definition metered (d : db) : list (uuid * uuid) :=
  (fun u => (us_attempt_id u, us_job_id u)) <$> filter (fun u => us_state u = UActive) (attempt_usages d).
Definition pending (d : db) : list (uuid * uuid) :=
  (fun w => (pw_attempt_id w, pw_job_id w)) <$> filter open_phase (phase_work_items d).
Definition held (d : db) : list (uuid * uuid) := reserved d ++ metered d ++ pending d.

Arguments reserved : simpl never.
Arguments metered : simpl never.
Arguments pending : simpl never.
Arguments held : simpl never.

Definition view (d : db) : fence_state :=
  mkFenceState (akey <$> build_attempts d) (lkey <$> worker_leases d) (jkey <$> build_jobs d) (held d).

Lemma elem_of_held d x : x ∈ held d <-> x ∈ reserved d \/ x ∈ metered d \/ x ∈ pending d.
Proof. unfold held. rewrite !elem_of_app. tauto. Qed.

Lemma held_subset d d' : reserved d' ⊆ reserved d -> metered d' ⊆ metered d -> pending d' ⊆ pending d ->
  held d' ⊆ held d.
Proof. intros H1 H2 H3 x. rewrite !elem_of_held. specialize (H1 x). specialize (H2 x). specialize (H3 x). tauto. Qed.

(** Rows rewritten in place hold no more than before, and nothing that the
    rewrite gave back. *)
Lemma held_rows {A} (key : A -> uuid * uuid) (L : A -> Prop) `{HdL : !forall x, Decision (L x)}
    (P : A -> Prop) `{HdP : !forall x, Decision (P x)} (f : A -> A) l x :
  (forall r, P r -> L (f r) -> L r /\ key (f r) = key r) ->
  x ∈ key <$> filter L (update_where P f l) ->
  x ∈ key <$> filter L l /\ exists r, r ∈ l /\ key r = x /\ L r /\ (P r -> L (f r)).
Proof.
  intros Hf (y & -> & [HL Hy]%list_elem_of_filter)%list_elem_of_fmap.
  apply elem_of_update_where in Hy as (r & Hr & [[HP ->]|[HP ->]]).
  - destruct (Hf r HP HL) as [HLr Hk]. rewrite Hk. split; [|eauto 10].
    apply list_elem_of_fmap_2. by apply list_elem_of_filter.
  - split; [|naive_solver]. apply list_elem_of_fmap_2. by apply list_elem_of_filter.
Qed.

Lemma held_sub {A} (key : A -> uuid * uuid) (L : A -> Prop) `{HdL : !forall x, Decision (L x)}
    (P : A -> Prop) `{HdP : !forall x, Decision (P x)} (f : A -> A) l :
  (forall r, P r -> L (f r) -> L r /\ key (f r) = key r) ->
  key <$> filter L (update_where P f l) ⊆ key <$> filter L l.
Proof. intros Hf x Hx. by apply (held_rows key L P f). Qed.

Lemma held_drop {A} (key : A -> uuid * uuid) (L : A -> Prop) `{HdL : !forall x, Decision (L x)}
    (P : A -> Prop) `{HdP : !forall x, Decision (P x)} (f : A -> A) l x :
  (forall r, ~ L (f r)) -> x ∈ key <$> filter L (update_where P f l) ->
  x ∈ key <$> filter L l /\ exists r, key r = x /\ L r /\ ~ P r.
Proof.
  intros Hf Hx. destruct (held_rows key L P f l x) as [Hin (r & _ & Hk & HL & HP)];
    [intros r _ HL; by destruct (Hf r)|done|].
  split; [done|]. exists r. split_and!; [done..|]. intros HPr. by apply (Hf r), HP.
Qed.

(** ** Effects of the ledger's statements on the view *)
Lemma jkeys_set J s f l : (forall j, jkey (f j) = mkJobKey (j_id j) s (j_max_attempts j)) ->
  jkey <$> update_where (fun j => j_id j = J) f l = set_job J s (jkey <$> l).
Proof.
  intros Hf. unfold set_job, update_where. rewrite <- !list_fmap_compose. apply list_fmap_ext.
  intros i j _. cbn. repeat case_decide; done.
Qed.

Lemma lkeys_filter (P : worker_lease -> Prop) (Q : lease_key -> Prop)
    `{HdP : !forall x, Decision (P x), HdQ : !forall x, Decision (Q x)} (l : list worker_lease) :
  (forall x, x ∈ l -> (P x <-> Q (lkey x))) -> lkey <$> filter P l = filter Q (lkey <$> l).
Proof.
  induction l as [|a l IH]; intros H; [done|]. rewrite fmap_cons, !filter_cons.
  specialize (IH ltac:(intros; apply H; set_solver)). destruct (H a (list_elem_of_here a l)).
  repeat case_decide; try tauto; cbn; by rewrite IH.
Qed.

Lemma settle_effect id reason state t d d' : settleAttemptUsage id reason state t d = Ok d' ->
  build_attempts d' = build_attempts d /\ worker_leases d' = worker_leases d /\
  resource_reservations d' = resource_reservations d /\ phase_work_items d' = phase_work_items d /\
  jkey <$> build_jobs d' = jkey <$> build_jobs d.
Proof.
  unfold settleAttemptUsage. destruct (first_where _ _) as [u|]; [|by intros [= <-]].
  assert (forall l, jkey <$> update_where (fun j => j_project_id j = us_project_id u /\ j_state j = "queued" /\
    j_cancel_requested_at j = None) (fun j => j <| j_next_attempt_at := Z.min (j_next_attempt_at j) t |>) l
    = jkey <$> l) as Hj by (intros l; by apply update_where_map).
  case_decide as Hst.
  - unfold applyFailureStormSuspension. intros H. inv_ok_step H. case_decide; simplify_eq; cbn; auto.
  - intros [= <-]. cbn. auto.
Qed.

Lemma settled_metered id reason t l x :
  x ∈ (fun u => (us_attempt_id u, us_job_id u)) <$> filter (fun u => us_state u = UActive)
        (update_where (active_usage id) (settle_row t reason) l) ->
  x ∈ (fun u => (us_attempt_id u, us_job_id u)) <$> filter (fun u => us_state u = UActive) l /\ x.1 <> id.
Proof.
  intros Hx. apply (held_drop _ _ (active_usage id) (settle_row t reason)) in Hx as [Hin (u & <- & Hu & Hn)]; [|done].
  split; [done|]. intros Hid. by apply Hn.
Qed.

Lemma released_reserved (P : reservation -> Prop) `{HdP : !forall x, Decision (P x)} f l x :
  (forall r, rv_state (f r) = Released) ->
  x ∈ (fun r => (rv_attempt_id r, rv_job_id r)) <$> filter (fun r => rv_state r = Live)
        (update_where (fun r => P r /\ rv_state r = Live) f l) ->
  x ∈ (fun r => (rv_attempt_id r, rv_job_id r)) <$> filter (fun r => rv_state r = Live) l /\
  exists r, (rv_attempt_id r, rv_job_id r) = x /\ ~ P r.
Proof.
  intros Hf Hx. apply (held_drop _ _ (fun r => P r /\ rv_state r = Live)) in Hx as [Hin (r & <- & Hr & Hn)].
  - split; [done|]. exists r. tauto.
  - intros r Hr. by rewrite Hf in Hr.
Qed.

Lemma canceled_pending (P : phase_work -> Prop) `{HdP : !forall x, Decision (P x)} reason t l x :
  x ∈ (fun w => (pw_attempt_id w, pw_job_id w)) <$> filter open_phase
        (update_where (fun w => P w /\ open_phase w) (cancel_phase reason t) l) ->
  x ∈ (fun w => (pw_attempt_id w, pw_job_id w)) <$> filter open_phase l /\
  exists w, (pw_attempt_id w, pw_job_id w) = x /\ ~ P w.
Proof.
  intros Hx. apply (held_drop _ _ (fun w => P w /\ open_phase w)) in Hx as [Hin (w & <- & Hw & Hn)].
  - split; [done|]. exists w. tauto.
  - intros w Hw. unfold open_phase in Hw. cbn in Hw. enum_solve.
Qed.

(** What ends with an attempt: its meter, its reservation, and its open phases
    (given as [P]) are gone. *)
Definition without (id : uuid) (d d' : db) : Prop := forall x, x ∈ held d' -> x ∈ held d /\ x.1 <> id.

Lemma without_intro id d d' reason t :
  attempt_usages d' = update_where (active_usage id) (settle_row t reason) (attempt_usages d) ->
  resource_reservations d' = resource_reservations (releaseResourceReservation id reason t d) ->
  (forall x, x ∈ pending d' -> x ∈ pending d /\ x.1 <> id) -> without id d d'.
Proof.
  intros Hu Hr Hp x [Hx|[Hx|Hx]]%elem_of_held; rewrite elem_of_held.
  - unfold reserved in Hx. rewrite Hr in Hx. cbn in Hx.
    apply (released_reserved (fun r => rv_attempt_id r = id)) in Hx as [Hin (r & <- & Hn)]; auto.
  - unfold metered in Hx. rewrite Hu in Hx. apply settled_metered in Hx as [Hin Hn]. auto.
  - destruct (Hp x Hx). auto.
Qed.

Lemma cancel_without id reason t d x :
  x ∈ pending (cancelPhaseWorkItems id reason t d) -> x ∈ pending d /\ x.1 <> id.
Proof.
  unfold pending. cbn. intros Hx. apply (canceled_pending (fun w => pw_attempt_id w = id)) in Hx as [Hin (w & <- & Hn)].
  auto.
Qed.

(** ** The invariant and its simulation *)
Record job_inv (d : db) : Prop := {
  ji_fence : fenced_ok (view d);
  ji_plans : plans_ok (phase_work_items d)
}.

(** [d'] follows from [d] by steps of the protocol, with its plans in shape, and
    the jobs of [P] stay sound. *)
Definition implements_for (P : uuid -> Prop) (d d' : db) : Prop :=
  rtc fence_step (view d) (view d') /\ plans_ok (phase_work_items d') /\
  forall K, P K -> sound K (view d) -> sound K (view d').
Definition implements : db -> db -> Prop := implements_for (fun _ => True).

Lemma implements_inv {P} d d' : job_inv d -> implements_for P d d' -> job_inv d'.
Proof.
  intros [Hf _] (Hs & Hp & _). split; [|done]. clear Hp. revert Hf.
  induction Hs as [|S S' S'' H _ IH]; [done|]. intros Hf. by apply IH, (fence_step_ok S).
Qed.

Lemma implements_for_trans P d1 d2 d3 : implements_for P d1 d2 -> implements_for P d2 d3 -> implements_for P d1 d3.
Proof. intros (H1 & _ & G1) (H2 & H3 & G2). split_and!; [by etrans|done|auto]. Qed.
Lemma implements_trans d1 d2 d3 : implements d1 d2 -> implements d2 d3 -> implements d1 d3.
Proof. apply implements_for_trans. Qed.

Lemma implements_weaken P d d' : implements d d' -> implements_for P d d'.
Proof. intros (H1 & H2 & H3). split_and!; auto. Qed.

Lemma implements_for_step P d d' : fence_step (view d) (view d') -> plans_ok (phase_work_items d') ->
  (forall K, P K -> sound K (view d) -> sound K (view d')) -> implements_for P d d'.
Proof. intros H Hp Hs. split_and!; [by apply rtc_once|done|done]. Qed.
Lemma implements_step d d' : fence_step (view d) (view d') -> plans_ok (phase_work_items d') ->
  (forall K, sound K (view d) -> sound K (view d')) -> implements d d'.
Proof. intros H Hp Hs. apply implements_for_step; auto. Qed.

Lemma implements_idle d d' : job_inv d ->
  akey <$> build_attempts d' = akey <$> build_attempts d ->
  lkey <$> worker_leases d' = lkey <$> worker_leases d ->
  jkey <$> build_jobs d' = jkey <$> build_jobs d -> held d' ⊆ held d ->
  plans_ok (phase_work_items d') -> implements d d'.
Proof.
  intros _ Ha Hl Hj Hh Hp. apply implements_step; [|done|]; unfold view; rewrite Ha, Hl, Hj.
  - by apply (fs_idle (view d)).
  - intros K. apply (sound_idle K (view d)).
Qed.

Lemma implements_same d d' : job_inv d -> view d' = view d -> phase_work_items d' = phase_work_items d ->
  implements d d'.
Proof.
  intros [_ Hp] Hv Hi. split_and!; [by rewrite Hv|by rewrite Hi|by rewrite Hv].
Qed.

Lemma job_ids d : job_inv d -> NoDup (j_id <$> build_jobs d).
Proof. intros [H _]. pose proof (fo_jobs _ H) as Hnd. cbn in Hnd. by rewrite <- list_fmap_compose in Hnd. Qed.
Lemma attempt_ids d : job_inv d -> NoDup (a_id <$> build_attempts d).
Proof. intros [H _]. pose proof (fo_ids _ H) as Hnd. cbn in Hnd. by rewrite <- list_fmap_compose in Hnd. Qed.
Lemma lease_ids d : job_inv d -> NoDup (wl_id <$> worker_leases d).
Proof. intros [H _]. pose proof (fo_lease_ids _ H) as Hnd. cbn in Hnd. by rewrite <- list_fmap_compose in Hnd. Qed.
Lemma lease_attempts d : job_inv d -> NoDup (wl_attempt_id <$> worker_leases d).
Proof. intros [H _]. pose proof (fo_lease_attempts _ H) as Hnd. cbn in Hnd. by rewrite <- list_fmap_compose in Hnd. Qed.

(** ** Transitions *)
Lemma record_attempt_terminal newID current t d d' : bs_attempt_id current <> "" -> terminal (bs_status current) ->
  recordAttemptTransitionTx newID current t d = Ok d' ->
  akey <$> build_attempts d' = akey <$> build_attempts d /\
  worker_leases d' = delete_where (fun l => wl_attempt_id l = bs_attempt_id current) (worker_leases d) /\
  jkey <$> build_jobs d' = jkey <$> build_jobs d /\ without (bs_attempt_id current) d d' /\
  exists reason, phase_work_items d' = phase_work_items (cancelPhaseWorkItems (bs_attempt_id current) reason t d).
Proof.
  intros Hid Hterm. unfold recordAttemptTransitionTx. rewrite decide_False by done. intros H. inv_ok_step H.
  unfold isLedgerTerminal in H. rewrite bool_decide_true in H by done. inv_ok_step H. simplify_eq.
  destruct (settleAttemptUsage _ _ _ _ _) as [d1|] eqn:Hs; [|done]. simplify_eq/=.
  pose proof (settle_usages _ _ _ _ _ _ Hs) as Hu. apply settle_effect in Hs as (Ha & Hl & Hr & Hp & Hj).
  cbn in *. rewrite Ha, Hl, Hj. split_and!; [by apply update_where_map|done|done| |].
  - eapply without_intro; [exact Hu|cbn; by rewrite Hr|]. intros x Hx. unfold pending in Hx |- *. cbn in Hx.
    rewrite Hp in Hx. exact (cancel_without _ _ t d x Hx).
  - eexists. by rewrite Hp.
Qed.

Lemma reservation_phase_effect id state t d d' : updateResourceReservationPhase id state t d = Ok d' ->
  exists l, d' = d <| resource_reservations := l |> /\ reserved d' ⊆ reserved d.
Proof.
  unfold updateResourceReservationPhase. intros H.
  assert (forall d, d = d <| resource_reservations := resource_reservations d |>) as Heta by (by intros []).
  destruct (reservationPhase state) as [phase|]; [|simplify_eq; eexists; split; [apply Heta|done]].
  destruct (attempt_reservation id d) as [r|]; [|done]. destruct (first_where _ _) as [p|]; [|done].
  case_decide; [simplify_eq; eexists; split; [apply Heta|done]|]. inv_ok H. subst d'.
  eexists. split; [done|]. unfold reserved. cbn. apply held_sub. cbn. naive_solver.
Qed.

Lemma record_attempt_moves newID current t d d' : bs_attempt_id current <> "" -> ~ terminal (bs_status current) ->
  recordAttemptTransitionTx newID current t d = Ok d' ->
  akey <$> build_attempts d' = akey <$> build_attempts d /\ worker_leases d' = worker_leases d /\
  jkey <$> build_jobs d' = jkey <$> build_jobs d /\ held d' ⊆ held d /\
  phase_work_items d' = phase_work_items d.
Proof.
  intros Hid Hterm. unfold recordAttemptTransitionTx. rewrite decide_False by done. intros H. inv_ok_step H.
  unfold isLedgerTerminal in H. rewrite bool_decide_false in H by done. cbv zeta in H.
  apply reservation_phase_effect in H as (l & -> & Hres). cbn.
  assert (forall e, e = (if decide (reservationPhase (bs_status current) = Some (RPhase Provision))
    then markAttemptCloudStarted (bs_attempt_id current) t d else d) -> metered e ⊆ metered d) as Hm.
  { intros e ->. case_decide; [|done]. unfold metered. cbn. apply held_sub. cbn. unfold active_usage. naive_solver. }
  case_decide; cbn in *; (split_and!; [by apply update_where_map|done|done| |done]); apply held_subset;
    [exact Hres|exact (Hm _ eq_refl)|done|exact Hres|done|done].
Qed.

(** The attempt holds the lease of the job. *)
Definition holds_lease (id J : uuid) (d : db) : Prop :=
  exists l, l ∈ f_leases (view d) /\ lk_attempt l = id /\ of_job J (view d) l.

Lemma holds_lease_intro id J d a l : a ∈ build_attempts d -> a_id a = id -> a_job_id a = J ->
  l ∈ worker_leases d -> wl_attempt_id l = id -> holds_lease id J d.
Proof.
  intros Ha Hid HJ Hl Hlid. exists (lkey l). split_and!; [by apply list_elem_of_fmap_2|done|].
  apply elem_of_job. exists (akey a). split_and!; [by apply list_elem_of_fmap_2|done|]. cbn. congruence.
Qed.

(** Some attempt of the job has a lease. *)
Definition claimed (J : uuid) (d : db) : Prop := Exists (of_job J (view d)) (f_leases (view d)).

Lemma unclaimed J d : ~ claimed J d -> forall l, l ∈ f_leases (view d) -> ~ of_job J (view d) l.
Proof. intros Hn l Hl Hof. apply Hn, Exists_exists. eauto. Qed.

Lemma upsert_implements newID status d d' j : job_inv d ->
  upsertAttemptSnapshot newID status d = Ok d' -> j ∈ build_jobs d -> j_id j = bs_job_id status ->
  j_state j = bs_status status -> bs_status status <> "queued" -> implements d d'.
Proof.
  intros Hi H Hj Hid Hst Hq. unfold upsertAttemptSnapshot in H. cbv zeta in H.
  destruct (first_where _ _) as [a|] eqn:Hf.
  - simplify_eq. apply implements_idle; cbn; try done; [|apply Hi]. by apply update_where_map.
  - inv_ok H. subst d'.
    assert (mkJobKey (bs_job_id status) (j_state j) (j_max_attempts j) ∈ f_jobs (view d)) as H1.
    { apply list_elem_of_fmap. exists j. split; [|done]. unfold jkey, bs_job_id in *. by rewrite Hid. }
    assert (attempts_of (bs_job_id status) (view d) = []) as H2.
    { apply attempts_unnumbered; [apply Hi|]. intros k Hk HJ Hno.
      apply list_elem_of_fmap in Hk as (a & -> & Ha). by apply (first_where_none _ _ Hf a Ha). }
    assert (newID ∉ ak_id <$> f_attempts (view d)) as H3.
    { intros Hin. apply Hc. apply Exists_exists.
      apply list_elem_of_fmap in Hin as (k & Hk & (a & -> & Ha)%list_elem_of_fmap). exists a. auto. }
    apply implements_step; [|apply Hi|]; unfold view, held; cbn; rewrite fmap_app.
    + apply (fs_record (view d) _ (j_state j) (j_max_attempts j)); [done|congruence|done|done].
    + intros K HK. apply (sound_record K (view d) _ (j_state j) (j_max_attempts j)); [apply Hi|done|done|congruence|done|done].
Qed.

(** Ending an attempt that holds the job. *)
Lemma implements_end d d' J s id : job_inv d -> holds_lease id J d ->
  (sound J (view d) -> s = "queued" -> forall j, j ∈ f_jobs (view d) -> jk_id j = J -> attempt_count J (view d) < jk_max j) ->
  akey <$> build_attempts d' = akey <$> build_attempts d ->
  lkey <$> worker_leases d' = filter (fun l => lk_attempt l <> id) (lkey <$> worker_leases d) ->
  jkey <$> build_jobs d' = set_job J s (jkey <$> build_jobs d) -> without id d d' ->
  plans_ok (phase_work_items d') -> implements d d'.
Proof.
  intros [Hi _] Hl Hq Ha HL Hj Hw Hp. apply implements_step; [|done|]; unfold view; rewrite Ha, HL, Hj.
  - by apply (fs_end (view d) J s id).
  - intros K HK. apply (sound_end K (view d)); [done|done|done|]. intros ->. by apply Hq.
Qed.

Lemma plans_cancel_attempt id reason t d : plans_ok (phase_work_items d) ->
  plans_ok (phase_work_items (cancelPhaseWorkItems id reason t d)).
Proof. intros H. cbn. apply plans_cancel; [done|done|]. intros w x _ _ ->. done. Qed.

Section job_system.
Context (MarshalStatus : JobStatus -> list ascii) (MarshalRequest : BuildRequest -> list ascii)
        (uuid_Parse : string -> bool).

(** A transition that does not fit the claims on the job: it queues a job that
    somebody has claimed or that has no attempts left, or ends a job without the
    claim somebody has.  The ledger records it like any other. *)
Definition out_of_turn (current : BuildStatus) (d : db) : Prop :=
  let J := bs_job_id current in
  exists_row (fun j => j_id j = J /\ j_state j <> bs_status current) (build_jobs d) /\
  ((bs_attempt_id current = "" /\ claimed J d /\ (bs_status current = "queued" \/ terminal (bs_status current))) \/
   (bs_status current = "queued" /\
    (bs_attempt_id current <> "" \/
     exists_row (fun j => j_id j = J /\ j_max_attempts j <= attempt_count J (view d)) (build_jobs d)))).
#[export] Instance out_of_turn_dec current d : Decision (out_of_turn current d).
Proof. unfold out_of_turn, claimed. apply _. Defined.

Lemma validate_claim_lease current now d : bs_attempt_id current <> "" ->
  validateTransitionClaim current now d = Ok tt -> holds_lease (bs_attempt_id current) (bs_job_id current) d.
Proof.
  intros Hid. unfold validateTransitionClaim, transition_claim. rewrite decide_False by done.
  destruct (first_where _ (build_attempts d)) as [a|] eqn:Ha; [|done].
  destruct (first_where _ (worker_leases d)) as [l|] eqn:Hl; [|done]. intros _.
  apply first_where_some in Ha as (Ha & Haid & HaJ), Hl as (Hl & Hlid).
  by apply (holds_lease_intro _ _ _ a l).
Qed.

Lemma elem_of_set_jobs J s f l j : (forall j, jkey (f j) = mkJobKey (j_id j) s (j_max_attempts j)) ->
  j ∈ l -> j_id j = J -> f j ∈ update_where (fun j => j_id j = J) f l.
Proof. intros Hf Hj HJ. apply elem_of_update_where. eauto. Qed.

(** The state is assigned, and the leases stay. *)
Lemma set_job_same J s d : ~ exists_row (fun j => j_id j = J /\ j_state j <> s) (build_jobs d) ->
  set_job J s (f_jobs (view d)) = f_jobs (view d).
Proof.
  intros Hn. unfold set_job, update_where. cbn. rewrite <- list_fmap_compose. apply list_fmap_ext. intros i j Hj. cbn.
  case_decide as HJ; [|done]. apply list_elem_of_lookup_2 in Hj. unfold jkey. f_equal.
  destruct (decide (s = j_state j)) as [|Hne]; [done|]. exfalso. apply Hn, Exists_exists. exists j. auto.
Qed.

Lemma sound_assign K d current held : sound K (view d) -> bs_attempt_id current = "" \/ ~ terminal (bs_status current) ->
  (K = bs_job_id current -> ~ out_of_turn current d) ->
  sound K (mkFenceState (f_attempts (view d)) (f_leases (view d))
    (set_job (bs_job_id current) (bs_status current) (f_jobs (view d))) held).
Proof.
  intros Hs Hc Hok.
  destruct (decide (exists_row (fun j => j_id j = bs_job_id current /\ j_state j <> bs_status current) (build_jobs d))) as [Hch|Hch].
  2:{ rewrite set_job_same by done. by apply sound_idle. }
  apply sound_set; [done|done| |].
  - intros HK. specialize (Hok HK). unfold out_of_turn in Hok.
    destruct (decide (claimed (bs_job_id current) d)) as [Hcl|Hcl]; [|left; by apply unclaimed].
    right. destruct (decide (bs_attempt_id current = "")); tauto.
  - intros HK Hq k Hk HkJ. apply list_elem_of_fmap in Hk as (i & -> & Hin). cbn in *. apply Z.nle_gt. intros Hle.
    apply Hok; [done|]. split; [done|]. right. split; [done|]. right. apply Exists_exists. eauto.
Qed.

Lemma transition_implements newID previous current source clk d d' : job_inv d ->
  recordTransition MarshalStatus newID previous current source clk d = Ok d' ->
  implements_for (fun K => K = bs_job_id current -> ~ out_of_turn current d) d d'.
Proof.
  intros Hi H. unfold recordTransition in H. cbv zeta in H.
  destruct (first_where _ (build_jobs d)) as [j|] eqn:Hj; [|done].
  apply first_where_some in Hj as (Hj & HjJ & _).
  case_decide; [simplify_eq; by apply implements_weaken, implements_same|]. inv_ok_step H. inv_ok_step H.
  set (f := fun x : build_job => _ : build_job) in H. set (d1 := _ : db) in H. inv_ok H. subst d'. rename a into a0. change (implements_for (fun K => K = bs_job_id current -> ~ out_of_turn current d) d a0).
  assert (forall x, jkey (f x) = mkJobKey (j_id x) (bs_status current) (j_max_attempts x)) as Hf by done.
  assert (view d1 = mkFenceState (f_attempts (view d)) (f_leases (view d)) (set_job (bs_job_id current) (bs_status current) (f_jobs (view d)))
    (f_held (view d))) as Hv1.
  { subst d1. unfold view. cbn. by rewrite (jkeys_set _ _ f _ Hf). }
  destruct (decide (bs_attempt_id current = "")) as [Hid|Hid].
  - assert (implements_for (fun K => K = bs_job_id current -> ~ out_of_turn current d) d d1) as H1.
    { apply implements_for_step; [|apply Hi|]; rewrite Hv1; [by apply (fs_assign (view d))|].
      intros K HK Hs. apply sound_assign; auto. }
    unfold recordAttemptTransitionTx in E0. rewrite decide_True in E0 by done.
    case_decide as Hs; [by simplify_eq|]. eapply implements_for_trans; [exact H1|]. apply implements_weaken.
    eapply (upsert_implements newID current d1 a0 (f j)); [by eapply implements_inv|done| |done|done|done].
    by apply (elem_of_set_jobs _ (bs_status current)).
  - apply validate_claim_lease in E; [|done].
    destruct (decide (terminal (bs_status current))) as [Ht|Ht].
    + apply record_attempt_terminal in E0 as (Ha & Hl & Hjk & Hw & reason & Hp); [|done|done].
      apply implements_weaken. eapply (implements_end d a0 _ (bs_status current)); [done|exact E| |done| |..].
      * intros _ Hq. rewrite Hq in Ht. unfold terminal in Ht. enum_solve.
      * rewrite Hl. by apply lkeys_filter.
      * rewrite Hjk. by apply jkeys_set.
      * done.
      * rewrite Hp. apply plans_cancel_attempt, Hi.
    + apply record_attempt_moves in E0 as (Ha & Hl & Hjk & Hh & Hp); [|done|done].
      apply implements_for_step; [|rewrite Hp; apply Hi|]; unfold view; rewrite Ha, Hl, Hjk; cbn; rewrite (jkeys_set _ _ f _ Hf).
      * by apply (fs_assign (view d)).
      * intros K HK Hs. apply (sound_assign K d); auto.
Qed.

(** ** Submission, retention and operator actions *)
Lemma create_implements newID req status source clk local r d d' : job_inv d ->
  createJob MarshalStatus MarshalRequest newID req status source clk local d = Ok (r, d') -> implements d d'.
Proof.
  intros Hi H. unfold createJob in H. destruct req as [req|]; [|done]. do 3 inv_ok_step H.
  destruct a1 as [x|]; [simplify_eq; by apply implements_same|]. cbv zeta in H.
  set (j := new_job _ _ _ _ _ _ _ _) in H.
  case_decide; [destruct (load_keyed _ _ _ _) as [[x|]|]; simplify_eq; by apply implements_same|].
  inv_ok_step H. set (d1 := d <| build_jobs := build_jobs d ++ [j] |>) in H. inv_ok_step H. injection H as <- <-.
  change (implements d a1).
  assert (implements d d1) as H1.
  { assert (j_id j ∉ jk_id <$> f_jobs (view d)) as Hnew.
    { intros Hin. apply Hc. apply Exists_exists.
      apply list_elem_of_fmap in Hin as (k & Hk & (x & -> & Hx)%list_elem_of_fmap). exists x. auto. }
    apply implements_step; [|apply Hi|]; unfold view, held; cbn; rewrite fmap_app; [by apply (fs_create (view d))|].
    intros K HK. apply (sound_create K (view d)); [apply Hi|done|done|done]. }
  case_decide as Hq; [by simplify_eq|]. eapply implements_trans; [exact H1|].
  eapply (upsert_implements newID status d1 a1 j); [by eapply implements_inv|done|set_solver|done..].
Qed.

Lemma hide_implements jobID reason now d d' : job_inv d -> HideJob jobID reason now d = Ok d' -> implements d d'.
Proof.
  intros Hi H. unfold HideJob in H. inv_ok H. subst d'. apply implements_idle; try done; [|apply Hi].
  by apply update_where_map.
Qed.

Lemma foldl_events jobs eventType payload d :
  view (foldl (fun d jobID => insertJobEvent jobID eventType payload d) d jobs) = view d /\
  phase_work_items (foldl (fun d jobID => insertJobEvent jobID eventType payload d) d jobs) = phase_work_items d.
Proof. revert d. induction jobs as [|J jobs IH]; intros d; [done|]. cbn. by destruct (IH (insertJobEvent J eventType payload d)). Qed.

Lemma expire_batch_same before locked d :
  view (expire_batch before locked d).2 = view d /\
  phase_work_items (expire_batch before locked d).2 = phase_work_items d.
Proof.
  unfold expire_batch. cbn [snd]. rewrite !(proj1 (foldl_events _ _ _ _)), !(proj2 (foldl_events _ _ _ _)).
  split; [|done]. unfold view. f_equal. by apply update_where_map.
Qed.

Lemma expire_implements fuel before locked d n d' : job_inv d ->
  ExpireTerminal fuel before locked d = Some (n, d') -> implements d d'.
Proof.
  revert d n. induction fuel as [|fuel IH]; intros d n Hi H; [done|]. cbn [ExpireTerminal] in H.
  destruct (expire_batch before locked d) as [expired d1] eqn:He.
  assert (implements d d1) as H1.
  { destruct (expire_batch_same before locked d) as [Hv Hp]. rewrite He in Hv, Hp. by apply implements_same. }
  case_decide; [by simplify_eq|].
  destruct (ExpireTerminal fuel before locked d1) as [[m d2]|] eqn:Hr; [|done]. injection H as <- <-.
  eapply implements_trans; [exact H1|]. eapply IH; [by eapply implements_inv|done].
Qed.

Lemma prune_implements fuel before locked d n d' : job_inv d ->
  PruneStaleWorkers fuel before locked d = Some (n, d') -> implements d d'.
Proof.
  revert d n. induction fuel as [|fuel IH]; intros d n Hi H; [done|]. cbn [PruneStaleWorkers] in H.
  destruct (prune_batch before locked d) as [[selected pruned] d1] eqn:He.
  assert (implements d d1) as H1.
  { unfold prune_batch in He. injection He as _ _ <-. apply implements_same; [done| |done].
    unfold view. f_equal. cbn. by apply update_where_map. }
  case_decide; [by simplify_eq|].
  destruct (PruneStaleWorkers fuel before locked d1) as [[m d2]|] eqn:Hr; [|done]. injection H as <- <-.
  eapply implements_trans; [exact H1|]. eapply IH; [by eapply implements_inv|done].
Qed.

Lemma retry_implements jobID clk status d d' : job_inv d ->
  RetryJob MarshalStatus jobID clk d = Ok (status, d') -> implements d d'.
Proof.
  intros Hi H. unfold RetryJob in H. destruct (first_where _ _) as [j|] eqn:Hj; [|done].
  apply first_where_some in Hj as (Hj & HjJ & _). inv_ok H. simplify_eq.
  apply implements_step; [|apply Hi|]; unfold view; cbn; rewrite (jkeys_set _ "queued") by done; [by apply (fs_assign (view d))|].
  intros K HK. apply (sound_set K (view d)); [done|done| |].
  - intros ->. left. apply (unleased (view d) (j_id j) (jkey j)); [done|by apply list_elem_of_fmap_2|done|].
    right. cbn. unfold terminal. destruct Hc as [-> | ->]; enum_solve.
  - intros _ _ k (i & -> & Hin)%list_elem_of_fmap Hk. cbn in *.
    assert (i = j) as -> by (by apply (key_unique j_id (build_jobs d)); [apply job_ids|..]).
    eapply Z.le_lt_trans; [|exact Hc0]. unfold attempt_count, attempts_of, count_where. cbn.
    apply Nat2Z.inj_le. clear. induction (build_attempts d) as [|a l IH]; [done|].
    rewrite fmap_cons, !filter_cons. repeat case_decide; cbn in *; (lia || tauto).
Qed.

Lemma settle_all_effect ids reason state t d d' : settle_all ids reason state t d = Ok d' ->
  build_attempts d' = build_attempts d /\ worker_leases d' = worker_leases d /\
  resource_reservations d' = resource_reservations d /\ phase_work_items d' = phase_work_items d /\
  jkey <$> build_jobs d' = jkey <$> build_jobs d /\
  forall u, u ∈ attempt_usages d' -> us_state u = UActive -> u ∈ attempt_usages d /\ us_attempt_id u ∉ ids.
Proof.
  revert d. induction ids as [|id ids IH]; intros d H; cbn [settle_all] in H.
  - simplify_eq. split_and!; try done. intros u Hu _. split; [done|]. apply not_elem_of_nil.
  - destruct (settleAttemptUsage id reason state t d) as [d1|] eqn:Hs; [|done].
    apply IH in H as (H1 & H2 & H3 & H4 & H5 & H6).
    pose proof (settle_usages _ _ _ _ _ _ Hs) as Hu. apply settle_effect in Hs as (G1 & G2 & G3 & G4 & G5).
    split_and!; [congruence..|]. intros u Hin Hact. destruct (H6 u Hin Hact) as [Hin1 Hn].
    rewrite Hu in Hin1. apply elem_of_update_where in Hin1 as (x & Hx & [[_ ->]|[Hx' ->]]); [done|].
    split; [done|]. intros [Heq|Hx2]%elem_of_cons; [|done]. by apply Hx'.
Qed.

Lemma revoke_job_same J reason t d :
  view (revokeWorkerGatewayJob J reason t d) = view d /\
  phase_work_items (revokeWorkerGatewayJob J reason t d) = phase_work_items d.
Proof.
  unfold revokeWorkerGatewayJob. generalize (a_id <$> filter (fun a => a_job_id a = J) (build_attempts d)) as ids.
  intros ids. revert d. induction ids as [|id ids IH]; intros d; [done|]. cbn [foldl].
  by destruct (IH (revokeWorkerGatewayAttempt id reason t d)).
Qed.

(** Ending everything a job holds. *)
Lemma implements_free d d' J s : job_inv d -> s <> "queued" ->
  akey <$> build_attempts d' = akey <$> build_attempts d ->
  lkey <$> worker_leases d' = filter (fun l => ~ of_job J (view d) l) (lkey <$> worker_leases d) ->
  jkey <$> build_jobs d' = set_job J s (jkey <$> build_jobs d) ->
  (forall x, x ∈ held d' -> x ∈ held d /\ x.2 <> J) ->
  plans_ok (phase_work_items d') -> implements d d'.
Proof.
  intros [Hi _] Hs Ha HL Hj Hw Hp. apply implements_step; [|done|]; unfold view; rewrite Ha, HL, Hj.
  - by apply (fs_free (view d)).
  - intros K HK. by apply (sound_free K (view d)).
Qed.

Lemma of_job_row J d l : of_job J (view d) (lkey l) <-> wl_attempt_id l ∈ job_attempts J d.
Proof.
  rewrite elem_of_job. unfold job_attempts. rewrite list_elem_of_fmap. split.
  - intros (k & (a & -> & Ha)%list_elem_of_fmap & HJ & Hid). exists a. by rewrite list_elem_of_filter.
  - intros (a & Hid & [HJ Ha]%list_elem_of_filter). exists (akey a).
    split_and!; [by apply list_elem_of_fmap_2|done|done].
Qed.

Lemma cancel_attempts_of J K (P : build_attempt -> Prop) `{HdP : !forall x, Decision (P x)} f l :
  (forall a, a_id (f a) = a_id a /\ a_job_id (f a) = a_job_id a) ->
  K ∈ a_id <$> filter (fun a => a_job_id a = J) (update_where P f l) <->
  K ∈ a_id <$> filter (fun a => a_job_id a = J) l.
Proof.
  intros Hf. assert (forall g (l : list build_attempt), (forall a : build_attempt, a_id (g a) = a_id a /\ a_job_id (g a) = a_job_id a) ->
    a_id <$> filter (fun a => a_job_id a = J) (g <$> l) = a_id <$> filter (fun a => a_job_id a = J) l) as Hg.
  { intros g k Hg. induction k as [|a k IH]; [done|]. rewrite fmap_cons, !filter_cons.
    destruct (Hg a) as [Hi Hj]. rewrite Hj. case_decide; cbn; by rewrite ?Hi, IH. }
  unfold update_where. rewrite Hg; [done|]. intros a. by case_decide.
Qed.

Lemma cancel_implements jobID reason now status d d' : job_inv d ->
  CancelJob MarshalStatus jobID reason now d = Ok (status, d') -> implements d d'.
Proof.
  intros Hi H. unfold CancelJob in H. destruct (first_where _ _) as [j|] eqn:Hj; [|done].
  inv_ok_step H. cbv beta zeta in H. inv_ok_step H. injection H as _ <-.
  unfold budget, settleJobAttemptUsage in E. destruct (settle_all _ _ _ _ _) as [d1|] eqn:Hs; [|done]. injection E as <-.
  apply settle_all_effect in Hs as (H1 & H2 & H3 & H4 & H5 & H6). cbn in H1, H2, H3, H4, H5, H6.
  match goal with |- implements d (insertJobEvent _ _ _ (revokeWorkerGatewayJob ?J ?r ?t ?e)) =>
    destruct (revoke_job_same J r t e) as [Hv Hp]; set (d2 := e) in *; set (d3 := revokeWorkerGatewayJob J r t d2) in *
  end.
  change (implements d d3). assert (implements d d2) as H2'.
  { apply (implements_free d d2 jobID "canceled"); [done|done|..].
    - cbn. rewrite H1. by apply update_where_map.
    - cbn. rewrite H2. apply lkeys_filter. intros l _. rewrite of_job_row. unfold job_attempts. cbn. rewrite H1.
      by rewrite cancel_attempts_of.
    - cbn. rewrite H5. by apply jkeys_set.
    - intros x [Hx|[Hx|Hx]]%elem_of_held; rewrite elem_of_held; unfold reserved, metered, pending in Hx; cbn in Hx.
      + rewrite H3 in Hx.
        apply (released_reserved (fun r => rv_job_id r = jobID)) in Hx as [Hin (r & <- & Hn)]; auto.
      + apply list_elem_of_fmap in Hx as (u & -> & [Hact Hu]%list_elem_of_filter).
        destruct (H6 u Hu Hact) as [Hin Hn]. split.
        * right; left. apply list_elem_of_fmap. exists u. split; [done|]. by apply list_elem_of_filter.
        * cbn. intros HJ. apply Hn. apply list_elem_of_fmap_2, elem_of_sort_by, list_elem_of_filter. done.
      + rewrite H4 in Hx. apply (canceled_pending (fun w => pw_job_id w = jobID)) in Hx as [Hin (w & <- & Hn)]; auto.
    - cbn. rewrite H4. apply plans_cancel; [apply Hi|done|]. intros w x Hw Hx HA.
      by rewrite (po_job _ (ji_plans d Hi) w x). }
  eapply implements_trans; [exact H2'|]. by apply implements_same; [eapply implements_inv|..].
Qed.

(** ** Recovery of expired leases *)

(** The row still describes a lease, its attempt and its job. *)
Definition justified (row : expiredLeaseRow) (d : db) : Prop :=
  (exists f, mkLeaseKey (el_lease_id row) (el_attempt_id row) f ∈ f_leases (view d)) /\
  (exists f, mkAttemptKey (el_attempt_id row) (el_job_id row) (el_attempt_no row) f ∈ f_attempts (view d)) /\
  (exists s, mkJobKey (el_job_id row) s (el_max_attempts row) ∈ f_jobs (view d)).

Lemma expired_row_justified now d l row : l ∈ worker_leases d -> expired_row now d l = Some row ->
  justified row d /\ el_lease_id row = wl_id l.
Proof.
  intros Hl. unfold expired_row. case_decide; [|done].
  destruct (first_where _ (build_attempts d)) as [a|] eqn:Ha; [|done].
  destruct (first_where _ (build_jobs d)) as [j|] eqn:Hj; [|done]. intros [= <-].
  apply first_where_some in Ha as (Ha & Haid), Hj as (Hj & HjJ & _). split; [|done]. split_and!; cbn.
  - exists (wl_fence_token l). rewrite Haid. by apply (list_elem_of_fmap_2 lkey).
  - exists (a_fence_token a). by apply (list_elem_of_fmap_2 akey).
  - exists (j_state j). rewrite <- HjJ. by apply (list_elem_of_fmap_2 jkey).
Qed.

Lemma justified_holds row d : justified row d -> holds_lease (el_attempt_id row) (el_job_id row) d.
Proof.
  intros ((f & Hl) & (g & Ha) & _). eexists. split_and!; [exact Hl|done|]. apply elem_of_job. eexists.
  split_and!; [exact Ha|done|done].
Qed.

(** The lease of the row is the lease of its attempt. *)
Lemma justified_lease row d k : job_inv d -> justified row d -> k ∈ f_leases (view d) ->
  (lk_id k = el_lease_id row <-> lk_attempt k = el_attempt_id row).
Proof.
  intros [Hi _] ((f & Hl) & _) Hk. split; intros Heq.
  - by rewrite (key_unique lk_id _ k _ (fo_lease_ids _ Hi) Hk Hl Heq).
  - by rewrite (key_unique lk_attempt _ k _ (fo_lease_attempts _ Hi) Hk Hl Heq).
Qed.

(** A retry is left when the outcome is to queue a sound job again. *)
Lemma requeue_has_attempts row d : job_inv d -> justified row d -> sound (el_job_id row) (view d) ->
  (expiredLeaseOutcome row).1 = "queued" ->
  forall j, j ∈ f_jobs (view d) -> jk_id j = el_job_id row -> attempt_count (el_job_id row) (view d) < jk_max j.
Proof.
  intros [Hi _] Hrow Hs Hq j Hj HJ. destruct (justified_holds row d Hrow) as (l & Hl & Hla & HlJ).
  destruct (so_newest _ _ Hs l Hl HlJ) as (a & [_ Ha]%elem_of_attempts_of & Hid & Hno).
  destruct Hrow as (_ & (g & Hb) & (s & Hjob)). rewrite <- Hno.
  rewrite (same_id _ _ _ Hi Ha Hb) by (cbn; congruence).
  rewrite (key_unique jk_id _ j _ (fo_jobs _ Hi) Hj Hjob HJ). cbn.
  unfold expiredLeaseOutcome in Hq. repeat case_decide; try done. lia.
Qed.

(** What the recovery of one lease does. *)
Lemma recover_effect row t clk d t' d' : job_inv d -> justified row d ->
  recoverExpiredLease MarshalStatus row t clk d = Ok (t', d') ->
  implements d d' /\ f_attempts (view d') = f_attempts (view d) /\
  f_leases (view d') = filter (fun l => lk_attempt l <> el_attempt_id row) (f_leases (view d)) /\
  exists s, f_jobs (view d') = set_job (el_job_id row) s (f_jobs (view d)).
Proof.
  intros Hi Hrow. unfold recoverExpiredLease. pose proof (requeue_has_attempts row d Hi Hrow) as Hq.
  destruct (expiredLeaseOutcome row) as [state reason]. cbn [fst] in Hq. intros H. cbv beta zeta in H.
  inv_ok_step H. unfold budget in E. destruct (settleAttemptUsage _ _ _ _ _) as [d1|] eqn:Hs; [|done]. injection E as <-.
  inv_ok_step H. injection H as _ <-.
  pose proof (settle_usages _ _ _ _ _ _ Hs) as Hu. apply settle_effect in Hs as (Ha & Hl & Hr & Hp & Hj).
  cbn in Ha, Hl, Hr, Hp, Hj, Hu. set (d2 := insertJobEvent _ _ _ _).
  assert (akey <$> build_attempts d2 = akey <$> build_attempts d) as Ha2.
  { subst d2. cbn. rewrite Ha. by apply update_where_map. }
  assert (lkey <$> worker_leases d2 =
    filter (fun l => lk_attempt l <> el_attempt_id row) (lkey <$> worker_leases d)) as Hl2.
  { subst d2. cbn. rewrite Hl. apply lkeys_filter. intros l Hin. rewrite <- (justified_lease row d (lkey l)); [done|done|done|].
    by apply list_elem_of_fmap_2. }
  assert (jkey <$> build_jobs d2 = set_job (el_job_id row) state (jkey <$> build_jobs d)) as Hj2.
  { subst d2. cbn. rewrite <- Hj. by apply jkeys_set. }
  split_and!; [|done|done|by exists state].
  eapply (implements_end d d2 _ state (el_attempt_id row)); [done|by apply justified_holds|exact Hq|done|done|done|..].
  - eapply (without_intro _ _ _ "lease_expired" (clk 0%nat)); [exact Hu|subst d2; cbn; by rewrite Hr|].
    intros x Hx. unfold pending in Hx |- *. cbn in Hx. rewrite Hp in Hx. exact (cancel_without _ _ (clk 0%nat) d x Hx).
  - subst d2. cbn. rewrite Hp. apply (plans_cancel_attempt (el_attempt_id row) "lease_expired" (clk 0%nat) d), Hi.
Qed.

(** The rows still to be recovered stay justified. *)
Lemma recover_rest row rows t clk d t' d' : job_inv d -> (forall r, r ∈ row :: rows -> justified r d) ->
  NoDup (el_lease_id <$> row :: rows) -> recoverExpiredLease MarshalStatus row t clk d = Ok (t', d') ->
  implements d d' /\ (forall r, r ∈ rows -> justified r d') /\ NoDup (el_lease_id <$> rows).
Proof.
  intros Hi Hrows Hnd Hr.
  apply recover_effect in Hr as (H1 & Ha & Hl & (s & Hj)); [|done|apply Hrows; set_solver].
  apply NoDup_cons in Hnd as [Hnew Hnd]. split_and!; [done| |done]. intros row' Hrow'.
  destruct (Hrows row' ltac:(set_solver)) as ((f & Hf) & Hg & (s' & Hs')). split_and!.
  - exists f. rewrite Hl. apply list_elem_of_filter. split; [|done]. cbn. intros Heq. apply Hnew.
    rewrite <- (proj2 (justified_lease row d _ Hi (Hrows row ltac:(set_solver)) Hf) Heq).
    cbn. by apply list_elem_of_fmap_2.
  - by rewrite Ha.
  - rewrite Hj. destruct (decide (el_job_id row' = el_job_id row)) as [Heq|Hne].
    + exists s. apply elem_of_update_where. eexists. split; [exact Hs'|]. left. split; [done|done].
    + exists s'. apply elem_of_update_where. eexists. split; [exact Hs'|]. right. done.
Qed.

Lemma recover_all_implements rows t clk d t' d' : job_inv d -> (forall row, row ∈ rows -> justified row d) ->
  NoDup (el_lease_id <$> rows) ->
  recover_all MarshalStatus rows t clk d = Ok (t', d') -> implements d d'.
Proof.
  revert t clk d. induction rows as [|row rows IH]; intros t clk d Hi Hrows Hnd H; cbn [recover_all] in H.
  - simplify_eq. by apply implements_same.
  - destruct (recoverExpiredLease _ _ _ _ _) as [[t1 d1]|] eqn:Hr; [|done].
    destruct (recover_rest _ _ _ _ _ _ _ Hi Hrows Hnd Hr) as (H1 & Hrows' & Hnd').
    eapply implements_trans; [exact H1|]. eapply IH; [by eapply implements_inv|done..].
Qed.

Lemma expired_rows now d limit locked : job_inv d ->
  (forall row, row ∈ loadExpiredLeases limit locked now d -> justified row d) /\
  NoDup (el_lease_id <$> loadExpiredLeases limit locked now d).
Proof.
  intros Hi. unfold loadExpiredLeases.
  set (leases := filter _ (sort_by _ (worker_leases d))).
  assert (forall l, l ∈ leases -> l ∈ worker_leases d) as Hsub.
  { intros l [_ Hl]%list_elem_of_filter. by apply elem_of_sort_by in Hl. }
  assert (NoDup (wl_id <$> leases)) as Hnd.
  { eapply sublist_NoDup; [|apply fmap_sublist, sublist_filter]. rewrite (sort_by_perm _ (worker_leases d)).
    by apply lease_ids. }
  split.
  - intros row Hrow. assert (row ∈ omap (expired_row now d) leases) as Hin.
    { eapply elem_of_submseteq; [exact Hrow|]. apply sublist_submseteq, sublist_take. }
    apply list_elem_of_omap in Hin as (l & Hl & Hr). by apply (expired_row_justified now d l row (Hsub l Hl)).
  - eapply sublist_NoDup; [|apply fmap_sublist, sublist_take]. clear -Hsub Hnd.
    induction leases as [|l leases IH]; [constructor|]. rewrite fmap_cons in Hnd. apply NoDup_cons in Hnd as [Hl Hnd].
    specialize (IH ltac:(set_solver) Hnd). cbn. destruct (expired_row now d l) as [row|] eqn:Hr; [|done].
    rewrite fmap_cons. apply NoDup_cons. split; [|done]. intros (row' & Heq & Hin)%list_elem_of_fmap.
    apply list_elem_of_omap in Hin as (l' & Hl' & Hr').
    apply expired_row_justified in Hr as [_ Hr]; [|apply Hsub; set_solver].
    apply expired_row_justified in Hr' as [_ Hr']; [|apply Hsub; set_solver].
    apply Hl. rewrite <- Hr, Heq, Hr'. by apply list_elem_of_fmap_2.
Qed.

Lemma flush_same t clk d d' : flushLeaseExpiries t clk d = Ok d' ->
  view d' = view d /\ phase_work_items d' = phase_work_items d.
Proof.
  unfold flushLeaseExpiries. generalize (flush_keys t). intros keys. revert clk d.
  induction keys as [|key keys IH]; intros clk d H; cbn [flush_all] in H; [by simplify_eq|].
  inv_ok_step H. unfold recordLeaseExpiry in E. inv_ok E. subst a. apply IH in H as [-> ->]. done.
Qed.

Lemma recover_implements limit locked clk d n d' : job_inv d ->
  recoverExpiredTx MarshalStatus limit locked clk d = Ok (n, d') -> implements d d'.
Proof.
  intros Hi H. unfold recoverExpiredTx in H. cbv zeta in H.
  destruct (recover_all _ _ _ _ _) as [[t d1]|] eqn:Hr; [|done].
  destruct (flushLeaseExpiries _ _ _) as [d2|] eqn:Hf; [|done]. simplify_eq.
  destruct (expired_rows (clk 0%nat) d limit locked Hi) as [Hj Hnd].
  apply recover_all_implements in Hr; [|done..]. eapply implements_trans; [exact Hr|].
  apply flush_same in Hf as [Hv Hp]. apply implements_same; [by eapply implements_inv|done|done].
Qed.

(** ** Claims *)
Lemma register_same newID name caps now d id d' : register_worker newID name caps now d = Ok (id, d') ->
  view d' = view d /\ phase_work_items d' = phase_work_items d.
Proof.
  unfold register_worker. destruct (first_where _ _); intros H; [by simplify_eq|]. inv_ok H. by simplify_eq.
Qed.

Lemma fair_dispatch_same s kind queued now d r d' : recordFairDispatch s kind queued now d = Ok (r, d') ->
  view d' = view d /\ phase_work_items d' = phase_work_items d.
Proof.
  unfold recordFairDispatch. cbv beta zeta. destruct (first_where _ (project_policies d)); [|by case_decide].
  repeat case_decide; try done; (destruct (first_where _ (scheduler_fairness d)); [|done]); intros; by simplify_eq.
Qed.

Lemma max_attempt_rows (f : build_attempt -> Z) (g : attempt_key -> Z) J d : (forall a, g (akey a) = f a) ->
  max_by g (attempts_of J (view d)) = max_by f (filter (fun a => a_job_id a = J) (build_attempts d)).
Proof.
  intros Hfg. unfold attempts_of, max_by. cbn. induction (build_attempts d) as [|a l IH]; [done|].
  rewrite fmap_cons, !filter_cons. cbn in *. case_decide; cbn; by rewrite ?Hfg, IH.
Qed.

(** The allocated number and fence are the next of the job. *)
Lemma allocate_next J max d no fence : job_inv d -> allocateAttemptFence J max d = Ok (no, fence) ->
  no = attempt_count J (view d) + 1 /\ fence = attempt_count J (view d) + 1 /\ attempt_count J (view d) < max.
Proof.
  intros [Hi _] H. unfold allocateAttemptFence in H. inv_ok H.
  destruct (max_numbered _ (fo_numbered _ Hi J)) as [Hn Hf].
  rewrite (max_attempt_rows a_attempt_no) in Hn by done. rewrite (max_attempt_rows a_fence_token) in Hf by done.
  unfold attempt_count. rewrite Hn in *. rewrite Hf in *. simplify_eq. split_and!; lia.
Qed.

Lemma candidate_queued workerID lp lj clk d c d' : selectClaimCandidate workerID lp lj clk d = (Some c, d') ->
  view d' = view d /\ phase_work_items d' = phase_work_items d /\
  mkJobKey (cc_job_id c) "queued" (cc_max_attempts c) ∈ f_jobs (view d).
Proof.
  unfold selectClaimCandidate. destruct (selectFairAdmissionProject _ _ _ _) as [s d1] eqn:Hs.
  unfold selectFairAdmissionProject in Hs. injection Hs as _ <-. intros H. injection H as H <-.
  split_and!; [done|done|]. destruct s as [s|]; [|done]. destruct (pick _ _) as [j|] eqn:Hp; [|done].
  destruct (admission_scoring _ _ _ _) as [scoring|]; [|done]. injection H as <-.
  apply pick_elem, list_elem_of_filter in Hp as [(_ & (Hq & _) & _) Hj].
  cbn in *. apply list_elem_of_fmap. exists j. split; [|done]. unfold jkey. by rewrite Hq.
Qed.

Lemma select_none_same workerID lp lj clk d d' : selectClaimCandidate workerID lp lj clk d = (None, d') ->
  view d' = view d /\ phase_work_items d' = phase_work_items d.
Proof.
  unfold selectClaimCandidate. destruct (selectFairAdmissionProject _ _ _ _) as [s d1] eqn:Hs.
  unfold selectFairAdmissionProject in Hs. injection Hs as _ <-. intros H. by injection H as _ <-.
Qed.

Lemma accounting_same project job request clk d acc d' :
  prepareClaimAccounting project job request clk d = Ok (acc, d') ->
  view d' = view d /\ phase_work_items d' = phase_work_items d.
Proof.
  intros H. unfold prepareClaimAccounting in H. do 3 inv_ok_step H. destruct a1 as [allowed retryAt].
  destruct allowed; simplify_eq; [done|]. split; [|done]. unfold view, held. f_equal. by apply update_where_map.
Qed.

(** Every insert of the claim is for the new attempt. *)
Lemma persist_implements ids c resources spec workerID name kind lease no fence now claim d d' : job_inv d ->
  mkJobKey (cc_job_id c) "queued" (cc_max_attempts c) ∈ f_jobs (view d) ->
  allocateAttemptFence (cc_job_id c) (cc_max_attempts c) d = Ok (no, fence) ->
  persistClaim MarshalStatus ids c resources spec workerID name kind lease no fence now d = Ok (claim, d') ->
  implements d d'.
Proof.
  intros Hi Hj Hal H. apply (allocate_next _ _ _ _ _ Hi) in Hal as (-> & -> & Hmax).
  unfold persistClaim in H. cbv beta zeta in H. do 2 inv_ok_step H. destruct Hc0 as (Hfa & Hfr & Hfu & Hfl).
  inv_ok_step H. apply plans_insert in E as (items & -> & Hplans & Hitems); [|apply Hi].
  injection H as _ <-.
  assert (id_attempt ids ∉ ak_id <$> f_attempts (view d)) as Hnew.
  { intros (k & Hk & (a & -> & Ha)%list_elem_of_fmap)%list_elem_of_fmap. apply Hfa, Exists_exists. exists a. auto. }
  apply implements_step; [|exact Hplans|]; unfold view; cbn; rewrite !fmap_app; rewrite (jkeys_set _ "claimed") by done.
  2:{ intros K HK. apply (sound_grant K (view d) _ (cc_max_attempts c)); [apply Hi|done|done|done]. }
  apply (fs_grant (view d) _ (cc_max_attempts c)); [done|done|exact Hnew| |].
  - intros (k & Hk & (l & -> & Hl)%list_elem_of_fmap)%list_elem_of_fmap. apply Hfl, Exists_exists. exists l. auto.
  - intros x [Hx|[Hx|Hx]]%elem_of_held; unfold reserved, metered, pending in Hx; cbn in Hx; cbn [f_held view];
      rewrite elem_of_held; rewrite filter_app, fmap_app in Hx; apply elem_of_app in Hx as [Hx|Hx]; auto.
    + right. by apply list_elem_of_singleton in Hx.
    + right. by apply list_elem_of_singleton in Hx.
    + right. apply list_elem_of_fmap in Hx as (w & -> & [_ Hw]%list_elem_of_filter).
      by destruct (Hitems w Hw) as [-> ->].
Qed.

Lemma claim_next_implements ids workerID name kind lease lp lj clk claim d d' : job_inv d ->
  claimNextTx MarshalStatus ids workerID name kind lease lp lj clk d = Ok (claim, d') -> implements d d'.
Proof.
  intros Hi H. unfold claimNextTx in H.
  destruct (selectClaimCandidate _ _ _ _ _) as [[c|] d1] eqn:Hsel.
  2:{ simplify_eq. apply select_none_same in Hsel as [Hv Hp]. by apply implements_same. }
  apply candidate_queued in Hsel as (Hv1 & Hp1 & Hjob).
  destruct (prepareClaimAccounting _ _ _ _ _) as [[acc d2]|] eqn:Hacc; [|done].
  apply accounting_same in Hacc as [Hv2 Hp2].
  assert (implements d d2) as H2 by (apply implements_same; [done|congruence|congruence]).
  destruct acc as [[resources spec]|]; [|by simplify_eq].
  destruct (allocateAttemptFence _ _ _) as [[no fence]|] eqn:Hal; [|done].
  destruct (persistClaim _ _ _ _ _ _ _ _ _ _ _ _ _) as [[cl d3]|] eqn:Hper; [|done].
  pose proof (implements_inv d d2 Hi H2) as Hi2.
  eapply (persist_implements _ _ _ _ _ _ _ _ _ _ _ _ _ _ Hi2) in Hper; [|by rewrite Hv2, Hv1|exact Hal].
  destruct (cc_scoring c) as [[n1 n2] n3]. inv_ok_step H. destruct a as [r d4]. injection H as _ <-.
  unfold fairly in E. destruct (recordFairDispatch _ _ _ _ _) as [[r' d5]|] eqn:Hf; [|done]. injection E as -> ->.
  apply fair_dispatch_same in Hf as [Hv4 Hp4]. eapply implements_trans; [exact H2|].
  eapply implements_trans; [exact Hper|]. apply implements_same; [by eapply implements_inv|exact Hv4|exact Hp4].
Qed.

Lemma claim_implements env name lease caps cache clk cache' claim d d' : job_inv d ->
  ClaimNext MarshalStatus env name lease caps cache clk d = (cache', Ok (claim, d')) -> implements d d'.
Proof.
  intros Hi H. unfold ClaimNext in H. do 2 (case_decide; [done|]).
  destruct (NormalizeExecutorCapabilities _) as [labels|]; [|done].
  destruct (schedulerWorker _ _ _ _ _ _ _ _) as [[[workerID cache1] d1]|] eqn:Hw; [|done].
  assert (view d1 = view d /\ phase_work_items d1 = phase_work_items d) as [Hv Hp].
  { unfold schedulerWorker in Hw. cbv zeta in Hw.
    destruct (cache !! name) as [c|]; [case_decide; [by simplify_eq|]|];
      (inv_ok_step Hw; destruct a as [id d2]; simplify_eq; by eapply register_same). }
  injection H as _ H. unfold claim_tx in H. destruct (recoverExpiredTx _ _ _ _ _) as [[n d2]|] eqn:Hr; [|done].
  assert (implements d d1) as Hd1 by (by apply implements_same).
  apply recover_implements in Hr; [|by eapply implements_inv].
  assert (implements d d2) as Hd2 by (by eapply implements_trans).
  eapply implements_trans; [exact Hd2|]. eapply claim_next_implements; [by eapply implements_inv|exact H].
Qed.

Lemma renew_implements status lease started now d d' : job_inv d -> RenewClaim status lease started now d = Ok d' -> implements d d'.
Proof.
  intros Hi H. unfold RenewClaim in H. inv_ok H. subst d'.
  apply implements_idle; try done; [|apply Hi]. by apply update_where_map.
Qed.

(** ** Phases *)

(** Items rewritten in place, none of them opened. *)
Lemma pending_update (P : phase_work -> Prop) `{HdP : !forall x, Decision (P x)} f l :
  (forall w, P w -> plan_key (f w) = plan_key w /\ (open_phase (f w) -> open_phase w)) ->
  ((fun w => (pw_attempt_id w, pw_job_id w)) <$> filter open_phase (update_where P f l)) ⊆
  ((fun w => (pw_attempt_id w, pw_job_id w)) <$> filter open_phase l).
Proof.
  intros H. apply held_sub. intros w HP Ho. destruct (H w HP) as [Hk Hopen].
  split; [auto|]. unfold plan_key in Hk. injection Hk; intros; congruence.
Qed.

Lemma activate_implements status clk d d' : job_inv d ->
  ActivatePhasePlan uuid_Parse status clk d = Ok d' -> implements d d'.
Proof.
  intros Hi H. unfold ActivatePhasePlan in H. inv_ok_step H. destruct a as [J id].
  inv_ok H. subst d'. apply implements_idle; try done.
  - apply held_subset; [done|done|]. by apply pending_update.
  - apply plans_update; [apply Hi|done|auto].
Qed.

Lemma renew_phase_implements claim lease clk d d' : job_inv d ->
  RenewPhaseWork claim lease clk d = Ok d' -> implements d d'.
Proof.
  intros Hi H. unfold RenewPhaseWork in H. inv_ok H. subst d'. apply implements_idle; try done.
  - by apply update_where_map.
  - apply held_subset; [done|done|]. by apply pending_update.
  - apply plans_update; [apply Hi|done|auto].
Qed.

Lemma context_implements claim value now d d' : job_inv d ->
  SavePhaseExecutionContext claim value now d = Ok d' -> implements d d'.
Proof.
  intros Hi H. unfold SavePhaseExecutionContext in H. do 2 inv_ok_step H.
  destruct (first_where _ (phase_execution_contexts d)); inv_ok H; subst d'; by apply implements_same.
Qed.

Lemma take_implements p s owner lease workerID clk claim d d' : job_inv d ->
  take_phase p s owner lease workerID clk d = Ok (claim, d') -> implements d d'.
Proof.
  intros Hi H. unfold take_phase in H. cbv zeta in H.
  destruct (updateResourceReservationPhase _ _ _ _) as [d1|e] eqn:Hres.
  2:{ destruct e; try done. injection H as _ <-. apply implements_idle; try done.
      - apply held_subset; [done|done|]. by apply pending_update.
      - apply plans_update; [apply Hi|done|auto]. }
  apply reservation_phase_effect in Hres as (l & -> & Hres). inv_ok_step H.
  destruct (pj_scoring p) as [[n1 n2] n3]. inv_ok_step H. destruct a as [r d2]. injection H as _ <-.
  unfold fairly in E. destruct (recordFairDispatch _ _ _ _ _) as [[r' d5]|] eqn:Hf; [|done]. injection E as -> ->.
  apply fair_dispatch_same in Hf as [Hv Hp]. set (d1 := _ <| worker_decisions := _ |>) in Hv, Hp.
  assert (implements d d1) as H1.
  { apply implements_idle; try done.
    - apply held_subset; [exact Hres|done|]. apply pending_update. intros w [_ Hs]. split; [done|]. intros _.
      unfold open_phase. rewrite Hs. enum_solve.
    - apply plans_update; [apply Hi|done|]. intros w [_ Hs]. right. unfold active_state. cbn. auto. }
  eapply implements_trans; [exact H1|]. apply implements_same; [by eapply implements_inv|exact Hv|exact Hp].
Qed.

Lemma claim_phase_implements env owner lease caps phases clk claim d d' : job_inv d ->
  ClaimPhaseWork env owner lease caps phases clk d = Ok (claim, d') -> implements d d'.
Proof.
  intros Hi H. unfold ClaimPhaseWork in H. cbv zeta in H. do 2 inv_ok_step H.
  destruct (NormalizeExecutorCapabilities _) as [labels|]; [|done]. inv_ok_step H. rename a into ps.
  unfold withDeferredLeaseExpiries in H. inv_ok_step H. destruct a as [[c t] d1]. inv_ok_step H. injection H as -> ->.
  assert (implements d d1) as H1.
  2:{ apply flush_same in E1 as [Hv Hp]. eapply implements_trans; [exact H1|].
      apply implements_same; [by eapply implements_inv|done|done]. }
  unfold claim_phase_body in E0. inv_ok_step E0. destruct a as [workerID d2]. apply register_same in E2 as [Hv2 Hp2].
  cbv zeta in E0. destruct (reclaim_expired _ _) as [n d3] eqn:Hrec. unfold reclaim_expired in Hrec. injection Hrec as _ <-.
  unfold selectFairPhaseProject in E0. set (d4 := ensureProjectFairnessRows _ _) in E0.
  assert (implements d d4) as H4.
  { eapply implements_trans; [by apply (implements_same d d2)|].
    apply (implements_idle d2 d4); try done; [by eapply implements_inv; [|apply (implements_same d d2)]|..].
    - apply held_subset; [done|done|]. apply pending_update. intros w [Hs _]. split; [done|]. intros _.
      unfold open_phase. rewrite Hs. enum_solve.
    - apply plans_update; [rewrite Hp2; apply Hi|done|]. intros w [Hs _]. right. unfold active_state. cbn. auto. }
  destruct (_ <$> pick _ _) as [s|]; [|by injection E0 as _ _ <-].
  destruct (select_phase _ _ _ _ _ _) as [p|]; [|by injection E0 as _ _ <-].
  inv_ok_step E0. destruct a as [c' d5]. injection E0 as _ _ <-. eapply implements_trans; [exact H4|].
  eapply take_implements; [by eapply implements_inv|done].
Qed.

Lemma finish_implements claim state detail clk d d' : job_inv d ->
  finishPhaseWork claim state detail clk d = Ok d' -> implements d d'.
Proof.
  intros Hi H. unfold finishPhaseWork in H. destruct (first_where _ _) as [w|] eqn:Hw; [|done].
  apply first_where_some in Hw as (Hw & Hid & Hst & _). inv_ok H. subst d'. rewrite <- Hid.
  set (l := match state with EndCompleted => release_next _ _ _ _ | EndFailed => _ end).
  assert (plans_ok l) as Hl.
  { subst l. destruct state; [by apply plans_complete; [apply Hi|..]|by apply plans_fail; [apply Hi|..]]. }
  assert (((fun w => (pw_attempt_id w, pw_job_id w)) <$> filter open_phase l) ⊆ pending d) as Hsub.
  { unfold pending. subst l. destruct state.
    - etrans; [|apply (pending_update (fun x => pw_id x = pw_id w) (end_phase SCompleted (clk 1%nat) (TrimSpace detail)))].
      + apply pending_update. intros x [(_ & _ & Hb) _]. split; [done|]. intros _. unfold open_phase. rewrite Hb. enum_solve.
      + intros x _. split; [done|]. unfold open_phase. cbn. intros. enum_solve.
    - etrans; [|apply (pending_update (fun x => pw_id x = pw_id w) (end_phase SFailed (clk 1%nat) (TrimSpace detail)))].
      + apply pending_update. intros x _. split; [done|]. unfold open_phase. cbn. intros. enum_solve.
      + intros x _. split; [done|]. unfold open_phase. cbn. intros. enum_solve. }
  apply implements_idle; try done.
  - apply held_subset; [|done|].
    + unfold reserved. cbn. apply held_sub. cbn. naive_solver.
    + etrans; [|exact Hsub]. by apply pending_update.
  - apply plans_update; [done|done|auto].
Qed.

(** The claim was handed out for an item of the table. *)
Definition genuine (claim : PhaseWorkClaim) (d : db) : Prop :=
  exists w, w ∈ phase_work_items d /\ plan_key w =
    (pk_id claim, pk_attempt_id claim, pk_job_id claim, pk_phase claim, pk_sequence claim).

(** The claimed item of a genuine claim that passed the terminal lock. *)
Lemma terminal_lock claim now d : job_inv d -> genuine claim d ->
  lockTerminalPhaseClaim claim now d = Ok tt ->
  holds_lease (pk_attempt_id claim) (pk_job_id claim) d /\
  exists w, w ∈ phase_work_items d /\ pw_state w = SClaimed /\ pw_id w = pk_id claim /\
    pw_attempt_id w = pk_attempt_id claim /\ pw_phase w = pk_phase claim /\ pw_sequence w = pk_sequence claim.
Proof.
  intros Hi (x & Hx & Hkey) H. unfold lockTerminalPhaseClaim in H. inv_ok_step H. clear H.
  apply Exists_exists in Hc as (w & Hw & ((Hid & Hst & _) & _) & Ha & (_ & Hl) & _).
  assert (w = x) as ->.
  { apply (key_unique pw_id (phase_work_items d)); [apply Hi|done|done|]. unfold plan_key in Hkey. congruence. }
  unfold plan_key in Hkey. injection Hkey as H1 H2 H3 H4 H5.
  assert (open_phase x) as Hopen by (unfold open_phase; rewrite Hst; enum_solve).
  split; [|exists x; split_and!; done].
  assert ((pk_attempt_id claim, pk_job_id claim) ∈ f_held (view d)) as Hheld.
  { apply elem_of_held. right; right. apply list_elem_of_fmap. exists x. split; [congruence|]. by apply list_elem_of_filter. }
  destruct (held_by_lease _ _ _ (ji_fence d Hi) Hheld) as (l & Hin & Hla & HlJ). by exists l.
Qed.

Lemma finish_attempt_effect claim status now detail d d' :
  finishPhaseAttemptTx MarshalStatus claim status now detail d = Ok d' ->
  akey <$> build_attempts d' = akey <$> build_attempts d /\
  worker_leases d' = delete_where (fun l => wl_attempt_id l = pk_attempt_id claim /\
                                            wl_fence_token l = pk_attempt_fence claim) (worker_leases d) /\
  jkey <$> build_jobs d' = set_job (pk_job_id claim) (bs_status status) (jkey <$> build_jobs d) /\
  phase_work_items d' = phase_work_items d /\
  (exists a, a ∈ build_attempts d /\ a_id a = pk_attempt_id claim /\ a_fence_token a = pk_attempt_fence claim) /\
  attempt_usages d' = update_where (active_usage (pk_attempt_id claim))
    (settle_row now ("job_" +:+ bs_status status)) (attempt_usages d) /\
  resource_reservations d' =
    resource_reservations (releaseResourceReservation (pk_attempt_id claim) ("job_" +:+ bs_status status) now d).
Proof.
  unfold finishPhaseAttemptTx. intros H. cbv beta zeta in H. inv_ok_step H. inv_ok_step H. unfold budget in E.
  destruct (settleAttemptUsage _ _ _ _ _) as [d1|] eqn:Hs; [|done]. injection E as <-. inv_ok H. subst d'.
  pose proof (settle_usages _ _ _ _ _ _ Hs) as Hu. apply settle_effect in Hs as (Ha & Hl & Hr & Hp & Hj).
  cbn in Ha, Hl, Hr, Hp, Hj, Hu. cbn. rewrite Ha, Hl, Hp, Hu, Hr. split_and!; try done.
  - by apply update_where_map.
  - rewrite <- Hj. by apply jkeys_set.
  - assert (0 < count_where (fun a => a_id a = pk_attempt_id claim /\ a_job_id a = pk_job_id claim /\
      a_fence_token a = pk_attempt_fence claim) (build_attempts d))%nat as Hpos by lia.
    apply count_where_pos in Hpos as (a & Hin & H1 & _ & H3). eauto.
Qed.

(** The end of the attempt, once its phases are closed. *)
Lemma end_phase_implements claim status now detail d l d' : job_inv d ->
  holds_lease (pk_attempt_id claim) (pk_job_id claim) d -> bs_status status <> "queued" -> plans_ok l ->
  ((fun w => (pw_attempt_id w, pw_job_id w)) <$> filter open_phase l) ⊆ pending d ->
  (forall w, w ∈ l -> pw_attempt_id w = pk_attempt_id claim -> ~ open_phase w) ->
  finishPhaseAttemptTx MarshalStatus claim status now detail (d <| phase_work_items := l |>) = Ok d' ->
  implements d d'.
Proof.
  intros Hi Hh Hq Hl Hsub Hclosed H. apply finish_attempt_effect in H as (Ha & HL & Hj & Hp & (a & Hin & Haid & Hf) & Hu & Hr).
  cbn in Ha, HL, Hj, Hp, Hin, Hu, Hr.
  eapply (implements_end d d' _ (bs_status status) (pk_attempt_id claim)); [done|exact Hh|done|done| |done| |by rewrite Hp].
  - rewrite HL. apply lkeys_filter. intros k Hk. cbn. split; [|tauto]. intros Hn Hc. apply Hn. split; [done|].
    destruct (fo_leases _ (ji_fence d Hi) (lkey k)) as (b & Hb & Hbid & Hbf); [by apply list_elem_of_fmap_2|].
    cbn in *. rewrite <- Hbf, <- Hf.
    rewrite (same_id _ b (akey a) (ji_fence d Hi) Hb); [done|by apply list_elem_of_fmap_2|cbn; congruence].
  - eapply without_intro; [exact Hu|exact Hr|]. intros x Hx. unfold pending in Hx. rewrite Hp in Hx.
    split; [by apply Hsub|]. apply list_elem_of_fmap in Hx as (w & -> & [Ho Hw]%list_elem_of_filter).
    intros Hwa. by apply (Hclosed w).
Qed.

Lemma finalize_implements claim previous completed local now d d' : job_inv d -> genuine claim d ->
  FinalizePhaseWork MarshalStatus claim previous completed local now d = Ok d' -> implements d d'.
Proof.
  intros Hi Hg H. unfold FinalizePhaseWork in H. inv_ok_step H. destruct Hc as [Hph Hcomp]. do 2 inv_ok_step H.
  cbv zeta in H. inv_ok H. subst d'. rename a into d'. change (implements d d').
  apply terminal_lock in E as (Hh & w & Hw & Hst & Hid & Ha & Hwp & _); [|done|done]. rewrite <- Hid in E1.
  assert (pw_phase w = Publish) as Hpub by congruence.
  eapply (end_phase_implements claim completed local ""); [done|exact Hh|by rewrite Hcomp| | | |exact E1].
  - apply plans_finalize; [apply Hi|done..].
  - apply pending_update. intros x _. split; [done|]. unfold open_phase. cbn. intros. enum_solve.
  - intros x Hx Hxa. eapply (finalized_closed _ w); [apply Hi|done..|congruence].
Qed.

Lemma fail_implements claim previous detail local now d d' : job_inv d -> genuine claim d ->
  FailPhaseWorkAndJob MarshalStatus claim previous detail local now d = Ok d' -> implements d d'.
Proof.
  intros Hi Hg H. unfold FailPhaseWorkAndJob in H. cbv zeta in H. do 2 inv_ok_step H. inv_ok H. subst d'.
  rename a into d'. change (implements d d').
  apply terminal_lock in E as (Hh & w & Hw & Hst & Hid & Ha & Hwp & Hseq); [|done|done].
  rewrite <- Hid, <- Ha, <- Hseq in E1.
  eapply (end_phase_implements claim _ local (failure_text detail)); [done|exact Hh|..|exact E1]; [done|..].
  - apply plans_fail; [apply Hi|done..].
  - etrans; [|apply (pending_update (fun x => pw_id x = pw_id w) (end_phase SFailed local (failure_text detail)))].
    + apply pending_update. intros x _. split; [done|]. unfold open_phase. cbn. intros. enum_solve.
    + intros x _. split; [done|]. unfold open_phase. cbn. intros. enum_solve.
  - intros x Hx Hxa. eapply (failed_closed _ w); [apply Hi|done|done|exact Hx|congruence].
Qed.

(** ** The system *)

(** The tables of the job system are left alone. *)
Definition elsewhere (d d' : db) : Prop :=
  build_jobs d' = build_jobs d /\ build_attempts d' = build_attempts d /\ worker_leases d' = worker_leases d /\
  resource_reservations d' = resource_reservations d /\ attempt_usages d' = attempt_usages d /\
  phase_work_items d' = phase_work_items d.

(** One committed transaction of the job system, where the transitions that are
    recorded satisfy [allowed]. *)
Inductive ledger_op (allowed : BuildStatus -> db -> Prop) : db -> db -> Prop :=
| js_create newID req status source clk local r d d' :
    createJob MarshalStatus MarshalRequest newID req status source clk local d = Ok (r, d') -> ledger_op allowed d d'
| js_claim env name lease caps cache clk cache' claim d d' :
    ClaimNext MarshalStatus env name lease caps cache clk d = (cache', Ok (claim, d')) -> ledger_op allowed d d'
| js_recover limit locked clk n d d' :
    recoverExpiredTx MarshalStatus limit locked clk d = Ok (n, d') -> ledger_op allowed d d'
| js_renew status lease started now d d' : RenewClaim status lease started now d = Ok d' -> ledger_op allowed d d'
| js_transition newID previous current source clk d d' :
    allowed current d ->
    recordTransition MarshalStatus newID previous current source clk d = Ok d' -> ledger_op allowed d d'
| js_cancel jobID reason now status d d' :
    CancelJob MarshalStatus jobID reason now d = Ok (status, d') -> ledger_op allowed d d'
| js_retry jobID clk status d d' : RetryJob MarshalStatus jobID clk d = Ok (status, d') -> ledger_op allowed d d'
| js_hide jobID reason now d d' : HideJob jobID reason now d = Ok d' -> ledger_op allowed d d'
| js_expire fuel before locked n d d' : ExpireTerminal fuel before locked d = Some (n, d') -> ledger_op allowed d d'
| js_prune fuel before locked n d d' : PruneStaleWorkers fuel before locked d = Some (n, d') -> ledger_op allowed d d'
| js_activate status clk d d' : ActivatePhasePlan uuid_Parse status clk d = Ok d' -> ledger_op allowed d d'
| js_claim_phase env owner lease caps phases clk claim d d' :
    ClaimPhaseWork env owner lease caps phases clk d = Ok (claim, d') -> ledger_op allowed d d'
| js_renew_phase claim lease clk d d' : RenewPhaseWork claim lease clk d = Ok d' -> ledger_op allowed d d'
| js_finish_phase claim state detail clk d d' : finishPhaseWork claim state detail clk d = Ok d' -> ledger_op allowed d d'
| js_finalize claim previous completed local now d d' : genuine claim d ->
    FinalizePhaseWork MarshalStatus claim previous completed local now d = Ok d' -> ledger_op allowed d d'
| js_fail claim previous detail local now d d' : genuine claim d ->
    FailPhaseWorkAndJob MarshalStatus claim previous detail local now d = Ok d' -> ledger_op allowed d d'
| js_context claim value now d d' : SavePhaseExecutionContext claim value now d = Ok d' -> ledger_op allowed d d'.

(** The system also sees transactions of the other components. *)
Inductive ledger_step (allowed : BuildStatus -> db -> Prop) : db -> db -> Prop :=
| js_op d d' : ledger_op allowed d d' -> ledger_step allowed d d'
| js_other d d' : elsewhere d d' -> ledger_step allowed d d'.

(** The system as it is, and the system in which no transition of the job [J] is
    recorded out of turn. *)
Definition job_op : db -> db -> Prop := ledger_op (fun _ _ => True).
Definition job_step : db -> db -> Prop := ledger_step (fun _ _ => True).
Definition orderly_step (J : uuid) : db -> db -> Prop :=
  ledger_step (fun current d => bs_job_id current = J -> ~ out_of_turn current d).

Lemma ledger_op_implements allowed d d' : job_inv d -> ledger_op allowed d d' ->
  implements_for (fun J => forall current, allowed current d -> bs_job_id current = J -> ~ out_of_turn current d) d d'.
Proof.
  intros Hi Hs. destruct Hs; try (apply implements_weaken; eauto using create_implements, claim_implements, recover_implements,
      renew_implements, cancel_implements, retry_implements, hide_implements, expire_implements, prune_implements,
      activate_implements, claim_phase_implements, renew_phase_implements, finish_implements, finalize_implements,
      fail_implements, context_implements; fail).
  match goal with H : recordTransition _ _ _ _ _ _ _ = _ |- _ => apply transition_implements in H as (H1 & H2 & H3); [|done] end.
  split_and!; [done|done|]. intros J HJ. apply H3. auto.
Qed.

Lemma ledger_step_implements allowed d d' : job_inv d -> ledger_step allowed d d' ->
  implements_for (fun J => forall current, allowed current d -> bs_job_id current = J -> ~ out_of_turn current d) d d'.
Proof.
  intros Hi Hstep. destruct Hstep as [d d' Hs|d d' (H1 & H2 & H3 & H4 & H5 & H6)]; [by apply ledger_op_implements|]. apply implements_weaken.
  apply implements_same; [done| |done]. unfold view, held, reserved, metered, pending. by rewrite H1, H2, H3, H4, H5, H6.
Qed.

Lemma job_step_implements d d' : job_inv d -> job_step d d' ->
  implements_for (fun J => forall current, True -> bs_job_id current = J -> ~ out_of_turn current d) d d'.
Proof. apply ledger_step_implements. Qed.

Lemma job_steps_implement d d' : job_inv d -> rtc job_step d d' ->
  rtc fence_step (view d) (view d') /\ job_inv d'.
Proof.
  intros Hi Hr. induction Hr as [|d1 d2 d3 Hs _ IH]; [done|]. pose proof (ledger_step_implements _ d1 d2 Hi Hs) as H12.
  destruct (IH (implements_inv _ _ Hi H12)) as [H23 Hi3]. split; [|done]. etrans; [apply H12|done].
Qed.

Lemma orderly_steps_sound J d d' : job_inv d -> rtc (orderly_step J) d d' -> sound J (view d) -> sound J (view d') /\ job_inv d'.
Proof.
  intros Hi Hr. induction Hr as [|d1 d2 d3 Hs _ IH]; [done|]. intros HJ.
  pose proof (ledger_step_implements _ d1 d2 Hi Hs) as H12. apply IH; [exact (implements_inv _ _ Hi H12)|].
  destruct H12 as (_ & _ & H12). apply H12; auto.
Qed.

End job_system.
Arguments js_op _ _ _ {allowed}.
Arguments js_create _ _ _ {allowed}.
Arguments js_recover _ _ _ {allowed}.
Arguments js_activate _ _ _ {allowed}.
