(* ===== verification/JobSafety.v ===== *)
(** * What the job system guarantees

    The theorems about every database the job system can reach: exclusive
    claims, dead fences, nothing leaked by an attempt that ended, attempts left
    for every queued job, and plans that run phase after phase. *)

From S2P Require Import Prelude GoStrings Schema Capabilities CapacityLedger Budgets Fairness.
From S2P Require Import JobLedger Scheduler PhaseWork Fencing PhasePlan JobSystem.
From Stdlib Require Import Ascii.
Open Scope string_scope.
Open Scope list_scope.
Open Scope Z_scope.

(** Before the first submission: projects, policies and workers may be there,
    jobs and everything that belongs to them are not. *)
Definition initial (d : db) : Prop :=
  build_jobs d = [] /\ build_attempts d = [] /\ worker_leases d = [] /\
  resource_reservations d = [] /\ attempt_usages d = [] /\ phase_work_items d = [].

Lemma initial_view d : initial d -> view d = mkFenceState [] [] [] [].
Proof.
  intros (H1 & H2 & H3 & H4 & H5 & H6). unfold view, held, reserved, metered, pending.
  by rewrite H1, H2, H3, H4, H5, H6.
Qed.

Lemma initial_inv d : initial d -> job_inv d.
Proof.
  intros Hinit. split.
  - rewrite initial_view by done. split; cbn; try apply NoDup_nil_2; try (intros ? ?%elem_of_nil; done).
    + intros J. by split.
    + intros a J ?%elem_of_nil. done.
  - destruct Hinit as (_ & _ & _ & _ & _ & ->). split; cbn; try apply NoDup_nil_2; try (intros ? ?%elem_of_nil; done).
    + intros w x ?%elem_of_nil. done.
    + by left.
Qed.

(** ** Reading the invariant off the rows *)

Lemma initial_sound J d : initial d -> sound J (view d).
Proof. intros Hinit. rewrite initial_view by done. split; cbn; by intros ? ?%elem_of_nil || by intros ? ? ?%elem_of_nil. Qed.

Lemma attempt_count_rows J d :
  attempt_count J (view d) = Z.of_nat (count_where (fun a => a_job_id a = J) (build_attempts d)).
Proof.
  unfold attempt_count, attempts_of, count_where. cbn. f_equal. induction (build_attempts d) as [|a l IH]; [done|].
  rewrite fmap_cons, !filter_cons. cbn in *. case_decide; cbn; by rewrite IH.
Qed.

(** The row behind a live claim of a sound job. *)
Lemma held_lease_row status now d : job_inv d -> sound (bs_job_id status) (view d) ->
  exists_row (held_lease status now d) (worker_leases d) ->
  exists a, a ∈ build_attempts d /\ a_id a = bs_attempt_id status /\
    a_job_id a = bs_job_id status /\ a_fence_token a = bs_fence_token status /\
    a_attempt_no a = attempt_count (bs_job_id status) (view d).
Proof.
  intros Hi Hs (l & Hl & (Hla & Hlf & _ & Hex & _))%Exists_exists.
  apply Exists_exists in Hex as (b & Hb & Hbid & HbJ). apply (list_elem_of_fmap_2 lkey) in Hl as Hk.
  destruct (fo_leases _ (ji_fence d Hi) (lkey l) Hk) as (x & (a & -> & Ha)%list_elem_of_fmap & Haid & Haf).
  destruct (so_newest _ _ Hs (lkey l) Hk) as (y & [_ (c & -> & Hc)%list_elem_of_fmap]%elem_of_attempts_of & Hcid & Hcn).
  { apply elem_of_job. exists (akey b). split_and!; [by apply list_elem_of_fmap_2|done|cbn; congruence]. }
  cbn in *. assert (a = b) as -> by (apply (key_unique a_id (build_attempts d)); [by apply attempt_ids|congruence..]).
  assert (c = b) as -> by (apply (key_unique a_id (build_attempts d)); [by apply attempt_ids|congruence..]).
  exists b. split_and!; congruence.
Qed.

(** An attempt that has lost its lease, over any later step. *)
Definition lost (id : uuid) (d : db) : Prop :=
  id ∈ a_id <$> build_attempts d /\ id ∉ wl_attempt_id <$> worker_leases d.

Lemma lost_view id d : lost id d <-> id ∈ ak_id <$> f_attempts (view d) /\ id ∉ lk_attempt <$> f_leases (view d).
Proof. unfold lost, view. cbn. by rewrite <- !list_fmap_compose. Qed.

Section safety.
Context (MarshalStatus : JobStatus -> list ascii) (MarshalRequest : BuildRequest -> list ascii)
        (uuid_Parse : string -> bool).
Notation step := (job_step MarshalStatus MarshalRequest uuid_Parse).
Notation orderly := (orderly_step MarshalStatus MarshalRequest uuid_Parse).

Definition reachable (d : db) : Prop := exists d0, initial d0 /\ rtc step d0 d.

Lemma reachable_inv d : reachable d -> job_inv d.
Proof. intros (d0 & Hinit & Hr). by apply (job_steps_implement _ _ _ d0 d (initial_inv d0 Hinit)) in Hr as [_ ?]. Qed.

Lemma orderly_sound J d0 d : initial d0 -> rtc (orderly J) d0 d -> sound J (view d) /\ job_inv d.
Proof. intros Hinit R. by eapply orderly_steps_sound; [apply initial_inv|exact R|apply initial_sound]. Qed.

Lemma reachable_steps d d' : reachable d -> rtc step d d' -> reachable d'.
Proof. intros (d0 & Hinit & Hr) Hs. exists d0. split; [done|]. by etrans. Qed.

Lemma lost_stays id d d' : job_inv d -> lost id d -> rtc step d d' -> lost id d'.
Proof.
  intros Hi [Ha Hl]%lost_view Hr. apply lost_view.
  apply (job_steps_implement _ _ _ d d' Hi) in Hr as [Hr _]. revert Ha Hl.
  induction Hr as [|S S' S'' Hs _ IH]; [done|]. intros Ha Hl. apply IH.
  - apply list_elem_of_fmap in Ha as (a & -> & Ha). apply list_elem_of_fmap_2. by eapply fence_step_attempts.
  - by eapply fence_step_unleased.
Qed.

(** C1. The job ledger implements the fencing protocol: from a database without
    jobs, any sequence of submissions, claims, recoveries, renewals,
    transitions, cancellations, retries, retention and pruning runs and phase
    operations is, on the keys of attempts, leases and jobs and on what is
    held, a sequence of steps of the abstract protocol.  In the state reached,
    attempts are numbered and fenced consecutively, a lease carries the fence of
    its attempt, and everything held is held by an attempt that has a lease.  A
    job is sound moreover (its only lease is that of its newest attempt, and it
    has none when it is queued or over) if none of its own transitions on the
    way was recorded out of turn: none queued it while somebody had claimed it
    or when it had no attempts left, and none ended it without the claim that
    somebody had.  The ledger does not refuse such transitions. *)
Theorem ledger_implements_fencing (d0 d : db) (Hinit : initial d0) (R : rtc step d0 d) :
  view d0 = mkFenceState [] [] [] [] /\ rtc fence_step (view d0) (view d) /\ fenced_ok (view d) /\
  forall J, rtc (orderly J) d0 d -> sound J (view d).
Proof.
  split; [by apply initial_view|]. pose proof (initial_inv d0 Hinit) as Hi0.
  destruct (job_steps_implement _ _ _ d0 d Hi0 R) as [Hr Hi]. split_and!; [done|apply Hi|].
  intros J HJ. by apply orderly_sound in HJ as [? _].
Qed.

(** C3. A job has one holder: two statuses of the same job that both pass the
    claim check carry the same attempt and the same fence, and that is the
    newest attempt of the job, whose fence is the number of attempts so far.
    This holds in every state reached by steps of which none recorded a
    transition of this job out of turn: none queued it while somebody had
    claimed it or when it had no attempts left, and none ended it without the
    claim that somebody had.  What happens otherwise is the theorem
    [out_of_turn_keeps_claims]. *)
Theorem exclusive_claim (d0 d : db) (s1 s2 : BuildStatus) (now : time) (Hinit : initial d0)
    (R : rtc (orderly (bs_job_id s1)) d0 d)
    (H1 : CheckClaim s1 now d = Ok tt) (H2 : CheckClaim s2 now d = Ok tt)
    (HJ : bs_job_id s1 = bs_job_id s2) :
  bs_attempt_id s1 = bs_attempt_id s2 /\ bs_fence_token s1 = bs_fence_token s2 /\
  bs_fence_token s1 = Z.of_nat (count_where (fun a => a_job_id a = bs_job_id s1) (build_attempts d)).
Proof.
  apply orderly_sound in R as [Hs Hi]; [|done].
  unfold CheckClaim in H1, H2. inv_ok_step H1. inv_ok_step H2. clear H1 H2. destruct Hc as [Hc _], Hc0 as [Hc0 _].
  destruct (held_lease_row _ _ _ Hi Hs Hc) as (a & Ha & Hid & HaJ & Haf & Han).
  rewrite HJ in Hs. destruct (held_lease_row _ _ _ Hi Hs Hc0) as (b & Hb & Hid' & HbJ & Hbf & Hbn).
  assert (akey a = akey b) as Heq.
  { apply (same_number (view d)); [apply Hi|by apply list_elem_of_fmap_2..|cbn; congruence|cbn; congruence]. }
  unfold akey in Heq. injection Heq as E1 _ E2 E3. split_and!; [congruence|congruence|].
  rewrite <- Haf, <- attempt_count_rows.
  assert (akey a ∈ attempts_of (bs_job_id s1) (view d)) as Hin.
  { apply elem_of_attempts_of. split; [done|]. by apply list_elem_of_fmap_2. }
  rewrite <- Han. destruct (fo_numbered _ (ji_fence d Hi) (bs_job_id s1)) as [Hno Hfe].
  apply list_elem_of_lookup in Hin as (i & Hi').
  apply (f_equal (fun l => l !! i)) in Hno, Hfe. rewrite !list_lookup_fmap, Hi' in Hno, Hfe.
  cbn in Hno, Hfe. rewrite <- Hno in Hfe. by injection Hfe.
Qed.

(** C2. A lost claim stays lost: once an attempt has no lease any more (it
    expired and was recovered, its job was canceled, or it ended), then after
    any further steps of the system, whatever is presented under that attempt
    is turned away: the claim check, the renewal, the activation of its plan,
    the renewal and the end of its phases fail, and a transition recorded under
    it fails or changes nothing. *)
Theorem lost_claim_rejected (d d' : db) (id : uuid) (R : reachable d) (Hne : id <> "")
    (Hlost : lost id d) (Hs : rtc step d d') :
  (forall status now, bs_attempt_id status = id ->
     CheckClaim status now d' = Err ClaimStale /\
     (forall lease started e, RenewClaim status lease started now d' <> Ok e) /\
     (forall clk e, ActivatePhasePlan uuid_Parse status clk d' <> Ok e) /\
     (forall newID previous source clk e,
        recordTransition MarshalStatus newID previous status source clk d' = Ok e -> e = d')) /\
  (forall claim, pk_attempt_id claim = id ->
     (forall lease clk e, RenewPhaseWork claim lease clk d' <> Ok e) /\
     (forall previous completed local now e,
        FinalizePhaseWork MarshalStatus claim previous completed local now d' <> Ok e) /\
     (forall previous detail local now e,
        FailPhaseWorkAndJob MarshalStatus claim previous detail local now d' <> Ok e)).
Proof.
  apply reachable_inv in R as Hi. pose proof (lost_stays id d d' Hi Hlost Hs) as [_ Hno].
  assert (forall l, l ∈ worker_leases d' -> wl_attempt_id l <> id) as Hl.
  { intros l Hin Heq. apply Hno. rewrite <- Heq. by apply list_elem_of_fmap_2. }
  split; [intros status now Hid|intros claim Hid]; split_and!.
  - unfold CheckClaim. rewrite decide_False; [done|]. intros [(l & Hin & Hh & _)%Exists_exists _].
    apply (Hl l Hin). congruence.
  - intros lease started e H. unfold RenewClaim in H. inv_ok H.
    assert (0 < count_where (held_lease status now d') (worker_leases d'))%nat as Hpos by lia.
    apply count_where_pos in Hpos as (l & Hin & Hh & _). apply (Hl l Hin). congruence.
  - intros clk e H. unfold ActivatePhasePlan in H. inv_ok_step H. unfold validateMetadataFence in E. inv_ok E.
    clear H E. apply Exists_exists in Hc2 as (a0 & _ & Haid & _ & _ & Hj).
    apply Exists_exists in Hj as (j & _ & _ & [(l & Hin & Hla & _)%Exists_exists|[? _]]); [|done].
    apply (Hl l Hin). congruence.
  - intros newID previous source clk e H. unfold recordTransition in H. cbv zeta in H.
    destruct (first_where _ (build_jobs d')) as [j|]; [|done]. case_decide; [by simplify_eq|]. do 2 inv_ok_step H.
    apply validate_claim_lease in E as (k & (l & -> & Hin)%list_elem_of_fmap & Hk & _); [|by rewrite Hid].
    by destruct (Hl l Hin); rewrite <- Hid.
  - intros lease clk e H.
    assert (forall x n, count_where (renewable_attempt claim (clk 1%nat) x) (worker_leases d') = S n -> False) as Habs.
    { intros x n Hn. assert (0 < count_where (renewable_attempt claim (clk 1%nat) x) (worker_leases d'))%nat as Hpos by lia.
      apply count_where_pos in Hpos as (l & Hin & Hh & _). apply (Hl l Hin). congruence. }
    unfold RenewPhaseWork in H. do 2 inv_ok_step H. cbv zeta in H. inv_ok_step H. exact (Habs _ _ Hc1).
  - intros previous completed local now e H. unfold FinalizePhaseWork in H. do 2 inv_ok_step H.
    unfold lockTerminalPhaseClaim in E. inv_ok_step E.
    apply Exists_exists in Hc0 as (w & _ & _ & _ & (_ & (l & Hin & Hh & _)%Exists_exists) & _). apply (Hl l Hin). congruence.
  - intros previous detail local now e H. unfold FailPhaseWorkAndJob in H. cbv zeta in H. inv_ok_step H.
    unfold lockTerminalPhaseClaim in E. inv_ok_step E.
    apply Exists_exists in Hc as (w & _ & _ & _ & (_ & (l & Hin & Hh & _)%Exists_exists) & _). apply (Hl l Hin). congruence.
Qed.

(** C22. Nothing leaks: a job that is queued or has ended holds no lease, no
    live resource reservation, no running meter and no open phase.  This holds
    in every state reached by steps of which none recorded a transition of this
    job out of turn: none queued it while somebody had claimed it or when it had
    no attempts left, and none ended it without the claim that somebody had. *)
Theorem idle_job_holds_nothing (d0 d : db) (j : build_job) (Hinit : initial d0) (R : rtc (orderly (j_id j)) d0 d)
    (Hj : j ∈ build_jobs d) (Hst : j_state j = "queued" \/ terminal (j_state j)) :
  (forall a l, a ∈ build_attempts d -> a_job_id a = j_id j -> l ∈ worker_leases d -> wl_attempt_id l <> a_id a) /\
  (forall r, r ∈ resource_reservations d -> rv_job_id r = j_id j -> rv_state r = Released) /\
  (forall u, u ∈ attempt_usages d -> us_job_id u = j_id j -> us_state u = USettled) /\
  (forall w, w ∈ phase_work_items d -> pw_job_id w = j_id j -> ~ open_phase w).
Proof.
  apply orderly_sound in R as [Hso Hi]; [|done].
  assert (forall l, l ∈ f_leases (view d) -> ~ of_job (j_id j) (view d) l) as Hfree.
  { apply (unleased (view d) _ (jkey j)); [exact Hso|by apply list_elem_of_fmap_2|done|done]. }
  assert (forall a, (a, j_id j) ∉ held d) as Hnone by (intros a; apply (free_nothing_held (view d)); [apply Hi|done]).
  split_and!.
  - intros a l Ha HJ Hl Heq. apply (Hfree (lkey l)); [by apply list_elem_of_fmap_2|]. apply elem_of_job.
    exists (akey a). split_and!; [by apply list_elem_of_fmap_2|done|done].
  - intros r Hr HJ. destruct (rv_state r) eqn:Hs; [|done]. destruct (Hnone (rv_attempt_id r)).
    apply elem_of_held. left. apply list_elem_of_fmap. exists r. rewrite HJ. split; [done|]. by apply list_elem_of_filter.
  - intros u Hu HJ. destruct (us_state u) eqn:Hs; [|done]. destruct (Hnone (us_attempt_id u)).
    apply elem_of_held. right; left. apply list_elem_of_fmap. exists u. rewrite HJ. split; [done|].
    by apply list_elem_of_filter.
  - intros w Hw HJ Ho. destruct (Hnone (pw_attempt_id w)). apply elem_of_held. right; right.
    apply list_elem_of_fmap. exists w. rewrite HJ. split; [done|]. by apply list_elem_of_filter.
Qed.

(** Recording a state that is not the end of an attempt touches the attempts only. *)
Lemma record_attempt_keeps newID current t d d' : bs_attempt_id current = "" \/ bs_status current = "queued" ->
  recordAttemptTransitionTx newID current t d = Ok d' ->
  exists l, d' = d <| build_attempts := l |> /\
    forall id J, exists_row (fun a => a_id a = id /\ a_job_id a = J) (build_attempts d) ->
      exists_row (fun a => a_id a = id /\ a_job_id a = J) l.
Proof.
  assert (forall e : db, e = e <| build_attempts := build_attempts e |>) as Heta by (by intros []).
  assert (forall (P : build_attempt -> Prop) (HdP : forall a, Decision (P a)) f l id J,
    (forall a, a_id (f a) = a_id a /\ a_job_id (f a) = a_job_id a) ->
    exists_row (fun a => a_id a = id /\ a_job_id a = J) l ->
    exists_row (fun a => a_id a = id /\ a_job_id a = J) (update_where P f l)) as Hup.
  { intros P HdP f l id J Hf (a & Ha & Hid & HJ)%Exists_exists. apply Exists_exists. destruct (Hf a) as [H1 H2].
    destruct (decide (P a)); [exists (f a)|exists a]; (split; [apply elem_of_update_where; eauto|split; congruence]). }
  intros Hcase H. unfold recordAttemptTransitionTx in H. case_decide as Hid.
  - case_decide; [simplify_eq; eauto|]. unfold upsertAttemptSnapshot in H. cbv zeta in H.
    destruct (first_where _ _); [simplify_eq; eexists; split; [done|]; intros id J Hex; by apply Hup|].
    inv_ok H. subst d'. eexists. split; [done|]. intros id J Hex. apply Exists_app. by left.
  - destruct Hcase as [?|Hq]; [done|]. rewrite Hq in H. inv_ok_step H. vm_compute isLedgerTerminal in H.
    rewrite decide_False in H by (by vm_compute). unfold updateResourceReservationPhase in H.
    change (reservationPhase "queued") with (@None ReservationPhase) in H. cbv beta iota zeta in H. injection H as <-.
    eexists. split; [done|]. intros id J Hex. by apply Hup.
Qed.

(** C23. A transition recorded out of turn keeps every claim: when the ledger records
    a transition that queues a job which somebody has claimed, or that ends it
    without the claim which somebody has, the job takes that state and nothing is
    given back: all leases, reservations, meters and phases are as before.  If the job is queued, whoever
    passed the claim check before passes it now, although the job can be given to
    the next. *)
Theorem out_of_turn_keeps_claims (d d' : db) (newID : uuid) (previous : option BuildStatus) (current : BuildStatus)
    (source : string) (clk : clock) (R : reachable d) (Hout : out_of_turn current d)
    (H : recordTransition MarshalStatus newID previous current source clk d = Ok d') :
  worker_leases d' = worker_leases d /\ resource_reservations d' = resource_reservations d /\
  attempt_usages d' = attempt_usages d /\ phase_work_items d' = phase_work_items d /\
  (exists j, j ∈ build_jobs d' /\ j_id j = bs_job_id current /\ j_state j = bs_status current) /\
  (bs_status current = "queued" -> forall s now, bs_job_id s = bs_job_id current ->
     CheckClaim s now d = Ok tt -> CheckClaim s now d' = Ok tt).
Proof.
  apply reachable_inv in R as Hi. destruct Hout as [(i & Hin & HiJ & Hne)%Exists_exists Hout].
  unfold recordTransition in H. cbv zeta in H. destruct (first_where _ (build_jobs d)) as [j|] eqn:Hj; [|done].
  apply first_where_some in Hj as (Hj & HjJ & _).
  assert (i = j) as -> by (apply (key_unique j_id (build_jobs d)); [by apply job_ids|done|done|congruence]).
  case_decide as Hsame; [by destruct Hsame|]. inv_ok_step H. inv_ok_step H. set (d1 := _ : db) in H. inv_ok H. subst d'.
  apply record_attempt_keeps in E0 as (l & -> & Hl); [|tauto]. split_and!; [done..| |].
  - eexists. split_and!; [apply elem_of_update_where; exists j; split; [exact Hj|left; done]|done|done].
  - intros Hq s now HJ Hck. unfold CheckClaim in *. inv_ok_step Hck. destruct Hc0 as [Hex _]. rewrite decide_True; [done|]. split.
    + eapply Exists_impl; [exact Hex|]. intros x (H1 & H2 & H3 & H4 & H5 & H6). split_and!; [done..|by apply Hl|done|done].
    + apply Exists_exists. eexists. split_and!; [apply elem_of_update_where; exists j; split; [exact Hj|left; done]|cbn; congruence|].
      cbn. rewrite Hq. unfold terminal. enum_solve.
Qed.

(** A queued job can always be given out: the next attempt number and the
    next fence are both one more than the number of attempts the job has had,
    and they are within the job's limit; the claim of a queued job never runs
    into exhausted attempts, if none of its transitions was recorded out of turn. *)
Theorem queued_job_has_next_fence (d0 d : db) (j : build_job) (Hinit : initial d0) (R : rtc (orderly (j_id j)) d0 d)
    (Hj : j ∈ build_jobs d) (Hq : j_state j = "queued") :
  let n := Z.of_nat (count_where (fun a => a_job_id a = j_id j) (build_attempts d)) in
  allocateAttemptFence (j_id j) (j_max_attempts j) d = Ok (n + 1, n + 1) /\ n < j_max_attempts j.
Proof.
  apply orderly_sound in R as [Hs Hi]; [|done]. cbv zeta. rewrite <- attempt_count_rows.
  assert (attempt_count (j_id j) (view d) < j_max_attempts j) as Hlt.
  { apply (so_queued _ _ Hs (jkey j)); [by apply list_elem_of_fmap_2|done|done]. }
  split; [|done]. destruct (allocateAttemptFence (j_id j) (j_max_attempts j) d) as [[no fence]|e] eqn:H.
  - apply (allocate_next _ _ _ _ _ Hi) in H as (-> & -> & _). done.
  - exfalso. unfold allocateAttemptFence in H. case_decide as Hc; [done|]. apply Hc.
    destruct (max_numbered _ (fo_numbered _ (ji_fence d Hi) (j_id j))) as [Hn _].
    rewrite (max_attempt_rows a_attempt_no) in Hn by done. unfold attempt_count in Hlt. lia.
Qed.

(** C24. A plan runs one phase at a time and in order: an item that is ready or
    claimed belongs to an attempt that holds the lease of its job, every earlier
    phase of the attempt is completed, and every later one is blocked. *)
Theorem plan_runs_in_order (d : db) (w : phase_work) (R : reachable d) (Hw : w ∈ phase_work_items d)
    (Hst : active_state (pw_state w)) :
  (exists l, l ∈ worker_leases d /\ wl_attempt_id l = pw_attempt_id w) /\
  pw_phase <$> plan_of (pw_attempt_id w) (phase_work_items d) = all_phases /\
  forall x, x ∈ phase_work_items d -> pw_attempt_id x = pw_attempt_id w ->
    x = w \/ (pw_sequence x < pw_sequence w /\ pw_state x = SCompleted) \/
    (pw_sequence w < pw_sequence x /\ pw_state x = SBlocked).
Proof.
  apply reachable_inv in R as Hi. split_and!.
  - assert (open_phase w) as Ho by (unfold open_phase; destruct Hst as [-> | ->]; enum_solve).
    destruct (fo_held _ (ji_fence d Hi) (pw_attempt_id w) (pw_job_id w)) as [(k & Hk & Hka) _].
    { apply elem_of_held. right; right. apply list_elem_of_fmap. exists w. split; [done|]. by apply list_elem_of_filter. }
    apply list_elem_of_fmap in Hk as (l & -> & Hl). by exists l.
  - destruct (po_plan _ (ji_plans d Hi) (pw_attempt_id w)) as [Hnil|[? _]]; [|done].
    assert (w ∈ plan_of (pw_attempt_id w) (phase_work_items d)) as Hin by (by apply list_elem_of_filter).
    rewrite Hnil in Hin. by apply elem_of_nil in Hin.
  - intros x Hx HA. destruct (plan_split _ w (ji_plans d Hi) Hw Hst) as (pre & post & Hsplit & Hpre & Hpost & _).
    assert (x ∈ pre ++ w :: post) as Hin by (rewrite <- Hsplit; by apply list_elem_of_filter).
    apply elem_of_app in Hin as [Hin|[->|Hin]%elem_of_cons]; [|by left|].
    + destruct (Hpre x Hin) as (_ & ? & ? & _). auto.
    + destruct (Hpost x Hin) as (_ & ? & ? & _). auto.
Qed.
End safety.

(** ** A run of the system

    A submission, a claim, the expiry of its lease, and a second claim. *)
Definition marshal_status_ex (s : JobStatus) : list ascii := bytes (st_status s +:+ st_error s).
Definition marshal_request_ex (r : BuildRequest) : list ascii := bytes (rq_package_name r +:+ rq_version r).
Definition any_uuid (s : string) : bool := true.

(** The state a transaction commits. *)
Definition ran {E} (r : result E db) : db := ok_or empty_db r.
Definition ran_with {E A} (a : A) (r : result E (A * db)) : A * db := ok_or (a, empty_db) r.

Lemma ran_ok {E} (r : result E db) : is_ok r = true -> r = Ok (ran r).
Proof. apply (ok_or_ran empty_db). Qed.
Lemma ran_with_ok {E A} (a : A) (r : result E (A * db)) : is_ok r = true -> r = Ok ((ran_with a r).1, (ran_with a r).2).
Proof. intros H. rewrite <- surjective_pairing. by apply (ok_or_ran (a, empty_db)). Qed.

Definition start_ex : db :=
  empty_db <| projects := [mkProject "p1" "default" ""] |> <| project_policies := [policy_row_ex] |>
           <| expiry_counters := [mkCounter "attempt" "requeued" 0 None; mkCounter "phase" "reclaimed" 0 None] |>.
Definition create_ex (key : string) (d : db) : result job_error (LedgerCreateResult * db) :=
  createJob marshal_status_ex marshal_request_ex "n1" (Some (Schema.request_ex <| rq_idempotency_key := key |>))
    (decodeStoredStatus (status_ex "j1") None) "api" (at_time 10) (10 * Second) d.
Definition submitted_ex : db := (ok_or (mkCreateResult "" (decodeStoredStatus (status_ex "") None) false, empty_db)
  (create_ex "k1" start_ex)).2.

Definition claim_env_ex (n : string) : claim_env :=
  mkClaimEnv "w1" (mkClaimIDs ("a" +:+ n) ("l" +:+ n) (fun p => "i" +:+ n +:+ phase_name p))
    unlocked unlocked unlocked (mkTelemetry 0 true 0 0 0 0 []) (20 * Second).
Definition claim_ex (n : string) (t : Z) (d : db) : worker_cache * result job_error (option SchedulerClaim * db) :=
  ClaimNext marshal_status_ex (claim_env_ex n) "executor-1" (60 * Second)
    (Some ["phase:provision"; "context:legacy"]) ∅ (at_time t) d.
Definition claimed_ex : db := (ok_or (None, empty_db) (claim_ex "1" 20 submitted_ex).2).2.
Definition holder_ex : BuildStatus :=
  match (ok_or (None, empty_db) (claim_ex "1" 20 submitted_ex).2).1 with
  | Some c => sc_status c
  | None => decodeStoredStatus (status_ex "") None
  end.
Definition recovered_ex : db :=
  (ok_or (0%nat, empty_db) (recoverExpiredTx marshal_status_ex 32 unlocked (at_time 200) claimed_ex)).2.
Definition reclaimed_ex : db := (ok_or (None, empty_db) (claim_ex "2" 210 recovered_ex).2).2.

Definition step_ex := job_step marshal_status_ex marshal_request_ex any_uuid.

Lemma start_initial : initial start_ex.
Proof. repeat split; reflexivity. Qed.

Lemma submitted_op parse {allowed} : ledger_op marshal_status_ex marshal_request_ex parse allowed start_ex submitted_ex.
Proof.
  assert (is_ok (create_ex "k1" start_ex) = true) as H by (vm_compute; reflexivity).
  apply (ok_or_ran (mkCreateResult "" (decodeStoredStatus (status_ex "") None) false, empty_db)) in H.
  rewrite (surjective_pairing (ok_or _ _)) in H. exact (js_create _ _ _ _ _ _ _ _ _ _ _ _ H).
Qed.

Lemma claim_op parse {allowed} n t d : is_ok (claim_ex n t d).2 = true ->
  ledger_op marshal_status_ex marshal_request_ex parse allowed d (ok_or (None, empty_db) (claim_ex n t d).2).2.
Proof.
  intros H. apply (ok_or_ran (None, empty_db)) in H. rewrite (surjective_pairing (ok_or _ _)) in H.
  eapply js_claim. etransitivity; [apply surjective_pairing|]. f_equal. exact H.
Qed.

Lemma claimed_op parse {allowed} : ledger_op marshal_status_ex marshal_request_ex parse allowed submitted_ex claimed_ex.
Proof. apply claim_op. vm_compute. reflexivity. Qed.

Lemma claimed_run {allowed} : rtc (ledger_step marshal_status_ex marshal_request_ex any_uuid allowed) start_ex claimed_ex.
Proof.
  eapply rtc_l; [apply js_op, submitted_op|]. apply rtc_once, js_op, claimed_op.
Qed.

Lemma recovered_run {allowed} : rtc (ledger_step marshal_status_ex marshal_request_ex any_uuid allowed) claimed_ex recovered_ex.
Proof.
  apply rtc_once.
  assert (is_ok (recoverExpiredTx marshal_status_ex 32 unlocked (at_time 200) claimed_ex) = true) as H
    by (vm_compute; reflexivity).
  apply (ok_or_ran (0%nat, empty_db)) in H. rewrite (surjective_pairing (ok_or _ _)) in H.
  exact (js_op _ _ _ _ _ (js_recover _ _ _ _ _ _ _ _ _ H)).
Qed.

Lemma reclaimed_run {allowed} : rtc (ledger_step marshal_status_ex marshal_request_ex any_uuid allowed) recovered_ex reclaimed_ex.
Proof. apply rtc_once, js_op, claim_op. vm_compute. reflexivity. Qed.

Lemma claimed_reachable : reachable marshal_status_ex marshal_request_ex any_uuid claimed_ex.
Proof. exists start_ex. split; [exact start_initial|exact claimed_run]. Qed.

Lemma ledger_implements_fencing_witness :
  rtc fence_step (mkFenceState [] [] [] []) (view reclaimed_ex) /\
  f_leases (view reclaimed_ex) = [mkLeaseKey "l2" "a2" 2] /\ sound "j1" (view reclaimed_ex).
Proof.
  destruct (ledger_implements_fencing marshal_status_ex marshal_request_ex any_uuid start_ex reclaimed_ex) as (Hv & Hr & _ & Hs).
  - exact start_initial.
  - etrans; [exact claimed_run|]. etrans; [exact recovered_run|exact reclaimed_run].
  - split_and!; [exact Hr|vm_compute; reflexivity|]. apply Hs.
    etrans; [exact claimed_run|]. etrans; [exact recovered_run|exact reclaimed_run].
Defined.

Lemma exclusive_claim_witness :
  CheckClaim holder_ex (30 * Second) claimed_ex = Ok tt /\ bs_fence_token holder_ex = 1.
Proof.
  assert (CheckClaim holder_ex (30 * Second) claimed_ex = Ok tt) as H by (vm_compute; reflexivity).
  split; [exact H|].
  exact (proj2 (proj2 (exclusive_claim marshal_status_ex marshal_request_ex any_uuid start_ex claimed_ex holder_ex holder_ex
    (30 * Second) start_initial claimed_run H H eq_refl))).
Defined.

Lemma lost_claim_rejected_witness :
  CheckClaim holder_ex (215 * Second) reclaimed_ex = Err ClaimStale.
Proof.
  refine (proj1 (proj1 (lost_claim_rejected marshal_status_ex marshal_request_ex any_uuid recovered_ex reclaimed_ex
    "a1" _ _ _ reclaimed_run) holder_ex (215 * Second) _)).
  - exact (reachable_steps _ _ _ _ _ claimed_reachable recovered_run).
  - discriminate.
  - apply (bool_decide_unpack _). vm_compute. reflexivity.
  - vm_compute. reflexivity.
Defined.

(** The holder records that its remote builder has queued the build. *)
Definition remote_queued_ex : BuildStatus :=
  holder_ex <| bs_document := (bs_document holder_ex) <| st_status := "queued" |> |>.
Definition requeued_ex : db :=
  ran (recordTransition marshal_status_ex "n2" (Some holder_ex) remote_queued_ex "runtime" (at_time 30) claimed_ex).
Definition roomy_ex : db := requeued_ex <| project_policies := [policy_row_ex <| pp_max_daily_build_seconds := 864000 |>] |>.
Definition second_env_ex : claim_env :=
  mkClaimEnv "w2" (mkClaimIDs "a2" "l2" (fun p => "i2" +:+ phase_name p)) unlocked unlocked unlocked
    (mkTelemetry 0 true 0 0 0 0 []) (40 * Second).
Definition second_claim_ex : option SchedulerClaim * db :=
  ran_with None (ClaimNext marshal_status_ex second_env_ex "executor-2" (60 * Second)
    (Some ["phase:provision"; "context:legacy"]) ∅ (at_time 40) roomy_ex).2.
Definition second_holder_ex : BuildStatus :=
  match second_claim_ex.1 with Some c => sc_status c | None => decodeStoredStatus (status_ex "") None end.

(** Two executors hold the job at once, in a project with budget for both. *)
Lemma out_of_turn_keeps_claims_witness :
  CheckClaim holder_ex (35 * Second) requeued_ex = Ok tt /\
  CheckClaim holder_ex (45 * Second) second_claim_ex.2 = Ok tt /\
  CheckClaim second_holder_ex (45 * Second) second_claim_ex.2 = Ok tt /\
  bs_attempt_id holder_ex = "a1" /\ bs_attempt_id second_holder_ex = "a2".
Proof.
  refine (conj _ (conj _ (conj _ (conj _ _)))); [|vm_compute; reflexivity..].
  refine (proj2 (proj2 (proj2 (proj2 (proj2 (out_of_turn_keeps_claims marshal_status_ex marshal_request_ex any_uuid claimed_ex requeued_ex
    "n2" (Some holder_ex) remote_queued_ex "runtime" (at_time 30) claimed_reachable _ _))))) _ holder_ex (35 * Second) _ _).
  - apply (bool_decide_unpack _). vm_compute. exact I.
  - unfold requeued_ex. apply ran_ok. vm_compute. reflexivity.
  - vm_compute. reflexivity.
  - vm_compute. reflexivity.
  - vm_compute. reflexivity.
Defined.

Lemma idle_job_holds_nothing_witness :
  (length (resource_reservations recovered_ex) = 1)%nat /\
  forall r, r ∈ resource_reservations recovered_ex -> rv_job_id r = "j1" -> rv_state r = Released.
Proof.
  split; [vm_compute; reflexivity|].
  assert (exists j, j ∈ build_jobs recovered_ex /\ j_id j = "j1" /\ j_state j = "queued") as (j & Hj & HJ & Hq).
  { eexists. split_and!; [vm_compute; apply list_elem_of_here|reflexivity|reflexivity]. }
  rewrite <- HJ. refine (proj1 (proj2 (idle_job_holds_nothing marshal_status_ex marshal_request_ex any_uuid
    start_ex recovered_ex j start_initial _ Hj (or_introl Hq)))).
  etrans; [exact claimed_run|exact recovered_run].
Defined.

Lemma queued_job_has_next_fence_witness : allocateAttemptFence "j1" 3 recovered_ex = Ok (2, 2).
Proof.
  assert (exists j, j ∈ build_jobs recovered_ex /\ j_id j = "j1" /\ j_max_attempts j = 3 /\ j_state j = "queued")
    as (j & Hj & HJ & Hm & Hq).
  { eexists. split_and!; [vm_compute; apply list_elem_of_here|reflexivity..]. }
  pose proof (queued_job_has_next_fence marshal_status_ex marshal_request_ex any_uuid start_ex recovered_ex j
    start_initial ltac:(etrans; [exact claimed_run|exact recovered_run]) Hj Hq) as [H _].
  rewrite HJ, Hm in H. rewrite H. vm_compute. reflexivity.
Defined.

Lemma plan_runs_in_order_witness :
  pw_phase <$> plan_of "a1" (phase_work_items claimed_ex) = all_phases.
Proof.
  assert (exists w, w ∈ phase_work_items claimed_ex /\ pw_attempt_id w = "a1" /\ pw_state w = SReady)
    as (w & Hw & HA & Hs).
  { eexists. split_and!; [vm_compute; apply list_elem_of_here|reflexivity..]. }
  rewrite <- HA. refine (proj1 (proj2 (plan_runs_in_order marshal_status_ex marshal_request_ex any_uuid claimed_ex w
    claimed_reachable Hw (or_introl Hs)))).
Defined.
