(* ===== verification/JobHistory.v ===== *)
(** * What the job system never takes back

    Jobs keep their identity, project, idempotency key and request digest for
    ever, and a phase is never given out twice under one fence.  From this: a
    submission can be repeated safely, and a phase claim that was superseded is
    dead. *)

From S2P Require Import Prelude GoStrings GoSha256 Schema Capabilities CapacityLedger Budgets Fairness.
From S2P Require Import JobLedger Scheduler PhaseWork Fencing PhasePlan JobSystem JobSafety.
From Stdlib Require Import Ascii.
Open Scope string_scope.
Open Scope list_scope.
Open Scope Z_scope.

#[local] Arguments update_where : simpl never.

Definition jident (j : build_job) : uuid * uuid * option string * string :=
  (j_id j, j_project_id j, j_idempotency_key j, j_request_digest j).

(** One item, later: its fence never falls, and it is claimed under the same
    fence only by the claim that had it. *)
Definition phase_le (w w' : phase_work) : Prop :=
  pw_id w' = pw_id w /\ pw_claim_fence w <= pw_claim_fence w' /\
  (pw_state w' = SClaimed -> pw_claim_fence w' = pw_claim_fence w ->
   pw_state w = SClaimed /\ pw_claim_owner w' = pw_claim_owner w).
Definition items_le (l l' : list phase_work) : Prop :=
  forall w, w ∈ l -> exists w', w' ∈ l' /\ phase_le w w'.

Record evolves (d d' : db) : Prop := {
  ev_jobs : (jident <$> build_jobs d) `prefix_of` (jident <$> build_jobs d');
  ev_items : items_le (phase_work_items d) (phase_work_items d')
}.

#[export] Instance phase_le_preorder : PreOrder phase_le.
Proof.
  split.
  - intros w. split_and!; auto with lia.
  - intros x y z (Hi & Hf & Hc) (Hi' & Hf' & Hc'). split_and!; [congruence|lia|]. intros Hs Heq.
    assert (pw_claim_fence z = pw_claim_fence y) as Hzy by lia.
    destruct (Hc' Hs Hzy) as [Hsy Ho]. destruct (Hc Hsy ltac:(lia)). split; [done|congruence].
Qed.

#[export] Instance items_le_preorder : PreOrder items_le.
Proof.
  split.
  - intros l w Hw. by exists w.
  - intros l1 l2 l3 H12 H23 w Hw. destruct (H12 w Hw) as (x & Hx & Hwx). destruct (H23 x Hx) as (y & Hy & Hxy).
    exists y. split; [done|]. by etrans.
Qed.

#[export] Instance evolves_preorder : PreOrder evolves.
Proof.
  split.
  - intros d. split; reflexivity.
  - intros x y z [H1 H2] [H3 H4]. split; by etrans.
Qed.

Lemma items_update (P : phase_work -> Prop) `{HdP : !forall x, Decision (P x)} f (l : list phase_work) :
  (forall w, w ∈ l -> P w -> phase_le w (f w)) -> items_le l (update_where P f l).
Proof.
  intros Hf w Hw. destruct (decide (P w)) as [HP|HP].
  - exists (f w). split; [|auto]. apply elem_of_update_where. eauto 10.
  - exists w. split; [|done]. apply elem_of_update_where. eauto 10.
Qed.

(** A row that is not claimed afterwards. *)
Lemma phase_le_ended w w' : pw_id w' = pw_id w -> pw_claim_fence w' = pw_claim_fence w ->
  pw_state w' <> SClaimed -> phase_le w w'.
Proof. intros Hi Hf Hs. split_and!; [done|lia|done]. Qed.

(** A row that keeps its claim columns. *)
Lemma phase_le_kept w w' : pw_id w' = pw_id w -> pw_claim_fence w' = pw_claim_fence w ->
  pw_state w' = pw_state w -> pw_claim_owner w' = pw_claim_owner w -> phase_le w w'.
Proof. intros Hi Hf Hs Ho. split_and!; [done|lia|]. intros Hc _. by rewrite <- Hs. Qed.

Lemma evolves_jobs d d' : jident <$> build_jobs d' = jident <$> build_jobs d ->
  items_le (phase_work_items d) (phase_work_items d') -> evolves d d'.
Proof. intros Hj Hi. split; [by rewrite Hj|done]. Qed.

(** ** The helpers *)
Lemma settle_ident id reason state t d d' : settleAttemptUsage id reason state t d = Ok d' ->
  jident <$> build_jobs d' = jident <$> build_jobs d /\ phase_work_items d' = phase_work_items d.
Proof.
  unfold settleAttemptUsage. destruct (first_where _ _) as [u|]; [|by intros [= <-]].
  case_decide as Hst.
  - unfold applyFailureStormSuspension. intros H. inv_ok_step H.
    case_decide; simplify_eq; cbn; (split; [by apply update_where_map|done]).
  - intros [= <-]. cbn. split; [by apply update_where_map|done].
Qed.

Lemma settle_all_ident ids reason state t d d' : settle_all ids reason state t d = Ok d' ->
  jident <$> build_jobs d' = jident <$> build_jobs d /\ phase_work_items d' = phase_work_items d.
Proof.
  revert d. induction ids as [|id ids IH]; intros d H; cbn [settle_all] in H; [by simplify_eq|].
  destruct (settleAttemptUsage id reason state t d) as [d1|] eqn:Hs; [|done].
  apply IH in H as [H1 H2]. apply settle_ident in Hs as [G1 G2]. by rewrite H1, H2.
Qed.

Lemma cancel_items (P : phase_work -> Prop) `{HdP : !forall x, Decision (P x)} reason t l :
  items_le l (update_where P (cancel_phase reason t) l).
Proof. apply items_update. intros w _ _. by apply phase_le_ended. Qed.

Lemma record_attempt_evolves newID current t d d' :
  recordAttemptTransitionTx newID current t d = Ok d' -> evolves d d'.
Proof.
  unfold recordAttemptTransitionTx. case_decide as Hid.
  - case_decide; [by intros [= <-]|]. unfold upsertAttemptSnapshot. cbv zeta.
    destruct (first_where _ _); intros H'; inv_ok H'; subst d'; by apply evolves_jobs.
  - intros H. inv_ok_step H. destruct (isLedgerTerminal _).
    + inv_ok_step H. unfold budget in E. destruct (settleAttemptUsage _ _ _ _ _) as [d1|] eqn:Hs; [|done].
      simplify_eq. apply settle_ident in Hs as [Hj Hp]. apply evolves_jobs; cbn; [exact Hj|].
      rewrite Hp. apply cancel_items.
    + cbv zeta in H. apply reservation_phase_effect in H as (l & -> & _). case_decide; by apply evolves_jobs.
Qed.

Lemma register_evolves newID name caps now d id d' : register_worker newID name caps now d = Ok (id, d') ->
  evolves d d'.
Proof.
  unfold register_worker. destruct (first_where _ _); intros H; [by simplify_eq; apply evolves_jobs|].
  inv_ok H. simplify_eq. by apply evolves_jobs.
Qed.

Lemma flush_evolves t clk d d' : flushLeaseExpiries t clk d = Ok d' -> evolves d d'.
Proof.
  unfold flushLeaseExpiries. generalize (flush_keys t). intros keys. revert clk d.
  induction keys as [|key keys IH]; intros clk d H; cbn [flush_all] in H; [by simplify_eq|].
  inv_ok_step H. unfold recordLeaseExpiry in E. inv_ok E. subst a. apply IH in H. etrans; [|exact H]. by apply evolves_jobs.
Qed.

Lemma dispatch_evolves s kind queued now d r d' : recordFairDispatch s kind queued now d = Ok (r, d') -> evolves d d'.
Proof.
  unfold recordFairDispatch. cbv beta zeta. destruct (first_where _ (project_policies d)); [|by case_decide].
  repeat case_decide; try done; (destruct (first_where _ (scheduler_fairness d)); [|done]); intros; simplify_eq;
    by apply evolves_jobs.
Qed.

(** ** The operations *)
Section history.
Context (MarshalStatus : JobStatus -> list ascii) (MarshalRequest : BuildRequest -> list ascii)
        (uuid_Parse : string -> bool).
Notation step := (job_step MarshalStatus MarshalRequest uuid_Parse).

Lemma transition_evolves newID previous current source clk d d' :
  recordTransition MarshalStatus newID previous current source clk d = Ok d' -> evolves d d'.
Proof.
  unfold recordTransition. cbv zeta. destruct (first_where _ (build_jobs d)) as [j|]; [|done].
  case_decide; intros H'; [by simplify_eq|]. inv_ok H'. subst d'.
  apply record_attempt_evolves in E0. etrans; [|etrans; [exact E0|by apply evolves_jobs]].
  apply evolves_jobs; [|done]. by apply update_where_map.
Qed.

Lemma create_evolves newID req status source clk local r d d' :
  createJob MarshalStatus MarshalRequest newID req status source clk local d = Ok (r, d') -> evolves d d'.
Proof.
  intros H. unfold createJob in H. destruct req as [req|]; [|done]. do 3 inv_ok_step H.
  destruct a1 as [x|]; [by simplify_eq|]. cbv zeta in H. set (j := new_job _ _ _ _ _ _ _ _) in H.
  case_decide; [destruct (load_keyed _ _ _ _) as [[x|]|]; by simplify_eq|].
  inv_ok_step H. inv_ok_step H. injection H as _ <-.
  etrans; [|etrans; [|by apply (evolves_jobs a1)]]; [apply (Build_evolves d (d <| build_jobs := build_jobs d ++ [j] |>))|].
  - cbn. rewrite fmap_app. by apply prefix_app_r.
  - done.
  - case_decide; [by simplify_eq|]. unfold upsertAttemptSnapshot in E2. cbv zeta in E2.
    destruct (first_where _ (build_attempts _)); inv_ok E2; subst a1; by apply evolves_jobs.
Qed.

Lemma recover_all_evolves rows t clk d t' d' :
  recover_all MarshalStatus rows t clk d = Ok (t', d') -> evolves d d'.
Proof.
  revert t clk d. induction rows as [|row rows IH]; intros t clk d H; cbn [recover_all] in H; [by simplify_eq|].
  destruct (recoverExpiredLease _ _ _ _ _) as [[t1 d1]|] eqn:Hr; [|done]. apply IH in H. etrans; [|exact H].
  unfold recoverExpiredLease in Hr. destruct (expiredLeaseOutcome row) as [state reason]. cbv beta zeta in Hr.
  inv_ok_step Hr. unfold budget in E. destruct (settleAttemptUsage _ _ _ _ _) as [d2|] eqn:Hs; [|done]. injection E as <-.
  inv_ok_step Hr. injection Hr as _ <-. apply settle_ident in Hs as [Hj Hp]. cbn in Hj, Hp. apply evolves_jobs; cbn.
  - rewrite <- Hj. by apply update_where_map.
  - rewrite Hp. apply cancel_items.
Qed.

Lemma recover_evolves limit locked clk d n d' :
  recoverExpiredTx MarshalStatus limit locked clk d = Ok (n, d') -> evolves d d'.
Proof.
  intros H. unfold recoverExpiredTx in H. cbv zeta in H.
  destruct (recover_all _ _ _ _ _) as [[t d1]|] eqn:Hr; [|done].
  destruct (flushLeaseExpiries _ _ _) as [d2|] eqn:Hf; [|done]. simplify_eq.
  etrans; [by eapply recover_all_evolves|by eapply flush_evolves].
Qed.

Lemma claim_next_evolves ids workerID name kind lease lp lj clk claim d d' :
  claimNextTx MarshalStatus ids workerID name kind lease lp lj clk d = Ok (claim, d') -> evolves d d'.
Proof.
  intros H. unfold claimNextTx in H. destruct (selectClaimCandidate _ _ _ _ _) as [found d1] eqn:Hsel.
  assert (evolves d d1) as H1.
  { unfold selectClaimCandidate in Hsel. destruct (selectFairAdmissionProject _ _ _ _) as [s d2] eqn:Hs.
    unfold selectFairAdmissionProject in Hs. injection Hs as _ <-. injection Hsel as _ <-. by apply evolves_jobs. }
  destruct found as [c|]; [|by simplify_eq]. etrans; [exact H1|].
  destruct (prepareClaimAccounting _ _ _ _ _) as [[acc d2]|] eqn:Hacc; [|done].
  assert (evolves d1 d2) as H2.
  { unfold prepareClaimAccounting in Hacc. do 3 inv_ok_step Hacc. destruct a1 as [allowed retryAt].
    destruct allowed; simplify_eq; [done|]. apply evolves_jobs; [|done]. by apply update_where_map. }
  etrans; [exact H2|]. destruct acc as [[resources spec]|]; [|by simplify_eq]. inv_ok_step H.
  destruct a as [no fence]. inv_ok_step H. destruct a as [cl d3].
  assert (evolves d2 d3) as H3.
  { unfold persistClaim in E0. cbv beta zeta in E0. do 2 inv_ok_step E0. inv_ok_step E0. injection E0 as _ <-.
    unfold insertPhaseWorkPlan in E1. inv_ok E1. subst a. apply evolves_jobs; cbn.
    - by apply update_where_map.
    - intros w Hw. exists w. set_solver. }
  etrans; [exact H3|]. destruct (cc_scoring c) as [[n1 n2] n3]. inv_ok_step H. destruct a as [r d4]. injection H as _ <-.
  unfold fairly in E1. destruct (recordFairDispatch _ _ _ _ _) as [[r' d5]|] eqn:Hf; [|done]. injection E1 as -> ->.
  apply dispatch_evolves in Hf. etrans; [|etrans; [exact Hf|by apply evolves_jobs]]. by apply evolves_jobs.
Qed.

Lemma claim_job_evolves env name lease caps cache clk cache' claim d d' :
  ClaimNext MarshalStatus env name lease caps cache clk d = (cache', Ok (claim, d')) -> evolves d d'.
Proof.
  intros H. unfold ClaimNext in H. do 2 (case_decide; [done|]).
  destruct (NormalizeExecutorCapabilities _) as [labels|]; [|done].
  destruct (schedulerWorker _ _ _ _ _ _ _ _) as [[[workerID cache1] d1]|] eqn:Hw; [|done].
  assert (evolves d d1) as Hd1.
  { unfold schedulerWorker in Hw. cbv zeta in Hw.
    destruct (cache !! name) as [c|]; [case_decide; [by simplify_eq|]|];
      (inv_ok_step Hw; destruct a as [id d2]; simplify_eq; by eapply register_evolves). }
  injection H as _ H. unfold claim_tx in H. destruct (recoverExpiredTx _ _ _ _ _) as [[n d2]|] eqn:Hr; [|done].
  apply recover_evolves in Hr. apply claim_next_evolves in H. etrans; [exact Hd1|]. by etrans.
Qed.

Lemma renew_job_evolves status lease started now d d' : RenewClaim status lease started now d = Ok d' -> evolves d d'.
Proof. intros H. unfold RenewClaim in H. inv_ok H. subst d'. by apply evolves_jobs. Qed.

Lemma revoke_job_evolves J reason t d : evolves d (revokeWorkerGatewayJob J reason t d).
Proof.
  unfold revokeWorkerGatewayJob. generalize (a_id <$> filter (fun a => a_job_id a = J) (build_attempts d)) as ids.
  intros ids. revert d. induction ids as [|id ids IH]; intros d; [done|]. cbn [foldl].
  etrans; [|apply IH]. by apply evolves_jobs.
Qed.

Lemma cancel_job_evolves jobID reason now status d d' :
  CancelJob MarshalStatus jobID reason now d = Ok (status, d') -> evolves d d'.
Proof.
  intros H. unfold CancelJob in H. destruct (first_where _ _) as [j|] eqn:Hj; [|done].
  inv_ok_step H. cbv beta zeta in H. inv_ok_step H. injection H as _ <-.
  unfold budget, settleJobAttemptUsage in E. destruct (settle_all _ _ _ _ _) as [d1|] eqn:Hs; [|done]. injection E as <-.
  apply settle_all_ident in Hs as [H1 H2]. cbn in H1, H2.
  etrans; [|etrans; [apply revoke_job_evolves|by apply evolves_jobs]]. apply evolves_jobs; cbn.
  - rewrite H1. by apply update_where_map.
  - rewrite H2. apply cancel_items.
Qed.

Lemma retry_job_evolves jobID clk status d d' : RetryJob MarshalStatus jobID clk d = Ok (status, d') -> evolves d d'.
Proof.
  intros H. unfold RetryJob in H. destruct (first_where _ _) as [j|]; [|done]. inv_ok H. simplify_eq.
  apply evolves_jobs; [|done]. by apply update_where_map.
Qed.

Lemma hide_evolves jobID reason now d d' : HideJob jobID reason now d = Ok d' -> evolves d d'.
Proof. intros H. unfold HideJob in H. inv_ok H. subst d'. apply evolves_jobs; [|done]. by apply update_where_map. Qed.

Lemma events_evolve jobs eventType payload d :
  evolves d (foldl (fun d jobID => insertJobEvent jobID eventType payload d) d jobs).
Proof. revert d. induction jobs as [|J jobs IH]; intros d; [done|]. cbn. etrans; [|apply IH]. by apply evolves_jobs. Qed.

Lemma expire_evolves fuel before locked d n d' : ExpireTerminal fuel before locked d = Some (n, d') -> evolves d d'.
Proof.
  revert d n. induction fuel as [|fuel IH]; intros d n H; [done|]. cbn [ExpireTerminal] in H.
  assert (evolves d (expire_batch before locked d).2) as H1.
  { unfold expire_batch. cbn [snd]. etrans; [|apply events_evolve]. apply evolves_jobs; [|done].
    by apply update_where_map. }
  destruct (expire_batch before locked d) as [expired d1]. case_decide; [by simplify_eq|].
  destruct (ExpireTerminal fuel before locked d1) as [[m d2]|] eqn:Hr; [|done]. injection H as <- <-.
  etrans; [exact H1|]. by eapply IH.
Qed.

Lemma prune_evolves fuel before locked d n d' : PruneStaleWorkers fuel before locked d = Some (n, d') -> evolves d d'.
Proof.
  revert d n. induction fuel as [|fuel IH]; intros d n H; [done|]. cbn [PruneStaleWorkers] in H.
  destruct (prune_batch before locked d) as [[selected pruned] d1] eqn:He.
  assert (evolves d d1) as H1 by (unfold prune_batch in He; injection He as _ _ <-; by apply evolves_jobs).
  case_decide; [by simplify_eq|].
  destruct (PruneStaleWorkers fuel before locked d1) as [[m d2]|] eqn:Hr; [|done]. injection H as <- <-.
  etrans; [exact H1|]. by eapply IH.
Qed.

Lemma activate_evolves status clk d d' : ActivatePhasePlan uuid_Parse status clk d = Ok d' -> evolves d d'.
Proof.
  intros H. unfold ActivatePhasePlan in H. inv_ok_step H. destruct a as [J id]. inv_ok H. subst d'.
  apply evolves_jobs; [done|]. apply items_update. intros w _ _. by apply phase_le_kept.
Qed.

Lemma renew_phase_evolves claim lease clk d d' : RenewPhaseWork claim lease clk d = Ok d' -> evolves d d'.
Proof.
  intros H. unfold RenewPhaseWork in H. inv_ok H. subst d'.
  apply evolves_jobs; [done|]. apply items_update. intros w _ _. by apply phase_le_kept.
Qed.

Lemma context_evolves claim value now d d' : SavePhaseExecutionContext claim value now d = Ok d' -> evolves d d'.
Proof.
  intros H. unfold SavePhaseExecutionContext in H. do 2 inv_ok_step H.
  destruct (first_where _ (phase_execution_contexts d)); inv_ok H; subst d'; by apply evolves_jobs.
Qed.

Lemma ended_items P `{HdP : !forall x, Decision (P x)} s now error l : s <> SClaimed ->
  items_le l (update_where P (end_phase s now error) l).
Proof. intros Hs. apply items_update. intros w _ _. by apply phase_le_ended. Qed.

Lemma dependants_items attemptID sequence now l : items_le l (cancel_dependants attemptID sequence now l).
Proof. apply items_update. intros w _ _. by apply phase_le_ended. Qed.

Lemma finish_evolves claim state detail clk d d' : finishPhaseWork claim state detail clk d = Ok d' -> evolves d d'.
Proof.
  intros H. unfold finishPhaseWork in H. inv_ok H. subst d'. apply evolves_jobs; [done|]. cbn.
  etrans; [|apply items_update; intros w _ _; by apply phase_le_kept]. destruct state.
  - etrans; [by apply (ended_items (fun x => pw_id x = pk_id claim) SCompleted)|].
    apply items_update. intros w _ _. by apply phase_le_ended.
  - etrans; [by apply (ended_items (fun x => pw_id x = pk_id claim) SFailed)|]. apply dependants_items.
Qed.

Lemma finish_attempt_evolves claim status now detail d d' :
  finishPhaseAttemptTx MarshalStatus claim status now detail d = Ok d' -> evolves d d'.
Proof.
  unfold finishPhaseAttemptTx. intros H. cbv beta zeta in H. inv_ok_step H. inv_ok_step H. unfold budget in E.
  destruct (settleAttemptUsage _ _ _ _ _) as [d1|] eqn:Hs; [|done]. injection E as <-. inv_ok H. subst d'.
  apply settle_ident in Hs as [Hj Hp]. cbn in Hj, Hp. apply evolves_jobs; cbn; [|by rewrite Hp].
  rewrite <- Hj. by apply update_where_map.
Qed.

Lemma finalize_evolves claim previous completed local now d d' :
  FinalizePhaseWork MarshalStatus claim previous completed local now d = Ok d' -> evolves d d'.
Proof.
  intros H. unfold FinalizePhaseWork in H. inv_ok_step H. do 2 inv_ok_step H. cbv zeta in H. inv_ok H. subst d'.
  apply finish_attempt_evolves in E1. etrans; [|etrans; [exact E1|by apply evolves_jobs]].
  apply evolves_jobs; [done|]. by apply ended_items.
Qed.

Lemma fail_evolves claim previous detail local now d d' :
  FailPhaseWorkAndJob MarshalStatus claim previous detail local now d = Ok d' -> evolves d d'.
Proof.
  intros H. unfold FailPhaseWorkAndJob in H. cbv zeta in H. do 2 inv_ok_step H. inv_ok H. subst d'.
  apply finish_attempt_evolves in E1. etrans; [|etrans; [exact E1|by apply evolves_jobs]].
  apply evolves_jobs; [done|]. etrans; [by apply (ended_items (fun w => pw_id w = pk_id claim) SFailed)|].
  apply dependants_items.
Qed.

(** A claim of a phase is under the next fence of its item. *)
Lemma take_evolves p s owner lease workerID clk claim d d' :
  NoDup (pw_id <$> phase_work_items d) -> pj_item p ∈ phase_work_items d ->
  take_phase p s owner lease workerID clk d = Ok (claim, d') -> evolves d d'.
Proof.
  intros Hi Hp H. unfold take_phase in H. cbv zeta in H.
  destruct (updateResourceReservationPhase _ _ _ _) as [d1|e] eqn:Hres.
  2:{ destruct e; try done. injection H as _ <-. apply evolves_jobs; [done|]. apply items_update.
      intros w _ _. by apply phase_le_kept. }
  apply reservation_phase_effect in Hres as (l & -> & Hres). inv_ok_step H.
  destruct (pj_scoring p) as [[n1 n2] n3]. inv_ok_step H. destruct a as [r d2]. injection H as _ <-.
  unfold fairly in E. destruct (recordFairDispatch _ _ _ _ _) as [[r' d5]|] eqn:Hf; [|done]. injection E as -> ->.
  apply dispatch_evolves in Hf. etrans; [|etrans; [exact Hf|by apply evolves_jobs]].
  apply evolves_jobs; [done|]. apply items_update. intros w Hw [Hid _].
  assert (w = pj_item p) as -> by (by apply (key_unique pw_id (phase_work_items d))).
  unfold phase_le. cbn. split_and!; [done|lia|intros _ ?; lia].
Qed.

Lemma select_phase_item now workerID project phases locked d p :
  select_phase now workerID project phases locked d = Some p -> pj_item p ∈ phase_work_items d.
Proof.
  unfold select_phase. intros H%pick_elem. apply list_elem_of_omap in H as (x & [_ Hx]%list_elem_of_filter & H).
  unfold join_phase in H. repeat case_match; simplify_eq. done.
Qed.

Lemma claim_phase_evolves env owner lease caps phases clk claim d d' : job_inv d ->
  ClaimPhaseWork env owner lease caps phases clk d = Ok (claim, d') -> evolves d d'.
Proof.
  intros Hi H. unfold ClaimPhaseWork in H. cbv zeta in H. do 2 inv_ok_step H.
  destruct (NormalizeExecutorCapabilities _) as [labels|]; [|done]. inv_ok_step H. rename a into ps.
  unfold withDeferredLeaseExpiries in H. inv_ok_step H. destruct a as [[c t] d1]. inv_ok_step H. injection H as -> ->.
  etrans; [|by eapply flush_evolves].
  unfold claim_phase_body in E0. inv_ok_step E0. destruct a as [workerID d2].
  pose proof (register_same _ _ _ _ _ _ _ E2) as [Hv2 Hp2]. apply register_evolves in E2. etrans; [exact E2|].
  cbv zeta in E0. destruct (reclaim_expired _ _) as [n d3] eqn:Hrec. unfold reclaim_expired in Hrec. injection Hrec as _ <-.
  unfold selectFairPhaseProject in E0. set (d4 := ensureProjectFairnessRows _ _) in E0.
  assert (evolves d2 d4) as H4.
  { apply evolves_jobs; [done|]. apply items_update. intros w _ _. by apply phase_le_ended. }
  assert (plans_ok (phase_work_items d4)) as Hids.
  { apply plans_update; [rewrite Hp2; apply Hi|done|]. intros w [Hs _]. right. unfold active_state. cbn. auto. }
  etrans; [exact H4|]. destruct (_ <$> pick _ _) as [s|]; [|by injection E0 as _ _ <-].
  destruct (select_phase _ _ _ _ _ _) as [p|] eqn:Hsel; [|by injection E0 as _ _ <-].
  inv_ok_step E0. destruct a as [c' d5]. injection E0 as _ _ <-. apply select_phase_item in Hsel.
  eapply take_evolves; [apply Hids|exact Hsel|exact E3].
Qed.

Lemma job_step_evolves d d' : job_inv d -> step d d' -> evolves d d'.
Proof.
  intros Hi Hstep. destruct Hstep as [d d' Hs|d d' Hs]; [destruct Hs; eauto using create_evolves, claim_job_evolves, recover_evolves, renew_job_evolves,
    transition_evolves, cancel_job_evolves, retry_job_evolves, hide_evolves, expire_evolves, prune_evolves,
    activate_evolves, claim_phase_evolves, renew_phase_evolves, finish_evolves, finalize_evolves,
    fail_evolves, context_evolves|].
  destruct Hs as (H1 & _ & _ & _ & _ & H6).
  apply evolves_jobs; [by rewrite H1|by rewrite H6].
Qed.

Lemma job_steps_evolve d d' : job_inv d -> rtc step d d' -> evolves d d'.
Proof.
  intros Hi Hr. induction Hr as [d|d1 d2 d3 Hs _ IH]; [reflexivity|].
  etrans; [by apply job_step_evolves|]. apply IH. eapply implements_inv; [exact Hi|by eapply job_step_implements].
Qed.

(** ** Superseded phase claims *)

(** The item has been given out again, or it has left the claim. *)
Definition superseded (claim : PhaseWorkClaim) (d : db) : Prop :=
  exists w, w ∈ phase_work_items d /\ pw_id w = pk_id claim /\
    pk_claim_fence claim <= pw_claim_fence w /\ ~ claimed_by claim w.

Lemma superseded_stays claim d d' : job_inv d -> rtc step d d' -> superseded claim d ->
  forall w, w ∈ phase_work_items d' -> ~ claimed_by claim w.
Proof.
  intros Hi Hr (w & Hw & Hid & Hf & Hn) x Hx (Hxid & Hxs & Hxo & Hxf).
  destruct (ev_items _ _ (job_steps_evolve d d' Hi Hr) w Hw) as (w' & Hw' & Hid' & Hf' & Hc).
  apply (job_steps_implement _ _ _ d d' Hi) in Hr as [_ Hi'].
  assert (x = w') as -> by (apply (key_unique pw_id (phase_work_items d')); [apply Hi'|done|done|congruence]).
  destruct (Hc Hxs ltac:(lia)) as [Hws Hwo]. apply Hn. split_and!; [done|done|congruence|lia].
Qed.

(** A superseded phase claim is dead: once the item of a claim was reclaimed,
    finished or canceled, or given to another executor, then after any further
    steps the holder of the old claim can neither renew it, complete it, fail
    it, end the job with it, nor read or write the hand-off document. *)
Theorem superseded_phase_claim_rejected (d d' : db) (claim : PhaseWorkClaim)
    (R : reachable MarshalStatus MarshalRequest uuid_Parse d) (Hsup : superseded claim d) (Hs : rtc step d d') :
  (forall lease clk e, RenewPhaseWork claim lease clk d' <> Ok e) /\
  (forall detail clk, FailPhaseWork claim detail clk d' = Err PhaseClaimMissing) /\
  (forall clk, CompletePhaseWork claim clk d' = Err PhaseClaimMissing) /\
  (forall value now e, SavePhaseExecutionContext claim value now d' <> Ok e) /\
  (forall now, LoadPhaseExecutionContext claim now d' = Err ContextFenceStale) /\
  (forall previous completed local now e,
     FinalizePhaseWork MarshalStatus claim previous completed local now d' <> Ok e) /\
  (forall previous detail local now e,
     FailPhaseWorkAndJob MarshalStatus claim previous detail local now d' <> Ok e).
Proof.
  apply reachable_inv in R as Hi. pose proof (superseded_stays claim d d' Hi Hs Hsup) as Hdead.
  assert (first_where (claimed_by claim) (phase_work_items d') = None) as Hnone.
  { destruct (first_where _ _) as [w|] eqn:E; [|done]. apply first_where_some in E as [Hw Hc]. by destruct (Hdead w Hw). }
  assert (forall now, lockTerminalPhaseClaim claim now d' = Err PhaseClaimInvalid) as Hlock.
  { intros now. unfold lockTerminalPhaseClaim. rewrite decide_False; [done|].
    intros (w & Hw & (Hc & _) & _)%Exists_exists. by apply (Hdead w). }
  split_and!.
  - intros lease clk e H. unfold RenewPhaseWork in H. do 2 inv_ok_step H.
    assert (0 < count_where (live_claim_row claim (clk 0%nat)) (phase_work_items d'))%nat as Hpos by lia.
    apply count_where_pos in Hpos as (w & Hw & Hc' & _). by apply (Hdead w).
  - intros detail clk. unfold FailPhaseWork, finishPhaseWork. by rewrite Hnone.
  - intros clk. unfold CompletePhaseWork, finishPhaseWork. by rewrite Hnone.
  - intros value now e H. unfold SavePhaseExecutionContext in H. do 2 inv_ok_step H.
    apply first_where_some in E0 as (Hw & (Hc & _) & _). by apply (Hdead a).
  - intros now. unfold LoadPhaseExecutionContext.
    case_match eqn:E; [|done].
    apply first_where_some in E as (Hw & (Hc & _) & _). by destruct (Hdead _ Hw).
  - intros previous completed local now e H. unfold FinalizePhaseWork in H. inv_ok_step H. by rewrite Hlock in H.
  - intros previous detail local now e H. unfold FailPhaseWorkAndJob in H. cbv zeta in H. by rewrite Hlock in H.
Qed.

(** ** Repeated submissions *)
Definition same_key (P : uuid) (key : string) (i : uuid * uuid * option string * string) : Prop :=
  i.1.1.2 = P /\ i.1.2 = Some key.
#[local] Instance same_key_dec P key i : Decision (same_key P key i).
Proof. unfold same_key. apply _. Defined.

Lemma first_keyed P key l :
  jident <$> first_where (fun j => j_project_id j = P /\ j_idempotency_key j = Some key) l =
  first_where (same_key P key) (jident <$> l).
Proof.
  unfold first_where. induction l as [|j l IH]; [done|]. rewrite fmap_cons, !filter_cons.
  repeat case_decide; unfold same_key in *; cbn in *; tauto || done.
Qed.

(** The job that carries the key, and the digest it was submitted with. *)
Definition carries (P : uuid) (key : string) (J : uuid) (digest : string) (d : db) : Prop :=
  exists j, first_where (fun j => j_project_id j = P /\ j_idempotency_key j = Some key) (build_jobs d) = Some j /\
    j_id j = J /\ j_request_digest j = digest.

Lemma carries_stays P key J digest d d' : evolves d d' -> carries P key J digest d -> carries P key J digest d'.
Proof.
  intros [[rest Hjobs] _] (j & Hj & HJ & Hd).
  pose proof (first_keyed P key (build_jobs d)) as H1. pose proof (first_keyed P key (build_jobs d')) as H2.
  rewrite Hj in H1. rewrite Hjobs in H2. rewrite (first_where_app _ _ _ _ (eq_sym H1)) in H2.
  apply fmap_Some in H2 as (j' & Hj' & Hid). exists j'. unfold jident in Hid. injection Hid as <- _ _ <-. done.
Qed.

Lemma load_keyed_carries P req d r : rq_idempotency_key req <> "" ->
  load_keyed MarshalRequest P req d = Ok (Some r) ->
  carries P (rq_idempotency_key req) (lc_job_id r) (requestDigest MarshalRequest req) d.
Proof.
  intros Hk. unfold load_keyed. rewrite decide_False by done. unfold loadIdempotentJob.
  destruct (first_where _ _) as [j|] eqn:Hj; [|done]. intros H. inv_ok H. simplify_eq. exists j. done.
Qed.

Lemma prepare_carries P req source clk local d r : rq_idempotency_key req <> "" ->
  prepareJobCreation MarshalRequest P req source clk local d = Ok (Some r) ->
  carries P (rq_idempotency_key req) (lc_job_id r) (requestDigest MarshalRequest req) d.
Proof.
  intros Hk H. unfold prepareJobCreation in H.
  destruct (load_keyed MarshalRequest P req d) as [[x|]|] eqn:Hl; [simplify_eq; by apply load_keyed_carries| |done].
  case_decide; [done|]. inv_ok_step H. inv_ok_step H. done.
Qed.

Lemma create_carries newID req status source clk local d r d' : rq_idempotency_key req <> "" ->
  createJob MarshalStatus MarshalRequest newID (Some req) status source clk local d = Ok (r, d') ->
  exists P, resolveJobProject (rq_project_id req) d = Ok P /\
    carries P (rq_idempotency_key req) (lc_job_id r) (requestDigest MarshalRequest req) d'.
Proof.
  intros Hk H. unfold createJob in H. inv_ok_step H. inv_ok_step H. exists a0. split; [done|]. inv_ok_step H.
  destruct a1 as [x|]; [simplify_eq; by eapply prepare_carries|]. cbv zeta in H. set (j := new_job _ _ _ _ _ _ _ _) in H.
  case_decide as Hex; [destruct (load_keyed _ _ _ _) as [[x|]|] eqn:Hl; simplify_eq; by apply load_keyed_carries|].
  inv_ok_step H. inv_ok_step H. injection H as <- <-.
  assert (build_jobs a1 = build_jobs d ++ [j]) as Hjobs.
  { case_decide; [by simplify_eq|]. unfold upsertAttemptSnapshot in E2. cbv zeta in E2.
    destruct (first_where _ (build_attempts _)); inv_ok E2; by subst a1. }
  exists j. cbn. rewrite Hjobs.
  assert (j_idempotency_key j = Some (rq_idempotency_key req)) as Hkey.
  { subst j. cbn. unfold non_empty. by rewrite decide_False. }
  split; [|done]. unfold first_where. rewrite filter_app, (filter_none _ (build_jobs d)).
  - cbn. by rewrite decide_True.
  - intros x Hx [HP HK]. apply Hex. apply Exists_exists. exists x. rewrite HK, Hkey. split_and!; done.
Qed.

(** C27. A submission can be repeated: after a job was created under an
    idempotency key, and after any further steps of the system, submitting the
    same request again under that key (with the same project) returns that job
    and changes nothing, and submitting another request under the key is
    refused. *)
Theorem submission_idempotent newID req status source clk local (d d1 d2 : db) (r : LedgerCreateResult)
    newID2 req2 status2 source2 clk2 local2 (P : uuid) (labels : list string)
    (R : reachable MarshalStatus MarshalRequest uuid_Parse d) (Hkey : rq_idempotency_key req <> "")
    (H : createJob MarshalStatus MarshalRequest newID (Some req) status source clk local d = Ok (r, d1))
    (Hs : rtc step d1 d2) (Hkey2 : rq_idempotency_key req2 = rq_idempotency_key req)
    (Hp : resolveJobProject (rq_project_id req) d = Ok P)
    (Hp2 : resolveJobProject (rq_project_id req2) d2 = Ok P)
    (Hlabels : PhaseCapabilityRequirements (Some req2) "provision" = Ok labels) :
  if decide (requestDigest MarshalRequest req2 = requestDigest MarshalRequest req)
  then exists r2, createJob MarshalStatus MarshalRequest newID2 (Some req2) status2 source2 clk2 local2 d2 = Ok (r2, d2) /\
         lc_job_id r2 = lc_job_id r /\ lc_created r2 = false
  else createJob MarshalStatus MarshalRequest newID2 (Some req2) status2 source2 clk2 local2 d2 = Err IdempotencyConflict.
Proof.
  assert (job_inv d1) as Hi1.
  { eapply implements_inv; [by eapply reachable_inv|]. apply (job_step_implements MarshalStatus MarshalRequest uuid_Parse);
      [by eapply reachable_inv|]. apply js_op. eapply js_create. exact H. }
  destruct (create_carries _ _ _ _ _ _ _ _ _ Hkey H) as (P' & HP' & Hc). rewrite Hp in HP'. injection HP' as <-.
  apply (carries_stays _ _ _ _ d1 d2 (job_steps_evolve d1 d2 Hi1 Hs)) in Hc as (j & Hj & HJ & Hdig).
  assert (load_keyed MarshalRequest P req2 d2 =
    if decide (requestDigest MarshalRequest req2 = requestDigest MarshalRequest req)
    then Ok (Some (mkCreateResult (j_id j) (decodeStoredStatus (j_status_snapshot j) None) false))
    else Err IdempotencyConflict) as Hload.
  { unfold load_keyed, loadIdempotentJob. rewrite decide_False by congruence. rewrite Hkey2, Hj, Hdig.
    repeat case_decide; congruence. }
  unfold createJob. rewrite Hlabels, Hp2. unfold prepareJobCreation. rewrite Hload.
  case_decide; [|done]. eexists. split; [done|]. cbn. auto.
Qed.
End history.

(** ** The run, continued *)
Definition again_ex : result job_error (LedgerCreateResult * db) :=
  createJob marshal_status_ex marshal_request_ex "n2" (Some (Schema.request_ex <| rq_idempotency_key := "k1" |>))
    (decodeStoredStatus (status_ex "j2") None) "api" (at_time 300) (300 * Second) claimed_ex.

Lemma submission_idempotent_witness :
  exists r2, again_ex = Ok (r2, claimed_ex) /\ lc_job_id r2 = "j1" /\ lc_created r2 = false.
Proof.
  assert (is_ok (create_ex "k1" start_ex) = true) as H by (vm_compute; reflexivity).
  apply (ok_or_ran (mkCreateResult "" (decodeStoredStatus (status_ex "") None) false, empty_db)) in H.
  rewrite (surjective_pairing (ok_or _ _)) in H.
  pose proof (submission_idempotent marshal_status_ex marshal_request_ex any_uuid "n1"
    (Schema.request_ex <| rq_idempotency_key := "k1" |>) (decodeStoredStatus (status_ex "j1") None) "api" (at_time 10)
    (10 * Second) start_ex submitted_ex claimed_ex
    (ok_or (mkCreateResult "" (decodeStoredStatus (status_ex "") None) false, empty_db) (create_ex "k1" start_ex)).1 "n2" (Schema.request_ex <| rq_idempotency_key := "k1" |>) (decodeStoredStatus (status_ex "j2") None)
    "api" (at_time 300) (300 * Second) "p1" ["context:legacy"; "phase:provision"]) as Hid.
  rewrite decide_True in Hid by reflexivity.
  destruct (Hid (ex_intro _ start_ex (conj start_initial (rtc_refl _ _))) ltac:(discriminate) H) as (r2 & Hr & HJ & Hc).
  - apply rtc_once. apply js_op, claim_op. vm_compute. reflexivity.
  - reflexivity.
  - vm_compute. reflexivity.
  - vm_compute. reflexivity.
  - vm_compute. reflexivity.
  - exists r2. split; [exact Hr|]. split; [|exact Hc]. rewrite HJ. vm_compute. reflexivity.
Defined.

Definition activated_ex : db := ok_or empty_db (ActivatePhasePlan any_uuid holder_ex (at_time 25) claimed_ex).
Definition phase_claim_ex (n : string) (t : Z) (d : db) : result job_error (option PhaseWorkClaim * db) :=
  ClaimPhaseWork (mkPhaseEnv ("w" +:+ n) unlocked unlocked (mkTelemetry 0 true 0 0 0 0 [])) ("executor-" +:+ n) (10 * Second)
    ["phase:provision"; "context:legacy"] [] (at_time t) d.
Definition first_claim_ex : db := (ok_or (None, empty_db) (phase_claim_ex "2" 30 activated_ex)).2.
Definition first_holder_ex : PhaseWorkClaim :=
  default (mkPhaseClaim "" "" "" "" 0 Provision 0 "" 0 0 Schema.request_ex holder_ex)
    (ok_or (None, empty_db) (phase_claim_ex "2" 30 activated_ex)).1.
Definition second_claim_ex : db := (ok_or (None, empty_db) (phase_claim_ex "3" 45 first_claim_ex)).2.

Lemma phase_claim_run n t d : is_ok (phase_claim_ex n t d) = true ->
  step_ex d (ok_or (None, empty_db) (phase_claim_ex n t d)).2.
Proof.
  intros H. apply (ok_or_ran (None, empty_db)) in H. rewrite (surjective_pairing (ok_or _ _)) in H.
  apply js_op. eapply js_claim_phase. exact H.
Qed.

Lemma activated_run : rtc step_ex claimed_ex activated_ex.
Proof.
  apply rtc_once.
  assert (is_ok (ActivatePhasePlan any_uuid holder_ex (at_time 25) claimed_ex) = true) as H by (vm_compute; reflexivity).
  apply (ok_or_ran empty_db) in H. exact (js_op _ _ _ _ _ (js_activate _ _ _ _ _ _ _ H)).
Qed.

Lemma second_claim_reachable : reachable marshal_status_ex marshal_request_ex any_uuid second_claim_ex.
Proof.
  eapply reachable_steps; [exact claimed_reachable|]. etrans; [exact activated_run|].
  eapply rtc_l; [|apply rtc_once].
  - exact (phase_claim_run "2" 30 activated_ex ltac:(vm_compute; reflexivity)).
  - exact (phase_claim_run "3" 45 first_claim_ex ltac:(vm_compute; reflexivity)).
Qed.

Lemma superseded_phase_claim_rejected_witness :
  pw_claim_fence <$> take 1 (phase_work_items second_claim_ex) = [2] /\
  CompletePhaseWork first_holder_ex (at_time 46) second_claim_ex = Err PhaseClaimMissing.
Proof.
  split; [vm_compute; reflexivity|].
  refine (proj1 (proj2 (proj2 (superseded_phase_claim_rejected marshal_status_ex marshal_request_ex any_uuid
    second_claim_ex second_claim_ex first_holder_ex second_claim_reachable _ (rtc_refl _ _)))) (at_time 46)).
  eexists. split; [vm_compute; apply list_elem_of_here|].
  split; [vm_compute; reflexivity|]. split; [vm_compute; discriminate|].
  intros H. vm_compute in H. destruct H as (_ & _ & H & _). discriminate H.
Defined.
