(* ===== verification/WorkerGateway.v ===== *)
(** * The worker gateway

    [internal/workergateway] (the identity of [protocol.go], the certificate
    record of [cert.go], the confined upload destinations of [broker.go]) and
    the durable store of [internal/persistence/worker_gateway.go]: attempt-bound
    sessions and certificates, the command queue a worker polls, and fenced
    uploads.

    [uuid_Parse] gives the canonical spelling of a uuid (third-party package),
    [jsonb] the stored value of a JSON text (PostgreSQL), as text; equal values
    have equal text. *)

From S2P Require Import Prelude GoStrings GoJson GoPath GoUrl Schema Fairness JobLedger.
From Stdlib Require Import Ascii.
Open Scope string_scope.
Open Scope list_scope.
Open Scope Z_scope.

Inductive gateway_error :=
| IdentityInvalid | IdentityURIInvalid | CertificateRecordInvalid | PresentedInvalid | SessionStale | GatewayDuplicateKey
| GatewayCheckViolation | IssuerUnusable | CertificateConflict | CertificateRejected | SessionBound
| CommandIDInvalid | ActionUnsupported (action : string) | RequestNotJson | JsonRejected | CommandConflict
| CommandLeaseInvalid | CompletionFenceInvalid | CompletionErrorTooLong | CompletionNotJson | StaleFence
| CommandUnknown | ResultPending | UploadIDInvalid | DestinationInvalid | DestinationNotNormalized
| DestinationEscapes | UploadCapabilityInvalid | UploadLeaseInvalid | UploadUnknown | UploadResultInvalid
| RevokeInvalid | CertificateMissing | IssuerMissing | UploadRootMissing.

Definition maxGatewayErrorBytes : Z := 64 * 1024.
Definition maxGatewayDestinationBytes : Z := 16 * 1024.

(** ** Identities and certificates *)
Record Identity := mkIdentity {
  id_worker_id : string;
  id_job_id : uuid;
  id_attempt_id : uuid;
  id_fence_token : Z
}.
#[export] Instance Identity_eq : EqDecision Identity. Proof. solve_decision. Defined.

Definition identity_Validate (i : Identity) : result gateway_error unit :=
  check ~ (TrimSpace (id_worker_id i) = "" \/ TrimSpace (id_job_id i) = "" \/
           TrimSpace (id_attempt_id i) = "" \/ id_fence_token i <= 0) else IdentityInvalid;;
  check Forall (fun value => ContainsAny value "/?#" = false)
          [id_worker_id i; id_job_id i; id_attempt_id i] else IdentityInvalid;;
  Ok tt.

(** The path of the URI: everything after its scheme and host. *)
Definition identity_path (i : Identity) : list ascii :=
  bytes "/worker/" ++ PathEscape (id_worker_id i) ++ bytes "/job/" ++ PathEscape (id_job_id i) ++
  bytes "/attempt/" ++ PathEscape (id_attempt_id i) ++ bytes "/fence/" ++ format_decimal (id_fence_token i).

Definition identity_URI (i : Identity) : result gateway_error URL :=
  let! _ := identity_Validate i in
  match url_Parse "spiffe" "portage-engine" (identity_path i) with Some u => Ok u | None => Err IdentityInvalid end.

Definition ParseIdentityURI (uri : option URL) : result gateway_error Identity :=
  match uri with
  | None => Err IdentityURIInvalid
  | Some uri =>
      check ~ (u_scheme uri <> "spiffe" \/ u_host uri <> "portage-engine" \/ u_raw_query uri <> [] \/
               u_fragment uri <> []) else IdentityURIInvalid;;
      match split_byte SLASH (trim_byte SLASH (EscapedPath uri)) with
      | [p0; p1; p2; p3; p4; p5; p6; p7] =>
          check ~ (p0 <> bytes "worker" \/ p2 <> bytes "job" \/ p4 <> bytes "attempt" \/ p6 <> bytes "fence")
            else IdentityURIInvalid;;
          match PathUnescape p1, PathUnescape p3, PathUnescape p5, ParseInt p7 with
          | Some workerID, Some jobID, Some attemptID, Some fence =>
              let identity := mkIdentity workerID jobID attemptID fence in
              let! _ := identity_Validate identity in
              Ok identity
          | _, _, _, _ => Err IdentityURIInvalid
          end
      | _ => Err IdentityURIInvalid
      end
  end.

(** The zero [time.Time], as nanoseconds since 1970. *)
Definition zero_time : time := - 62135596800 * Second.

Record CertificateRecord := mkCertificateRecord {
  cr_fingerprint : string;
  cr_serial : string;
  cr_issuer_id : string;
  cr_issuer_provider : string;
  cr_issuer_fingerprint : string;
  cr_issuer_subject : string;
  cr_issuer_serial : string;
  cr_issuer_not_before : time;
  cr_issuer_not_after : time;
  cr_not_before : time;
  cr_not_after : time
}.

Definition fingerprintLength : Z := 64.
Definition sha256_hex (s : string) : Prop := go_len s = fingerprintLength /\ lower_hex s = true.
Definition serial_hex (s : string) : Prop := s <> "" /\ go_len s <= 256 /\ lower_hex s = true.

Definition certificate_Validate (c : CertificateRecord) : result gateway_error unit :=
  check sha256_hex (cr_fingerprint c) /\ sha256_hex (cr_issuer_fingerprint c) else CertificateRecordInvalid;;
  check serial_hex (cr_serial c) /\ serial_hex (cr_issuer_serial c) else CertificateRecordInvalid;;
  check ~ (TrimSpace (cr_serial c) = "" \/ TrimSpace (cr_issuer_serial c) = "" \/
           TrimSpace (cr_issuer_id c) = "" \/ TrimSpace (cr_issuer_provider c) = "" \/
           cr_not_before c = zero_time \/ cr_not_after c <= cr_not_before c \/
           cr_issuer_not_before c = zero_time \/ cr_issuer_not_after c <= cr_issuer_not_before c \/
           cr_issuer_not_after c < cr_not_after c) else CertificateRecordInvalid;;
  Ok tt.

Record PresentedCertificate := mkPresented { pr_fingerprint : string; pr_serial : string }.

(** ** Sessions *)

(** The active session of exactly this identity. *)
Definition session_of (i : Identity) (s : gateway_session) : Prop :=
  gs_worker_id s = id_worker_id i /\ gs_job_id s = id_job_id i /\ gs_attempt_id s = id_attempt_id i /\
  gs_attempt_fence s = id_fence_token i /\ gs_state s = SessActive.
#[export] Instance session_of_dec i s : Decision (session_of i s).
Proof. unfold session_of. apply _. Defined.

(** The attempt holds its lease under the fence. *)
Definition attempt_leased (attemptID : uuid) (fence : Z) (now : time) (d : db) : Prop :=
  exists_row (fun l => wl_attempt_id l = attemptID /\ wl_fence_token l = fence /\ now < wl_expires_at l)
    (worker_leases d).
#[export] Instance attempt_leased_dec a f now d : Decision (attempt_leased a f now d).
Proof. unfold attempt_leased. apply _. Defined.

Definition open_job (jobID : uuid) (d : db) : Prop :=
  exists_row (fun j => j_id j = jobID /\ ~ terminal (j_state j)) (build_jobs d).
#[export] Instance open_job_dec jobID d : Decision (open_job jobID d).
Proof. unfold open_job. apply _. Defined.

(** The row the registration selects, if any: the project of the live attempt. *)
Definition live_attempt_project (i : Identity) (now : time) (d : db) : option uuid :=
  match first_where (fun j => j_id j = id_job_id i /\ ~ terminal (j_state j)) (build_jobs d) with
  | None => None
  | Some j =>
      if decide (exists_row (fun a => a_id a = id_attempt_id i /\ a_job_id a = j_id j /\
                                      a_fence_token a = id_fence_token i) (build_attempts d) /\
                 attempt_leased (id_attempt_id i) (id_fence_token i) now d)
      then Some (j_project_id j) else None
  end.

Definition RegisterWorkerSession (i : Identity) (now : time) (d : db) : result gateway_error db :=
  let! _ := identity_Validate i in
  match live_attempt_project i now d with
  | None => Err SessionStale
  | Some project =>
      match first_where (fun s => gs_worker_id s = id_worker_id i) (gateway_sessions d) with
      | Some s =>
          check gs_job_id s = id_job_id i /\ gs_attempt_id s = id_attempt_id i /\
                gs_attempt_fence s = id_fence_token i else SessionStale;;
          Ok (d <| gateway_sessions := update_where (fun s => gs_worker_id s = id_worker_id i)
                (fun s => s <| gs_state := SessActive |> <| gs_revoked_at := None |>
                            <| gs_revoke_reason := "" |> <| gs_updated_at := now |>) (gateway_sessions d) |>)
      | None =>
          check ~ exists_row (fun s => gs_attempt_id s = id_attempt_id i) (gateway_sessions d)
            else GatewayDuplicateKey;;
          Ok (d <| gateway_sessions := gateway_sessions d ++
                [mkSession (id_worker_id i) project (id_job_id i) (id_attempt_id i) (id_fence_token i)
                   SessActive None None None None "" now] |>)
      end
  end.

(** ** Issuer generations and certificates *)
Definition drain_issuers (record : CertificateRecord) (d : db) : db :=
  d <| workload_issuers :=
    update_where (fun i => wi_issuer_id i = cr_issuer_id record /\
                           wi_fingerprint i <> cr_issuer_fingerprint record /\ wi_state i = IssActive)
      (fun i => i <| wi_state := IssDraining |>) (workload_issuers d) |>.

Definition same_issuer (record : CertificateRecord) (i : workload_issuer) : Prop :=
  wi_issuer_id i = cr_issuer_id record /\ wi_provider i = cr_issuer_provider record /\
  wi_subject i = cr_issuer_subject record /\ wi_serial_hex i = cr_issuer_serial record /\
  wi_not_before i = cr_issuer_not_before record /\ wi_not_after i = cr_issuer_not_after record /\
  wi_state i = IssActive.
#[export] Instance same_issuer_dec record i : Decision (same_issuer record i).
Proof. unfold same_issuer. apply _. Defined.

(** [INSERT ... ON CONFLICT (fingerprint) DO UPDATE]; the lengths are [CHECK]
    constraints of the table. *)
Definition upsert_issuer (record : CertificateRecord) (now : time) (d : db) : result gateway_error db :=
  check 1 <= char_length (cr_issuer_id record) <= 128 /\ 1 <= char_length (cr_issuer_provider record) <= 64 /\
        char_length (cr_issuer_subject record) <= 4096 else GatewayCheckViolation;;
  match first_where (fun i => wi_fingerprint i = cr_issuer_fingerprint record) (workload_issuers d) with
  | Some i =>
      check same_issuer record i else IssuerUnusable;;
      Ok (d <| workload_issuers :=
            update_where (fun i => wi_fingerprint i = cr_issuer_fingerprint record)
              (fun i => i <| wi_last_issued_at := now |>) (workload_issuers d) |>)
  | None =>
      Ok (d <| workload_issuers := workload_issuers d ++
            [mkIssuer (cr_issuer_fingerprint record) (cr_issuer_id record) (cr_issuer_provider record)
               (cr_issuer_subject record) (cr_issuer_serial record) (cr_issuer_not_before record)
               (cr_issuer_not_after record) IssActive now None ""] |>)
  end.

Definition new_certificate (s : gateway_session) (record : CertificateRecord) (now : time)
    : workload_certificate :=
  mkCertificate (cr_fingerprint record) (cr_serial record) (cr_issuer_fingerprint record) (gs_worker_id s)
    (gs_job_id s) (gs_attempt_id s) (gs_attempt_fence s) (cr_not_before record) (cr_not_after record)
    SessActive now None None None "".

(** The stored row has the immutable columns of the new one and is active. *)
Definition same_certificate (new c : workload_certificate) : Prop :=
  wc_serial_hex c = wc_serial_hex new /\ wc_issuer_fingerprint c = wc_issuer_fingerprint new /\
  wc_worker_id c = wc_worker_id new /\ wc_job_id c = wc_job_id new /\
  wc_attempt_id c = wc_attempt_id new /\ wc_attempt_fence c = wc_attempt_fence new /\
  wc_not_before c = wc_not_before new /\ wc_not_after c = wc_not_after new /\ wc_state c = SessActive.
#[export] Instance same_certificate_dec new c : Decision (same_certificate new c).
Proof. unfold same_certificate. apply _. Defined.

Definition insert_certificate (i : Identity) (record : CertificateRecord) (now : time) (d : db)
    : result gateway_error db :=
  match first_where (session_of i) (gateway_sessions d) with
  | None => Err CertificateConflict
  | Some s =>
      let new := new_certificate s record now in
      match first_where (fun c => wc_fingerprint c = wc_fingerprint new) (workload_certificates d) with
      | Some c => check same_certificate new c else CertificateConflict;; Ok d
      | None =>
          check ~ exists_row (fun c => wc_worker_id c = wc_worker_id new \/
                    (wc_issuer_fingerprint c = wc_issuer_fingerprint new /\
                     wc_serial_hex c = wc_serial_hex new)) (workload_certificates d)
            else GatewayDuplicateKey;;
          Ok (d <| workload_certificates := workload_certificates d ++ [new] |>)
      end
  end.

Definition bind_certificate (i : Identity) (fingerprint : string) (now : time) (d : db)
    : result gateway_error db :=
  let mine := fun s => session_of i s /\
    (gs_certificate_fingerprint s = None \/ gs_certificate_fingerprint s = Some fingerprint) in
  check count_where mine (gateway_sessions d) = 1%nat else SessionBound;;
  check ~ exists_row (fun s => gs_certificate_fingerprint s = Some fingerprint /\
                               gs_worker_id s <> id_worker_id i) (gateway_sessions d)
    else GatewayDuplicateKey;;
  Ok (d <| gateway_sessions := update_where mine
        (fun s => s <| gs_certificate_fingerprint := Some fingerprint |> <| gs_updated_at := now |>)
        (gateway_sessions d) |>).

Definition RegisterWorkerCertificate (i : Identity) (record : CertificateRecord) (clk : clock) (d : db)
    : result gateway_error db :=
  let! _ := identity_Validate i in
  let! _ := certificate_Validate record in
  let d := drain_issuers record d in
  let! d := upsert_issuer record (clk 0%nat) d in
  let! d := insert_certificate i record (clk 1%nat) d in
  bind_certificate i (cr_fingerprint record) (clk 2%nat) d.

Definition certificate_usable (i : Identity) (presented : PresentedCertificate) (now : time) (d : db)
    (c : workload_certificate) : Prop :=
  wc_fingerprint c = pr_fingerprint presented /\ wc_serial_hex c = ToLower (pr_serial presented) /\
  wc_worker_id c = id_worker_id i /\ wc_job_id c = id_job_id i /\ wc_attempt_id c = id_attempt_id i /\
  wc_attempt_fence c = id_fence_token i /\ wc_state c = SessActive /\
  wc_not_before c <= now <= wc_not_after c /\
  exists_row (fun g => wi_fingerprint g = wc_issuer_fingerprint c /\ wi_state g ∈ [IssActive; IssDraining] /\
                       wi_not_before g <= now <= wi_not_after g) (workload_issuers d) /\
  exists_row (fun s => gs_worker_id s = wc_worker_id c /\
                       gs_certificate_fingerprint s = Some (wc_fingerprint c) /\
                       gs_state s = SessActive) (gateway_sessions d).
#[export] Instance certificate_usable_dec i presented now d c :
  Decision (certificate_usable i presented now d c).
Proof. unfold certificate_usable. apply _. Defined.

Definition AuthorizeWorkerCertificate (i : Identity) (presented : PresentedCertificate) (now : time) (d : db)
    : result gateway_error db :=
  let! _ := identity_Validate i in
  check sha256_hex (pr_fingerprint presented) /\ pr_serial presented <> "" else PresentedInvalid;;
  check count_where (certificate_usable i presented now d) (workload_certificates d) = 1%nat
    else CertificateRejected;;
  Ok (d <| workload_certificates := update_where (certificate_usable i presented now d)
        (fun c => c <| wc_first_seen_at := Some (default now (wc_first_seen_at c)) |>
                    <| wc_last_seen_at := Some now |>) (workload_certificates d) |>).

(** ** Revocation and liveness of a session *)
Definition RevokeWorkerSession (i : Identity) (reason : string) (clk : clock) (d : db)
    : result gateway_error db :=
  let reason := if decide (maxGatewayErrorBytes < go_len reason)
                then prefix_bytes maxGatewayErrorBytes reason else reason in
  if decide (count_where (session_of i) (gateway_sessions d) = 0%nat) then Ok d else
  let worker := id_worker_id i in
  Ok (d <| gateway_sessions := update_where (session_of i) (revoke_session reason (clk 0%nat))
             (gateway_sessions d) |>
        <| workload_certificates :=
             update_where (fun c => wc_worker_id c = worker /\ wc_state c = SessActive)
               (revoke_certificate reason (clk 1%nat)) (workload_certificates d) |>
        <| gateway_commands :=
             update_where (fun c => gc_worker_id c = worker /\ gc_state c ∈ [CmdQueued; CmdDelivered])
               (cancel_command reason (clk 2%nat)) (gateway_commands d) |>
        <| gateway_uploads :=
             update_where (fun u => gu_worker_id u = worker /\ gu_state u ∈ [UpReady; UpUploading])
               (cancel_upload (clk 3%nat)) (gateway_uploads d) |>).

Definition touch_session (now : time) (s : gateway_session) : gateway_session :=
  s <| gs_connected_at := Some (default now (gs_connected_at s)) |> <| gs_last_seen_at := Some now |>
    <| gs_updated_at := now |>.

(** The attempt of the session runs under its fence and its job is open. *)
Definition session_live (now : time) (d : db) (s : gateway_session) : Prop :=
  exists_row (fun a => a_id a = gs_attempt_id s /\ a_job_id a = gs_job_id s /\
                       a_fence_token a = gs_attempt_fence s) (build_attempts d) /\
  attempt_leased (gs_attempt_id s) (gs_attempt_fence s) now d /\ open_job (gs_job_id s) d.
#[export] Instance session_live_dec now d s : Decision (session_live now d s).
Proof. unfold session_live. apply _. Defined.

Definition TouchWorkerSession (i : Identity) (now : time) (d : db) : result gateway_error db :=
  let mine := fun s => session_of i s /\ session_live now d s in
  check count_where mine (gateway_sessions d) = 1%nat else SessionStale;;
  Ok (d <| gateway_sessions := update_where mine (touch_session now) (gateway_sessions d) |>).

Definition touchWorkerSessionTx (i : Identity) (now : time) (d : db) : result gateway_error db :=
  let mine := fun s => session_of i s /\ attempt_leased (gs_attempt_id s) (gs_attempt_fence s) now d in
  check count_where mine (gateway_sessions d) = 1%nat else SessionStale;;
  Ok (d <| gateway_sessions := update_where mine (touch_session now) (gateway_sessions d) |>).

Definition WorkerSessionConnected (i : Identity) (d : db) : bool :=
  bool_decide (exists_row (fun s => session_of i s /\ is_Some (gs_connected_at s)) (gateway_sessions d)).

Section gateway.
Context (uuid_Parse : string -> option uuid) (jsonb : string -> option string).

(** ** Commands *)
Definition ActionBuild := "build".
Definition ActionVerify := "verify".
Definition ActionCollect := "collect".

Record Task := mkTask { tk_id : string; tk_action : string; tk_delivery_fence : Z; tk_payload : string }.
Record Completion := mkCompletion {
  cm_task_id : uuid;
  cm_delivery_fence : Z;
  cm_payload : string;
  cm_error : string
}.

Definition same_command (new c : gateway_command) : Prop :=
  gc_worker_id c = gc_worker_id new /\ gc_job_id c = gc_job_id new /\
  gc_attempt_id c = gc_attempt_id new /\ gc_action c = gc_action new /\ gc_request c = gc_request new.
#[local] Instance same_command_dec new c : Decision (same_command new c).
Proof. unfold same_command. apply _. Defined.

(** The conflict leaves the stored command as it is. *)
Definition EnqueueWorkerCommand (i : Identity) (task : Task) (now : time) (d : db)
    : result gateway_error db :=
  match uuid_Parse (tk_id task) with
  | None => Err CommandIDInvalid
  | Some id =>
      check tk_action task ∈ [ActionBuild; ActionVerify; ActionCollect]
        else ActionUnsupported (tk_action task);;
      check json_Valid (tk_payload task) = true else RequestNotJson;;
      match jsonb (tk_payload task) with
      | None => Err JsonRejected
      | Some request =>
          match first_where (fun s => session_of i s /\
                  attempt_leased (gs_attempt_id s) (gs_attempt_fence s) now d) (gateway_sessions d) with
          | None => Err CommandConflict
          | Some s =>
              let new := mkCommand id (gs_worker_id s) (gs_project_id s) (gs_job_id s) (gs_attempt_id s)
                           (tk_action task) request CmdQueued 0 None None "" now None None now in
              match first_where (fun c => gc_id c = id) (gateway_commands d) with
              | Some c => check same_command new c else CommandConflict;; Ok d
              | None => Ok (d <| gateway_commands := gateway_commands d ++ [new] |>)
              end
          end
      end
  end.

Definition delivery_order : order gateway_command := then_by (by_key gc_created_at) (by_str gc_id).

Definition requeue_command (now : time) (c : gateway_command) : gateway_command :=
  c <| gc_state := CmdQueued |> <| gc_delivery_lease_expires_at := None |> <| gc_updated_at := now |>.
Definition deliver_command (lease : duration) (now : time) (c : gateway_command) : gateway_command :=
  c <| gc_state := CmdDelivered |> <| gc_delivery_fence := gc_delivery_fence c + 1 |>
    <| gc_delivery_lease_expires_at := Some (now + lease) |> <| gc_delivered_at := Some now |>
    <| gc_updated_at := now |>.

(** [None] is [ErrNoWork]: the heartbeat is committed. *)
Definition ClaimWorkerCommand (i : Identity) (lease : duration) (locked : uuid -> bool) (clk : clock) (d : db)
    : result gateway_error (option Task * db) :=
  check 0 < lease else CommandLeaseInvalid;;
  let! d := touchWorkerSessionTx i (clk 0%nat) d in
  let mine := fun c => gc_worker_id c = id_worker_id i /\ gc_attempt_id c = id_attempt_id i in
  let d := d <| gateway_commands :=
    update_where (fun c => mine c /\ gc_state c = CmdDelivered /\
                           at_or_before (gc_delivery_lease_expires_at c) (clk 1%nat))
      (requeue_command (clk 1%nat)) (gateway_commands d) |> in
  match pick delivery_order (filter (fun c => mine c /\ gc_state c = CmdQueued /\ locked (gc_id c) = false)
          (gateway_commands d)) with
  | None => Ok (None, d)
  | Some c =>
      let c' := deliver_command lease (clk 2%nat) c in
      Ok (Some (mkTask (gc_id c') (gc_action c') (gc_delivery_fence c') (gc_request c')),
          d <| gateway_commands := update_where (fun x => gc_id x = gc_id c)
                 (deliver_command lease (clk 2%nat)) (gateway_commands d) |>)
  end.

(** The command a completion may end: delivered under its fence, or ended with
    the same outcome already. *)
Definition completable (i : Identity) (completion : Completion) (state : CommandState)
    (response : option string) (now : time) (d : db) (c : gateway_command) : Prop :=
  gc_id c = cm_task_id completion /\ gc_worker_id c = id_worker_id i /\ gc_job_id c = id_job_id i /\
  gc_attempt_id c = id_attempt_id i /\
  exists_row (fun s => gs_worker_id s = gc_worker_id c /\ gs_attempt_fence s = id_fence_token i /\
                       gs_state s = SessActive) (gateway_sessions d) /\
  gc_delivery_fence c = cm_delivery_fence completion /\
  (gc_state c = CmdDelivered \/
   (gc_state c = state /\ gc_error c = cm_error completion /\ gc_response c = response)) /\
  attempt_leased (gc_attempt_id c) (id_fence_token i) now d /\ open_job (gc_job_id c) d.
#[local] Instance completable_dec i completion state response now d c :
  Decision (completable i completion state response now d c).
Proof. unfold completable. apply _. Defined.

(** The stored response of a payload: NULL when it is empty. *)
Definition response_of (payload : string) : result gateway_error (option string) :=
  if decide (payload = "") then Ok None
  else match jsonb payload with Some value => Ok (Some value) | None => Err JsonRejected end.
Definition outcome (completion : Completion) : CommandState :=
  if decide (cm_error completion = "") then CmdCompleted else CmdFailed.

Definition CompleteWorkerCommand (i : Identity) (completion : Completion) (now : time) (d : db)
    : result gateway_error db :=
  check 0 < cm_delivery_fence completion else CompletionFenceInvalid;;
  check go_len (cm_error completion) <= maxGatewayErrorBytes else CompletionErrorTooLong;;
  check ~ (cm_payload completion <> "" /\ json_Valid (cm_payload completion) = false)
    else CompletionNotJson;;
  let state := outcome completion in
  let! response := response_of (cm_payload completion) in
  check count_where (completable i completion state response now d) (gateway_commands d) = 1%nat
    else StaleFence;;
  Ok (d <| gateway_commands := update_where (completable i completion state response now d)
        (fun c => c <| gc_state := state |> <| gc_response := response |> <| gc_error := cm_error completion |>
                    <| gc_delivery_lease_expires_at := None |>
                    <| gc_completed_at := Some (default now (gc_completed_at c)) |>
                    <| gc_updated_at := now |>) (gateway_commands d) |>).

Definition command_ended (s : CommandState) : Prop := s ∈ [CmdCompleted; CmdFailed; CmdCanceled].
#[local] Instance command_ended_dec s : Decision (command_ended s).
Proof. unfold command_ended. apply _. Defined.

Definition WorkerCommandResult (i : Identity) (taskID : uuid) (d : db) : result gateway_error Completion :=
  match first_where (fun c => gc_id c = taskID /\ gc_worker_id c = id_worker_id i /\
            gc_job_id c = id_job_id i /\ gc_attempt_id c = id_attempt_id i /\
            exists_row (fun s => gs_worker_id s = gc_worker_id c /\ gs_attempt_fence s = id_fence_token i)
              (gateway_sessions d)) (gateway_commands d) with
  | None => Err CommandUnknown
  | Some c =>
      check command_ended (gc_state c) else ResultPending;;
      Ok (mkCompletion taskID (gc_delivery_fence c) (default "" (gc_response c)) (gc_error c))
  end.

(** ** Uploads *)
Definition checkGatewayUploadID (uploadID : string) : result gateway_error unit :=
  check uuid_Parse uploadID = Some uploadID else UploadIDInvalid;;
  Ok tt.

Definition checkGatewayDestination (destination : string) : result gateway_error unit :=
  check ~ (destination = "" \/ maxGatewayDestinationBytes < go_len destination) else DestinationInvalid;;
  let clean := Clean destination in
  check ~ (clean <> destination \/ clean = "." \/ clean = "..") else DestinationNotNormalized;;
  check ~ (IsAbs clean = false /\ bytes "../" `prefix_of` bytes clean) else DestinationEscapes;;
  Ok tt.

Definition PrepareWorkerUpload (i : Identity) (uploadID destination : string) (maxBytes : Z) (now : time)
    (d : db) : result gateway_error db :=
  let! _ := checkGatewayUploadID uploadID in
  let! _ := checkGatewayDestination destination in
  check 0 < maxBytes else UploadCapabilityInvalid;;
  match first_where (session_of i) (gateway_sessions d) with
  | None => Err SessionStale
  | Some s =>
      match first_where (fun u => gu_id u = uploadID) (gateway_uploads d) with
      | Some u =>
          check gu_worker_id u = gs_worker_id s /\ gu_job_id u = gs_job_id s /\
                gu_attempt_id u = gs_attempt_id s /\ gu_destination u = destination /\
                gu_max_bytes u = maxBytes else SessionStale;;
          Ok d
      | None =>
          Ok (d <| gateway_uploads := gateway_uploads d ++
                [mkUpload uploadID (gs_worker_id s) (gs_project_id s) (gs_job_id s) (gs_attempt_id s)
                   destination maxBytes UpReady 0 None "" None None now] |>)
      end
  end.

Record UploadClaim := mkUploadClaim {
  uc_id : string;
  uc_destination : string;
  uc_max_bytes : Z;
  uc_fence : Z;
  uc_completed : bool;
  uc_digest : string;
  uc_size : Z
}.

Definition upload_of (i : Identity) (uploadID : string) (u : gateway_upload) : Prop :=
  gu_id u = uploadID /\ gu_worker_id u = id_worker_id i /\ gu_job_id u = id_job_id i /\
  gu_attempt_id u = id_attempt_id i.
#[local] Instance upload_of_dec i uploadID u : Decision (upload_of i uploadID u).
Proof. unfold upload_of. apply _. Defined.

Definition start_upload (lease : duration) (now : time) (u : gateway_upload) : gateway_upload :=
  u <| gu_state := UpUploading |> <| gu_upload_fence := gu_upload_fence u + 1 |>
    <| gu_upload_lease_expires_at := Some (now + lease) |> <| gu_updated_at := now |>.

Definition ClaimWorkerUpload (i : Identity) (uploadID : string) (lease : duration) (clk : clock) (d : db)
    : result gateway_error (UploadClaim * db) :=
  check 0 < lease else UploadLeaseInvalid;;
  let! _ := checkGatewayUploadID uploadID in
  let! d := touchWorkerSessionTx i (clk 0%nat) d in
  match first_where (fun u => upload_of i uploadID u /\
          exists_row (fun s => gs_worker_id s = id_worker_id i /\ gs_attempt_fence s = id_fence_token i)
            (gateway_sessions d)) (gateway_uploads d) with
  | None => Err UploadUnknown
  | Some u =>
      let! _ := checkGatewayDestination (gu_destination u) in
      let claim completed fence :=
        mkUploadClaim uploadID (gu_destination u) (gu_max_bytes u) fence completed (gu_digest u)
          (default 0 (gu_size_bytes u)) in
      match gu_state u with
      | UpCompleted => Ok (claim true (gu_upload_fence u), d)
      | UpCanceled => Err StaleFence
      | state =>
          check ~ (state = UpUploading /\ later_than (gu_upload_lease_expires_at u) (clk 1%nat))
            else StaleFence;;
          Ok (claim false (gu_upload_fence u + 1),
              d <| gateway_uploads := update_where (fun x => gu_id x = uploadID)
                     (start_upload lease (clk 2%nat)) (gateway_uploads d) |>)
      end
  end.

(** The upload in progress under the fence. *)
Definition uploading (i : Identity) (uploadID : string) (fence : Z) (u : gateway_upload) : Prop :=
  upload_of i uploadID u /\ gu_state u = UpUploading /\ gu_upload_fence u = fence.
#[local] Instance uploading_dec i uploadID fence u : Decision (uploading i uploadID fence u).
Proof. unfold uploading. apply _. Defined.

(** A digest of the right length that is not hexadecimal violates a [CHECK] of
    the table; both errors are one here. *)
Definition CompleteWorkerUpload (i : Identity) (uploadID : string) (fence : Z) (digest : string) (size : Z)
    (now : time) (d : db) : result gateway_error db :=
  let digest := ToLower (TrimSpace digest) in
  check sha256_hex digest /\ 0 <= size else UploadResultInvalid;;
  let mine := fun u => uploading i uploadID fence u /\
    exists_row (fun s => gs_worker_id s = gu_worker_id u /\ gs_attempt_fence s = id_fence_token i /\
                         gs_state s = SessActive) (gateway_sessions d) /\
    attempt_leased (gu_attempt_id u) (id_fence_token i) now d /\ open_job (gu_job_id u) d in
  check count_where mine (gateway_uploads d) = 1%nat else StaleFence;;
  Ok (d <| gateway_uploads := update_where mine
        (fun u => u <| gu_state := UpCompleted |> <| gu_digest := digest |> <| gu_size_bytes := Some size |>
                    <| gu_upload_lease_expires_at := None |> <| gu_completed_at := Some now |>
                    <| gu_updated_at := now |>) (gateway_uploads d) |>).

Definition CancelWorkerUpload (i : Identity) (uploadID : string) (fence : Z) (now : time) (d : db)
    : result gateway_error db :=
  let mine := fun u => uploading i uploadID fence u /\
    exists_row (fun s => gs_worker_id s = gu_worker_id u /\ gs_attempt_fence s = id_fence_token i)
      (gateway_sessions d) in
  check count_where mine (gateway_uploads d) = 1%nat else StaleFence;;
  Ok (d <| gateway_uploads := update_where mine (cancel_upload now) (gateway_uploads d) |>).
End gateway.

(** ** Operators' view and revocation *)
Definition active_certificates (now : time) (d : db) (i : workload_issuer) : Z :=
  Z.of_nat (count_where (fun c => wc_issuer_fingerprint c = wi_fingerprint i /\ wc_state c = SessActive /\
                                  now < wc_not_after c) (workload_certificates d)).

(** Issuer generations with their active certificates, and the last hundred
    certificates. *)
Definition WorkloadIdentityInventory (clk : clock) (d : db)
    : list (workload_issuer * Z) * list workload_certificate :=
  ((fun i => (i, active_certificates (clk 0%nat) d i)) <$>
     sort_by (then_by (desc (by_key wi_last_issued_at)) (by_str wi_fingerprint)) (workload_issuers d),
   take 100 (sort_by (then_by (desc (by_key wc_issued_at)) (by_str wc_fingerprint)) (workload_certificates d))).

Definition revoke_request (fingerprint reason : string) : Prop :=
  sha256_hex fingerprint /\ reason <> "" /\ go_len reason <= maxGatewayErrorBytes.
#[export] Instance revoke_request_dec fingerprint reason : Decision (revoke_request fingerprint reason).
Proof. unfold revoke_request, sha256_hex. apply _. Defined.

(** [local] is the server's own clock. *)
Definition RevokeWorkloadCertificate (fingerprint reason : string) (local : time) (d : db)
    : result gateway_error db :=
  let fingerprint := ToLower (TrimSpace fingerprint) in
  let reason := TrimSpace reason in
  check revoke_request fingerprint reason else RevokeInvalid;;
  match first_where (fun c => wc_fingerprint c = fingerprint) (workload_certificates d) with
  | None => Err CertificateMissing
  | Some c => Ok (revokeWorkerGatewayAttempt (wc_attempt_id c) reason local d)
  end.

(** The worker has a certificate of the generation. *)
Definition worker_of_issuer (fingerprint worker : string) (d : db) : Prop :=
  exists_row (fun c => wc_worker_id c = worker /\ wc_issuer_fingerprint c = fingerprint)
    (workload_certificates d).
#[export] Instance worker_of_issuer_dec fingerprint worker d : Decision (worker_of_issuer fingerprint worker d).
Proof. unfold worker_of_issuer. apply _. Defined.

Definition RevokeWorkloadIssuer (fingerprint reason : string) (local : time) (d : db)
    : result gateway_error db :=
  let fingerprint := ToLower (TrimSpace fingerprint) in
  let reason := TrimSpace reason in
  check revoke_request fingerprint reason else RevokeInvalid;;
  let mine := fun i => wi_fingerprint i = fingerprint /\ wi_state i <> IssRevoked in
  if decide (count_where mine (workload_issuers d) = 0%nat) then
    check exists_row (fun i => wi_fingerprint i = fingerprint) (workload_issuers d) else IssuerMissing;;
    Ok d
  else
  let d := d <| workload_issuers := update_where mine
    (fun i => i <| wi_state := IssRevoked |> <| wi_revoked_at := Some local |> <| wi_revoke_reason := reason |>)
    (workload_issuers d) |> in
  let d := d <| workload_certificates :=
    update_where (fun c => wc_issuer_fingerprint c = fingerprint /\ wc_state c = SessActive)
      (revoke_certificate reason local) (workload_certificates d) |> in
  let d := d <| gateway_sessions :=
    update_where (fun s => exists_row (fun c => gs_certificate_fingerprint s = Some (wc_fingerprint c) /\
                               wc_issuer_fingerprint c = fingerprint) (workload_certificates d) /\
                           gs_state s = SessActive)
      (revoke_session reason local) (gateway_sessions d) |> in
  let d := d <| gateway_commands :=
    update_where (fun c => worker_of_issuer fingerprint (gc_worker_id c) d /\
                           gc_state c ∈ [CmdQueued; CmdDelivered])
      (cancel_command reason local) (gateway_commands d) |> in
  Ok (d <| gateway_uploads :=
        update_where (fun u => worker_of_issuer fingerprint (gu_worker_id u) d /\
                               gu_state u ∈ [UpReady; UpUploading])
          (cancel_upload local) (gateway_uploads d) |>).

Record RuntimeStatus := mkRuntimeStatus {
  Authority : string;
  RegisteredSessions : Z;
  ConnectedSessions : Z;
  PendingTasks : Z;
  PendingUploads : Z;
  ActiveIssuers : Z;
  DrainingIssuers : Z;
  RevokedIssuers : Z;
  ActiveCertificates : Z;
  RevokedCertificates : Z;
  ExpiringCertificates : Z
}.

Definition WorkerGatewayStatus (now : time) (d : db) : RuntimeStatus :=
  let live c := wc_state c = SessActive /\ now < wc_not_after c in
  mkRuntimeStatus "postgresql" (Z.of_nat (count_where (fun s => gs_state s = SessActive) (gateway_sessions d)))
    (Z.of_nat (count_where (fun s => gs_state s = SessActive /\ is_Some (gs_connected_at s)) (gateway_sessions d)))
    (Z.of_nat (count_where (fun c => gc_state c ∈ [CmdQueued; CmdDelivered]) (gateway_commands d)))
    (Z.of_nat (count_where (fun u => gu_state u ∈ [UpReady; UpUploading]) (gateway_uploads d)))
    (Z.of_nat (count_where (fun i => wi_state i = IssActive /\ now < wi_not_after i) (workload_issuers d)))
    (Z.of_nat (count_where (fun i => wi_state i = IssDraining) (workload_issuers d)))
    (Z.of_nat (count_where (fun i => wi_state i = IssRevoked) (workload_issuers d)))
    (Z.of_nat (count_where live (workload_certificates d)))
    (Z.of_nat (count_where (fun c => wc_state c = SessRevoked) (workload_certificates d)))
    (Z.of_nat (count_where (fun c => live c /\ wc_not_after c <= now + 30 * Minute) (workload_certificates d))).

(** ** Confined destinations
    [internal/workergateway/broker.go]: the destination of an upload resolved
    below the spool root of the replica; [cwd] is its working directory. *)
Record confinedUpload := mkConfined { cu_root : string; cu_absolute : string; cu_relative : string }.

Definition confinedUploadDestination (cwd root destination : string) : result gateway_error confinedUpload :=
  check TrimSpace root <> "" else UploadRootMissing;;
  let absoluteRoot := Clean (Abs cwd root) in
  let clean := Clean destination in
  check ~ (destination = "" \/ clean = "." \/ clean = ".." \/ clean <> destination)
    else DestinationNotNormalized;;
  check ~ (IsAbs clean = false /\ bytes "../" `prefix_of` bytes clean) else DestinationEscapes;;
  let absolute := if IsAbs clean then clean else path_Join absoluteRoot clean in
  let relative := Rel absoluteRoot absolute in
  check ~ (relative = "." \/ relative = ".." \/ bytes "../" `prefix_of` bytes relative)
    else DestinationEscapes;;
  Ok (mkConfined absoluteRoot absolute relative).
