(* ===== verification/GatewayRows.v ===== *)
(** * Rows of the worker gateway over time

    What never changes back in a row of the gateway's tables, and what the end
    of an attempt does to them: [closes] relates the gateway's tables before and
    after a transaction of the job system. *)

From S2P Require Import Prelude GoStrings Schema Fairness JobLedger WorkerGateway.
From Stdlib Require Import Ascii.
Open Scope string_scope.
Open Scope list_scope.
Open Scope Z_scope.

#[local] Arguments update_where : simpl never.

(** ** Row orders *)
Definition issuer_key (i : workload_issuer) :=
  (wi_fingerprint i, wi_issuer_id i, wi_provider i, wi_subject i, wi_serial_hex i, wi_not_before i,
   wi_not_after i).
Definition issuer_le (i i' : workload_issuer) : Prop :=
  issuer_key i' = issuer_key i /\ (wi_state i' = IssActive -> wi_state i = IssActive) /\
  (wi_state i = IssRevoked -> wi_state i' = IssRevoked).

Definition cert_key (c : workload_certificate) :=
  (wc_fingerprint c, wc_serial_hex c, wc_issuer_fingerprint c, wc_worker_id c, wc_job_id c,
   wc_attempt_id c, wc_attempt_fence c, wc_not_before c, wc_not_after c).
Definition cert_le (c c' : workload_certificate) : Prop :=
  cert_key c' = cert_key c /\ (wc_state c = SessRevoked -> wc_state c' = SessRevoked).

(** A session can be opened again, but keeps its certificate. *)
Definition sess_key (s : gateway_session) :=
  (gs_worker_id s, gs_project_id s, gs_job_id s, gs_attempt_id s, gs_attempt_fence s).
Definition sess_le (s s' : gateway_session) : Prop :=
  sess_key s' = sess_key s /\
  (forall f, gs_certificate_fingerprint s = Some f -> gs_certificate_fingerprint s' = Some f).

(** The same without reopening. *)
Definition sess_ends (s s' : gateway_session) : Prop :=
  sess_le s s' /\ (gs_state s = SessRevoked -> gs_state s' = SessRevoked).

Definition open_command (c : gateway_command) : Prop := gc_state c ∈ [CmdQueued; CmdDelivered].
Definition open_upload (u : gateway_upload) : Prop := gu_state u ∈ [UpReady; UpUploading].

(** The fence never falls, a command that ended keeps its outcome, and one that
    is delivered was delivered under that fence before or is under a new one. *)
Definition cmd_key (c : gateway_command) :=
  (gc_id c, gc_worker_id c, gc_project_id c, gc_job_id c, gc_attempt_id c, gc_action c, gc_request c).
Definition cmd_outcome (c : gateway_command) := (gc_state c, gc_delivery_fence c, gc_response c, gc_error c).
Definition cmd_le (c c' : gateway_command) : Prop :=
  cmd_key c' = cmd_key c /\ gc_delivery_fence c <= gc_delivery_fence c' /\
  (~ open_command c -> cmd_outcome c' = cmd_outcome c) /\
  (gc_state c' = CmdDelivered -> (gc_state c = CmdDelivered /\ gc_delivery_fence c' = gc_delivery_fence c) \/
     gc_delivery_fence c < gc_delivery_fence c').

Definition upl_key (u : gateway_upload) :=
  (gu_id u, gu_worker_id u, gu_project_id u, gu_job_id u, gu_attempt_id u, gu_destination u, gu_max_bytes u).
Definition upl_outcome (u : gateway_upload) := (gu_state u, gu_upload_fence u, gu_digest u, gu_size_bytes u).
Definition upl_le (u u' : gateway_upload) : Prop :=
  upl_key u' = upl_key u /\ gu_upload_fence u <= gu_upload_fence u' /\
  (~ open_upload u -> upl_outcome u' = upl_outcome u) /\
  (gu_state u' = UpUploading -> (gu_state u = UpUploading /\ gu_upload_fence u' = gu_upload_fence u) \/
     gu_upload_fence u < gu_upload_fence u').

#[export] Instance open_command_dec c : Decision (open_command c).
Proof. unfold open_command. apply _. Defined.
#[export] Instance open_upload_dec u : Decision (open_upload u).
Proof. unfold open_upload. apply _. Defined.

#[export] Instance issuer_le_preorder : PreOrder issuer_le.
Proof. split; [done|]. intros x y z (K & A & B) (K' & A' & B'). split_and!; [congruence|auto|auto]. Qed.
#[export] Instance cert_le_preorder : PreOrder cert_le.
Proof. split; [done|]. intros x y z (K & A) (K' & A'). split; [congruence|auto]. Qed.
#[export] Instance sess_le_preorder : PreOrder sess_le.
Proof. split; [done|]. intros x y z (K & A) (K' & A'). split; [congruence|auto]. Qed.
#[export] Instance sess_ends_preorder : PreOrder sess_ends.
Proof. split; [done|]. intros x y z (K & A) (K' & A'). split; [by etrans|auto]. Qed.

Lemma open_command_outcome c c' : cmd_outcome c' = cmd_outcome c -> open_command c' -> open_command c.
Proof. unfold open_command, cmd_outcome. intros [= -> _ _ _]. done. Qed.
Lemma open_upload_outcome u u' : upl_outcome u' = upl_outcome u -> open_upload u' -> open_upload u.
Proof. unfold open_upload, upl_outcome. intros [= -> _ _ _]. done. Qed.

#[export] Instance cmd_le_preorder : PreOrder cmd_le.
Proof.
  split; [intros x; split_and!; auto with lia|].
  intros x y z (K & F & E & D) (K' & F' & E' & D'). split_and!; [congruence|lia| |].
  - intros Hx. rewrite (E' ltac:(intros Hy; apply Hx; by apply (open_command_outcome x y (E Hx)))). auto.
  - intros Hz. destruct (D' Hz) as [[Hy Hf]|]; [|lia]. destruct (D Hy) as [[Hx Hf']|]; [|lia]. left. split; [done|lia].
Qed.
#[export] Instance upl_le_preorder : PreOrder upl_le.
Proof.
  split; [intros x; split_and!; auto with lia|].
  intros x y z (K & F & E & D) (K' & F' & E' & D'). split_and!; [congruence|lia| |].
  - intros Hx. rewrite (E' ltac:(intros Hy; apply Hx; by apply (open_upload_outcome x y (E Hx)))). auto.
  - intros Hz. destruct (D' Hz) as [[Hy Hf]|]; [|lia]. destruct (D Hy) as [[Hx Hf']|]; [|lia]. left. split; [done|lia].
Qed.

(** ** Attempts without a lease *)
Definition leased (id : uuid) (d : db) : Prop := exists l, l ∈ worker_leases d /\ wl_attempt_id l = id.

(** Nothing of the attempt is open at the gateway. *)
Record gateway_closed (id : uuid) (d : db) : Prop := {
  gc_certs : forall c, c ∈ workload_certificates d -> wc_attempt_id c = id -> wc_state c = SessRevoked;
  gc_sess : forall s, s ∈ gateway_sessions d -> gs_attempt_id s = id -> gs_state s = SessRevoked;
  gc_cmds : forall c, c ∈ gateway_commands d -> gc_attempt_id c = id -> ~ open_command c;
  gc_upls : forall u, u ∈ gateway_uploads d -> gu_attempt_id u = id -> ~ open_upload u
}.

(** Rows only move towards their end, and those of an attempt that loses its
    lease are closed. *)
Record closes (d d' : db) : Prop := {
  cl_issuers : workload_issuers d' = workload_issuers d;
  cl_certs : Forall2 cert_le (workload_certificates d) (workload_certificates d');
  cl_sess : Forall2 sess_ends (gateway_sessions d) (gateway_sessions d');
  cl_cmds : Forall2 cmd_le (gateway_commands d) (gateway_commands d');
  cl_upls : Forall2 upl_le (gateway_uploads d) (gateway_uploads d');
  cl_lost : forall id, leased id d -> ~ leased id d' -> gateway_closed id d'
}.

Lemma Forall2_back {A} (R : relation A) (l l' : list A) x' : Forall2 R l l' -> x' ∈ l' -> exists x, x ∈ l /\ R x x'.
Proof.
  intros H [i Hi]%list_elem_of_lookup. destruct (Forall2_lookup_r _ _ _ _ _ H Hi) as (x & Hx & HR).
  exists x. split; [by eapply list_elem_of_lookup_2|done].
Qed.
Lemma Forall2_forth {A} (R : relation A) (l l' : list A) x : Forall2 R l l' -> x ∈ l -> exists x', x' ∈ l' /\ R x x'.
Proof.
  intros H [i Hi]%list_elem_of_lookup. destruct (Forall2_lookup_l _ _ _ _ _ H Hi) as (x' & Hx & HR).
  exists x'. split; [by eapply list_elem_of_lookup_2|done].
Qed.

Lemma closed_stays id d d' : closes d d' -> gateway_closed id d -> gateway_closed id d'.
Proof.
  intros [_ Hc Hs Hm Hu _] [C S M U]. split; intros x' Hx' Hid.
  - destruct (Forall2_back _ _ _ _ Hc Hx') as (x & Hx & [[= ] Hle]). apply Hle, C; congruence.
  - destruct (Forall2_back _ _ _ _ Hs Hx') as (x & Hx & [[[= ] _] Hle]). apply Hle, S; congruence.
  - destruct (Forall2_back _ _ _ _ Hm Hx') as (x & Hx & ([= ] & _ & Hle & _)).
    assert (~ open_command x) as Hn by (apply M; congruence). intros Ho. apply Hn.
    by apply (open_command_outcome x x' (Hle Hn)).
  - destruct (Forall2_back _ _ _ _ Hu Hx') as (x & Hx & ([= ] & _ & Hle & _)).
    assert (~ open_upload x) as Hn by (apply U; congruence). intros Ho. apply Hn.
    by apply (open_upload_outcome x x' (Hle Hn)).
Qed.

#[export] Instance closes_preorder : PreOrder closes.
Proof.
  split.
  - intros d. split; [done|reflexivity..|done].
  - intros x y z Hxy Hyz. pose proof Hxy as [I C S M U L]. pose proof Hyz as [I' C' S' M' U' L'].
    split; [congruence|by etrans..|].
    intros id Hx Hz. destruct (decide (Exists (fun l => wl_attempt_id l = id) (worker_leases y))) as [Hy|Hy].
    + apply L'; [|done]. apply Exists_exists in Hy. exact Hy.
    + apply (closed_stays id y z Hyz), L; [done|]. intros Hl. apply Hy, Exists_exists. exact Hl.
Qed.

(** ** What the job system does to them *)
Definition gateway_tables (d : db) :=
  (workload_issuers d, workload_certificates d, gateway_sessions d, gateway_commands d, gateway_uploads d).

Lemma closes_same d d' : gateway_tables d' = gateway_tables d -> (forall id, leased id d -> leased id d') -> closes d d'.
Proof.
  unfold gateway_tables. intros [= HI HC HS HM HU] Hl. split; rewrite ?HI, ?HC, ?HS, ?HM, ?HU; [done|reflexivity..|].
  intros id H1 H2. by destruct H2; apply Hl.
Qed.

Lemma Forall2_update {A} (R : relation A) (P : A -> Prop) `{HdP : !forall x, Decision (P x)} f (l : list A) :
  Reflexive R -> (forall x, x ∈ l -> P x -> R x (f x)) -> Forall2 R l (update_where P f l).
Proof.
  intros HR Hf. unfold update_where. induction l as [|x l IH]; constructor.
  - case_decide; [apply Hf; set_solver|done].
  - apply IH. set_solver.
Qed.

Lemma cancel_command_le reason t c : open_command c -> cmd_le c (cancel_command reason t c).
Proof. intros Hc. split_and!; [done|cbn; lia|done|done]. Qed.
Lemma cancel_upload_le t u : open_upload u -> upl_le u (cancel_upload t u).
Proof. intros Hc. split_and!; [done|cbn; lia|done|done]. Qed.

Lemma revoke_closed id reason t d : gateway_closed id (revokeWorkerGatewayAttempt id reason t d).
Proof.
  split; cbn; intros x (y & Hy & [[_ ->]|[Hn ->]])%elem_of_update_where Hid; try done.
  - destruct (wc_state y); [tauto|done].
  - destruct (gs_state y); [tauto|done].
  - unfold open_command. cbn. set_solver.
  - unfold open_command. tauto.
  - unfold open_upload. cbn. set_solver.
  - unfold open_upload. tauto.
Qed.

(** Losing leases of one attempt, whose gateway rows are revoked. *)
Lemma closes_end id reason t d d' :
  gateway_tables d' = gateway_tables (revokeWorkerGatewayAttempt id reason t d) ->
  (forall x, x <> id -> leased x d -> leased x d') -> closes d d'.
Proof.
  unfold gateway_tables. intros [= HI HC HS HM HU] Hl. split.
  - done.
  - rewrite HC. apply Forall2_update; [apply _|]. by intros x _ _.
  - rewrite HS. apply Forall2_update; [apply _|]. by intros x _ _.
  - rewrite HM. apply Forall2_update; [apply _|]. intros x _ [_ Hx]. by apply cancel_command_le.
  - rewrite HU. apply Forall2_update; [apply _|]. intros x _ [_ Hx]. by apply cancel_upload_le.
  - intros x H1 H2. destruct (decide (x = id)) as [->|Hne]; [|by destruct H2; apply Hl].
    destruct (revoke_closed id reason t d) as [C S M U]. split; rewrite ?HC, ?HS, ?HM, ?HU; done.
Qed.

Lemma leased_delete (P : worker_lease -> Prop) `{HdP : !forall x, Decision (P x)} (id : uuid) (d d' : db) :
  worker_leases d' = delete_where P (worker_leases d) -> (forall l, l ∈ worker_leases d -> wl_attempt_id l = id -> ~ P l) ->
  leased id d -> leased id d'.
Proof.
  intros HL HP (l & Hl & Hid). exists l. rewrite HL. split; [|done]. apply elem_of_delete_where. eauto.
Qed.

Lemma leased_update (P : worker_lease -> Prop) `{HdP : !forall x, Decision (P x)} f (id : uuid) (d d' : db) :
  worker_leases d' = update_where P f (worker_leases d) -> (forall l, wl_attempt_id (f l) = wl_attempt_id l) ->
  leased id d -> leased id d'.
Proof.
  intros HL Hf (l & Hl & Hid). destruct (decide (P l)).
  - exists (f l). rewrite HL, Hf. split; [|done]. apply elem_of_update_where. eauto 10.
  - exists l. rewrite HL. split; [|done]. apply elem_of_update_where. eauto 10.
Qed.
