(* ===== verification/ArtifactRows.v ===== *)
(** * Rows of the artifact budget over time

    What the budget of retained artifacts counts, and the one thing the job
    system does to it: releasing everything of an attempt that ends. *)

From S2P Require Import Prelude GoStrings Schema JobLedger WorkerGateway GatewayRows.
Open Scope string_scope.
Open Scope list_scope.
Open Scope Z_scope.

#[local] Arguments update_where : simpl never.

(** The columns the accounting reads. *)
Record budget_key := mkBudgetKey {
  bk_attempt : uuid; bk_job : uuid; bk_limit : Z; bk_active : Z; bk_peak : Z; bk_state : ReleaseState }.
Record gen_key := mkGenKey { gk_attempt : uuid; gk_generation : string; gk_size : Z; gk_state : ReleaseState }.

Definition bview (b : artifact_budget) : budget_key :=
  mkBudgetKey (ab_attempt_id b) (ab_job_id b) (ab_limit_bytes b) (ab_active_bytes b) (ab_peak_bytes b) (ab_state b).
Definition gview (g : generation_reservation) : gen_key :=
  mkGenKey (gr_attempt_id g) (gr_generation g) (gr_size_bytes g) (gr_state g).
Definition artifact_view (d : db) : list budget_key * list gen_key :=
  (bview <$> artifact_budgets d, gview <$> generation_reservations d).

Definition release_b (ids : list uuid) (b : budget_key) : budget_key :=
  if decide (bk_attempt b ∈ ids /\ bk_state b = Live)
  then mkBudgetKey (bk_attempt b) (bk_job b) (bk_limit b) 0 (bk_peak b) Released else b.
Definition release_g (ids : list uuid) (g : gen_key) : gen_key :=
  if decide (gk_attempt g ∈ ids /\ gk_state g = Live)
  then mkGenKey (gk_attempt g) (gk_generation g) (gk_size g) Released else g.
Definition release_view (ids : list uuid) (v : list budget_key * list gen_key) : list budget_key * list gen_key :=
  (release_b ids <$> v.1, release_g ids <$> v.2).

(** Only releases, and of every attempt that loses its lease. *)
Definition releases (d d' : db) : Prop :=
  exists ids, artifact_view d' = release_view ids (artifact_view d) /\
    forall id, leased id d -> ~ leased id d' -> id ∈ ids.

Lemma release_b_nil b : release_b [] b = b.
Proof. unfold release_b. rewrite decide_False; [done|]. intros [H _]. by apply elem_of_nil in H. Qed.
Lemma release_g_nil g : release_g [] g = g.
Proof. unfold release_g. rewrite decide_False; [done|]. intros [H _]. by apply elem_of_nil in H. Qed.

Lemma release_view_nil v : release_view [] v = v.
Proof.
  destruct v as [bs gs]. unfold release_view. cbn. f_equal.
  - rewrite <- (list_fmap_id bs) at 2. apply list_fmap_ext. intros _ b _. apply release_b_nil.
  - rewrite <- (list_fmap_id gs) at 2. apply list_fmap_ext. intros _ g _. apply release_g_nil.
Qed.

Lemma release_b_app ids ids' b : release_b ids' (release_b ids b) = release_b (ids ++ ids') b.
Proof.
  unfold release_b at 2. case_decide as H.
  - unfold release_b. cbn. rewrite decide_False by (by intros [_ ?]). rewrite decide_True; [done|]. set_solver.
  - unfold release_b. case_decide as H1; case_decide as H2; try done; exfalso.
    + apply H2. split; [set_solver|tauto].
    + destruct H2 as [[?|?]%elem_of_app ?]; tauto.
Qed.
Lemma release_g_app ids ids' g : release_g ids' (release_g ids g) = release_g (ids ++ ids') g.
Proof.
  unfold release_g at 2. case_decide as H.
  - unfold release_g. cbn. rewrite decide_False by (by intros [_ ?]). rewrite decide_True; [done|]. set_solver.
  - unfold release_g. case_decide as H1; case_decide as H2; try done; exfalso.
    + apply H2. split; [set_solver|tauto].
    + destruct H2 as [[?|?]%elem_of_app ?]; tauto.
Qed.

Lemma release_view_app ids ids' v : release_view ids' (release_view ids v) = release_view (ids ++ ids') v.
Proof.
  unfold release_view. cbn. rewrite <- !list_fmap_compose. f_equal; apply list_fmap_ext; intros _ x _; cbn;
    [apply release_b_app|apply release_g_app].
Qed.

#[export] Instance releases_preorder : PreOrder releases.
Proof.
  split.
  - intros d. exists []. split; [by rewrite release_view_nil|done].
  - intros x y z (ids & Hv & Hl) (ids' & Hv' & Hl'). exists (ids ++ ids').
    split; [by rewrite Hv', Hv, release_view_app|]. intros id Hx Hz.
    destruct (decide (Exists (fun l => wl_attempt_id l = id) (worker_leases y))) as [Hy|Hy].
    + apply elem_of_app. right. apply Hl'; [|done]. apply Exists_exists in Hy. exact Hy.
    + apply elem_of_app. left. apply Hl; [done|]. intros Hy'. apply Hy, Exists_exists. exact Hy'.
Qed.

Lemma releases_same d d' : artifact_view d' = artifact_view d -> (forall id, leased id d -> leased id d') -> releases d d'.
Proof. intros Hv Hl. exists []. split; [by rewrite release_view_nil|]. intros id H1 H2. by destruct H2; apply Hl. Qed.

(** What a release is on the rows. *)
Lemma release_rows id reason t d :
  artifact_view (releaseArtifactBudgetReservation id reason t d) = release_view [id] (artifact_view d).
Proof.
  unfold artifact_view, release_view, releaseArtifactBudgetReservation, update_where. cbn.
  rewrite <- !list_fmap_compose. f_equal; apply list_fmap_ext; intros _ x _; cbn.
  - unfold release_b. case_decide as H1; case_decide as H2; try done; exfalso; cbn in *; set_solver.
  - unfold release_g. case_decide as H1; case_decide as H2; try done; exfalso; cbn in *; set_solver.
Qed.

(** ** References between the rows *)
Record artifact_refs (d : db) : Prop := {
  rf_budgets : NoDup (ab_attempt_id <$> artifact_budgets d);
  rf_attempts : forall b, b ∈ artifact_budgets d -> exists a, a ∈ build_attempts d /\
    a_id a = ab_attempt_id b /\ a_job_id a = ab_job_id b;
  rf_generations : forall g, g ∈ generation_reservations d -> exists b, b ∈ artifact_budgets d /\
    ab_attempt_id b = gr_attempt_id g
}.

(** The cancellation of a job finds its rows through the budget; that is the
    release of all its attempts. *)
Lemma release_job_rows jobID reason t ids d d1 : artifact_refs d ->
  (forall a, a ∈ build_attempts d -> (a_id a ∈ ids <-> a_job_id a = jobID)) ->
  artifact_budgets d1 = artifact_budgets d -> generation_reservations d1 = generation_reservations d ->
  artifact_view (d1 <| generation_reservations :=
        update_where (fun g => gr_state g = Live /\
            exists_row (fun b => ab_job_id b = jobID /\ ab_attempt_id b = gr_attempt_id g) (artifact_budgets d1))
          (release_generation reason t) (generation_reservations d1) |>
      <| artifact_budgets := update_where (fun b => ab_job_id b = jobID /\ ab_state b = Live)
          (release_budget reason t) (artifact_budgets d1) |>) = release_view ids (artifact_view d).
Proof.
  intros [Hn Ha Hg] Hids HB HG. unfold artifact_view, release_view, update_where. cbn. rewrite HB, HG.
  rewrite <- !list_fmap_compose.
  assert (forall b, b ∈ artifact_budgets d -> (ab_attempt_id b ∈ ids <-> ab_job_id b = jobID)) as Hb.
  { intros b Hb. destruct (Ha b Hb) as (a & Hain & <- & <-). by apply Hids. }
  f_equal; apply list_fmap_ext; intros i x Hx%list_elem_of_lookup_2; cbn.
  - unfold release_b. cbn. specialize (Hb x Hx). case_decide as H1; case_decide as H2; try done; exfalso; tauto.
  - unfold release_g. cbn. assert (gr_attempt_id x ∈ ids <->
      exists_row (fun b => ab_job_id b = jobID /\ ab_attempt_id b = gr_attempt_id x) (artifact_budgets d)) as Hxi.
    { unfold exists_row. rewrite Exists_exists. destruct (Hg x Hx) as (b & Hbin & Hba). split.
      - rewrite <- Hba. intros Hin%(Hb b Hbin). eauto.
      - intros (b' & Hb' & HJ & <-). by apply Hb. }
    case_decide as H1; case_decide as H2; try done; exfalso; tauto.
Qed.
