(* ===== verification/LeaseRuntime.v ===== *)
(** * Leases and what hangs on them

    The meter of an attempt starts with its claim and gives it a deadline; no
    operation of the job system lets the lease of the attempt run past it.  And
    an operation that takes the lease of an attempt away closes everything the
    worker gateway keeps for it. *)

From S2P Require Import Prelude GoStrings Schema Capabilities CapacityLedger Budgets Fairness.
From S2P Require Import JobLedger Scheduler PhaseWork Fencing PhasePlan JobSystem JobSafety JobHistory.
From S2P Require Import GatewayRows ArtifactRows.
From Stdlib Require Import Ascii.
Open Scope string_scope.
Open Scope list_scope.
Open Scope Z_scope.

#[local] Arguments update_where : simpl never.

(** One meter per attempt, and no lease past its deadline. *)
Definition ukey (u : attempt_usage) : uuid * time := (us_attempt_id u, deadline u).

Record runtime_ok (d : db) : Prop := {
  ro_meters : NoDup (us_attempt_id <$> attempt_usages d);
  ro_leases : forall l u, l ∈ worker_leases d -> u ∈ attempt_usages d -> us_attempt_id u = wl_attempt_id l ->
    wl_expires_at l <= deadline u
}.

(** Tables the job system never writes. *)
Definition side_tables (d : db) : list infra_instance * list artifact * list signing_task :=
  (infra_instances d, artifacts d, signing_tasks d).

(** Meters as before, no lease that was not there as long, and the gateway
    follows. *)
Record keeps (d d' : db) : Prop := {
  ke_meters : ukey <$> attempt_usages d' = ukey <$> attempt_usages d;
  ke_leases : forall l', l' ∈ worker_leases d' -> exists l, l ∈ worker_leases d /\
    wl_attempt_id l = wl_attempt_id l' /\ wl_expires_at l' <= wl_expires_at l;
  ke_gateway : closes d d';
  ke_side : side_tables d' = side_tables d
}.

#[export] Instance keeps_preorder : PreOrder keeps.
Proof.
  split.
  - intros d. split; [done| |done|done]. intros l Hl. exists l. split_and!; [done|done|lia].
  - intros x y z [H1 H2 H5 H7] [H3 H4 H6 H8]. split; [congruence| |by etrans|congruence]. intros l'' Hl''.
    destruct (H4 l'' Hl'') as (l' & Hl' & Ha' & He'). destruct (H2 l' Hl') as (l & Hl & Ha & He).
    exists l. split_and!; [done|congruence|lia].
Qed.

(** The artifact budget follows too. *)
Definition within (d d' : db) : Prop := keeps d d' /\ releases d d'.

#[export] Instance within_preorder : PreOrder within.
Proof. split; [by intros d; split|]. intros x y z [H1 H2] [H3 H4]. split; by etrans. Qed.

Lemma meters_ids d d' : ukey <$> attempt_usages d' = ukey <$> attempt_usages d ->
  us_attempt_id <$> attempt_usages d' = us_attempt_id <$> attempt_usages d.
Proof.
  intros H. apply (f_equal (fmap fst)) in H. rewrite <- !list_fmap_compose in H. exact H.
Qed.

(** A meter of the later table was in the earlier one. *)
Lemma meter_before (l l' : list attempt_usage) u' : ukey <$> l' = ukey <$> l -> u' ∈ l' -> exists u, u ∈ l /\ ukey u = ukey u'.
Proof.
  intros H Hu. assert (ukey u' ∈ ukey <$> l) as Hin by (rewrite <- H; by apply list_elem_of_fmap_2).
  apply list_elem_of_fmap in Hin as (u & Hk & Hul). eauto.
Qed.

Lemma keeps_ok d d' : runtime_ok d -> keeps d d' -> runtime_ok d'.
Proof.
  intros [Hm Hl] [Hk Hw _]. split; [by rewrite (meters_ids d d' Hk)|].
  intros l' u' Hl' Hu' Heq. destruct (Hw l' Hl') as (l & Hlin & Ha & He).
  destruct (meter_before _ _ u' Hk Hu') as (u & Hu & Huk). unfold ukey in Huk. injection Huk as Hid Hd.
  rewrite <- Hd. etrans; [exact He|]. apply Hl; congruence.
Qed.

Lemma within_ok d d' : runtime_ok d -> within d d' -> runtime_ok d'.
Proof. intros Hok [Hk _]. by eapply keeps_ok. Qed.

Lemma keeps_same d d' : attempt_usages d' = attempt_usages d -> worker_leases d' = worker_leases d ->
  gateway_tables d' = gateway_tables d -> side_tables d' = side_tables d -> keeps d d'.
Proof.
  intros H1 H2 H3 H4. split; [by rewrite H1| | |done].
  - rewrite H2. intros l Hl. exists l. split_and!; [done|done|lia].
  - apply closes_same; [done|]. unfold leased. by rewrite H2.
Qed.

Lemma within_same d d' : attempt_usages d' = attempt_usages d -> worker_leases d' = worker_leases d ->
  gateway_tables d' = gateway_tables d -> side_tables d' = side_tables d -> artifact_view d' = artifact_view d ->
  within d d'.
Proof.
  intros H1 H2 H3 Hs H4. split; [by apply keeps_same|]. apply releases_same; [done|]. unfold leased. by rewrite H2.
Qed.

(** The lease of one attempt goes, and its gateway rows with it. *)
Lemma within_end id reason t d d' (P : worker_lease -> Prop) `{HdP : !forall x, Decision (P x)} :
  ukey <$> attempt_usages d' = ukey <$> attempt_usages d ->
  worker_leases d' = delete_where P (worker_leases d) ->
  (forall l, l ∈ worker_leases d -> P l -> wl_attempt_id l = id) ->
  gateway_tables d' = gateway_tables (revokeWorkerGatewayAttempt id reason t d) ->
  artifact_view d' = release_view [id] (artifact_view d) -> side_tables d' = side_tables d -> within d d'.
Proof.
  intros H1 H2 HP H3 H4 H5.
  assert (forall x, x <> id -> leased x d -> leased x d') as Hrest.
  { intros x Hx. apply (leased_delete P x d d' H2). intros l Hl Hid HPl. apply Hx. rewrite <- Hid. by apply HP. }
  split; [split; [done| | |done]|].
  - rewrite H2. intros l [_ Hl]%elem_of_delete_where. exists l. split_and!; [done|done|lia].
  - by eapply closes_end; [exact H3|].
  - exists [id]. split; [done|]. intros x Hx Hn. apply list_elem_of_singleton.
    destruct (decide (x = id)) as [|Hne]; [done|]. by destruct Hn; apply Hrest.
Qed.

(** Revocation reads no table but the gateway's. *)
Lemma revoke_tables id reason t x y : gateway_tables x = gateway_tables y ->
  gateway_tables (revokeWorkerGatewayAttempt id reason t x) = gateway_tables (revokeWorkerGatewayAttempt id reason t y).
Proof. unfold gateway_tables. cbn. by intros [= -> -> -> -> ->]. Qed.

(** A release only reads the budget's tables. *)
Lemma released_after id reason t d0 d d' : artifact_view d = artifact_view d0 ->
  artifact_view d' = artifact_view (releaseArtifactBudgetReservation id reason t d) ->
  artifact_view d' = release_view [id] (artifact_view d0).
Proof. intros <- ->. apply release_rows. Qed.

(** ** The helpers *)
Lemma settle_gateway id reason state t d d' : settleAttemptUsage id reason state t d = Ok d' ->
  gateway_tables d' = gateway_tables d /\ artifact_view d' = artifact_view d /\ side_tables d' = side_tables d.
Proof.
  unfold settleAttemptUsage. destruct (first_where _ _) as [u|]; [|by intros [= <-]].
  case_decide as Hst; [|by intros [= <-]].
  unfold applyFailureStormSuspension. intros H. inv_ok_step H. case_decide; by simplify_eq.
Qed.

Lemma settle_within id reason state t d d' : settleAttemptUsage id reason state t d = Ok d' ->
  ukey <$> attempt_usages d' = ukey <$> attempt_usages d /\ worker_leases d' = worker_leases d /\
  gateway_tables d' = gateway_tables d /\ artifact_view d' = artifact_view d /\ side_tables d' = side_tables d.
Proof.
  intros H. split; [|split; [by apply settle_effect in H as (_ & ? & _)|by eapply settle_gateway]].
  rewrite (settle_usages _ _ _ _ _ _ H). by apply update_where_map.
Qed.

Lemma settle_all_within ids reason state t d d' : settle_all ids reason state t d = Ok d' ->
  ukey <$> attempt_usages d' = ukey <$> attempt_usages d /\ worker_leases d' = worker_leases d /\
  gateway_tables d' = gateway_tables d /\ artifact_view d' = artifact_view d /\ side_tables d' = side_tables d.
Proof.
  revert d. induction ids as [|id ids IH]; intros d H; cbn [settle_all] in H; [by simplify_eq|].
  destruct (settleAttemptUsage id reason state t d) as [d1|] eqn:Hs; [|done].
  apply IH in H as (H1 & H2 & H3 & H4 & H5). apply settle_within in Hs as (G1 & G2 & G3 & G4 & G5). split_and!; congruence.
Qed.

Lemma settle_all_artifacts ids reason state t d d' : settle_all ids reason state t d = Ok d' ->
  artifact_budgets d' = artifact_budgets d /\ generation_reservations d' = generation_reservations d.
Proof.
  revert d. induction ids as [|id ids IH]; intros d H; cbn [settle_all] in H; [by simplify_eq|].
  destruct (settleAttemptUsage id reason state t d) as [d1|] eqn:Hs; [|done]. apply IH in H as [-> ->].
  revert Hs. unfold settleAttemptUsage. destruct (first_where _ _) as [u|]; [|by intros [= <-]].
  case_decide as Hst; [|by intros [= <-]].
  unfold applyFailureStormSuspension. intros H. inv_ok_step H. case_decide; by simplify_eq.
Qed.

Lemma revoke_job_artifacts J reason t d :
  artifact_view (revokeWorkerGatewayJob J reason t d) = artifact_view d /\
  worker_leases (revokeWorkerGatewayJob J reason t d) = worker_leases d.
Proof.
  unfold revokeWorkerGatewayJob. generalize (a_id <$> filter (fun a => a_job_id a = J) (build_attempts d)). intros ids.
  revert d. induction ids as [|id ids IH]; intros d; [done|]. cbn [foldl]. destruct (IH (revokeWorkerGatewayAttempt id reason t d)) as [-> ->].
  done.
Qed.

Lemma attempt_row_unique d a b : job_inv d -> a ∈ build_attempts d -> b ∈ build_attempts d -> a_id a = a_id b -> a = b.
Proof.
  intros Hi. apply (key_unique a_id). pose proof (fo_ids _ (ji_fence d Hi)) as Hn. unfold view in Hn. cbn in Hn.
  by rewrite <- list_fmap_compose in Hn.
Qed.

Lemma record_attempt_within newID current t d d' :
  recordAttemptTransitionTx newID current t d = Ok d' -> within d d'.
Proof.
  unfold recordAttemptTransitionTx. case_decide as Hid.
  - case_decide; [by intros [= <-]|]. unfold upsertAttemptSnapshot. cbv zeta.
    destruct (first_where _ _); intros H'; inv_ok H'; subst d'; by apply within_same.
  - intros H. inv_ok_step H. destruct (isLedgerTerminal _).
    + inv_ok_step H. unfold budget in E. destruct (settleAttemptUsage _ _ _ _ _) as [d1|] eqn:Hs; [|done].
      simplify_eq. apply settle_within in Hs as (Hu & Hl & Hg & Ha & Hside). cbn in Hu, Hl.
      eapply (within_end (bs_attempt_id current)); [exact Hu|cbn; by rewrite Hl|by intros l _ ?| | |exact Hside].
      * eapply (revoke_tables (bs_attempt_id current)). exact Hg.
      * eapply released_after; [exact Ha|reflexivity].
    + cbv zeta in H. apply reservation_phase_effect in H as (l & -> & _). case_decide; [|by apply within_same].
      split; [|by apply releases_same]. split; [cbn; by apply update_where_map| |by apply closes_same|done].
      cbn. intros k Hk. exists k. split_and!; [done|done|lia].
Qed.

Lemma register_within newID name caps now d id d' : register_worker newID name caps now d = Ok (id, d') -> within d d'.
Proof.
  unfold register_worker. destruct (first_where _ _); intros H; [by simplify_eq; apply within_same|].
  inv_ok H. simplify_eq. by apply within_same.
Qed.

Lemma flush_within t clk d d' : flushLeaseExpiries t clk d = Ok d' -> within d d'.
Proof.
  unfold flushLeaseExpiries. generalize (flush_keys t). intros keys. revert clk d.
  induction keys as [|key keys IH]; intros clk d H; cbn [flush_all] in H; [by simplify_eq|].
  inv_ok_step H. unfold recordLeaseExpiry in E. inv_ok E. subst a. apply IH in H. etrans; [|exact H]. by apply within_same.
Qed.

Lemma dispatch_within s kind queued now d r d' : recordFairDispatch s kind queued now d = Ok (r, d') -> within d d'.
Proof.
  unfold recordFairDispatch. cbv beta zeta. destruct (first_where _ (project_policies d)); [|by case_decide].
  repeat case_decide; try done; (destruct (first_where _ (scheduler_fairness d)); [|done]); intros; simplify_eq;
    by apply within_same.
Qed.

(** ** The operations *)
Section runtime.
Context (MarshalStatus : JobStatus -> list ascii) (MarshalRequest : BuildRequest -> list ascii)
        (uuid_Parse : string -> bool).
Notation step := (job_step MarshalStatus MarshalRequest uuid_Parse).

Lemma transition_within newID previous current source clk d d' :
  recordTransition MarshalStatus newID previous current source clk d = Ok d' -> within d d'.
Proof.
  unfold recordTransition. cbv zeta. destruct (first_where _ (build_jobs d)) as [j|]; [|done].
  case_decide; intros H'; [by simplify_eq|]. inv_ok H'. subst d'.
  apply record_attempt_within in E0. etrans; [|etrans; [exact E0|by apply within_same]]. by apply within_same.
Qed.

Lemma create_within newID req status source clk local r d d' :
  createJob MarshalStatus MarshalRequest newID req status source clk local d = Ok (r, d') -> within d d'.
Proof.
  intros H. unfold createJob in H. destruct req as [req|]; [|done]. do 3 inv_ok_step H.
  destruct a1 as [x|]; [by simplify_eq|]. cbv zeta in H.
  case_decide; [destruct (load_keyed _ _ _ _) as [[x|]|]; by simplify_eq|].
  inv_ok_step H. inv_ok_step H. injection H as _ <-. case_decide; [simplify_eq; by apply within_same|].
  unfold upsertAttemptSnapshot in E2. cbv zeta in E2.
  destruct (first_where _ (build_attempts _)); inv_ok E2; subst a1; by apply within_same.
Qed.

Lemma recover_all_within rows t clk d t' d' : job_inv d -> (forall row, row ∈ rows -> justified row d) ->
  NoDup (el_lease_id <$> rows) -> recover_all MarshalStatus rows t clk d = Ok (t', d') -> within d d'.
Proof.
  revert t clk d. induction rows as [|row rows IH]; intros t clk d Hi Hrows Hnd H; cbn [recover_all] in H;
    [by simplify_eq|].
  destruct (recoverExpiredLease _ _ _ _ _) as [[t1 d1]|] eqn:Hr; [|done].
  destruct (recover_rest _ uuid_Parse _ _ _ _ _ _ _ Hi Hrows Hnd Hr) as (H1 & Hrows' & Hnd').
  apply IH in H; [|by eapply implements_inv|done..]. etrans; [|exact H].
  unfold recoverExpiredLease in Hr. destruct (expiredLeaseOutcome row) as [state reason]. cbv beta zeta in Hr.
  inv_ok_step Hr. unfold budget in E. destruct (settleAttemptUsage _ _ _ _ _) as [d2|] eqn:Hs; [|done]. injection E as <-.
  inv_ok_step Hr. injection Hr as _ <-. apply settle_within in Hs as (Hu & Hl & Hg & Ha & Hside). cbn in Hu, Hl.
  eapply (within_end (el_attempt_id row) "lease_expired" (clk 0%nat)); [exact Hu|cbn; by rewrite Hl| | | |exact Hside].
  - intros l Hin Hid. apply (justified_lease row d (lkey l) Hi); [apply Hrows; set_solver| |exact Hid].
    by apply list_elem_of_fmap_2.
  - transitivity (gateway_tables (revokeWorkerGatewayAttempt (el_attempt_id row) "lease_expired" (clk 0%nat) d2));
      [reflexivity|]. apply revoke_tables. exact Hg.
  - eapply released_after; [exact Ha|reflexivity].
Qed.

Lemma recover_within limit locked clk d n d' : job_inv d ->
  recoverExpiredTx MarshalStatus limit locked clk d = Ok (n, d') -> within d d'.
Proof.
  intros Hi H. unfold recoverExpiredTx in H. cbv zeta in H.
  destruct (recover_all _ _ _ _ _) as [[t d1]|] eqn:Hr; [|done].
  destruct (flushLeaseExpiries _ _ _) as [d2|] eqn:Hf; [|done]. simplify_eq.
  destruct (expired_rows (clk 0%nat) d limit locked Hi) as [Hj Hnd].
  etrans; [by eapply recover_all_within|by eapply flush_within].
Qed.

Lemma revoke_all_effect ids reason t d :
  let d' := foldl (fun d attemptID => revokeWorkerGatewayAttempt attemptID reason t d) d ids in
  worker_leases d' = worker_leases d /\ attempt_usages d' = attempt_usages d /\
  closes d d' /\ side_tables d' = side_tables d /\ forall id, id ∈ ids -> gateway_closed id d'.
Proof.
  revert d. induction ids as [|id ids IH]; intros d; cbn [foldl]; [split_and!; [done|done|done|done|set_solver]|].
  destruct (IH (revokeWorkerGatewayAttempt id reason t d)) as (H1 & H2 & H3 & H5 & H4). split_and!; [done|done| |done|].
  - etrans; [|exact H3]. by eapply closes_end.
  - intros x [->|Hx]%elem_of_cons; [|by apply H4]. eapply closed_stays; [exact H3|apply revoke_closed].
Qed.

(** The leases of several attempts go, and their gateway rows with them. *)
Lemma keeps_end_all ids reason t d d1 (P : worker_lease -> Prop) `{HdP : !forall x, Decision (P x)} :
  ukey <$> attempt_usages d1 = ukey <$> attempt_usages d ->
  worker_leases d1 = delete_where P (worker_leases d) ->
  (forall l, l ∈ worker_leases d -> P l -> wl_attempt_id l ∈ ids) -> gateway_tables d1 = gateway_tables d ->
  side_tables d1 = side_tables d -> keeps d (foldl (fun d attemptID => revokeWorkerGatewayAttempt attemptID reason t d) d1 ids).
Proof.
  intros H1 H2 HP H3 H4. destruct (revoke_all_effect ids reason t d1) as (HL & HU & [I C S M U _] & HS & Hcl). cbv zeta in *.
  set (d' := foldl _ _ _) in *. unfold gateway_tables in H3. injection H3 as GI GC GS GM GU.
  split; [by rewrite HU| |split; [congruence| | | | |]|congruence].
  - rewrite HL, H2. intros l [_ Hl]%elem_of_delete_where. exists l. split_and!; [done|done|lia].
  - by rewrite <- GC.
  - by rewrite <- GS.
  - by rewrite <- GM.
  - by rewrite <- GU.
  - intros id (l & Hl & Hid) Hn. apply Hcl. rewrite <- Hid. apply HP; [done|]. destruct (decide (P l)) as [|Hnp]; [done|].
    destruct Hn. exists l. rewrite HL, H2. split; [|done]. apply elem_of_delete_where. done.
Qed.

Lemma cancel_keeps jobID reason now status d d' :
  CancelJob MarshalStatus jobID reason now d = Ok (status, d') -> keeps d d'.
Proof.
  intros H. unfold CancelJob in H. destruct (first_where _ _) as [j|] eqn:Hj; [|done].
  inv_ok_step H. cbv beta zeta in H. inv_ok_step H. injection H as _ <-.
  unfold budget, settleJobAttemptUsage in E. destruct (settle_all _ _ _ _ _) as [d1|] eqn:Hs; [|done]. injection E as <-.
  apply settle_all_within in Hs as (H1 & H2 & H3 & _ & H4). cbn in H1, H2.
  match goal with |- keeps _ (insertJobEvent _ _ _ ?x) => transitivity x; [|by apply keeps_same] end.
  unfold revokeWorkerGatewayJob. eapply keeps_end_all; cbn; [exact H1|by rewrite H2|by intros l _ Hl|exact H3|exact H4].
Qed.

Lemma cancel_releases jobID reason now status d d' : job_inv d -> artifact_refs d ->
  CancelJob MarshalStatus jobID reason now d = Ok (status, d') -> releases d d'.
Proof.
  intros Hi Hrefs H. unfold CancelJob in H. destruct (first_where _ _) as [j|] eqn:Hj; [|done].
  inv_ok_step H. cbv beta zeta in H. inv_ok_step H. injection H as _ <-.
  unfold budget, settleJobAttemptUsage in E. destruct (settle_all _ _ _ _ _) as [d1|] eqn:Hs; [|done]. injection E as <-.
  pose proof (settle_all_artifacts _ _ _ _ _ _ Hs) as [HB HG]. apply settle_all_effect in Hs as (H1 & H2 & _).
  cbn in H1, H2, HB, HG. set (ids := job_attempts jobID d1). exists ids. split.
  - match goal with |- artifact_view (insertJobEvent _ _ _ (revokeWorkerGatewayJob ?J ?x ?t ?y)) = _ =>
      transitivity (artifact_view y); [by apply revoke_job_artifacts|] end.
    apply (release_job_rows _ _ _ _ d d1); [done| |done|done]. intros a Ha. unfold ids, job_attempts. rewrite H1.
    rewrite cancel_attempts_of by done. split; [|intros HJ; by apply list_elem_of_fmap_2, list_elem_of_filter].
    intros (b & Hab & [HJ Hb]%list_elem_of_filter)%list_elem_of_fmap.
    by rewrite (attempt_row_unique d a b Hi Ha Hb Hab).
  - intros id (l & Hl & <-) Hn. destruct (decide (wl_attempt_id l ∈ ids)) as [|Hnot]; [done|].
    destruct Hn. exists l. split; [|done].
    match goal with |- _ ∈ worker_leases (insertJobEvent _ _ _ ?x) => change (l ∈ worker_leases x) end.
    rewrite (proj2 (revoke_job_artifacts _ _ _ _)). cbn. rewrite H2.
    apply elem_of_delete_where. by split.
Qed.

Lemma retry_within jobID clk status d d' : RetryJob MarshalStatus jobID clk d = Ok (status, d') -> within d d'.
Proof.
  intros H. unfold RetryJob in H. destruct (first_where _ _) as [j|]; [|done]. inv_ok H. simplify_eq. by apply within_same.
Qed.

Lemma hide_within jobID reason now d d' : HideJob jobID reason now d = Ok d' -> within d d'.
Proof. intros H. unfold HideJob in H. inv_ok H. subst d'. by apply within_same. Qed.

Lemma events_within jobs eventType payload d :
  within d (foldl (fun d jobID => insertJobEvent jobID eventType payload d) d jobs).
Proof. revert d. induction jobs as [|J jobs IH]; intros d; [done|]. cbn. etrans; [|apply IH]. by apply within_same. Qed.

Lemma expire_within fuel before locked d n d' : ExpireTerminal fuel before locked d = Some (n, d') -> within d d'.
Proof.
  revert d n. induction fuel as [|fuel IH]; intros d n H; [done|]. cbn [ExpireTerminal] in H.
  assert (within d (expire_batch before locked d).2) as H1.
  { unfold expire_batch. cbn [snd]. etrans; [|apply events_within]. by apply within_same. }
  destruct (expire_batch before locked d) as [expired d1]. case_decide; [by simplify_eq|].
  destruct (ExpireTerminal fuel before locked d1) as [[m d2]|] eqn:Hr; [|done]. injection H as <- <-.
  etrans; [exact H1|]. by eapply IH.
Qed.

Lemma prune_within fuel before locked d n d' : PruneStaleWorkers fuel before locked d = Some (n, d') -> within d d'.
Proof.
  revert d n. induction fuel as [|fuel IH]; intros d n H; [done|]. cbn [PruneStaleWorkers] in H.
  destruct (prune_batch before locked d) as [[selected pruned] d1] eqn:He.
  assert (within d d1) as H1 by (unfold prune_batch in He; injection He as _ _ <-; by apply within_same).
  case_decide; [by simplify_eq|].
  destruct (PruneStaleWorkers fuel before locked d1) as [[m d2]|] eqn:Hr; [|done]. injection H as <- <-.
  etrans; [exact H1|]. by eapply IH.
Qed.

Lemma activate_within status clk d d' : ActivatePhasePlan uuid_Parse status clk d = Ok d' -> within d d'.
Proof.
  intros H. unfold ActivatePhasePlan in H. inv_ok_step H. destruct a as [J id]. inv_ok H. subst d'. by apply within_same.
Qed.

Lemma context_within claim value now d d' : SavePhaseExecutionContext claim value now d = Ok d' -> within d d'.
Proof.
  intros H. unfold SavePhaseExecutionContext in H. do 2 inv_ok_step H.
  destruct (first_where _ (phase_execution_contexts d)); inv_ok H; subst d'; by apply within_same.
Qed.

Lemma finish_within claim state detail clk d d' : finishPhaseWork claim state detail clk d = Ok d' -> within d d'.
Proof. intros H. unfold finishPhaseWork in H. inv_ok H. subst d'. by apply within_same. Qed.

Lemma finish_attempt_within claim status now detail d d' :
  finishPhaseAttemptTx MarshalStatus claim status now detail d = Ok d' -> within d d'.
Proof.
  intros H. pose proof H as (_ & HL & _ & _ & _ & Hu & _)%finish_attempt_effect.
  eapply (within_end (pk_attempt_id claim)); [rewrite Hu; by apply update_where_map|exact HL|by intros l _ [? _]| | |];
  unfold finishPhaseAttemptTx in H; cbv beta zeta in H; inv_ok_step H; inv_ok_step H; unfold budget in E;
  (destruct (settleAttemptUsage _ _ _ _ _) as [d1|] eqn:Hs; [|done]); injection E as <-; inv_ok H; subst d';
  apply settle_gateway in Hs as (Hg & Ha & Hside).
  - eapply revoke_tables. exact Hg.
  - eapply released_after; [exact Ha|reflexivity].
  - exact Hside.
Qed.

Lemma finalize_within claim previous completed local now d d' :
  FinalizePhaseWork MarshalStatus claim previous completed local now d = Ok d' -> within d d'.
Proof.
  intros H. unfold FinalizePhaseWork in H. inv_ok_step H. do 2 inv_ok_step H. cbv zeta in H. inv_ok H. subst d'.
  apply finish_attempt_within in E1. etrans; [|etrans; [exact E1|by apply within_same]]. by apply within_same.
Qed.

Lemma fail_within claim previous detail local now d d' :
  FailPhaseWorkAndJob MarshalStatus claim previous detail local now d = Ok d' -> within d d'.
Proof.
  intros H. unfold FailPhaseWorkAndJob in H. cbv zeta in H. do 2 inv_ok_step H. inv_ok H. subst d'.
  apply finish_attempt_within in E1. etrans; [|etrans; [exact E1|by apply within_same]]. by apply within_same.
Qed.

Lemma take_within p s owner lease workerID clk claim d d' :
  take_phase p s owner lease workerID clk d = Ok (claim, d') -> within d d'.
Proof.
  intros H. unfold take_phase in H. cbv zeta in H.
  destruct (updateResourceReservationPhase _ _ _ _) as [d1|e] eqn:Hres;
    [|destruct e; try done; injection H as _ <-; by apply within_same].
  apply reservation_phase_effect in Hres as (l & -> & Hres). inv_ok_step H.
  destruct (pj_scoring p) as [[n1 n2] n3]. inv_ok_step H. destruct a as [r d2]. injection H as _ <-.
  unfold fairly in E. destruct (recordFairDispatch _ _ _ _ _) as [[r' d5]|] eqn:Hf; [|done]. injection E as -> ->.
  apply dispatch_within in Hf. etrans; [|etrans; [exact Hf|by apply within_same]]. by apply within_same.
Qed.

Lemma claim_phase_within env owner lease caps phases clk claim d d' :
  ClaimPhaseWork env owner lease caps phases clk d = Ok (claim, d') -> within d d'.
Proof.
  intros H. unfold ClaimPhaseWork in H. cbv zeta in H. do 2 inv_ok_step H.
  destruct (NormalizeExecutorCapabilities _) as [labels|]; [|done]. inv_ok_step H.
  unfold withDeferredLeaseExpiries in H. inv_ok_step H. destruct a0 as [[c t] d1]. inv_ok_step H. injection H as -> ->.
  etrans; [|by eapply flush_within].
  unfold claim_phase_body in E0. inv_ok_step E0. destruct a0 as [workerID d2]. apply register_within in E2. etrans; [exact E2|].
  cbv zeta in E0. destruct (reclaim_expired _ _) as [n d3] eqn:Hrec. unfold reclaim_expired in Hrec. injection Hrec as _ <-.
  unfold selectFairPhaseProject in E0. set (d4 := ensureProjectFairnessRows _ _) in E0.
  assert (within d2 d4) as H4 by (by apply within_same).
  etrans; [exact H4|]. destruct (_ <$> pick _ _) as [s|]; [|by injection E0 as _ _ <-].
  destruct (select_phase _ _ _ _ _ _) as [p|] eqn:Hsel; [|by injection E0 as _ _ <-].
  inv_ok_step E0. destruct a0 as [c' d5]. injection E0 as _ _ <-. by eapply take_within.
Qed.

(** Renewals stop at the deadline. *)
Lemma renew_runtime status lease started now d d' : runtime_ok d -> RenewClaim status lease started now d = Ok d' -> runtime_ok d'.
Proof.
  intros [Hm Hl] H. unfold RenewClaim in H. inv_ok H. subst d'. apply first_where_some in E as (Hu & Huid & _).
  split; [done|]. cbn. intros l' u (l & Hlin & [[Hheld ->]|[_ ->]])%elem_of_update_where Huin Heq; [|by apply Hl].
  cbn in *. destruct Hheld as (Hla & _).
  assert (a = u) as -> by (apply (key_unique us_attempt_id (attempt_usages d)); congruence). lia.
Qed.

Lemma renew_phase_runtime claim lease clk d d' : runtime_ok d -> RenewPhaseWork claim lease clk d = Ok d' -> runtime_ok d'.
Proof.
  intros [Hm Hl] H. unfold RenewPhaseWork in H. inv_ok H. subst d'. split; [done|]. cbn.
  intros l' u (l & Hlin & [[_ ->]|[_ ->]])%elem_of_update_where Huin Heq; [|by apply Hl].
  cbn in *. unfold attempt_expiry. cbn. destruct (first_where _ (attempt_usages d)) as [x|] eqn:Hx.
  - apply first_where_some in Hx as (Hxin & Hxid).
    assert (x = u) as -> by (apply (key_unique us_attempt_id (attempt_usages d)); congruence). lia.
  - by destruct (first_where_none _ _ Hx u Huin).
Qed.

Lemma persist_runtime ids c resources spec workerID name kind lease no fence now claim d d' : runtime_ok d ->
  persistClaim MarshalStatus ids c resources spec workerID name kind lease no fence now d = Ok (claim, d') -> runtime_ok d'.
Proof.
  intros [Hm Hl] H. unfold persistClaim in H. cbv beta zeta in H. do 2 inv_ok_step H.
  destruct Hc0 as (_ & _ & Hfu & Hfl). inv_ok_step H. injection H as _ <-.
  unfold insertPhaseWorkPlan in E. inv_ok E. subst a. split; cbn.
  - rewrite fmap_app. apply NoDup_app. split_and!; [done| |apply NoDup_singleton].
    intros id (u & -> & Hu)%list_elem_of_fmap Hin. apply list_elem_of_singleton in Hin.
    apply Hfu, Exists_exists. eauto.
  - intros l u [Hlin|Hlin]%elem_of_app [Hu|Hu]%elem_of_app Heq.
    + by apply Hl.
    + apply list_elem_of_singleton in Hu as ->. cbn in *. destruct Hfl. apply Exists_exists. eauto.
    + apply list_elem_of_singleton in Hlin as ->. cbn in *. destruct Hfu. apply Exists_exists. eauto.
    + apply list_elem_of_singleton in Hlin as ->. apply list_elem_of_singleton in Hu as ->. unfold deadline. cbn. lia.
Qed.

(** A claim is a recovery and, when a job was found, one [persistClaim]. *)
Lemma claim_parts env name lease caps cache clk cache' claim d d' : job_inv d ->
  ClaimNext MarshalStatus env name lease caps cache clk d = (cache', Ok (claim, d')) ->
  within d d' \/ exists d4 d5 ids c resources spec workerID kind no fence now cl, within d d4 /\
    persistClaim MarshalStatus ids c resources spec workerID name kind lease no fence now d4 = Ok (cl, d5) /\
    within d5 d'.
Proof.
  intros Hi H. unfold ClaimNext in H. do 2 (case_decide; [done|]).
  destruct (NormalizeExecutorCapabilities _) as [labels|]; [|done].
  destruct (schedulerWorker _ _ _ _ _ _ _ _) as [[[workerID cache1] d1]|] eqn:Hw; [|done].
  assert (within d d1 /\ view d1 = view d /\ phase_work_items d1 = phase_work_items d) as (Hd1 & Hv & Hp).
  { unfold schedulerWorker in Hw. cbv zeta in Hw.
    destruct (cache !! name) as [c|]; [case_decide; [by simplify_eq|]|];
      (inv_ok_step Hw; destruct a as [id d2]; simplify_eq; split; [by eapply register_within|by eapply register_same]). }
  injection H as _ H. unfold claim_tx in H. destruct (recoverExpiredTx _ _ _ _ _) as [[n d2]|] eqn:Hr; [|done].
  apply recover_within in Hr; [|by eapply implements_inv, implements_same]. unfold claimNextTx in H.
  destruct (selectClaimCandidate _ _ _ _ _) as [found d3] eqn:Hsel.
  assert (within d2 d3) as H3.
  { unfold selectClaimCandidate in Hsel. destruct (selectFairAdmissionProject _ _ _ _) as [s e] eqn:Hs.
    unfold selectFairAdmissionProject in Hs. injection Hs as _ <-. injection Hsel as _ <-. by apply within_same. }
  assert (within d d3) as Hd3 by (etrans; [exact Hd1|]; by etrans).
  destruct found as [c|]; [|simplify_eq; by left].
  destruct (prepareClaimAccounting _ _ _ _ _) as [[acc d4]|] eqn:Hacc; [|done].
  assert (within d d4) as H4.
  { etrans; [exact Hd3|]. unfold prepareClaimAccounting in Hacc. do 3 inv_ok_step Hacc. destruct a1 as [allowed retryAt].
    destruct allowed; simplify_eq; [done|]. by apply within_same. }
  destruct acc as [[resources spec]|]; [|simplify_eq; by left]. inv_ok_step H. destruct a as [no fence].
  inv_ok_step H. destruct a as [cl d5]. right. exists d4, d5. do 10 eexists. split_and!; [done|exact E0|].
  destruct (cc_scoring c) as [[n1 n2] n3]. inv_ok_step H. destruct a as [r d6]. injection H as _ <-.
  unfold fairly in E1. destruct (recordFairDispatch _ _ _ _ _) as [[r' d7]|] eqn:Hf; [|done]. injection E1 as -> ->.
  apply dispatch_within in Hf. etrans; [|etrans; [exact Hf|by apply within_same]]. by apply within_same.
Qed.

Lemma claim_runtime env name lease caps cache clk cache' claim d d' : job_inv d -> runtime_ok d ->
  ClaimNext MarshalStatus env name lease caps cache clk d = (cache', Ok (claim, d')) -> runtime_ok d'.
Proof.
  intros Hi Hok [H|(d4 & d5 & ids & c & res & spec & w & k & no & f & now & cl & H4 & Hp & H5)]%claim_parts; [|..|done].
  - by eapply within_ok.
  - eapply within_ok; [|exact H5]. eapply persist_runtime; [|exact Hp]. by eapply within_ok.
Qed.

Lemma claim_closes env name lease caps cache clk cache' claim d d' : job_inv d ->
  ClaimNext MarshalStatus env name lease caps cache clk d = (cache', Ok (claim, d')) -> closes d d'.
Proof.
  intros Hi [H|(d4 & d5 & ids & c & res & spec & w & k & no & f & now & cl & H4 & Hp & H5)]%claim_parts; [|..|done].
  - apply H.
  - etrans; [apply H4|]. etrans; [|apply H5]. unfold persistClaim in Hp. cbv beta zeta in Hp. do 2 inv_ok_step Hp.
    inv_ok_step Hp. injection Hp as _ <-. unfold insertPhaseWorkPlan in E. inv_ok E. subst a. apply closes_same; [done|].
    cbn. intros id (l & Hl & Hid). exists l. split; [|done]. cbn. set_solver.
Qed.

Lemma renew_closes status lease started now d d' : RenewClaim status lease started now d = Ok d' -> closes d d'.
Proof.
  intros H. unfold RenewClaim in H. inv_ok H. subst d'. apply closes_same; [done|]. intros id. by eapply leased_update.
Qed.

Lemma renew_phase_closes claim lease clk d d' : RenewPhaseWork claim lease clk d = Ok d' -> closes d d'.
Proof.
  intros H. unfold RenewPhaseWork in H. inv_ok H. subst d'. apply closes_same; [done|]. intros id. by eapply leased_update.
Qed.

Lemma claim_releases env name lease caps cache clk cache' claim d d' : job_inv d ->
  ClaimNext MarshalStatus env name lease caps cache clk d = (cache', Ok (claim, d')) -> releases d d'.
Proof.
  intros Hi [H|(d4 & d5 & ids & c & res & spec & w & k & no & f & now & cl & H4 & Hp & H5)]%claim_parts; [|..|done].
  - apply H.
  - etrans; [apply H4|]. etrans; [|apply H5]. unfold persistClaim in Hp. cbv beta zeta in Hp. do 2 inv_ok_step Hp.
    inv_ok_step Hp. injection Hp as _ <-. unfold insertPhaseWorkPlan in E. inv_ok E. subst a. apply releases_same; [done|].
    cbn. intros id (l & Hl & Hid). exists l. split; [|done]. cbn. set_solver.
Qed.

Lemma renew_releases status lease started now d d' : RenewClaim status lease started now d = Ok d' -> releases d d'.
Proof.
  intros H. unfold RenewClaim in H. inv_ok H. subst d'. apply releases_same; [done|]. intros id. by eapply leased_update.
Qed.

Lemma renew_phase_releases claim lease clk d d' : RenewPhaseWork claim lease clk d = Ok d' -> releases d d'.
Proof.
  intros H. unfold RenewPhaseWork in H. inv_ok H. subst d'. apply releases_same; [done|]. intros id. by eapply leased_update.
Qed.

(** Every operation of the job system but the four above. *)
Lemma job_op_within d d' : job_inv d -> job_op MarshalStatus MarshalRequest uuid_Parse d d' ->
  within d d' \/ (exists env name lease caps cache clk cache' claim,
      ClaimNext MarshalStatus env name lease caps cache clk d = (cache', Ok (claim, d'))) \/
  (exists status lease started now, RenewClaim status lease started now d = Ok d') \/
  (exists claim lease clk, RenewPhaseWork claim lease clk d = Ok d') \/
  (exists jobID reason now status, CancelJob MarshalStatus jobID reason now d = Ok (status, d')).
Proof.
  intros Hi Hs. destruct Hs;
    first [ left; first
              [ eapply create_within; eassumption | eapply recover_within; eassumption
              | eapply transition_within; eassumption
              | eapply retry_within; eassumption | eapply hide_within; eassumption
              | eapply expire_within; eassumption | eapply prune_within; eassumption
              | eapply activate_within; eassumption | eapply claim_phase_within; eassumption
              | eapply finish_within; eassumption | eapply finalize_within; eassumption
              | eapply fail_within; eassumption | eapply context_within; eassumption ]
          | right; left; do 8 eexists; eassumption | right; right; left; do 4 eexists; eassumption
          | right; right; right; left; do 3 eexists; eassumption
          | right; right; right; right; do 4 eexists; eassumption ].
Qed.

Lemma job_op_closes d d' : job_inv d -> job_op MarshalStatus MarshalRequest uuid_Parse d d' -> closes d d'.
Proof.
  intros Hi Hs. destruct (job_op_within d d' Hi Hs) as [H|[(? & ? & ? & ? & ? & ? & ? & ? & H)|[(? & ? & ? & ? & H)|[(? & ? & ? & H)|(? & ? & ? & ? & H)]]]].
  - apply H.
  - by eapply claim_closes.
  - by eapply renew_closes.
  - by eapply renew_phase_closes.
  - by eapply cancel_keeps.
Qed.

Lemma job_op_releases d d' : job_inv d -> artifact_refs d -> job_op MarshalStatus MarshalRequest uuid_Parse d d' -> releases d d'.
Proof.
  intros Hi Hf Hs.
  destruct (job_op_within d d' Hi Hs) as [H|[(? & ? & ? & ? & ? & ? & ? & ? & H)|[(? & ? & ? & ? & H)|[(? & ? & ? & H)|(? & ? & ? & ? & H)]]]].
  - apply H.
  - by eapply claim_releases.
  - by eapply renew_releases.
  - by eapply renew_phase_releases.
  - by eapply cancel_releases.
Qed.

Lemma job_op_side d d' : job_inv d -> job_op MarshalStatus MarshalRequest uuid_Parse d d' -> side_tables d' = side_tables d.
Proof.
  intros Hi Hs.
  destruct (job_op_within d d' Hi Hs) as [H|[(? & ? & ? & ? & ? & ? & ? & ? & H)|[(? & ? & ? & ? & H)|[(? & ? & ? & H)|(? & ? & ? & ? & H)]]]].
  - apply H.
  - apply claim_parts in H as [H|(d4 & d5 & ids & c & res & spec & w & k & no & f & now & cl & H4 & Hp & H5)];
      [apply H| |done]. transitivity (side_tables d5); [apply H5|]. transitivity (side_tables d4); [|apply H4].
    unfold persistClaim in Hp. cbv beta zeta in Hp. do 2 inv_ok_step Hp. inv_ok_step Hp. injection Hp as _ <-.
    unfold insertPhaseWorkPlan in E. inv_ok E. by subst a.
  - unfold RenewClaim in H. inv_ok H. by subst d'.
  - unfold RenewPhaseWork in H. inv_ok H. by subst d'.
  - by eapply cancel_keeps.
Qed.

Lemma job_step_runtime d d' : job_inv d -> runtime_ok d -> step d d' -> runtime_ok d'.
Proof.
  intros Hi Hok Hstep. destruct Hstep as [d d' Hs|d d' (_ & _ & H3 & _ & H5 & _)].
  - destruct (job_op_within d d' Hi Hs) as [H|[(? & ? & ? & ? & ? & ? & ? & ? & H)|[(? & ? & ? & ? & H)|[(? & ? & ? & H)|(? & ? & ? & ? & H)]]]];
      eauto using within_ok, keeps_ok, cancel_keeps, claim_runtime, renew_runtime, renew_phase_runtime.
  - destruct Hok. split; by rewrite ?H3, ?H5.
Qed.

(** C28. A lease never outlives the runtime budget of its attempt: in every
    reachable state each attempt has at most one meter, and the lease of an
    attempt expires no later than the deadline its meter gives it, however
    often the claim or its phases are renewed. *)
Theorem lease_within_runtime (d : db) (l : worker_lease) (u : attempt_usage)
    (R : reachable MarshalStatus MarshalRequest uuid_Parse d)
    (Hl : l ∈ worker_leases d) (Hu : u ∈ attempt_usages d) (Ha : us_attempt_id u = wl_attempt_id l) :
  wl_expires_at l <= us_metering_started_at u + us_max_runtime_seconds u * Second /\
  forall u', u' ∈ attempt_usages d -> us_attempt_id u' = us_attempt_id u -> u' = u.
Proof.
  destruct R as (d0 & Hinit & Hr). pose proof (initial_inv d0 Hinit) as Hi. destruct Hinit as (_ & _ & HL & _ & HU & _).
  assert (runtime_ok d) as [Hm Hok].
  { assert (runtime_ok d0) as H0.
    { split; [rewrite HU; apply NoDup_nil_2|]. rewrite HL. intros x y Hx. by apply elem_of_nil in Hx. }
    clear HL HU Hl Hu. induction Hr as [|d1 d2 d3 Hs _ IH]; [done|].
    apply IH; [|by apply (job_step_runtime d1)]. eapply implements_inv; [exact Hi|by eapply job_step_implements]. }
  split; [exact (Hok l u Hl Hu Ha)|]. intros u' Hu' Heq. by apply (key_unique us_attempt_id (attempt_usages d)).
Qed.
End runtime.

Lemma lease_within_runtime_witness :
  Forall (fun l => wl_expires_at l <= 20 * Second + 3600 * Second) (worker_leases claimed_ex).
Proof.
  rewrite Forall_forall. intros l Hl.
  assert (exists u, u ∈ attempt_usages claimed_ex /\ us_attempt_id u = "a1" /\ us_metering_started_at u = 20 * Second /\
    us_max_runtime_seconds u = 3600) as (u & Hu & Hid & <- & <-).
  { eexists. split_and!; [vm_compute; apply list_elem_of_here|reflexivity..]. }
  refine (proj1 (lease_within_runtime marshal_status_ex marshal_request_ex any_uuid claimed_ex l u
    claimed_reachable Hl Hu _)).
  rewrite Hid. vm_compute in Hl. apply list_elem_of_singleton in Hl as ->. reflexivity.
Defined.
