(* ===== verification/GatewaySystem.v ===== *)
(** * The worker gateway beside the job system

    The operations of [WorkerGateway] as steps, interleaved with those of the
    job system, and what holds of every state the two reach together: what the
    gateway keeps open for an attempt hangs on the lease of the attempt, and
    rows only move towards their end. *)

From S2P Require Import Prelude GoStrings Schema Fairness JobLedger Scheduler PhaseWork Fencing JobSystem.
From S2P Require Import JobSafety WorkerGateway GatewayRows LeaseRuntime.
From Stdlib Require Import Ascii.
Open Scope string_scope.
Open Scope list_scope.
Open Scope Z_scope.

#[local] Arguments update_where : simpl never.

(** ** The invariant *)
Record gateway_inv (d : db) : Prop := {
  gi_issuers : NoDup (wi_fingerprint <$> workload_issuers d);
  gi_certs : NoDup (wc_fingerprint <$> workload_certificates d);
  gi_workers : NoDup (wc_worker_id <$> workload_certificates d);
  gi_sess : NoDup (gs_worker_id <$> gateway_sessions d);
  gi_cmds : NoDup (gc_id <$> gateway_commands d);
  gi_upls : NoDup (gu_id <$> gateway_uploads d);
  gi_open : forall id, ~ leased id d -> gateway_closed id d
}.

Definition rows_le {A} (R : relation A) (l l' : list A) : Prop := forall x, x ∈ l -> exists x', x' ∈ l' /\ R x x'.
#[export] Instance rows_le_preorder {A} (R : relation A) : PreOrder R -> PreOrder (rows_le R).
Proof.
  split.
  - intros l x Hx. by exists x.
  - intros l1 l2 l3 H12 H23 x Hx. destruct (H12 x Hx) as (y & Hy & Hxy). destruct (H23 y Hy) as (z & Hz & Hyz).
    exists z. split; [done|]. by etrans.
Qed.

Record gateway_evolves (d d' : db) : Prop := {
  ge_issuers : rows_le issuer_le (workload_issuers d) (workload_issuers d');
  ge_certs : rows_le cert_le (workload_certificates d) (workload_certificates d');
  ge_sess : rows_le sess_le (gateway_sessions d) (gateway_sessions d');
  ge_cmds : rows_le cmd_le (gateway_commands d) (gateway_commands d');
  ge_upls : rows_le upl_le (gateway_uploads d) (gateway_uploads d')
}.
#[export] Instance gateway_evolves_preorder : PreOrder gateway_evolves.
Proof.
  split.
  - intros d. split; reflexivity.
  - intros x y z [] []. split; by etrans.
Qed.

(** A step that keeps both. *)
Definition good (d d' : db) : Prop := gateway_inv d' /\ gateway_evolves d d'.
Lemma good_trans x y z : good x y -> (gateway_inv y -> good y z) -> good x z.
Proof. intros [Hi He] H. destruct (H Hi) as [Hi' He']. split; [done|by etrans]. Qed.

Lemma leased_dec id d : leased id d \/ ~ leased id d.
Proof.
  destruct (decide (Exists (fun l => wl_attempt_id l = id) (worker_leases d))) as [H|H]; [left|right].
  - apply Exists_exists in H. exact H.
  - intros Hl. apply H, Exists_exists. exact Hl.
Qed.

Lemma Forall2_rows_le {A} (R : relation A) (l l' : list A) : Forall2 R l l' -> rows_le R l l'.
Proof. intros H x Hx. by eapply Forall2_forth. Qed.

Lemma Forall2_key {A K} (R : relation A) (key : A -> K) (l l' : list A) : Forall2 R l l' ->
  (forall x y, R x y -> key y = key x) -> key <$> l' = key <$> l.
Proof. intros H Hk. induction H as [|x y l l' Hxy _ IH]; [done|]. rewrite !fmap_cons. f_equal; [by apply Hk|done]. Qed.

(** ** Steps of the job system *)
Lemma closes_good d d' : gateway_inv d -> closes d d' -> good d d'.
Proof.
  intros [I C W S M U O] Hcl. pose proof Hcl as [HI HC HS HM HU HL]. split; split.
  - by rewrite HI.
  - rewrite (Forall2_key _ wc_fingerprint _ _ HC); [done|]. by intros x y [[= ] _].
  - rewrite (Forall2_key _ wc_worker_id _ _ HC); [done|]. by intros x y [[= ] _].
  - rewrite (Forall2_key _ gs_worker_id _ _ HS); [done|]. by intros x y [[[= ] _] _].
  - rewrite (Forall2_key _ gc_id _ _ HM); [done|]. by intros x y [[= ] _].
  - rewrite (Forall2_key _ gu_id _ _ HU); [done|]. by intros x y [[= ] _].
  - intros id Hn. destruct (leased_dec id d) as [Hl|Hl]; [by apply HL|]. apply (closed_stays id d d' Hcl). auto.
  - rewrite HI. reflexivity.
  - by apply Forall2_rows_le.
  - intros s Hs. destruct (Forall2_forth _ _ _ _ HS Hs) as (s' & Hs' & [Hle _]). eauto.
  - by apply Forall2_rows_le.
  - by apply Forall2_rows_le.
Qed.

(** ** Steps of the gateway *)

(** A session that is active afterwards was so before or has a lease. *)
Definition sess_opens (d : db) (s s' : gateway_session) : Prop :=
  sess_le s s' /\ (gs_state s' = SessActive -> gs_state s = SessActive \/ leased (gs_attempt_id s') d).
#[export] Instance sess_opens_refl d : Reflexive (sess_opens d).
Proof. intros s. split; [done|auto]. Qed.

(** What one statement of the gateway may do to the tables. *)
Record serves (d d' : db) : Prop := {
  sv_leases : worker_leases d' = worker_leases d;
  sv_issuers : rows_evolve issuer_le (fun i => (wi_fingerprint i ∉ (wi_fingerprint <$> workload_issuers d)))
                 (workload_issuers d) (workload_issuers d');
  sv_certs : rows_evolve cert_le (fun c => (wc_fingerprint c ∉ (wc_fingerprint <$> workload_certificates d)) /\
                 (wc_worker_id c ∉ (wc_worker_id <$> workload_certificates d)) /\ leased (wc_attempt_id c) d)
               (workload_certificates d) (workload_certificates d');
  sv_sess : rows_evolve (sess_opens d) (fun s => (gs_worker_id s ∉ (gs_worker_id <$> gateway_sessions d)) /\
                 leased (gs_attempt_id s) d) (gateway_sessions d) (gateway_sessions d');
  sv_cmds : rows_evolve cmd_le (fun c => (gc_id c ∉ (gc_id <$> gateway_commands d)) /\ leased (gc_attempt_id c) d)
              (gateway_commands d) (gateway_commands d');
  sv_upls : rows_evolve upl_le (fun u => (gu_id u ∉ (gu_id <$> gateway_uploads d)) /\ leased (gu_attempt_id u) d)
              (gateway_uploads d) (gateway_uploads d')
}.

Lemma serves_closed d d' id : serves d d' -> gateway_inv d -> ~ leased id d' -> gateway_closed id d'.
Proof.
  intros [HL _ HC HS HM HU] Hi Hn.
  assert (~ leased id d) as Hn0 by (unfold leased in *; by rewrite <- HL).
  destruct (gi_open d Hi id Hn0) as [C S M U]. split; intros x' Hx' Hid.
  - destruct (rows_evolve_new _ _ _ _ _ HC Hx') as [(x & Hx & [[= ] Hle])|(_ & _ & Hl)]; [|by rewrite Hid in Hl].
    apply Hle, C; congruence.
  - destruct (rows_evolve_new _ _ _ _ _ HS Hx') as [(x & Hx & [[[= ] _] Hle])|(_ & Hl)]; [|by rewrite Hid in Hl].
    destruct (gs_state x') eqn:E; [|done]. destruct Hle as [Ha|Hl]; [done| |by rewrite Hid in Hl].
    rewrite S in Ha; [done|done|congruence].
  - destruct (rows_evolve_new _ _ _ _ _ HM Hx') as [(x & Hx & ([= ] & _ & Hle & _))|(_ & Hl)]; [|by rewrite Hid in Hl].
    assert (~ open_command x) as Hx0 by (apply M; congruence). intros Ho. by apply Hx0, (open_command_outcome x x' (Hle Hx0)).
  - destruct (rows_evolve_new _ _ _ _ _ HU Hx') as [(x & Hx & ([= ] & _ & Hle & _))|(_ & Hl)]; [|by rewrite Hid in Hl].
    assert (~ open_upload x) as Hx0 by (apply U; congruence). intros Ho. by apply Hx0, (open_upload_outcome x x' (Hle Hx0)).
Qed.

Lemma serves_good d d' : gateway_inv d -> serves d d' -> good d d'.
Proof.
  intros Hi Hsv. pose proof Hi as [I C W S M U O]. pose proof Hsv as [HL HI HC HS HM HU]. split; split.
  - eapply rows_evolve_key; [exact HI| |done|done]. by intros x y [[= ] _].
  - eapply rows_evolve_key; [exact HC| |by intros x (? & _)|done]. by intros x y [[= ] _].
  - eapply rows_evolve_key; [exact HC| |by intros x (_ & ? & _)|done]. by intros x y [[= ] _].
  - eapply rows_evolve_key; [exact HS| |by intros x [? _]|done]. by intros x y [[[= ] _] _].
  - eapply rows_evolve_key; [exact HM| |by intros x [? _]|done]. by intros x y [[= ] _].
  - eapply rows_evolve_key; [exact HU| |by intros x [? _]|done]. by intros x y [[= ] _].
  - intros id. by eapply serves_closed.
  - intros x Hx. by eapply rows_evolve_old.
  - intros x Hx. by eapply rows_evolve_old.
  - intros x Hx. destruct (rows_evolve_old _ _ _ _ _ HS Hx) as (x' & Hx' & [Hle _]). eauto.
  - intros x Hx. by eapply rows_evolve_old.
  - intros x Hx. by eapply rows_evolve_old.
Qed.

(** One table at a time. *)
Ltac serve_rest := first [reflexivity | apply rows_evolve_refl; apply _].

Lemma serves_issuers d l :
  rows_evolve issuer_le (fun i => (wi_fingerprint i ∉ (wi_fingerprint <$> workload_issuers d))) (workload_issuers d) l ->
  serves d (d <| workload_issuers := l |>).
Proof. intros H. split; try exact H; serve_rest. Qed.

Lemma serves_sessions d l :
  rows_evolve (sess_opens d) (fun s => (gs_worker_id s ∉ (gs_worker_id <$> gateway_sessions d)) /\
    leased (gs_attempt_id s) d) (gateway_sessions d) l -> serves d (d <| gateway_sessions := l |>).
Proof. intros H. split; try exact H; serve_rest. Qed.

Lemma serves_certificates d l :
  rows_evolve cert_le (fun c => (wc_fingerprint c ∉ (wc_fingerprint <$> workload_certificates d)) /\
    (wc_worker_id c ∉ (wc_worker_id <$> workload_certificates d)) /\ leased (wc_attempt_id c) d)
    (workload_certificates d) l -> serves d (d <| workload_certificates := l |>).
Proof. intros H. split; try exact H; serve_rest. Qed.

Lemma serves_commands d l :
  rows_evolve cmd_le (fun c => (gc_id c ∉ (gc_id <$> gateway_commands d)) /\ leased (gc_attempt_id c) d)
    (gateway_commands d) l -> serves d (d <| gateway_commands := l |>).
Proof. intros H. split; try exact H; serve_rest. Qed.

Lemma serves_uploads d l :
  rows_evolve upl_le (fun u => (gu_id u ∉ (gu_id <$> gateway_uploads d)) /\ leased (gu_attempt_id u) d)
    (gateway_uploads d) l -> serves d (d <| gateway_uploads := l |>).
Proof. intros H. split; try exact H; serve_rest. Qed.

Lemma fresh_key {A K} `{EqDecision K} (key : A -> K) (k : K) (l : list A) :
  first_where (fun x => key x = k) l = None -> k ∉ (key <$> l).
Proof. intros H (x & -> & Hx)%list_elem_of_fmap. by apply (first_where_none _ _ H x Hx). Qed.

Lemma attempt_leased_leased a f now d : attempt_leased a f now d -> leased a d.
Proof. intros (l & Hl & Ha & _)%Exists_exists. exists l. done. Qed.

Lemma active_leased d s : gateway_inv d -> s ∈ gateway_sessions d -> gs_state s = SessActive -> leased (gs_attempt_id s) d.
Proof.
  intros Hi Hs Ha. destruct (leased_dec (gs_attempt_id s) d) as [|Hn]; [done|].
  by rewrite (gc_sess _ _ (gi_open d Hi _ Hn) s Hs eq_refl) in Ha.
Qed.

(** *** Sessions and certificates *)
Lemma register_good i now d d' : gateway_inv d -> RegisterWorkerSession i now d = Ok d' -> good d d'.
Proof.
  intros Hi H. unfold RegisterWorkerSession in H. inv_ok_step H.
  destruct (live_attempt_project i now d) as [project|] eqn:Hp; [|done].
  assert (leased (id_attempt_id i) d) as Hl.
  { unfold live_attempt_project in Hp. destruct (first_where _ _); [|done].
    destruct (decide _) as [Hd|] in Hp; [|done].
    by eapply attempt_leased_leased, Hd. }
  apply serves_good; [done|]. destruct (first_where _ (gateway_sessions d)) as [s|] eqn:Hs.
  - inv_ok H. subst d'. apply first_where_some in Hs as [Hin Hw]. apply serves_sessions, rows_evolve_update; [apply _|].
    intros x Hx Hxw. assert (x = s) as -> by (apply (key_unique gs_worker_id (gateway_sessions d)); [apply Hi|done|done|congruence]).
    split; [done|]. intros _. right. cbn. destruct Hc as (_ & -> & _). done.
  - inv_ok H. subst d'. apply serves_sessions, rows_evolve_insert; [apply _|]. split; [by apply fresh_key|done].
Qed.

Lemma drain_serves record d : serves d (drain_issuers record d).
Proof.
  apply serves_issuers, rows_evolve_update; [apply _|]. intros i _ (_ & _ & Ha). split_and!; [done|done|]. by rewrite Ha.
Qed.

Lemma upsert_issuer_serves record now d d' : upsert_issuer record now d = Ok d' -> serves d d'.
Proof.
  intros H. unfold upsert_issuer in H. inv_ok_step H. destruct (first_where _ _) as [i|] eqn:Hf; inv_ok H; subst d'.
  - apply serves_issuers, rows_evolve_update; [apply _|]. intros x _ _. split_and!; done.
  - apply serves_issuers, rows_evolve_insert; [apply _|]. by apply fresh_key.
Qed.

Lemma insert_certificate_serves i record now d d' : gateway_inv d ->
  insert_certificate i record now d = Ok d' -> serves d d' \/ d' = d.
Proof.
  intros Hi H. unfold insert_certificate in H. destruct (first_where _ _) as [s|] eqn:Hs; [|done]. cbv zeta in H.
  apply first_where_some in Hs as (Hin & _ & _ & _ & _ & Hact).
  destruct (first_where _ (workload_certificates d)) as [c|] eqn:Hf; inv_ok H; subst d'; [by right|]. left.
  apply serves_certificates, rows_evolve_insert; [apply _|]. split_and!; [by apply fresh_key| |by apply active_leased].
  intros (c & Heq & Hc')%list_elem_of_fmap. apply Hc, Exists_exists. exists c. split; [done|]. left. done.
Qed.

Lemma bind_serves i fingerprint now d d' : bind_certificate i fingerprint now d = Ok d' -> serves d d'.
Proof.
  intros H. unfold bind_certificate in H. inv_ok H. subst d'. apply serves_sessions, rows_evolve_update; [apply _|].
  intros s _ [(_ & _ & _ & _ & Ha) Hb]. split; [split; [done|]|by left]. cbn. intros f Hf.
  destruct Hb as [Hb|Hb]; congruence.
Qed.

Lemma certificate_good i record clk d d' : gateway_inv d -> RegisterWorkerCertificate i record clk d = Ok d' -> good d d'.
Proof.
  intros Hi H. unfold RegisterWorkerCertificate in H. do 2 inv_ok_step H. cbv zeta in H. do 2 inv_ok_step H.
  eapply good_trans; [apply serves_good, (drain_serves record d); done|]. intros Hi1.
  eapply good_trans; [by eapply serves_good, upsert_issuer_serves|]. intros Hi2.
  apply insert_certificate_serves in E2; [|done]. apply bind_serves in H.
  destruct E2 as [E2| ->]; [|by apply serves_good].
  eapply good_trans; [by apply serves_good|]. intros Hi3. by apply serves_good.
Qed.

Lemma authorize_good i presented now d d' : gateway_inv d -> AuthorizeWorkerCertificate i presented now d = Ok d' -> good d d'.
Proof.
  intros Hi H. unfold AuthorizeWorkerCertificate in H. inv_ok_step H. inv_ok H. subst d'.
  apply serves_good; [done|]. apply serves_certificates, rows_evolve_update; [apply _|]. by intros c _ _.
Qed.

Lemma revoke_session_good i reason clk d d' : gateway_inv d -> RevokeWorkerSession i reason clk d = Ok d' -> good d d'.
Proof.
  intros Hi H. unfold RevokeWorkerSession in H. case_decide; [injection H as <-; split; [done|reflexivity]|].
  injection H as <-. apply serves_good; [done|]. split; cbn; [done|apply rows_evolve_refl, _|..];
    apply rows_evolve_update; try apply _; cbn.
  - by intros c _ _.
  - by intros s _ _.
  - intros c _ [_ Hc]. by apply cancel_command_le.
  - intros u _ [_ Hu]. by apply cancel_upload_le.
Qed.

Lemma touch_serves (P : gateway_session -> Prop) `{HdP : !forall s, Decision (P s)} now d :
  serves d (d <| gateway_sessions := update_where P (touch_session now) (gateway_sessions d) |>).
Proof. apply serves_sessions, rows_evolve_update; [apply _|]. intros s _ _. split; [done|by left]. Qed.

Lemma touch_tx_serves i now d d' : touchWorkerSessionTx i now d = Ok d' -> serves d d'.
Proof. intros H. unfold touchWorkerSessionTx in H. inv_ok H. subst d'. apply touch_serves. Qed.

Lemma uploading_open i uploadID fence u : uploading i uploadID fence u -> open_upload u.
Proof. intros (_ & Hs & _). unfold open_upload. rewrite Hs. set_solver. Qed.

Section gateway_system.
Context (uuid_Parse : string -> option uuid) (jsonb : string -> option string).

(** *** Commands *)
Lemma enqueue_good i task now d d' : gateway_inv d ->
  EnqueueWorkerCommand uuid_Parse jsonb i task now d = Ok d' -> good d d'.
Proof.
  intros Hi H. unfold EnqueueWorkerCommand in H. destruct (uuid_Parse _) as [id|]; [|done]. do 2 inv_ok_step H.
  destruct (jsonb _) as [request|]; [|done]. destruct (first_where _ (gateway_sessions d)) as [s|] eqn:Hs; [|done].
  apply first_where_some in Hs as (_ & _ & Hl). cbv zeta in H.
  destruct (first_where _ (gateway_commands d)) as [c|] eqn:Hf; inv_ok H; subst d'; [split; [done|reflexivity]|].
  apply serves_good; [done|]. apply serves_commands, rows_evolve_insert; [apply _|].
  split; [by apply fresh_key|by eapply attempt_leased_leased].
Qed.

Lemma claim_command_good i lease locked clk t d d' : gateway_inv d ->
  ClaimWorkerCommand i lease locked clk d = Ok (t, d') -> good d d'.
Proof.
  intros Hi H. unfold ClaimWorkerCommand in H. do 2 inv_ok_step H. rename a into d1.
  cbv zeta in H. eapply good_trans; [by eapply serves_good, touch_tx_serves|]. intros Hi1. set (d2 := d1 <| gateway_commands := _ |>) in *.
  assert (serves d1 d2) as Hs2.
  { apply serves_commands, rows_evolve_update; [apply _|]. intros c _ (_ & Hd & _).
    split_and!; [done|cbn; lia| |done]. intros Hn. destruct Hn. unfold open_command. rewrite Hd. set_solver. }
  clearbody d2. eapply good_trans; [by apply serves_good|]. intros Hi2. destruct (pick _ _) as [c|] eqn:Hp;
    injection H as _ <-; [|split; [done|reflexivity]].
  apply pick_elem, list_elem_of_filter in Hp as [(_ & Hq & _) Hin]. apply serves_good; [done|].
  apply serves_commands, rows_evolve_update; [apply _|]. intros x Hx Hid.
  assert (x = c) as -> by (by apply (key_unique gc_id (gateway_commands d2)); [apply Hi2|..]).
  split_and!; [done|cbn; lia| |intros _; right; cbn; lia]. intros Hn. destruct Hn. unfold open_command. rewrite Hq. set_solver.
Qed.

Lemma complete_good i completion now d d' : gateway_inv d ->
  CompleteWorkerCommand jsonb i completion now d = Ok d' -> good d d'.
Proof.
  intros Hi H. unfold CompleteWorkerCommand in H. do 3 inv_ok_step H. cbv zeta in H. inv_ok_step H. inv_ok_step H.
  injection H as <-. apply serves_good; [done|]. apply serves_commands, rows_evolve_update; [apply _|].
  intros c _ (_ & _ & _ & _ & _ & _ & Hs & _). split_and!; [done|cbn; lia| |].
  - intros Hn. destruct Hs as [Hs|(Hs & He & Hr)]; [destruct Hn; unfold open_command; rewrite Hs; set_solver|].
    unfold cmd_outcome. cbn. by rewrite Hs, He, Hr.
  - cbn. unfold outcome. by case_decide.
Qed.

(** *** Uploads *)
Lemma prepare_good i uploadID destination maxBytes now d d' : gateway_inv d ->
  PrepareWorkerUpload uuid_Parse i uploadID destination maxBytes now d = Ok d' -> good d d'.
Proof.
  intros Hi H. unfold PrepareWorkerUpload in H. do 3 inv_ok_step H.
  destruct (first_where _ (gateway_sessions d)) as [s|] eqn:Hs; [|done].
  apply first_where_some in Hs as (Hin & _ & _ & _ & _ & Ha).
  destruct (first_where _ (gateway_uploads d)) as [u|] eqn:Hf; inv_ok H; subst d'; [split; [done|reflexivity]|].
  apply serves_good; [done|]. apply serves_uploads, rows_evolve_insert; [apply _|].
  split; [by apply fresh_key|by apply active_leased].
Qed.

Lemma claim_upload_good i uploadID lease clk claim d d' : gateway_inv d ->
  ClaimWorkerUpload uuid_Parse i uploadID lease clk d = Ok (claim, d') -> good d d'.
Proof.
  intros Hi H. unfold ClaimWorkerUpload in H. do 3 inv_ok_step H. rename a into d1.
  eapply good_trans; [by eapply serves_good, touch_tx_serves|]. intros Hi1.
  destruct (first_where _ (gateway_uploads d1)) as [u|] eqn:Hf; [|done]. inv_ok_step H. cbv zeta in H.
  apply first_where_some in Hf as (Hu & (Hid & _) & _).
  assert (forall t, open_upload u -> good d1 (d1 <| gateway_uploads :=
    update_where (fun x => gu_id x = uploadID) (start_upload lease t) (gateway_uploads d1) |>)) as Hstart.
  { intros t Ho. apply serves_good; [done|]. apply serves_uploads, rows_evolve_update; [apply _|]. intros x Hx Hxid.
    assert (x = u) as -> by (apply (key_unique gu_id (gateway_uploads d1)); [apply Hi1|done|done|congruence]).
    split_and!; [done|cbn; lia|done|intros _; right; cbn; lia]. }
  destruct (gu_state u) eqn:Hst; try done.
  - inv_ok_step H. injection H as _ <-. apply Hstart. unfold open_upload. rewrite Hst. set_solver.
  - inv_ok_step H. injection H as _ <-. apply Hstart. unfold open_upload. rewrite Hst. set_solver.
  - injection H as _ <-. split; [done|reflexivity].
Qed.

Lemma complete_upload_good i uploadID fence digest size now d d' : gateway_inv d ->
  CompleteWorkerUpload i uploadID fence digest size now d = Ok d' -> good d d'.
Proof.
  intros Hi H. unfold CompleteWorkerUpload in H. cbv zeta in H. inv_ok H. subst d'. apply serves_good; [done|].
  apply serves_uploads, rows_evolve_update; [apply _|]. intros u _ [Hu _].
  split_and!; [done|cbn; lia| |done]. intros Hn. by destruct Hn; eapply uploading_open.
Qed.

Lemma cancel_upload_good i uploadID fence now d d' : gateway_inv d ->
  CancelWorkerUpload i uploadID fence now d = Ok d' -> good d d'.
Proof.
  intros Hi H. unfold CancelWorkerUpload in H. cbv zeta in H. inv_ok H. subst d'. apply serves_good; [done|].
  apply serves_uploads, rows_evolve_update; [apply _|]. intros u _ [Hu _]. by eapply cancel_upload_le, uploading_open.
Qed.

(** *** Revocation by an operator *)
Lemma revoke_certificate_good fingerprint reason local d d' : gateway_inv d ->
  RevokeWorkloadCertificate fingerprint reason local d = Ok d' -> good d d'.
Proof.
  intros Hi H. unfold RevokeWorkloadCertificate in H. cbv zeta in H. inv_ok H. subst d'.
  apply closes_good; [done|]. by eapply closes_end.
Qed.

Lemma revoke_issuer_good fingerprint reason local d d' : gateway_inv d ->
  RevokeWorkloadIssuer fingerprint reason local d = Ok d' -> good d d'.
Proof.
  intros Hi H. unfold RevokeWorkloadIssuer in H. cbv zeta in H. inv_ok_step H.
  case_decide; [inv_ok H; subst d'; split; [done|reflexivity]|]. injection H as <-. apply serves_good; [done|].
  split; cbn; [done|..]; apply rows_evolve_update; try apply _; cbn.
  - by intros x _ _.
  - by intros x _ _.
  - by intros x _ _.
  - intros x _ [_ Hx]. by apply cancel_command_le.
  - intros x _ [_ Hx]. by apply cancel_upload_le.
Qed.

(** ** The system *)

(** One committed transaction of the gateway. *)
Inductive gateway_op : db -> db -> Prop :=
| go_register i now d d' : RegisterWorkerSession i now d = Ok d' -> gateway_op d d'
| go_certificate i record clk d d' : RegisterWorkerCertificate i record clk d = Ok d' -> gateway_op d d'
| go_authorize i presented now d d' : AuthorizeWorkerCertificate i presented now d = Ok d' -> gateway_op d d'
| go_revoke_session i reason clk d d' : RevokeWorkerSession i reason clk d = Ok d' -> gateway_op d d'
| go_touch i now d d' : TouchWorkerSession i now d = Ok d' -> gateway_op d d'
| go_enqueue i task now d d' : EnqueueWorkerCommand uuid_Parse jsonb i task now d = Ok d' -> gateway_op d d'
| go_claim_command i lease locked clk t d d' :
    ClaimWorkerCommand i lease locked clk d = Ok (t, d') -> gateway_op d d'
| go_complete i completion now d d' : CompleteWorkerCommand jsonb i completion now d = Ok d' -> gateway_op d d'
| go_prepare i uploadID destination maxBytes now d d' :
    PrepareWorkerUpload uuid_Parse i uploadID destination maxBytes now d = Ok d' -> gateway_op d d'
| go_claim_upload i uploadID lease clk claim d d' :
    ClaimWorkerUpload uuid_Parse i uploadID lease clk d = Ok (claim, d') -> gateway_op d d'
| go_complete_upload i uploadID fence digest size now d d' :
    CompleteWorkerUpload i uploadID fence digest size now d = Ok d' -> gateway_op d d'
| go_cancel_upload i uploadID fence now d d' : CancelWorkerUpload i uploadID fence now d = Ok d' -> gateway_op d d'
| go_revoke_certificate fingerprint reason local d d' :
    RevokeWorkloadCertificate fingerprint reason local d = Ok d' -> gateway_op d d'
| go_revoke_issuer fingerprint reason local d d' :
    RevokeWorkloadIssuer fingerprint reason local d = Ok d' -> gateway_op d d'.

Lemma gateway_op_good d d' : gateway_inv d -> gateway_op d d' -> good d d'.
Proof.
  intros Hi Ho. destruct Ho; eauto using register_good, certificate_good, authorize_good, revoke_session_good,
    enqueue_good, claim_command_good, complete_good, prepare_good, claim_upload_good, complete_upload_good,
    cancel_upload_good, revoke_certificate_good, revoke_issuer_good.
  unfold TouchWorkerSession in H. cbv zeta in H. inv_ok H. subst d'. apply serves_good, touch_serves. done.
Qed.

(** The gateway leaves the tables of the job system alone. *)
Lemma elsewhere_trans x y z : elsewhere x y -> elsewhere y z -> elsewhere x z.
Proof. unfold elsewhere. intuition congruence. Qed.

Lemma touch_tx_elsewhere i now d d' : touchWorkerSessionTx i now d = Ok d' -> elsewhere d d'.
Proof. intros H. unfold touchWorkerSessionTx in H. inv_ok H. subst d'. split_and!; reflexivity. Qed.

Lemma register_certificate_elsewhere i record clk d d' : RegisterWorkerCertificate i record clk d = Ok d' -> elsewhere d d'.
Proof.
  intros H. unfold RegisterWorkerCertificate in H. do 2 inv_ok_step H. cbv zeta in H. do 2 inv_ok_step H.
  apply (elsewhere_trans d (drain_issuers record d)); [split_and!; reflexivity|].
  apply (elsewhere_trans _ a).
  { unfold upsert_issuer in E1. inv_ok_step E1. destruct (first_where _ _); inv_ok E1; subst a; split_and!; reflexivity. }
  apply (elsewhere_trans _ a0).
  { unfold insert_certificate in E2. destruct (first_where _ _); [|done]. cbv zeta in E2.
    destruct (first_where _ _); inv_ok E2; subst a0; split_and!; reflexivity. }
  unfold bind_certificate in H. inv_ok H. subst d'. split_and!; reflexivity.
Qed.

Lemma gateway_op_elsewhere d d' : gateway_op d d' -> elsewhere d d'.
Proof.
  intros Ho. destruct Ho as [i now d d' H|i record clk d d' H|i presented now d d' H|i reason clk d d' H|i now d d' H|
    i task now d d' H|i lease locked clk t d d' H|i completion now d d' H|i uploadID destination maxBytes now d d' H|
    i uploadID lease clk claim d d' H|i uploadID fence digest size now d d' H|i uploadID fence now d d' H|
    fingerprint reason local d d' H|fingerprint reason local d d' H].
  - unfold RegisterWorkerSession in H. inv_ok_step H. destruct (live_attempt_project _ _ _); [|done].
    destruct (first_where _ _); inv_ok H; subst d'; split_and!; reflexivity.
  - by eapply register_certificate_elsewhere.
  - unfold AuthorizeWorkerCertificate in H. inv_ok H. subst d'. split_and!; reflexivity.
  - unfold RevokeWorkerSession in H. case_decide; injection H as <-; split_and!; reflexivity.
  - unfold TouchWorkerSession in H. inv_ok H. subst d'. split_and!; reflexivity.
  - unfold EnqueueWorkerCommand in H. destruct (uuid_Parse _); [|done]. do 2 inv_ok_step H. destruct (jsonb _); [|done].
    destruct (first_where _ _); [|done]. cbv zeta in H. destruct (first_where _ _); inv_ok H; subst d'; split_and!; reflexivity.
  - unfold ClaimWorkerCommand in H. do 2 inv_ok_step H. apply touch_tx_elsewhere in E. cbv zeta in H.
    apply (elsewhere_trans d a); [done|]. destruct (pick _ _); injection H as _ <-; split_and!; reflexivity.
  - unfold CompleteWorkerCommand in H. do 3 inv_ok_step H. cbv zeta in H. inv_ok_step H. inv_ok H. subst d'. split_and!; reflexivity.
  - unfold PrepareWorkerUpload in H. do 3 inv_ok_step H. destruct (first_where _ _); [|done].
    destruct (first_where _ _); inv_ok H; subst d'; split_and!; reflexivity.
  - unfold ClaimWorkerUpload in H. do 3 inv_ok_step H. apply touch_tx_elsewhere in E0. apply (elsewhere_trans d a); [done|].
    destruct (first_where _ _) as [u|]; [|done]. inv_ok_step H. cbv zeta in H.
    destruct (gu_state u); try done; first [injection H as _ <-|inv_ok_step H; injection H as _ <-]; split_and!; reflexivity.
  - unfold CompleteWorkerUpload in H. inv_ok H. subst d'. split_and!; reflexivity.
  - unfold CancelWorkerUpload in H. inv_ok H. subst d'. split_and!; reflexivity.
  - unfold RevokeWorkloadCertificate in H. inv_ok H. subst d'. split_and!; reflexivity.
  - unfold RevokeWorkloadIssuer in H. cbv zeta in H. inv_ok_step H. case_decide; inv_ok H; subst d'; split_and!; reflexivity.
Qed.

Context (MarshalStatus : JobStatus -> list ascii) (MarshalRequest : BuildRequest -> list ascii).

(** The job system only asks whether a text is a uuid. *)
Definition is_uuid (s : string) : bool := bool_decide (is_Some (uuid_Parse s)).

(** A transaction of the job system, of the gateway or of another component. *)
Inductive system_step : db -> db -> Prop :=
| ss_job d d' : job_op MarshalStatus MarshalRequest is_uuid d d' -> system_step d d'
| ss_gateway d d' : gateway_op d d' -> system_step d d'
| ss_other d d' : elsewhere d d' -> gateway_tables d' = gateway_tables d -> system_step d d'.

Definition system_initial (d : db) : Prop := initial d /\ gateway_tables d = ([], [], [], [], []).
Definition system_reachable (d : db) : Prop := exists d0, system_initial d0 /\ rtc system_step d0 d.

Lemma system_step_job d d' : system_step d d' -> job_step MarshalStatus MarshalRequest is_uuid d d'.
Proof. intros []; [by apply js_op|by apply js_other, gateway_op_elsewhere|by apply js_other]. Qed.

Lemma system_steps_job d d' : rtc system_step d d' -> rtc (job_step MarshalStatus MarshalRequest is_uuid) d d'.
Proof. intros H. induction H as [|x y z Hs _ IH]; [done|]. eapply rtc_l; [by apply system_step_job|done]. Qed.

Lemma system_step_good d d' : job_inv d -> gateway_inv d -> system_step d d' -> good d d'.
Proof.
  intros Hj Hi Hs. destruct Hs as [d d' Ho|d d' Ho|d d' Ho Hg].
  - apply closes_good; [done|]. by eapply job_op_closes.
  - by apply gateway_op_good.
  - apply closes_good; [done|]. apply closes_same; [done|]. unfold leased. by destruct Ho as (_ & _ & -> & _).
Qed.

Lemma system_steps_good d d' : job_inv d -> gateway_inv d -> rtc system_step d d' ->
  job_inv d' /\ gateway_inv d' /\ gateway_evolves d d'.
Proof.
  intros Hj Hi Hr. induction Hr as [|x y z Hs _ IH]; [split_and!; [done|done|reflexivity]|].
  destruct (system_step_good x y Hj Hi Hs) as [Hi' He].
  assert (job_inv y) as Hj'.
  { eapply implements_inv; [done|]. eapply job_step_implements; [done|]. by apply system_step_job. }
  destruct (IH Hj' Hi') as (Hj2 & Hi2 & He2). split_and!; [done|done|by etrans].
Qed.

Lemma system_initial_inv d : system_initial d -> job_inv d /\ gateway_inv d.
Proof.
  intros [Hi [= H1 H2 H3 H4 H5]]. split; [by apply initial_inv|].
  split; rewrite ?H1, ?H2, ?H3, ?H4, ?H5; try apply NoDup_nil_2.
  intros id _. split; rewrite ?H1, ?H2, ?H3, ?H4, ?H5; by intros x ?%elem_of_nil.
Qed.

Lemma system_reachable_inv d : system_reachable d -> job_inv d /\ gateway_inv d.
Proof.
  intros (d0 & Hinit & Hr). destruct (system_initial_inv d0 Hinit) as [Hj Hi].
  by destruct (system_steps_good d0 d Hj Hi Hr) as (? & ? & _).
Qed.
End gateway_system.
