(* ===== verification/GatewaySafety.v ===== *)
(** * What the worker gateway guarantees

    The theorems about every database the job system and the worker gateway
    reach together: an attempt without a lease is shut out, revoked credentials
    stay revoked, commands and uploads end once and with one outcome, and
    uploads stay below the spool root. *)

From S2P Require Import Prelude GoStrings GoPath GoUrl Schema Fairness JobLedger Scheduler PhaseWork Fencing JobSystem.
From S2P Require Import JobSafety WorkerGateway GatewayRows LeaseRuntime GatewaySystem.
From Stdlib Require Import Ascii.
Open Scope string_scope.
Open Scope list_scope.
Open Scope Z_scope.

#[local] Arguments update_where : simpl never.

Lemma count_one {A} (P : A -> Prop) `{HdP : !forall x, Decision (P x)} (l : list A) :
  count_where P l = 1%nat -> exists x, x ∈ l /\ P x.
Proof. intros H. apply (proj1 (count_where_pos P l)). lia. Qed.

(** ** Attempts that are shut out *)
Section shut_out.
Context (uuid_Parse : string -> option uuid) (jsonb : string -> option string).

(** Whatever a worker presents under the identity fails. *)
Record shut_out (i : Identity) (d : db) : Prop := {
  so_register : forall now e, RegisterWorkerSession i now d <> Ok e;
  so_certificate : forall record clk e, RegisterWorkerCertificate i record clk d <> Ok e;
  so_authorize : forall presented now e, AuthorizeWorkerCertificate i presented now d <> Ok e;
  so_touch : forall now e, TouchWorkerSession i now d <> Ok e;
  so_enqueue : forall task now e, EnqueueWorkerCommand uuid_Parse jsonb i task now d <> Ok e;
  so_claim : forall lease locked clk e, ClaimWorkerCommand i lease locked clk d <> Ok e;
  so_complete : forall completion now e, CompleteWorkerCommand jsonb i completion now d <> Ok e;
  so_prepare : forall uploadID destination maxBytes now e,
    PrepareWorkerUpload uuid_Parse i uploadID destination maxBytes now d <> Ok e;
  so_claim_upload : forall uploadID lease clk e, ClaimWorkerUpload uuid_Parse i uploadID lease clk d <> Ok e;
  so_complete_upload : forall uploadID fence digest size now e,
    CompleteWorkerUpload i uploadID fence digest size now d <> Ok e;
  so_cancel_upload : forall uploadID fence now e, CancelWorkerUpload i uploadID fence now d <> Ok e
}.

Lemma closed_session i d s : gateway_closed (id_attempt_id i) d -> s ∈ gateway_sessions d -> ~ session_of i s.
Proof. intros Hc Hs (_ & _ & Ha & _ & Hst). by rewrite (gc_sess _ _ Hc s Hs Ha) in Hst. Qed.

Lemma closed_touch i now d e : gateway_closed (id_attempt_id i) d -> touchWorkerSessionTx i now d <> Ok e.
Proof.
  intros Hcl H. unfold touchWorkerSessionTx in H. inv_ok H. apply count_one in Hc as (s & Hs & Hmine & _).
  by eapply closed_session.
Qed.

Lemma closed_insert i record now d x e : gateway_closed (id_attempt_id i) d ->
  gateway_sessions x = gateway_sessions d -> insert_certificate i record now x <> Ok e.
Proof.
  intros Hcl Hx H. unfold insert_certificate in H. rewrite Hx in H.
  destruct (first_where _ (gateway_sessions d)) as [s|] eqn:Hs; [|done]. apply first_where_some in Hs as [Hs Hof].
  by eapply closed_session.
Qed.

Lemma unleased_shut_out i d : gateway_inv d -> ~ leased (id_attempt_id i) d -> shut_out i d.
Proof.
  intros Hi Hn. pose proof (gi_open d Hi _ Hn) as Hcl.
  assert (forall f now, ~ attempt_leased (id_attempt_id i) f now d) as Hna.
  { intros f now Hl. by eapply Hn, attempt_leased_leased. }
  split.
  - intros now e H. unfold RegisterWorkerSession in H. inv_ok_step H. unfold live_attempt_project in H.
    destruct (first_where _ (build_jobs d)); [|done]. rewrite decide_False in H; [done|]. intros [_ Hl]. by eapply Hna.
  - intros record clk e H. unfold RegisterWorkerCertificate in H. do 2 inv_ok_step H. cbv zeta in H. do 2 inv_ok_step H.
    eapply closed_insert; [exact Hcl| |exact E2]. unfold upsert_issuer in E1. inv_ok_step E1.
    destruct (first_where _ _); inv_ok E1; subst a; reflexivity.
  - intros presented now e H. unfold AuthorizeWorkerCertificate in H. inv_ok_step H. inv_ok H.
    apply count_one in Hc0 as (c & Hin & (_ & _ & _ & _ & Ha & _ & Hst & _)). by rewrite (gc_certs _ _ Hcl c Hin Ha) in Hst.
  - intros now e H. unfold TouchWorkerSession in H. inv_ok H. apply count_one in Hc as (s & Hs & Hmine & _).
    by eapply closed_session.
  - intros task now e H. unfold EnqueueWorkerCommand in H. destruct (uuid_Parse _) as [cmd|]; [|done]. do 2 inv_ok_step H.
    destruct (jsonb _) as [request|]; [|done]. destruct (first_where _ (gateway_sessions d)) as [s|] eqn:Hs; [|done].
    apply first_where_some in Hs as (Hs & Hmine & _). by eapply closed_session.
  - intros lease locked clk e H. unfold ClaimWorkerCommand in H. do 2 inv_ok_step H. by eapply closed_touch.
  - intros completion now e H. unfold CompleteWorkerCommand in H. do 3 inv_ok_step H. cbv zeta in H. inv_ok_step H. inv_ok H.
    apply count_one in Hc2 as (c & Hin & (_ & _ & _ & Ha & _ & _ & _ & Hl & _)). rewrite Ha in Hl. by eapply Hna.
  - intros uploadID destination maxBytes now e H. unfold PrepareWorkerUpload in H. do 3 inv_ok_step H.
    destruct (first_where _ (gateway_sessions d)) as [s|] eqn:Hs; [|done]. apply first_where_some in Hs as [Hs Hmine].
    by eapply closed_session.
  - intros uploadID lease clk e H. unfold ClaimWorkerUpload in H. do 3 inv_ok_step H. by eapply closed_touch.
  - intros uploadID fence digest size now e H. unfold CompleteWorkerUpload in H. inv_ok H.
    apply count_one in Hc0 as (u & Hu & ((_ & _ & _ & Ha) & _) & _ & Hl & _). rewrite Ha in Hl. by eapply Hna.
  - intros uploadID fence now e H. unfold CancelWorkerUpload in H. inv_ok H.
    apply count_one in Hc as (u & Hu & Hup & _). pose proof Hup as ((_ & _ & _ & Ha) & _).
    eapply (gc_upls _ _ Hcl u Hu Ha), uploading_open, Hup.
Qed.
End shut_out.

Section gateway_safety.
Context (uuid_Parse : string -> option uuid) (jsonb : string -> option string)
        (MarshalStatus : JobStatus -> list ascii) (MarshalRequest : BuildRequest -> list ascii).
Notation step := (system_step uuid_Parse jsonb MarshalStatus MarshalRequest).
Notation reachable := (system_reachable uuid_Parse jsonb MarshalStatus MarshalRequest).

Lemma later_inv d d' : reachable d -> rtc step d d' -> job_inv d' /\ gateway_inv d' /\ gateway_evolves d d'.
Proof. intros (Hj & Hi)%system_reachable_inv Hr. by eapply system_steps_good. Qed.

Lemma lost_unleased id d : lost id d -> ~ leased id d.
Proof. intros [_ Hn] (l & Hl & <-). apply Hn. by apply list_elem_of_fmap_2. Qed.

(** C9. A worker cannot outlive its attempt: once an attempt has lost its lease
    (expired and recovered, canceled, ended or reclaimed), then in every later
    state of the job system and the gateway together its certificate and its
    session are revoked and none of its commands or uploads is open; and every
    operation a worker could present under that identity fails: it can neither
    register nor authenticate, poll, complete, prepare or finish anything. *)
Theorem lost_attempt_shut_out (d d' : db) (i : Identity) (R : reachable d)
    (Hlost : lost (id_attempt_id i) d) (Hs : rtc step d d') :
  gateway_closed (id_attempt_id i) d' /\ shut_out uuid_Parse jsonb i d'.
Proof.
  destruct (later_inv d d' R Hs) as (_ & Hi' & _). apply system_reachable_inv in R as [Hj _].
  assert (~ leased (id_attempt_id i) d') as Hn.
  { eapply lost_unleased, lost_stays; [exact Hj|done|by eapply system_steps_job]. }
  split; [by apply gi_open|by apply unleased_shut_out].
Qed.

(** ** Revoked credentials *)
Lemma op_reachable d d' : reachable d -> gateway_op uuid_Parse jsonb d d' -> reachable d'.
Proof. intros (d0 & H0 & Hr) Ho. exists d0. split; [done|]. eapply rtc_r; [done|]. by apply ss_gateway. Qed.

Lemma step_reachable d d' : reachable d -> rtc step d d' -> reachable d'.
Proof. intros (d0 & H0 & Hr) Hs. exists d0. split; [done|]. by etrans. Qed.

(** The worker of a revoked certificate gets no other. *)
Lemma revoked_worker_no_certificate i record now d x c e : gateway_inv d ->
  workload_certificates x = workload_certificates d -> c ∈ workload_certificates d -> wc_state c = SessRevoked ->
  wc_worker_id c = id_worker_id i -> insert_certificate i record now x <> Ok e.
Proof.
  intros Hi Hx Hc Hst Hw H. unfold insert_certificate in H. rewrite Hx in H.
  destruct (first_where _ (gateway_sessions x)) as [s|] eqn:Hs; [|done].
  apply first_where_some in Hs as [_ (Hsw & _)]. cbv zeta in H.
  destruct (first_where _ (workload_certificates d)) as [c0|] eqn:Hf; inv_ok_step H.
  - apply first_where_some in Hf as [Hin0 _]. destruct Hc0 as (_ & _ & Hw0 & _ & _ & _ & _ & _ & Ha). cbn in Hw0.
    assert (c0 = c) as -> by (apply (key_unique wc_worker_id (workload_certificates d)); [apply Hi|done|done|congruence]).
    congruence.
  - apply Hc0, Exists_exists. exists c. split; [done|]. left. cbn. congruence.
Qed.

Lemma upsert_certificates record now d d' : upsert_issuer record now d = Ok d' ->
  workload_certificates d' = workload_certificates d.
Proof. intros H. unfold upsert_issuer in H. inv_ok_step H. by destruct (first_where _ _); inv_ok H; subst d'. Qed.

(** C36. A revoked certificate is revoked for good: after an operator has revoked
    a certificate, then in every later state no request that presents it, and
    no request under the worker identity it was issued to, is authorised, even
    when the attempt still has its lease and registers its session again; nor
    is any other certificate recorded for that worker. *)
Theorem revoked_certificate_unusable (d d1 d2 : db) (fingerprint reason : string) (local : time)
    (c : workload_certificate) (R : reachable d) (Hc : c ∈ workload_certificates d)
    (Hf : wc_fingerprint c = ToLower (TrimSpace fingerprint))
    (Hrev : RevokeWorkloadCertificate fingerprint reason local d = Ok d1) (Hs : rtc step d1 d2) :
  (forall i presented now e, pr_fingerprint presented = wc_fingerprint c \/ id_worker_id i = wc_worker_id c ->
     AuthorizeWorkerCertificate i presented now d2 <> Ok e) /\
  (forall i record clk e, id_worker_id i = wc_worker_id c -> RegisterWorkerCertificate i record clk d2 <> Ok e).
Proof.
  pose proof (op_reachable _ _ R (go_revoke_certificate _ _ _ _ _ _ _ Hrev)) as R1.
  destruct (later_inv d1 d2 R1 Hs) as (_ & Hi2 & He). apply system_reachable_inv in R as [_ Hi].
  assert (exists c2, c2 ∈ workload_certificates d2 /\ cert_key c2 = cert_key c /\ wc_state c2 = SessRevoked)
    as (c2 & Hc2 & Hk & Hst).
  { destruct (revoke_certificate_good fingerprint reason local d d1 Hi Hrev) as [_ He1].
    destruct (ge_certs _ _ He1 c Hc) as (c1 & Hc1 & Hk1 & _). destruct (ge_certs _ _ He c1 Hc1) as (c2 & Hc2 & Hk2 & Hle).
    exists c2. split_and!; [done|congruence|]. apply Hle.
    unfold RevokeWorkloadCertificate in Hrev. cbv zeta in Hrev. inv_ok_step Hrev.
    destruct (first_where _ _) as [c0|] eqn:Hw; [|done]. injection Hrev as <-. apply first_where_some in Hw as [Hc0' Hf0].
    assert (c0 = c) as -> by (apply (key_unique wc_fingerprint (workload_certificates d)); [apply Hi|done|done|congruence]).
    apply (gc_certs _ _ (revoke_closed _ _ _ _) c1 Hc1). by injection Hk1. }
  injection Hk as Kf _ _ Kw _ _ _ _ _. split.
  - intros i presented now e Hp H. unfold AuthorizeWorkerCertificate in H. inv_ok_step H. inv_ok H.
    apply count_one in Hc1 as (x & Hx & (Hxf & _ & Hxw & _ & _ & _ & Ha & _)).
    assert (x = c2) as ->; [|congruence]. destruct Hp as [Hp|Hp].
    + apply (key_unique wc_fingerprint (workload_certificates d2)); [apply Hi2|done|done|congruence].
    + apply (key_unique wc_worker_id (workload_certificates d2)); [apply Hi2|done|done|congruence].
  - intros i record clk e Hw H. unfold RegisterWorkerCertificate in H. do 2 inv_ok_step H. cbv zeta in H. do 2 inv_ok_step H.
    apply upsert_certificates in E1. eapply (revoked_worker_no_certificate i record _ d2); [done|exact E1|exact Hc2|done| |exact E2].
    congruence.
Qed.

Definition issuer_revoked (fingerprint : string) (d : db) : Prop :=
  exists g, g ∈ workload_issuers d /\ wi_fingerprint g = fingerprint /\ wi_state g = IssRevoked.

Lemma issuer_revoked_stays fingerprint d d' : gateway_evolves d d' -> issuer_revoked fingerprint d -> issuer_revoked fingerprint d'.
Proof.
  intros He (g & Hg & Hf & Hst). destruct (ge_issuers _ _ He g Hg) as (g' & Hg' & [= Kf] & _ & Hle).
  exists g'. split_and!; [done|congruence|auto].
Qed.

Lemma revoke_issuer_revoked fingerprint reason local d d' : RevokeWorkloadIssuer fingerprint reason local d = Ok d' ->
  issuer_revoked (ToLower (TrimSpace fingerprint)) d'.
Proof.
  intros H. unfold RevokeWorkloadIssuer in H. cbv zeta in H. inv_ok_step H. case_decide as Hz.
  - inv_ok H. subst d'. apply Exists_exists in Hc0 as (g & Hg & Hf). exists g. split_and!; [done|done|].
    destruct (decide (wi_state g = IssRevoked)) as [|Hn]; [done|]. by destruct (proj1 (count_where_zero _ _) Hz g Hg).
  - injection H as <-. assert (exists g, g ∈ workload_issuers d /\ wi_fingerprint g = ToLower (TrimSpace fingerprint) /\
      wi_state g <> IssRevoked) as (g & Hg & Hf & Hst).
    { apply (proj1 (count_where_pos _ _)). lia. }
    eexists. split; [|split]; [cbn; apply elem_of_update_where; exists g; split; [done|]; left; split; [done|reflexivity]|done|done].
Qed.

(** A revoked issuer vouches for nobody: after an operator has revoked an
    issuer generation, then in every later state no certificate of that
    generation is authorised, whatever identity presents it, and no new
    certificate of it is recorded. *)
Theorem revoked_issuer_unusable (d d1 d2 : db) (fingerprint reason : string) (local : time) (R : reachable d)
    (Hrev : RevokeWorkloadIssuer fingerprint reason local d = Ok d1) (Hs : rtc step d1 d2) :
  (forall c i presented now e, c ∈ workload_certificates d2 ->
     wc_issuer_fingerprint c = ToLower (TrimSpace fingerprint) -> pr_fingerprint presented = wc_fingerprint c ->
     AuthorizeWorkerCertificate i presented now d2 <> Ok e) /\
  (forall i record clk e, cr_issuer_fingerprint record = ToLower (TrimSpace fingerprint) ->
     RegisterWorkerCertificate i record clk d2 <> Ok e).
Proof.
  pose proof (op_reachable _ _ R (go_revoke_issuer _ _ _ _ _ _ _ Hrev)) as R1.
  destruct (later_inv d1 d2 R1 Hs) as (_ & Hi2 & He).
  pose proof (issuer_revoked_stays _ _ _ He (revoke_issuer_revoked _ _ _ _ _ Hrev)) as Hr. split.
  - intros c i presented now e Hc Hci Hp H. unfold AuthorizeWorkerCertificate in H. inv_ok_step H. inv_ok H.
    apply count_one in Hc1 as (x & Hx & (Hxf & _ & _ & _ & _ & _ & _ & _ & Hg & _)).
    assert (x = c) as -> by (apply (key_unique wc_fingerprint (workload_certificates d2)); [apply Hi2|done|done|congruence]).
    apply Exists_exists in Hg as (g & Hg & Hgf & Hst & _). destruct Hr as (r & Hrin & Hrf & Hrst).
    assert (g = r) as -> by (apply (key_unique wi_fingerprint (workload_issuers d2)); [apply Hi2|done|done|congruence]).
    rewrite Hrst in Hst. enum_solve.
  - intros i record clk e Hf H. unfold RegisterWorkerCertificate in H. do 2 inv_ok_step H. cbv zeta in H. inv_ok_step H.
    destruct (serves_good _ _ Hi2 (drain_serves record d2)) as [Hi3 He3].
    destruct (issuer_revoked_stays _ _ _ He3 Hr) as (r & Hrin & Hrf & Hrst). unfold upsert_issuer in E1. inv_ok_step E1.
    destruct (first_where _ _) as [g|] eqn:Hg.
    + apply first_where_some in Hg as [Hg Hgf]. inv_ok_step E1. destruct Hc0 as (_ & _ & _ & _ & _ & _ & Ha).
      assert (g = r) as -> by (apply (key_unique wi_fingerprint (workload_issuers (drain_issuers record d2)));
        [apply Hi3|done|done|congruence]). congruence.
    + eapply first_where_none; [exact Hg|exact Hrin|]. cbn. congruence.
Qed.

(** ** Commands *)
Lemma outcome_ended c completion : gc_state c = outcome completion -> ~ open_command c /\ command_ended (gc_state c).
Proof.
  intros Hst. rewrite Hst. unfold open_command, command_ended, outcome in *. rewrite Hst. case_decide; split; enum_solve.
Qed.

Lemma completion_accepted i completion now d d' : CompleteWorkerCommand jsonb i completion now d = Ok d' ->
  exists c response, c ∈ gateway_commands d /\ response_of jsonb (cm_payload completion) = Ok response /\
    completable i completion (outcome completion) response now d c.
Proof.
  intros H. unfold CompleteWorkerCommand in H. do 3 inv_ok_step H. cbv zeta in H. do 2 inv_ok_step H.
  apply count_one in Hc2 as (c & Hin & Hcm). by exists c, a.
Qed.

Lemma completed_row i completion now d d' : CompleteWorkerCommand jsonb i completion now d = Ok d' ->
  exists c response, c ∈ gateway_commands d' /\ response_of jsonb (cm_payload completion) = Ok response /\
    gc_id c = cm_task_id completion /\ gc_worker_id c = id_worker_id i /\ gc_job_id c = id_job_id i /\
    gc_attempt_id c = id_attempt_id i /\
    cmd_outcome c = (outcome completion, cm_delivery_fence completion, response, cm_error completion) /\
    exists s, s ∈ gateway_sessions d' /\ gs_worker_id s = id_worker_id i /\ gs_attempt_fence s = id_fence_token i.
Proof.
  intros H. unfold CompleteWorkerCommand in H. do 3 inv_ok_step H. cbv zeta in H. inv_ok_step H. inv_ok_step H.
  injection H as <-. apply count_one in Hc2 as (c & Hin & Hcm).
  pose proof Hcm as (Hid & Hw & HJ & Ha & Hs & Hf & _). apply Exists_exists in Hs as (s & Hs & Hsw & Hsf & _).
  eexists _, a. split_and!.
  - cbn. apply elem_of_update_where. exists c. split; [done|]. left. split; [exact Hcm|reflexivity].
  - done.
  - done.
  - done.
  - done.
  - done.
  - unfold cmd_outcome. cbn. by rewrite Hf.
  - exists s. split_and!; [done|congruence|done].
Qed.

(** The row of an ended command in a later state. *)
Lemma ended_command_row d d' c : gateway_evolves d d' -> c ∈ gateway_commands d -> ~ open_command c ->
  exists c', c' ∈ gateway_commands d' /\ cmd_key c' = cmd_key c /\ cmd_outcome c' = cmd_outcome c.
Proof. intros He Hc Hn. destruct (ge_cmds _ _ He c Hc) as (c' & Hc' & Hk & _ & Ho & _). exists c'. auto. Qed.

(** A command has one outcome: once a worker has completed a command, then in
    every later state its result is that outcome, with the delivery fence, the
    stored response and the error it was completed with; and a completion of
    the same command that is accepted later, from whomever it comes, repeats
    it: the same worker, job and attempt, the same fence, the same error and
    the same stored response. *)
Theorem command_outcome_final (d d1 d2 : db) (i : Identity) (completion : Completion) (now : time)
    (R : reachable d) (H : CompleteWorkerCommand jsonb i completion now d = Ok d1) (Hs : rtc step d1 d2) :
  exists response, response_of jsonb (cm_payload completion) = Ok response /\
    WorkerCommandResult i (cm_task_id completion) d2 =
      Ok (mkCompletion (cm_task_id completion) (cm_delivery_fence completion) (default "" response)
            (cm_error completion)) /\
    forall i' completion' now' e, CompleteWorkerCommand jsonb i' completion' now' d2 = Ok e ->
      cm_task_id completion' = cm_task_id completion ->
      (id_worker_id i', id_job_id i', id_attempt_id i') = (id_worker_id i, id_job_id i, id_attempt_id i) /\
      cm_delivery_fence completion' = cm_delivery_fence completion /\ cm_error completion' = cm_error completion /\
      response_of jsonb (cm_payload completion') = Ok response.
Proof.
  pose proof (op_reachable _ _ R (go_complete _ _ _ _ _ _ _ H)) as R1.
  destruct (later_inv d1 d2 R1 Hs) as (_ & Hi2 & He).
  destruct (completed_row _ _ _ _ _ H) as (c & response & Hc & Hr & Hid & Hw & HJ & Ha & Ho & s & Hs1 & Hsw & Hsf).
  exists response. split; [done|]. pose proof Ho as [= Hst Hfe Hre Her]. destruct (outcome_ended c completion Hst) as [Hn Hend].
  destruct (ended_command_row d1 d2 c He Hc Hn) as (c2 & Hc2 & [= Kid Kw _ KJ Ka _ _] & [= Kst Kf Kr Ke]). split.
  - unfold WorkerCommandResult.
    destruct (ge_sess _ _ He s Hs1) as (s2 & Hs2 & [= Ksw _ _ _ Ksf] & _).
    destruct (first_where _ (gateway_commands d2)) as [x|] eqn:Hf.
    + apply first_where_some in Hf as (Hx & Hxid & _).
      assert (x = c2) as -> by (apply (key_unique gc_id (gateway_commands d2)); [apply Hi2|done|done|congruence]).
      rewrite decide_True by (by rewrite Kst). congruence.
    + exfalso. apply (first_where_none _ _ Hf c2 Hc2). split_and!; [congruence..|]. apply Exists_exists.
      exists s2. split_and!; [done|congruence|congruence].
  - intros i' completion' now' e H' Hid'.
    destruct (completion_accepted _ _ _ _ _ H') as (x & r' & Hx & Hr' & (Hxid & Hxw & HxJ & Hxa & _ & Hxf & Hxs & _)).
    assert (x = c2) as -> by (apply (key_unique gc_id (gateway_commands d2)); [apply Hi2|done|done|congruence]).
    split_and!; [congruence|congruence|..].
    + destruct Hxs as [Hxs|(_ & Hxe & _)]; [|congruence]. exfalso. apply Hn. unfold open_command. rewrite <- Kst, Hxs. enum_solve.
    + destruct Hxs as [Hxs|(_ & _ & Hxr)]; [|congruence]. exfalso. apply Hn. unfold open_command. rewrite <- Kst, Hxs. enum_solve.
Qed.

(** What a claim delivers. *)
Lemma claim_delivers i lease locked clk t d d' : gateway_inv d ->
  ClaimWorkerCommand i lease locked clk d = Ok (Some t, d') ->
  exists c c', c ∈ gateway_commands d /\ gc_id c = tk_id t /\ c' ∈ gateway_commands d' /\ gc_id c' = tk_id t /\
    gc_delivery_fence c' = tk_delivery_fence t /\ gc_delivery_fence c' = gc_delivery_fence c + 1.
Proof.
  intros Hi H. unfold ClaimWorkerCommand in H. do 2 inv_ok_step H. cbv zeta in H.
  assert (gateway_commands a = gateway_commands d) as Ha
    by (unfold touchWorkerSessionTx in E; inv_ok E; subst a; reflexivity).
  rewrite Ha in H. clear E Ha. destruct (pick _ _) as [c|] eqn:Hp; [|done]. injection H as <- <-.
  apply pick_elem, list_elem_of_filter in Hp as [_ Hin]. pose proof Hin as Hin'. cbn in Hin.
  apply elem_of_update_where in Hin as (c0 & Hc0 & Hcase).
  assert (gc_id c0 = gc_id c /\ gc_delivery_fence c0 = gc_delivery_fence c) as [Hid Hf].
  { by destruct Hcase as [[_ ->]|[_ ->]]. }
  exists c0, (deliver_command lease (clk 2%nat) c). split_and!; [done|done| |done|done|cbn; congruence].
  cbn. apply elem_of_update_where. exists c. split; [done|]. left. done.
Qed.

(** A delivery that was superseded cannot complete its command: when a
    command that was handed out is handed out again after its delivery lease,
    the new delivery carries a higher fence, and from then on, in every later
    state, no completion under the fence of the first delivery is accepted. *)
Theorem superseded_delivery_refused (d d1 d2 d3 d4 : db) i lease locked clk i' lease' locked' clk' (t t' : Task)
    (R : reachable d) (H1 : ClaimWorkerCommand i lease locked clk d = Ok (Some t, d1)) (S1 : rtc step d1 d2)
    (H2 : ClaimWorkerCommand i' lease' locked' clk' d2 = Ok (Some t', d3)) (S2 : rtc step d3 d4)
    (Hid : tk_id t' = tk_id t) :
  tk_delivery_fence t < tk_delivery_fence t' /\
  forall who completion now e, cm_task_id completion = tk_id t ->
    cm_delivery_fence completion = tk_delivery_fence t ->
    CompleteWorkerCommand jsonb who completion now d4 <> Ok e.
Proof.
  pose proof (system_reachable_inv _ _ _ _ _ R) as [_ Hi].
  pose proof (op_reachable _ _ R (go_claim_command _ _ _ _ _ _ _ _ _ H1)) as R1.
  destruct (later_inv d1 d2 R1 S1) as (_ & Hi2 & He12).
  pose proof (op_reachable _ _ (step_reachable _ _ R1 S1) (go_claim_command _ _ _ _ _ _ _ _ _ H2)) as R3.
  destruct (later_inv d3 d4 R3 S2) as (_ & Hi4 & He34).
  destruct (claim_delivers _ _ _ _ _ _ _ Hi H1) as (_ & c1 & _ & _ & Hc1 & Hid1 & Hf1 & _).
  destruct (claim_delivers _ _ _ _ _ _ _ Hi2 H2) as (c2 & c3 & Hc2 & Hid2 & Hc3 & Hid3 & Hf3 & Hf23).
  destruct (ge_cmds _ _ He12 c1 Hc1) as (x & Hx & [= Kid] & Hle & _).
  assert (x = c2) as -> by (apply (key_unique gc_id (gateway_commands d2)); [apply Hi2|done|done|congruence]).
  split; [lia|]. intros who completion now e Hcm Hcf H.
  destruct (completion_accepted _ _ _ _ _ H) as (y & _ & Hy & _ & (Hyid & _ & _ & _ & _ & Hyf & _)).
  destruct (ge_cmds _ _ He34 c3 Hc3) as (z & Hz & [= Kz] & Hlez & _).
  assert (z = y) as -> by (apply (key_unique gc_id (gateway_commands d4)); [apply Hi4|done|done|congruence]). lia.
Qed.

(** ** Uploads *)
Lemma claim_upload_row i uploadID lease clk claim d d' :
  ClaimWorkerUpload uuid_Parse i uploadID lease clk d = Ok (claim, d') ->
  exists u, u ∈ gateway_uploads d /\ upload_of i uploadID u /\
    ((gu_state u = UpCompleted /\
      claim = mkUploadClaim uploadID (gu_destination u) (gu_max_bytes u) (gu_upload_fence u) true (gu_digest u)
                (default 0 (gu_size_bytes u))) \/
     (open_upload u /\ uc_completed claim = false /\ uc_fence claim = gu_upload_fence u + 1 /\
      exists u', u' ∈ gateway_uploads d' /\ gu_id u' = uploadID /\ gu_upload_fence u' = uc_fence claim)).
Proof.
  intros H. unfold ClaimWorkerUpload in H. do 3 inv_ok_step H.
  assert (gateway_uploads a = gateway_uploads d) as Ha
    by (unfold touchWorkerSessionTx in E0; inv_ok E0; subst a; reflexivity).
  destruct (first_where _ (gateway_uploads a)) as [u|] eqn:Hf; [|done]. apply first_where_some in Hf as (Hu & Hof & _).
  inv_ok_step H. cbv zeta in H. rewrite Ha in Hu. exists u. split_and!; [done|done|].
  destruct (gu_state u) eqn:Hst; [right|right|left|done].
  1,2: inv_ok_step H; injection H as <- <-; split_and!; [unfold open_upload; rewrite Hst; enum_solve|done|done|];
    exists (start_upload lease (clk 2%nat) u); split_and!; [|by destruct Hof|done]; cbn; rewrite Ha;
    apply elem_of_update_where; exists u; split; [done|]; left; split; [by destruct Hof|done].
  injection H as <- _. done.
Qed.

Lemma completed_upload_row i uploadID fence digest size now d d' :
  CompleteWorkerUpload i uploadID fence digest size now d = Ok d' ->
  exists u, u ∈ gateway_uploads d' /\ upload_of i uploadID u /\
    upl_outcome u = (UpCompleted, fence, ToLower (TrimSpace digest), Some size).
Proof.
  intros H. unfold CompleteWorkerUpload in H. cbv zeta in H. inv_ok_step H. inv_ok_step H. injection H as <-.
  apply count_one in Hc0 as (u & Hu & Hm). pose proof Hm as [(Hof & _ & Hf) _].
  eexists. split_and!; [cbn; apply elem_of_update_where; exists u; split; [done|]; left; split; [exact Hm|reflexivity]|exact Hof|].
  unfold upl_outcome. cbn. by rewrite Hf.
Qed.

(** The row of the upload in the state a completion or a cancellation needs. *)
Lemma complete_upload_needs i uploadID fence digest size now d e :
  CompleteWorkerUpload i uploadID fence digest size now d = Ok e -> exists u, u ∈ gateway_uploads d /\ uploading i uploadID fence u.
Proof.
  intros H. unfold CompleteWorkerUpload in H. cbv zeta in H. do 2 inv_ok_step H.
  apply count_one in Hc0 as (u & Hu & [Hm _]). eauto.
Qed.

Lemma cancel_upload_needs i uploadID fence now d e :
  CancelWorkerUpload i uploadID fence now d = Ok e -> exists u, u ∈ gateway_uploads d /\ uploading i uploadID fence u.
Proof.
  intros H. unfold CancelWorkerUpload in H. cbv zeta in H. inv_ok_step H.
  apply count_one in Hc as (u & Hu & [Hm _]). eauto.
Qed.

(** An upload is completed once: after a worker has completed an upload,
    then in every later state no upload under that identifier can be completed
    or canceled, under any fence, and a worker that claims it is told that it is
    complete, with the digest, the size and the fence it was completed with. *)
Theorem upload_completed_once (d d1 d2 : db) i uploadID fence digest size now (R : reachable d)
    (H : CompleteWorkerUpload i uploadID fence digest size now d = Ok d1) (Hs : rtc step d1 d2) :
  (forall who fence' digest' size' now' e, CompleteWorkerUpload who uploadID fence' digest' size' now' d2 <> Ok e) /\
  (forall who fence' now' e, CancelWorkerUpload who uploadID fence' now' d2 <> Ok e) /\
  (forall who lease clk claim e, ClaimWorkerUpload uuid_Parse who uploadID lease clk d2 = Ok (claim, e) ->
     uc_completed claim = true /\ uc_fence claim = fence /\ uc_digest claim = ToLower (TrimSpace digest) /\
     uc_size claim = size).
Proof.
  pose proof (op_reachable _ _ R (go_complete_upload _ _ _ _ _ _ _ _ _ _ H)) as R1.
  destruct (later_inv d1 d2 R1 Hs) as (_ & Hi2 & He).
  destruct (completed_upload_row _ _ _ _ _ _ _ _ H) as (u & Hu & (Hid & _) & [= Ust Uf Ud Us]).
  assert (~ open_upload u) as Hn by (unfold open_upload; rewrite Ust; enum_solve).
  destruct (ge_upls _ _ He u Hu) as (u2 & Hu2 & [= Kid] & _ & Ho & _). specialize (Ho Hn) as [= Kst Kf Kd Ks].
  assert (forall who f x, x ∈ gateway_uploads d2 -> ~ uploading who uploadID f x) as Hno.
  { intros who f x Hx ((Hxid & _) & Hxs & _).
    assert (x = u2) as -> by (apply (key_unique gu_id (gateway_uploads d2)); [apply Hi2|done|done|congruence]). congruence. }
  split_and!.
  - intros who f dg sz t e (x & Hx & Hup)%complete_upload_needs. by eapply Hno.
  - intros who f t e (x & Hx & Hup)%cancel_upload_needs. by eapply Hno.
  - intros who lease clk claim e (x & Hx & (Hxid & _) & Hcase)%claim_upload_row.
    assert (x = u2) as -> by (apply (key_unique gu_id (gateway_uploads d2)); [apply Hi2|done|done|congruence]).
    destruct Hcase as [[_ ->]|[Hop _]].
    + cbn. rewrite Kf, Kd, Ks, Uf, Ud, Us. done.
    + exfalso. unfold open_upload in Hop. rewrite Kst, Ust in Hop. enum_solve.
Qed.

(** An upload that was superseded cannot end: when an upload a worker was
    writing is claimed again after its lease, the new claim has a higher fence,
    and from then on, in every later state, neither a completion nor a
    cancellation under the fence of the first claim is accepted. *)
Theorem superseded_upload_refused (d d1 d2 d3 d4 : db) i i' uploadID lease lease' clk clk' (claim claim' : UploadClaim)
    (R : reachable d) (H1 : ClaimWorkerUpload uuid_Parse i uploadID lease clk d = Ok (claim, d1)) (S1 : rtc step d1 d2)
    (H2 : ClaimWorkerUpload uuid_Parse i' uploadID lease' clk' d2 = Ok (claim', d3)) (S2 : rtc step d3 d4)
    (O1 : uc_completed claim = false) (O2 : uc_completed claim' = false) :
  uc_fence claim < uc_fence claim' /\
  (forall who digest size now e, CompleteWorkerUpload who uploadID (uc_fence claim) digest size now d4 <> Ok e) /\
  (forall who now e, CancelWorkerUpload who uploadID (uc_fence claim) now d4 <> Ok e).
Proof.
  pose proof (op_reachable _ _ R (go_claim_upload _ _ _ _ _ _ _ _ _ H1)) as R1.
  destruct (later_inv d1 d2 R1 S1) as (_ & Hi2 & He12).
  pose proof (op_reachable _ _ (step_reachable _ _ R1 S1) (go_claim_upload _ _ _ _ _ _ _ _ _ H2)) as R3.
  destruct (later_inv d3 d4 R3 S2) as (_ & Hi4 & He34).
  apply claim_upload_row in H1 as (u0 & _ & _ & [[_ ->]|(_ & _ & _ & u1 & Hu1 & Hid1 & Hf1)]); [done|].
  apply claim_upload_row in H2 as (u2 & Hu2 & (Hid2 & _) & [[_ ->]|(_ & _ & Hf2 & u3 & Hu3 & Hid3 & Hf3)]); [done|].
  destruct (ge_upls _ _ He12 u1 Hu1) as (x & Hx & [= Kid] & Hle & _).
  assert (x = u2) as -> by (apply (key_unique gu_id (gateway_uploads d2)); [apply Hi2|done|done|congruence]).
  destruct (ge_upls _ _ He34 u3 Hu3) as (z & Hz & [= Kz] & Hlez & _).
  assert (forall who y, y ∈ gateway_uploads d4 -> ~ uploading who uploadID (uc_fence claim) y) as Hno.
  { intros who y Hy ((Hyid & _) & _ & Hyf).
    assert (z = y) as -> by (apply (key_unique gu_id (gateway_uploads d4)); [apply Hi4|done|done|congruence]). lia. }
  split_and!; [lia|..].
  - intros who dg sz t e (y & Hy & Hup)%complete_upload_needs. by eapply Hno.
  - intros who t e (y & Hy & Hup)%cancel_upload_needs. by eapply Hno.
Qed.
End gateway_safety.

(** ** Confined destinations *)
Lemma clean_absolute_root cwd root : IsAbs cwd = true ->
  exists rs, Forall proper rs /\ bytes (Clean (Abs cwd root)) = SLASH :: join_byte SLASH rs.
Proof.
  intros Hcwd. assert (exists rs, Forall proper rs /\ bytes (Abs cwd root) = SLASH :: join_byte SLASH rs) as (rs & Hp & E).
  { unfold Abs, IsAbs in *. destruct (slashed (bytes root)) eqn:Hr.
    - unfold Clean. rewrite bytes_of_bytes. by apply clean_absolute.
    - unfold path_Join. rewrite bytes_of_bytes. apply clean_absolute. by destruct (bytes cwd). }
  exists rs. split; [done|]. unfold Clean. rewrite bytes_of_bytes, E, clean_proper; rewrite components_absolute by done; [|done].
  cbn. by rewrite bool_decide_eq_true_2.
Qed.

(** A relative path climbs or stays below. *)
Lemma rel_shape base targ bs ts : Forall proper bs -> Forall proper ts ->
  bytes base = SLASH :: join_byte SLASH bs -> bytes targ = SLASH :: join_byte SLASH ts ->
  Rel base targ = "." \/ Rel base targ = ".." \/ bytes "../" `prefix_of` bytes (Rel base targ) \/
  exists below, below <> [] /\ ts = bs ++ below /\ bytes (Rel base targ) = join_byte SLASH below.
Proof.
  intros Hb Ht Eb Et. unfold Rel. rewrite Eb, Et, !clean_proper; rewrite !components_absolute by done; [|done..].
  change (slashed (SLASH :: ?l)) with true. cbv iota. case_decide as Heq; [by left|].
  destruct (strip_common_prefix bs ts) as (common & H1 & H2). rewrite !components_absolute by done.
  destruct (strip_common bs ts) as [up down]. cbn in H1, H2. destruct up as [|u up].
  - right. right. right. exists down. rewrite app_nil_r in H1. subst common. split_and!; [|done|].
    + intros ->. rewrite app_nil_r in H2. congruence.
    + cbn. by rewrite bytes_of_bytes.
  - right. cbn [length replicate]. destruct (replicate (length up) DOTDOT ++ down) as [|x l] eqn:E.
    + left. cbn [app]. rewrite E. done.
    + right. left. cbn [app]. rewrite E, bytes_of_bytes. exists (join_byte SLASH (x :: l)). done.
Qed.

(** An upload cannot escape the spool: the destination that is resolved for
    an upload lies strictly below the configured root, whose path is a prefix of
    it, and what follows has no empty, dot or dot-dot component; a relative
    destination is its own path below the root, whatever the root of the
    replica is, and a destination that resolves is one the ledger stores. *)
Theorem confined_upload_below_root (cwd root destination : string) (c : confinedUpload) (Hcwd : IsAbs cwd = true)
    (H : confinedUploadDestination cwd root destination = Ok c) :
  exists below, below <> [] /\ Forall proper below /\ IsAbs (cu_root c) = true /\
    path_components (bytes (cu_absolute c)) = path_components (bytes (cu_root c)) ++ below /\
    bytes (cu_relative c) = join_byte SLASH below /\
    (IsAbs destination = false -> cu_relative c = destination) /\
    (go_len destination <= maxGatewayDestinationBytes -> checkGatewayDestination destination = Ok tt).
Proof.
  unfold confinedUploadDestination in H. cbv zeta in H. inv_ok H. subst c. cbn [cu_root cu_absolute cu_relative].
  destruct (clean_absolute_root cwd root Hcwd) as (rs & Hrs & Er).
  assert (Clean destination = destination) as Hclean by (destruct (decide (Clean destination = destination)); tauto).
  rewrite Hclean in *.
  assert (exists ds, Forall proper ds /\
    bytes (if IsAbs destination then destination else path_Join (Clean (Abs cwd root)) destination) =
      SLASH :: join_byte SLASH ds /\
    (IsAbs destination = false -> bytes destination <> [] /\ exists below, Forall proper below /\
       ds = rs ++ below /\ bytes destination = join_byte SLASH below)) as (ds & Hds & Ed & Hrel).
  { destruct (IsAbs destination) eqn:Ha.
    - destruct (clean_absolute (bytes destination) Ha) as (ds & Hds & Ed). exists ds. split_and!; [done| |done].
      rewrite <- Ed, <- Hclean at 1. unfold Clean. by rewrite bytes_of_bytes.
    - destruct (clean_relative (bytes destination)) as (ds & Hds & Hne & Ed).
      + rewrite <- Hclean at 2. unfold Clean. by rewrite bytes_of_bytes.
      + done.
      + intros Hd. apply Hc0. right. left. by apply (bytes_inj destination ".").
      + intros Hd. apply Hc0. right. right. left. by apply (bytes_inj destination "..").
      + intros Hp. apply Hc1. done.
      + exists (rs ++ ds). assert (Forall proper (rs ++ ds)) as Hall by (by apply Forall_app). split_and!; [done| |].
        * unfold path_Join. rewrite bytes_of_bytes, Er, Ed, clean_proper;
            rewrite path_components_app, components_absolute, path_components_join by done; [|done]. done.
        * intros _. split; [|by exists ds]. intros Hz. by rewrite Hz in Ed; apply Hne, join_nil. }
  destruct (rel_shape _ _ rs ds Hrs Hds Er Ed) as [?|[?|[?|(below & Hne & Hdb & Eb)]]]; [tauto..|].
  assert (Forall proper below) as Hbelow by (rewrite Hdb in Hds; by apply Forall_app in Hds as [_ ?]).
  exists below. split_and!; [done|done| | |done| |].
  - unfold IsAbs. rewrite Er. cbn. by apply bool_decide_eq_true_2.
  - by rewrite Er, Ed, !components_absolute.
  - intros Ha. destruct (Hrel Ha) as (_ & below' & _ & Hdb' & Ed'). apply bytes_inj. rewrite Eb, Ed'. f_equal.
    rewrite Hdb in Hdb'. by apply app_inv_head in Hdb'.
  - intros Hlen. unfold checkGatewayDestination. rewrite Hclean. repeat (rewrite decide_True; [|intuition lia]). done.
Qed.

(** ** Identities in certificates *)
Definition identity_parts (i : Identity) : list (list ascii) :=
  [bytes "worker"; PathEscape (id_worker_id i); bytes "job"; PathEscape (id_job_id i);
   bytes "attempt"; PathEscape (id_attempt_id i); bytes "fence"; format_decimal (id_fence_token i)].

Lemma identity_path_parts i : identity_path i = SLASH :: join_byte SLASH (identity_parts i).
Proof. reflexivity. Qed.

Lemma digits_plain l : Forall is_digit l -> forallb (plain "/?#") l = true /\ PERCENT ∉ l.
Proof.
  induction 1 as [|c l Hc _ [IH IH']]; [split; [done|apply not_elem_of_nil]|]. apply digit_code in Hc.
  assert (implb ((48 <=? N_of_ascii c) && (N_of_ascii c <=? 57))%N (plain "/?#" c && bool_decide (PERCENT <> c)) = true) as H.
  { clear. revert c. apply all_bytes. vm_compute. reflexivity. }
  rewrite (proj2 (N.leb_le 48 _)), (proj2 (N.leb_le _ 57)) in H by lia.
  apply andb_true_iff in H as [Hp Hne]. apply bool_decide_eq_true in Hne.
  split; [simpl; by rewrite Hp, IH|by apply not_elem_of_cons].
Qed.

Lemma identity_parts_ok i : 0 < id_fence_token i ->
  Forall (fun p => forallb (plain "/?#") p = true /\ unescapes p) (identity_parts i).
Proof.
  intros Hf. destruct (format_digits _ Hf) as (c & l & E & Hd & _).
  assert (forall s, forallb (plain "/?#") (PathEscape s) = true /\ unescapes (PathEscape s)) as Hesc.
  { intros s. split; [apply escape_plain|apply escape_unescapes]. }
  assert (forall s, forallb (plain "/?#") (bytes s) = true -> bool_decide (PERCENT ∈ bytes s) = false ->
    forallb (plain "/?#") (bytes s) = true /\ unescapes (bytes s)) as Htext.
  { intros s Hs Hp. split; [done|]. apply bool_decide_eq_false in Hp. by apply text_unescapes. }
  unfold identity_parts. rewrite E. destruct (digits_plain _ Hd) as [Hp Hn].
  repeat apply Forall_cons_2; try apply Forall_nil_2; try apply Hesc; try (apply Htext; vm_compute; reflexivity).
  split; [done|by apply text_unescapes].
Qed.

Lemma join_slashes (ok : ascii -> bool) ps : ok SLASH = true -> Forall (fun p => forallb ok p = true) ps ->
  forallb ok (join_byte SLASH ps) = true.
Proof.
  intros Hs H. induction H as [|p ps Hp H IH]; [done|]. destruct ps as [|q ps]; [done|].
  change (join_byte SLASH (p :: q :: ps)) with (p ++ SLASH :: join_byte SLASH (q :: ps)).
  rewrite forallb_app, Hp. cbn [forallb andb]. by rewrite Hs, IH.
Qed.

Lemma identity_parts_last i : 0 < id_fence_token i -> last (join_byte SLASH (identity_parts i)) <> Some SLASH.
Proof.
  intros Hf. assert (exists pre, join_byte SLASH (identity_parts i) = pre ++ format_decimal (id_fence_token i)) as (pre & ->).
  { exists (bytes "worker/" ++ PathEscape (id_worker_id i) ++ bytes "/job/" ++ PathEscape (id_job_id i) ++
            bytes "/attempt/" ++ PathEscape (id_attempt_id i) ++ bytes "/fence/"). by rewrite <- !app_assoc. }
  destruct (format_digits _ Hf) as (c & l & E & Hd & _). rewrite last_app. apply digits_plain in Hd as [Hd _].
  rewrite <- E in Hd. apply plain_delimiters in Hd as [Hd _].
  destruct (last (format_decimal (id_fence_token i))) as [x|] eqn:Hx.
  - intros [= ->]. apply (Hd SLASH); [vm_compute; set_solver|]. by apply last_Some_elem_of.
  - apply last_None in Hx. congruence.
Qed.

(** The parsed URI has the path it was written with. *)
Lemma identity_uri_path i : identity_Validate i = Ok tt -> exists u, identity_URI i = Ok u /\
  u_scheme u = "spiffe" /\ u_host u = "portage-engine" /\ u_raw_query u = [] /\ u_fragment u = [] /\
  EscapedPath u = identity_path i.
Proof.
  intros Hv. assert (0 < id_fence_token i) as Hf by (unfold identity_Validate in Hv; inv_ok_step Hv; lia).
  pose proof (identity_parts_ok i Hf) as Hok.
  assert (forallb (plain "?#") (identity_path i) = true) as Hpath.
  { rewrite identity_path_parts. apply andb_true_iff. split; [by vm_compute|]. apply join_slashes; [by vm_compute|].
    eapply Forall_impl; [exact Hok|]. intros p [Hp _]. by apply plain_path. }
  destruct (plain_delimiters _ _ Hpath) as (Hd & Hctl & Henc).
  destruct (join_unescapes (identity_parts i)) as (q & Hq); [eapply Forall_impl; [exact Hok|]; by intros p [_ ?]|].
  specialize (Hq []). rewrite app_nil_r in Hq.
  destruct (url_Parse_path "spiffe" "portage-engine" (identity_path i) (SLASH :: q ++ [])) as (u & Hu & Hrest).
  - apply Hd. vm_compute. set_solver.
  - apply Hd. vm_compute. set_solver.
  - done.
  - by rewrite identity_path_parts, unescape_slash, Hq.
  - done.
  - done.
  - exists u. unfold identity_URI. by rewrite Hv, Hu.
Qed.

(** A certificate names its identity exactly: for every valid identity, with
    whatever bytes its parts have, the URI that is put into the certificate
    exists, and reading it back gives the same worker, job, attempt and fence;
    so two identities never share a URI. *)
Theorem identity_uri_roundtrip (i : Identity) (Hv : identity_Validate i = Ok tt) (Hf : id_fence_token i < 2 ^ 63) :
  exists u, identity_URI i = Ok u /\ ParseIdentityURI (Some u) = Ok i.
Proof.
  assert (0 < id_fence_token i) as H0 by (unfold identity_Validate in Hv; inv_ok_step Hv; lia).
  destruct (identity_uri_path i Hv) as (u & Hu & Hs & Hh & Hq & Hfr & Hp). exists u. split; [done|].
  unfold ParseIdentityURI. rewrite Hs, Hh, Hq, Hfr, Hp, identity_path_parts, trim_byte_fenced.
  - rewrite split_join; [|done|].
    + cbv beta iota delta [identity_parts]. rewrite decide_True by (split_and?; tauto). rewrite decide_True by tauto.
      unfold PathUnescape, PathEscape. rewrite !unescape_escape, parse_format by lia. cbn. rewrite !of_bytes_bytes.
      destruct i as [w j a f]. cbn in *. by rewrite Hv.
    + eapply Forall_impl; [exact (identity_parts_ok i H0)|]. intros p [Hpl _]. apply (plain_delimiters _ _ Hpl). vm_compute. set_solver.
  - done.
  - by apply identity_parts_last.
Qed.

(** ** A run of the gateway

    After the claim of the attempt: its worker registers with a certificate,
    gets a command, and uploads an artifact. *)
Definition identity_ex : Identity := mkIdentity "worker-1" "j1" "a1" 1.
Definition hex64 (c : ascii) : string := of_bytes (replicate 64 c).
Definition record_ex : CertificateRecord :=
  mkCertificateRecord (hex64 "a") "01" "ca" "file" (hex64 "b") "CN=ca" "02" (1 * Second) (4000 * Second)
    (20 * Second) (3000 * Second).
Definition presented_ex : PresentedCertificate := mkPresented (hex64 "a") "01".
Definition parse_ex (s : string) : option uuid := Some s.
Definition jsonb_ex (s : string) : option string := Some s.

Definition registered_gw : db := ran (RegisterWorkerSession identity_ex (25 * Second) claimed_ex).
Definition certified_gw : db := ran (RegisterWorkerCertificate identity_ex record_ex (at_time 26) registered_gw).
Definition task_ex : Task := mkTask "c1" ActionBuild 0 "{}".
Definition enqueued_gw : db := ran (EnqueueWorkerCommand parse_ex jsonb_ex identity_ex task_ex (27 * Second) certified_gw).
Definition claim_command_ex (t : Z) (d : db) := ClaimWorkerCommand identity_ex (5 * Second) unlocked (at_time t) d.
Definition delivered_gw : db := (ran_with None (claim_command_ex 28 enqueued_gw)).2.
Definition redelivered_gw : db := (ran_with None (claim_command_ex 40 delivered_gw)).2.
Definition completion_ex : Completion := mkCompletion "c1" 1 "{}" "".
Definition completed_gw : db := ran (CompleteWorkerCommand jsonb_ex identity_ex completion_ex (29 * Second) delivered_gw).
Definition prepared_gw : db := ran (PrepareWorkerUpload parse_ex identity_ex "u1" "jobs/a.tar" 100 (30 * Second) certified_gw).
Definition no_claim : UploadClaim := mkUploadClaim "" "" 0 0 true "" 0.
Definition claim_upload_ex (t : Z) (d : db) := ClaimWorkerUpload parse_ex identity_ex "u1" (5 * Second) (at_time t) d.
Definition uploading_gw : db := (ran_with no_claim (claim_upload_ex 31 prepared_gw)).2.
Definition reclaimed_gw : db := (ran_with no_claim (claim_upload_ex 45 uploading_gw)).2.
Definition uploaded_gw : db := ran (CompleteWorkerUpload identity_ex "u1" 1 (hex64 "c") 10 (33 * Second) uploading_gw).
Definition recovered_gw : db :=
  (ok_or (0%nat, empty_db) (recoverExpiredTx marshal_status_ex 32 unlocked (at_time 200) enqueued_gw)).2.

Definition gateway_step_ex := system_step parse_ex jsonb_ex marshal_status_ex marshal_request_ex.
Definition gateway_reachable_ex := system_reachable parse_ex jsonb_ex marshal_status_ex marshal_request_ex.

Lemma registered_ok : RegisterWorkerSession identity_ex (25 * Second) claimed_ex = Ok registered_gw.
Proof. unfold registered_gw. apply ran_ok. vm_compute. reflexivity. Qed.
Lemma certified_ok : RegisterWorkerCertificate identity_ex record_ex (at_time 26) registered_gw = Ok certified_gw.
Proof. unfold certified_gw. apply ran_ok. vm_compute. reflexivity. Qed.
Lemma enqueued_ok : EnqueueWorkerCommand parse_ex jsonb_ex identity_ex task_ex (27 * Second) certified_gw = Ok enqueued_gw.
Proof. unfold enqueued_gw. apply ran_ok. vm_compute. reflexivity. Qed.
Lemma prepared_ok :
  PrepareWorkerUpload parse_ex identity_ex "u1" "jobs/a.tar" 100 (30 * Second) certified_gw = Ok prepared_gw.
Proof. unfold prepared_gw. apply ran_ok. vm_compute. reflexivity. Qed.
Lemma delivered_ok :
  claim_command_ex 28 enqueued_gw = Ok ((ran_with None (claim_command_ex 28 enqueued_gw)).1, delivered_gw).
Proof. unfold delivered_gw. apply ran_with_ok. vm_compute. reflexivity. Qed.
Lemma uploading_ok :
  claim_upload_ex 31 prepared_gw = Ok ((ran_with no_claim (claim_upload_ex 31 prepared_gw)).1, uploading_gw).
Proof. unfold uploading_gw. apply ran_with_ok. vm_compute. reflexivity. Qed.

Lemma claimed_gw_reachable : gateway_reachable_ex claimed_ex.
Proof.
  exists start_ex. split; [split; [exact start_initial|reflexivity]|].
  eapply rtc_l; [apply ss_job, submitted_op|]. apply rtc_once, ss_job, claimed_op.
Qed.

Lemma certified_reachable : gateway_reachable_ex certified_gw.
Proof.
  refine (op_reachable _ _ _ _ registered_gw _ _ (go_certificate _ _ _ _ _ _ _ certified_ok)).
  exact (op_reachable _ _ _ _ claimed_ex _ claimed_gw_reachable (go_register _ _ _ _ _ _ registered_ok)).
Qed.

Lemma enqueued_reachable : gateway_reachable_ex enqueued_gw.
Proof. exact (op_reachable _ _ _ _ certified_gw _ certified_reachable (go_enqueue _ _ _ _ _ _ _ enqueued_ok)). Qed.

Lemma delivered_reachable : gateway_reachable_ex delivered_gw.
Proof.
  exact (op_reachable _ _ _ _ enqueued_gw _ enqueued_reachable (go_claim_command _ _ _ _ _ _ _ _ _ delivered_ok)).
Qed.

Lemma prepared_reachable : gateway_reachable_ex prepared_gw.
Proof.
  exact (op_reachable _ _ _ _ certified_gw _ certified_reachable (go_prepare _ _ _ _ _ _ _ _ _ prepared_ok)).
Qed.

Lemma uploading_reachable : gateway_reachable_ex uploading_gw.
Proof.
  exact (op_reachable _ _ _ _ prepared_gw _ prepared_reachable (go_claim_upload _ _ _ _ _ _ _ _ _ uploading_ok)).
Qed.

Lemma recovered_gw_reachable : gateway_reachable_ex recovered_gw.
Proof.
  apply (step_reachable _ _ _ _ enqueued_gw); [exact enqueued_reachable|]. apply rtc_once, ss_job.
  assert (is_ok (recoverExpiredTx marshal_status_ex 32 unlocked (at_time 200) enqueued_gw) = true) as H
    by (vm_compute; reflexivity).
  apply (ok_or_ran (0%nat, empty_db)) in H. rewrite (surjective_pairing (ok_or _ _)) in H.
  exact (js_recover _ _ _ _ _ _ _ _ _ H).
Qed.

Lemma lost_attempt_shut_out_witness :
  (wc_state <$> workload_certificates recovered_gw) = [SessRevoked] /\
  shut_out parse_ex jsonb_ex identity_ex recovered_gw.
Proof.
  split; [vm_compute; reflexivity|].
  apply (lost_attempt_shut_out parse_ex jsonb_ex marshal_status_ex marshal_request_ex recovered_gw recovered_gw identity_ex).
  - exact recovered_gw_reachable.
  - split; apply (bool_decide_unpack _); vm_compute; exact I.
  - reflexivity.
Defined.

Definition revoked_gw : db := ran (RevokeWorkloadCertificate (hex64 "a") "lost" (40 * Second) certified_gw).
Definition revoked_issuer_gw : db := ran (RevokeWorkloadIssuer (hex64 "b") "lost" (40 * Second) certified_gw).

Lemma revoked_certificate_unusable_witness :
  is_ok (AuthorizeWorkerCertificate identity_ex presented_ex (30 * Second) certified_gw) = true /\
  forall now e, AuthorizeWorkerCertificate identity_ex presented_ex now revoked_gw <> Ok e.
Proof.
  split; [vm_compute; reflexivity|].
  assert (exists c, workload_certificates certified_gw = [c] /\ wc_fingerprint c = hex64 "a") as (c & Hc & Hf)
    by (eexists; split; vm_compute; reflexivity).
  assert (RevokeWorkloadCertificate (hex64 "a") "lost" (40 * Second) certified_gw = Ok revoked_gw) as Hrev
    by (unfold revoked_gw; apply ran_ok; vm_compute; reflexivity).
  destruct (revoked_certificate_unusable parse_ex jsonb_ex marshal_status_ex marshal_request_ex certified_gw revoked_gw
    revoked_gw (hex64 "a") "lost" (40 * Second) c) as [Ha _].
  - exact certified_reachable.
  - rewrite Hc. by left.
  - rewrite Hf. vm_compute. reflexivity.
  - exact Hrev.
  - reflexivity.
  - intros now e. apply Ha. left. by rewrite Hf.
Defined.

Lemma revoked_issuer_unusable_witness :
  is_ok (RegisterWorkerCertificate identity_ex record_ex (at_time 41) certified_gw) = true /\
  forall clk e, RegisterWorkerCertificate identity_ex record_ex clk revoked_issuer_gw <> Ok e.
Proof.
  split; [vm_compute; reflexivity|].
  assert (RevokeWorkloadIssuer (hex64 "b") "lost" (40 * Second) certified_gw = Ok revoked_issuer_gw) as Hrev
    by (unfold revoked_issuer_gw; apply ran_ok; vm_compute; reflexivity).
  destruct (revoked_issuer_unusable parse_ex jsonb_ex marshal_status_ex marshal_request_ex certified_gw revoked_issuer_gw
    revoked_issuer_gw (hex64 "b") "lost" (40 * Second)) as [_ Hr].
  - exact certified_reachable.
  - exact Hrev.
  - reflexivity.
  - intros clk e. apply Hr. vm_compute. reflexivity.
Defined.

Lemma command_outcome_final_witness :
  WorkerCommandResult identity_ex "c1" completed_gw = Ok (mkCompletion "c1" 1 "{}" "").
Proof.
  assert (CompleteWorkerCommand jsonb_ex identity_ex completion_ex (29 * Second) delivered_gw = Ok completed_gw) as H
    by (unfold completed_gw; apply ran_ok; vm_compute; reflexivity).
  destruct (command_outcome_final parse_ex jsonb_ex marshal_status_ex marshal_request_ex delivered_gw completed_gw
    completed_gw identity_ex completion_ex (29 * Second)) as (response & Hr & Hres & _).
  - exact delivered_reachable.
  - exact H.
  - reflexivity.
  - cbn in Hr. injection Hr as <-. exact Hres.
Defined.

Lemma superseded_delivery_refused_witness :
  is_ok (CompleteWorkerCommand jsonb_ex identity_ex (mkCompletion "c1" 2 "{}" "") (41 * Second)
    redelivered_gw) = true /\
  forall now e, CompleteWorkerCommand jsonb_ex identity_ex completion_ex now redelivered_gw <> Ok e.
Proof.
  split; [vm_compute; reflexivity|].
  assert (exists t, claim_command_ex 28 enqueued_gw = Ok (Some t, delivered_gw) /\ tk_id t = "c1" /\
    tk_delivery_fence t = 1) as (t & H1 & Hid & Hf).
  { exists (mkTask "c1" "build" 1 "{}"). split; [|done]. pose proof delivered_ok as H.
    replace (ran_with None (claim_command_ex 28 enqueued_gw)).1 with (Some (mkTask "c1" "build" 1 "{}")) in H
      by (vm_compute; reflexivity). exact H. }
  assert (exists t, claim_command_ex 40 delivered_gw = Ok (Some t, redelivered_gw) /\ tk_id t = "c1") as (t' & H2 & Hid').
  { exists (mkTask "c1" "build" 2 "{}"). split; [|done]. pose proof (ran_with_ok None (claim_command_ex 40 delivered_gw)
      ltac:(vm_compute; reflexivity)) as H.
    replace (ran_with None (claim_command_ex 40 delivered_gw)).1 with (Some (mkTask "c1" "build" 2 "{}")) in H
      by (vm_compute; reflexivity). exact H. }
  destruct (superseded_delivery_refused parse_ex jsonb_ex marshal_status_ex marshal_request_ex enqueued_gw delivered_gw
    delivered_gw redelivered_gw redelivered_gw _ _ _ _ _ _ _ _ t t' enqueued_reachable H1 ltac:(reflexivity) H2
    ltac:(reflexivity) ltac:(congruence)) as [_ Hno].
  intros now e. apply Hno; [by rewrite Hid|by rewrite Hf].
Defined.

Lemma upload_completed_once_witness :
  is_ok (CompleteWorkerUpload identity_ex "u1" 1 (hex64 "c") 10 (33 * Second) uploading_gw) = true /\
  forall now e, CompleteWorkerUpload identity_ex "u1" 1 (hex64 "c") 10 now uploaded_gw <> Ok e.
Proof.
  split; [vm_compute; reflexivity|].
  assert (CompleteWorkerUpload identity_ex "u1" 1 (hex64 "c") 10 (33 * Second) uploading_gw = Ok uploaded_gw) as H
    by (unfold uploaded_gw; apply ran_ok; vm_compute; reflexivity).
  destruct (upload_completed_once parse_ex jsonb_ex marshal_status_ex marshal_request_ex uploading_gw uploaded_gw
    uploaded_gw identity_ex "u1" 1 (hex64 "c") 10 (33 * Second) uploading_reachable H ltac:(reflexivity)) as [Hno _].
  intros now e. apply Hno.
Defined.

Lemma superseded_upload_refused_witness :
  forall now e, CompleteWorkerUpload identity_ex "u1" 1 (hex64 "c") 10 now reclaimed_gw <> Ok e.
Proof.
  pose (claim := mkUploadClaim "u1" "jobs/a.tar" 100 1 false "" 0).
  pose (claim' := mkUploadClaim "u1" "jobs/a.tar" 100 2 false "" 0).
  assert (claim_upload_ex 31 prepared_gw = Ok (claim, uploading_gw)) as H1.
  { pose proof uploading_ok as H. replace (ran_with no_claim (claim_upload_ex 31 prepared_gw)).1 with claim in H
      by (vm_compute; reflexivity). exact H. }
  assert (claim_upload_ex 45 uploading_gw = Ok (claim', reclaimed_gw)) as H2.
  { pose proof (ran_with_ok no_claim (claim_upload_ex 45 uploading_gw) ltac:(vm_compute; reflexivity)) as H.
    replace (ran_with no_claim (claim_upload_ex 45 uploading_gw)).1 with claim' in H by (vm_compute; reflexivity). exact H. }
  destruct (superseded_upload_refused parse_ex jsonb_ex marshal_status_ex marshal_request_ex prepared_gw uploading_gw
    uploading_gw reclaimed_gw reclaimed_gw _ _ "u1" _ _ _ _ claim claim' prepared_reachable H1 ltac:(reflexivity) H2
    ltac:(reflexivity) eq_refl eq_refl) as (_ & Hno & _).
  intros now e. apply (Hno identity_ex).
Defined.

Lemma confined_upload_below_root_witness :
  confinedUploadDestination "/srv" "spool" "jobs/a.tar" = Ok (mkConfined "/srv/spool" "/srv/spool/jobs/a.tar" "jobs/a.tar") /\
  checkGatewayDestination "jobs/a.tar" = Ok tt.
Proof.
  assert (confinedUploadDestination "/srv" "spool" "jobs/a.tar" =
    Ok (mkConfined "/srv/spool" "/srv/spool/jobs/a.tar" "jobs/a.tar")) as H by (vm_compute; reflexivity).
  split; [exact H|].
  destruct (confined_upload_below_root "/srv" "spool" "jobs/a.tar" _ eq_refl H) as (below & _ & _ & _ & _ & _ & _ & Hc).
  apply Hc. vm_compute. discriminate.
Defined.

Lemma identity_uri_roundtrip_witness :
  exists u, identity_URI (mkIdentity "worker 1;é" "j1" "a%1" 7) = Ok u /\
    ParseIdentityURI (Some u) = Ok (mkIdentity "worker 1;é" "j1" "a%1" 7).
Proof. apply identity_uri_roundtrip; vm_compute; reflexivity. Defined.
