(* ===== verification/ArtifactSystem.v ===== *)
(** * The artifact budget over time

    The operations of [RuntimeMetadata] between those of the job system.  The
    bytes a budget counts are the sizes of the generations its attempt retains,
    never more than the project allows for a job, and nothing once the attempt
    has lost its lease. *)

From S2P Require Import Prelude GoStrings GoJson Schema Capabilities CapacityLedger Budgets Fairness.
From S2P Require Import JobLedger Scheduler PhaseWork RuntimeMetadata Fencing PhasePlan JobSystem JobSafety JobHistory.
From S2P Require Import GatewayRows ArtifactRows LeaseRuntime.
From Stdlib Require Import Ascii.
Open Scope string_scope.
Open Scope list_scope.
Open Scope Z_scope.

#[local] Arguments update_where : simpl never.

(** ** The accounting, on the columns it reads *)
Definition counted (A : uuid) (g : gen_key) : Z :=
  if decide (gk_attempt g = A /\ gk_state g = Live) then gk_size g else 0.
Definition live_bytes (A : uuid) (gs : list gen_key) : Z := sum_by (counted A) gs.
Definition gkey (g : gen_key) : uuid * string := (gk_attempt g, gk_generation g).

Record budget_ok (bs : list budget_key) (gs : list gen_key) : Prop := {
  bo_ids : NoDup (bk_attempt <$> bs);
  bo_keys : NoDup (gkey <$> gs);
  bo_of : forall g, g ∈ gs -> exists b, b ∈ bs /\ bk_attempt b = gk_attempt g;
  bo_sizes : forall g, g ∈ gs -> 0 <= gk_size g;
  bo_exact : forall b, b ∈ bs -> bk_active b = live_bytes (bk_attempt b) gs;
  bo_bounds : forall b, b ∈ bs -> bk_active b <= bk_peak b <= bk_limit b /\ bk_limit b <= int64_max;
  bo_released : forall b g, b ∈ bs -> bk_state b = Released -> g ∈ gs -> gk_attempt g = bk_attempt b ->
    gk_state g = Released
}.

Lemma counted_nonneg A g : 0 <= gk_size g -> 0 <= counted A g.
Proof. unfold counted. case_decide; lia. Qed.

Lemma live_bytes_ext A gs gs' (f : gen_key -> gen_key) : gs' = f <$> gs ->
  (forall g, g ∈ gs -> counted A (f g) = counted A g) -> live_bytes A gs' = live_bytes A gs.
Proof.
  intros -> Hf. unfold live_bytes. induction gs as [|g gs IH]; [done|]. unfold sum_by in *. cbn.
  rewrite Hf by set_solver. f_equal. apply IH. intros x Hx. apply Hf. set_solver.
Qed.

Lemma live_bytes_zero A gs : (forall g, g ∈ gs -> gk_attempt g = A -> gk_state g = Released) -> live_bytes A gs = 0.
Proof.
  intros H. unfold live_bytes. induction gs as [|g gs IH]; [done|]. unfold sum_by in *. cbn.
  rewrite IH by (intros x Hx; apply H; set_solver). unfold counted. case_decide as Hg; [|lia].
  destruct Hg as [Ha Hs]. rewrite H in Hs; [done|set_solver|done].
Qed.

Lemma live_bytes_nonneg A bs gs : budget_ok bs gs -> 0 <= live_bytes A gs.
Proof. intros Ho. apply sum_by_nonneg. intros g Hg. by apply counted_nonneg, (bo_sizes _ _ Ho). Qed.

(** A generation counts no more than its attempt. *)
Lemma counted_le A g bs gs : budget_ok bs gs -> g ∈ gs -> counted A g <= live_bytes A gs.
Proof.
  intros Ho Hg. pose proof (bo_sizes _ _ Ho) as Hs. clear Ho. unfold live_bytes.
  induction gs as [|x gs IH]; [set_solver|]. unfold sum_by in *. cbn.
  assert (0 <= counted A x) by (apply counted_nonneg, Hs; set_solver).
  assert (0 <= sum_by (counted A) gs) by (apply sum_by_nonneg; intros y Hy; apply counted_nonneg, Hs; set_solver).
  unfold sum_by in *. apply elem_of_cons in Hg as [->|Hg]; [lia|].
  specialize (IH Hg ltac:(intros y Hy; apply Hs; set_solver)). lia.
Qed.

(** ** Releases *)
Lemma release_b_attempt ids b : bk_attempt (release_b ids b) = bk_attempt b.
Proof. unfold release_b. by case_decide. Qed.
Lemma release_g_key ids g : gkey (release_g ids g) = gkey g /\ gk_size (release_g ids g) = gk_size g.
Proof. unfold release_g. by case_decide. Qed.
Lemma release_g_attempt ids g : gk_attempt (release_g ids g) = gk_attempt g.
Proof. unfold release_g. by case_decide. Qed.

Lemma release_g_id ids g : gk_attempt g ∉ ids -> release_g ids g = g.
Proof. intros H. unfold release_g. by rewrite decide_False by (by intros [? _]). Qed.

Lemma counted_release A ids g : A ∉ ids -> counted A (release_g ids g) = counted A g.
Proof. intros HA. unfold release_g. case_decide as H; [|done]. unfold counted. cbn. repeat case_decide; try done; exfalso; naive_solver. Qed.

Lemma release_ok ids bs gs : budget_ok bs gs -> budget_ok (release_b ids <$> bs) (release_g ids <$> gs).
Proof.
  intros Ho. assert (forall A, A ∈ ids -> live_bytes A (release_g ids <$> gs) = 0) as Hz.
  { intros A HA. apply live_bytes_zero. intros g (x & -> & Hx)%list_elem_of_fmap. rewrite release_g_attempt. intros <-.
    unfold release_g. case_decide as H; [done|]. destruct (gk_state x); [tauto|done]. }
  split.
  - rewrite <- list_fmap_compose. erewrite list_fmap_ext; [apply (bo_ids _ _ Ho)|]. intros _ b _. apply release_b_attempt.
  - rewrite <- list_fmap_compose. erewrite list_fmap_ext; [apply (bo_keys _ _ Ho)|]. intros _ g _. apply release_g_key.
  - intros g (x & -> & Hx)%list_elem_of_fmap. destruct (bo_of _ _ Ho x Hx) as (b & Hb & Hbx).
    exists (release_b ids b). split; [by apply list_elem_of_fmap_2|]. by rewrite release_b_attempt, release_g_attempt.
  - intros g (x & -> & Hx)%list_elem_of_fmap. rewrite (proj2 (release_g_key ids x)). by apply (bo_sizes _ _ Ho).
  - intros b (x & -> & Hx)%list_elem_of_fmap. rewrite release_b_attempt. pose proof (bo_exact _ _ Ho x Hx) as He.
    unfold release_b. case_decide as H; cbn; [symmetry; apply Hz; tauto|]. rewrite He.
    destruct (decide (bk_attempt x ∈ ids)) as [Hin|Hin].
    + rewrite (Hz _ Hin). apply live_bytes_zero. intros g Hg Ha. apply (bo_released _ _ Ho x g); [done| |done|done].
      destruct (bk_state x); [tauto|done].
    + symmetry. eapply live_bytes_ext; [done|]. intros g _. by apply counted_release.
  - intros b (x & -> & Hx)%list_elem_of_fmap. pose proof (bo_bounds _ _ Ho x Hx). pose proof (bo_exact _ _ Ho x Hx).
    pose proof (live_bytes_nonneg (bk_attempt x) bs gs Ho). unfold release_b. case_decide; cbn; lia.
  - intros b g (x & -> & Hx)%list_elem_of_fmap Hst (y & -> & Hy)%list_elem_of_fmap. rewrite release_b_attempt, release_g_attempt.
    intros Ha. destruct (decide (bk_attempt x ∈ ids)) as [Hin|Hin].
    + unfold release_g. case_decide as H; [done|]. rewrite <- Ha in Hin. destruct (gk_state y); [tauto|done].
    + assert (bk_state x = Released) as Hr by (revert Hst; unfold release_b; case_decide; tauto).
      rewrite release_g_id; [by apply (bo_released _ _ Ho x y)|]. by rewrite Ha.
Qed.

(** ** New budgets *)
Lemma insert_budget_ok b bs gs : budget_ok bs gs -> bk_attempt b ∉ bk_attempt <$> bs -> bk_active b = 0 ->
  bk_peak b = 0 -> 0 <= bk_limit b <= int64_max -> bk_state b = Live -> budget_ok (bs ++ [b]) gs.
Proof.
  intros Ho Hf Ha Hp Hl Hs. assert (forall g, g ∈ gs -> gk_attempt g <> bk_attempt b) as Hnone.
  { intros g Hg Heq. destruct (bo_of _ _ Ho g Hg) as (x & Hx & Hxg). apply Hf. rewrite <- Heq, <- Hxg.
    by apply list_elem_of_fmap_2. }
  split; try (by destruct Ho).
  - rewrite fmap_app. apply NoDup_app. split_and!; [apply (bo_ids _ _ Ho)| |apply NoDup_singleton].
    by intros A HA ?%list_elem_of_singleton; subst A.
  - intros g Hg. destruct (bo_of _ _ Ho g Hg) as (x & Hx & Hxg). exists x. split; [set_solver|done].
  - intros x [Hx|Hx%list_elem_of_singleton]%elem_of_app; [by apply (bo_exact _ _ Ho)|subst x]. rewrite Ha. symmetry.
    apply live_bytes_zero. intros g Hg Heq. by destruct (Hnone g Hg).
  - intros x [Hx|Hx%list_elem_of_singleton]%elem_of_app; [by apply (bo_bounds _ _ Ho)|subst x]. lia.
  - intros x g [Hx|Hx%list_elem_of_singleton]%elem_of_app; [by apply (bo_released _ _ Ho)|subst x]. congruence.
Qed.

(** ** Resizing a generation *)
Definition set_g (A : uuid) (generation : string) (size : Z) (gs : list gen_key) : list gen_key :=
  if decide (exists_row (fun g => gkey g = (A, generation)) gs)
  then update_where (fun g => gkey g = (A, generation)) (fun _ => mkGenKey A generation size Live) gs
  else gs ++ [mkGenKey A generation size Live].
Definition set_b (A : uuid) (bytes : Z) (bs : list budget_key) : list budget_key :=
  update_where (fun b => bk_attempt b = A /\ bk_state b = Live)
    (fun b => mkBudgetKey (bk_attempt b) (bk_job b) (bk_limit b) bytes (Z.max (bk_peak b) bytes) (bk_state b)) bs.
Definition old_bytes (A : uuid) (generation : string) (gs : list gen_key) : Z :=
  match first_where (fun g => gkey g = (A, generation)) gs with Some g => counted A g | None => 0 end.

Lemma sum_by_update_key {A} (f : A -> Z) (P : A -> Prop) `{HdP : !forall x, Decision (P x)} (g : A -> A) (l : list A) x :
  NoDup l -> x ∈ l -> P x -> (forall y, y ∈ l -> P y -> y = x) ->
  sum_by f (update_where P g l) = sum_by f l - f x + f (g x).
Proof.
  unfold update_where. induction l as [|a l IH]; [set_solver|]. intros [Hal Hnd]%NoDup_cons Hx HP Hu.
  cbn [fmap list_fmap]. unfold sum_by in *. cbn. case_decide as HPa.
  - assert (a = x) as -> by (apply Hu; [set_solver|done]).
    assert ((fun y => if decide (P y) then g y else y) <$> l = l) as Hl.
    { rewrite <- (list_fmap_id l) at 2. apply list_fmap_ext. intros i y Hy%list_elem_of_lookup_2.
      rewrite decide_False; [done|]. intros HPy. apply Hal. rewrite <- (Hu y); [done|set_solver|done]. }
    rewrite Hl. lia.
  - rewrite IH; [lia|done| |done|]; [by apply elem_of_cons in Hx as [->|?]|]. intros y Hy. apply Hu. set_solver.
Qed.

Lemma live_bytes_set A A' generation size bs gs : budget_ok bs gs ->
  live_bytes A' (set_g A generation size gs) =
  if decide (A' = A) then live_bytes A gs - old_bytes A generation gs + size else live_bytes A' gs.
Proof.
  intros Ho. assert (counted A' (mkGenKey A generation size Live) = if decide (A' = A) then size else 0) as Hc.
  { unfold counted. cbn. repeat case_decide; try done; exfalso; naive_solver. }
  unfold set_g, old_bytes, live_bytes. destruct (first_where _ gs) as [g|] eqn:Hg.
  - apply first_where_some in Hg as (Hin & Hk). rewrite decide_True by (apply Exists_exists; eauto).
    rewrite (sum_by_update_key (counted A') _ _ gs g).
    + rewrite Hc. case_decide as HA; [by subst A'|]. unfold counted at 2. rewrite decide_False; [lia|].
      injection Hk as HkA _. intros [? _]. congruence.
    + apply (NoDup_fmap_1 gkey), (bo_keys _ _ Ho).
    + done.
    + done.
    + intros y Hy Hyk. apply (key_unique gkey gs); [apply (bo_keys _ _ Ho)|done|done|congruence].
  - rewrite decide_False.
    + rewrite sum_by_app. unfold sum_by at 2. cbn. rewrite Hc. case_decide as HA; [subst A'|]; lia.
    + intros (g & Hin & Hk)%Exists_exists. by eapply (first_where_none _ _ Hg).
Qed.

Lemma set_g_elem A generation size gs g : g ∈ set_g A generation size gs ->
  g ∈ gs \/ g = mkGenKey A generation size Live.
Proof.
  unfold set_g. case_decide.
  - intros (x & Hx & [[_ ->]|[_ ->]])%elem_of_update_where; auto.
  - intros [?|?%list_elem_of_singleton]%elem_of_app; auto.
Qed.

Lemma set_g_keys A generation size gs : NoDup (gkey <$> gs) -> NoDup (gkey <$> set_g A generation size gs).
Proof.
  intros Hn. unfold set_g. case_decide as H.
  - rewrite update_where_map; [done|]. by intros x ->.
  - rewrite fmap_app. apply NoDup_app. split_and!; [done| |apply NoDup_singleton].
    intros k (g & -> & Hg)%list_elem_of_fmap Hk%list_elem_of_singleton. apply H, Exists_exists. eauto.
Qed.

Lemma set_ok A generation size bytes b bs gs : budget_ok bs gs -> b ∈ bs -> bk_attempt b = A -> bk_state b = Live ->
  0 <= size -> bytes = live_bytes A gs - old_bytes A generation gs + size -> bytes <= bk_limit b ->
  budget_ok (set_b A bytes bs) (set_g A generation size gs).
Proof.
  intros Ho Hb HA Hst Hs Hn Hle. pose proof (bo_ids _ _ Ho) as Hids.
  assert (forall x, x ∈ bs -> bk_attempt x = A -> x = b) as Hu.
  { intros x Hx HxA. apply (key_unique bk_attempt bs); [done|done|done|congruence]. }
  split.
  - unfold set_b. by rewrite update_where_map.
  - by apply set_g_keys, (bo_keys _ _ Ho).
  - intros g [Hg| ->]%set_g_elem.
    + destruct (bo_of _ _ Ho g Hg) as (x & Hx & Hxg).
      destruct (decide (bk_attempt x = A /\ bk_state x = Live)) as [Hd|Hd];
        (eexists; split; [apply elem_of_update_where; exists x; split; [done|]|]);
        [left; by split|done|right; by split|done].
    + eexists. split; [apply elem_of_update_where; exists b; split; [done|left; by split]|done].
  - intros g [Hg| ->]%set_g_elem; [by apply (bo_sizes _ _ Ho)|done].
  - intros y (x & Hx & [[[HxA HxS] ->]|[Hx' ->]])%elem_of_update_where; cbn; rewrite (live_bytes_set _ _ _ _ bs) by done.
    + by rewrite decide_True.
    + rewrite decide_False; [by apply (bo_exact _ _ Ho)|]. intros HxA. apply Hx'. by rewrite (Hu x Hx HxA).
  - intros y (x & Hx & [[[HxA HxS] ->]|[Hx' ->]])%elem_of_update_where; [|by apply (bo_bounds _ _ Ho)].
    cbn. pose proof (bo_bounds _ _ Ho x Hx). rewrite (Hu x Hx HxA) in *. lia.
  - intros y g (x & Hx & [[[HxA HxS] ->]|[Hx' ->]])%elem_of_update_where Hy; [cbn in Hy; congruence|].
    intros [Hg| ->]%set_g_elem; [by apply (bo_released _ _ Ho)|]. cbn. intros HAx. rewrite (Hu x Hx (eq_sym HAx)) in Hy. congruence.
Qed.

(** ** Releasing one generation *)
Definition drop_g (A : uuid) (generation : string) (gs : list gen_key) : list gen_key :=
  update_where (fun g => gkey g = (A, generation) /\ gk_state g = Live)
    (fun g => mkGenKey (gk_attempt g) (gk_generation g) (gk_size g) Released) gs.
Definition drop_b (A : uuid) (size : Z) (bs : list budget_key) : list budget_key :=
  update_where (fun b => bk_attempt b = A /\ bk_state b = Live)
    (fun b => mkBudgetKey (bk_attempt b) (bk_job b) (bk_limit b) (Z.max (bk_active b - size) 0) (bk_peak b) (bk_state b)) bs.

Lemma live_bytes_drop A A' generation g bs gs : budget_ok bs gs -> g ∈ gs -> gkey g = (A, generation) ->
  gk_state g = Live ->
  live_bytes A' (drop_g A generation gs) = if decide (A' = A) then live_bytes A gs - gk_size g else live_bytes A' gs.
Proof.
  intros Ho Hg Hk Hs. unfold live_bytes, drop_g. rewrite (sum_by_update_key (counted A') _ _ gs g).
  - injection Hk as HkA _. unfold counted at 2 3. cbn.
    rewrite (decide_False (P := gk_attempt g = A' /\ Released = Live)) by (by intros [_ ?]).
    repeat case_decide; subst; try lia; exfalso; naive_solver.
  - apply (NoDup_fmap_1 gkey), (bo_keys _ _ Ho).
  - done.
  - done.
  - intros y Hy [Hyk _]. apply (key_unique gkey gs); [apply (bo_keys _ _ Ho)|done|done|congruence].
Qed.

Lemma drop_g_elem A generation gs g : g ∈ drop_g A generation gs -> exists x, x ∈ gs /\
  gk_attempt g = gk_attempt x /\ gk_size g = gk_size x /\ (gk_state x = Released -> gk_state g = Released).
Proof. intros (x & Hx & [[_ ->]|[_ ->]])%elem_of_update_where; exists x; by split_and!. Qed.

Lemma drop_ok A generation g bs gs : budget_ok bs gs -> g ∈ gs -> gkey g = (A, generation) -> gk_state g = Live ->
  budget_ok (drop_b A (gk_size g) bs) (drop_g A generation gs).
Proof.
  intros Ho Hg Hk Hst. pose proof (bo_sizes _ _ Ho g Hg) as Hsize. split.
  - unfold drop_b. rewrite update_where_map; [apply (bo_ids _ _ Ho)|done].
  - unfold drop_g. rewrite update_where_map; [apply (bo_keys _ _ Ho)|done].
  - intros y (x & Hx & -> & _)%drop_g_elem. destruct (bo_of _ _ Ho x Hx) as (b & Hb & Hbx).
    destruct (decide (bk_attempt b = A /\ bk_state b = Live)) as [Hd|Hd];
      (eexists; split; [apply elem_of_update_where; exists b; split; [done|]|]);
      [left; by split|done|right; by split|done].
  - intros y (x & Hx & _ & -> & _)%drop_g_elem. by apply (bo_sizes _ _ Ho).
  - intros y (x & Hx & [[[HxA HxS] ->]|[Hx' ->]])%elem_of_update_where; cbn;
      rewrite (live_bytes_drop _ _ _ g bs) by done; rewrite (bo_exact _ _ Ho x Hx).
    + rewrite decide_True by done. pose proof (counted_le A g bs gs Ho Hg) as Hle. unfold counted in Hle.
      injection Hk as HkA _. rewrite decide_True in Hle by done. rewrite HxA. lia.
    + rewrite decide_False; [done|]. intros HxA. injection Hk as HkA _.
      destruct (bk_state x) eqn:Hxs; [by apply Hx'|]. pose proof (bo_released _ _ Ho x g Hx Hxs Hg). naive_solver congruence.
  - intros y (x & Hx & [[[HxA HxS] ->]|[Hx' ->]])%elem_of_update_where; [|by apply (bo_bounds _ _ Ho)].
    cbn. pose proof (bo_bounds _ _ Ho x Hx). pose proof (bo_exact _ _ Ho x Hx).
    pose proof (live_bytes_nonneg (bk_attempt x) bs gs Ho). lia.
  - intros y z (x & Hx & [[[HxA HxS] ->]|[Hx' ->]])%elem_of_update_where Hy; [cbn in Hy; congruence|].
    intros (w & Hw & -> & _ & Hr)%drop_g_elem Ha. by apply Hr, (bo_released _ _ Ho x w).
Qed.

(** ** The statements on the rows *)

(** The 64-bit sum exceeds the limit, or wraps below zero, exactly when the sum
    exceeds the limit. *)
Lemma int64_sum base size limit : 0 <= base <= int64_max -> 0 <= size <= int64_max -> limit <= int64_max ->
  (int64 (base + size) < 0 \/ limit < int64 (base + size)) <-> limit < base + size.
Proof.
  intros Hb Hs Hl. unfold int64, int64_max in *. destruct (Z.le_gt_cases (base + size) (2 ^ 63 - 1)) as [H|H].
  - rewrite Z.mod_small by lia. lia.
  - replace (base + size + 2 ^ 63) with (base + size - 2 ^ 63 + 1 * 2 ^ 64) by lia.
    rewrite Z.mod_add by lia. rewrite Z.mod_small by lia. lia.
Qed.

Lemma first_where_fmap {A B} (f : A -> B) (P : B -> Prop) (Q : A -> Prop)
    `{HdP : !forall x, Decision (P x), HdQ : !forall x, Decision (Q x)} (l : list A) :
  (forall x, Q x <-> P (f x)) -> first_where P (f <$> l) = f <$> first_where Q l.
Proof.
  intros H. unfold first_where. induction l as [|a l IH]; [done|]. rewrite fmap_cons, !filter_cons. specialize (H a).
  case_decide as H1; case_decide as H2; tauto.
Qed.

Lemma generation_key A generation g : generation_of A generation g <-> gkey (gview g) = (A, generation).
Proof. unfold generation_of, gkey. cbn. split; [by intros [-> ->]|by intros [= -> ->]]. Qed.

Lemma old_size_bytes A generation d :
  old_size A generation d = old_bytes A generation (gview <$> generation_reservations d).
Proof.
  unfold old_size, old_bytes.
  rewrite (first_where_fmap gview _ (generation_of A generation)) by (intros; apply generation_key).
  destruct (first_where _ (generation_reservations d)) as [g|] eqn:Hg; [|done]. cbn.
  apply first_where_some in Hg as (_ & HA & _). unfold counted. cbn. repeat case_decide; tauto.
Qed.

Lemma update_where_fmap {A B} (f : A -> B) (P : B -> Prop) (Q : A -> Prop)
    `{HdP : !forall x, Decision (P x), HdQ : !forall x, Decision (Q x)} (g : A -> A) (h : B -> B) (l : list A) :
  (forall x, Q x <-> P (f x)) -> (forall x, Q x -> f (g x) = h (f x)) ->
  f <$> update_where Q g l = update_where P h (f <$> l).
Proof.
  intros H Hf. unfold update_where. rewrite <- !list_fmap_compose. apply list_fmap_ext. intros _ x _. cbn.
  specialize (H x). case_decide as H1; case_decide as H2; try tauto. by apply Hf.
Qed.

Lemma upsert_view A generation size now d : gview <$> generation_reservations (upsert_generation A generation size now d)
  = set_g A generation size (gview <$> generation_reservations d).
Proof.
  unfold upsert_generation, set_g. destruct (first_where _ (generation_reservations d)) as [g|] eqn:Hg.
  - apply first_where_some in Hg as [Hg Hk]. rewrite decide_True.
    + apply update_where_fmap; [intros; apply generation_key|]. intros x [<- <-]. done.
    + apply Exists_exists. exists (gview g). split; [by apply list_elem_of_fmap_2|]. by apply generation_key.
  - rewrite decide_False; [cbn; by rewrite fmap_app|].
    intros (k & (g & -> & Hin)%list_elem_of_fmap & Hk)%Exists_exists. by eapply (first_where_none _ _ Hg), generation_key.
Qed.

Lemma old_bytes_range A generation bs gs : budget_ok bs gs -> 0 <= old_bytes A generation gs <= live_bytes A gs.
Proof.
  intros Ho. unfold old_bytes. destruct (first_where _ gs) as [g|] eqn:Hg.
  - apply first_where_some in Hg as [Hg _]. split; [by apply counted_nonneg, (bo_sizes _ _ Ho)|by eapply counted_le].
  - split; [done|]. by eapply live_bytes_nonneg.
Qed.

Lemma upsert_budgets A generation size now d :
  artifact_budgets (upsert_generation A generation size now d) = artifact_budgets d.
Proof. unfold upsert_generation. by destruct (first_where _ _). Qed.

(** ** The system *)
Section artifact_system.
Context (MarshalStatus : JobStatus -> list ascii) (MarshalRequest : BuildRequest -> list ascii)
        (uuid_Parse : string -> bool).

(** The type of the column and its check. *)
Definition policy_ranges (d : db) : Prop :=
  forall p, p ∈ project_policies d -> 0 < pp_max_artifact_bytes_per_job p <= int64_max.

(** One committed transaction of [runtime_metadata.go] or [infra_cleanup.go];
    the size of a generation is an [int64]. *)
Inductive artifact_op : db -> db -> Prop :=
| ao_infra newID status record clk d d' : RecordInfra uuid_Parse newID status record clk d = Ok d' -> artifact_op d d'
| ao_artifacts newID status records clk d d' :
    RecordArtifacts uuid_Parse newID status records clk d = Ok d' -> artifact_op d d'
| ao_budget status clk b d d' : policy_ranges d -> ReadArtifactBudget uuid_Parse status clk d = Ok (b, d') -> artifact_op d d'
| ao_resize status generation sizeBytes clk b d d' : policy_ranges d -> sizeBytes <= int64_max ->
    SetArtifactGenerationBytes uuid_Parse status generation sizeBytes clk d = Ok (b, d') -> artifact_op d d'
| ao_drop status generation reason clk d d' :
    ReleaseArtifactGeneration uuid_Parse status generation reason clk d = Ok d' -> artifact_op d d'
| ao_release status reason clk local d d' :
    ReleaseArtifactBudget uuid_Parse status reason clk local d = Ok d' -> artifact_op d d'
| ao_reconcile newID inventory clk r d d' : ReconcileArtifacts newID inventory clk d = Ok (r, d') -> artifact_op d d'
| ao_cleanup owner lease locked clk c d d' : ClaimInfraCleanup owner lease locked clk d = Ok (c, d') -> artifact_op d d'
| ao_destroyed id owner fence now d d' : CompleteInfraCleanup id owner fence now d = Ok d' -> artifact_op d d'
| ao_destroy_failed id owner fence detail now d d' :
    FailInfraCleanup id owner fence detail now d = Ok d' -> artifact_op d d'.

Inductive artifact_step : db -> db -> Prop :=
| at_job d d' : job_op MarshalStatus MarshalRequest uuid_Parse d d' -> artifact_step d d'
| at_artifact d d' : artifact_op d d' -> artifact_step d d'
| at_other d d' : elsewhere d d' -> artifact_view d' = artifact_view d ->
    infra_instances d' = infra_instances d -> artifact_step d d'.

Definition artifact_initial (d : db) : Prop :=
  initial d /\ artifact_view d = ([], []) /\ infra_instances d = [].
Definition artifact_reachable (d : db) : Prop := exists d0, artifact_initial d0 /\ rtc artifact_step d0 d.

(** *** Its invariant *)
Record artifact_inv (d : db) : Prop := {
  ai_budgets : budget_ok (bview <$> artifact_budgets d) (gview <$> generation_reservations d);
  ai_attempts : forall b, b ∈ artifact_budgets d ->
    (ab_attempt_id b, ab_job_id b) ∈ (fun a => (ak_id a, ak_job a)) <$> f_attempts (view d);
  ai_live : forall b, b ∈ artifact_budgets d -> ab_state b = Live -> leased (ab_attempt_id b) d
}.

Lemma artifact_inv_refs d : artifact_inv d -> artifact_refs d.
Proof.
  intros [Ho Ha _]. split.
  - pose proof (bo_ids _ _ Ho) as H. by rewrite <- list_fmap_compose in H.
  - intros b Hb. specialize (Ha b Hb). apply list_elem_of_fmap in Ha as (k & Hk & Hin).
    cbn in Hin. apply list_elem_of_fmap in Hin as (a & -> & Hain). exists a. cbn in Hk. injection Hk as -> ->. done.
  - intros g Hg. destruct (bo_of _ _ Ho (gview g)) as (k & Hk & Hbg); [by apply list_elem_of_fmap_2|].
    apply list_elem_of_fmap in Hk as (b & -> & Hb). eauto.
Qed.

Lemma bview_elem k d : k ∈ bview <$> artifact_budgets d -> exists b, b ∈ artifact_budgets d /\ k = bview b.
Proof. intros (b & -> & Hb)%list_elem_of_fmap. eauto. Qed.

(** A release keeps the invariant. *)
Lemma releases_inv d d' : artifact_inv d -> (forall a, a ∈ f_attempts (view d) -> a ∈ f_attempts (view d')) ->
  releases d d' -> artifact_inv d'.
Proof.
  intros [Ho Ha Hl] Hsub (ids & Hv & Hids). unfold artifact_view, release_view in Hv. cbn in Hv.
  injection Hv as HB HG. assert (forall b', b' ∈ artifact_budgets d' -> exists b, b ∈ artifact_budgets d /\
    bview b' = release_b ids (bview b)) as Hback.
  { intros b' Hb'. apply (list_elem_of_fmap_2 bview) in Hb'. rewrite HB in Hb'.
    apply list_elem_of_fmap in Hb' as (k & Hk & (b & Hb & ->)%bview_elem). eauto. }
  split.
  - rewrite HB, HG. by apply release_ok.
  - intros b' Hb'. destruct (Hback b' Hb') as (b & Hb & Hk). specialize (Ha b Hb).
    apply list_elem_of_fmap in Ha as (a & Hak & Hain). apply list_elem_of_fmap. exists a. split; [|auto].
    rewrite <- Hak. revert Hk. unfold release_b, bview. cbn. case_decide; intros [=]; congruence.
  - intros b' Hb' Hst. destruct (Hback b' Hb') as (b & Hb & Hk). revert Hk. unfold release_b, bview. cbn.
    case_decide as Hd; intros [= HA HJ HL HAc HP HS]; [congruence|]. rewrite HA.
    assert (leased (ab_attempt_id b) d) as Hlb by (apply Hl; congruence).
    destruct (decide (Exists (fun l => wl_attempt_id l = ab_attempt_id b) (worker_leases d'))) as [He|He].
    + apply Exists_exists in He as (l & ? & ?). by exists l.
    + destruct Hd. split; [|congruence]. apply Hids; [done|]. intros (l & ? & ?). apply He, Exists_exists. eauto.
Qed.

(** *** The operations *)
Lemma fence_leased status now J A d : validateMetadataFence uuid_Parse status false now d = Ok (J, A) ->
  (A, J) ∈ (fun a => (ak_id a, ak_job a)) <$> f_attempts (view d) /\ leased A d.
Proof.
  intros H. unfold validateMetadataFence in H. inv_ok H. simplify_eq.
  apply Exists_exists in Hc2 as (a & Ha & <- & HJ & _ & Hj). apply Exists_exists in Hj as (j & _ & _ & [Hl|[? _]]); [|done].
  apply Exists_exists in Hl as (l & Hl & Hla & _). rewrite <- HJ. split; [|by exists l].
  apply list_elem_of_fmap. exists (akey a). split; [done|]. by apply list_elem_of_fmap_2.
Qed.

Lemma fencing_ok {A} (r : result job_error A) a : fencing r = Ok a -> r = Ok a.
Proof. destruct r; [|done]. by intros [= ->]. Qed.

Lemma fencing_error {A} (r : result job_error A) e : fencing r = Err e -> exists e', e = FenceFailure e'.
Proof. destruct r as [|e']; [done|]. intros [= <-]. by exists e'. Qed.

(** Only the tables of the budget changed. *)
Definition budgeting (d d' : db) : Prop :=
  elsewhere d d' /\ infra_instances d' = infra_instances d.

Lemma budgeting_trans x y z : budgeting x y -> budgeting y z -> budgeting x z.
Proof. intros [(H1 & H2 & H3 & H4 & H5 & H6) H] [(G1 & G2 & G3 & G4 & G5 & G6) G]. split; [split_and!|]; congruence. Qed.

Lemma ensure_ok J A now b d d' : artifact_inv d -> policy_ranges d ->
  (A, J) ∈ (fun a => (ak_id a, ak_job a)) <$> f_attempts (view d) -> leased A d ->
  ensureArtifactBudget J A now d = Ok (b, d') ->
  artifact_inv d' /\ budgeting d d' /\ exists x, x ∈ artifact_budgets d' /\ ab_attempt_id x = A /\ ab_state x = Live /\
    b = mkBudget (ab_limit_bytes x) (ab_active_bytes x) (ab_peak_bytes x).
Proof.
  intros Hi Hr HA Hl H. unfold ensureArtifactBudget in H. cbv zeta in H.
  set (d1 := match first_where _ (artifact_budgets d) with Some _ => d | None => _ end) in H.
  assert (artifact_inv d1 /\ budgeting d d1) as [Hi1 Hb1].
  { unfold d1. destruct (first_where _ (artifact_budgets d)) as [x|] eqn:Hf; [done|]. unfold new_budget.
    assert (d <| artifact_budgets := artifact_budgets d ++ [] |> = d) as Hid by (destruct d; cbn; by rewrite app_nil_r).
    case_decide as Hex; [|by rewrite Hid]. destruct (first_where _ (build_jobs d)) as [j|]; [|by rewrite Hid].
    destruct (first_where _ (project_policies d)) as [p|] eqn:Hp; [|by rewrite Hid]. clear Hid.
    apply first_where_some in Hp as [Hp _]. pose proof (Hr p Hp) as Hlim. split; [|done].
    destruct Hi as [Ho Ha Hlv]. split.
    - cbn. rewrite fmap_app. apply insert_budget_ok; try done; cbn; [|lia].
      rewrite <- list_fmap_compose. intros (x & Hx & Hin)%list_elem_of_fmap. by eapply (first_where_none _ _ Hf).
    - intros x [Hx|Hx%list_elem_of_singleton]%elem_of_app; [by apply Ha|]. subst x. done.
    - intros x [Hx|Hx%list_elem_of_singleton]%elem_of_app; [by apply Hlv|]. subst x. done. }
  clearbody d1. destruct (first_where _ (artifact_budgets d1)) as [x|] eqn:Hx; [|done]. inv_ok_step H. injection H as <- <-.
  apply first_where_some in Hx as [Hx HxA]. eauto 10.
Qed.

Lemma ensure_shape J A now d : exists d1, generation_reservations d1 = generation_reservations d /\
  ensureArtifactBudget J A now d =
  match first_where (fun b => ab_attempt_id b = A) (artifact_budgets d1) with
  | None => Err BudgetUnreadable
  | Some b => check ab_state b = Live else BudgetReleased;;
      Ok (mkBudget (ab_limit_bytes b) (ab_active_bytes b) (ab_peak_bytes b), d1)
  end.
Proof. eexists. split; [|reflexivity]. by destruct (first_where _ (artifact_budgets d)). Qed.

Lemma ensure_error J A now d e : ensureArtifactBudget J A now d = Err e -> e = BudgetUnreadable \/ e = BudgetReleased.
Proof.
  destruct (ensure_shape J A now d) as (d1 & _ & ->). destruct (first_where _ _) as [b|]; [|intros [= <-]; auto].
  case_decide; [done|intros [= <-]; auto].
Qed.

Lemma ensure_generations J A now d b d' : ensureArtifactBudget J A now d = Ok (b, d') ->
  generation_reservations d' = generation_reservations d.
Proof.
  destruct (ensure_shape J A now d) as (d1 & <- & ->). destruct (first_where _ _) as [x|]; [|done].
  case_decide; [|done]. by intros [= _ <-].
Qed.

(** What a resize does, and when it is refused. *)
Lemma resize_cases status generation size clk d :
  artifact_inv d -> policy_ranges d -> size <= int64_max ->
  let A := bs_attempt_id status in
  let used e := live_bytes A (gview <$> generation_reservations e) in
  let need := used d - old_bytes A generation (gview <$> generation_reservations d) + size in
  match SetArtifactGenerationBytes uuid_Parse status generation size clk d with
  | Ok (b, d') => artifact_inv d' /\ budgeting d d' /\ used d' = need /\ ActiveBytes b = need /\ need <= LimitBytes b
  | Err (BudgetExceeded _ _ limit) => limit < need
  | Err _ => True
  end.
Proof.
  intros Hi Hr Hs A used need. unfold SetArtifactGenerationBytes. case_decide as Hv; [|done].
  destruct (fencing _) as [[J A']|] eqn:Hf; [|by apply fencing_error in Hf as [? ->]].
  apply fencing_ok in Hf. assert (A' = A) as -> by (unfold validateMetadataFence in Hf; by inv_ok Hf).
  apply fence_leased in Hf as [HA Hl].
  destruct (ensureArtifactBudget _ _ _ _) as [[b1 d1]|e] eqn:He; [|by apply ensure_error in He as [->| ->]].
  destruct (ensure_ok _ _ _ _ _ _ Hi Hr HA Hl He) as (Hi1 & Hb1 & x & Hx & HxA & HxL & ->).
  apply ensure_generations in He. pose proof (ai_budgets _ Hi1) as Ho.
  assert (bview x ∈ bview <$> artifact_budgets d1) as Hbx by (by apply list_elem_of_fmap_2).
  pose proof (bo_bounds _ _ Ho _ Hbx) as Hbound. pose proof (bo_exact _ _ Ho _ Hbx) as Hex. cbn in Hbound, Hex.
  pose proof (old_bytes_range A generation _ _ Ho) as Hold. rewrite old_size_bytes. rewrite HxA in Hex.
  assert (need = ab_active_bytes x - old_bytes A generation (gview <$> generation_reservations d1) + size) as Hneed.
  { unfold need, used. rewrite Hex, He. done. }
  cbn [LimitBytes ActiveBytes]. rewrite (int64_id (_ - _)) by (unfold int64_min; lia).
  assert (0 <= size) by lia.
  set (base := ab_active_bytes x - _) in *. pose proof (int64_sum base size (ab_limit_bytes x)) as Hsum.
  case_decide as Hcap; [|rewrite Hneed; apply Hsum; [lia..|tauto]].
  assert (base + size <= ab_limit_bytes x) as Hle by (apply Z.nlt_ge; intros ?; apply Hcap, Hsum; lia).
  rewrite (int64_id (base + size)) by (unfold int64_min; lia). rewrite <- Hneed.
  set (d2 := upsert_generation A generation size (clk 2%nat) d1).
  set (d3 := d2 <| artifact_budgets := _ |>).
  assert (artifact_view d3 = (set_b A need (bview <$> artifact_budgets d1),
                              set_g A generation size (gview <$> generation_reservations d1))) as Hview.
  { unfold artifact_view. f_equal; [|apply upsert_view]. unfold set_b. cbn. unfold d2. rewrite upsert_budgets.
    by apply update_where_fmap. }
  assert (budgeting d1 d3) as Hb3 by (unfold d3, d2, upsert_generation; by destruct (first_where _ _)).
  assert (artifact_budgets d3 = update_where (live_budget A)
     (fun b => b <| ab_active_bytes := need |> <| ab_peak_bytes := Z.max (ab_peak_bytes b) need |>
                 <| ab_updated_at := clk 3%nat |>) (artifact_budgets d1)) as HB3.
  { unfold d3. cbn. unfold d2. by rewrite upsert_budgets. }
  rewrite HB3, first_where_update by done. clearbody d3. unfold artifact_view in Hview. injection Hview as HV1 HV2.
  destruct (first_where (live_budget A) (artifact_budgets d1)) as [y|] eqn:Hy; [|by destruct (first_where_none _ _ Hy x)].
  apply first_where_some in Hy as (Hyin & HyA & HyL). cbn.
  assert (y = x) as -> by (apply (key_unique ab_attempt_id (artifact_budgets d1)); [apply (artifact_inv_refs d1 Hi1)|done|done|congruence]).
  split_and!; [|by eapply budgeting_trans| |done|lia].
  - split.
    + rewrite HV1, HV2. eapply (set_ok A generation size need (bview x)); [done|done|done|done|lia| |cbn; lia].
      rewrite <- Hex. unfold base in Hneed. lia.
    + intros z. rewrite HB3. intros (w & Hw & [[_ ->]|[_ ->]])%elem_of_update_where; cbn;
        apply (ai_attempts d1 Hi1) in Hw; by destruct Hb3 as [(_ & -> & _) _].
    + intros z. rewrite HB3. destruct Hb3 as [(_ & _ & HL & _) _]. unfold leased. rewrite HL.
      intros (w & Hw & [[[_ Hst] ->]|[_ ->]])%elem_of_update_where; cbn; intros; by apply (ai_live d1 Hi1).
  - unfold used. rewrite HV2, (live_bytes_set _ _ _ _ _ _ Ho), decide_True by done. rewrite <- Hex. unfold base in Hneed. lia.
Qed.

Lemma same_inv d d' : artifact_inv d -> elsewhere d d' -> artifact_view d' = artifact_view d -> artifact_inv d'.
Proof.
  intros Hi (_ & Ha & Hl & _) Hv. apply (releases_inv d); [done| |].
  - unfold view. cbn. by rewrite Ha.
  - apply releases_same; [done|]. unfold leased. by rewrite Hl.
Qed.

Lemma drop_inv status generation reason clk d d' : artifact_inv d ->
  ReleaseArtifactGeneration uuid_Parse status generation reason clk d = Ok d' -> artifact_inv d' /\ budgeting d d'.
Proof.
  intros Hi H. unfold ReleaseArtifactGeneration in H. destruct (fencing _) as [[J A]|]; [|done].
  destruct (first_where _ (artifact_budgets d)) as [b|]; [|by injection H as <-]. case_decide; [by injection H as <-|].
  destruct (first_where _ (generation_reservations d)) as [g|] eqn:Hg; [|by injection H as <-]. injection H as <-.
  apply first_where_some in Hg as (Hg & Hk & Hst). split; [|done]. split.
  - cbn. erewrite (update_where_fmap bview), (update_where_fmap gview).
    + eapply (drop_ok A generation (gview g)); [apply Hi|by apply list_elem_of_fmap_2|by apply generation_key|done].
    + intros x. cbn. rewrite generation_key. done.
    + done.
    + done.
    + done.
  - intros x (w & Hw & [[_ ->]|[_ ->]])%elem_of_update_where; by apply (ai_attempts d Hi) in Hw.
  - intros x (w & Hw & [[[_ Hs] ->]|[_ ->]])%elem_of_update_where; cbn; intros; by apply (ai_live d Hi) in Hw.
Qed.

Lemma release_inv status reason clk local d d' : artifact_inv d ->
  ReleaseArtifactBudget uuid_Parse status reason clk local d = Ok d' -> artifact_inv d' /\ budgeting d d'.
Proof.
  intros Hi H. unfold ReleaseArtifactBudget in H. destruct (fencing _) as [[J A]|]; [|done].
  destruct (first_where _ (artifact_budgets d)) as [b|]; [|by injection H as <-]. case_decide; [by injection H as <-|].
  injection H as <-. split; [|done]. apply (releases_inv d); [done|done|].
  exists [A]. split; [apply release_rows|]. intros id Hl Hn. by destruct Hn.
Qed.

(** *** Statements on the artifacts alone *)
Definition artifacts_only (d d' : db) : Prop := exists l, d' = d <| artifacts := l |>.

#[local] Instance artifacts_only_preorder : PreOrder artifacts_only.
Proof.
  split; [intros d; exists (artifacts d); by destruct d|]. intros x y z [l ->] [l' ->]. by exists l'.
Qed.

Lemma artifacts_only_frame d d' : artifacts_only d d' ->
  elsewhere d d' /\ artifact_view d' = artifact_view d /\ infra_instances d' = infra_instances d.
Proof. by intros [l ->]. Qed.

Lemma record_all_only records newID jobID attemptID clk : forall k d d',
  record_all k newID jobID attemptID records clk d = Ok d' -> artifacts_only d d'.
Proof.
  induction records as [|record records IH]; intros k d d' H; cbn [record_all] in H; [by injection H as <-|].
  inv_ok_step H. apply IH in H. etrans; [|exact H]. unfold record_artifact in E. inv_ok_step E. cbv zeta in E.
  destruct (first_where _ (artifacts d)); inv_ok E; subst a; by eexists.
Qed.

Lemma expected_only durable : forall k clk av r d av' r' d',
  reconcileExpectedArtifacts durable k clk (av, r, d) = (av', r', d') -> artifacts_only d d'.
Proof.
  induction durable as [|e durable IH]; intros k clk av r d av' r' d' H; cbn [reconcileExpectedArtifacts] in H;
    [by simplify_eq|]. case_decide; apply IH in H; [done|]. etrans; [|exact H]. by eexists.
Qed.

Lemma orphans_only orphans : forall av r d av' r' d',
  reconcileKnownOrphans orphans (av, r, d) = (av', r', d') -> artifacts_only d d'.
Proof.
  induction orphans as [|o orphans IH]; intros av r d av' r' d' H; cbn [reconcileKnownOrphans] in H; [by simplify_eq|].
  destruct (orphan_matches _ _); apply IH in H; [done|]. etrans; [|exact H]. by eexists.
Qed.

Lemma new_orphans_only newID items clk : forall k r d r' d',
  recordNewOrphans newID items k clk r d = Ok (r', d') -> artifacts_only d d'.
Proof.
  induction items as [|item items IH]; intros k r d r' d' H; cbn [recordNewOrphans] in H; [by simplify_eq|].
  do 2 (case_decide; [by apply IH in H|]). inv_ok_step H. apply IH in H. etrans; [|exact H]. by eexists.
Qed.

Lemma reconcile_only newID inventory clk r d d' : ReconcileArtifacts newID inventory clk d = Ok (r, d') -> artifacts_only d d'.
Proof.
  intros H. unfold ReconcileArtifacts in H. destruct (reconcileExpectedArtifacts _ _ _ _) as [[av1 r1] d1] eqn:H1.
  destruct (reconcileKnownOrphans _ _) as [[av2 r2] d2] eqn:H2.
  etrans; [by eapply expected_only|]. etrans; [by eapply orphans_only|]. by eapply new_orphans_only.
Qed.

(** *** Provider resources: a cleanup fence never falls *)
Definition infra_le (i i' : infra_instance) : Prop :=
  inf_id i' = inf_id i /\ inf_cleanup_fence i <= inf_cleanup_fence i'.
#[local] Instance infra_le_preorder : PreOrder infra_le.
Proof. split; [by split|]. intros x y z [] []. split; [congruence|lia]. Qed.

Definition infra_moves (d d' : db) : Prop :=
  rows_evolve infra_le (fun i => inf_id i ∉ inf_id <$> infra_instances d) (infra_instances d) (infra_instances d').

Lemma infra_same d d' : infra_instances d' = infra_instances d -> infra_moves d d'.
Proof. intros H. unfold infra_moves. rewrite H. apply rows_evolve_refl, _. Qed.

Lemma record_infra_moves newID status record clk d d' : RecordInfra uuid_Parse newID status record clk d = Ok d' ->
  infra_moves d d' /\ elsewhere d d' /\ artifact_view d' = artifact_view d.
Proof.
  intros H. unfold RecordInfra in H. inv_ok_step H. destruct (fencing _) as [[J A]|]; [|done]. cbv zeta in H.
  destruct (first_where _ (infra_instances d)) as [i|]; inv_ok H; subst d'; (split; [|done]); unfold infra_moves; cbn.
  - apply rows_evolve_update; [apply _|]. intros x _ _. split; [done|cbn; lia].
  - apply rows_evolve_insert; [apply _|]. cbn. intros (i & -> & Hi)%list_elem_of_fmap. apply Hc0, Exists_exists. eauto.
Qed.

Lemma cleanup_moves owner lease locked clk c d d' : ClaimInfraCleanup owner lease locked clk d = Ok (c, d') ->
  infra_moves d d' /\ elsewhere d d' /\ artifact_view d' = artifact_view d.
Proof.
  intros H. unfold ClaimInfraCleanup in H. do 2 inv_ok_step H. cbv zeta in H.
  destruct (pick _ _) as [i|]; injection H as _ <-; [|split; [by apply infra_same|done]].
  split; [|done]. apply rows_evolve_update; [apply _|]. intros x _ _. split; [done|cbn; lia].
Qed.

Lemma complete_cleanup_moves id owner fence now d d' : CompleteInfraCleanup id owner fence now d = Ok d' ->
  infra_moves d d' /\ elsewhere d d' /\ artifact_view d' = artifact_view d.
Proof.
  intros H. unfold CompleteInfraCleanup in H. inv_ok H. subst d'. split; [|done].
  apply rows_evolve_update; [apply _|]. intros x _ _. split; [done|cbn; lia].
Qed.

Lemma fail_cleanup_moves id owner fence detail now d d' : FailInfraCleanup id owner fence detail now d = Ok d' ->
  infra_moves d d' /\ elsewhere d d' /\ artifact_view d' = artifact_view d.
Proof.
  intros H. unfold FailInfraCleanup in H. cbv zeta in H. inv_ok H. subst d'. split; [|done].
  apply rows_evolve_update; [apply _|]. intros x _ _. split; [done|cbn; lia].
Qed.

(** *** Every step *)
Lemma artifact_op_inv d d' : artifact_inv d -> artifact_op d d' ->
  artifact_inv d' /\ elsewhere d d' /\ infra_moves d d'.
Proof.
  intros Hi Hop. assert (forall d d', artifact_inv d -> artifacts_only d d' ->
    artifact_inv d' /\ elsewhere d d' /\ infra_moves d d') as Honly.
  { intros x y Hx (He & Hv & Hf)%artifacts_only_frame. split_and!; [by eapply same_inv|done|by apply infra_same]. }
  assert (forall d d', artifact_inv d -> infra_moves d d' /\ elsewhere d d' /\ artifact_view d' = artifact_view d ->
    artifact_inv d' /\ elsewhere d d' /\ infra_moves d d') as Hinfra.
  { intros x y Hx (Hm & He & Hv). split_and!; [by eapply same_inv|done|done]. }
  assert (forall d d', artifact_inv d' /\ budgeting d d' -> artifact_inv d' /\ elsewhere d d' /\ infra_moves d d') as Hbudget.
  { intros x y (Hx & He & Hf). split_and!; [done|done|by apply infra_same]. }
  destruct Hop as [newID status record clk d d' H|newID status records clk d d' H|status clk b d d' Hr H
    |status generation sizeBytes clk b d d' Hr Hs H|status generation reason clk d d' H|status reason clk local d d' H
    |newID inventory clk r d d' H|owner lease locked clk c d d' H|id owner fence now d d' H|id owner fence detail now d d' H].
  - by eapply Hinfra, record_infra_moves.
  - unfold RecordArtifacts in H. inv_ok_step H. destruct (fencing _) as [[J A]|]; [|done]. by eapply Honly, record_all_only.
  - unfold ReadArtifactBudget in H. destruct (fencing _) as [[J A]|] eqn:Hf; [|done].
    apply fencing_ok, fence_leased in Hf as [HA Hl]. apply Hbudget. by apply (ensure_ok J A (clk 1%nat) b) in H as (? & ? & _).
  - pose proof (resize_cases status generation sizeBytes clk d Hi Hr Hs) as Hc. cbv zeta in Hc. rewrite H in Hc.
    apply Hbudget. by destruct Hc as (? & ? & _).
  - by eapply Hbudget, drop_inv.
  - by eapply Hbudget, release_inv.
  - by eapply Honly, reconcile_only.
  - by eapply Hinfra, cleanup_moves.
  - by eapply Hinfra, complete_cleanup_moves.
  - by eapply Hinfra, fail_cleanup_moves.
Qed.

Record artifact_full (d : db) : Prop := {
  ax_job : job_inv d;
  ax_artifact : artifact_inv d;
  ax_infra : NoDup (inf_id <$> infra_instances d)
}.

Lemma artifact_step_full d d' : artifact_full d -> artifact_step d d' -> artifact_full d' /\ infra_moves d d'.
Proof.
  intros [Hj Hi Hn] Hs. assert (job_step MarshalStatus MarshalRequest uuid_Parse d d') as Hjs.
  { destruct Hs as [d d' H|d d' H|d d' H]; [by apply js_op| |by apply js_other].
    by apply js_other, (artifact_op_inv d d' Hi H). }
  pose proof (job_step_implements _ _ _ d d' Hj Hjs) as Him.
  assert (artifact_inv d' /\ infra_moves d d') as [Hi' Hm].
  { destruct Hs as [d d' H|d d' H|d d' H Hv Hf].
    - split.
      + apply (releases_inv d); [done| |by eapply job_op_releases, H; [|apply artifact_inv_refs]].
        intros a. destruct Him as [Hsteps _]. induction Hsteps as [|x y z Hxy _ IH]; [done|].
        intros Ha. by apply IH, (fence_step_attempts x).
      + apply infra_same. pose proof (job_op_side _ _ _ d d' Hj H) as [= Hside _ _]. done.
    - by destruct (artifact_op_inv d d' Hi H) as (? & _ & ?).
    - split; [by eapply same_inv|by apply infra_same]. }
  split; [|done]. split; [by eapply implements_inv|done|].
  eapply rows_evolve_key; [exact Hm|by intros x y []|done|done].
Qed.

Lemma artifact_steps_full d d' : artifact_full d -> rtc artifact_step d d' -> artifact_full d'.
Proof. intros Hf Hr. induction Hr as [|x y z Hs _ IH]; [done|]. apply IH. by eapply artifact_step_full. Qed.

Lemma artifact_reachable_full d : artifact_reachable d -> artifact_full d.
Proof.
  intros (d0 & (Hinit & Hv & Hn) & Hr). eapply artifact_steps_full; [|exact Hr].
  unfold artifact_view in Hv. injection Hv as HB HG.
  assert (artifact_budgets d0 = []) as HB0 by (by destruct (artifact_budgets d0)).
  split; [by apply initial_inv| |rewrite Hn; apply NoDup_nil_2]. split; [|rewrite HB0; by intros b ?%elem_of_nil..].
  rewrite HB, HG. split; try apply NoDup_nil_2; by intros ? ?%elem_of_nil || by intros ? ? ?%elem_of_nil.
Qed.
End artifact_system.
