(* ===== verification/ArtifactSafety.v ===== *)
(** * What the artifact records promise

    Theorems about the budget of retained artifacts, the comparison with the
    files of the binhost and the reclamation of infrastructure, over the steps
    of [ArtifactSystem]. *)

From S2P Require Import Prelude GoStrings GoJson Schema Capabilities CapacityLedger Budgets Fairness.
From S2P Require Import JobLedger Scheduler PhaseWork RuntimeMetadata Fencing PhasePlan JobSystem JobSafety JobHistory.
From S2P Require Import GatewayRows ArtifactRows LeaseRuntime ArtifactSystem.
From Stdlib Require Import Ascii.
Open Scope string_scope.
Open Scope list_scope.
Open Scope Z_scope.

#[local] Arguments update_where : simpl never.

(** What the attempt [A] retains. *)
Definition retained (A : uuid) (d : db) : Z :=
  sum_by gr_size_bytes (filter (fun g => gr_attempt_id g = A /\ gr_state g = Live) (generation_reservations d)).

Lemma retained_bytes A d : retained A d = live_bytes A (gview <$> generation_reservations d).
Proof.
  unfold retained, live_bytes. induction (generation_reservations d) as [|g l IH]; [done|].
  rewrite filter_cons, fmap_cons. unfold sum_by in *. cbn [foldr]. rewrite <- IH. unfold counted. cbn.
  case_decide; cbn; lia.
Qed.

(** ** Reconciliation, row by row *)

(** The columns a reconciliation never changes. *)
Definition artifact_fixed (a : artifact) : uuid * string * Z * string :=
  (af_id a, af_digest a, af_size_bytes a, af_location a).

Lemma expected_other durable : forall k clk av r d av' r' d' x,
  reconcileExpectedArtifacts durable k clk (av, r, d) = (av', r', d') ->
  x ∈ artifacts d -> af_id x ∉ af_id <$> durable -> x ∈ artifacts d'.
Proof.
  induction durable as [|e durable IH]; intros k clk av r d av' r' d' x H Hx Hn; cbn [reconcileExpectedArtifacts] in H;
    [by simplify_eq|]. rewrite fmap_cons, not_elem_of_cons in Hn. destruct Hn as [Hne Hn].
  case_decide; eapply IH; try exact H; try done. cbn. apply elem_of_update_where. exists x. auto.
Qed.

Definition file_left (earlier : list artifact) (av : gmap string ArtifactInventory) (location : string)
    : option ArtifactInventory :=
  if decide (Exists (fun e => af_location e = location) earlier) then None else av !! location.

Definition reconciled_state (a : artifact) (file : option ArtifactInventory) : string :=
  if decide (af_state a = "staged" /\ file = None) then "staged" else expected_state a file.

Lemma file_left_nil av location : file_left [] av location = av !! location.
Proof. unfold file_left. rewrite decide_False; [done|]. by intros ?%Exists_nil. Qed.

Lemma file_left_cons e earlier av location :
  file_left (e :: earlier) av location = file_left earlier (delete (af_location e) av) location.
Proof.
  unfold file_left. destruct (decide (af_location e = location)) as [<-|Hne].
  - rewrite decide_True by (by apply Exists_cons_hd). case_decide; [done|]. by rewrite lookup_delete_eq.
  - rewrite lookup_delete_ne by done. case_decide as H1; case_decide as H2; try done; exfalso.
    + apply Exists_cons in H1 as [?|?]; tauto.
    + by apply H1, Exists_cons_tl.
Qed.

Lemma expected_row durable : forall k clk av r d av' r' d' i a,
  reconcileExpectedArtifacts durable k clk (av, r, d) = (av', r', d') -> NoDup (af_id <$> durable) ->
  durable !! i = Some a -> (forall a, a ∈ durable -> a ∈ artifacts d) ->
  exists a', a' ∈ artifacts d' /\ artifact_fixed a' = artifact_fixed a /\
    af_state a' = reconciled_state a (file_left (take i durable) av (af_location a)).
Proof.
  induction durable as [|e durable IH]; intros k clk av r d av' r' d' i a H Hnd Hi Hin; [done|].
  rewrite fmap_cons in Hnd. apply NoDup_cons in Hnd as [He Hnd]. cbn [reconcileExpectedArtifacts] in H.
  assert (e ∈ artifacts d) as Hed by (apply Hin; set_solver).
  destruct i as [|i]; cbn in Hi.
  - injection Hi as ->. cbn [take]. rewrite file_left_nil. unfold reconciled_state. revert H.
    destruct (decide (af_state a = "staged" /\ av !! af_location a = None)) as [Hs|Hs]; intros H.
    + exists a. split_and!; [by eapply expected_other|done|tauto].
    + exists (set_artifact_state (expected_state a (av !! af_location a)) (clk k) a). split_and!; [|done|done].
      eapply expected_other; [exact H| |done]. cbn. apply elem_of_update_where. exists a. auto.
  - cbn [take]. rewrite file_left_cons. case_decide as Hs.
    + rewrite (delete_id av) by tauto. eapply IH; [exact H|done|done|]. intros x Hx. apply Hin. set_solver.
    + eapply IH; [exact H|done|done|]. intros x Hx. cbn. apply elem_of_update_where. exists x.
      split; [apply Hin; set_solver|]. right. split; [|done]. intros Heq. apply He. rewrite <- Heq. by apply list_elem_of_fmap_2.
Qed.

Lemma orphans_keep orphans : forall av r d av' r' d' x,
  reconcileKnownOrphans orphans (av, r, d) = (av', r', d') ->
  x ∈ artifacts d -> af_id x ∉ af_id <$> orphans -> x ∈ artifacts d'.
Proof.
  induction orphans as [|o orphans IH]; intros av r d av' r' d' x H Hx Hn; cbn [reconcileKnownOrphans] in H; [by simplify_eq|].
  rewrite fmap_cons, not_elem_of_cons in Hn. destruct Hn as [Hne Hn].
  destruct (orphan_matches _ _); eapply IH; try exact H; try done. cbn. apply elem_of_delete_where. auto.
Qed.

Lemma new_orphans_keep newID items clk : forall k r d r' d' x,
  recordNewOrphans newID items k clk r d = Ok (r', d') -> x ∈ artifacts d -> x ∈ artifacts d'.
Proof.
  induction items as [|item items IH]; intros k r d r' d' x H Hx; cbn [recordNewOrphans] in H; [by simplify_eq|].
  do 2 (case_decide; [by eapply IH|]). inv_ok_step H. eapply IH; [exact H|]. cbn. set_solver.
Qed.

Lemma expected_ids durable : forall k clk av r d av' r' d',
  reconcileExpectedArtifacts durable k clk (av, r, d) = (av', r', d') -> af_id <$> artifacts d' = af_id <$> artifacts d.
Proof.
  induction durable as [|e durable IH]; intros k clk av r d av' r' d' H; cbn [reconcileExpectedArtifacts] in H;
    [by simplify_eq|]. case_decide; rewrite (IH _ _ _ _ _ _ _ _ H); [done|]. cbn. by apply update_where_map.
Qed.

Lemma reconciled_not_orphaned a file : reconciled_state a file <> "orphaned".
Proof. unfold reconciled_state, expected_state. case_decide; [done|]. destruct file; [case_decide|]; done. Qed.

(** C39. Reconciliation gives every recorded artifact the state its file gives
    it: going through the durable rows in order, promoted ones first, the row
    at position [i] keeps its identity, digest, size and location, and it ends
    published when the file at its location has its digest and size, corrupt
    when the file differs, missing when there is none; a staged row without a
    file stays staged.  A file is compared with the first row of its location
    only. *)
Theorem reconcile_follows_files (newID : string -> uuid) (inventory : list ArtifactInventory) (clk : clock)
    (d d' : db) (r : ArtifactReconcileReport) (i : nat) (a : artifact) (Hids : NoDup (af_id <$> artifacts d))
    (H : ReconcileArtifacts newID inventory clk d = Ok (r, d'))
    (Hi : loadReconcileArtifacts false d !! i = Some a) :
  let earlier := take i (loadReconcileArtifacts false d) in
  exists a', a' ∈ artifacts d' /\ artifact_fixed a' = artifact_fixed a /\
    af_state a' = reconciled_state a (file_left earlier (available_files inventory) (af_location a)).
Proof.
  unfold ReconcileArtifacts in H. destruct (reconcileExpectedArtifacts _ _ _ _) as [[av1 r1] d1] eqn:H1.
  destruct (reconcileKnownOrphans _ _) as [[av2 r2] d2] eqn:H2. intros earlier.
  destruct (expected_row _ _ _ _ _ _ _ _ _ i a H1) as (a' & Ha' & Hf & Hst); [|done| |].
  - cbn. unfold loadReconcileArtifacts. rewrite sort_by_perm. eapply sublist_NoDup; [exact Hids|]. apply fmap_sublist, sublist_filter.
  - intros x Hx. apply elem_of_sort_by, list_elem_of_filter in Hx as [_ Hx]. done.
  - exists a'. split_and!; [|done|done]. eapply new_orphans_keep; [exact H|]. eapply orphans_keep; [exact H2|done|].
    intros (o & Hid & [Ho Hin]%list_elem_of_filter)%list_elem_of_fmap.
    assert (o = a') as -> by (apply (key_unique af_id (artifacts d1)); [by rewrite (expected_ids _ _ _ _ _ _ _ _ _ H1)|done..]).
    rewrite Hst in Ho. by eapply reconciled_not_orphaned.
Qed.

(** ** The budget and the cleanup, over time *)
Section artifact_safety.
Context (MarshalStatus : JobStatus -> list ascii) (MarshalRequest : BuildRequest -> list ascii)
        (uuid_Parse : string -> bool).
Notation step := (artifact_step MarshalStatus MarshalRequest uuid_Parse).
Notation reachable := (artifact_reachable MarshalStatus MarshalRequest uuid_Parse).

(** C25. The artifact budget is exact: in every reachable state an attempt has at
    most one budget, the bytes it counts are the sizes of the generations the
    attempt retains, never more than the peak, nor the peak more than the limit
    its project gave it; a live budget belongs to an attempt that holds its
    lease, and a released one retains nothing. *)
Theorem artifact_budget_exact (d : db) (b : artifact_budget) (R : reachable d) (Hb : b ∈ artifact_budgets d) :
  ab_active_bytes b = retained (ab_attempt_id b) d /\
  0 <= ab_active_bytes b <= ab_peak_bytes b /\ ab_peak_bytes b <= ab_limit_bytes b /\
  (ab_state b = Live -> exists l, l ∈ worker_leases d /\ wl_attempt_id l = ab_attempt_id b) /\
  (ab_state b = Released -> retained (ab_attempt_id b) d = 0) /\
  (forall b', b' ∈ artifact_budgets d -> ab_attempt_id b' = ab_attempt_id b -> b' = b).
Proof.
  destruct (artifact_reachable_full _ _ _ d R) as [_ Hi _]. pose proof (ai_budgets _ Hi) as Ho.
  assert (bview b ∈ bview <$> artifact_budgets d) as Hv by (by apply list_elem_of_fmap_2).
  pose proof (bo_exact _ _ Ho _ Hv) as He. pose proof (bo_bounds _ _ Ho _ Hv) as Hbd. cbn in He, Hbd.
  pose proof (live_bytes_nonneg (ab_attempt_id b) _ _ Ho) as Hn. rewrite retained_bytes.
  split_and!; [done|lia|lia|lia|exact (ai_live d Hi b Hb)| |].
  - intros Hr. apply live_bytes_zero. intros g Hg Ha. by apply (bo_released _ _ Ho (bview b) g).
  - intros b' Hb' Ha. apply (key_unique ab_attempt_id (artifact_budgets d)); [apply (artifact_inv_refs d Hi)|done..].
Qed.

(** A generation grows up to the limit and not beyond, whatever its size:
    in a reachable state the request of an attempt to retain [sizeBytes] for a
    generation (any non-negative 64-bit number) succeeds only when the bytes
    the attempt then retains are within its limit, and is refused for its size
    only when they would not be; a sum past the 64-bit range is refused, not
    wrapped into the budget. *)
Theorem resize_within_limit (d : db) (status : BuildStatus) (generation : string) (sizeBytes : Z) (clk : clock)
    (R : reachable d) (Hp : policy_ranges d) (Hs : sizeBytes <= int64_max) :
  let A := bs_attempt_id status in
  let need := retained A d - old_size A generation d + sizeBytes in
  match SetArtifactGenerationBytes uuid_Parse status generation sizeBytes clk d with
  | Ok (b, d') => retained A d' = need /\ ActiveBytes b = need /\ need <= LimitBytes b
  | Err (BudgetExceeded _ _ limit) => limit < need
  | Err _ => True
  end.
Proof.
  destruct (artifact_reachable_full _ _ _ d R) as [_ Hi _]. intros A need.
  pose proof (resize_cases uuid_Parse status generation sizeBytes clk d Hi Hp Hs) as H. cbv beta zeta in H.
  rewrite <- old_size_bytes in H. rewrite <- (retained_bytes _ d) in H. fold A need in H.
  destruct (SetArtifactGenerationBytes _ _ _ _ _ _) as [[b d']|e]; [|by destruct e].
  rewrite retained_bytes. tauto.
Qed.

(** Every row of [id] has at least the fence [f]. *)
Definition cleanup_past (id : uuid) (f : Z) (d : db) : Prop :=
  (exists i, i ∈ infra_instances d /\ inf_id i = id) /\
  forall i, i ∈ infra_instances d -> inf_id i = id -> f <= inf_cleanup_fence i.

Lemma cleanup_past_moves id f d d' : infra_moves d d' -> cleanup_past id f d -> cleanup_past id f d'.
Proof.
  intros Hm [(i & Hi & Hid) Hall]. split.
  - destruct (rows_evolve_old _ _ _ _ i Hm Hi) as (i' & Hi' & Heq & _). exists i'. split; [done|congruence].
  - intros x' Hx' Hx'id. destruct (rows_evolve_new _ _ _ _ x' Hm Hx') as [(x & Hx & Heq & Hle)|Hnew].
    + specialize (Hall x Hx ltac:(congruence)). lia.
    + destruct Hnew. rewrite Hx'id, <- Hid. by apply list_elem_of_fmap_2.
Qed.

Lemma cleanup_past_steps id f d d' : artifact_full d -> rtc step d d' -> cleanup_past id f d -> cleanup_past id f d'.
Proof.
  intros Hf Hr. induction Hr as [|x y z Hs _ IH]; [done|]. destruct (artifact_step_full _ _ _ x y Hf Hs) as [Hfy Hm].
  intros H. by apply IH, (cleanup_past_moves _ _ x).
Qed.

Lemma claim_cleanup_row owner lease locked clk c d d' : artifact_full d ->
  ClaimInfraCleanup owner lease locked clk d = Ok (Some c, d') ->
  (exists i, i ∈ infra_instances d /\ inf_id i = cl_id c /\ reclaimable (clk 0%nat) d i /\
     cl_cleanup_fence c = inf_cleanup_fence i + 1) /\ cleanup_past (cl_id c) (cl_cleanup_fence c) d'.
Proof.
  intros Hf H. unfold ClaimInfraCleanup in H. do 2 inv_ok_step H. cbv zeta in H.
  destruct (pick _ _) as [i|] eqn:Hp; [|done]. injection H as <- <-. cbn [cl_id cl_cleanup_fence].
  apply pick_elem, list_elem_of_filter in Hp as [[Hr _] Hin]. split; [by exists i|]. split.
  - eexists. split; [cbn; apply elem_of_update_where; exists i; split; [done|left; split; [done|reflexivity]]|done].
  - intros x (y & Hy & [[Hid ->]|[Hn ->]])%elem_of_update_where; [|done]. cbn. intros _.
    rewrite (key_unique inf_id (infra_instances d) y i); [lia|apply Hf|done..].
Qed.

(** Reclaiming infrastructure is fenced: a resource is given to a cleanup
    only when its attempt holds no live lease, each claim of it has a higher
    fence than all before, and once it was claimed again the earlier claim can
    neither report it destroyed nor failed, in any later state. *)
Theorem cleanup_fenced (d d1 d2 d3 d4 : db) (owner owner' : string) (lease lease' : duration)
    (locked locked' : uuid -> bool) (clk clk' : clock) (c c' : InfraCleanupClaim) (R : reachable d)
    (H1 : ClaimInfraCleanup owner lease locked clk d = Ok (Some c, d1)) (S1 : rtc step d1 d2)
    (H2 : ClaimInfraCleanup owner' lease' locked' clk' d2 = Ok (Some c', d3)) (Hid : cl_id c' = cl_id c)
    (S2 : rtc step d3 d4) :
  (exists i, i ∈ infra_instances d /\ inf_id i = cl_id c /\ forall l, l ∈ worker_leases d ->
     inf_attempt_id i = Some (wl_attempt_id l) -> wl_expires_at l <= clk 0%nat) /\
  cl_cleanup_fence c < cl_cleanup_fence c' /\
  forall o detail now, CompleteInfraCleanup (cl_id c) o (cl_cleanup_fence c) now d4 = Err CleanupStale /\
    FailInfraCleanup (cl_id c) o (cl_cleanup_fence c) detail now d4 = Err CleanupStale.
Proof.
  pose proof (artifact_reachable_full _ _ _ d R) as Hf.
  destruct (claim_cleanup_row _ _ _ _ _ _ _ Hf H1) as [(i & Hi & Hii & Hr & _) Hp1].
  assert (artifact_full d1) as Hf1.
  { eapply (artifact_step_full MarshalStatus MarshalRequest uuid_Parse d); [exact Hf|]. by eapply at_artifact, ao_cleanup. }
  pose proof (artifact_steps_full _ _ _ d1 d2 Hf1 S1) as Hf2.
  pose proof (cleanup_past_steps _ _ _ _ Hf1 S1 Hp1) as [_ Hp2].
  destruct (claim_cleanup_row _ _ _ _ _ _ _ Hf2 H2) as [(x & Hx & Hxi & _ & Hxf) Hp3].
  assert (artifact_full d3) as Hf3.
  { eapply (artifact_step_full MarshalStatus MarshalRequest uuid_Parse d2); [exact Hf2|]. by eapply at_artifact, ao_cleanup. }
  pose proof (cleanup_past_steps _ _ _ _ Hf3 S2 Hp3) as [_ Hp4].
  assert (cl_cleanup_fence c < cl_cleanup_fence c') as Hlt by (specialize (Hp2 x Hx ltac:(congruence)); lia).
  split_and!; [|done|].
  - exists i. split_and!; [done|done|]. intros l Hl Ha. destruct Hr as (_ & _ & _ & _ & _ & Hab & _). unfold abandoned in Hab.
    rewrite Ha in Hab. apply Z.nlt_ge. intros Hlive. apply Hab, Exists_exists. eauto.
  - intros o detail now. assert (count_where (cleanup_held (cl_id c) o (cl_cleanup_fence c) now) (infra_instances d4) = 0%nat) as Hz.
    { apply count_where_zero. intros y Hy (Hyi & _ & Hyf & _). specialize (Hp4 y Hy ltac:(congruence)). lia. }
    unfold CompleteInfraCleanup, FailInfraCleanup. rewrite Hz. done.
Qed.
End artifact_safety.

(** ** A run

    The attempt records a machine and retains two generations; its lease
    expires and the machine is reclaimed, twice. *)
Definition artifact_step_ex := artifact_step marshal_status_ex marshal_request_ex any_uuid.
Definition artifact_reachable_ex := artifact_reachable marshal_status_ex marshal_request_ex any_uuid.

Definition machine_ex : InfraRecord := mkInfraRecord "pve" "vm-1" "running" "states/j1" ∅ "" None None.
Definition machine_af : db := ran (RecordInfra any_uuid "n1" holder_ex machine_ex (at_time 25) claimed_ex).
Definition no_budget : ArtifactBudget := mkBudget 0 0 0.
Definition resize_ex (generation : string) (size t : Z) (d : db) :=
  SetArtifactGenerationBytes any_uuid holder_ex generation size (at_time t) d.
Definition one_af : db := (ran_with no_budget (resize_ex "g1" 600000 26 machine_af)).2.
Definition two_af : db := (ran_with no_budget (resize_ex "g2" 300000 27 one_af)).2.
Definition expired_af : db := (ran_with 0%nat (recoverExpiredTx marshal_status_ex 32 unlocked (at_time 200) two_af)).2.
Definition cleanup_ex (t : Z) (d : db) := ClaimInfraCleanup "reaper" (5 * Second) unlocked (at_time t) d.
Definition reaping_af : db := (ran_with None (cleanup_ex 210 expired_af)).2.
Definition reaping_again_af : db := (ran_with None (cleanup_ex 220 reaping_af)).2.

Lemma artifact_run d d' : artifact_reachable_ex d -> artifact_step_ex d d' -> artifact_reachable_ex d'.
Proof. intros (d0 & Hi & Hr) Hs. exists d0. split; [done|]. by eapply rtc_r. Qed.

Lemma policies_af d : project_policies d = [policy_row_ex] -> policy_ranges d.
Proof. intros H p. rewrite H. intros ->%list_elem_of_singleton. split; vm_compute; [reflexivity|discriminate]. Qed.

Lemma two_reachable : artifact_reachable_ex two_af.
Proof.
  assert (RecordInfra any_uuid "n1" holder_ex machine_ex (at_time 25) claimed_ex = Ok machine_af) as H1.
  { unfold machine_af. apply ran_ok. vm_compute. reflexivity. }
  assert (resize_ex "g1" 600000 26 machine_af = Ok ((ran_with no_budget (resize_ex "g1" 600000 26 machine_af)).1, one_af)) as H2.
  { unfold one_af. apply ran_with_ok. vm_compute. reflexivity. }
  assert (resize_ex "g2" 300000 27 one_af = Ok ((ran_with no_budget (resize_ex "g2" 300000 27 one_af)).1, two_af)) as H3.
  { unfold two_af. apply ran_with_ok. vm_compute. reflexivity. }
  eapply artifact_run; [eapply artifact_run; [eapply artifact_run|]|].
  - exists start_ex. split; [split; [exact start_initial|split; reflexivity]|].
    eapply rtc_l; [apply at_job, submitted_op|]. apply rtc_once, at_job, claimed_op.
  - eapply at_artifact, ao_infra, H1.
  - eapply at_artifact, ao_resize, H2; [apply policies_af; vm_compute; reflexivity|vm_compute; discriminate].
  - eapply at_artifact, ao_resize, H3; [apply policies_af; vm_compute; reflexivity|vm_compute; discriminate].
Qed.

Lemma expired_reachable : artifact_reachable_ex expired_af.
Proof.
  assert (is_ok (recoverExpiredTx marshal_status_ex 32 unlocked (at_time 200) two_af) = true) as H by (vm_compute; reflexivity).
  apply (ran_with_ok 0%nat) in H. unfold expired_af.
  eapply artifact_run; [exact two_reachable|]. eapply at_job, js_recover, H.
Qed.

Definition budget_af : artifact_budget :=
  mkArtifactBudget "a1" "p1" "j1" 1000000 900000 900000 Live (27 * Second) None "".

Lemma artifact_budget_exact_witness :
  artifact_budgets two_af = [budget_af] /\ retained "a1" two_af = 900000 /\ retained "a1" expired_af = 0.
Proof.
  split_and!; [vm_compute; reflexivity| |vm_compute; reflexivity].
  assert (budget_af ∈ artifact_budgets two_af) as Hb.
  { replace (artifact_budgets two_af) with [budget_af] by (vm_compute; reflexivity). by apply list_elem_of_singleton. }
  destruct (artifact_budget_exact marshal_status_ex marshal_request_ex any_uuid two_af budget_af two_reachable Hb)
    as (He & _). symmetry. exact He.
Defined.

(** The largest size wraps the sum of the counters, and is refused. *)
Lemma resize_within_limit_witness :
  int64 (900000 + int64_max) < 0 /\
  resize_ex "g3" int64_max 28 two_af = Err (BudgetExceeded int64_max 900000 1000000) /\
  1000000 < retained "a1" two_af - old_size "a1" "g3" two_af + int64_max.
Proof.
  assert (resize_ex "g3" int64_max 28 two_af = Err (BudgetExceeded int64_max 900000 1000000)) as H by (vm_compute; reflexivity).
  split_and!; [vm_compute; reflexivity|exact H|].
  pose proof (resize_within_limit marshal_status_ex marshal_request_ex any_uuid two_af holder_ex "g3" int64_max (at_time 28)
    two_reachable ltac:(apply policies_af; vm_compute; reflexivity) ltac:(vm_compute; discriminate)) as Hw.
  cbv zeta in Hw. unfold resize_ex in H. rewrite H in Hw.
  replace (bs_attempt_id holder_ex) with "a1" in Hw by (vm_compute; reflexivity). exact Hw.
Defined.

Lemma cleanup_fenced_witness :
  is_ok (cleanup_ex 220 reaping_af) = true /\
  CompleteInfraCleanup "n1" "reaper" 1 (221 * Second) reaping_again_af = Err CleanupStale /\
  is_ok (CompleteInfraCleanup "n1" "reaper" 2 (221 * Second) reaping_again_af) = true.
Proof.
  split_and!; [vm_compute; reflexivity| |vm_compute; reflexivity].
  assert (cleanup_ex 210 expired_af = Ok (Some (mkCleanupClaim "n1" "pve" "vm-1" "states/j1" 1), reaping_af)) as H1.
  { assert ((ran_with None (cleanup_ex 210 expired_af)).1 = Some (mkCleanupClaim "n1" "pve" "vm-1" "states/j1" 1)) as <-
      by (vm_compute; reflexivity). unfold reaping_af. apply ran_with_ok. vm_compute. reflexivity. }
  assert (cleanup_ex 220 reaping_af = Ok (Some (mkCleanupClaim "n1" "pve" "vm-1" "states/j1" 2), reaping_again_af)) as H2.
  { assert ((ran_with None (cleanup_ex 220 reaping_af)).1 = Some (mkCleanupClaim "n1" "pve" "vm-1" "states/j1" 2)) as <-
      by (vm_compute; reflexivity). unfold reaping_again_af. apply ran_with_ok. vm_compute. reflexivity. }
  unfold cleanup_ex in H1, H2.
  destruct (cleanup_fenced marshal_status_ex marshal_request_ex any_uuid expired_af reaping_af reaping_af reaping_again_af
    reaping_again_af "reaper" "reaper" (5 * Second) (5 * Second) unlocked unlocked (at_time 210) (at_time 220)
    (mkCleanupClaim "n1" "pve" "vm-1" "states/j1" 1) (mkCleanupClaim "n1" "pve" "vm-1" "states/j1" 2)
    expired_reachable H1 (rtc_refl _ _) H2 eq_refl (rtc_refl _ _)) as (_ & _ & H).
  exact (proj1 (H "reaper" "" (221 * Second))).
Defined.

(** A rebuilt package has the location of the one it replaces; the file is the
    new one. *)
Definition rebuilt_af : db :=
  empty_db <| artifacts :=
    [mkArtifact "old" None None None "gentoo-binpkg" "published" "d1" 10 "" "app/a.gpkg.tar" "" None 1 (Some 1) 1;
     mkArtifact "new" None None None "gentoo-binpkg" "published" "d2" 20 "" "app/a.gpkg.tar" "" None 2 (Some 2) 2;
     mkArtifact "oth" None None None "gentoo-binpkg" "missing" "d3" 30 "" "app/b.gpkg.tar" "" None 3 None 3] |>.
Definition files_af : list ArtifactInventory :=
  [mkInventory "app/a.gpkg.tar" "d2" 20; mkInventory "app/b.gpkg.tar" "d3" 30].
Definition reconciled_af : db :=
  (ran_with (mkReport 0 0 0 0 0) (ReconcileArtifacts (fun l => l) files_af (at_time 5) rebuilt_af)).2.

Lemma reconcile_follows_files_witness :
  is_ok (ReconcileArtifacts (fun l => l) files_af (at_time 5) rebuilt_af) = true /\
  (exists a', a' ∈ artifacts reconciled_af /\ af_id a' = "oth" /\ af_state a' = "published") /\
  (exists a', a' ∈ artifacts reconciled_af /\ af_id a' = "new" /\ af_state a' = "missing").
Proof.
  assert (is_ok (ReconcileArtifacts (fun l => l) files_af (at_time 5) rebuilt_af) = true) as Hok by (vm_compute; reflexivity).
  split; [exact Hok|]. assert (ReconcileArtifacts (fun l => l) files_af (at_time 5) rebuilt_af =
    Ok ((ran_with (mkReport 0 0 0 0 0) (ReconcileArtifacts (fun l => l) files_af (at_time 5) rebuilt_af)).1, reconciled_af)) as H
    by (unfold reconciled_af; apply ran_with_ok; exact Hok).
  assert (NoDup (af_id <$> artifacts rebuilt_af)) as Hn by (by apply (bool_decide_unpack _); vm_compute).
  split.
  - destruct (reconcile_follows_files _ _ _ _ _ _ 2%nat
      (mkArtifact "oth" None None None "gentoo-binpkg" "missing" "d3" 30 "" "app/b.gpkg.tar" "" None 3 None 3) Hn H
      ltac:(vm_compute; reflexivity)) as (a' & Hin & Hf & Hs).
    exists a'. split_and!; [exact Hin|by injection Hf|rewrite Hs; vm_compute; reflexivity].
  - destruct (reconcile_follows_files _ _ _ _ _ _ 1%nat
      (mkArtifact "new" None None None "gentoo-binpkg" "published" "d2" 20 "" "app/a.gpkg.tar" "" None 2 (Some 2) 2) Hn H
      ltac:(vm_compute; reflexivity)) as (a' & Hin & Hf & Hs).
    exists a'. split_and!; [exact Hin|by injection Hf|rewrite Hs; vm_compute; reflexivity].
Defined.
