(* ===== verification/Signing.v ===== *)
(** * The signing queue

    [internal/signing/types.go] and [internal/persistence/signing.go]: what a
    request to sign has to look like, and the tasks an isolated signer claims,
    renews, completes and fails under a fence of its own, each bound to the
    lease of the attempt that asked.  [processRoots] and [RunOnce] of
    [runner.go] on top of them.

    A manifest is the list of artifacts it encodes. *)

From S2P Require Import Prelude GoStrings GoRegexp GoPath GoSha256 Schema JobLedger.
From Stdlib Require Import Ascii.
Open Scope string_scope.
Open Scope list_scope.
Open Scope Z_scope.

Inductive signing_error :=
| RequestIncomplete | SourceTokenInvalid | RequestShape | PathRequired | PathNotCanonical | NotGpkg
| InputInvalid | OutputInvalid | ArtifactDuplicate | AttemptInactive | ArtifactUnverified (path : string)
| SigningDuplicateKey | RequestMismatch | ManifestMismatch | SigningTaskMissing | SignerRequired
| RenewIncomplete | SigningStale | CompleteIncomplete | OutputCount | OutputsMismatch | FailIncomplete
| TaskTokenInvalid | RootsEqual | InputUnreadable | InputChanged | OutputOverBudget | SigningFailed
| LeaseLost (e : string).

(** ** Validation *)
Definition hex_class (c : ascii) : bool := in_range "a" "f" c || in_range "0" "9" c.
Definition digestPattern : re := Times 64 (Cls hex_class).
Definition tokenPattern : re := Times 32 (Cls hex_class).

Definition has_prefix (p s : string) : bool := bool_decide (bytes p `prefix_of` bytes s).
Definition has_suffix (p s : string) : bool := bool_decide (bytes p `suffix_of` bytes s).

Definition ValidateArtifact (a : SigningArtifact) (output : bool) : result signing_error unit :=
  check ~ (sa_relative_path a = "" \/ IsAbs (sa_relative_path a) = true) else PathRequired;;
  let clean := Clean (sa_relative_path a) in
  check ~ (clean = "." \/ clean = ".." \/ has_prefix "../" clean = true \/ clean <> sa_relative_path a)
    else PathNotCanonical;;
  check has_suffix ".gpkg.tar" clean = true else NotGpkg;;
  check ~ (MatchString digestPattern (sa_input_digest a) = false \/ sa_input_size a < 0) else InputInvalid;;
  check ~ (output = true /\ (MatchString digestPattern (sa_output_digest a) = false \/ sa_output_size a < 0))
    else OutputInvalid;;
  Ok tt.

Record SigningRequest := mkSigningRequest {
  sr_job_id : uuid;
  sr_attempt_id : uuid;
  sr_attempt_fence : Z;
  sr_lease_owner : string;
  sr_source_token : string;
  sr_architecture : string;
  sr_max_output_bytes : Z;
  sr_artifacts : list SigningArtifact
}.

Fixpoint validate_artifacts (seen : gset string) (l : list SigningArtifact) : result signing_error unit :=
  match l with
  | [] => Ok tt
  | a :: l =>
      let! _ := ValidateArtifact a false in
      check sa_relative_path a ∉ seen else ArtifactDuplicate;;
      validate_artifacts ({[sa_relative_path a]} ∪ seen) l
  end.

Definition ValidateRequest (req : SigningRequest) : result signing_error unit :=
  check ~ (sr_job_id req = "" \/ sr_attempt_id req = "" \/ sr_attempt_fence req <= 0 \/ sr_lease_owner req = "")
    else RequestIncomplete;;
  check MatchString tokenPattern (sr_source_token req) = true else SourceTokenInvalid;;
  check ~ (sr_architecture req = "" \/ sr_max_output_bytes req <= 0 \/ sr_artifacts req = [] \/
           (256 < length (sr_artifacts req))%nat) else RequestShape;;
  validate_artifacts ∅ (sr_artifacts req).

(** [strings.ReplaceAll(s, "-", "")] *)
Definition without_dashes (s : string) : string := of_bytes (filter (fun c => c <> "-"%char) (bytes s)).
Definition OutputToken (taskID : string) : result signing_error string :=
  let token := without_dashes taskID in
  check MatchString tokenPattern token = true else TaskTokenInvalid;; Ok token.

Definition Dir (path : string) : string :=
  match rev (split_byte SLASH (bytes path)) with
  | [] => "."
  | _ :: dirs => of_bytes (clean_bytes (match rev dirs with [] => [] | l => join_byte SLASH l ++ [SLASH] end))
  end.
Definition QuarantineBase (binpkgPath : string) : string :=
  path_Join (Dir (Clean binpkgPath)) ".portage-engine-quarantine".
Definition TokenRoot (binpkgPath token : string) : result signing_error string :=
  check MatchString tokenPattern token = true else SourceTokenInvalid;;
  Ok (path_Join (QuarantineBase binpkgPath) token).

(** ** Comparing manifests *)
Fixpoint match_artifacts (expected : gmap string SigningArtifact) (l : list SigningArtifact)
    : option (gmap string SigningArtifact) :=
  match l with
  | [] => Some expected
  | a :: l =>
      match expected !! sa_relative_path a with
      | Some m =>
          if decide (sa_input_digest m <> sa_input_digest a \/ sa_input_size m <> sa_input_size a) then None
          else match_artifacts (delete (sa_relative_path a) expected) l
      | None => None
      end
  end.

Definition artifacts_by_path (l : list SigningArtifact) : gmap string SigningArtifact :=
  foldl (fun m a => <[sa_relative_path a := a]> m) ∅ l.

Definition sameSigningInputs (left right : list SigningArtifact) : bool :=
  bool_decide (length left = length right) &&
  match match_artifacts (artifacts_by_path left) right with
  | Some expected => bool_decide (size expected = 0%nat)
  | None => false
  end.
Definition sameSigningOutputs (inputs outputs : list SigningArtifact) : bool :=
  bool_decide (length inputs = length outputs) &&
  match match_artifacts (artifacts_by_path inputs) outputs with
  | Some expected => bool_decide (size expected = 0%nat)
  | None => false
  end.

(** ** Tasks *)
Record SigningTask := mkSigningTask {
  sk_id : uuid;
  sk_job_id : uuid;
  sk_attempt_id : uuid;
  sk_attempt_fence : Z;
  sk_state : SigningState;
  sk_source_token : string;
  sk_architecture : string;
  sk_max_output_bytes : Z;
  sk_artifacts : list SigningArtifact;
  sk_signing_key_id : string;
  sk_owner : string;
  sk_claim_fence : Z;
  sk_lease_expires_at : option time;
  sk_error : string
}.

Definition task_of (artifacts : list SigningArtifact) (t : signing_task) : SigningTask :=
  mkSigningTask (sg_id t) (sg_job_id t) (sg_attempt_id t) (sg_attempt_fence t) (sg_state t)
    (sg_source_token t) (sg_architecture t) (sg_max_output_bytes t) artifacts (sg_signing_key_id t)
    (sg_owner t) (sg_claim_fence t) (sg_lease_expires_at t) (sg_error_detail t).

(** Decoding a manifest into the slice of another one keeps, where the new
    element omits a field, what the old one had. *)
Definition decode_over (old new : list SigningArtifact) : list SigningArtifact :=
  imap (fun i a =>
    match old !! i with
    | None => a
    | Some o => mkSigningArtifact (sa_relative_path a) (sa_input_digest a) (sa_input_size a)
        (if decide (sa_output_digest a = "") then sa_output_digest o else sa_output_digest a)
        (if decide (sa_output_size a = 0) then sa_output_size o else sa_output_size a)
    end) new.

(** ** The queue *)

(** The attempt holds a live lease of this fence. *)
Definition signing_leased (attemptID : uuid) (fence : Z) (now : time) (d : db) : Prop :=
  exists_row (fun l => wl_attempt_id l = attemptID /\ wl_fence_token l = fence /\ now < wl_expires_at l)
    (worker_leases d).
#[export] Instance signing_leased_dec a f now d : Decision (signing_leased a f now d).
Proof. unfold signing_leased. apply _. Defined.

Definition requester_active (req : SigningRequest) (now : time) (d : db) : Prop :=
  exists_row (fun a => a_id a = sr_attempt_id req /\ a_job_id a = sr_job_id req /\
    a_fence_token a = sr_attempt_fence req /\
    exists_row (fun l => wl_attempt_id l = a_id a /\ wl_fence_token l = sr_attempt_fence req /\
      now < wl_expires_at l /\
      exists_row (fun w => w_id w = wl_worker_id l /\ w_stable_name w = sr_lease_owner req) (workers d))
      (worker_leases d) /\
    exists_row (fun j => j_id j = a_job_id a /\ j_state j ∈ ["verifying"; "signing"]) (build_jobs d))
    (build_attempts d).
#[export] Instance requester_active_dec req now d : Decision (requester_active req now d).
Proof. unfold requester_active. apply _. Defined.

(** Every artifact is recorded with the digest algorithm [sha256], so the column is
    not kept. *)
Definition verified_unsigned (req : SigningRequest) (a : SigningArtifact) (d : db) : Prop :=
  exists_row (fun f => af_job_id f = Some (sr_job_id req) /\ af_attempt_id f = Some (sr_attempt_id req) /\
    af_state f = "verified_unsigned" /\ af_digest f = sa_input_digest a /\ af_size_bytes f = sa_input_size a /\
    af_location f = "quarantine:" +:+ sr_source_token req +:+ "/" +:+ sa_relative_path a) (artifacts d).
#[export] Instance verified_unsigned_dec req a d : Decision (verified_unsigned req a d).
Proof. unfold verified_unsigned. apply _. Defined.

Fixpoint check_verified (req : SigningRequest) (l : list SigningArtifact) (d : db) : result signing_error unit :=
  match l with
  | [] => Ok tt
  | a :: l => check verified_unsigned req a d else ArtifactUnverified (sa_relative_path a);; check_verified req l d
  end.

Definition new_signing_row (taskID : uuid) (req : SigningRequest) (now : time) : signing_task :=
  mkSigningRow taskID (sr_job_id req) (sr_attempt_id req) (sr_attempt_fence req) SgQueued (sr_source_token req)
    (sr_architecture req) (sr_max_output_bytes req) (sr_artifacts req) None "" "" 0 None 0 "" now now None.

(** One task per job and attempt; asking again gives the task back. *)
Definition EnqueueSigning (taskID : uuid) (req : SigningRequest) (clk : clock) (d : db)
    : result signing_error (SigningTask * db) :=
  let! _ := ValidateRequest req in
  check requester_active req (clk 0%nat) d else AttemptInactive;;
  let! _ := check_verified req (sr_artifacts req) d in
  let now := clk 1%nat in
  let same := fun t => sg_job_id t = sr_job_id req /\ sg_attempt_id t = sr_attempt_id req in
  let! (row, d) :=
    match first_where same (signing_tasks d) with
    | Some t =>
        Ok (t <| sg_updated_at := now |>,
            d <| signing_tasks := update_where same (fun t => t <| sg_updated_at := now |>) (signing_tasks d) |>)
    | None =>
        check ~ exists_row (fun t => sg_id t = taskID) (signing_tasks d) else SigningDuplicateKey;;
        Ok (new_signing_row taskID req now,
            d <| signing_tasks := signing_tasks d ++ [new_signing_row taskID req now] |>)
    end in
  let artifacts := if decide (sg_state row = SgCompleted)
                   then decode_over (sg_input_manifest row) (default [] (sg_output_manifest row))
                   else sg_input_manifest row in
  check ~ (sg_source_token row <> sr_source_token req \/ sg_architecture row <> sr_architecture req \/
           sg_max_output_bytes row <> sr_max_output_bytes req) else RequestMismatch;;
  check sameSigningInputs artifacts (sr_artifacts req) = true else ManifestMismatch;;
  Ok (task_of artifacts row, d).

Definition GetSigningTask (id : uuid) (d : db) : result signing_error SigningTask :=
  match first_where (fun t => sg_id t = id) (signing_tasks d) with
  | None => Err SigningTaskMissing
  | Some t => Ok (task_of (if decide (sg_state t = SgCompleted) then default [] (sg_output_manifest t)
                           else sg_input_manifest t) t)
  end.

Record SigningStatus := mkSigningStatus {
  ss_queued : Z; ss_claimed : Z; ss_completed : Z; ss_failed : Z; ss_canceled : Z;
  ss_oldest_queued : option time; ss_oldest_claimed : option time
}.
Definition SigningRuntimeStatus (d : db) : SigningStatus :=
  let n s := Z.of_nat (count_where (fun t => sg_state t = s) (signing_tasks d)) in
  mkSigningStatus (n SgQueued) (n SgClaimed) (n SgCompleted) (n SgFailed) (n SgCanceled)
    (sg_created_at <$> pick (by_key sg_created_at) (filter (fun t => sg_state t = SgQueued) (signing_tasks d)))
    (sg_updated_at <$> pick (by_key sg_updated_at) (filter (fun t => sg_state t = SgClaimed) (signing_tasks d))).

(** The attempt still has its fence, and a live lease of it. *)
Definition attempt_active (t : signing_task) (now : time) (d : db) : Prop :=
  exists_row (fun a => a_id a = sg_attempt_id t /\ a_fence_token a = sg_attempt_fence t) (build_attempts d) /\
  signing_leased (sg_attempt_id t) (sg_attempt_fence t) now d.
#[export] Instance attempt_active_dec t now d : Decision (attempt_active t now d).
Proof. unfold attempt_active. apply _. Defined.

Definition open_signing (t : signing_task) : Prop := sg_state t ∈ [SgQueued; SgClaimed].
#[export] Instance open_signing_dec t : Decision (open_signing t).
Proof. unfold open_signing. apply _. Defined.

Definition claimable_signing (now : time) (locked : uuid -> bool) (d : db) (t : signing_task) : Prop :=
  open_signing t /\ (sg_state t = SgQueued \/ at_or_before (sg_lease_expires_at t) now) /\
  attempt_active t now d /\ locked (sg_id t) = false.
#[export] Instance claimable_signing_dec now locked d t : Decision (claimable_signing now locked d t).
Proof. unfold claimable_signing. apply _. Defined.

Definition cancel_stale_signing (now : time) (d : db) : db :=
  d <| signing_tasks := update_where (fun t => open_signing t /\ ~ attempt_active t now d)
         (fun t => t <| sg_state := SgCanceled |> <| sg_owner := "" |> <| sg_lease_expires_at := None |>
                     <| sg_error_detail := "originating build attempt is no longer active" |>
                     <| sg_updated_at := now |>) (signing_tasks d) |>.

Definition claim_signing_row (owner : string) (lease : duration) (now : time) (t : signing_task) : signing_task :=
  t <| sg_state := SgClaimed |> <| sg_owner := owner |> <| sg_claim_fence := sg_claim_fence t + 1 |>
    <| sg_lease_expires_at := Some (now + lease) |> <| sg_claim_attempts := sg_claim_attempts t + 1 |>
    <| sg_error_detail := "" |> <| sg_updated_at := now |>.

(** The claimed task carries no key and no error. *)
Definition ClaimSigning (owner : string) (lease : duration) (locked : uuid -> bool) (clk : clock) (d : db)
    : result signing_error (option SigningTask * db) :=
  check ~ (owner = "" \/ lease <= 0) else SignerRequired;;
  let d := cancel_stale_signing (clk 0%nat) d in
  let now := clk 1%nat in
  match pick (then_by (by_key sg_created_at) (by_str sg_id))
          (filter (claimable_signing now locked d) (signing_tasks d)) with
  | None => Ok (None, d)
  | Some t =>
      let row := claim_signing_row owner lease now t in
      Ok (Some (task_of (sg_input_manifest t) (row <| sg_signing_key_id := "" |>)),
          d <| signing_tasks := update_where (fun x => sg_id x = sg_id t) (claim_signing_row owner lease now)
                 (signing_tasks d) |>)
  end.

Definition signing_held (task : SigningTask) (now : time) (t : signing_task) : Prop :=
  sg_id t = sk_id task /\ sg_owner t = sk_owner task /\ sg_claim_fence t = sk_claim_fence task /\
  sg_state t = SgClaimed /\ later_than (sg_lease_expires_at t) now.
#[export] Instance signing_held_dec task now t : Decision (signing_held task now t).
Proof. unfold signing_held. apply _. Defined.

Definition RenewSigning (task : SigningTask) (lease : duration) (now : time) (d : db) : result signing_error db :=
  check ~ (sk_id task = "" \/ sk_owner task = "" \/ sk_claim_fence task <= 0 \/ lease <= 0) else RenewIncomplete;;
  let mine := fun t => signing_held task now t /\ signing_leased (sg_attempt_id t) (sg_attempt_fence t) now d in
  check count_where mine (signing_tasks d) = 1%nat else SigningStale;;
  Ok (d <| signing_tasks := update_where mine
        (fun t => t <| sg_lease_expires_at := Some (now + lease) |> <| sg_updated_at := now |>) (signing_tasks d) |>).

Fixpoint validate_outputs (l : list SigningArtifact) : result signing_error unit :=
  match l with
  | [] => Ok tt
  | a :: l => let! _ := ValidateArtifact a true in validate_outputs l
  end.

Definition CompleteSigning (task : SigningTask) (keyID : string) (outputs : list SigningArtifact) (now : time) (d : db)
    : result signing_error db :=
  check ~ (sk_id task = "" \/ sk_owner task = "" \/ sk_claim_fence task <= 0 \/ keyID = "") else CompleteIncomplete;;
  check length outputs = length (sk_artifacts task) else OutputCount;;
  let! _ := validate_outputs outputs in
  check sameSigningOutputs (sk_artifacts task) outputs = true else OutputsMismatch;;
  let mine := fun t => signing_held task now t /\ sg_attempt_fence t = sk_attempt_fence task /\
                       signing_leased (sg_attempt_id t) (sg_attempt_fence t) now d in
  check count_where mine (signing_tasks d) = 1%nat else SigningStale;;
  Ok (d <| signing_tasks := update_where mine
        (fun t => t <| sg_state := SgCompleted |> <| sg_output_manifest := Some outputs |>
                    <| sg_signing_key_id := keyID |> <| sg_owner := "" |> <| sg_lease_expires_at := None |>
                    <| sg_error_detail := "" |> <| sg_completed_at := Some now |> <| sg_updated_at := now |>)
        (signing_tasks d) |>).

Definition FailSigning (task : SigningTask) (detail : string) (now : time) (d : db) : result signing_error db :=
  check ~ (sk_id task = "" \/ sk_owner task = "" \/ sk_claim_fence task <= 0) else FailIncomplete;;
  let detail := if decide (4096 < go_len detail) then prefix_bytes 4096 detail else detail in
  check count_where (signing_held task now) (signing_tasks d) = 1%nat else SigningStale;;
  Ok (d <| signing_tasks := update_where (signing_held task now)
        (fun t => t <| sg_state := SgFailed |> <| sg_error_detail := detail |> <| sg_owner := "" |>
                    <| sg_lease_expires_at := None |> <| sg_updated_at := now |>) (signing_tasks d) |>).

(** ** The signer

    What the signer finds below the source root, by the path, each of the three
    times it looks at a file: whether no part of the path is a link, what it opens
    to digest it, and what it opens to copy it.  Opening follows links and gives
    the bytes of a regular file; the file may have changed between the two. *)
Record source_files := mkSource {
  sf_plain : string -> bool;
  sf_digested : string -> option (list ascii);
  sf_copied : string -> option (list ascii)
}.

Section signer.
Context (SignGPKG : list ascii -> option (list ascii)).

(** [sha256] in hexadecimal, and the size. *)
Definition file_digest (data : list ascii) : string * Z := (EncodeToString (Sum256 data), Z.of_nat (length data)).

(** A path is taken, or below a file, or above one. *)
Definition path_conflict (p q : string) : Prop :=
  p = q \/ has_prefix (p +:+ "/") q = true \/ has_prefix (q +:+ "/") p = true.
#[export] Instance path_conflict_dec p q : Decision (path_conflict p q).
Proof. unfold path_conflict. apply _. Defined.

(** [written] are the paths below the output root that exist already. *)
Definition signArtifact (source : source_files) (written : list string) (input : SigningArtifact)
    (remainingBytes : Z) : result signing_error SigningArtifact :=
  let! _ := ValidateArtifact input false in
  check sf_plain source (sa_relative_path input) = true else InputUnreadable;;
  match sf_digested source (sa_relative_path input) with
  | None => Err InputUnreadable
  | Some data =>
      let '(digest, size) := file_digest data in
      check digest = sa_input_digest input /\ size = sa_input_size input else InputChanged;;
      check sa_input_size input <= remainingBytes else OutputOverBudget;;
      check ~ Exists (path_conflict (sa_relative_path input)) written else SigningFailed;;
      match sf_copied source (sa_relative_path input) with
      | None => Err InputUnreadable
      | Some copy =>
          match SignGPKG copy with
          | None => Err SigningFailed
          | Some signed =>
              let '(outputDigest, outputSize) := file_digest signed in
              check outputSize <= remainingBytes else OutputOverBudget;;
              Ok (mkSigningArtifact (sa_relative_path input) (sa_input_digest input) (sa_input_size input)
                    outputDigest outputSize)
          end
      end
  end.

(** [aborted k]: the lease was lost before artifact [k]. *)
Fixpoint sign_all (source : source_files) (aborted : nat -> bool) (max : Z) (k : nat) (outputBytes : Z)
    (written : list string) (inputs : list SigningArtifact) : result signing_error (list SigningArtifact) :=
  match inputs with
  | [] => Ok []
  | input :: inputs =>
      check aborted k = false else LeaseLost "signing aborted";;
      let! output := signArtifact source written input (int64 (max - outputBytes)) in
      let! rest := sign_all source aborted max (S k) (int64 (outputBytes + sa_output_size output))
                     (sa_relative_path input :: written) inputs in
      Ok (output :: rest)
  end.

(** [activated]: the index and the capability marker could be written. *)
Definition processRoots (task : SigningTask) (source : source_files) (aborted : nat -> bool) (activated : bool)
    : result signing_error (list SigningArtifact) :=
  let maxOutputBytes := if decide (sk_max_output_bytes task <= 0) then Z.shiftl 32 30 else sk_max_output_bytes task in
  let! outputs := sign_all source aborted maxOutputBytes 0 0 [] (sk_artifacts task) in
  check activated = true else SigningFailed;;
  Ok outputs.

(** [process] with the roots it signs between. *)
Definition process (binpkgPath : string) (task : SigningTask) (source : source_files) (aborted : nat -> bool)
    (activated : bool) : result signing_error (list SigningArtifact) :=
  let! sourceRoot := TokenRoot binpkgPath (sk_source_token task) in
  let! outputToken := OutputToken (sk_id task) in
  let! outputRoot := TokenRoot binpkgPath outputToken in
  check sourceRoot <> outputRoot else RootsEqual;;
  processRoots task source aborted activated.

(** How [RunOnce] ends, on the database as it then is: whether the output was
    removed, and what was committed. *)
Record signing_end := mkSigningEnd { se_removed : bool; se_db : db; se_error : option signing_error }.

Definition finish_signing (keyID : string) (error_text : signing_error -> string) (task : SigningTask)
    (processed : result signing_error (list SigningArtifact)) (heartbeat : option signing_error) (now : time) (d : db)
    : signing_end :=
  let outcome := match heartbeat with Some e => Err e | None => processed end in
  match outcome with
  | Err e =>
      match FailSigning task (error_text e) now d with
      | Err _ => mkSigningEnd false d None
      | Ok d' => mkSigningEnd (is_ok (OutputToken (sk_id task))) d' None
      end
  | Ok outputs =>
      match CompleteSigning task keyID outputs now d with
      | Err e => mkSigningEnd false d (Some e)
      | Ok d' => mkSigningEnd false d' None
      end
  end.
End signer.
