(* ===== verification/Gpkg.v ===== *)
(** * Signing a GPKG

    [internal/signing/gpkg.go]: what an unsigned package has to look like, the
    signatures and the manifest a signer adds, and the verification of a signed
    package.

    A package is the list of entries that [archive/tar] reads from it.  The
    signing program and BLAKE2b are parameters. *)

From S2P Require Import Prelude GoStrings GoPath GoUrl GoSha256 GoSha512.
From Stdlib Require Import Ascii.
Open Scope string_scope.
Open Scope list_scope.
Open Scope Z_scope.

Inductive gpkg_error :=
| NotRegular (name : string) | MemberName (name : string) | PrefixMixed | MemberDuplicate (name : string)
| MemberSize (name : string) | AlreadySigned | PrefixOrManifestMissing | VersionMissing
| ManifestRecord | ManifestDuplicate (name : string) | ManifestSize (name : string) | ManifestHashes (name : string)
| ManifestMismatch (name : string) | ManifestUnknown | GpgIncomplete | SignFailed | ManifestMissing
| ManifestUnverified | VersionSigned | OrphanSignature | SignatureMissing.

Record entry := mkEntry { te_name : string; te_regular : bool; te_data : list ascii }.
Record gpkgMember := mkMember { gm_name : string; gm_data : list ascii }.

(** ** Text *)
Definition flush (cur : list ascii) (rest : list (list ascii)) : list (list ascii) :=
  match cur with [] => rest | _ => rev cur :: rest end.

(** [strings.Fields]; the current word is kept reversed. *)
Fixpoint fields_from (cur l : list ascii) : list (list ascii) :=
  match l with
  | [] => flush cur []
  | a :: l1 =>
      if ascii_space a then flush cur (fields_from [] l1) else
      match l1 with
      | [] => fields_from (a :: cur) l1
      | b :: l2 =>
          if space2 a b then flush cur (fields_from [] l2) else
          match l2 with
          | [] => fields_from (a :: cur) l1
          | c :: l3 => if space3 a b c then flush cur (fields_from [] l3) else fields_from (a :: cur) l1
          end
      end
  end.
Definition Fields (s : string) : list string := of_bytes <$> fields_from [] (bytes s).

Definition NEWLINE : ascii := ascii_of_nat 10.
Definition lines (s : string) : list string := of_bytes <$> split_byte NEWLINE (bytes s).

Definition ends_with (suffix s : string) : bool := bool_decide (bytes suffix `suffix_of` bytes s).
Definition trim_suffix (suffix s : string) : string :=
  if ends_with suffix s then of_bytes (take (String.length s - String.length suffix) (bytes s)) else s.

(** [filepath.Base] of a path with no slash at its end. *)
Definition Base (path : string) : string := of_bytes (default [] (last (split_byte SLASH (bytes path)))).

(** The two components of the name of a member. *)
Definition member_parts (name : string) : option (string * string) :=
  if decide (Clean name = name) then
    match split_byte SLASH (bytes name) with
    | [p; b] => if decide (p = [] \/ b = []) then None else Some (of_bytes p, of_bytes b)
    | _ => None
    end
  else None.

Definition int_text (n : nat) : string := of_bytes (format_decimal (Z.of_nat n)).

Section gpkg.
Context (blake2b : list ascii -> list Z).

(** ** The manifest *)
Definition manifestRecord (name : string) (data : list ascii) : string :=
  "DATA " +:+ name +:+ " " +:+ int_text (length data) +:+ " BLAKE2B " +:+ EncodeToString (blake2b data) +:+
  " SHA512 " +:+ EncodeToString (Sum512 data).

Record record := mkRecord { rc_size : Z; rc_sha512 : string; rc_blake2 : string }.
#[export] Instance record_eq : EqDecision record. Proof. solve_decision. Defined.

Definition hash_of (key k1 v1 k2 v2 : string) : string :=
  if decide (k2 = key) then v2 else if decide (k1 = key) then v1 else "".

(** One line, with the records read before it. *)
Definition parse_record (records : gmap string record) (line : string) : result gpkg_error (gmap string record) :=
  match Fields line with
  | [tag; name; size; k1; v1; k2; v2] =>
      check tag = "DATA" else ManifestRecord;;
      check records !! name = None else ManifestDuplicate name;;
      match ParseInt (bytes size) with
      | None => Err (ManifestSize name)
      | Some n =>
          check 0 <= n else ManifestSize name;;
          let sha := hash_of "SHA512" k1 (ToLower v1) k2 (ToLower v2) in
          let blake := hash_of "BLAKE2B" k1 (ToLower v1) k2 (ToLower v2) in
          check k1 <> k2 /\ String.length sha = 128%nat /\ String.length blake = 128%nat else ManifestHashes name;;
          check lower_hex sha = true /\ lower_hex blake = true else ManifestHashes name;;
          Ok (<[name := mkRecord n sha blake]> records)
      end
  | _ => Err ManifestRecord
  end.

Fixpoint parse_manifest (ls : list string) (records : gmap string record) : result gpkg_error (gmap string record) :=
  match ls with
  | [] => Ok records
  | line :: ls => let! records := parse_record records line in parse_manifest ls records
  end.

Definition record_of (data : list ascii) : record :=
  mkRecord (Z.of_nat (length data)) (EncodeToString (Sum512 data)) (EncodeToString (blake2b data)).

Fixpoint match_members (members : list gpkgMember) (records : gmap string record)
    : result gpkg_error (gmap string record) :=
  match members with
  | [] => Ok records
  | m :: members =>
      let name := Base (gm_name m) in
      check records !! name = Some (record_of (gm_data m)) else ManifestMismatch name;;
      match_members members (delete name records)
  end.

Definition verifyManifest (manifest : string) (members : list gpkgMember) : result gpkg_error unit :=
  let! records := parse_manifest (lines (TrimSpace manifest)) ∅ in
  let! records := match_members members records in
  check records = ∅ else ManifestUnknown;;
  Ok tt.

(** ** Reading an unsigned package *)
Record read_state := mkRead {
  rd_members : list gpkgMember; rd_prefix : string; rd_seen : gset string; rd_manifest : list ascii }.

Definition read_entry (st : read_state) (e : entry) : result gpkg_error read_state :=
  check te_regular e = true else NotRegular (te_name e);;
  match member_parts (te_name e) with
  | None => Err (MemberName (te_name e))
  | Some (p, b) =>
      check rd_prefix st = "" \/ rd_prefix st = p else PrefixMixed;;
      check te_name e ∉ rd_seen st else MemberDuplicate (te_name e);;
      let seen := {[te_name e]} ∪ rd_seen st in
      check Z.of_nat (length (te_data e)) <= Z.shiftl 16 30 else MemberSize (te_name e);;
      if decide (b = "Manifest") then Ok (mkRead (rd_members st) p seen (te_data e))
      else
        check ends_with ".sig" b = false else AlreadySigned;;
        Ok (mkRead (rd_members st ++ [mkMember (te_name e) (te_data e)]) p seen (rd_manifest st))
  end.

Fixpoint read_entries (st : read_state) (es : list entry) : result gpkg_error read_state :=
  match es with
  | [] => Ok st
  | e :: es => let! st := read_entry st e in read_entries st es
  end.

Definition pgp_marker : list ascii := bytes "-----BEGIN PGP SIGNATURE-----".

Definition readUnsignedGPKG (es : list entry) : result gpkg_error (list gpkgMember * string) :=
  let! st := read_entries (mkRead [] "" ∅ []) es in
  check rd_prefix st <> "" /\ rd_manifest st <> [] else PrefixOrManifestMissing;;
  check Contains (rd_manifest st) pgp_marker = false else AlreadySigned;;
  let! _ := verifyManifest (of_bytes (rd_manifest st)) (rd_members st) in
  check Exists (fun m => Base (gm_name m) = "gpkg-1") (rd_members st) else VersionMissing;;
  Ok (rd_members st, rd_prefix st).

(** ** Verifying a signed package *)

(** What [gpg] says: a detached signature is valid; the text of a clear-signed
    document with a valid signature. *)
Context (verifyDetached : list ascii -> list ascii -> bool) (verifyClearSigned : list ascii -> option (list ascii)).

Fixpoint signed_members (es : list entry) (prefix : string) (members : gmap string (list ascii))
    : result gpkg_error (string * gmap string (list ascii)) :=
  match es with
  | [] => Ok (prefix, members)
  | e :: es =>
      check te_regular e = true else NotRegular (te_name e);;
      match member_parts (te_name e) with
      | None => Err (MemberName (te_name e))
      | Some (p, b) =>
          check prefix = "" \/ prefix = p else PrefixMixed;;
          check members !! b = None else MemberDuplicate b;;
          signed_members es p (<[b := te_data e]> members)
      end
  end.

Definition members_list (prefix : string) (members : gmap string (list ascii)) : list gpkgMember :=
  (fun '(name, data) => mkMember (prefix +:+ "/" +:+ name) data) <$> map_to_list members.

(** The name of a signature with nothing it signs. *)
Definition orphan (members : gmap string (list ascii)) (name : string) : Prop :=
  ends_with ".sig" name = true /\
  (trim_suffix ".sig" name = "" \/ members !! trim_suffix ".sig" name = None).
#[export] Instance orphan_dec members name : Decision (orphan members name).
Proof. unfold orphan. apply _. Defined.

Definition payload (name : string) : Prop := name <> "gpkg-1" /\ ends_with ".sig" name = false.
#[export] Instance payload_dec name : Decision (payload name).
Proof. unfold payload. apply _. Defined.

Definition signed_by (members : gmap string (list ascii)) (name : string) (data : list ascii) : Prop :=
  match members !! (name +:+ ".sig") with
  | Some signature => verifyDetached data signature = true
  | None => False
  end.
#[export] Instance signed_by_dec members name data : Decision (signed_by members name data).
Proof. unfold signed_by. destruct (members !! _); apply _. Defined.

Definition VerifyGPKG (es : list entry) : result gpkg_error unit :=
  let! (prefix, members) := signed_members es "" ∅ in
  match members !! "Manifest" with
  | None => Err ManifestMissing
  | Some manifest =>
      match verifyClearSigned manifest with
      | None => Err ManifestUnverified
      | Some plain =>
          let members := delete "Manifest" members in
          let! _ := verifyManifest (of_bytes plain) (members_list prefix members) in
          check members !! "gpkg-1.sig" = None else VersionSigned;;
          check Forall (fun '(name, _) => ~ orphan members name) (map_to_list members) else OrphanSignature;;
          check Forall (fun '(name, data) => payload name -> signed_by members name data) (map_to_list members)
            else SignatureMissing;;
          Ok tt
      end
  end.

(** ** Signing *)
Context (sign : list ascii -> bool -> option (list ascii)).

Fixpoint sign_members (members : list gpkgMember) : result gpkg_error (list gpkgMember * list string) :=
  match members with
  | [] => Ok ([], [])
  | m :: members =>
      let base := Base (gm_name m) in
      let! (own, records) :=
        if decide (base = "gpkg-1") then Ok ([m], [manifestRecord base (gm_data m)])
        else match sign (gm_data m) true with
             | None => Err SignFailed
             | Some signature =>
                 Ok ([m; mkMember (gm_name m +:+ ".sig") signature],
                     [manifestRecord base (gm_data m); manifestRecord (base +:+ ".sig") signature])
             end in
      let! (rest, more) := sign_members members in
      Ok (own ++ rest, records ++ more)
  end.

Fixpoint indexOfMember (members : list gpkgMember) (name : string) : nat :=
  match members with
  | [] => 0
  | m :: members => if decide (gm_name m = name) then 0 else S (indexOfMember members name)
  end.

Definition member_less (members : list gpkgMember) (x y : gpkgMember) : bool :=
  let left := trim_suffix ".sig" (gm_name x) in
  let right := trim_suffix ".sig" (gm_name y) in
  if decide (left = right) then negb (ends_with ".sig" (gm_name x))
  else (indexOfMember members left <? indexOfMember members right)%nat.

(** [sort.SliceStable]: each element moves left past the ones it precedes. *)
Fixpoint insert_stable {A} (less : A -> A -> bool) (x : A) (sorted : list A) : list A :=
  match sorted with
  | [] => [x]
  | y :: sorted => if less x y then y :: insert_stable less x sorted else x :: y :: sorted
  end.
(** The sorted prefix is kept reversed. *)
Definition SliceStable {A} (less : A -> A -> bool) (l : list A) : list A :=
  rev (foldl (fun sorted x => insert_stable less x sorted) [] l).

Definition member_entry (m : gpkgMember) : entry := mkEntry (gm_name m) true (gm_data m).

Definition SignGPKG (home keyID : string) (es : list entry) : result gpkg_error (list entry) :=
  check home <> "" /\ keyID <> "" else GpgIncomplete;;
  let! (members, prefix) := readUnsignedGPKG es in
  let! (output, manifestRecords) := sign_members members in
  let output := SliceStable (member_less members) output in
  match sign (bytes (Join manifestRecords (String NEWLINE "") +:+ String NEWLINE "")) false with
  | None => Err SignFailed
  | Some manifest =>
      let output := member_entry <$> (output ++ [mkMember (prefix +:+ "/Manifest") manifest]) in
      let! _ := VerifyGPKG output in
      Ok output
  end.
End gpkg.
