(* ===== verification/GpkgSafety.v ===== *)
(** * Signed packages

    A package the signer accepts is signed and verifies; a package that
    verifies is signed member by member.  Both follow the text of the manifest
    through [manifestRecord] and [verifyManifest]. *)

From S2P Require Import Prelude GoStrings GoPath GoUrl GoSha256 GoSha512 Gpkg.
From Stdlib Require Import Ascii.
Open Scope string_scope.
Open Scope list_scope.
Open Scope Z_scope.

(** ** Words *)
Definition starts_space (l : list ascii) : bool :=
  match l with
  | [] => false
  | a :: l1 => ascii_space a ||
      match l1 with
      | [] => false
      | b :: l2 => space2 a b || match l2 with [] => false | c :: _ => space3 a b c end
      end
  end.

(** No space starts inside [w] when [tail] follows it. *)
Fixpoint clear_of (w tail : list ascii) : Prop :=
  match w with [] => True | a :: w' => starts_space (w ++ tail) = false /\ clear_of w' tail end.
Definition word (w : list ascii) : Prop := w <> [] /\ clear_of w [].

Lemma clear_of_snoc w a tail : clear_of (w ++ [a]) tail <-> clear_of w (a :: tail) /\ starts_space (a :: tail) = false.
Proof.
  induction w as [|x w IH]; cbn [app clear_of]; [tauto|]. rewrite IH.
  rewrite <- app_assoc. cbn [app]. tauto.
Qed.

Lemma starts_space_app l tail : starts_space (l ++ tail) = false -> starts_space l = false.
Proof.
  destruct l as [|a [|b [|c l]]]; cbn; [done|..]; rewrite ?orb_false_iff; try tauto.
Qed.

Lemma clear_of_end w tail : clear_of w tail -> clear_of w [].
Proof.
  induction w as [|a w IH]; [done|]. cbn [clear_of]. rewrite app_nil_r. intros [H1 H2]. split; [|auto].
  by eapply starts_space_app.
Qed.

Definition SPACE : ascii := " "%char.

Lemma clear_of_space w tail : clear_of w [] -> clear_of w (SPACE :: tail).
Proof.
  induction w as [|a w IH]; [done|]. cbn [clear_of]. rewrite app_nil_r. intros [H1 H2]. split; [|auto].
  assert (forall x, space2 x SPACE = false /\ (forall y, space3 x SPACE y = false /\ space3 x y SPACE = false)) as Hs.
  { intros x. unfold space2, space3, SPACE. cbn. rewrite !andb_false_r. cbn. split; [done|]. intros y. rewrite !andb_false_r. done. }
  destruct w as [|b [|c w]]; cbn in *; rewrite ?orb_false_iff in *; destruct_and?;
    repeat match goal with |- context [space2 ?x SPACE] => rewrite (proj1 (Hs x)) end.
  - split_and!; try done. destruct tail; [done|]. apply Hs.
  - split_and!; try done. apply Hs.
  - done.
Qed.

Lemma fields_step cur a l : starts_space (a :: l) = false -> fields_from cur (a :: l) = fields_from (a :: cur) l.
Proof. cbn. destruct l as [|b [|c l]]; rewrite ?orb_false_iff; intros; destruct_and?; repeat case_match; congruence. Qed.

Lemma fields_word w : forall cur tail, clear_of w tail -> fields_from cur (w ++ tail) = fields_from (rev w ++ cur) tail.
Proof.
  induction w as [|a w IH]; intros cur tail H; [done|]. destruct H as [H1 H2]. cbn [app]. rewrite fields_step by done.
  rewrite IH by done. cbn [rev]. by rewrite <- app_assoc.
Qed.

Lemma fields_join ws : Forall word ws -> fields_from [] (join_byte SPACE ws) = ws.
Proof.
  assert (forall w : list ascii, w <> [] -> forall rest, flush (rev w) rest = w :: rest) as Hfl.
  { intros w Hw rest. unfold flush. destruct (rev w) as [|x l] eqn:Hr; [|by rewrite <- Hr, rev_involutive].
    destruct Hw. by rewrite <- (rev_involutive w), Hr. }
  induction ws as [|w ws IH]; intros H; [done|]. apply Forall_cons in H as [[Hne Hw] Hws]. destruct ws as [|w' ws].
  - cbn. rewrite <- (app_nil_r w) at 1. rewrite fields_word by done. rewrite app_nil_r. cbn. by apply Hfl.
  - cbn [join_byte]. rewrite fields_word by (by apply clear_of_space). rewrite app_nil_r.
    change (flush (rev w) (fields_from [] (join_byte SPACE (w' :: ws))) = w :: w' :: ws). rewrite Hfl, IH; done.
Qed.

(** Every field is a word. *)
Lemma fields_words l : forall cur, clear_of (rev cur) l -> Forall word (fields_from cur l).
Proof.
  assert (forall cur l rest, clear_of (rev cur) l -> Forall word rest -> Forall word (flush cur rest)) as Hfl.
  { intros cur l' rest Hc Hr. unfold flush. destruct cur as [|x cur]; [done|]. constructor; [|done].
    split; [|by eapply clear_of_end]. cbn. intros H. by apply app_eq_nil in H as [_ ?]. }
  remember (length l) as n eqn:Hn. revert l Hn. induction n as [n IH] using lt_wf_ind. intros l Hn cur Hc.
  destruct l as [|a l]; [by eapply Hfl|]. destruct (starts_space (a :: l)) eqn:Hs.
  - cbn. destruct (ascii_space a) eqn:Ha; [eapply Hfl; [done|]; eapply (IH (length l)); [cbn in Hn; lia|done..]|].
    cbn in Hs. rewrite Ha in Hs. destruct l as [|b l]; [done|]. cbn in Hs.
    destruct (space2 a b) eqn:Hb; [eapply Hfl; [done|]; eapply (IH (length l)); [cbn in Hn; lia|done..]|].
    destruct l as [|c l]; [done|]. cbn in Hs. rewrite Hs. eapply Hfl; [done|]. eapply (IH (length l)); [cbn in Hn; lia|done..].
  - rewrite fields_step by done. eapply (IH (length l)); [cbn in Hn; lia|done|]. cbn [rev]. by apply clear_of_snoc.
Qed.

(** ** Records *)
Lemma hex_digit_code c : hex_digit c = true -> (48 <= N_of_ascii c <= 57 \/ 97 <= N_of_ascii c <= 102)%N.
Proof. unfold hex_digit. rewrite orb_true_iff, !andb_true_iff, !N.leb_le. tauto. Qed.

Lemma ToLower_hex s : lower_hex s = true -> ToLower s = s.
Proof.
  unfold lower_hex, ToLower. intros H. rewrite <- (of_bytes_bytes s) at 2. f_equal.
  induction (bytes s) as [|c l IH]; [done|]. cbn [forallb] in H. apply andb_true_iff in H as [Hc Hl].
  apply hex_digit_code in Hc. specialize (IH Hl). cbn [ascii_fold].
  destruct l as [|b [|a l]]; rewrite ?IH; rewrite ?decide_False by lia; done.
Qed.

Definition simple (l : list ascii) : Prop := l <> [] /\ Forall (fun c => GoStrings.plain c = true) l.

Lemma simple_word l : simple l -> word l.
Proof.
  intros [Hne H]. split; [done|]. clear Hne. induction H as [|a l Ha H IH]; [done|]. cbn [clear_of]. rewrite app_nil_r.
  split; [|done]. unfold starts_space. rewrite (proj1 (proj1 (plain_spec a) Ha)).
  destruct l as [|b l]; [done|]. rewrite space2_plain_l by done. destruct l as [|c l]; [done|]. by rewrite space3_plain_l.
Qed.

Lemma hex_simple s : lower_hex s = true -> s <> "" -> simple (bytes s).
Proof.
  unfold lower_hex. intros H Hne. split; [by rewrite bytes_nil|]. rewrite forallb_forall in H. apply Forall_forall.
  intros c Hc. apply list_elem_of_In, H, hex_digit_code in Hc. apply plain_spec. unfold ascii_space, code.
  split; [|lia]. rewrite orb_false_iff, andb_false_iff, !N.leb_gt, N.eqb_neq. lia.
Qed.

Lemma format_decimal_simple n : 0 <= n -> simple (format_decimal n) /\ (n < 2 ^ 63 -> ParseInt (format_decimal n) = Some n).
Proof.
  intros Hn. destruct (decide (n = 0)) as [->|Hz].
  - split; [|intros _; by vm_compute]. split; [by vm_compute|]. apply Forall_singleton. by vm_compute.
  - split; [|intros; apply parse_format; lia]. destruct (format_digits n ltac:(lia)) as (c & l & -> & Hd & _). split; [done|].
    eapply Forall_impl; [exact Hd|]. intros x Hx. apply digit_code in Hx. apply plain_spec. unfold ascii_space, code.
    split; [|lia]. rewrite orb_false_iff, andb_false_iff, !N.leb_gt, N.eqb_neq. lia.
Qed.

Section manifest.
Context (blake2b : list ascii -> list Z)
  (blake2b_size : forall data, length (blake2b data) = 64%nat /\ Forall (fun b => 0 <= b < 256) (blake2b data)).

Lemma sha_hex data : lower_hex (EncodeToString (Sum512 data)) = true /\ String.length (EncodeToString (Sum512 data)) = 128%nat.
Proof. destruct (EncodeToString_hex (Sum512 data) (Sum512_range data)) as [H1 H2]. by rewrite Sum512_length in H2. Qed.
Lemma blake_hex data : lower_hex (EncodeToString (blake2b data)) = true /\ String.length (EncodeToString (blake2b data)) = 128%nat.
Proof. destruct (blake2b_size data) as [Hl Hr]. destruct (EncodeToString_hex _ Hr) as [H1 H2]. by rewrite Hl in H2. Qed.

Lemma long_nonempty s : String.length s = 128%nat -> s <> "".
Proof. by intros H ->. Qed.

(** The bytes of a record are seven words. *)
Definition record_words (name : string) (data : list ascii) : list string :=
  ["DATA"; name; int_text (length data); "BLAKE2B"; EncodeToString (blake2b data); "SHA512"; EncodeToString (Sum512 data)].

Lemma record_bytes name data : bytes (manifestRecord blake2b name data) = join_byte SPACE (bytes <$> record_words name data).
Proof. unfold manifestRecord. rewrite !bytes_app. cbn. by rewrite <- ?app_assoc. Qed.

Lemma record_words_ok name data : word (bytes name) -> Forall word (bytes <$> record_words name data).
Proof.
  intros Hn. destruct (sha_hex data) as [Hs Hsl], (blake_hex data) as [Hb Hbl]. unfold record_words. cbn.
  repeat apply Forall_cons_2; try done; try (apply simple_word; split; [done|]; repeat constructor; by vm_compute).
  - unfold int_text. rewrite bytes_of_bytes. apply simple_word, format_decimal_simple. lia.
  - by apply simple_word, hex_simple, long_nonempty.
  - by apply simple_word, hex_simple, long_nonempty.
Qed.

Lemma record_fields name data : word (bytes name) -> Fields (manifestRecord blake2b name data) = record_words name data.
Proof.
  intros Hn. unfold Fields. rewrite record_bytes, fields_join by (by apply record_words_ok).
  rewrite <- list_fmap_compose. rewrite <- (list_fmap_id (record_words name data)) at 2. apply list_fmap_ext.
  intros _ s _. apply of_bytes_bytes.
Qed.

(** The record of a member is read back. *)
Lemma parse_own_record records name data : word (bytes name) -> Z.of_nat (length data) < 2 ^ 63 -> records !! name = None ->
  parse_record records (manifestRecord blake2b name data) = Ok (<[name := record_of blake2b data]> records).
Proof.
  intros Hn Hlen Hf. destruct (sha_hex data) as [Hs Hsl], (blake_hex data) as [Hb Hbl].
  unfold parse_record. rewrite record_fields by done. unfold record_words. cbv iota beta.
  rewrite decide_True by done. rewrite decide_True by done. unfold int_text. rewrite bytes_of_bytes.
  destruct (format_decimal_simple (Z.of_nat (length data)) ltac:(lia)) as [_ ->]; [|done].
  rewrite decide_True by lia. rewrite !ToLower_hex by done.
  assert (hash_of "SHA512" "BLAKE2B" (EncodeToString (blake2b data)) "SHA512" (EncodeToString (Sum512 data)) = EncodeToString (Sum512 data)) as -> by done.
  assert (hash_of "BLAKE2B" "BLAKE2B" (EncodeToString (blake2b data)) "SHA512" (EncodeToString (Sum512 data)) = EncodeToString (blake2b data)) as -> by done.
  cbv zeta. rewrite decide_True by done. by rewrite decide_True by done.
Qed.

Lemma parse_own_manifest (bd : list (string * list ascii)) : forall records,
  Forall (fun '(b, data) => word (bytes b) /\ Z.of_nat (length data) < 2 ^ 63) bd -> NoDup bd.*1 ->
  (forall b, b ∈ bd.*1 -> records !! b = None) ->
  parse_manifest ((fun '(b, data) => manifestRecord blake2b b data) <$> bd) records =
  Ok (list_to_map ((fun '(b, data) => (b, record_of blake2b data)) <$> reverse bd) ∪ records).
Proof.
  induction bd as [|[b data] bd IH]; intros records Hw Hnd Hf; cbn [fmap list_fmap parse_manifest].
  - cbn. by rewrite map_empty_union.
  - apply Forall_cons in Hw as [[Hb Hl] Hw]. cbn in Hnd. apply NoDup_cons in Hnd as [Hnb Hnd].
    rewrite parse_own_record; [|done|done|apply Hf; set_solver]. cbv iota beta.
    rewrite IH; [|done|done|].
    + f_equal. rewrite reverse_cons, fmap_app, list_to_map_app. cbn. rewrite <- map_union_assoc. f_equal.
      by rewrite insert_empty, insert_union_singleton_l.
    + intros x Hx. rewrite lookup_insert_ne; [apply Hf; set_solver|]. by intros ->.
Qed.

(** *** The text of the manifest *)
Lemma word_no_space w tail : clear_of w tail -> Forall (fun c => ascii_space c = false) w.
Proof.
  revert tail. induction w as [|a w IH]; intros tail H; [done|]. destruct H as [H1 H2]. constructor; [|by eapply IH].
  cbn in H1. by apply orb_false_iff in H1 as [? _].
Qed.

Lemma elem_of_join c x ll : x ∈ join_byte c ll -> x = c \/ exists l, l ∈ ll /\ x ∈ l.
Proof.
  induction ll as [|l ll IH]; [by intros ?%elem_of_nil|]. destruct ll as [|l' ll].
  - cbn. intros Hx. right. exists l. split; [set_solver|done].
  - cbn [join_byte]. intros [Hx|[->|Hx]%elem_of_cons]%elem_of_app; [|by left|].
    + right. exists l. split; [set_solver|done].
    + destruct (IH Hx) as [?|(k & Hk & Hxk)]; [by left|]. right. exists k. split; [set_solver|done].
Qed.

Lemma record_no_newline name data : word (bytes name) -> NEWLINE ∉ bytes (manifestRecord blake2b name data).
Proof.
  intros Hn. rewrite record_bytes. intros [?|(w & Hw & Hin)]%elem_of_join; [done|].
  pose proof (record_words_ok name data Hn) as Hok. rewrite Forall_forall in Hok. destruct (Hok w Hw) as [_ Hc].
  apply word_no_space in Hc. rewrite Forall_forall in Hc. specialize (Hc _ Hin). by vm_compute in Hc.
Qed.

Lemma record_ends name data : exists x c, bytes (manifestRecord blake2b name data) = "D"%char :: x ++ [c] /\ GoStrings.plain c = true.
Proof.
  destruct (sha_hex data) as [Hs Hsl].
  destruct (hex_simple _ Hs (long_nonempty _ Hsl)) as [Hne Hp].
  destruct (exists_last Hne) as (x & c & Hx). exists (bytes ("ATA " +:+ name +:+ " " +:+ int_text (length data) +:+ " BLAKE2B " +:+
    EncodeToString (blake2b data) +:+ " SHA512 ") ++ x), c. split.
  - unfold manifestRecord. rewrite !bytes_app, Hx. cbn. by repeat (rewrite <- app_assoc; cbn [app]).
  - rewrite Hx in Hp. apply Forall_app in Hp as [_ Hp]. by apply Forall_cons in Hp as [? _].
Qed.

Lemma join_ends (rs : list (list ascii)) : rs <> [] ->
  Forall (fun r => exists x c, r = "D"%char :: x ++ [c] /\ GoStrings.plain c = true) rs ->
  exists x c, join_byte NEWLINE rs = "D"%char :: x ++ [c] /\ GoStrings.plain c = true.
Proof.
  induction rs as [|r rs IH]; [done|]. intros _ H. apply Forall_cons in H as [(x & c & -> & Hc) Hrs]. destruct rs as [|r' rs].
  - exists x, c. done.
  - destruct (IH ltac:(done) Hrs) as (y & e & Hy & He). exists ((x ++ [c]) ++ NEWLINE :: "D"%char :: y), e.
    split; [|done]. change (("D"%char :: x ++ [c]) ++ NEWLINE :: join_byte NEWLINE (r' :: rs) =
      "D"%char :: ((x ++ [c]) ++ NEWLINE :: "D"%char :: y) ++ [e]). rewrite Hy. cbn. by repeat (rewrite <- app_assoc; cbn [app]).
Qed.

Lemma Join_bytes rs : bytes (Join rs (String NEWLINE "")) = join_byte NEWLINE (bytes <$> rs).
Proof.
  induction rs as [|r rs IH]; [done|]. destruct rs as [|r' rs]; [done|]. cbn [Join fmap list_fmap join_byte] in *.
  rewrite !bytes_app, IH. done.
Qed.

Lemma manifest_lines (bd : list (string * list ascii)) : bd <> [] -> Forall (fun '(b, _) => word (bytes b)) bd ->
  let records := (fun '(b, data) => manifestRecord blake2b b data) <$> bd in
  lines (TrimSpace (of_bytes (bytes (Join records (String NEWLINE "") +:+ String NEWLINE "")))) = records.
Proof.
  intros Hne Hw records. set (rs := bytes <$> records).
  assert (exists x c, join_byte NEWLINE rs = "D"%char :: x ++ [c] /\ GoStrings.plain c = true) as (x & c & Hj & Hc).
  { apply join_ends; [by destruct bd|]. unfold rs, records. rewrite <- list_fmap_compose. apply Forall_fmap, Forall_forall.
    intros [b data] _. apply record_ends. }
  assert (TrimSpace (of_bytes (bytes (Join records (String NEWLINE "") +:+ String NEWLINE ""))) = of_bytes (join_byte NEWLINE rs)) as ->.
  { unfold TrimSpace. rewrite bytes_of_bytes, bytes_app, Join_bytes. fold rs. rewrite Hj. f_equal.
    cbn [app]. rewrite trim_left_plain by done.
    replace (rev ("D"%char :: (x ++ [c]) ++ bytes (String NEWLINE ""))) with (NEWLINE :: c :: rev x ++ ["D"%char])
      by (cbn; by rewrite !rev_app_distr).
    change (rev (trim_left_rev (c :: rev x ++ ["D"%char])) = "D"%char :: x ++ [c]).
    rewrite trim_left_rev_plain by done. cbn [rev]. by rewrite rev_app_distr, rev_involutive. }
  unfold lines. rewrite bytes_of_bytes, split_join.
  - unfold rs. rewrite <- list_fmap_compose. rewrite <- (list_fmap_id records) at 2. apply list_fmap_ext. intros _ r _. apply of_bytes_bytes.
  - by destruct bd.
  - unfold rs, records. rewrite <- list_fmap_compose. apply Forall_fmap, Forall_forall. intros [b data] Hb.
    rewrite Forall_forall in Hw. specialize (Hw _ Hb). by apply record_no_newline.
Qed.

(** *** The manifest of a package verifies it *)
Lemma Base_member prefix name : SLASH ∉ bytes name -> Base (prefix +:+ "/" +:+ name) = name.
Proof.
  intros H. unfold Base. rewrite !bytes_app. change (bytes "/") with [SLASH]. cbn [app].
  rewrite split_byte_app, (split_byte_free SLASH (bytes name)) by done. rewrite last_snoc. cbn. apply of_bytes_bytes.
Qed.

Definition member_of (prefix : string) (nd : string * list ascii) : gpkgMember := mkMember (prefix +:+ "/" +:+ nd.1) nd.2.
Definition key_of (nd : string * list ascii) : string * record := (nd.1, record_of blake2b nd.2).

Lemma keys_fst (l : list (string * list ascii)) : (key_of <$> l).*1 = l.*1.
Proof. rewrite <- list_fmap_compose. apply list_fmap_ext. by intros. Qed.

Lemma match_own prefix (l : list (string * list ascii)) : NoDup l.*1 -> Forall (fun nd => SLASH ∉ bytes nd.1) l ->
  match_members blake2b (member_of prefix <$> l) (list_to_map (key_of <$> l)) = Ok ∅.
Proof.
  induction l as [|[n d] l IH]; intros Hnd Hs; [done|]. apply Forall_cons in Hs as [Hn Hs]. cbn in Hnd, Hn.
  apply NoDup_cons in Hnd as [Hnl Hnd]. rewrite !fmap_cons.
  change (list_to_map (key_of (n, d) :: (key_of <$> l)) : gmap string record)
    with (<[n := record_of blake2b d]> (list_to_map (key_of <$> l) : gmap string record)).
  cbn [match_members]. change (Base (gm_name (member_of prefix (n, d)))) with (Base (prefix +:+ "/" +:+ n)). cbv zeta.
  rewrite Base_member by done. rewrite lookup_insert_eq, decide_True by done.
  rewrite delete_insert_id; [by apply IH|]. apply not_elem_of_list_to_map_1. by rewrite keys_fst.
Qed.

Lemma verify_own prefix (bd : list (string * list ascii)) : bd <> [] -> NoDup bd.*1 ->
  Forall (fun nd => word (bytes nd.1) /\ SLASH ∉ bytes nd.1 /\ Z.of_nat (length nd.2) < 2 ^ 63) bd ->
  verifyManifest blake2b
    (of_bytes (bytes (Join ((fun '(b, data) => manifestRecord blake2b b data) <$> bd) (String NEWLINE "") +:+ String NEWLINE "")))
    (members_list prefix (list_to_map bd)) = Ok tt.
Proof.
  intros Hne Hnd Hok. unfold verifyManifest. rewrite manifest_lines; [|done|].
  2:{ eapply Forall_impl; [exact Hok|]. intros [b data]. cbn. tauto. }
  rewrite parse_own_manifest; [| |done|by intros; apply lookup_empty].
  2:{ eapply Forall_impl; [exact Hok|]. intros [b data]. cbn. tauto. }
  rewrite map_union_empty. cbv iota beta.
  assert (map_to_list (list_to_map bd : gmap string (list ascii)) ≡ₚ bd) as Hp by (by apply map_to_list_to_map).
  replace (list_to_map ((fun '(b, data) => (b, record_of blake2b data)) <$> reverse bd) : gmap string record)
    with (list_to_map (key_of <$> map_to_list (list_to_map bd : gmap string (list ascii))) : gmap string record).
  - unfold members_list.
    replace ((fun '(name, data) => mkMember (prefix +:+ "/" +:+ name) data) <$> map_to_list (list_to_map bd : gmap string (list ascii)))
      with (member_of prefix <$> map_to_list (list_to_map bd : gmap string (list ascii)))
      by (apply list_fmap_ext; by intros _ [? ?] _).
    rewrite match_own; [by rewrite decide_True| |].
    + by rewrite Hp.
    + rewrite Hp. eapply Forall_impl; [exact Hok|]. cbn. tauto.
  - apply list_to_map_proper.
    + rewrite keys_fst. by rewrite Hp.
    + replace ((fun '(b, data) => (b, record_of blake2b data)) <$> reverse bd) with (key_of <$> reverse bd)
        by (apply list_fmap_ext; by intros _ [? ?] _).
      apply fmap_Permutation. by rewrite Hp, reverse_Permutation.
Qed.
End manifest.

(** ** Names *)
Lemma member_parts_some name p b : member_parts name = Some (p, b) ->
  name = p +:+ "/" +:+ b /\ SLASH ∉ bytes p /\ SLASH ∉ bytes b /\ p <> "" /\ b <> "" /\ Clean name = name.
Proof.
  unfold member_parts. case_decide as Hc; [|done].
  destruct (split_byte SLASH (bytes name)) as [|x [|y [|z l]]] eqn:Hs; try done. case_decide as Hn; [done|]. intros [= <- <-].
  pose proof (split_byte_parts SLASH (bytes name)) as Hp. rewrite Hs in Hp.
  apply Forall_cons in Hp as [Hx Hp]. apply Forall_cons in Hp as [Hy _]. rewrite !bytes_of_bytes.
  split_and!; try done.
  - apply bytes_inj. rewrite !bytes_app, !bytes_of_bytes. rewrite <- (join_split SLASH (bytes name)), Hs. done.
  - intros H. apply Hn. left. by rewrite <- (bytes_of_bytes x), H.
  - intros H. apply Hn. right. by rewrite <- (bytes_of_bytes y), H.
Qed.

Lemma member_parts_split p b : SLASH ∉ bytes p -> SLASH ∉ bytes b -> p <> "" -> b <> "" ->
  Clean (p +:+ "/" +:+ b) = p +:+ "/" +:+ b -> member_parts (p +:+ "/" +:+ b) = Some (p, b).
Proof.
  intros Hp Hb Hpn Hbn Hc. unfold member_parts. rewrite decide_True by done. rewrite !bytes_app. change (bytes "/") with [SLASH].
  cbn [app]. rewrite split_byte_app, !split_byte_free by done. cbn [app]. rewrite decide_False.
  - by rewrite !of_bytes_bytes.
  - rewrite !bytes_nil. tauto.
Qed.

Lemma clean_two p b : SLASH ∉ p -> SLASH ∉ b -> p <> [] ->
  clean_bytes (p ++ SLASH :: b) =
  let out := join_byte SLASH (clean_components false [p; b]) in if decide (out = []) then DOT else out.
Proof.
  intros Hp Hb Hn. unfold clean_bytes. assert (slashed (p ++ SLASH :: b) = false) as ->.
  { destruct p as [|c p]; [done|]. cbn. apply bool_decide_eq_false_2. intros ->. set_solver. }
  by rewrite split_byte_app, !split_byte_free.
Qed.

(** The prefix of a member keeps another proper name clean. *)
Lemma clean_sibling p b b' : SLASH ∉ bytes p -> SLASH ∉ bytes b -> p <> "" -> b <> "" ->
  Clean (p +:+ "/" +:+ b) = p +:+ "/" +:+ b -> proper (bytes b') -> Clean (p +:+ "/" +:+ b') = p +:+ "/" +:+ b'.
Proof.
  intros Hp Hb Hpn Hbn Hc (Hb1 & Hb2 & Hb3 & Hb4). unfold Clean in *. rewrite !bytes_app in *. change (bytes "/") with [SLASH] in *.
  cbn [app] in *. apply (f_equal bytes) in Hc. rewrite bytes_of_bytes, !bytes_app in Hc. change (bytes "/") with [SLASH] in Hc.
  cbn [app] in Hc. apply bytes_inj. rewrite bytes_of_bytes, !bytes_app. change (bytes "/") with [SLASH]. cbn [app].
  assert (bytes p <> []) as Hpn' by (by rewrite bytes_nil). rewrite clean_two in Hc |- * by done. cbv zeta in *.
  assert (bytes p <> DOT) as Hdot.
  { intros Hd. rewrite Hd in Hc. assert (clean_components false [DOT; bytes b] = if decide (bytes b = DOT) then [] else [bytes b]) as Hcc.
    { unfold clean_components. change (foldl (clean_component false) [] [DOT; bytes b]) with (clean_component false [] (bytes b)).
      unfold clean_component. assert (bytes b <> []) by (by rewrite bytes_nil).
      destruct (decide (bytes b = DOT)) as [Hx|Hx]; [by rewrite decide_True by tauto|]. rewrite decide_False by tauto.
      destruct (decide (bytes b = DOTDOT)) as [Hy|Hy]; [by rewrite Hy|done]. }
    rewrite Hcc in Hc. apply (f_equal length) in Hc. revert Hc. rewrite length_app. cbn [length].
    destruct (decide (bytes b = DOT)); cbn [join_byte]; case_decide; change (length DOT) with 1%nat; try lia; done. }
  assert (clean_components false [bytes p; bytes b'] = [bytes p; bytes b']) as ->.
  { unfold clean_components.
    change (foldl (clean_component false) [] [bytes p; bytes b']) with (clean_component false (clean_component false [] (bytes p)) (bytes b')).
    rewrite (clean_component_proper false _ (bytes b')) by done. unfold clean_component. rewrite decide_False by tauto.
    destruct (decide (bytes p = DOTDOT)) as [Hy|Hy]; [by rewrite Hy|done]. }
  cbn. by destruct (bytes p).
Qed.

(** ** Suffixes *)
Lemma ends_with_app s suffix : ends_with suffix (s +:+ suffix) = true.
Proof. apply bool_decide_eq_true_2. rewrite bytes_app. by exists (bytes s). Qed.

Lemma trim_suffix_app s suffix : trim_suffix suffix (s +:+ suffix) = s.
Proof.
  unfold trim_suffix. rewrite ends_with_app. rewrite <- !length_bytes, bytes_app, length_app, Nat.add_sub.
  rewrite take_app_length. apply of_bytes_bytes.
Qed.

Lemma trim_suffix_other s suffix : ends_with suffix s = false -> trim_suffix suffix s = s.
Proof. unfold trim_suffix. by intros ->. Qed.

(** A suffix without a slash is one of the last component. *)
Lemma ends_with_member p b : ends_with ".sig" (p +:+ "/" +:+ b) = ends_with ".sig" b.
Proof.
  unfold ends_with. apply bool_decide_ext. rewrite !bytes_app. split.
  - intros [k Hk]. destruct (decide (4 <= length (bytes b))%nat) as [Hl|Hl].
    + exists (drop (length (bytes p) + 1) k). apply (f_equal (drop (length (bytes p) + 1))) in Hk.
      rewrite app_assoc, drop_app_length' in Hk by (rewrite length_app; done). rewrite Hk.
      rewrite drop_app_le; [done|]. apply (f_equal length) in Hk. rewrite length_drop, length_app in Hk. cbn in Hk. lia.
    + exfalso. apply (f_equal (fun l => reverse l !! length (bytes b))) in Hk. rewrite !reverse_app in Hk.
      rewrite lookup_app_l in Hk by (rewrite length_app, !length_reverse; cbn; lia).
      rewrite lookup_app_r in Hk by (rewrite length_reverse; lia). rewrite length_reverse, Nat.sub_diag in Hk.
      rewrite lookup_app_l in Hk by (cbn; lia). destruct (length (bytes b)) as [|[|[|[|n]]]]; try done.
  - intros [k ->]. exists (bytes p ++ bytes "/" ++ k). by rewrite <- !app_assoc.
Qed.

Lemma Base_suffix p b suffix : SLASH ∉ bytes b -> SLASH ∉ bytes suffix -> Base ((p +:+ "/" +:+ b) +:+ suffix) = b +:+ suffix.
Proof.
  intros Hb Hs. replace ((p +:+ "/" +:+ b) +:+ suffix) with (p +:+ "/" +:+ (b +:+ suffix)).
  - apply Base_member. rewrite bytes_app. set_solver.
  - apply bytes_inj. rewrite !bytes_app. by rewrite <- !app_assoc.
Qed.

(** ** What the reader accepts *)
Definition member_ok (p : string) (m : gpkgMember) : Prop :=
  exists b, member_parts (gm_name m) = Some (p, b) /\ b <> "Manifest" /\ ends_with ".sig" b = false /\
    Z.of_nat (length (gm_data m)) <= Z.shiftl 16 30.

Record read_ok (st : read_state) : Prop := {
  ro_names : NoDup (gm_name <$> rd_members st);
  ro_seen : forall m, m ∈ rd_members st -> gm_name m ∈ rd_seen st;
  ro_members : Forall (member_ok (rd_prefix st)) (rd_members st)
}.

Lemma read_entry_ok st e st' : read_ok st -> (rd_members st = [] \/ rd_prefix st <> "") -> read_entry st e = Ok st' ->
  read_ok st' /\ rd_prefix st' <> "".
Proof.
  intros [Hn Hs Hm] Hp H. unfold read_entry in H. inv_ok_step H.
  destruct (member_parts (te_name e)) as [[p b]|] eqn:Hparts; [|done]. do 2 inv_ok_step H. cbv zeta in H. inv_ok_step H.
  apply member_parts_some in Hparts as Hname. destruct Hname as (_ & _ & _ & Hpn & _).
  assert (Forall (member_ok p) (rd_members st)) as Hm'.
  { destruct Hp as [Hp|Hp]; [by rewrite Hp|]. destruct Hc0 as [?|<-]; [done|done]. }
  case_decide as Hb; [|inv_ok_step H]; injection H as <-; (split; [|done]); split; cbn.
  - done.
  - intros m Hm1. specialize (Hs m Hm1). set_solver.
  - done.
  - rewrite fmap_app. apply NoDup_app. split_and!; [done| |apply NoDup_singleton].
    intros x (m & -> & Hm1)%list_elem_of_fmap Hx%list_elem_of_singleton. cbn in Hx. apply Hc1. rewrite <- Hx. by apply Hs.
  - intros m [Hm1|Hm1%list_elem_of_singleton]%elem_of_app; [specialize (Hs m Hm1); set_solver|]. subst m. cbn. set_solver.
  - apply Forall_app_2; [done|]. apply Forall_singleton. exists b. done.
Qed.

Lemma read_entries_ok es : forall st st', read_ok st -> (rd_members st = [] \/ rd_prefix st <> "") ->
  read_entries st es = Ok st' -> read_ok st'.
Proof.
  induction es as [|e es IH]; intros st st' Hok Hp H; cbn [read_entries] in H; [by injection H as <-|].
  inv_ok_step H. destruct (read_entry_ok st e a Hok Hp E) as [Ha Hpa]. eapply IH; [exact Ha|by right|exact H].
Qed.

(** Every name of a member that a manifest verifies is a word. *)
Lemma parse_manifest_words ls : forall records records', parse_manifest ls records = Ok records' ->
  (forall k, is_Some (records !! k) -> word (bytes k)) -> forall k, is_Some (records' !! k) -> word (bytes k).
Proof.
  induction ls as [|line ls IH]; intros records records' H Hw; cbn [parse_manifest] in H; [by injection H as <-|].
  inv_ok_step H. eapply IH; [exact H|]. unfold parse_record in E.
  destruct (Fields line) as [|tag [|name [|size [|k1 [|v1 [|k2 [|v2 [|? ?]]]]]]]] eqn:Hf; try done.
  do 2 inv_ok_step E. destruct (ParseInt _) as [n|]; [|done]. do 3 inv_ok_step E. injection E as <-.
  intros k. destruct (decide (k = name)) as [->|Hne]; [|rewrite lookup_insert_ne by done; apply Hw]. intros _.
  pose proof (fields_words (bytes line) [] I) as Hall. rewrite Forall_forall in Hall.
  apply Hall. assert (name ∈ Fields line) as Hin by (rewrite Hf; set_solver). unfold Fields in Hin.
  apply list_elem_of_fmap in Hin as (w & -> & Hin). by rewrite bytes_of_bytes.
Qed.

Lemma match_members_some blake ms : forall records records', match_members blake ms records = Ok records' ->
  forall m, m ∈ ms -> is_Some (records !! Base (gm_name m)).
Proof.
  induction ms as [|m ms IH]; intros records records' H x Hx; [by apply elem_of_nil in Hx|]. cbn [match_members] in H. cbv zeta in H.
  inv_ok_step H. apply elem_of_cons in Hx as [->|Hx]; [by rewrite Hc|].
  destruct (IH _ _ H x Hx) as [r Hr]. apply lookup_delete_Some in Hr as [_ Hr]. by eexists.
Qed.

Lemma verified_words blake text ms : verifyManifest blake text ms = Ok tt -> forall m, m ∈ ms -> word (bytes (Base (gm_name m))).
Proof.
  unfold verifyManifest. intros H m Hm. inv_ok_step H. inv_ok_step H.
  eapply (parse_manifest_words _ _ _ E); [by intros k [? ?%lookup_empty_Some]|]. by eapply match_members_some.
Qed.

(** A word followed by ordinary characters is a word. *)
Lemma clear_of_plain w c tail : GoStrings.plain c = true -> clear_of w [] -> clear_of w (c :: tail).
Proof.
  intros Hc. induction w as [|a w IH]; [done|]. cbn [clear_of]. rewrite app_nil_r. intros [H1 H2]. split; [|auto].
  destruct w as [|b [|e w]]; cbn in *; rewrite ?orb_false_iff in *; destruct_and?; split_and?; try done.
  - by apply space2_plain_r.
  - destruct tail; [done|]. by apply space3_plain_m.
  - by apply space3_plain_r.
Qed.

Lemma word_app w v : word w -> simple v -> word (w ++ v).
Proof.
  intros [Hne Hw] Hv. split; [intros H; by apply app_eq_nil in H as [? _]|].
  pose proof (simple_word v Hv) as [Hvn Hvc]. destruct Hv as [_ Hp].
  destruct v as [|c v]; [done|]. apply Forall_cons in Hp as [Hc _]. clear Hne.
  assert (clear_of w (c :: v)) as Hw' by (by apply clear_of_plain). clear Hw.
  induction w as [|a w IH]; [done|]. destruct Hw' as [H1 H2]. cbn [app clear_of]. rewrite app_nil_r. split; [exact H1|auto].
Qed.

(** ** What the signer writes *)
Section pairs.
Context (sign : list ascii -> bool -> option (list ascii)).

(** The members of the output as names and contents, signature after payload. *)
Inductive signed_pairs : list gpkgMember -> list (string * list ascii) -> Prop :=
| sp_nil : signed_pairs [] []
| sp_version m ms bd : Base (gm_name m) = "gpkg-1" -> signed_pairs ms bd ->
    signed_pairs (m :: ms) ((Base (gm_name m), gm_data m) :: bd)
| sp_payload m ms s bd : Base (gm_name m) <> "gpkg-1" -> sign (gm_data m) true = Some s -> signed_pairs ms bd ->
    signed_pairs (m :: ms) ((Base (gm_name m), gm_data m) :: (Base (gm_name m) +:+ ".sig", s) :: bd).

Lemma signed_pairs_elem ms bd b d : signed_pairs ms bd -> (b, d) ∈ bd ->
  (exists m, m ∈ ms /\ b = Base (gm_name m) /\ d = gm_data m /\
     (b <> "gpkg-1" -> exists s, sign d true = Some s /\ (b +:+ ".sig", s) ∈ bd)) \/
  (exists m, m ∈ ms /\ Base (gm_name m) <> "gpkg-1" /\ b = Base (gm_name m) +:+ ".sig" /\
     sign (gm_data m) true = Some d /\ (Base (gm_name m), gm_data m) ∈ bd).
Proof.
  induction 1 as [|m ms bd Hv H IH|m ms s bd Hv Hs H IH]; [by intros ?%elem_of_nil|..].
  - intros [[= -> ->]|Hin]%elem_of_cons.
    + left. exists m. split_and!; [set_solver|done|done|done].
    + destruct (IH Hin) as [(x & Hx & -> & -> & Hsig)|(x & Hx & Hne & -> & Hsig & Hp)]; [left|right]; exists x;
        (split_and!; [set_solver|try done..]); [|by apply elem_of_cons; right].
      intros Hb. destruct (Hsig Hb) as (s & ? & ?). exists s. split; [done|by apply elem_of_cons; right].
  - intros [[= -> ->]|[[= -> ->]|Hin]%elem_of_cons]%elem_of_cons.
    + left. exists m. split_and!; [set_solver|done|done|]. intros _. exists s. split; [done|]. set_solver.
    + right. exists m. split_and!; [set_solver|done|done|done|]. set_solver.
    + destruct (IH Hin) as [(x & Hx & -> & -> & Hsig)|(x & Hx & Hne & -> & Hsig & Hp)]; [left|right]; exists x;
        (split_and!; [set_solver|try done..]); [|by do 2 (apply elem_of_cons; right)].
      intros Hb. destruct (Hsig Hb) as (s' & ? & ?). exists s'. split; [done|by do 2 (apply elem_of_cons; right)].
Qed.

Lemma signed_pairs_payload ms bd m : signed_pairs ms bd -> m ∈ ms -> (Base (gm_name m), gm_data m) ∈ bd.
Proof. induction 1 as [|x ms bd Hv H IH|x ms s bd Hv Hs H IH]; [by intros ?%elem_of_nil|..]; set_solver. Qed.

(** Names stay distinct. *)
Lemma signed_pairs_nodup ms bd : signed_pairs ms bd -> NoDup ((fun m => Base (gm_name m)) <$> ms) ->
  Forall (fun m => ends_with ".sig" (Base (gm_name m)) = false) ms -> NoDup bd.*1.
Proof.
  induction 1 as [|m ms bd Hv H IH|m ms s bd Hv Hs H IH]; intros Hnd Hsig; [constructor|..];
    rewrite fmap_cons in Hnd; apply NoDup_cons in Hnd as [Hm Hnd]; apply Forall_cons in Hsig as [Hms Hsig];
    specialize (IH Hnd Hsig).
  all: assert (forall b, b ∈ bd.*1 -> (exists x, x ∈ ms /\ (b = Base (gm_name x) \/ b = Base (gm_name x) +:+ ".sig"))) as Hel
    by (intros b ([b' d] & -> & Hin)%list_elem_of_fmap; destruct (signed_pairs_elem _ _ _ _ H Hin) as [(x & ? & ? & _)|(x & ? & _ & ? & _)]; eauto).
  all: assert (Base (gm_name m) ∉ bd.*1) as Hnew by
    (intros Hin; destruct (Hel _ Hin) as (x & Hx & [Heq|Heq]);
     [apply Hm; rewrite Heq; by apply (list_elem_of_fmap_2 (fun m => Base (gm_name m)))|
      rewrite Heq, ends_with_app in Hms; done]).
  - cbn. by constructor.
  - cbn. constructor; [|constructor; [|done]].
    + intros [Heq|Hin]%elem_of_cons; [|done]. rewrite Heq, ends_with_app in Hms. done.
    + intros Hin. destruct (Hel _ Hin) as (x & Hx & [Heq|Heq]).
      * rewrite Forall_forall in Hsig. specialize (Hsig x Hx). rewrite <- Heq, ends_with_app in Hsig. done.
      * apply (f_equal (trim_suffix ".sig")) in Heq. rewrite !trim_suffix_app in Heq. apply Hm. rewrite Heq.
        by apply (list_elem_of_fmap_2 (fun m => Base (gm_name m))).
Qed.

(** *** The sort moves nothing *)
Fixpoint chain {A} (less : A -> A -> bool) (prev : option A) (l : list A) : Prop :=
  match l with
  | [] => True
  | x :: l => match prev with Some y => less x y = false | None => True end /\ chain less (Some x) l
  end.

Lemma SliceStable_chain {A} (less : A -> A -> bool) (l : list A) : chain less None l -> SliceStable less l = l.
Proof.
  assert (forall l y acc, chain less (Some y) l ->
    foldl (fun sorted x => insert_stable less x sorted) (y :: acc) l = rev l ++ y :: acc) as H.
  { clear l. induction l as [|x l IH]; intros y acc Hc; [done|]. destruct Hc as [Hx Hc]. cbn. rewrite Hx, IH by done.
    by rewrite <- app_assoc. }
  unfold SliceStable. destruct l as [|x l]; [done|]. intros [_ Hc]. cbn. rewrite (H l x []) by done.
  by rewrite rev_app_distr, rev_involutive.
Qed.

Lemma index_before pre post m : m ∈ pre -> (indexOfMember (pre ++ post) (gm_name m) < length pre)%nat.
Proof.
  induction pre as [|x pre IH]; [by intros ?%elem_of_nil|]. intros [->|Hin]%elem_of_cons; cbn.
  - rewrite decide_True by done. lia.
  - case_decide; [lia|]. specialize (IH Hin). lia.
Qed.

Lemma index_at pre post m : gm_name m ∉ gm_name <$> pre -> indexOfMember (pre ++ m :: post) (gm_name m) = length pre.
Proof.
  induction pre as [|x pre IH]; cbn; intros H.
  - by rewrite decide_True.
  - apply not_elem_of_cons in H as [Hne H]. rewrite decide_False by done. by rewrite IH.
Qed.

Lemma chain_pairs p ms bd : signed_pairs ms bd -> forall pre prev,
  Forall (fun m => gm_name m = p +:+ "/" +:+ Base (gm_name m) /\ ends_with ".sig" (gm_name m) = false) ms ->
  NoDup (gm_name <$> pre ++ ms) ->
  match prev with Some y => exists m0, m0 ∈ pre /\ trim_suffix ".sig" (gm_name y) = gm_name m0 | None => True end ->
  chain (member_less (pre ++ ms)) prev (member_of p <$> bd).
Proof.
  assert (forall m pre ms y, ends_with ".sig" (gm_name m) = false -> NoDup (gm_name <$> pre ++ m :: ms) ->
    (exists m0, m0 ∈ pre /\ trim_suffix ".sig" (gm_name y) = gm_name m0) -> forall x, gm_name x = gm_name m ->
    member_less (pre ++ m :: ms) x y = false) as Hstep.
  { intros m pre ms' y Hs Hnd (m0 & Hm0 & Hy) x Hx. unfold member_less. rewrite Hx, Hy, trim_suffix_other by done.
    rewrite fmap_app, fmap_cons in Hnd. apply NoDup_app in Hnd as (_ & Hdis & _).
    assert (gm_name m ∉ gm_name <$> pre) as Hnew.
    { intros Hin. apply (Hdis _ Hin). set_solver. }
    rewrite decide_False.
    - rewrite index_at by done. pose proof (index_before pre (m :: ms') m0 Hm0). apply Nat.ltb_ge. lia.
    - intros Heq. apply Hnew. rewrite Heq. by apply list_elem_of_fmap_2. }
  induction 1 as [|m ms bd Hv H IH|m ms s bd Hv Hs H IH]; intros pre prev Hn Hnd Hp; [done|..];
    apply Forall_cons in Hn as [[Hm Hms] Hn]; rewrite !fmap_cons;
    assert (gm_name (member_of p (Base (gm_name m), gm_data m)) = gm_name m) as Hx by (cbn; by rewrite <- Hm);
    assert (pre ++ m :: ms = (pre ++ [m]) ++ ms) as Happ by (by rewrite <- app_assoc).
  - cbn [chain]. split; [destruct prev as [y|]; [by apply Hstep|done]|]. rewrite Happ in *. apply IH; [done|done|].
    exists m. split; [set_solver|]. by rewrite Hx, trim_suffix_other.
  - assert (gm_name (member_of p (Base (gm_name m) +:+ ".sig", s)) = gm_name m +:+ ".sig") as Hx'.
    { cbn [member_of gm_name fst]. rewrite Hm at 2. apply bytes_inj. rewrite !bytes_app. by rewrite <- !app_assoc. }
    cbn [chain]. split; [destruct prev as [y|]; [by apply Hstep|done]|]. split.
    + unfold member_less. rewrite Hx, Hx', trim_suffix_app, trim_suffix_other by done. by rewrite decide_True, ends_with_app.
    + rewrite Happ in *. apply IH; [done|done|]. exists m. split; [set_solver|]. by rewrite Hx', trim_suffix_app.
Qed.
End pairs.

Section signing.
Context (blake2b : list ascii -> list Z) (sign : list ascii -> bool -> option (list ascii)).
Notation signed_pairs := (signed_pairs sign).

Lemma sign_members_shape p ms : forall out records,
  Forall (fun m => gm_name m = p +:+ "/" +:+ Base (gm_name m)) ms -> sign_members blake2b sign ms = Ok (out, records) ->
  exists bd, signed_pairs ms bd /\ out = member_of p <$> bd /\
    records = (fun '(b, data) => manifestRecord blake2b b data) <$> bd.
Proof.
  induction ms as [|m ms IH]; intros out records Hn H; cbn [sign_members] in H; cbv zeta in H.
  - injection H as <- <-. exists []. split_and!; [constructor|done|done].
  - apply Forall_cons in Hn as [Hm Hn]. assert (member_of p (Base (gm_name m), gm_data m) = m) as Hself.
    { unfold member_of. cbn [fst snd]. rewrite <- Hm. by destruct m. }
    case_decide as Hv; [cbv iota beta in H|destruct (sign (gm_data m) true) as [s|] eqn:Hs; [cbv iota beta in H|done]];
      (inv_ok_step H; destruct a as [rest more]; injection H as <- <-; destruct (IH _ _ Hn eq_refl) as (bd & Hbd & -> & ->)).
    + eexists. split; [by apply sp_version|]. rewrite !fmap_cons, Hself. done.
    + eexists. split; [by apply sp_payload|]. rewrite !fmap_cons, Hself. split; [|done]. cbn [app]. do 2 f_equal.
      unfold member_of. cbn [fst snd]. f_equal. rewrite Hm at 1. apply bytes_inj. rewrite !bytes_app. by rewrite <- !app_assoc.
Qed.

Lemma signed_pairs_total ms : (forall m, m ∈ ms -> sign (gm_data m) true <> None) ->
  exists out records, sign_members blake2b sign ms = Ok (out, records).
Proof.
  induction ms as [|m ms IH]; intros H; [by eexists _, _|]. cbn [sign_members]. cbv zeta.
  destruct IH as (out & records & ->); [intros x Hx; apply H; set_solver|].
  case_decide; [by eexists _, _|]. destruct (sign (gm_data m) true) eqn:Hs; [by eexists _, _|].
  by destruct (H m ltac:(set_solver)).
Qed.

End signing.

(** ** Verification *)
Section verify.
Context (blake2b : list ascii -> list Z) (verifyDetached : list ascii -> list ascii -> bool)
        (verifyClearSigned : list ascii -> option (list ascii)) (sign : list ascii -> bool -> option (list ascii)).

Lemma signed_members_own p (bd : list (string * list ascii)) : forall pre members,
  Forall (fun nd => member_parts (p +:+ "/" +:+ nd.1) = Some (p, nd.1)) bd -> NoDup bd.*1 -> pre = "" \/ pre = p ->
  (forall b, b ∈ bd.*1 -> members !! b = None) -> bd <> [] ->
  signed_members (member_entry <$> (member_of p <$> bd)) pre members = Ok (p, list_to_map bd ∪ members).
Proof.
  induction bd as [|[b d] bd IH]; intros pre members Hp Hnd Hpre Hm Hne; [done|]. apply Forall_cons in Hp as [Hb Hp].
  cbn [fst] in Hb. cbn in Hnd. apply NoDup_cons in Hnd as [Hnb Hnd]. rewrite !fmap_cons. cbn [signed_members].
  change (te_regular (member_entry (member_of p (b, d)))) with true.
  change (te_name (member_entry (member_of p (b, d)))) with (p +:+ "/" +:+ b).
  change (te_data (member_entry (member_of p (b, d)))) with d. rewrite decide_True, Hb by done.
  rewrite !decide_True; [|apply Hm; set_solver|done]. change (list_to_map ((b, d) :: bd)) with (<[b := d]> (list_to_map bd : gmap string (list ascii))).
  assert ((list_to_map bd : gmap string (list ascii)) !! b = None) as Hbn by (by apply not_elem_of_list_to_map_1).
  destruct bd as [|nd bd']; [cbn; by rewrite insert_empty, insert_union_singleton_l|].
  rewrite IH; [|done|done|by right| |done].
  - rewrite <- insert_union_r by done. by rewrite insert_union_l.
  - intros x Hx. rewrite lookup_insert_ne; [apply Hm; set_solver|]. by intros ->.
Qed.

(** What the gpg of the signer promises: a detached signature it makes is valid
    for the data, the text of a document it clear-signs is recovered, and
    neither is longer than a file can be. *)
Record gpg_sound : Prop := {
  gs_detached : forall data s, sign data true = Some s -> verifyDetached data s = true /\ Z.of_nat (length s) < 2 ^ 63;
  gs_clear : forall text s, sign text false = Some s -> verifyClearSigned s = Some text
}.

Context (blake2b_size : forall data, length (blake2b data) = 64%nat /\ Forall (fun b => 0 <= b < 256) (blake2b data))
        (Hgpg : gpg_sound).

(** Everything the reader's members give the writer. *)
Record pairs_ok (p : string) (bd : list (string * list ascii)) : Prop := {
  po_names : NoDup bd.*1;
  po_words : Forall (fun nd => word (bytes nd.1) /\ SLASH ∉ bytes nd.1 /\ Z.of_nat (length nd.2) < 2 ^ 63) bd;
  po_parts : Forall (fun nd => member_parts (p +:+ "/" +:+ nd.1) = Some (p, nd.1)) bd;
  po_manifest : "Manifest" ∉ bd.*1;
  po_version : "gpkg-1.sig" ∉ bd.*1;
  po_orphans : forall b d, (b, d) ∈ bd -> ends_with ".sig" b = true -> trim_suffix ".sig" b <> "" /\ trim_suffix ".sig" b ∈ bd.*1;
  po_signed : forall b d, (b, d) ∈ bd -> payload b -> exists s, (b +:+ ".sig", s) ∈ bd /\ verifyDetached d s = true
}.

(** The package the signer assembles verifies. *)
Lemma verify_assembled p bd manifest : pairs_ok p bd -> bd <> [] -> member_parts (p +:+ "/" +:+ "Manifest") = Some (p, "Manifest") ->
  verifyClearSigned manifest =
    Some (bytes (Join ((fun '(b, data) => manifestRecord blake2b b data) <$> bd) (String NEWLINE "") +:+ String NEWLINE "")) ->
  VerifyGPKG blake2b verifyDetached verifyClearSigned
    (member_entry <$> ((member_of p <$> bd) ++ [mkMember (p +:+ "/Manifest") manifest])) = Ok tt.
Proof.
  intros Hok Hne Hpm Hclear. change (mkMember (p +:+ "/Manifest") manifest) with (member_of p ("Manifest", manifest)).
  change [member_of p ("Manifest", manifest)] with (member_of p <$> [("Manifest", manifest)]). rewrite <- fmap_app.
  unfold VerifyGPKG. rewrite signed_members_own.
  2:{ apply Forall_app_2; [apply Hok|]. by apply Forall_singleton. }
  2:{ rewrite fmap_app. apply NoDup_app. split_and!; [apply Hok| |apply NoDup_singleton].
      intros x Hx Hm%list_elem_of_singleton. subst x. by apply (po_manifest _ _ Hok). }
  2:{ by left. }
  2:{ intros. apply lookup_empty. }
  2:{ by destruct bd. }
  cbv iota beta. rewrite list_to_map_app.
  set (M := list_to_map bd : gmap string (list ascii)).
  assert (M !! "Manifest" = None) as HMm by (apply not_elem_of_list_to_map_1, (po_manifest _ _ Hok)).
  change (list_to_map [("Manifest", manifest)] : gmap string (list ascii)) with (<["Manifest" := manifest]> (∅ : gmap string (list ascii))).
  rewrite map_union_empty at 1. rewrite lookup_union_r, lookup_insert_eq by done. rewrite Hclear. cbv zeta.
  assert (delete "Manifest" (M ∪ <["Manifest" := manifest]> ∅ ∪ ∅) = M) as ->.
  { rewrite map_union_empty, delete_union, (delete_id M) by done. rewrite delete_insert_eq, delete_empty. apply map_union_empty. }
  assert (forall b d, M !! b = Some d <-> (b, d) ∈ bd) as HM by (intros; symmetry; apply elem_of_list_to_map, Hok).
  unfold M at 1. rewrite verify_own; [|done|done|apply Hok|apply Hok]. cbv iota beta.
  rewrite decide_True by (apply not_elem_of_list_to_map_1, (po_version _ _ Hok)).
  rewrite decide_True.
  2:{ apply Forall_forall. intros [b d] Hin%elem_of_map_to_list. apply HM in Hin. intros [Hs Ho].
      destruct (po_orphans _ _ Hok b d Hin Hs) as [H1 ([b' d'] & Hb & Hin')%list_elem_of_fmap]. destruct Ho as [Ho|Ho]; [done|].
      cbn in Hb. subst b'. apply HM in Hin'. congruence. }
  rewrite decide_True; [done|]. apply Forall_forall. intros [b d] Hin%elem_of_map_to_list Hp. apply HM in Hin.
  destruct (po_signed _ _ Hok b d Hin Hp) as (s & Hs%HM & Hv). unfold signed_by. by rewrite Hs.
Qed.

(** The reader's members, signed, make such a package. *)
Lemma signed_pairs_ok p ms bd : signed_pairs sign ms bd -> Forall (member_ok p) ms -> NoDup (gm_name <$> ms) ->
  (forall m, m ∈ ms -> word (bytes (Base (gm_name m)))) -> pairs_ok p bd.
Proof.
  intros Hbd Hms Hnd Hw. rewrite Forall_forall in Hms.
  assert (forall m, m ∈ ms -> exists b, Base (gm_name m) = b /\ gm_name m = p +:+ "/" +:+ b /\
    member_parts (p +:+ "/" +:+ b) = Some (p, b) /\ SLASH ∉ bytes p /\ SLASH ∉ bytes b /\ p <> "" /\ b <> "" /\
    Clean (p +:+ "/" +:+ b) = p +:+ "/" +:+ b /\ b <> "Manifest" /\ ends_with ".sig" b = false /\
    Z.of_nat (length (gm_data m)) < 2 ^ 63) as Hm.
  { intros m Hin. destruct (Hms m Hin) as (b & Hpb & Hb1 & Hb2 & Hl). exists b.
    destruct (member_parts_some _ _ _ Hpb) as (Hn & ? & ? & ? & ? & Hc). rewrite Hn in Hpb, Hc |- *.
    split_and!; try done; [by apply Base_member|]. change (Z.shiftl 16 30) with 17179869184 in Hl. lia. }
  assert (simple (bytes ".sig")) as Hsig by (split; [done|]; repeat constructor; by vm_compute).
  assert (SLASH ∉ bytes ".sig") as Hss by (apply (bool_decide_unpack _); by vm_compute).
  assert (forall b d, (b, d) ∈ bd -> word (bytes b) /\ SLASH ∉ bytes b /\ Z.of_nat (length d) < 2 ^ 63 /\
    member_parts (p +:+ "/" +:+ b) = Some (p, b)) as Hall.
  { intros b d Hin. destruct (signed_pairs_elem _ _ _ _ _ Hbd Hin) as [(m & Hmin & -> & -> & _)|(m & Hmin & _ & -> & Hs & _)].
    - specialize (Hw m Hmin). destruct (Hm m Hmin) as (b & Hb & _ & Hp & _ & Hsl & _ & _ & _ & _ & _ & Hl). by rewrite Hb in Hw |- *.
    - specialize (Hw m Hmin). destruct (Hm m Hmin) as (b & Hb & _ & Hp & Hpsl & Hsl & Hpn & Hbn & Hc & _ & _ & Hl).
      rewrite Hb in Hw |- *. assert (SLASH ∉ bytes (b +:+ ".sig")) as Hbs by (rewrite bytes_app; set_solver).
      split_and!; [rewrite bytes_app; by apply word_app|done|by apply (gs_detached Hgpg) in Hs as [_ ?]|].
      apply member_parts_split; try done; [by destruct b|]. apply (clean_sibling p b); try done.
      assert (4 <= length (bytes (b +:+ ".sig")))%nat by (rewrite bytes_app, length_app; cbn; lia).
      split_and!; [intros Heq|intros Heq|intros Heq|done]; rewrite Heq in *; cbn in *; lia. }
  assert (forall b, b ∈ bd.*1 -> exists d, (b, d) ∈ bd) as Hfst.
  { intros b ([b' d] & -> & Hin)%list_elem_of_fmap. by exists d. }
  split.
  - apply (signed_pairs_nodup sign ms); [done| |].
    + assert (gm_name <$> ms = (fun b => p +:+ "/" +:+ b) <$> ((fun m => Base (gm_name m)) <$> ms)) as Hn.
      { rewrite <- list_fmap_compose. apply list_fmap_ext. intros i m Hi%list_elem_of_lookup_2. cbn.
        destruct (Hm m Hi) as (b & -> & -> & _). done. }
      rewrite Hn in Hnd. by apply NoDup_fmap_1 in Hnd.
    + apply Forall_forall. intros m Hin. by destruct (Hm m Hin) as (b & -> & _ & _ & _ & _ & _ & _ & _ & _ & ? & _).
  - apply Forall_forall. intros [b d] Hin. destruct (Hall b d Hin) as (? & ? & ? & _). done.
  - apply Forall_forall. intros [b d] Hin. by destruct (Hall b d Hin) as (_ & _ & _ & ?).
  - intros (d & Hin)%Hfst. destruct (signed_pairs_elem _ _ _ _ _ Hbd Hin) as [(m & Hmin & Heq & _)|(m & Hmin & _ & Heq & _)].
    + destruct (Hm m Hmin) as (b & Hb & _ & _ & _ & _ & _ & _ & _ & Hne & _). congruence.
    + apply (f_equal (ends_with ".sig")) in Heq. rewrite ends_with_app in Heq. by vm_compute in Heq.
  - intros (d & Hin)%Hfst. destruct (signed_pairs_elem _ _ _ _ _ Hbd Hin) as [(m & Hmin & Heq & _)|(m & Hmin & Hne & Heq & _)].
    + destruct (Hm m Hmin) as (b & Hb & _ & _ & _ & _ & _ & _ & _ & _ & He & _). rewrite <- Hb, <- Heq in He. by vm_compute in He.
    + apply (f_equal (trim_suffix ".sig")) in Heq. rewrite trim_suffix_app in Heq. apply Hne. by rewrite <- Heq.
  - intros b d Hin He. destruct (signed_pairs_elem _ _ _ _ _ Hbd Hin) as [(m & Hmin & -> & _)|(m & Hmin & _ & -> & _ & Hin')].
    + destruct (Hm m Hmin) as (b & Hb & _ & _ & _ & _ & _ & _ & _ & _ & He' & _). congruence.
    + rewrite trim_suffix_app. destruct (Hm m Hmin) as (b & Hb & _ & _ & _ & _ & _ & Hbn & _). split; [by rewrite Hb|].
      by apply (list_elem_of_fmap_2 fst) in Hin'.
  - intros b d Hin [Hv He]. destruct (signed_pairs_elem _ _ _ _ _ Hbd Hin) as [(m & Hmin & -> & -> & Hs)|(m & Hmin & _ & -> & _)].
    + destruct (Hs Hv) as (s & Hsg & Hin'). exists s. split; [done|]. by apply (gs_detached Hgpg) in Hsg as [? _].
    + by rewrite ends_with_app in He.
Qed.

Lemma read_entries_app es1 es2 st : read_entries st (es1 ++ es2) =
  match read_entries st es1 with Ok st' => read_entries st' es2 | Err e => Err e end.
Proof.
  revert st. induction es1 as [|e es1 IH]; intros st; [done|]. cbn [app read_entries].
  destruct (read_entry st e); [apply IH|done].
Qed.

(** A package whose last member is a clear-signed manifest is not unsigned. *)
Lemma read_signed p es manifest r : Contains manifest pgp_marker = true ->
  readUnsignedGPKG blake2b (es ++ [mkEntry (p +:+ "/Manifest") true manifest]) <> Ok r.
Proof.
  intros Hm H. unfold readUnsignedGPKG in H. rewrite read_entries_app in H.
  destruct (read_entries (mkRead [] "" ∅ []) es) as [st|]; [|done]. cbn [read_entries] in H.
  inv_ok_step H. inv_ok_step E. injection E as <-. rename E0 into E. unfold read_entry in E.
  cbn [te_regular te_name te_data] in E. inv_ok_step E.
  destruct (member_parts (p +:+ "/Manifest")) as [[q b]|] eqn:Hparts; [|done]. do 2 inv_ok_step E. cbv zeta in E. inv_ok_step E.
  assert (b = "Manifest") as ->.
  { apply member_parts_some in Hparts as (Heq & _ & Hb & _). apply (f_equal Base) in Heq.
    rewrite (Base_member q b) in Heq by done. rewrite <- Heq.
    change (p +:+ "/Manifest") with (p +:+ "/" +:+ "Manifest"). apply Base_member.
    apply (bool_decide_unpack _). by vm_compute. }
  rewrite decide_True in E by done. injection E as <-.
  cbn [rd_manifest rd_prefix rd_members] in H. inv_ok_step H. rewrite Hm in H. by rewrite decide_False in H.
Qed.

Lemma manifest_parts p ms : Forall (member_ok p) ms -> Exists (fun m => Base (gm_name m) = "gpkg-1") ms ->
  member_parts (p +:+ "/" +:+ "Manifest") = Some (p, "Manifest").
Proof.
  intros Hok (m & Hm & _)%Exists_exists. rewrite Forall_forall in Hok. destruct (Hok m Hm) as (b & Hp & _).
  apply member_parts_some in Hp as (Hn & Hp & Hb & Hpn & Hbn & Hc). rewrite Hn in Hc.
  assert (SLASH ∉ bytes "Manifest") as Hs by (apply (bool_decide_unpack _); by vm_compute).
  apply member_parts_split; [done..|]. by apply (clean_sibling p b).
Qed.

(** C11. Signing a package succeeds and yields a package that verifies: whatever
    unsigned package the reader accepts, when gpg signs its members and its
    manifest, the package written has every member of the original unchanged,
    passes the signer's own verification of every signature and of the
    manifest, and is not accepted for signing a second time. *)
Theorem signed_package_verifies (home keyID : string) (es : list entry) (members : list gpkgMember) (prefix : string)
    (Hg : home <> "" /\ keyID <> "") (Hread : readUnsignedGPKG blake2b es = Ok (members, prefix))
    (Hsign : forall data detached, sign data detached <> None)
    (Hmarker : forall text s, sign text false = Some s -> Contains s pgp_marker = true) :
  exists out, SignGPKG blake2b verifyDetached verifyClearSigned sign home keyID es = Ok out /\
    VerifyGPKG blake2b verifyDetached verifyClearSigned out = Ok tt /\
    (forall m, m ∈ members -> mkEntry (gm_name m) true (gm_data m) ∈ out) /\
    (forall r, readUnsignedGPKG blake2b out <> Ok r).
Proof.
  unfold SignGPKG. rewrite decide_True, Hread by done. unfold readUnsignedGPKG in Hread. inv_ok_step Hread. rename a into st.
  do 2 inv_ok_step Hread. inv_ok_step Hread. inv_ok_step Hread. injection Hread as <- <-. repeat match goal with u : unit |- _ => destruct u end.
  assert (read_ok st) as [Hnd _ Hok].
  { eapply (read_entries_ok es (mkRead [] "" ∅ [])); [split; [apply NoDup_nil_2|by intros ? ?%elem_of_nil|constructor]|by left|done]. }
  assert (forall m, m ∈ rd_members st -> gm_name m = rd_prefix st +:+ "/" +:+ Base (gm_name m) /\ ends_with ".sig" (gm_name m) = false) as Hname.
  { intros m Hm. rewrite Forall_forall in Hok. destruct (Hok m Hm) as (b & (Hn & _ & Hb & _)%member_parts_some & _ & He & _).
    rewrite Hn, Base_member, ends_with_member by done. done. }
  destruct (signed_pairs_total blake2b sign (rd_members st)) as (out & records & Hs); [intros; apply Hsign|]. rewrite Hs.
  destruct (sign_members_shape blake2b sign (rd_prefix st) (rd_members st) out records) as (bd & Hbd & -> & ->);
    [apply Forall_forall; intros m Hm; by apply Hname|done|]. cbv iota beta.
  rewrite SliceStable_chain by (apply (chain_pairs sign (rd_prefix st) (rd_members st) bd Hbd [] None); [by apply Forall_forall|done|done]).
  destruct (sign _ false) as [manifest|] eqn:Hman; [|by destruct (Hsign _ _ Hman)].
  assert (bd <> []) as Hne by (intros ->; inversion Hbd as [Heq| |]; rewrite <- Heq in Hc1; by apply Exists_nil in Hc1).
  rewrite verify_assembled; [|by eapply signed_pairs_ok; [..|by eapply verified_words]|done| |by apply (gs_clear Hgpg)].
  - eexists. split_and!; [reflexivity| | |].
    + apply verify_assembled; [by eapply signed_pairs_ok; [..|by eapply verified_words]|done| |by apply (gs_clear Hgpg)].
      by eapply manifest_parts.
    + intros m Hm. apply (list_elem_of_fmap_2 member_entry _ m), elem_of_app. left.
      apply list_elem_of_fmap. exists (Base (gm_name m), gm_data m). split; [|by eapply signed_pairs_payload].
      unfold member_of. cbn [fst snd]. rewrite <- (proj1 (Hname m Hm)). by destruct m.
    + intros r. rewrite fmap_app. apply read_signed. by apply (Hmarker _ _ Hman).
  - by eapply manifest_parts.
Qed.
End verify.

(** ** What verification means *)
Lemma bytes_inj_prefix p b c : p +:+ "/" +:+ b = p +:+ "/" +:+ c -> b = c.
Proof. intros H. apply (f_equal bytes) in H. rewrite !bytes_app in H. apply app_inv_head, app_inv_head in H. by apply bytes_inj. Qed.

Section verified.
Context (blake2b : list ascii -> list Z) (verifyDetached : list ascii -> list ascii -> bool)
        (verifyClearSigned : list ascii -> option (list ascii)).

Lemma signed_members_inv es : forall pre members p members', signed_members es pre members = Ok (p, members') ->
  (forall b d, members !! b = Some d -> members' !! b = Some d) /\
  (es <> [] -> pre = "" \/ pre = p) /\ (es = [] -> p = pre) /\
  (forall e, e ∈ es -> te_regular e = true /\ exists b, te_name e = p +:+ "/" +:+ b /\ SLASH ∉ bytes b /\
     members !! b = None /\ members' !! b = Some (te_data e)) /\
  (forall b d, members' !! b = Some d -> members !! b = Some d \/ mkEntry (p +:+ "/" +:+ b) true d ∈ es).
Proof.
  induction es as [|e es IH]; intros pre members p members' H; cbn [signed_members] in H.
  - injection H as -> ->. split_and!; [done|done|done|by intros ? ?%elem_of_nil|by left].
  - inv_ok_step H. destruct (member_parts (te_name e)) as [[q b]|] eqn:Hp; [|done]. do 2 inv_ok_step H.
    apply member_parts_some in Hp as (Hn & _ & Hsl & Hq & _). destruct (IH _ _ _ _ H) as (H1 & H2 & H3 & H4 & H5).
    assert (q = p) as ->.
    { destruct es as [|e' es]; [symmetry; by apply H3|]. by destruct (H2 ltac:(done)). }
    split_and!; [|by intros _|done| |].
    + intros x d Hx. apply H1. rewrite lookup_insert_ne; [done|]. intros ->. congruence.
    + intros x [->|Hx]%elem_of_cons.
      * split; [done|]. exists b. split_and!; [done|done|done|]. apply H1, lookup_insert_eq.
      * destruct (H4 x Hx) as (Hr & c & Hn1 & Hn2 & Hn3 & Hn4). split; [done|]. exists c. split_and!; try done.
        apply lookup_insert_None in Hn3. tauto.
    + intros x d Hx. destruct (H5 x d Hx) as [Hm|Hm]; [|right; set_solver].
      apply lookup_insert_Some in Hm as [[<- <-]|[_ Hm]]; [|by left]. right. rewrite <- Hn.
      destruct e as [n r dt]. cbn in *. subst r. set_solver.
Qed.

Lemma match_members_records ms : forall records records', match_members blake2b ms records = Ok records' ->
  (forall m, m ∈ ms -> records !! Base (gm_name m) = Some (record_of blake2b (gm_data m))) /\
  (forall k r, records !! k = Some r -> records' !! k = Some r \/ exists m, m ∈ ms /\ Base (gm_name m) = k).
Proof.
  induction ms as [|m ms IH]; intros records records' H; cbn [match_members] in H; cbv zeta in H.
  - injection H as <-. split; [by intros ? ?%elem_of_nil|by left].
  - inv_ok_step H. destruct (IH _ _ H) as [H1 H2]. split.
    + intros x [->|Hx]%elem_of_cons; [done|]. specialize (H1 x Hx). by apply lookup_delete_Some in H1 as [_ ?].
    + intros k r Hk. destruct (decide (k = Base (gm_name m))) as [->|Hne]; [right; exists m; split; [set_solver|done]|].
      destruct (H2 k r) as [?|(x & Hx & Hxk)]; [by rewrite lookup_delete_ne|by left|]. right. exists x. split; [set_solver|done].
Qed.

(** C29. A package that verifies is signed throughout: it has one prefix and a
    manifest with a valid signature; every other member is listed there with
    its exact size and hashes and every listed member is present; and every
    member but the version marker and the signatures has, in the package, a
    detached signature that is valid for its contents. *)
Theorem verified_package_signed (es : list entry)
    (H : VerifyGPKG blake2b verifyDetached verifyClearSigned es = Ok tt) :
  exists prefix manifest plain records,
    mkEntry (prefix +:+ "/" +:+ "Manifest") true manifest ∈ es /\ verifyClearSigned manifest = Some plain /\
    parse_manifest (lines (TrimSpace (of_bytes plain))) ∅ = Ok records /\
    (forall e, e ∈ es -> exists b, te_name e = prefix +:+ "/" +:+ b /\
       (b <> "Manifest" -> records !! b = Some (record_of blake2b (te_data e))) /\
       (b <> "Manifest" -> payload b -> exists signature,
          mkEntry (prefix +:+ "/" +:+ (b +:+ ".sig")) true signature ∈ es /\
          verifyDetached (te_data e) signature = true)) /\
    (forall b r, records !! b = Some r -> exists data, mkEntry (prefix +:+ "/" +:+ b) true data ∈ es).
Proof.
  unfold VerifyGPKG in H. inv_ok_step H. destruct a as [prefix members].
  destruct (signed_members_inv _ _ _ _ _ E) as (_ & _ & _ & Hes & Hmem).
  assert (forall b d, members !! b = Some d -> mkEntry (prefix +:+ "/" +:+ b) true d ∈ es) as Hin.
  { intros b d Hb. by destruct (Hmem b d Hb). }
  destruct (members !! "Manifest") as [manifest|] eqn:Hman; [|done].
  destruct (verifyClearSigned manifest) as [plain|] eqn:Hplain; [|done]. cbv zeta in H. inv_ok_step H.
  unfold verifyManifest in E0. do 3 inv_ok_step E0. subst a0. rename a into records.
  set (M := delete "Manifest" members) in *. destruct (match_members_records _ _ _ E2) as [Hrec Hback].
  do 3 inv_ok_step H. exists prefix, manifest, plain, records. split_and!; [by apply Hin|done|done| |].
  - intros e He. destruct (Hes e He) as (_ & b & Hn & Hsl & _ & Hb). exists b. split; [done|].
    assert (b <> "Manifest" -> M !! b = Some (te_data e)) as HM by (intros Hne; unfold M; by rewrite lookup_delete_ne).
    split.
    + intros Hne. rewrite <- (Base_member prefix b) by done.
      apply (Hrec (mkMember (prefix +:+ "/" +:+ b) (te_data e))). unfold members_list. apply list_elem_of_fmap.
      exists (b, te_data e). split; [done|]. by apply elem_of_map_to_list, HM.
    + intros Hne Hp. rewrite Forall_forall in Hc1.
      specialize (Hc1 (b, te_data e) ltac:(by apply elem_of_map_to_list, HM) Hp). unfold signed_by in Hc1.
      destruct (M !! (b +:+ ".sig")) as [s|] eqn:Hs; [|done]. exists s. split; [|done]. apply Hin.
      by apply lookup_delete_Some in Hs as [_ ?].
  - intros b r Hb. destruct (Hback b r Hb) as [Hx|(m & Hm & Hmb)]; [by rewrite lookup_empty in Hx|].
    unfold members_list in Hm. apply list_elem_of_fmap in Hm as ([c d] & -> & Hm%elem_of_map_to_list).
    apply lookup_delete_Some in Hm as [_ Hm]. exists d. cbn [gm_name] in Hmb.
    assert (SLASH ∉ bytes c) as Hsl.
    { destruct (Hes _ (Hin c d Hm)) as (_ & c' & Hc' & Hsl' & _). cbn [te_name] in Hc'. apply bytes_inj_prefix in Hc'. by subst. }
    rewrite Base_member in Hmb by done. subst c. by apply Hin.
Qed.
End verified.

(** ** A package, and a signing program that marks what it signed *)
Definition blake_ex (data : list ascii) : list Z := replicate 64 7.
Definition sign_ex (data : list ascii) (detached : bool) : option (list ascii) :=
  if detached then Some (bytes "signature") else Some (pgp_marker ++ data).
Definition detached_ex (data signature : list ascii) : bool := bool_decide (signature = bytes "signature").
Definition clear_ex (document : list ascii) : option (list ascii) := Some (drop (length pgp_marker) document).

Definition manifest_text : string :=
  manifestRecord blake_ex "gpkg-1" [] +:+ String NEWLINE (manifestRecord blake_ex "metadata.tar.zst" (bytes "meta")).
Definition package_ex : list entry :=
  [mkEntry "hello-1/gpkg-1" true []; mkEntry "hello-1/metadata.tar.zst" true (bytes "meta");
   mkEntry "hello-1/Manifest" true (bytes manifest_text)].
Definition members_ex : list gpkgMember :=
  [mkMember "hello-1/gpkg-1" []; mkMember "hello-1/metadata.tar.zst" (bytes "meta")].

Lemma blake_ex_size data : length (blake_ex data) = 64%nat /\ Forall (fun b => 0 <= b < 256) (blake_ex data).
Proof. split; [apply length_replicate|]. apply Forall_replicate. lia. Qed.

Lemma gpg_ex : gpg_sound detached_ex clear_ex sign_ex.
Proof.
  split.
  - intros data s [= <-]. split; [by apply bool_decide_eq_true_2|]. vm_compute. reflexivity.
  - intros text s H. assert (s = pgp_marker ++ text) as -> by (unfold sign_ex in H; congruence).
    unfold clear_ex. by rewrite drop_app_length.
Qed.

Lemma marker_ex text s : sign_ex text false = Some s -> Contains s pgp_marker = true.
Proof.
  intros Hs. assert (s = pgp_marker ++ text) as -> by (unfold sign_ex in Hs; congruence).
  assert (forall l, Contains (pgp_marker ++ l) pgp_marker = true) as H; [|apply H].
  intros l. destruct (pgp_marker ++ l) as [|c r] eqn:Hl; [by apply app_eq_nil in Hl as [? _]|]. cbn [Contains]. rewrite <- Hl.
  apply orb_true_iff. left. apply bool_decide_eq_true_2. by apply prefix_app_r.
Qed.

Lemma signed_package_verifies_witness :
  readUnsignedGPKG blake_ex package_ex = Ok (members_ex, "hello-1") /\
  exists out, SignGPKG blake_ex detached_ex clear_ex sign_ex "/keys" "k1" package_ex = Ok out /\
    VerifyGPKG blake_ex detached_ex clear_ex out = Ok tt.
Proof.
  assert ("/keys" <> "" /\ "k1" <> "") as Hg by (split; discriminate).
  assert (forall data detached, sign_ex data detached <> None) as Hs by (intros data []; discriminate).
  assert (readUnsignedGPKG blake_ex package_ex = Ok (members_ex, "hello-1")) as H by (vm_compute; reflexivity).
  split; [exact H|].
  destruct (signed_package_verifies blake_ex detached_ex clear_ex sign_ex blake_ex_size gpg_ex "/keys" "k1" package_ex
    members_ex "hello-1" Hg H Hs marker_ex) as (out & H1 & H2 & _).
  exists out. split; [exact H1|exact H2].
Defined.

Definition signed_ex : list entry :=
  match SignGPKG blake_ex detached_ex clear_ex sign_ex "/keys" "k1" package_ex with Ok out => out | Err _ => [] end.

Lemma verified_package_signed_witness :
  VerifyGPKG blake_ex detached_ex clear_ex signed_ex = Ok tt /\
  exists prefix manifest, mkEntry (prefix +:+ "/" +:+ "Manifest") true manifest ∈ signed_ex /\ clear_ex manifest <> None.
Proof.
  assert (VerifyGPKG blake_ex detached_ex clear_ex signed_ex = Ok tt) as H by (vm_compute; reflexivity).
  split; [exact H|]. destruct (verified_package_signed blake_ex detached_ex clear_ex signed_ex H) as (p & m & t & r & H1 & H2 & _).
  exists p, m. split; [exact H1|]. rewrite H2. discriminate.
Defined.
