(* ===== verification/SigningSafety.v ===== *)
(** * What the signing queue promises

    The operations of [Signing] between those of the job system: a task is
    signed at most once, by the claim that holds it, for exactly the artifacts
    that were verified, and never for an attempt that lost its lease. *)

From S2P Require Import Prelude GoStrings GoRegexp GoPath GoSha256 GoSha512 Schema Capabilities CapacityLedger Budgets Fairness.
From S2P Require Import JobLedger Scheduler PhaseWork Fencing PhasePlan JobSystem JobSafety JobHistory.
From S2P Require Import GatewayRows LeaseRuntime RuntimeMetadata Signing.
From Stdlib Require Import Ascii.
Open Scope string_scope.
Open Scope list_scope.
Open Scope Z_scope.

#[local] Arguments update_where : simpl never.

(** ** Comparing manifests *)
Definition input_key (a : SigningArtifact) : string * string * Z :=
  (sa_relative_path a, sa_input_digest a, sa_input_size a).

Definition path_map (l : list SigningArtifact) : gmap string SigningArtifact :=
  list_to_map ((fun a => (sa_relative_path a, a)) <$> l).

Lemma path_map_fst l : ((fun a => (sa_relative_path a, a)) <$> l).*1 = sa_relative_path <$> l.
Proof. by rewrite <- list_fmap_compose. Qed.

Lemma artifacts_by_path_spec l : NoDup (sa_relative_path <$> l) -> artifacts_by_path l = path_map l.
Proof.
  unfold artifacts_by_path. intros Hnd.
  assert (forall m : gmap string SigningArtifact, (forall a, a ∈ l -> m !! sa_relative_path a = None) ->
    foldl (fun m a => <[sa_relative_path a := a]> m) m l = path_map l ∪ m) as H.
  { induction l as [|a l IH]; intros m Hm; [cbn; by rewrite map_empty_union|]. rewrite fmap_cons in Hnd.
    apply NoDup_cons in Hnd as [Ha Hnd]. cbn [foldl]. rewrite IH; [|done|].
    - change (path_map (a :: l)) with (<[sa_relative_path a := a]> (path_map l)).
      rewrite <- insert_union_r; [by rewrite insert_union_l|]. apply not_elem_of_list_to_map_1. by rewrite path_map_fst.
    - intros b Hb. rewrite lookup_insert_ne; [apply Hm; set_solver|]. intros Heq. apply Ha. rewrite Heq. by apply list_elem_of_fmap_2. }
  rewrite H; [apply map_union_empty|]. intros. apply lookup_empty.
Qed.

Lemma artifacts_by_path_elem l p a : artifacts_by_path l !! p = Some a -> a ∈ l /\ sa_relative_path a = p.
Proof.
  unfold artifacts_by_path. assert (forall m : gmap string SigningArtifact,
    foldl (fun m a => <[sa_relative_path a := a]> m) m l !! p = Some a -> m !! p = Some a \/ (a ∈ l /\ sa_relative_path a = p)) as H.
  { induction l as [|b l IH]; intros m Hm; [by left|]. cbn in Hm. apply IH in Hm as [Hm|[Hm Hp]].
    - apply lookup_insert_Some in Hm as [[<- <-]|[_ Hm]]; [right; split; [set_solver|done]|by left].
    - right. split; [set_solver|done]. }
  intros Hm. destruct (H _ Hm) as [Hx|Hx]; [by rewrite lookup_empty in Hx|done].
Qed.

(** The artifacts of the map that a successful match used up. *)
Lemma match_artifacts_used l : forall E E', (forall p m, E !! p = Some m -> sa_relative_path m = p) ->
  match_artifacts E l = Some E' ->
  exists k, input_key <$> k = input_key <$> l /\ NoDup (sa_relative_path <$> k) /\
    forall m, m ∈ k -> E !! sa_relative_path m = Some m.
Proof.
  induction l as [|a l IH]; intros E E' HE H; cbn [match_artifacts] in H.
  - exists []. split_and!; [done|constructor|by intros ? ?%elem_of_nil].
  - destruct (E !! sa_relative_path a) as [m|] eqn:Hm; [|done]. case_decide as Hd; [done|].
    pose proof (HE _ _ Hm) as Hp. destruct (IH _ _ ltac:(intros p x [_ Hx]%lookup_delete_Some; by apply HE) H) as (k & Hk & Hnd & Hin).
    exists (m :: k). split_and!.
    + rewrite !fmap_cons, Hk. f_equal. unfold input_key. rewrite Hp. f_equal; [f_equal|]; destruct_decide (decide (sa_input_digest m = sa_input_digest a)); destruct_decide (decide (sa_input_size m = sa_input_size a)); tauto.
    + rewrite fmap_cons. constructor; [|done]. intros (b & Hb & Hbk)%list_elem_of_fmap.
      specialize (Hin b Hbk). rewrite <- Hb, Hp, lookup_delete_eq in Hin. done.
    + intros b [->|Hb]%elem_of_cons; [by rewrite Hp|]. specialize (Hin b Hb). by apply lookup_delete_Some in Hin as [_ ?].
Qed.

Lemma match_artifacts_all r : forall l, NoDup (sa_relative_path <$> l) -> input_key <$> l ≡ₚ input_key <$> r ->
  match_artifacts (path_map l) r = Some ∅.
Proof.
  induction r as [|a r IH]; intros l Hnd Hp.
  - apply Permutation_nil_r in Hp. by destruct l.
  - assert (input_key a ∈ input_key <$> l) as Hin by (rewrite Hp; set_solver).
    apply list_elem_of_fmap in Hin as (m & Hk & Hm). apply elem_of_Permutation in Hm as (l' & Hl).
    assert (path_map l = <[sa_relative_path m := m]> (path_map l')) as Hmap.
    { change (path_map l = path_map (m :: l')). apply list_to_map_proper; [by rewrite path_map_fst|]. by apply fmap_Permutation. }
    rewrite Hl, fmap_cons in Hnd. apply NoDup_cons in Hnd as [Hnm Hnd]. injection Hk as Hkp Hkd Hks.
    cbn [match_artifacts]. rewrite Hmap, Hkp, lookup_insert_eq, decide_False by (intros [?|?]; congruence).
    rewrite delete_insert_id by (apply not_elem_of_list_to_map_1; by rewrite path_map_fst). apply IH; [done|].
    rewrite Hl, !fmap_cons in Hp. assert (input_key m = input_key a) as Hma by (unfold input_key; congruence).
    rewrite Hma in Hp. by apply (inj (cons (input_key a))) in Hp.
Qed.

Lemma same_inputs_spec left right : sameSigningInputs left right = true <->
  NoDup (sa_relative_path <$> left) /\ input_key <$> left ≡ₚ input_key <$> right.
Proof.
  unfold sameSigningInputs. rewrite andb_true_iff, bool_decide_eq_true. split.
  - intros [Hlen H]. destruct (match_artifacts _ right) as [E|] eqn:Hm; [|done].
    apply match_artifacts_used in Hm as (k & Hk & Hnd & Hin); [|intros p m Hp; by apply artifacts_by_path_elem in Hp as [_ ?]].
    assert (length k = length right) as Hkl by (rewrite <- (length_fmap input_key k), Hk; apply length_fmap).
    assert (forall m, m ∈ k -> m ∈ left) as Hsub by (intros m Hmk; by destruct (artifacts_by_path_elem left _ _ (Hin m Hmk))).
    assert (k ≡ₚ left) as Hperm.
    { apply submseteq_length_Permutation; [|lia]. apply NoDup_submseteq; [|done]. by eapply NoDup_fmap_1. }
    split; [by rewrite <- Hperm|]. by rewrite <- Hperm, Hk.
  - intros [Hnd Hp]. split.
    + apply Permutation_length in Hp. by rewrite !length_fmap in Hp.
    + rewrite artifacts_by_path_spec, match_artifacts_all by done. by apply bool_decide_eq_true.
Qed.

Lemma same_outputs_inputs left right : sameSigningOutputs left right = sameSigningInputs left right.
Proof. done. Qed.

Lemma list_fmap_compose_key (l : list SigningArtifact) : (fun k : string * string * Z => k.1.1) <$> (input_key <$> l) = sa_relative_path <$> l.
Proof. by rewrite <- list_fmap_compose. Qed.

(** Comparing manifests is comparing sets: the comparison of a stored
    manifest with a requested one, which removes matches from a map, accepts
    exactly the lists with no path twice that are the same up to order in path,
    digest and size; the comparison of outputs with inputs is the same. *)
Theorem same_inputs_permutation (left right : list SigningArtifact) :
  (sameSigningInputs left right = true <->
   NoDup (sa_relative_path <$> left) /\ input_key <$> left ≡ₚ input_key <$> right) /\
  sameSigningOutputs left right = sameSigningInputs left right.
Proof. split; [apply same_inputs_spec|apply same_outputs_inputs]. Qed.

(** ** Rows over time *)
Definition signing_identity (t : signing_task) : uuid * uuid * uuid * Z * (string * string * Z * list SigningArtifact) :=
  (sg_id t, sg_job_id t, sg_attempt_id t, sg_attempt_fence t,
   (sg_source_token t, sg_architecture t, sg_max_output_bytes t, sg_input_manifest t)).
Definition signing_outcome (t : signing_task) : SigningState * option (list SigningArtifact) * string :=
  (sg_state t, sg_output_manifest t, sg_signing_key_id t).

(** A row, later: the same request, a fence that never falls, an outcome that
    stays, and a claim that is the same claim while its fence is. *)
Definition sign_le (t t' : signing_task) : Prop :=
  signing_identity t' = signing_identity t /\ sg_claim_fence t <= sg_claim_fence t' /\
  (~ open_signing t -> signing_outcome t' = signing_outcome t) /\
  (sg_state t' = SgClaimed -> sg_claim_fence t' = sg_claim_fence t ->
   sg_state t = SgClaimed /\ sg_owner t' = sg_owner t).

Lemma outcome_open t t' : signing_outcome t' = signing_outcome t -> open_signing t' -> open_signing t.
Proof. intros [= H _ _]. unfold open_signing. by rewrite H. Qed.

#[local] Instance sign_le_preorder : PreOrder sign_le.
Proof.
  split; [intros t; split_and!; [done|lia|done|done]|].
  intros x y z (H1 & H2 & H3 & H4) (G1 & G2 & G3 & G4). split_and!; [congruence|lia| |].
  - intros Hx. rewrite G3; [by apply H3|]. intros Hy. apply Hx. by eapply outcome_open; [apply H3|].
  - intros Hz Hf. destruct (G4 Hz ltac:(lia)) as [Hy Ho]. destruct (H4 Hy ltac:(lia)) as [Hx Ho']. split; [done|congruence].
Qed.

Definition fresh_signing (d : db) (t : signing_task) : Prop :=
  sg_id t ∉ sg_id <$> signing_tasks d /\ sg_state t = SgQueued /\ validate_artifacts ∅ (sg_input_manifest t) = Ok tt.

(** Every task is still there, later. *)
Definition signing_later (d d' : db) : Prop :=
  forall t, t ∈ signing_tasks d -> exists t', t' ∈ signing_tasks d' /\ sign_le t t'.
#[local] Instance signing_later_preorder : PreOrder signing_later.
Proof.
  split; [intros d t Ht; by exists t|]. intros x y z H1 H2 t Ht. destruct (H1 t Ht) as (t' & Ht' & Hle).
  destruct (H2 t' Ht') as (t'' & Ht'' & Hle'). exists t''. split; [done|by etrans].
Qed.

(** ** The steps *)

(** The artifacts of a task are those it was claimed with. *)
Definition genuine_task (task : SigningTask) (d : db) : Prop :=
  forall t, t ∈ signing_tasks d -> sg_id t = sk_id task -> sg_input_manifest t = sk_artifacts task.

Inductive signing_op : db -> db -> Prop :=
| so_enqueue taskID req clk t d d' : EnqueueSigning taskID req clk d = Ok (t, d') -> signing_op d d'
| so_claim owner lease locked clk t d d' : ClaimSigning owner lease locked clk d = Ok (t, d') -> signing_op d d'
| so_renew task lease now d d' : RenewSigning task lease now d = Ok d' -> signing_op d d'
| so_complete task keyID outputs now d d' : genuine_task task d ->
    CompleteSigning task keyID outputs now d = Ok d' -> signing_op d d'
| so_fail task detail now d d' : FailSigning task detail now d = Ok d' -> signing_op d d'.

(** What a completed row promises. *)
Definition completed_ok (t : signing_task) : Prop :=
  sg_state t = SgCompleted -> exists out, sg_output_manifest t = Some out /\
    sameSigningOutputs (sg_input_manifest t) out = true /\ validate_outputs out = Ok tt.

Record signing_inv (d : db) : Prop := {
  si_ids : NoDup (sg_id <$> signing_tasks d);
  si_inputs : forall t, t ∈ signing_tasks d -> validate_artifacts ∅ (sg_input_manifest t) = Ok tt;
  si_completed : forall t, t ∈ signing_tasks d -> completed_ok t;
  si_fence : forall t, t ∈ signing_tasks d -> 0 <= sg_claim_fence t
}.

(** Rows that change in place, each by [sign_le] and into something that keeps
    the promise. *)
Lemma signing_update (P : signing_task -> Prop) `{HdP : !forall t, Decision (P t)} f d d' :
  signing_tasks d' = update_where P f (signing_tasks d) -> signing_inv d ->
  (forall t, t ∈ signing_tasks d -> P t -> sign_le t (f t) /\ completed_ok (f t)) ->
  signing_inv d' /\ signing_later d d'.
Proof.
  intros Hd [Hi Hin Hc Hfe] Hf.
  assert (rows_evolve sign_le (fresh_signing d) (signing_tasks d) (signing_tasks d')) as He.
  { rewrite Hd. apply rows_evolve_update; [apply _|]. intros t Ht HP. by apply Hf. }
  split; [|intros t Ht; by eapply rows_evolve_old]. split.
  - eapply rows_evolve_key; [exact He|by intros x y ([= ->] & _)|by intros x [? _]|done].
  - rewrite Hd. intros t (x & Hx & [[HP ->]|[_ ->]])%elem_of_update_where; [|by apply Hin].
    destruct (Hf x Hx HP) as [([= _ _ _ _ _ _ _ ->] & _) _]. by apply Hin.
  - rewrite Hd. intros t (x & Hx & [[HP ->]|[_ ->]])%elem_of_update_where; [|by apply Hc]. by apply Hf.
  - rewrite Hd. intros t (x & Hx & [[HP ->]|[_ ->]])%elem_of_update_where; [|by apply Hfe].
    specialize (Hfe x Hx). destruct (Hf x Hx HP) as [(_ & Hle & _) _]. lia.
Qed.

Lemma open_not_final t t' : open_signing t -> signing_identity t' = signing_identity t ->
  sg_claim_fence t <= sg_claim_fence t' ->
  (sg_state t' = SgClaimed -> sg_claim_fence t' = sg_claim_fence t -> sg_state t = SgClaimed /\ sg_owner t' = sg_owner t) ->
  sign_le t t'.
Proof. intros Ho Hi Hf Hh. split_and!; [done|done|by intros ?|done]. Qed.

Lemma held_open task now t : signing_held task now t -> open_signing t.
Proof. intros (_ & _ & _ & Hs & _). unfold open_signing. rewrite Hs. set_solver. Qed.

(** A row whose state and fence stay. *)
Lemma sign_le_touched t t' : signing_identity t' = signing_identity t -> signing_outcome t' = signing_outcome t ->
  sg_claim_fence t' = sg_claim_fence t -> sg_owner t' = sg_owner t -> sign_le t t' /\ (completed_ok t -> completed_ok t').
Proof.
  intros Hi Ho Hf Hw. split.
  - split_and!; [done|lia|done|]. intros Hs _. injection Ho as Hst _ _. by rewrite <- Hst.
  - injection Ho as H1 H2 _. injection Hi as _ _ _ _ _ _ _ H3. unfold completed_ok. by rewrite H1, H2, H3.
Qed.

Lemma signing_enqueue_good taskID req clk t d d' : signing_inv d -> EnqueueSigning taskID req clk d = Ok (t, d') ->
  signing_inv d' /\ signing_later d d' /\ elsewhere d d'.
Proof.
  intros Hi H. unfold EnqueueSigning in H. inv_ok_step H. inv_ok_step H. inv_ok_step H. cbv zeta in H. inv_ok_step H.
  destruct a as [row e]. do 2 inv_ok_step H. injection H as _ <-.
  destruct (first_where _ (signing_tasks d)) as [x|] eqn:Hx.
  - injection E1 as _ <-. split; [|split; [|by split_and!]]; eapply signing_update; try reflexivity; try done;
      intros y Hy _; destruct (sign_le_touched y (y <| sg_updated_at := clk 1%nat |>)) as [H1 H2]; try done;
      (split; [done|]); apply H2, (si_completed d Hi y Hy).
  - inv_ok_step E1. injection E1 as _ <-. assert (validate_artifacts ∅ (sr_artifacts req) = Ok tt) as Hv.
    { unfold ValidateRequest in E. do 3 inv_ok_step E. done. }
    assert (rows_evolve sign_le (fresh_signing d) (signing_tasks d) (signing_tasks d ++ [new_signing_row taskID req (clk 1%nat)])) as He.
    { apply rows_evolve_insert; [apply _|]. split_and!; [|done|done]. cbn. intros (y & Hy & Hin)%list_elem_of_fmap.
      apply Hc2, Exists_exists. eauto. }
    split_and!; try done.
    + split; cbn.
      * eapply rows_evolve_key; [exact He|by intros a b ([= ->] & _)|by intros a [? _]|apply Hi].
      * intros y [Hy|Hy%list_elem_of_singleton]%elem_of_app; [by apply Hi|]. by subst y.
      * intros y [Hy|Hy%list_elem_of_singleton]%elem_of_app; [by apply Hi|]. by subst y.
      * intros y [Hy|Hy%list_elem_of_singleton]%elem_of_app; [by apply Hi|]. by subst y.
    + intros y Hy. by eapply rows_evolve_old.
Qed.

Lemma claim_good owner lease locked clk t d d' : signing_inv d -> ClaimSigning owner lease locked clk d = Ok (t, d') ->
  signing_inv d' /\ signing_later d d' /\ elsewhere d d'.
Proof.
  intros Hi H. unfold ClaimSigning in H. inv_ok_step H. cbv zeta in H.
  assert (signing_inv (cancel_stale_signing (clk 0%nat) d) /\ signing_later d (cancel_stale_signing (clk 0%nat) d)) as [Hi1 Hl1].
  { eapply signing_update; [reflexivity|done|]. intros y Hy [Ho _]. split; [by apply open_not_final; [..|cbn; lia|]|done]. }
  set (d1 := cancel_stale_signing _ d) in *. assert (elsewhere d d1) as He1 by (by split_and!). clearbody d1.
  destruct (pick _ _) as [x|] eqn:Hp; injection H as _ <-; [|split_and!; done].
  apply pick_elem, list_elem_of_filter in Hp as [(Ho & _) Hx].
  destruct (signing_update (fun y => sg_id y = sg_id x) (claim_signing_row owner lease (clk 1%nat)) d1
    (d1 <| signing_tasks := update_where (fun y => sg_id y = sg_id x) (claim_signing_row owner lease (clk 1%nat)) (signing_tasks d1) |>))
    as [Hi2 Hl2]; [done|done| |].
  - intros y Hy Hid. assert (y = x) as -> by (by apply (key_unique sg_id (signing_tasks d1)); [apply Hi1|..]).
    split; [|done]. apply open_not_final; [done|done|cbn; lia|]. cbn. lia.
  - split_and!; [done|by etrans|]. destruct He1 as (? & ? & ? & ? & ? & ?). by split_and!.
Qed.

Lemma renew_good task lease now d d' : signing_inv d -> RenewSigning task lease now d = Ok d' ->
  signing_inv d' /\ signing_later d d' /\ elsewhere d d'.
Proof.
  intros Hi H. unfold RenewSigning in H. inv_ok_step H. cbv zeta in H. inv_ok H. subst d'.
  split; [|split; [|by split_and!]]; eapply signing_update; try reflexivity; try done; intros y Hy _;
    destruct (sign_le_touched y (y <| sg_lease_expires_at := Some (now + lease) |> <| sg_updated_at := now |>)) as [H1 H2]; try done;
    (split; [done|]); apply H2, (si_completed d Hi y Hy).
Qed.

Lemma signing_complete_good task keyID outputs now d d' : signing_inv d -> genuine_task task d ->
  CompleteSigning task keyID outputs now d = Ok d' -> signing_inv d' /\ signing_later d d' /\ elsewhere d d'.
Proof.
  intros Hi Hg H. unfold CompleteSigning in H. do 2 inv_ok_step H. inv_ok_step H. inv_ok_step H. cbv zeta in H.
  inv_ok H. subst d'. split; [|split; [|by split_and!]]; eapply signing_update; try reflexivity; try done;
    intros y Hy [Hh _]; (split; [apply open_not_final; [by eapply held_open|done|cbn; lia|done]|]);
    intros _; exists outputs; split_and!; try done; cbn; destruct Hh as (Hid & _); by rewrite (Hg y Hy Hid).
Qed.

Lemma fail_good task detail now d d' : signing_inv d -> FailSigning task detail now d = Ok d' ->
  signing_inv d' /\ signing_later d d' /\ elsewhere d d'.
Proof.
  intros Hi H. unfold FailSigning in H. inv_ok_step H. cbv zeta in H. inv_ok H. subst d'.
  split; [|split; [|by split_and!]]; eapply signing_update; try reflexivity; try done; intros y Hy Hh;
    (split; [apply open_not_final; [by eapply held_open|done|cbn; lia|done]|done]).
Qed.

Lemma signing_op_good d d' : signing_inv d -> signing_op d d' -> signing_inv d' /\ signing_later d d' /\ elsewhere d d'.
Proof.
  intros Hi Hop. destruct Hop; eauto using signing_enqueue_good, claim_good, renew_good, signing_complete_good, fail_good.
Qed.

Section signing_system.
Context (MarshalStatus : JobStatus -> list ascii) (MarshalRequest : BuildRequest -> list ascii)
        (uuid_Parse : string -> bool).

Inductive signing_step : db -> db -> Prop :=
| sn_job d d' : job_op MarshalStatus MarshalRequest uuid_Parse d d' -> signing_step d d'
| sn_sign d d' : signing_op d d' -> signing_step d d'
| sn_other d d' : elsewhere d d' -> signing_tasks d' = signing_tasks d -> signing_step d d'.

Definition signing_initial (d : db) : Prop := initial d /\ signing_tasks d = [].
Definition signing_reachable (d : db) : Prop := exists d0, signing_initial d0 /\ rtc signing_step d0 d.

Lemma signing_same d d' : signing_tasks d' = signing_tasks d -> signing_inv d -> signing_inv d' /\ signing_later d d'.
Proof.
  intros H [H1 H2 H3 H4]. split; [split; by rewrite H|]. intros t Ht. exists t. rewrite H. done.
Qed.

Lemma signing_step_job d d' : signing_inv d -> signing_step d d' -> job_step MarshalStatus MarshalRequest uuid_Parse d d'.
Proof.
  intros Hi Hs. destruct Hs as [d d' H|d d' H|d d' H _]; [by apply js_op| |by apply js_other].
  apply js_other. by destruct (signing_op_good d d' Hi H) as (_ & _ & ?).
Qed.

Lemma signing_step_good d d' : job_inv d -> signing_inv d -> signing_step d d' ->
  job_inv d' /\ signing_inv d' /\ signing_later d d'.
Proof.
  intros Hj Hi Hs. pose proof (job_step_implements _ _ _ d d' Hj (signing_step_job d d' Hi Hs)) as Him.
  split; [by eapply implements_inv|]. destruct Hs as [d d' H|d d' H|d d' H Ht].
  - apply signing_same; [|done]. pose proof (job_op_side _ _ _ d d' Hj H) as [= _ _ Hside]. done.
  - by destruct (signing_op_good d d' Hi H) as (? & ? & _).
  - by apply signing_same.
Qed.

Lemma signing_steps_good d d' : job_inv d -> signing_inv d -> rtc signing_step d d' ->
  job_inv d' /\ signing_inv d' /\ signing_later d d' /\ rtc (job_step MarshalStatus MarshalRequest uuid_Parse) d d'.
Proof.
  intros Hj Hi Hr. induction Hr as [|x y z Hs _ IH]; [split_and!; [done|done|reflexivity|done]|].
  pose proof (signing_step_job x y Hi Hs) as Hjs. destruct (signing_step_good x y Hj Hi Hs) as (Hj' & Hi' & Hl).
  destruct (IH Hj' Hi') as (Hj2 & Hi2 & Hl2 & Hr2). split_and!; [done|done|by etrans|by eapply rtc_l].
Qed.

Lemma signing_reachable_inv d : signing_reachable d -> job_inv d /\ signing_inv d.
Proof.
  intros (d0 & (Hinit & H0) & Hr). destruct (signing_steps_good d0 d) as (? & ? & _); [by apply initial_inv| |done|done].
  split; rewrite H0; [apply NoDup_nil_2|by intros ? ?%elem_of_nil..].
Qed.

(** C10. What was signed is exactly what was asked for: in every reachable state a
    completed task has outputs that are its inputs, each once, in some order:
    the same paths, input digests and sizes; every path is canonical, relative
    and ends in [.gpkg.tar], and every digest is a SHA-256 digest. *)
Theorem signed_set_exact (d : db) (t : signing_task) (R : signing_reachable d) (Ht : t ∈ signing_tasks d)
    (Hc : sg_state t = SgCompleted) :
  exists outputs, sg_output_manifest t = Some outputs /\
    NoDup (sa_relative_path <$> outputs) /\ input_key <$> outputs ≡ₚ input_key <$> sg_input_manifest t /\
    forall a, a ∈ outputs -> ValidateArtifact a true = Ok tt.
Proof.
  destruct (signing_reachable_inv d R) as [_ Hi]. destruct (si_completed d Hi t Ht Hc) as (out & Ho & Hs & Hv).
  exists out. split; [done|]. rewrite same_outputs_inputs in Hs. apply same_inputs_spec in Hs as [Hnd Hp].
  split_and!; [|done|].
  - rewrite <- (list_fmap_compose_key out), <- Hp, list_fmap_compose_key. done.
  - clear -Hv. induction out as [|x out IH]; intros a Ha; [by apply elem_of_nil in Ha|]. cbn [validate_outputs] in Hv.
    inv_ok_step Hv. apply elem_of_cons in Ha as [->|Ha]; [done|by apply IH].
Qed.

(** The row a task had, later. *)
Lemma later_row d d' t : signing_inv d' -> signing_later d d' -> t ∈ signing_tasks d ->
  forall t', t' ∈ signing_tasks d' -> sg_id t' = sg_id t -> sign_le t t'.
Proof.
  intros Hi Hl Ht t' Ht' Hid. destruct (Hl t Ht) as (x & Hx & Hle). pose proof Hle as ([= Hxi] & _).
  assert (t' = x) as -> by (apply (key_unique sg_id (signing_tasks d')); [apply Hi|done|done|congruence]). done.
Qed.

(** The outcome of a signing task is final: once a task is completed, failed
    or canceled, then in every later state it is still there for the same
    request, in the same state, with the same outputs and key. *)
Theorem signing_outcome_final (d d' : db) (t : signing_task) (R : signing_reachable d) (S : rtc signing_step d d')
    (Ht : t ∈ signing_tasks d) (Hf : sg_state t = SgCompleted \/ sg_state t = SgFailed \/ sg_state t = SgCanceled) :
  exists t', t' ∈ signing_tasks d' /\ signing_identity t' = signing_identity t /\ signing_outcome t' = signing_outcome t.
Proof.
  destruct (signing_reachable_inv d R) as [Hj Hi]. destruct (signing_steps_good d d' Hj Hi S) as (_ & _ & Hl & _).
  destruct (Hl t Ht) as (t' & Ht' & Hid & _ & Ho & _). exists t'. split_and!; [done|done|]. apply Ho.
  unfold open_signing. destruct Hf as [->|[->| ->]]; set_solver.
Qed.

Lemma claimed_row owner lease locked clk c d d' : signing_inv d -> ClaimSigning owner lease locked clk d = Ok (Some c, d') ->
  exists t, t ∈ signing_tasks d' /\ sg_id t = sk_id c /\ sg_claim_fence t = sk_claim_fence c /\ sg_owner t = sk_owner c /\
    sg_state t = SgClaimed /\ sg_attempt_id t = sk_attempt_id c /\ sg_attempt_fence t = sk_attempt_fence c /\
    sg_input_manifest t = sk_artifacts c /\ owner <> "" /\ sk_owner c = owner /\
    exists x, x ∈ signing_tasks d /\ sg_id x = sk_id c /\ sk_claim_fence c = sg_claim_fence x + 1.
Proof.
  intros Hi H. unfold ClaimSigning in H. inv_ok_step H. cbv zeta in H. destruct (pick _ _) as [x|] eqn:Hp; [|done].
  injection H as <- <-. apply pick_elem, list_elem_of_filter in Hp as [_ Hx].
  eexists. split; [cbn; apply elem_of_update_where; exists x; split; [exact Hx|left; split; reflexivity]|].
  split_and!; try done; [by intros ->; destruct Hc; left|]. cbn in Hx. apply elem_of_update_where in Hx as (y & Hy & [[_ ->]|[_ ->]]); exists y; split_and!; done.
Qed.

(** A signer that was superseded has no say: after a task was claimed again,
    the earlier claim can, in every later state, neither renew nor complete nor
    fail it; and the signer's cleanup after an error leaves the output of the
    task, which its successor shares, alone. *)
Theorem superseded_signer_refused (d d1 d2 d3 d4 : db) (owner owner' : string) (lease lease' : duration)
    (locked locked' : uuid -> bool) (clk clk' : clock) (c c' : SigningTask) (R : signing_reachable d)
    (H1 : ClaimSigning owner lease locked clk d = Ok (Some c, d1)) (S1 : rtc signing_step d1 d2)
    (H2 : ClaimSigning owner' lease' locked' clk' d2 = Ok (Some c', d3)) (Hid : sk_id c' = sk_id c)
    (S2 : rtc signing_step d3 d4) :
  sk_claim_fence c < sk_claim_fence c' /\
  (forall l now e, RenewSigning c l now d4 <> Ok e) /\
  (forall key outputs now e, CompleteSigning c key outputs now d4 <> Ok e) /\
  (forall detail now e, FailSigning c detail now d4 <> Ok e) /\
  (forall key text processed heartbeat now, se_removed (finish_signing key text c processed heartbeat now d4) = false).
Proof.
  destruct (signing_reachable_inv d R) as [Hj Hi].
  destruct (signing_step_good d d1 Hj Hi) as (Hj1 & Hi1 & _); [by eapply sn_sign, so_claim|].
  destruct (signing_steps_good d1 d2 Hj1 Hi1 S1) as (Hj2 & Hi2 & Hl & _).
  destruct (signing_step_good d2 d3 Hj2 Hi2) as (Hj3 & Hi3 & _); [by eapply sn_sign, so_claim|].
  destruct (signing_steps_good d3 d4 Hj3 Hi3 S2) as (_ & Hi4 & Hl' & _).
  destruct (claimed_row _ _ _ _ _ _ _ Hi H1) as (t & Ht & Hti & Htf & _).
  destruct (claimed_row _ _ _ _ _ _ _ Hi2 H2) as (t' & Ht' & Hti' & Htf' & _ & _ & _ & _ & _ & _ & _ & x & Hx & Hxi & Hxf).
  assert (sk_claim_fence c < sk_claim_fence c') as Hlt.
  { destruct (later_row d1 d2 t Hi2 Hl Ht x Hx) as (_ & Hle & _); [congruence|]. lia. }
  assert (forall now y, y ∈ signing_tasks d4 -> ~ signing_held c now y) as Hno.
  { intros now y Hy (Hyi & _ & Hyf & _). destruct (later_row d3 d4 t' Hi4 Hl' Ht' y Hy) as (_ & Hle & _); [congruence|]. lia. }
  assert (forall detail now e, FailSigning c detail now d4 <> Ok e) as Hfail.
  { intros detail now e H. unfold FailSigning in H. inv_ok_step H. cbv zeta in H. inv_ok_step H.
    rewrite (proj2 (count_where_zero _ _)) in Hc0; [done|]. apply Hno. }
  split_and!; [done| | |done|].
  - intros l now e H. unfold RenewSigning in H. inv_ok_step H. cbv zeta in H. inv_ok_step H.
    rewrite (proj2 (count_where_zero _ _)) in Hc0; [done|]. intros y Hy [Hh _]. by eapply Hno.
  - intros key outputs now e H. unfold CompleteSigning in H. do 2 inv_ok_step H. inv_ok_step H. inv_ok_step H. cbv zeta in H.
    inv_ok_step H. rewrite (proj2 (count_where_zero _ _)) in Hc2; [done|]. intros y Hy [Hh _]. by eapply Hno.
  - intros key text processed heartbeat now. unfold finish_signing.
    destruct heartbeat as [e|]; [|destruct processed as [outputs|e]; [by destruct (CompleteSigning _ _ _ _ _)|]];
      (destruct (FailSigning c _ now d4) as [d5|] eqn:Hf; [by destruct (Hfail _ _ _ Hf)|done]).
Qed.

(** A claimed task carries the artifacts of its row, then and later. *)
Lemma claimed_genuine owner lease locked clk c d d1 d2 : job_inv d -> signing_inv d ->
  ClaimSigning owner lease locked clk d = Ok (Some c, d1) -> rtc signing_step d1 d2 -> genuine_task c d2.
Proof.
  intros Hj Hi H Hr. destruct (signing_step_good d d1 Hj Hi) as (Hj1 & Hi1 & _); [by eapply sn_sign, so_claim|].
  destruct (signing_steps_good d1 d2 Hj1 Hi1 Hr) as (_ & Hi2 & Hl & _).
  destruct (claimed_row _ _ _ _ _ _ _ Hi H) as (t & Ht & Hti & _ & _ & _ & _ & _ & Htm & _). intros y Hy Hyi.
  destruct (later_row d1 d2 t Hi2 Hl Ht y Hy) as ([= _ _ _ _ _ _ _ Hm] & _); congruence.
Qed.

Lemma lost_unsigned a fence now d : lost a d -> ~ signing_leased a fence now d.
Proof.
  intros [_ Hl] (l & Hin & Ha & _)%Exists_exists. apply Hl. rewrite <- Ha. by apply list_elem_of_fmap_2.
Qed.

(** C8. Nothing is signed for an attempt that lost its lease: from then on the
    attempt can request no signature, none of its tasks is handed to a signer,
    and a signer at work on one of them can neither renew nor complete it. *)
Theorem lost_attempt_unsigned (d d' : db) (a : uuid) (R : signing_reachable d) (Hlost : lost a d)
    (S : rtc signing_step d d') :
  (forall taskID req clk r, sr_attempt_id req = a -> EnqueueSigning taskID req clk d' <> Ok r) /\
  (forall owner lease locked clk c d'', ClaimSigning owner lease locked clk d' = Ok (Some c, d'') -> sk_attempt_id c <> a) /\
  (forall task t, t ∈ signing_tasks d' -> sg_id t = sk_id task -> sg_attempt_id t = a ->
     (forall lease now r, RenewSigning task lease now d' <> Ok r) /\
     (forall key outputs now r, CompleteSigning task key outputs now d' <> Ok r)).
Proof.
  destruct (signing_reachable_inv d R) as [Hj Hi]. destruct (signing_steps_good d d' Hj Hi S) as (_ & Hi' & _ & Hr).
  pose proof (lost_stays _ _ _ a d d' Hj Hlost Hr) as Hlost'. split_and!.
  - intros taskID req clk r Ha H. unfold EnqueueSigning in H. do 2 inv_ok_step H. unfold requester_active in Hc.
    apply Exists_exists in Hc as (x & _ & Hx & _ & _ & Hl & _). apply Exists_exists in Hl as (l & Hl & Hla & Hlf & Hlx & _).
    apply (lost_unsigned a (sr_attempt_fence req) (clk 0%nat) d' Hlost'), Exists_exists. exists l. split_and!; try done. congruence.
  - intros owner lease locked clk c d'' H Ha. unfold ClaimSigning in H. inv_ok_step H. cbv zeta in H.
    destruct (pick _ _) as [x|] eqn:Hp; [|done]. injection H as <- <-.
    apply pick_elem, list_elem_of_filter in Hp as [(_ & _ & [_ Hact] & _) Hx]. cbn in Ha. rewrite Ha in Hact.
    by eapply (lost_unsigned a _ _ d' Hlost').
  - intros task t Ht Hti Hta. assert (forall now y, y ∈ signing_tasks d' -> signing_held task now y ->
      ~ signing_leased (sg_attempt_id y) (sg_attempt_fence y) now d') as Hno.
    { intros now y Hy (Hyi & _). assert (y = t) as -> by (apply (key_unique sg_id (signing_tasks d')); [apply Hi'|done|done|congruence]).
      rewrite Hta. by apply lost_unsigned. }
    split.
    + intros lease now r H. unfold RenewSigning in H. inv_ok_step H. cbv zeta in H. inv_ok_step H.
      rewrite (proj2 (count_where_zero _ _)) in Hc0; [done|]. intros y Hy [Hh Hl]. by eapply Hno.
    + intros key outputs now r H. unfold CompleteSigning in H. do 4 inv_ok_step H. cbv zeta in H. inv_ok_step H.
      rewrite (proj2 (count_where_zero _ _)) in Hc2; [done|]. intros y Hy (Hh & _ & Hl). by eapply Hno.
Qed.
End signing_system.

(** ** What the signer hands in *)
Lemma denotes_times n f l : length l = n -> forallb f l = true -> denotes (Times n (Cls f)) l.
Proof.
  revert l. induction n as [|n IH]; intros [|c l] Hl Hf; try done; [constructor|].
  cbn in Hl, Hf. apply andb_true_iff in Hf as [Hc Hf]. change (c :: l) with ([c] ++ l). constructor; [by constructor|].
  apply IH; [lia|done].
Qed.

Lemma hex_digit_class c : hex_digit c = true -> hex_class c = true.
Proof. destruct c as [[] [] [] [] [] [] [] []]; vm_compute; done. Qed.

Lemma digest_matches data : MatchString digestPattern (file_digest data).1 = true.
Proof.
  unfold file_digest, digestPattern. cbn [fst]. destruct (EncodeToString_hex (Sum256 data) (Sum256_bytes data)) as [Hh Hl].
  rewrite Sum256_length, <- length_bytes in Hl. apply accepts_spec, denotes_times; [done|].
  unfold lower_hex in Hh. rewrite forallb_forall in Hh |- *. intros c Hc. by apply hex_digit_class, Hh.
Qed.

Section signer_output.
Context (SignGPKG : list ascii -> option (list ascii)).

(** One output: a file with the verified digest was there, and what was copied
    after that is signed. *)
Definition signed_from (source : source_files) (i o : SigningArtifact) : Prop :=
  input_key o = input_key i /\ exists data copy signed, sf_digested source (sa_relative_path i) = Some data /\
    file_digest data = (sa_input_digest i, sa_input_size i) /\ sf_copied source (sa_relative_path i) = Some copy /\
    SignGPKG copy = Some signed /\ file_digest signed = (sa_output_digest o, sa_output_size o).

Lemma signArtifact_spec source written i remaining o : signArtifact SignGPKG source written i remaining = Ok o ->
  signed_from source i o /\ 0 <= sa_output_size o <= remaining /\ ValidateArtifact o true = Ok tt.
Proof.
  intros H. unfold signArtifact in H. do 2 inv_ok_step H. clear Hc. destruct (sf_digested _ _) as [data|] eqn:Hs; [|done].
  destruct (file_digest data) as [digest size] eqn:Hd. do 3 inv_ok_step H. destruct (sf_copied _ _) as [copy|] eqn:Hcp; [|done].
  destruct (SignGPKG copy) as [signed|] eqn:Hg; [|done].
  pose proof (digest_matches signed) as Hm. destruct (file_digest signed) as [dg sz] eqn:Hf. inv_ok_step H. injection H as <-.
  destruct Hc as [-> ->]. assert (0 <= sz) as Hpos by (injection Hf as _ <-; lia).
  split_and!; try done; [split; [done|by exists data, copy, signed]|]. unfold ValidateArtifact in E |- *. cbn.
  do 4 inv_ok_step E. rewrite !decide_True by done. rewrite decide_True; [done|]. intros [_ [Hx|Hx]]; [|lia]. cbn in Hm. congruence.
Qed.

Definition output_bytes (l : list SigningArtifact) : Z := sum_by sa_output_size l.

Lemma sign_all_spec source aborted max inputs : max < 2 ^ 63 -> forall k used written outputs, 0 <= used <= max ->
  sign_all SignGPKG source aborted max k used written inputs = Ok outputs ->
  Forall2 (signed_from source) inputs outputs /\ used + output_bytes outputs <= max /\ validate_outputs outputs = Ok tt.
Proof.
  intros Hmax. induction inputs as [|i inputs IH]; intros k used written outputs Hu H; cbn [sign_all] in H.
  - injection H as <-. split_and!; [by apply Forall2_nil|unfold output_bytes, sum_by; cbn; lia|done].
  - inv_ok_step H. inv_ok_step H. apply signArtifact_spec in E as (Hs & Hb & Hv). rewrite int64_id in Hb by (unfold int64_min, int64_max; lia).
    inv_ok_step H. injection H as <-. rewrite int64_id in E by (unfold int64_min, int64_max; lia). apply IH in E as (Hf & Ht & Hvs); [|lia].
    split_and!; [by constructor| |cbn [validate_outputs]; by rewrite Hv].
    unfold output_bytes in *. change (sum_by sa_output_size (a :: a0)) with (sa_output_size a + sum_by sa_output_size a0). lia.
Qed.

Lemma signed_keys source inputs outputs : Forall2 (signed_from source) inputs outputs ->
  input_key <$> outputs = input_key <$> inputs.
Proof. induction 1 as [|i o inputs outputs [H _] _ IH]; [done|]. by rewrite !fmap_cons, H, IH. Qed.

Lemma validate_artifacts_paths seen l : validate_artifacts seen l = Ok tt -> NoDup (sa_relative_path <$> l) /\
  forall a, a ∈ l -> sa_relative_path a ∉ seen.
Proof.
  revert seen. induction l as [|a l IH]; intros seen H; [split; [apply NoDup_nil_2|by intros ? ?%elem_of_nil]|].
  cbn [validate_artifacts] in H. do 2 inv_ok_step H. apply IH in H as [Hnd Hs]. split.
  - rewrite fmap_cons. constructor; [|done]. intros (b & Hb & Hin)%list_elem_of_fmap. specialize (Hs b Hin). set_solver.
  - intros b [->|Hb]%elem_of_cons; [done|]. specialize (Hs b Hb). set_solver.
Qed.

Lemma output_token_id id token : OutputToken id = Ok token -> id <> "".
Proof. intros H ->. vm_compute in H. done. Qed.
End signer_output.

Section signer_system.
Context (MarshalStatus : JobStatus -> list ascii) (MarshalRequest : BuildRequest -> list ascii)
        (uuid_Parse : string -> bool) (SignGPKG : list ascii -> option (list ascii)).
Notation step := (signing_step MarshalStatus MarshalRequest uuid_Parse).

(** C34. The signer's work is accepted: a signer that claimed a task and signed it
    within the budget of the task has, for every artifact, found a file with the
    verified digest and signed what it copied from the same path after that, which
    is the verified file if nobody changed it between the two; and if its claim and
    the lease of the attempt are alive when it is done, the completion is committed
    with those outputs.  The copy itself is not compared with the digest. *)
Theorem signed_task_completes (d d1 d2 : db) (owner binpkgPath key : string) (lease : duration)
    (locked : uuid -> bool) (clk : clock) (task : SigningTask) (source : source_files) (aborted : nat -> bool)
    (activated : bool) (outputs : list SigningArtifact) (error_text : signing_error -> string) (now : time)
    (t : signing_task) (R : signing_reachable MarshalStatus MarshalRequest uuid_Parse d)
    (H1 : ClaimSigning owner lease locked clk d = Ok (Some task, d1)) (S : rtc step d1 d2)
    (Hmax : sk_max_output_bytes task < 2 ^ 63)
    (Hp : process SignGPKG binpkgPath task source aborted activated = Ok outputs) (Hkey : key <> "")
    (Ht : t ∈ signing_tasks d2) (Hheld : signing_held task now t)
    (Hlease : signing_leased (sg_attempt_id t) (sg_attempt_fence t) now d2) :
  Forall2 (signed_from SignGPKG source) (sk_artifacts task) outputs /\
  ((forall a, a ∈ sk_artifacts task -> sf_copied source (sa_relative_path a) = sf_digested source (sa_relative_path a)) ->
   Forall2 (fun i o => exists data signed, file_digest data = (sa_input_digest i, sa_input_size i) /\
     SignGPKG data = Some signed /\ file_digest signed = (sa_output_digest o, sa_output_size o)) (sk_artifacts task) outputs) /\
  output_bytes outputs <= (if decide (sk_max_output_bytes task <= 0) then 2 ^ 35 else sk_max_output_bytes task) /\
  exists d3, finish_signing key error_text task (Ok outputs) None now d2 = mkSigningEnd false d3 None /\
    exists t', t' ∈ signing_tasks d3 /\ sg_id t' = sk_id task /\ sg_state t' = SgCompleted /\
      sg_output_manifest t' = Some outputs /\ sg_signing_key_id t' = key.
Proof.
  destruct (signing_reachable_inv _ _ _ d R) as [Hj Hi]. pose proof (claimed_row _ _ _ _ _ _ _ Hi H1) as Hrow.
  pose proof (claimed_genuine _ _ _ _ _ _ _ _ _ _ _ Hj Hi H1 S) as Hgen.
  destruct (signing_step_good MarshalStatus MarshalRequest uuid_Parse d d1 Hj Hi) as (Hj1 & Hi1 & _); [by eapply sn_sign, so_claim|].
  destruct (signing_steps_good _ _ _ d1 d2 Hj1 Hi1 S) as (_ & Hi2 & Hl2 & _).
  destruct Hrow as (t1 & Ht1 & Hti & _ & _ & _ & _ & Htf & _ & Hown & Howner & x & Hx & Hxi & Hxf).
  pose proof (si_fence d Hi x Hx) as Hfe. assert (sg_id t = sk_id task) as Htid by apply Hheld.
  pose proof (Hgen t Ht Htid) as Hman. pose proof (si_inputs d2 Hi2 t Ht) as Hval. rewrite Hman in Hval.
  apply validate_artifacts_paths in Hval as [Hnd _].
  unfold process in Hp. do 4 inv_ok_step Hp. unfold processRoots in Hp. cbv zeta in Hp. do 2 inv_ok_step Hp. injection Hp as <-.
  apply sign_all_spec in E2 as (Hf & Hb & Hv); [|case_decide; [reflexivity|lia]|case_decide; [done|lia]].
  split_and!; [done| |by case_decide|].
  { intros Hsame. apply Forall2_same_length_lookup in Hf as [Hlen Hf]. apply Forall2_same_length_lookup. split; [done|].
    intros k i o Hik Hok. destruct (Hf k i o Hik Hok) as (_ & data & copy & signed & Hd & Hdg & Hcp & Hsg & Hout).
    exists data, signed. rewrite Hsame in Hcp by (by eapply list_elem_of_lookup_2). split_and!; congruence. }
  set (mine := fun y => signing_held task now y /\ sg_attempt_fence y = sk_attempt_fence task /\
    signing_leased (sg_attempt_id y) (sg_attempt_fence y) now d2).
  assert (mine t) as Hmine.
  { split_and!; try done. destruct (later_row d1 d2 t1 Hi2 Hl2 Ht1 t Ht) as ([= _ _ _ Hff _ _ _ _] & _); congruence. }
  assert (count_where mine (signing_tasks d2) = 1%nat) as Hcount.
  { enough (count_where mine (signing_tasks d2) <= 1 /\ 0 < count_where mine (signing_tasks d2))%nat by lia. split.
    - apply (count_where_key sg_id); [apply Hi2|]. intros y z _ _ [(Hyi & _) _] [(Hzi & _) _]. congruence.
    - apply count_where_pos. by exists t. }
  assert (exists d3, CompleteSigning task key a2 now d2 = Ok d3 /\ exists t', t' ∈ signing_tasks d3 /\ sg_id t' = sk_id task /\
    sg_state t' = SgCompleted /\ sg_output_manifest t' = Some a2 /\ sg_signing_key_id t' = key) as (d3 & Hd3 & Ht3).
  { unfold CompleteSigning. apply output_token_id in E0. rewrite decide_True by (intros [?|[?|[?|?]]]; [done|congruence|lia|done]).
    rewrite decide_True by (symmetry; by eapply Forall2_length). rewrite Hv.
    rewrite decide_True by (rewrite same_outputs_inputs; apply same_inputs_spec; split; [done|by rewrite (signed_keys _ _ _ _ Hf)]).
    cbv zeta. fold mine. rewrite decide_True by done. eexists. split; [reflexivity|]. eexists. split.
    - cbn. apply elem_of_update_where. exists t. split; [done|]. left. split; [done|reflexivity].
    - done. }
  exists d3. split; [|done]. unfold finish_signing. by rewrite Hd3.
Qed.
End signer_system.

(** ** A run

    The attempt has verified one package and asks for its signature; the first
    signer is too slow and a second one takes over. *)
Definition signing_step_ex := signing_step marshal_status_ex marshal_request_ex any_uuid.
Definition signing_reachable_ex := signing_reachable marshal_status_ex marshal_request_ex any_uuid.

Definition package_sx : list ascii := bytes "package".
Definition sign_sx (data : list ascii) : option (list ascii) := Some (data ++ bytes " signed").
Definition path_sx : string := "app-misc/jq-1.7-1.gpkg.tar".
Definition token_sx : string := "00112233445566778899aabbccddeeff".
Definition input_sx : SigningArtifact := mkSigningArtifact path_sx (file_digest package_sx).1 7 "" 0.
Definition read_sx (p : string) : option (list ascii) := if decide (p = path_sx) then Some package_sx else None.
Definition source_sx : source_files := mkSource (fun _ => true) read_sx read_sx.

Definition verifying_status_sx : BuildStatus :=
  holder_ex <| bs_document := (bs_document holder_ex) <| st_status := "verifying" |> |>.
Definition verifying_sx : db :=
  ran (recordTransition marshal_status_ex "n9" (Some holder_ex) verifying_status_sx "worker" (at_time 25) claimed_ex).
Definition record_sx : ArtifactRecord :=
  mkArtifactRecord "gpkg" "verified_unsigned" (file_digest package_sx).1 7 "application/x-tar"
    ("quarantine:" +:+ token_sx +:+ "/" +:+ path_sx) "" None None.
Definition recorded_sx : db := ran (RecordArtifacts any_uuid (fun _ => "f1") verifying_status_sx [record_sx] (at_time 26) verifying_sx).

Definition request_sx : SigningRequest :=
  mkSigningRequest "j1" "a1" 1 "executor-1" token_sx "amd64" 1000 [input_sx].
Definition task_id_sx : uuid := "00000000-0000-4000-8000-00000000000a".
Definition enqueue_sx := EnqueueSigning task_id_sx request_sx (at_time 30) recorded_sx.
Definition no_task_sx : SigningTask := task_of [] (new_signing_row "" request_sx 0).
Definition queued_sx : db := (ran_with no_task_sx enqueue_sx).2.
Definition claim_sx (owner : string) (t : Z) (d : db) := ClaimSigning owner (5 * Second) unlocked (at_time t) d.
Definition task1_sx : SigningTask := default no_task_sx (ran_with None (claim_sx "signer-1" 31 queued_sx)).1.
Definition signing1_sx : db := (ran_with None (claim_sx "signer-1" 31 queued_sx)).2.
Definition task2_sx : SigningTask := default no_task_sx (ran_with None (claim_sx "signer-2" 40 signing1_sx)).1.
Definition signing2_sx : db := (ran_with None (claim_sx "signer-2" 40 signing1_sx)).2.
Definition outputs_sx : list SigningArtifact :=
  ok_or [] (process sign_sx "/var/cache/binpkgs" task2_sx source_sx (fun _ => false) true).
Definition signed_sx : db := ran (CompleteSigning task2_sx "key-1" outputs_sx (42 * Second) signing2_sx).
Definition expired_sx : db := (ran_with 0%nat (recoverExpiredTx marshal_status_ex 32 unlocked (at_time 200) signing2_sx)).2.

Lemma signing_run d d' : signing_reachable_ex d -> signing_step_ex d d' -> signing_reachable_ex d'.
Proof. intros (d0 & Hi & Hr) Hs. exists d0. split; [done|]. by eapply rtc_r. Qed.

Lemma verifying_step_sx : signing_step_ex claimed_ex verifying_sx.
Proof.
  apply sn_job. eapply js_transition with (current := verifying_status_sx); [exact I|].
  unfold verifying_sx. apply ran_ok. vm_compute. reflexivity.
Qed.

Lemma recorded_step_sx : signing_step_ex verifying_sx recorded_sx.
Proof. apply sn_other; [split_and!; vm_compute; reflexivity|vm_compute; reflexivity]. Qed.

Lemma enqueue_ran_sx : enqueue_sx = Ok ((ran_with no_task_sx enqueue_sx).1, queued_sx).
Proof. unfold queued_sx. apply ran_with_ok. vm_compute. reflexivity. Qed.

Lemma queued_reachable : signing_reachable_ex queued_sx.
Proof.
  eapply signing_run; [eapply signing_run; [eapply signing_run|]|].
  - exists start_ex. split; [split; [exact start_initial|reflexivity]|].
    eapply rtc_l; [apply sn_job, submitted_op|]. apply rtc_once, sn_job, claimed_op.
  - exact verifying_step_sx.
  - exact recorded_step_sx.
  - eapply sn_sign, so_enqueue. exact enqueue_ran_sx.
Qed.

Lemma claim1_ran_sx : claim_sx "signer-1" 31 queued_sx = Ok (Some task1_sx, signing1_sx).
Proof.
  assert (Some task1_sx = (ran_with None (claim_sx "signer-1" 31 queued_sx)).1) as -> by (vm_compute; reflexivity).
  unfold signing1_sx. apply ran_with_ok. vm_compute. reflexivity.
Qed.

Lemma claim2_ran_sx : claim_sx "signer-2" 40 signing1_sx = Ok (Some task2_sx, signing2_sx).
Proof.
  assert (Some task2_sx = (ran_with None (claim_sx "signer-2" 40 signing1_sx)).1) as -> by (vm_compute; reflexivity).
  unfold signing2_sx. apply ran_with_ok. vm_compute. reflexivity.
Qed.

Lemma signing1_reachable : signing_reachable_ex signing1_sx.
Proof. eapply signing_run; [exact queued_reachable|]. eapply sn_sign, so_claim, claim1_ran_sx. Qed.

Lemma signing2_reachable : signing_reachable_ex signing2_sx.
Proof. eapply signing_run; [exact signing1_reachable|]. eapply sn_sign, so_claim, claim2_ran_sx. Qed.

Lemma complete_ran_sx : CompleteSigning task2_sx "key-1" outputs_sx (42 * Second) signing2_sx = Ok signed_sx.
Proof. unfold signed_sx. apply ran_ok. vm_compute. reflexivity. Qed.

Definition row2_sx : signing_task :=
  (claim_signing_row "signer-2" (5 * Second) (40 * Second)
    (claim_signing_row "signer-1" (5 * Second) (31 * Second) (new_signing_row task_id_sx request_sx (30 * Second)))).
Definition signed_row_sx : signing_task :=
  row2_sx <| sg_state := SgCompleted |> <| sg_output_manifest := Some outputs_sx |> <| sg_signing_key_id := "key-1" |>
    <| sg_owner := "" |> <| sg_lease_expires_at := None |> <| sg_completed_at := Some (42 * Second) |>
    <| sg_updated_at := 42 * Second |>.

Lemma row2_in_sx : row2_sx ∈ signing_tasks signing2_sx.
Proof. replace (signing_tasks signing2_sx) with [row2_sx] by (vm_compute; reflexivity). by apply list_elem_of_singleton. Qed.
Lemma signed_row_in_sx : signed_row_sx ∈ signing_tasks signed_sx.
Proof. replace (signing_tasks signed_sx) with [signed_row_sx] by (vm_compute; reflexivity). by apply list_elem_of_singleton. Qed.

Lemma signed_step_sx : signing_step_ex signing2_sx signed_sx.
Proof.
  apply sn_sign. apply (so_complete task2_sx "key-1" outputs_sx (42 * Second)); [|exact complete_ran_sx].
  intros t Ht _. replace (signing_tasks signing2_sx) with [row2_sx] in Ht by (vm_compute; reflexivity).
  apply list_elem_of_singleton in Ht as ->. vm_compute. reflexivity.
Qed.

Lemma signed_reachable_sx : signing_reachable_ex signed_sx.
Proof. eapply signing_run; [exact signing2_reachable|exact signed_step_sx]. Qed.

Lemma signed_set_exact_witness :
  sg_state signed_row_sx = SgCompleted /\ exists outputs, sg_output_manifest signed_row_sx = Some outputs /\
    input_key <$> outputs ≡ₚ input_key <$> [input_sx].
Proof.
  split; [reflexivity|].
  destruct (signed_set_exact marshal_status_ex marshal_request_ex any_uuid signed_sx signed_row_sx signed_reachable_sx
    signed_row_in_sx eq_refl) as (outputs & Ho & _ & Hp & _).
  exists outputs. split; [exact Ho|exact Hp].
Defined.

Lemma signing_outcome_final_witness :
  sg_state signed_row_sx = SgCompleted /\ exists t', t' ∈ signing_tasks signed_sx /\
    signing_outcome t' = (SgCompleted, Some outputs_sx, "key-1").
Proof.
  split; [reflexivity|].
  destruct (signing_outcome_final marshal_status_ex marshal_request_ex any_uuid signed_sx signed_sx signed_row_sx
    signed_reachable_sx (rtc_refl _ _) signed_row_in_sx (or_introl eq_refl)) as (t' & Ht' & _ & Ho).
  exists t'. split; [exact Ht'|exact Ho].
Defined.

Lemma superseded_signer_refused_witness :
  sk_claim_fence task1_sx < sk_claim_fence task2_sx /\
  CompleteSigning task1_sx "key-1" outputs_sx (42 * Second) signing2_sx = Err SigningStale /\
  se_removed (finish_signing "key-1" (fun _ => "") task1_sx (Err SigningFailed) None (42 * Second) signing2_sx) = false /\
  se_removed (finish_signing "key-1" (fun _ => "") task2_sx (Err SigningFailed) None (42 * Second) signing2_sx) = true.
Proof.
  pose proof claim1_ran_sx as H1. pose proof claim2_ran_sx as H2. unfold claim_sx in H1, H2.
  destruct (superseded_signer_refused marshal_status_ex marshal_request_ex any_uuid queued_sx signing1_sx signing1_sx signing2_sx
    signing2_sx "signer-1" "signer-2" (5 * Second) (5 * Second) unlocked unlocked (at_time 31) (at_time 40) task1_sx task2_sx
    queued_reachable H1 (rtc_refl _ _) H2 ltac:(vm_compute; reflexivity) (rtc_refl _ _)) as (Hf & _ & _ & _ & Hr).
  split_and!; [exact Hf|vm_compute; reflexivity|apply Hr|vm_compute; reflexivity].
Defined.

Lemma lost_attempt_unsigned_witness :
  lost "a1" expired_sx /\
  (forall key outputs now r, CompleteSigning task2_sx key outputs now expired_sx <> Ok r).
Proof.
  assert (is_ok (recoverExpiredTx marshal_status_ex 32 unlocked (at_time 200) signing2_sx) = true) as H by (vm_compute; reflexivity).
  apply (ran_with_ok 0%nat) in H.
  assert (signing_reachable_ex expired_sx) as R.
  { unfold expired_sx. eapply signing_run; [exact signing2_reachable|]. eapply sn_job, js_recover, H. }
  assert (lost "a1" expired_sx) as Hl.
  { split; [|replace (worker_leases expired_sx) with (@nil worker_lease) by (vm_compute; reflexivity); apply not_elem_of_nil].
    replace (a_id <$> build_attempts expired_sx) with ["a1"] by (vm_compute; reflexivity). by apply list_elem_of_singleton. }
  assert (row2_sx ∈ signing_tasks expired_sx) as Hin.
  { replace (signing_tasks expired_sx) with [row2_sx] by (vm_compute; reflexivity). by apply list_elem_of_singleton. }
  split; [exact Hl|].
  destruct (lost_attempt_unsigned marshal_status_ex marshal_request_ex any_uuid expired_sx expired_sx "a1" R Hl (rtc_refl _ _))
    as (_ & _ & Hno).
  exact (proj2 (Hno task2_sx row2_sx Hin ltac:(vm_compute; reflexivity) ltac:(vm_compute; reflexivity))).
Defined.

Lemma signed_task_completes_witness :
  output_bytes outputs_sx <= 1000 /\
  exists d3, finish_signing "key-1" (fun _ => "") task2_sx (Ok outputs_sx) None (42 * Second) signing2_sx =
    mkSigningEnd false d3 None.
Proof.
  pose proof claim2_ran_sx as H2. unfold claim_sx in H2.
  assert (process sign_sx "/var/cache/binpkgs" task2_sx source_sx (fun _ => false) true = Ok outputs_sx) as Hp by (vm_compute; reflexivity).
  assert (signing_held task2_sx (42 * Second) row2_sx) as Hh by (apply (bool_decide_unpack _); vm_compute; exact I).
  assert (signing_leased (sg_attempt_id row2_sx) (sg_attempt_fence row2_sx) (42 * Second) signing2_sx) as Hl
    by (apply (bool_decide_unpack _); vm_compute; exact I).
  destruct (signed_task_completes marshal_status_ex marshal_request_ex any_uuid sign_sx signing1_sx signing2_sx signing2_sx
    "signer-2" "/var/cache/binpkgs" "key-1" (5 * Second) unlocked (at_time 40) task2_sx source_sx (fun _ => false) true
    outputs_sx (fun _ => "") (42 * Second) row2_sx signing1_reachable H2 (rtc_refl _ _)
    ltac:(vm_compute; reflexivity) Hp ltac:(discriminate) row2_in_sx Hh Hl) as (_ & _ & Hb & d3 & Hd & _).
  split; [exact Hb|]. exists d3. exact Hd.
Defined.
