(* ===== verification/Iam.v ===== *)
(** * Identities, sessions and devices

    [internal/persistence/iam.go], [iam_sessions.go], [iam_logout.go] and
    [iam_device.go], with the data of [internal/iam/iam.go]: subjects observed
    from a verified identity, the sessions their tokens open, revocation of a
    session with everything derived from it and of all sessions of a subject,
    back-channel logout, the device flow that gives a terminal a session of its
    own, and the memberships of projects.

    The tables are a record [iam_db] of their own: nothing of the job system
    reads them.  A Go time that may be zero is an [option time]. *)

From S2P Require Import Prelude GoStrings GoRegexp GoSha256 Schema JobLedger.
From Stdlib Require Import Ascii.
Open Scope string_scope.
Open Scope list_scope.
Open Scope Z_scope.

(** ** Data *)
Record ExternalIdentity := mkIdentity {
  ei_provider_id : string;
  ei_issuer : string;
  ei_subject : string;
  ei_preferred_username : string;
  ei_display_name : string;
  ei_email : string;
  ei_token_hash : string;
  ei_provider_session_id : string;
  ei_provider_token_id : string;
  ei_issued_at : option time;
  ei_authenticated_at : option time;
  ei_expires_at : option time;
  ei_acr : string;
  ei_amr : list string
}.
#[export] Instance identity_eta : Eta ExternalIdentity := fun i =>
  mkIdentity (ei_provider_id i) (ei_issuer i) (ei_subject i) (ei_preferred_username i) (ei_display_name i)
    (ei_email i) (ei_token_hash i) (ei_provider_session_id i) (ei_provider_token_id i) (ei_issued_at i)
    (ei_authenticated_at i) (ei_expires_at i) (ei_acr i) (ei_amr i).

Record LogoutIdentity := mkLogoutIdentity {
  li_provider_id : string;
  li_issuer : string;
  li_subject : string;
  li_provider_session_id : string;
  li_provider_token_id : string;
  li_issued_at : option time;
  li_expires_at : option time
}.

Record Principal := mkPrincipal {
  pc_provider_id : string;
  pc_subject_id : uuid;
  pc_issuer : string;
  pc_subject : string;
  pc_preferred_username : string;
  pc_display_name : string;
  pc_email : string;
  pc_authentication : string;
  pc_system_admin : bool;
  pc_session_id : uuid;
  pc_token_issued_at : option time;
  pc_token_expires_at : option time;
  pc_authenticated_at : option time;
  pc_acr : string;
  pc_amr : list string;
  pc_step_up : bool
}.
#[export] Instance principal_eta : Eta Principal := fun p =>
  mkPrincipal (pc_provider_id p) (pc_subject_id p) (pc_issuer p) (pc_subject p) (pc_preferred_username p)
    (pc_display_name p) (pc_email p) (pc_authentication p) (pc_system_admin p) (pc_session_id p)
    (pc_token_issued_at p) (pc_token_expires_at p) (pc_authenticated_at p) (pc_acr p) (pc_amr p) (pc_step_up p).

Record IAMSessionPolicy := mkSessionPolicy { sp_idle_timeout : duration; sp_max_lifetime : duration }.

Record iam_subject := mkSubject {
  su_id : uuid;
  su_issuer : string;
  su_subject : string;
  su_preferred_username : string;
  su_display_name : string;
  su_email : string;
  su_last_seen_at : time;
  su_updated_at : time
}.
#[export] Instance subject_eta : Eta iam_subject := fun s =>
  mkSubject (su_id s) (su_issuer s) (su_subject s) (su_preferred_username s) (su_display_name s) (su_email s)
    (su_last_seen_at s) (su_updated_at s).

Record subject_security := mkSecurity { sc_subject_id : uuid; sc_tokens_valid_after : time; sc_updated_at : time }.
#[export] Instance security_eta : Eta subject_security := fun s =>
  mkSecurity (sc_subject_id s) (sc_tokens_valid_after s) (sc_updated_at s).

Inductive session_kind := Browser | Cli.
#[export] Instance session_kind_eq : EqDecision session_kind. Proof. solve_decision. Defined.

Record iam_session := mkSession {
  is_id : uuid;
  is_subject_id : uuid;
  is_token_hash : string;
  is_provider_session_id : string;
  is_provider_token_id : string;
  is_issued_at : time;
  is_authenticated_at : option time;
  is_expires_at : time;
  is_last_seen_at : time;
  is_acr : string;
  is_amr : list string;
  is_revoked_at : option time;
  is_revoked_by : option uuid;
  is_revoke_reason : string;
  is_kind : session_kind;
  is_derived_from : option uuid
}.
#[export] Instance session_eta : Eta iam_session := fun s =>
  mkSession (is_id s) (is_subject_id s) (is_token_hash s) (is_provider_session_id s) (is_provider_token_id s)
    (is_issued_at s) (is_authenticated_at s) (is_expires_at s) (is_last_seen_at s) (is_acr s) (is_amr s)
    (is_revoked_at s) (is_revoked_by s) (is_revoke_reason s) (is_kind s) (is_derived_from s).

Inductive device_status := DvPending | DvApproved | DvDenied | DvConsumed | DvExpired.
#[export] Instance device_status_eq : EqDecision device_status. Proof. solve_decision. Defined.

Record device_authorization := mkDevice {
  dv_id : uuid;
  dv_device_code_hash : string;
  dv_user_code : string;
  dv_status : device_status;
  dv_subject_id : option uuid;
  dv_approver_session_id : option uuid;
  dv_expires_at : time;
  dv_interval_seconds : Z;
  dv_last_polled_at : option time;
  dv_approved_at : option time;
  dv_denied_at : option time;
  dv_consumed_at : option time
}.
#[export] Instance device_eta : Eta device_authorization := fun v =>
  mkDevice (dv_id v) (dv_device_code_hash v) (dv_user_code v) (dv_status v) (dv_subject_id v)
    (dv_approver_session_id v) (dv_expires_at v) (dv_interval_seconds v) (dv_last_polled_at v)
    (dv_approved_at v) (dv_denied_at v) (dv_consumed_at v).

Record logout_event := mkLogoutEvent {
  le_id : uuid;
  le_issuer : string;
  le_token_id_hash : string;
  le_subject : string;
  le_provider_session_id : string;
  le_issued_at : time;
  le_expires_at : time;
  le_received_at : time;
  le_revoked_sessions : Z
}.
#[export] Instance logout_event_eta : Eta logout_event := fun e =>
  mkLogoutEvent (le_id e) (le_issuer e) (le_token_id_hash e) (le_subject e) (le_provider_session_id e)
    (le_issued_at e) (le_expires_at e) (le_received_at e) (le_revoked_sessions e).

Record membership := mkMembership {
  mb_project_id : uuid;
  mb_subject_id : uuid;
  mb_role : string;
  mb_granted_by : option uuid;
  mb_updated_at : time
}.
#[export] Instance membership_eta : Eta membership := fun m =>
  mkMembership (mb_project_id m) (mb_subject_id m) (mb_role m) (mb_granted_by m) (mb_updated_at m).

Record iam_db := mkIamDb {
  iam_subjects : list iam_subject;
  iam_security : list subject_security;
  iam_sessions : list iam_session;
  iam_devices : list device_authorization;
  iam_logout_events : list logout_event;
  project_memberships : list membership
}.
#[export] Instance iam_db_eta : Eta iam_db := fun d =>
  mkIamDb (iam_subjects d) (iam_security d) (iam_sessions d) (iam_devices d) (iam_logout_events d)
    (project_memberships d).

Inductive iam_error :=
| IdentityIncomplete | PolicyInvalid | LifetimeExceeded | SubjectMissing | BeforeWatermark | SessionConstraint
| IamDuplicateKey | SessionRefused | PlatformSessionInvalid | PlatformSessionRefused | SessionUnknown
| RevocationUnauthorized | LogoutIncomplete | LogoutConstraint | LogoutMissing | DeviceIncomplete
| DeviceConstraint | DeviceInvalid | LastOwner | RoleConstraint | ProjectMissing | MembershipMissing
| RoleInsufficient | ProjectRequired | ProjectUnknown | LineageUnbounded.

(** ** Subjects *)

(** The row an identity belongs to: never anything but issuer and subject. *)
Definition same_identity (issuer subject : string) (s : iam_subject) : Prop := su_issuer s = issuer /\ su_subject s = subject.
#[export] Instance same_identity_dec issuer subject s : Decision (same_identity issuer subject s).
Proof. unfold same_identity. apply _. Defined.

Definition ObserveSubject (newID : uuid) (identity : ExternalIdentity) (systemAdmin : bool) (now : time) (d : iam_db)
    : result iam_error (Principal * iam_db) :=
  let same := same_identity (ei_issuer identity) (ei_subject identity) in
  let! (id, d) :=
    match first_where same (iam_subjects d) with
    | Some s =>
        Ok (su_id s, d <| iam_subjects := update_where same
          (fun s => s <| su_preferred_username := ei_preferred_username identity |>
                      <| su_display_name := ei_display_name identity |>
                      <| su_email := ei_email identity |>
                      <| su_last_seen_at := now |> <| su_updated_at := now |>) (iam_subjects d) |>)
    | None =>
        check ~ exists_row (fun s => su_id s = newID) (iam_subjects d) else IamDuplicateKey;;
        Ok (newID, d <| iam_subjects := iam_subjects d ++
          [mkSubject newID (ei_issuer identity) (ei_subject identity) (ei_preferred_username identity)
             (ei_display_name identity) (ei_email identity) now now] |>)
    end in
  Ok (mkPrincipal (ei_provider_id identity) id (ei_issuer identity) (ei_subject identity)
        (ei_preferred_username identity) (ei_display_name identity) (ei_email identity) "oidc" systemAdmin
        "" None None None "" [] false, d).

(** ** Sessions *)

(** [make_interval(secs => int64(d / time.Second))] *)
Definition whole_seconds (t : duration) : duration := Z.quot t Second * Second.
Definition idle_bound (policy : IAMSessionPolicy) : duration := whole_seconds (sp_idle_timeout policy).
Definition age_bound (policy : IAMSessionPolicy) : duration := whole_seconds (sp_max_lifetime policy).

(** [time.Time.Sub] saturates. *)
Definition time_Sub (a b : time) : duration := Z.max int64_min (Z.min int64_max (a - b)).
(** [date_trunc('second', t)] *)
Definition trunc_second (t : time) : time := t - t mod Second.

(** The checks of the table. *)
Definition session_shape (s : iam_session) : Prop :=
  lower_hex (is_token_hash s) = true /\ go_len (is_token_hash s) = 64 /\
  char_length (is_provider_session_id s) <= 512 /\ char_length (is_provider_token_id s) <= 512 /\
  char_length (is_acr s) <= 512 /\ is_issued_at s < is_expires_at s /\
  match is_authenticated_at s with None => True | Some t => t <= is_expires_at s end /\
  match is_derived_from s with None => True | Some p => is_kind s = Cli /\ p <> is_id s end.
#[export] Instance session_shape_dec s : Decision (session_shape s).
Proof. unfold session_shape. destruct (is_authenticated_at s), (is_derived_from s); apply _. Defined.

(** Not revoked, not expired, not idle, not too old. *)
Definition session_fresh (policy : IAMSessionPolicy) (now : time) (s : iam_session) : Prop :=
  is_revoked_at s = None /\ now < is_expires_at s /\ now - idle_bound policy < is_last_seen_at s /\
  now - age_bound policy < is_issued_at s.
#[export] Instance session_fresh_dec policy now s : Decision (session_fresh policy now s).
Proof. unfold session_fresh. apply _. Defined.

(** Issued after the subject's watermark. *)
Definition past_watermark (d : iam_db) (s : iam_session) : Prop :=
  exists_row (fun w => sc_subject_id w = is_subject_id s /\ sc_tokens_valid_after w < is_issued_at s) (iam_security d).
#[export] Instance past_watermark_dec d s : Decision (past_watermark d s).
Proof. unfold past_watermark. apply _. Defined.

(** [INSERT INTO iam_subject_security ... ON CONFLICT DO NOTHING] *)
Definition ensure_security (subjectID : uuid) (now : time) (d : iam_db) : result iam_error iam_db :=
  match first_where (fun w => sc_subject_id w = subjectID) (iam_security d) with
  | Some _ => Ok d
  | None =>
      check exists_row (fun s => su_id s = subjectID) (iam_subjects d) else SubjectMissing;;
      Ok (d <| iam_security := iam_security d ++ [mkSecurity subjectID 0 now] |>)
  end.

Definition touch_seen (now : time) (s : iam_session) : iam_session := s <| is_last_seen_at := now |>.

Definition new_session (newID : uuid) (principal : Principal) (identity : ExternalIdentity) (issued expires now : time)
    : iam_session :=
  mkSession newID (pc_subject_id principal) (ei_token_hash identity) (ei_provider_session_id identity)
    (ei_provider_token_id identity) issued (ei_authenticated_at identity) expires now (ei_acr identity)
    (ei_amr identity) None None "" Browser None.

(** The upsert of a token: a known token is only touched, and only while its
    session is alive and was opened for the same claims. *)
Definition upsert_session (policy : IAMSessionPolicy) (row : iam_session) (now : time) (d : iam_db)
    : result iam_error (iam_session * iam_db) :=
  check now < is_expires_at row /\ now - age_bound policy < is_issued_at row else SessionRefused;;
  check session_shape row else SessionConstraint;;
  let same := fun s => is_token_hash s = is_token_hash row in
  match first_where same (iam_sessions d) with
  | None =>
      check ~ exists_row (fun s => is_id s = is_id row) (iam_sessions d) else IamDuplicateKey;;
      check exists_row (fun s => su_id s = is_subject_id row) (iam_subjects d) else SubjectMissing;;
      Ok (row, d <| iam_sessions := iam_sessions d ++ [row] |>)
  | Some s =>
      check is_subject_id s = is_subject_id row /\ is_issued_at s = is_issued_at row /\
            is_expires_at s = is_expires_at row /\ session_fresh policy now s else SessionRefused;;
      Ok (touch_seen now s, d <| iam_sessions := update_where same (touch_seen now) (iam_sessions d) |>)
  end.

Definition AuthorizeSession (newID : uuid) (principal : Principal) (identity : ExternalIdentity)
    (policy : IAMSessionPolicy) (clk : clock) (d : iam_db) : result iam_error (Principal * iam_db) :=
  match ei_issued_at identity, ei_expires_at identity with
  | Some issued, Some expires =>
      check ~ (pc_subject_id principal = "" \/ ei_token_hash identity = "") else IdentityIncomplete;;
      check ~ (sp_idle_timeout policy <= 0 \/ sp_max_lifetime policy <= 0) else PolicyInvalid;;
      check time_Sub expires issued <= sp_max_lifetime policy else LifetimeExceeded;;
      let! d := ensure_security (pc_subject_id principal) (clk 0%nat) d in
      match first_where (fun w => sc_subject_id w = pc_subject_id principal) (iam_security d) with
      | None => Err SubjectMissing
      | Some w =>
          check sc_tokens_valid_after w < issued else BeforeWatermark;;
          let! (session, d) :=
            upsert_session policy (new_session newID principal identity issued expires (clk 2%nat)) (clk 2%nat) d in
          Ok (principal <| pc_session_id := is_id session |> <| pc_token_issued_at := Some (is_issued_at session) |>
                <| pc_token_expires_at := Some (is_expires_at session) |>
                <| pc_authenticated_at := match is_authenticated_at session with
                                          | Some t => Some t | None => pc_authenticated_at principal end |>
                <| pc_acr := is_acr session |> <| pc_amr := is_amr session |>, d)
      end
  | _, _ => Err IdentityIncomplete
  end.

(** The principal of a session of a known subject. *)
Definition session_principal (s : iam_subject) (session : iam_session) : Principal :=
  mkPrincipal "" (su_id s) (su_issuer s) (su_subject s) (su_preferred_username s) (su_display_name s) (su_email s)
    "federated-session" false (is_id session) (Some (is_issued_at session)) (Some (is_expires_at session))
    (is_authenticated_at session) (is_acr session) (is_amr session) false.

Definition platform_session (tokenHash : string) (policy : IAMSessionPolicy) (now : time) (d : iam_db)
    (s : iam_session) : Prop :=
  is_token_hash s = tokenHash /\ exists_row (fun u => su_id u = is_subject_id s) (iam_subjects d) /\
  session_fresh policy now s /\ past_watermark d s.
#[export] Instance platform_session_dec h policy now d s : Decision (platform_session h policy now d s).
Proof. unfold platform_session. apply _. Defined.

Definition AuthorizePlatformSession (raw : string) (policy : IAMSessionPolicy) (now : time) (d : iam_db)
    : result iam_error (Principal * iam_db) :=
  check ~ (raw = "" \/ sp_idle_timeout policy <= 0 \/ sp_max_lifetime policy <= 0) else PlatformSessionInvalid;;
  let tokenHash := EncodeToString (Sum256 (bytes raw)) in
  match first_where (platform_session tokenHash policy now d) (iam_sessions d) with
  | None => Err PlatformSessionRefused
  | Some s =>
      match first_where (fun u => su_id u = is_subject_id s) (iam_subjects d) with
      | None => Err PlatformSessionRefused
      | Some u =>
          Ok (session_principal u s,
              d <| iam_sessions := update_where (platform_session tokenHash policy now d) (touch_seen now)
                     (iam_sessions d) |>)
      end
  end.

Definition ListSessions (subjectID : uuid) (d : iam_db) : list iam_session :=
  take 200 (sort_by (then_by (desc (by_key is_last_seen_at)) (by_str is_id))
              (filter (fun s => is_subject_id s = subjectID) (iam_sessions d))).

(** ** Revocation *)
Definition derived_from (ids : list uuid) (s : iam_session) : Prop :=
  match is_derived_from s with Some p => p ∈ ids | None => False end.
#[export] Instance derived_from_dec ids s : Decision (derived_from ids s).
Proof. unfold derived_from. destruct (is_derived_from s); apply _. Defined.

(** The recursive query: the sessions of one round are those derived from the
    sessions of the round before.  [None]: more rounds than [fuel]. *)
Fixpoint lineage (fuel : nat) (round : list uuid) (l : list iam_session) : option (list uuid) :=
  match round with
  | [] => Some []
  | _ => match fuel with
         | O => None
         | S fuel => rest ← lineage fuel (is_id <$> filter (derived_from round) l) l; Some (round ++ rest)
         end
  end.

(** [NULLIF($2, '')] *)
Definition null_if_empty (id : uuid) : option uuid := if decide (id = "") then None else Some id.

(** A revoked session keeps who revoked it first, when and why. *)
Definition revoke_session (by_subject : option uuid) (reason : string) (now : time) (s : iam_session) : iam_session :=
  match is_revoked_at s with
  | Some _ => s
  | None => s <| is_revoked_at := Some now |> <| is_revoked_by := by_subject |> <| is_revoke_reason := reason |>
  end.

Definition RevokeSession (requester : Principal) (sessionID : uuid) (reason : string) (allowOtherSubjects : bool)
    (now : time) (d : iam_db) : result iam_error (iam_session * iam_db) :=
  let root := filter (fun s => is_id s = sessionID /\
    (allowOtherSubjects = true \/ Some (is_subject_id s) = null_if_empty (pc_subject_id requester))) (iam_sessions d) in
  match lineage (S (length (iam_sessions d))) (is_id <$> root) (iam_sessions d) with
  | None => Err LineageUnbounded
  | Some ids =>
      check char_length reason <= 1024 \/ ~ exists_row (fun s => is_id s ∈ ids /\ is_revoked_at s = None) (iam_sessions d)
        else SessionConstraint;;
      let d := d <| iam_sessions := update_where (fun s => is_id s ∈ ids)
                      (revoke_session (null_if_empty (pc_subject_id requester)) reason now) (iam_sessions d) |> in
      match first_where (fun s => is_id s = sessionID /\ is_id s ∈ ids) (iam_sessions d) with
      | None => Err SessionUnknown
      | Some s => Ok (s, d)
      end
  end.

(** The watermark only rises. *)
Definition raise_watermark (subjectID : uuid) (mark now : time) (d : iam_db) : result iam_error iam_db :=
  match first_where (fun w => sc_subject_id w = subjectID) (iam_security d) with
  | Some _ =>
      Ok (d <| iam_security := update_where (fun w => sc_subject_id w = subjectID)
             (fun w => w <| sc_tokens_valid_after := Z.max (sc_tokens_valid_after w) mark |> <| sc_updated_at := now |>)
             (iam_security d) |>)
  | None =>
      check exists_row (fun s => su_id s = subjectID) (iam_subjects d) else SubjectMissing;;
      Ok (d <| iam_security := iam_security d ++ [mkSecurity subjectID mark now] |>)
  end.

Definition open_session_of (subjectID : uuid) (s : iam_session) : Prop := is_subject_id s = subjectID /\ is_revoked_at s = None.
#[export] Instance open_session_of_dec subjectID s : Decision (open_session_of subjectID s).
Proof. unfold open_session_of. apply _. Defined.

Definition RevokeAllSessions (requester : Principal) (subjectID : uuid) (reason : string) (allowOtherSubjects : bool)
    (clk : clock) (d : iam_db) : result iam_error (Z * iam_db) :=
  check allowOtherSubjects = true \/ subjectID = pc_subject_id requester else RevocationUnauthorized;;
  let! d := raise_watermark subjectID (trunc_second (clk 0%nat)) (clk 0%nat) d in
  let revoked := Z.of_nat (count_where (open_session_of subjectID) (iam_sessions d)) in
  check char_length reason <= 1024 \/ revoked = 0 else SessionConstraint;;
  Ok (revoked, d <| iam_sessions := update_where (open_session_of subjectID)
                      (revoke_session (null_if_empty (pc_subject_id requester)) reason (clk 1%nat)) (iam_sessions d) |>).

(** ** Back-channel logout *)
Record BackchannelLogoutResult := mkLogoutResult { lr_duplicate : bool; lr_revoked_sessions : Z }.

Definition logout_reason : string := "provider_backchannel_logout".

(** The provider revokes for itself: nobody is recorded as the one who did. *)
Definition logout_session (now : time) (s : iam_session) : iam_session :=
  match is_revoked_at s with
  | Some _ => s
  | None => s <| is_revoked_at := Some now |> <| is_revoke_reason := logout_reason |>
  end.

Definition logged_out (logout : LogoutIdentity) (d : iam_db) (s : iam_session) : Prop :=
  exists_row (fun u => su_id u = is_subject_id s /\ su_issuer u = li_issuer logout /\
                       (li_subject logout = "" \/ su_subject u = li_subject logout)) (iam_subjects d) /\
  is_provider_session_id s = li_provider_session_id logout /\ is_revoked_at s = None.
#[export] Instance logged_out_dec logout d s : Decision (logged_out logout d s).
Proof. unfold logged_out. apply _. Defined.

Definition revoke_logged_out (P : iam_session -> Prop) `{!forall s, Decision (P s)} (now : time) (d : iam_db)
    : Z * iam_db :=
  (Z.of_nat (count_where P (iam_sessions d)),
   d <| iam_sessions := update_where P (logout_session now) (iam_sessions d) |>).

(** [NUL] separates issuer and token id. *)
Definition logout_token_hash (logout : LogoutIdentity) : string :=
  EncodeToString (Sum256 (bytes (li_issuer logout) ++ [ascii_of_N 0] ++ bytes (li_provider_token_id logout))).

Definition logout_shape (logout : LogoutIdentity) : Prop :=
  char_length (li_issuer logout) <= 2048 /\ char_length (li_subject logout) <= 512 /\
  char_length (li_provider_session_id logout) <= 512.
#[export] Instance logout_shape_dec logout : Decision (logout_shape logout).
Proof. unfold logout_shape. apply _. Defined.

(** Statements 2 and 3: by provider session, or all sessions of the subject. *)
Definition apply_logout (logout : LogoutIdentity) (issued : time) (clk : clock) (d : iam_db)
    : result iam_error (Z * iam_db) :=
  if decide (li_provider_session_id logout <> "") then Ok (revoke_logged_out (logged_out logout d) (clk 1%nat) d)
  else match first_where (same_identity (li_issuer logout) (li_subject logout)) (iam_subjects d) with
       | None => Ok (0, d)
       | Some u =>
           let! d := raise_watermark (su_id u) (trunc_second issued) (clk 1%nat) d in
           Ok (revoke_logged_out (open_session_of (su_id u)) (clk 2%nat) d)
       end.

Definition ApplyBackchannelLogout (eventID : uuid) (logout : LogoutIdentity) (clk : clock) (d : iam_db)
    : result iam_error (BackchannelLogoutResult * iam_db) :=
  match li_issued_at logout, li_expires_at logout with
  | Some issued, Some expires =>
      check ~ (li_issuer logout = "" \/ li_provider_token_id logout = "" \/
               (li_subject logout = "" /\ li_provider_session_id logout = "") \/ expires <= issued)
        else LogoutIncomplete;;
      let tokenHash := logout_token_hash logout in
      check logout_shape logout else LogoutConstraint;;
      match first_where (fun e => le_token_id_hash e = tokenHash) (iam_logout_events d) with
      | Some e => Ok (mkLogoutResult true (le_revoked_sessions e), d)
      | None =>
          check ~ exists_row (fun e => le_id e = eventID) (iam_logout_events d) else IamDuplicateKey;;
          let d := d <| iam_logout_events := iam_logout_events d ++
            [mkLogoutEvent eventID (li_issuer logout) tokenHash (li_subject logout) (li_provider_session_id logout)
               issued expires (clk 0%nat) 0] |> in
          let! (revoked, d) := apply_logout logout issued clk d in
          Ok (mkLogoutResult false revoked,
              d <| iam_logout_events := update_where (fun e => le_id e = eventID)
                     (fun e => e <| le_revoked_sessions := revoked |>) (iam_logout_events d) |>)
      end
  | _, _ => Err LogoutIncomplete
  end.

(** ** The device flow *)
Record DeviceAuthorization := mkDeviceView {
  da_id : uuid; da_user_code : string; da_status : device_status; da_expires_at : time; da_interval_seconds : Z
}.
Definition device_view (v : device_authorization) : DeviceAuthorization :=
  mkDeviceView (dv_id v) (dv_user_code v) (dv_status v) (dv_expires_at v) (dv_interval_seconds v).

Inductive poll_status := PollPending | PollApproved | PollDenied | PollExpired | PollSlowDown.
#[export] Instance poll_status_eq : EqDecision poll_status. Proof. solve_decision. Defined.
Record DeviceAuthorizationPoll := mkPoll {
  po_status : poll_status; po_interval_seconds : Z; po_principal : option Principal
}.

Definition user_code_char (c : ascii) : bool :=
  in_range "A" "H" c || in_range "J" "N" c || in_range "P" "Z" c || in_range "2" "9" c.
Definition user_code_pattern : re :=
  Cat (Times 4 (Cls user_code_char)) (Cat (Cls (fun c => bool_decide (c = "-"%char))) (Times 4 (Cls user_code_char))).

(** A false result is a collision of codes. *)
Definition CreateDeviceAuthorization (newID : uuid) (deviceCodeHash userCode : string) (ttlSeconds intervalSeconds : Z)
    (clk : clock) (d : iam_db) : result iam_error (bool * iam_db) :=
  check ~ (go_len deviceCodeHash <> 64 \/ userCode = "" \/ intervalSeconds < 1 \/ 60 < intervalSeconds \/
           ttlSeconds < 1 \/ 3600 < ttlSeconds) else DeviceIncomplete;;
  let d := d <| iam_devices := delete_where (fun v => dv_expires_at v < clk 0%nat - 86400 * Second) (iam_devices d) |> in
  check lower_hex deviceCodeHash = true /\ MatchString user_code_pattern userCode = true else DeviceConstraint;;
  if decide (exists_row (fun v => dv_id v = newID \/ dv_device_code_hash v = deviceCodeHash \/ dv_user_code v = userCode)
               (iam_devices d))
  then Ok (false, d)
  else Ok (true, d <| iam_devices := iam_devices d ++
             [mkDevice newID deviceCodeHash userCode DvPending None None (clk 1%nat + ttlSeconds * Second)
                intervalSeconds None None None None] |>).

(** The session that decides: alive, of the subject, past the watermark. *)
Definition deciding_session (principal : Principal) (policy : IAMSessionPolicy) (now : time) (d : iam_db) : Prop :=
  exists_row (fun s => is_id s = pc_session_id principal /\ is_subject_id s = pc_subject_id principal /\
    session_fresh policy now s /\ past_watermark d s) (iam_sessions d).
#[export] Instance deciding_session_dec principal policy now d : Decision (deciding_session principal policy now d).
Proof. unfold deciding_session. apply _. Defined.

Definition decidable_device (userCode : string) (now : time) (v : device_authorization) : Prop :=
  dv_user_code v = userCode /\ dv_status v = DvPending /\ now < dv_expires_at v.
#[export] Instance decidable_device_dec userCode now v : Decision (decidable_device userCode now v).
Proof. unfold decidable_device. apply _. Defined.

Definition expire_device (v : device_authorization) : device_authorization := v <| dv_status := DvExpired |>.
Definition open_device (v : device_authorization) : Prop := dv_status v ∈ [DvPending; DvApproved].
#[export] Instance open_device_dec v : Decision (open_device v).
Proof. unfold open_device. apply _. Defined.

Definition approve_device (principal : Principal) (now : time) (v : device_authorization) : device_authorization :=
  v <| dv_status := DvApproved |> <| dv_subject_id := Some (pc_subject_id principal) |>
    <| dv_approver_session_id := Some (pc_session_id principal) |> <| dv_approved_at := Some now |>.
Definition deny_device (now : time) (v : device_authorization) : device_authorization :=
  v <| dv_status := DvDenied |> <| dv_denied_at := Some now |>.

Definition DecideDeviceAuthorization (userCode : string) (principal : Principal) (approve : bool)
    (policy : IAMSessionPolicy) (clk : clock) (d : iam_db) : result iam_error (DeviceAuthorization * iam_db) :=
  check ~ (userCode = "" \/ pc_subject_id principal = "" \/ pc_session_id principal = "" \/
           sp_idle_timeout policy <= 0 \/ sp_max_lifetime policy <= 0) else DeviceInvalid;;
  let d := d <| iam_devices := update_where
    (fun v => dv_user_code v = userCode /\ open_device v /\ dv_expires_at v <= clk 0%nat) expire_device (iam_devices d) |> in
  let now := clk 1%nat in
  match first_where (decidable_device userCode now) (iam_devices d) with
  | None => Err DeviceInvalid
  | Some v =>
      check deciding_session principal policy now d else DeviceInvalid;;
      let decide_row := if approve then approve_device principal now else deny_device now in
      Ok (device_view (decide_row v),
          d <| iam_devices := update_where (decidable_device userCode now) decide_row (iam_devices d) |>)
  end.

(** The session a device was approved by, while it may still give one away. *)
Definition source_of (v : device_authorization) (policy : IAMSessionPolicy) (now : time) (d : iam_db) (s : iam_session)
    : Prop :=
  dv_approver_session_id v = Some (is_id s) /\ dv_subject_id v = Some (is_subject_id s) /\
  session_fresh policy now s /\ past_watermark d s.
#[export] Instance source_of_dec v policy now d s : Decision (source_of v policy now d s).
Proof. unfold source_of. apply _. Defined.

Definition device_source (v : device_authorization) (policy : IAMSessionPolicy) (now : time) (d : iam_db)
    : option iam_session :=
  if decide (dv_status v = DvApproved /\ now < dv_expires_at v)
  then first_where (source_of v policy now d) (iam_sessions d) else None.

Definition cli_session (newID : uuid) (accessTokenHash : string) (policy : IAMSessionPolicy) (now : time)
    (s : iam_session) : iam_session :=
  mkSession newID (is_subject_id s) accessTokenHash (is_provider_session_id s) (is_provider_token_id s) now
    (is_authenticated_at s) (Z.min (is_expires_at s) (now + age_bound policy)) now (is_acr s) (is_amr s)
    None None "" Cli (Some (is_id s)).

Definition set_device (id : uuid) (f : device_authorization -> device_authorization) (d : iam_db) : iam_db :=
  d <| iam_devices := update_where (fun v => dv_id v = id) f (iam_devices d) |>.
Definition set_approved (id : uuid) (f : device_authorization -> device_authorization) (d : iam_db) : iam_db :=
  d <| iam_devices := update_where (fun v => dv_id v = id /\ dv_status v = DvApproved) f (iam_devices d) |>.

(** Statements 2 to 4 for an approved code: the session is inserted and the
    code consumed, or the code is denied. *)
Definition consume_device (newID : uuid) (accessTokenHash : string) (policy : IAMSessionPolicy)
    (v : device_authorization) (clk : clock) (d : iam_db) : result iam_error (DeviceAuthorizationPoll * iam_db) :=
  let denied d := Ok (mkPoll PollDenied (dv_interval_seconds v) None, set_approved (dv_id v) (deny_device (clk 3%nat)) d) in
  match device_source v policy (clk 1%nat) d with
  | None => denied d
  | Some _ =>
      match device_source v policy (clk 2%nat) d with
      | None => denied d
      | Some s =>
          let row := cli_session newID accessTokenHash policy (clk 2%nat) s in
          check session_shape row else SessionConstraint;;
          check ~ exists_row (fun x => is_id x = newID \/ is_token_hash x = accessTokenHash) (iam_sessions d)
            else IamDuplicateKey;;
          let d := d <| iam_sessions := iam_sessions d ++ [row] |> in
          match first_where (fun u => su_id u = is_subject_id row) (iam_subjects d) with
          | None => denied d
          | Some u =>
              Ok (mkPoll PollApproved (dv_interval_seconds v) (Some (session_principal u row)),
                  set_approved (dv_id v) (fun v => v <| dv_status := DvConsumed |> <| dv_consumed_at := Some (clk 3%nat) |>
                                                     <| dv_last_polled_at := Some (clk 3%nat) |>) d)
          end
      end
  end.

Definition too_fast (v : device_authorization) (now : time) : Prop :=
  match dv_last_polled_at v with Some t => now < t + dv_interval_seconds v * Second | None => False end.
#[export] Instance too_fast_dec v now : Decision (too_fast v now).
Proof. unfold too_fast. destruct (dv_last_polled_at v); apply _. Defined.

Definition PollDeviceAuthorization (newID : uuid) (deviceCodeHash accessTokenHash : string) (policy : IAMSessionPolicy)
    (clk : clock) (d : iam_db) : result iam_error (DeviceAuthorizationPoll * iam_db) :=
  check ~ (go_len deviceCodeHash <> 64 \/ go_len accessTokenHash <> 64 \/ sp_idle_timeout policy <= 0 \/
           sp_max_lifetime policy <= 0) else DeviceInvalid;;
  match first_where (fun v => dv_device_code_hash v = deviceCodeHash) (iam_devices d) with
  | None => Ok (mkPoll PollExpired 0 None, d)
  | Some v =>
      let answer s := mkPoll s (dv_interval_seconds v) None in
      if decide (dv_expires_at v <= clk 0%nat) then
        Ok (answer PollExpired, if decide (open_device v) then set_device (dv_id v) expire_device d else d)
      else if decide (dv_status v = DvDenied) then Ok (answer PollDenied, d)
      else if decide (dv_status v = DvConsumed \/ dv_status v = DvExpired) then Ok (answer PollExpired, d)
      else if decide (too_fast v (clk 0%nat)) then
        let interval := Z.min (dv_interval_seconds v + 5) 60 in
        Ok (mkPoll PollSlowDown interval None,
            set_device (dv_id v) (fun v => v <| dv_interval_seconds := Z.min (dv_interval_seconds v + 5) 60 |>
                                             <| dv_last_polled_at := Some (clk 1%nat) |>) d)
      else if decide (dv_status v = DvPending) then
        Ok (answer PollPending, set_device (dv_id v) (fun v => v <| dv_last_polled_at := Some (clk 1%nat) |>) d)
      else consume_device newID accessTokenHash policy v clk d
  end.

(** ** Projects and roles *)
Definition role_rank (role : string) : Z :=
  if decide (role = "viewer") then 1 else if decide (role = "developer") then 2
  else if decide (role = "maintainer") then 3 else if decide (role = "owner") then 4 else 0.
Definition RoleAtLeast (actual required : string) : bool :=
  bool_decide (role_rank required <= role_rank actual) && bool_decide (0 < role_rank required).

Record ProjectAccess := mkAccess { pa_project_id : uuid; pa_project_name : string; pa_role : string }.

Definition ListProjects (principal : Principal) (ps : list project) (d : iam_db) : list ProjectAccess :=
  let order := then_by (by_str pa_project_name) (by_str pa_project_id) in
  if pc_system_admin principal then sort_by order ((fun p => mkAccess (pr_id p) (pr_name p) "owner") <$> ps)
  else sort_by order
    (m ← filter (fun m => mb_subject_id m = pc_subject_id principal) (project_memberships d);
     p ← filter (fun p => pr_id p = mb_project_id m) ps;
     [mkAccess (pr_id p) (pr_name p) (mb_role m)]).

Fixpoint resolve_in (principal : Principal) (selector requiredRole : string) (l : list ProjectAccess)
    : result iam_error ProjectAccess :=
  match l with
  | [] => Err ProjectUnknown
  | p :: l =>
      if decide (pa_project_id p <> selector /\ pa_project_name p <> selector)
      then resolve_in principal selector requiredRole l
      else check ~ (pc_system_admin principal = false /\ RoleAtLeast (pa_role p) requiredRole = false)
             else RoleInsufficient;; Ok p
  end.

Definition DefaultProjectName : string := "default".

Definition ResolveProject (principal : Principal) (selector requiredRole : string) (ps : list project) (d : iam_db)
    : result iam_error ProjectAccess :=
  let accessible := ListProjects principal ps d in
  let selector := TrimSpace selector in
  if decide (selector = "") then
    if pc_system_admin principal then resolve_in principal DefaultProjectName requiredRole accessible
    else match accessible with
         | [p] => check RoleAtLeast (pa_role p) requiredRole = true else RoleInsufficient;; Ok p
         | _ => Err ProjectRequired
         end
  else resolve_in principal selector requiredRole accessible.

Definition member_of (projectID subjectID : uuid) (m : membership) : Prop :=
  mb_project_id m = projectID /\ mb_subject_id m = subjectID.
#[export] Instance member_of_dec projectID subjectID m : Decision (member_of projectID subjectID m).
Proof. unfold member_of. apply _. Defined.

Definition owners (projectID : uuid) (d : iam_db) : nat :=
  count_where (fun m => mb_project_id m = projectID /\ mb_role m = "owner") (project_memberships d).

(** The last owner of a project cannot be demoted or removed. *)
Definition spares_owner (projectID subjectID : uuid) (d : iam_db) : Prop :=
  match first_where (member_of projectID subjectID) (project_memberships d) with
  | Some m => mb_role m = "owner" -> (1 < owners projectID d)%nat
  | None => True
  end.
#[export] Instance spares_owner_dec projectID subjectID d : Decision (spares_owner projectID subjectID d).
Proof. unfold spares_owner. destruct (first_where _ _); apply _. Defined.

Record ProjectMember := mkMember {
  pm_project_id : uuid; pm_subject_id : uuid; pm_issuer : string; pm_subject : string;
  pm_preferred_username : string; pm_display_name : string; pm_email : string; pm_role : string
}.
Definition member_row (m : membership) (s : iam_subject) : ProjectMember :=
  mkMember (mb_project_id m) (su_id s) (su_issuer s) (su_subject s) (su_preferred_username s) (su_display_name s)
    (su_email s) (mb_role m).

(** A subject may be given a role before it ever signed in. *)
Definition provision_subject (newID : uuid) (issuer subject : string) (now : time) (d : iam_db)
    : result iam_error (uuid * iam_db) :=
  match first_where (same_identity issuer subject) (iam_subjects d) with
  | Some s => Ok (su_id s, d)
  | None =>
      check ~ exists_row (fun s => su_id s = newID) (iam_subjects d) else IamDuplicateKey;;
      Ok (newID, d <| iam_subjects := iam_subjects d ++ [mkSubject newID issuer subject "" "" "" now now] |>)
  end.

Definition known_grantor (granted : option uuid) (d : iam_db) : Prop :=
  match granted with None => True | Some g => exists_row (fun s => su_id s = g) (iam_subjects d) end.
#[export] Instance known_grantor_dec granted d : Decision (known_grantor granted d).
Proof. unfold known_grantor. destruct granted; apply _. Defined.

Definition PutMembership (newID : uuid) (projectID : uuid) (issuer subject role : string) (grantedBy : uuid)
    (ps : list project) (clk : clock) (d : iam_db) : result iam_error (ProjectMember * iam_db) :=
  let! (subjectID, d) := provision_subject newID issuer subject (clk 0%nat) d in
  check role = "owner" \/ spares_owner projectID subjectID d else LastOwner;;
  check 0 < role_rank role else RoleConstraint;;
  let granted := null_if_empty grantedBy in
  check known_grantor granted d else SubjectMissing;;
  let same := member_of projectID subjectID in
  let! d :=
    match first_where same (project_memberships d) with
    | Some _ =>
        Ok (d <| project_memberships := update_where same
               (fun m => m <| mb_role := role |> <| mb_granted_by := granted |> <| mb_updated_at := clk 1%nat |>)
               (project_memberships d) |>)
    | None =>
        check exists_row (fun p => pr_id p = projectID) ps else ProjectMissing;;
        Ok (d <| project_memberships := project_memberships d ++
               [mkMembership projectID subjectID role granted (clk 1%nat)] |>)
    end in
  match first_where same (project_memberships d), first_where (fun s => su_id s = subjectID) (iam_subjects d) with
  | Some m, Some s => Ok (member_row m s, d)
  | _, _ => Err MembershipMissing
  end.

Definition DeleteMembership (projectID subjectID : uuid) (d : iam_db) : result iam_error iam_db :=
  match first_where (member_of projectID subjectID) (project_memberships d) with
  | None => Err MembershipMissing
  | Some _ =>
      check spares_owner projectID subjectID d else LastOwner;;
      Ok (d <| project_memberships := delete_where (member_of projectID subjectID) (project_memberships d) |>)
  end.

Definition ListMembers (projectID : uuid) (d : iam_db) : list ProjectMember :=
  sort_by (then_by (by_str pm_issuer) (by_str pm_subject))
    (m ← filter (fun m => mb_project_id m = projectID) (project_memberships d);
     s ← filter (fun s => su_id s = mb_subject_id m) (iam_subjects d);
     [member_row m s]).

Definition auditActor (principal : Principal) : string :=
  if decide (pc_subject principal <> "") then pc_issuer principal +:+ "#" +:+ pc_subject principal
  else pc_authentication principal.
