(* ===== verification/IamSystem.v ===== *)
(** * What the identity tables keep

    The operations of [Iam] as steps of one system, and the invariant of the
    states it reaches: keys are unique, references lead somewhere, a derived
    session follows the one it came from, is never wider than it and falls with
    it, and the rows of the device flow have the shape their state asks for. *)

From S2P Require Import Prelude GoStrings GoRegexp GoSha256 Schema JobLedger Iam.
From Stdlib Require Import Ascii.
Open Scope string_scope.
Open Scope list_scope.
Open Scope Z_scope.

#[local] Arguments update_where : simpl never.
#[local] Arguments delete_where : simpl never.

(** ** Rows over time *)
Definition revoked (s : iam_session) : Prop := is_revoked_at s <> None.
Definition revocation (s : iam_session) : option time * option uuid * string :=
  (is_revoked_at s, is_revoked_by s, is_revoke_reason s).
Definition session_static (s : iam_session)
    : uuid * uuid * string * string * (string * time * option time * time) * (string * list string * session_kind * option uuid) :=
  (is_id s, is_subject_id s, is_token_hash s, is_provider_session_id s,
   (is_provider_token_id s, is_issued_at s, is_authenticated_at s, is_expires_at s),
   (is_acr s, is_amr s, is_kind s, is_derived_from s)).

(** A session, later: the same session, and a revocation that stays. *)
Definition session_le (s s' : iam_session) : Prop :=
  session_static s' = session_static s /\ (revoked s -> revocation s' = revocation s).
#[export] Instance session_le_preorder : PreOrder session_le.
Proof.
  split; [done|]. intros x y z [H1 H2] [H3 H4]. split; [congruence|]. intros Hx. specialize (H2 Hx).
  rewrite H4; [done|]. injection H2 as Hr _ _. unfold revoked in *. congruence.
Qed.

Definition mark_le (w w' : subject_security) : Prop :=
  sc_subject_id w' = sc_subject_id w /\ sc_tokens_valid_after w <= sc_tokens_valid_after w'.
#[export] Instance mark_le_preorder : PreOrder mark_le.
Proof. split; [intros x; split; [done|lia]|]. intros x y z [? ?] [? ?]. split; [congruence|lia]. Qed.

Definition subject_le (s s' : iam_subject) : Prop :=
  su_id s' = su_id s /\ su_issuer s' = su_issuer s /\ su_subject s' = su_subject s.
#[export] Instance subject_le_preorder : PreOrder subject_le.
Proof. split; [intros x; by split_and!|]. intros x y z (? & ? & ?) (? & ? & ?). split_and!; congruence. Qed.

(** Rows stay, and change only so. *)
Definition rows_later {A} (R : relation A) (l l' : list A) : Prop := forall x, x ∈ l -> exists x', x' ∈ l' /\ R x x'.
#[export] Instance rows_later_preorder {A} (R : relation A) `{!PreOrder R} : PreOrder (rows_later R).
Proof.
  split; [by intros l x Hx; exists x|]. intros l1 l2 l3 H1 H2 x Hx.
  destruct (H1 x Hx) as (y & Hy & Hxy). destruct (H2 y Hy) as (z & Hz & Hyz). exists z. split; [done|by etrans].
Qed.

Definition iam_later (d d' : iam_db) : Prop :=
  rows_later subject_le (iam_subjects d) (iam_subjects d') /\ rows_later mark_le (iam_security d) (iam_security d') /\
  rows_later session_le (iam_sessions d) (iam_sessions d').
#[export] Instance iam_later_preorder : PreOrder iam_later.
Proof.
  split; [by intros d; split_and!|]. intros x y z (H1 & H2 & H3) (H4 & H5 & H6). split_and!; by etrans.
Qed.

(** ** Derivation *)

(** What a derived session has of the one it came from. *)
Definition inherits (q s : iam_session) : Prop :=
  is_derived_from s = Some (is_id q) /\ is_subject_id s = is_subject_id q /\
  is_provider_session_id s = is_provider_session_id q /\ is_expires_at s <= is_expires_at q.

(** A derived session comes after the one it was derived from. *)
Definition lineage_ok (l : list iam_session) : Prop :=
  forall i s, l !! i = Some s -> is_derived_from s <> None ->
    exists j q, (j < i)%nat /\ l !! j = Some q /\ inherits q s.
Definition revoked_closed (l : list iam_session) : Prop :=
  forall q s, q ∈ l -> s ∈ l -> is_derived_from s = Some (is_id q) -> revoked q -> revoked s.

Lemma inherits_static q q' s s' : session_static q' = session_static q -> session_static s' = session_static s ->
  inherits q s -> inherits q' s'.
Proof.
  intros [= H1 H2 H3 H4 H5 H6 H7 H8 H9 H10 H11 H12] [= G1 G2 G3 G4 G5 G6 G7 G8 G9 G10 G11 G12] (I1 & I2 & I3 & I4).
  unfold inherits. by rewrite G12, G2, G4, G8, H1, H2, H4, H8.
Qed.

Lemma lineage_evolves N l l' : rows_evolve session_le N l l' -> lineage_ok l ->
  (forall s, N s -> is_derived_from s = None \/ exists q, q ∈ l /\ inherits q s) -> lineage_ok l'.
Proof.
  intros (l1 & o & -> & Hf & HN) Hl Hnew i s Hi Hd. pose proof (Forall2_length _ _ _ Hf) as Hlen.
  apply lookup_app_Some in Hi as [Hi|[Hge Hi]].
  - destruct (Forall2_lookup_r _ _ _ _ _ Hf Hi) as (s0 & Hs0 & [Hst _]).
    assert (is_derived_from s0 <> None) as Hd0 by (by injection Hst as _ _ _ _ _ _ _ _ _ _ _ <-).
    destruct (Hl i s0 Hs0 Hd0) as (j & q & Hj & Hq & Hin). destruct (Forall2_lookup_l _ _ _ _ _ Hf Hq) as (q' & Hq' & [Hqs _]).
    exists j, q'. split_and!; [done|by apply lookup_app_l_Some|by eapply inherits_static].
  - destruct o as [x|]; [|done]. cbn in Hi. apply list_lookup_singleton_Some in Hi as [Hi0 <-].
    destruct (Hnew x (HN x eq_refl)) as [?|(q & Hq & Hin)]; [done|]. apply list_elem_of_lookup in Hq as [j Hq].
    destruct (Forall2_lookup_l _ _ _ _ _ Hf Hq) as (q' & Hq' & [Hqs _]). exists j, q'.
    apply lookup_lt_Some in Hq. split_and!; [lia|by apply lookup_app_l_Some|by eapply inherits_static].
Qed.

Lemma lineage_parent l s : lineage_ok l -> s ∈ l -> is_derived_from s <> None -> exists q, q ∈ l /\ inherits q s.
Proof.
  intros Hl [i Hi]%list_elem_of_lookup Hd. destruct (Hl i s Hi Hd) as (j & q & _ & Hq & Hin).
  exists q. split; [by eapply list_elem_of_lookup_2|done].
Qed.

(** ** The invariant *)
Definition subject_key (s : iam_subject) : string * string := (su_issuer s, su_subject s).

Definition approved_by (v : device_authorization) (l : list iam_session) : Prop :=
  exists q, q ∈ l /\ dv_approver_session_id v = Some (is_id q) /\ dv_subject_id v = Some (is_subject_id q).

(** The checks of the table, and where the references lead. *)
Definition device_shape (v : device_authorization) (l : list iam_session) : Prop :=
  1 <= dv_interval_seconds v <= 60 /\
  match dv_status v with
  | DvPending => dv_subject_id v = None /\ dv_approver_session_id v = None /\ dv_approved_at v = None /\
                 dv_denied_at v = None /\ dv_consumed_at v = None
  | DvApproved => approved_by v l /\ dv_approved_at v <> None /\ dv_denied_at v = None /\ dv_consumed_at v = None
  | DvDenied => dv_denied_at v <> None /\ dv_consumed_at v = None
  | DvConsumed => approved_by v l /\ dv_approved_at v <> None /\ dv_denied_at v = None /\ dv_consumed_at v <> None
  | DvExpired => dv_consumed_at v = None
  end.

Definition subjects_ok (d : iam_db) : Prop :=
  NoDup (su_id <$> iam_subjects d) /\ NoDup (subject_key <$> iam_subjects d).
Definition security_ok (d : iam_db) : Prop :=
  NoDup (sc_subject_id <$> iam_security d) /\
  forall w, w ∈ iam_security d -> sc_subject_id w ∈ su_id <$> iam_subjects d.
Definition sessions_ok (d : iam_db) : Prop :=
  NoDup (is_id <$> iam_sessions d) /\ NoDup (is_token_hash <$> iam_sessions d) /\
  (forall s, s ∈ iam_sessions d -> session_shape s /\ is_subject_id s ∈ sc_subject_id <$> iam_security d) /\
  lineage_ok (iam_sessions d) /\ revoked_closed (iam_sessions d).
Definition devices_ok (d : iam_db) : Prop :=
  NoDup (dv_id <$> iam_devices d) /\ NoDup (dv_device_code_hash <$> iam_devices d) /\
  NoDup (dv_user_code <$> iam_devices d) /\ forall v, v ∈ iam_devices d -> device_shape v (iam_sessions d).
Definition logouts_ok (d : iam_db) : Prop :=
  NoDup (le_id <$> iam_logout_events d) /\ NoDup (le_token_id_hash <$> iam_logout_events d).
Definition member_key (m : membership) : uuid * uuid := (mb_project_id m, mb_subject_id m).
Definition members_ok (d : iam_db) : Prop :=
  NoDup (member_key <$> project_memberships d) /\ forall m, m ∈ project_memberships d -> 0 < role_rank (mb_role m).

Record iam_inv (d : iam_db) : Prop := {
  ii_subjects : subjects_ok d;
  ii_security : security_ok d;
  ii_sessions : sessions_ok d;
  ii_devices : devices_ok d;
  ii_logouts : logouts_ok d;
  ii_members : members_ok d
}.

(** A statement that keeps the invariant and the rows. *)
Definition good (d d' : iam_db) : Prop := iam_inv d' /\ iam_later d d'.

Lemma good_refl d : iam_inv d -> good d d.
Proof. by split. Qed.
Lemma iam_good_trans d1 d2 d3 : good d1 d2 -> (iam_inv d2 -> good d2 d3) -> good d1 d3.
Proof. intros [H1 H2] H3. destruct (H3 H1) as [H4 H5]. split; [done|by etrans]. Qed.

Lemma later_keys {A K} (R : relation A) (key : A -> K) l l' k : rows_later R l l' ->
  (forall x y, R x y -> key y = key x) -> k ∈ key <$> l -> k ∈ key <$> l'.
Proof.
  intros Hl HR (x & -> & Hx)%list_elem_of_fmap. destruct (Hl x Hx) as (y & Hy & Hxy).
  rewrite <- (HR x y Hxy). by apply list_elem_of_fmap_2.
Qed.
Lemma evolve_later {A} (R : relation A) N l l' : rows_evolve R N l l' -> rows_later R l l'.
Proof. intros H x Hx. by eapply rows_evolve_old. Qed.

Lemma session_key s s' : session_le s s' -> is_id s' = is_id s.
Proof. by intros [[= ? ?] _]. Qed.
Lemma session_hash s s' : session_le s s' -> is_token_hash s' = is_token_hash s.
Proof. by intros [[= ? ? ?] _]. Qed.

Lemma shape_static s s' : session_static s' = session_static s -> session_shape s -> session_shape s'.
Proof.
  intros [= H1 H2 H3 H4 H5 H6 H7 H8 H9 H10 H11 H12]. unfold session_shape.
  by rewrite H1, H3, H4, H5, H6, H7, H8, H9, H11, H12.
Qed.

(** ** Statements on sessions *)
Definition fresh_session (d : iam_db) (s : iam_session) : Prop :=
  is_id s ∉ is_id <$> iam_sessions d /\ is_token_hash s ∉ is_token_hash <$> iam_sessions d /\ session_shape s /\
  is_subject_id s ∈ sc_subject_id <$> iam_security d /\
  (is_derived_from s = None \/ exists q, q ∈ iam_sessions d /\ inherits q s).

Lemma device_shape_later v l l' : rows_later session_le l l' -> device_shape v l -> device_shape v l'.
Proof.
  intros Hl [Hi Hs]. split; [done|]. assert (approved_by v l -> approved_by v l') as Ha.
  { intros (q & Hq & H1 & H2). destruct (Hl q Hq) as (q' & Hq' & [Hst _]). injection Hst as G1 G2 _. exists q'.
    by rewrite G1, G2. }
  destruct (dv_status v); [done|..]; naive_solver.
Qed.

Lemma sessions_good d l' : iam_inv d -> rows_evolve session_le (fresh_session d) (iam_sessions d) l' ->
  revoked_closed l' -> good d (d <| iam_sessions := l' |>).
Proof.
  intros [H1 H2 (S1 & S2 & S3 & S4 & S5) (D1 & D2 & D3 & D4) H5 H6] He Hc.
  split; [|split_and!; [done|done|by eapply evolve_later]]. split; try done; cbn.
  - split_and!; [| | | |done]; cbn.
    + eapply rows_evolve_key; [exact He|apply session_key|by intros s (? & _)|done].
    + eapply rows_evolve_key; [exact He|apply session_hash|by intros s (_ & ? & _)|done].
    + intros s Hs. destruct (rows_evolve_new _ _ _ _ _ He Hs) as [(x & Hx & [Hst _])|(_ & _ & Hsh & Hsub & _)]; [|done].
      destruct (S3 x Hx) as [Hsh Hsub]. split; [by eapply shape_static|]. injection Hst as _ -> _. done.
    + eapply lineage_evolves; [exact He|done|]. by intros s (_ & _ & _ & _ & ?).
  - split_and!; [done|done|done|]. intros v Hv. eapply device_shape_later; [by eapply evolve_later|by apply D4].
Qed.

Lemma update_sessions_good d (P : iam_session -> Prop) `{HdP : !forall s, Decision (P s)} f : iam_inv d ->
  (forall s, s ∈ iam_sessions d -> P s -> session_le s (f s)) ->
  revoked_closed (update_where P f (iam_sessions d)) -> good d (d <| iam_sessions := update_where P f (iam_sessions d) |>).
Proof. intros Hi Hf Hc. apply sessions_good; [done| |done]. apply rows_evolve_update; [apply _|done]. Qed.

(** Revoking some sessions, and with each those derived from it. *)
Lemma revoke_iam_closed (l : list iam_session) (P : iam_session -> Prop) `{HdP : !forall s, Decision (P s)} f :
  revoked_closed l -> (forall s, session_le s (f s)) -> (forall s, revoked (f s)) ->
  (forall q s, q ∈ l -> s ∈ l -> P q -> is_derived_from s = Some (is_id q) -> P s \/ revoked s) ->
  revoked_closed (update_where P f l).
Proof.
  intros Hc Hle Hf HP q' s' (q & Hq & Hq')%elem_of_update_where (s & Hs & Hs')%elem_of_update_where Hd Hr.
  assert (is_id q' = is_id q) as Hqi by (destruct Hq' as [[_ ->]|[_ ->]]; [apply session_key, Hle|done]).
  assert (is_derived_from s' = is_derived_from s) as Hsd.
  { destruct Hs' as [[_ ->]|[_ ->]]; [|done]. by destruct (Hle s) as [[= ? ? ? ? ? ? ? ? ? ? ? ?] _]. }
  rewrite Hsd, Hqi in Hd. destruct Hs' as [[_ ->]|[HPs ->]]; [apply Hf|].
  destruct Hq' as [[HPq ->]|[_ ->]]; [|by apply (Hc q s)]. by destruct (HP q s Hq Hs HPq Hd).
Qed.

Lemma touch_closed l (P : iam_session -> Prop) `{HdP : !forall s, Decision (P s)} now :
  revoked_closed l -> revoked_closed (update_where P (touch_seen now) l).
Proof.
  intros Hc q' s' (q & Hq & Hq')%elem_of_update_where (s & Hs & Hs')%elem_of_update_where Hd Hr.
  assert (is_derived_from s = Some (is_id q) /\ revoked q /\ (revoked s -> revoked s')) as (H1 & H2 & H3).
  { destruct Hq' as [[_ ->]|[_ ->]], Hs' as [[_ ->]|[_ ->]]; done. }
  by apply H3, (Hc q s).
Qed.

Lemma touch_le now s : session_le s (touch_seen now s).
Proof. done. Qed.
Lemma touch_good d (P : iam_session -> Prop) `{HdP : !forall s, Decision (P s)} now :
  iam_inv d -> good d (d <| iam_sessions := update_where P (touch_seen now) (iam_sessions d) |>).
Proof.
  intros Hi. apply update_sessions_good; [done|intros s _ _; apply touch_le|]. apply touch_closed, Hi.
Qed.

Lemma revoke_le by_subject reason now s : session_le s (revoke_session by_subject reason now s) /\
  revoked (revoke_session by_subject reason now s).
Proof. unfold revoke_session, session_le, revoked. destruct (is_revoked_at s) eqn:E; cbn; rewrite ?E; split_and!; done. Qed.
Lemma logout_le now s : session_le s (logout_session now s) /\ revoked (logout_session now s).
Proof. unfold logout_session, session_le, revoked. destruct (is_revoked_at s) eqn:E; cbn; rewrite ?E; split_and!; done. Qed.

Lemma insert_session_good d s : iam_inv d -> fresh_session d s -> ~ revoked s ->
  (forall q, q ∈ iam_sessions d -> is_derived_from s = Some (is_id q) -> ~ revoked q) ->
  good d (d <| iam_sessions := iam_sessions d ++ [s] |>).
Proof.
  intros Hi Hf Hr Hq. apply sessions_good; [done|by apply rows_evolve_insert; [apply _|]|].
  destruct (ii_sessions d Hi) as (S1 & _ & _ & S4 & S5). destruct Hf as (Hid & _ & _ & _ & Hpar).
  intros q x [Hqin|Hqs%list_elem_of_singleton]%elem_of_app [Hx|Hxs%list_elem_of_singleton]%elem_of_app Hd Hrq; subst; try done.
  - by apply (S5 q x).
  - by destruct (Hq q Hqin Hd).
Qed.

(** ** Statements on the other tables *)
Definition fresh_subject (d : iam_db) (s : iam_subject) : Prop :=
  su_id s ∉ su_id <$> iam_subjects d /\ subject_key s ∉ subject_key <$> iam_subjects d.

Lemma subjects_good d l' : iam_inv d -> rows_evolve subject_le (fresh_subject d) (iam_subjects d) l' ->
  good d (d <| iam_subjects := l' |>).
Proof.
  intros [(U1 & U2) (W1 & W2) H3 H4 H5 H6] He. split; [|split_and!; [by eapply evolve_later|done|done]].
  split; try done; cbn.
  - split; cbn; eapply rows_evolve_key; [exact He|by intros x y (? & ? & ?)|by intros x [? ?]|done|exact He| |by intros x [? ?]|done].
    intros x y (_ & H7 & H8). unfold subject_key. by rewrite H7, H8.
  - split; [done|]. intros w Hw. eapply later_keys; [by eapply evolve_later|by intros x y (? & ? & ?)|by apply W2].
Qed.

Definition fresh_security (d : iam_db) (w : subject_security) : Prop :=
  sc_subject_id w ∉ sc_subject_id <$> iam_security d /\ sc_subject_id w ∈ su_id <$> iam_subjects d.

Lemma security_good d l' : iam_inv d -> rows_evolve mark_le (fresh_security d) (iam_security d) l' ->
  good d (d <| iam_security := l' |>).
Proof.
  intros [H1 (W1 & W2) (S1 & S2 & S3 & S4 & S5) H4 H5 H6] He. split; [|split_and!; [done|by eapply evolve_later|done]].
  split; try done; cbn.
  - split; cbn.
    + eapply rows_evolve_key; [exact He|by intros x y [? ?]|by intros x [? ?]|done].
    + intros w Hw. destruct (rows_evolve_new _ _ _ _ _ He Hw) as [(x & Hx & [-> _])|[_ ?]]; [by apply W2|done].
  - split_and!; try done. cbn. intros s Hs. destruct (S3 s Hs) as [Hsh Hsub]. split; [done|].
    eapply later_keys; [by eapply evolve_later|by intros x y [? ?]|done].
Qed.

Lemma devices_good d l' : iam_inv d -> devices_ok (d <| iam_devices := l' |>) -> good d (d <| iam_devices := l' |>).
Proof. intros [H1 H2 H3 H4 H5 H6] Hd. split; [by split|]. split_and!; done. Qed.

Lemma set_devices_ok (P : device_authorization -> Prop) `{HdP : !forall v, Decision (P v)} f d : iam_inv d ->
  (forall v, v ∈ iam_devices d -> P v -> dv_id (f v) = dv_id v /\ dv_device_code_hash (f v) = dv_device_code_hash v /\
     dv_user_code (f v) = dv_user_code v /\ (device_shape v (iam_sessions d) -> device_shape (f v) (iam_sessions d))) ->
  good d (d <| iam_devices := update_where P f (iam_devices d) |>).
Proof.
  intros Hi Hf. apply devices_good; [done|]. destruct (ii_devices d Hi) as (D1 & D2 & D3 & D4).
  set (R := fun v v' => dv_id v' = dv_id v /\ dv_device_code_hash v' = dv_device_code_hash v /\ dv_user_code v' = dv_user_code v).
  assert (rows_evolve R (fun _ => False) (iam_devices d) (update_where P f (iam_devices d))) as He.
  { apply rows_evolve_update; [by intros v|]. intros v Hv HP. destruct (Hf v Hv HP) as (? & ? & ? & _). done. }
  split_and!; cbn.
  - eapply rows_evolve_key; [exact He|by intros x y (? & _)|done|done].
  - eapply rows_evolve_key; [exact He|by intros x y (_ & ? & _)|done|done].
  - eapply rows_evolve_key; [exact He|by intros x y (_ & _ & ?)|done|done].
  - intros v' (v & Hv & [[HP ->]|[_ ->]])%elem_of_update_where; [|by apply D4]. by apply Hf, D4.
Qed.

Lemma logouts_good d l' : iam_inv d -> logouts_ok (d <| iam_logout_events := l' |>) -> good d (d <| iam_logout_events := l' |>).
Proof. intros [H1 H2 H3 H4 H5 H6] Hd. split; [by split|]. split_and!; done. Qed.

Lemma members_good d l' : iam_inv d -> members_ok (d <| project_memberships := l' |>) -> good d (d <| project_memberships := l' |>).
Proof. intros [H1 H2 H3 H4 H5 H6] Hd. split; [by split|]. split_and!; done. Qed.

(** ** Subjects, watermarks and sessions *)
Lemma not_exists_key {A K} (key : A -> K) k (l : list A) : ~ exists_row (fun x => key x = k) l -> k ∉ key <$> l.
Proof. intros H (x & -> & Hx)%list_elem_of_fmap. apply H, Exists_exists. eauto. Qed.
Lemma exists_key {A K} (key : A -> K) k (l : list A) : exists_row (fun x => key x = k) l -> k ∈ key <$> l.
Proof. intros (x & Hx & <-)%Exists_exists. by apply list_elem_of_fmap_2. Qed.
Lemma no_first_key {A K} `{!EqDecision K} (key : A -> K) k (l : list A) :
  first_where (fun x => key x = k) l = None -> k ∉ key <$> l.
Proof. intros H (x & -> & Hx)%list_elem_of_fmap. by apply (first_where_none _ _ H x Hx). Qed.

Lemma no_first_identity issuer subject l : first_where (same_identity issuer subject) l = None ->
  (issuer, subject) ∉ subject_key <$> l.
Proof.
  intros H (x & Hk & Hx)%list_elem_of_fmap. apply (first_where_none _ _ H x Hx). unfold subject_key in Hk.
  injection Hk as -> ->. done.
Qed.

Lemma observe_good newID identity admin now p d d' : iam_inv d ->
  ObserveSubject newID identity admin now d = Ok (p, d') -> good d d'.
Proof.
  intros Hi H. unfold ObserveSubject in H. cbv zeta in H. inv_ok_step H. destruct a as [id e]. injection H as _ <-.
  destruct (first_where _ _) as [s|] eqn:Hs.
  - injection E as _ <-. apply subjects_good; [done|]. apply rows_evolve_update; [apply _|]. by intros x _ _.
  - inv_ok_step E. injection E as _ <-. apply subjects_good; [done|]. apply rows_evolve_insert; [apply _|].
    split; [by apply not_exists_key|by apply no_first_identity].
Qed.

Lemma ensure_security_good subjectID now d d' : iam_inv d -> ensure_security subjectID now d = Ok d' -> good d d'.
Proof.
  intros Hi H. unfold ensure_security in H. destruct (first_where _ _) as [w|] eqn:Hw.
  - injection H as <-. by apply good_refl.
  - inv_ok_step H. injection H as <-. apply security_good; [done|]. apply rows_evolve_insert; [apply _|].
    split; [by apply no_first_key|by apply exists_key].
Qed.

Lemma raise_watermark_good subjectID mark now d d' : iam_inv d -> raise_watermark subjectID mark now d = Ok d' -> good d d'.
Proof.
  intros Hi H. unfold raise_watermark in H. destruct (first_where _ _) as [w|] eqn:Hw.
  - injection H as <-. apply security_good; [done|]. apply rows_evolve_update; [apply _|]. intros x _ _. split; [done|cbn; lia].
  - inv_ok_step H. injection H as <-. apply security_good; [done|]. apply rows_evolve_insert; [apply _|].
    split; [by apply no_first_key|by apply exists_key].
Qed.

Lemma upsert_good policy row now s d d' : iam_inv d -> upsert_session policy row now d = Ok (s, d') ->
  is_derived_from row = None -> is_revoked_at row = None -> is_subject_id row ∈ sc_subject_id <$> iam_security d -> good d d'.
Proof.
  intros Hi H Hd Hr Hsub. unfold upsert_session in H. do 2 inv_ok_step H. cbv zeta in H.
  destruct (first_where _ _) as [x|] eqn:Hx; inv_ok_step H.
  - injection H as _ <-. by apply touch_good.
  - inv_ok_step H. injection H as _ <-. apply insert_session_good; [done| |by intros ?|by intros q _; rewrite Hd].
    split_and!; [by apply not_exists_key|by apply no_first_key|done|done|by left].
Qed.

Lemma authorize_iam_good newID p identity policy clk q d d' : iam_inv d ->
  AuthorizeSession newID p identity policy clk d = Ok (q, d') -> good d d'.
Proof.
  intros Hi H. unfold AuthorizeSession in H. destruct (ei_issued_at identity) as [issued|]; [|done].
  destruct (ei_expires_at identity) as [expires|]; [|done]. do 4 inv_ok_step H. rename a into d1.
  destruct (first_where _ _) as [w|] eqn:Hw; [|done]. do 2 inv_ok_step H. destruct a as [s e]. injection H as _ <-.
  eapply iam_good_trans; [by eapply ensure_security_good|]. intros Hi1. apply first_where_some in Hw as [Hw Hws].
  eapply upsert_good; [done|exact E0|done|done|]. cbn. rewrite <- Hws. by apply list_elem_of_fmap_2.
Qed.

Lemma platform_good raw policy now p d d' : iam_inv d -> AuthorizePlatformSession raw policy now d = Ok (p, d') -> good d d'.
Proof.
  intros Hi H. unfold AuthorizePlatformSession in H. inv_ok_step H. cbv zeta in H.
  destruct (first_where _ _) as [s|]; [|done]. destruct (first_where _ _) as [u|]; [|done]. injection H as _ <-. by apply touch_good.
Qed.

(** ** The lineage of a session *)

(** [c] was derived from [p]. *)
Definition derives (l : list iam_session) : relation uuid :=
  fun p c => exists s, s ∈ l /\ is_id s = c /\ is_derived_from s = Some p.

Lemma elem_of_round (l : list iam_session) round c :
  c ∈ is_id <$> filter (derived_from round) l <-> exists p, p ∈ round /\ derives l p c.
Proof.
  rewrite list_elem_of_fmap. split.
  - intros (s & -> & [Hd Hs]%list_elem_of_filter). unfold derived_from in Hd. destruct (is_derived_from s) as [p|] eqn:E; [|done].
    exists p. split; [done|]. by exists s.
  - intros (p & Hp & s & Hs & <- & Hd). exists s. split; [done|]. apply list_elem_of_filter. unfold derived_from. by rewrite Hd.
Qed.

Lemma lineage_spec l : forall fuel round ids, lineage fuel round l = Some ids ->
  forall c, c ∈ ids <-> exists p, p ∈ round /\ rtc (derives l) p c.
Proof.
  induction fuel as [|fuel IH]; intros round ids H c; destruct round as [|r round]; cbn [lineage] in H; [| done | |].
  1,2: injection H as <-; rewrite elem_of_nil; split; [done|by intros (p & ?%elem_of_nil & _)].
  remember (r :: round) as rs eqn:Hrs. clear Hrs r round.
  destruct (lineage fuel _ l) as [rest|] eqn:Hl; [|done]. cbn in H. injection H as <-. specialize (IH _ _ Hl c).
  rewrite elem_of_app, IH. split.
  - intros [Hc|(p & Hp & Hr)]; [by exists c|]. apply elem_of_round in Hp as (q & Hq & Hd). exists q. split; [done|]. by eapply rtc_l.
  - intros (p & Hp & Hr). inversion Hr as [|x y z Hxy Hyz]; subst; [by left|]. right. exists y. split; [|done].
    apply elem_of_round. by exists p.
Qed.

Lemma lineage_total l : NoDup (is_id <$> l) -> lineage_ok l -> forall fuel k round,
  (forall id, id ∈ round -> exists i s, l !! i = Some s /\ is_id s = id /\ (k <= i)%nat) -> (length l <= fuel + k)%nat ->
  is_Some (lineage fuel round l).
Proof.
  intros Hnd Hl fuel. induction fuel as [|fuel IH]; intros k round Hr Hk; (destruct round as [|r round]; [by eexists|]); cbn [lineage].
  - destruct (Hr r) as (i & s & Hi & _ & Hki); [set_solver|]. apply lookup_lt_Some in Hi. lia.
  - destruct (IH (S k) (is_id <$> filter (derived_from (r :: round)) l)) as [rest ->]; [| lia |by eexists].
    intros c (p & Hp & s & Hs & Hc & Hd)%elem_of_round. apply list_elem_of_lookup in Hs as [i Hi].
    destruct (Hl i s Hi) as (j & q & Hj & Hq & Hin & _); [by rewrite Hd|]. exists i, s. split_and!; [done|done|].
    destruct (Hr p Hp) as (i' & s' & Hi' & Hp' & Hk').
    assert (i' = j) as ->; [|lia]. eapply (NoDup_lookup (is_id <$> l)); [done|by rewrite list_lookup_fmap, Hi'|].
    rewrite list_lookup_fmap, Hq. cbn. congruence.
Qed.

Lemma revoke_lineage d requester sessionID (allow : bool) ids : sessions_ok d ->
  let root := filter (fun s => is_id s = sessionID /\
    (allow = true \/ Some (is_subject_id s) = null_if_empty (pc_subject_id requester))) (iam_sessions d) in
  is_Some (lineage (S (length (iam_sessions d))) (is_id <$> root) (iam_sessions d)) /\
  (lineage (S (length (iam_sessions d))) (is_id <$> root) (iam_sessions d) = Some ids ->
   forall c, c ∈ ids <-> root <> [] /\ rtc (derives (iam_sessions d)) sessionID c).
Proof.
  intros (S1 & _ & _ & S4 & _) root. split.
  - apply (lineage_total _ S1 S4 _ 0); [|lia]. intros id (s & -> & [_ Hs]%list_elem_of_filter)%list_elem_of_fmap.
    apply list_elem_of_lookup in Hs as [i Hi]. exists i, s. split_and!; [done|done|lia].
  - intros H c. rewrite (lineage_spec _ _ _ _ H c).
    assert (forall s, s ∈ root -> is_id s = sessionID) as Hid by (intros s [[? _] _]%list_elem_of_filter; done). split.
    + intros (p & (s & -> & Hs)%list_elem_of_fmap & Hr). rewrite <- (Hid s Hs). split; [|done]. by intros E; rewrite E in Hs; apply elem_of_nil in Hs.
    + intros [Hne Hr]. destruct root as [|s rest]; [done|]. exists (is_id s). rewrite (Hid s) by set_solver. split; [|done].
      rewrite fmap_cons, (Hid s) by set_solver. set_solver.
Qed.

Lemma revoke_good requester sessionID reason allow now s d d' : iam_inv d ->
  RevokeSession requester sessionID reason allow now d = Ok (s, d') -> good d d'.
Proof.
  intros Hi H. unfold RevokeSession in H. cbv zeta in H. destruct (lineage _ _ _) as [ids|] eqn:Hl; [|done]. inv_ok_step H.
  destruct (first_where _ _) as [x|]; [|done]. injection H as _ <-.
  apply update_sessions_good; [done|intros x' _ _; apply revoke_le|].
  apply revoke_iam_closed; [apply Hi|intros x'; apply revoke_le|intros x'; apply revoke_le|].
  intros q c Hq Hcin Hin Hd. left. pose proof (proj2 (revoke_lineage d requester sessionID allow ids (ii_sessions d Hi)) Hl) as Hspec.
  apply Hspec in Hin as [Hne Hr]. apply Hspec. split; [done|]. eapply rtc_r; [exact Hr|]. by exists c.
Qed.

(** A derived session has the subject and the provider session of its parent. *)
Lemma child_of d q s : sessions_ok d -> q ∈ iam_sessions d -> s ∈ iam_sessions d -> is_derived_from s = Some (is_id q) -> inherits q s.
Proof.
  intros (S1 & _ & _ & S4 & _) Hq Hs Hd. destruct (lineage_parent _ s S4 Hs) as (q' & Hq' & Hin); [by rewrite Hd|].
  assert (q' = q) as ->; [|done]. apply (key_unique is_id (iam_sessions d)); [done|done|done|]. destruct Hin as [Hx _]. congruence.
Qed.

Lemma revoke_subject_closed d subjectID f : sessions_ok d -> (forall s, session_le s (f s)) -> (forall s, revoked (f s)) ->
  revoked_closed (update_where (open_session_of subjectID) f (iam_sessions d)).
Proof.
  intros Hs Hle Hf. apply revoke_iam_closed; [apply Hs|done|done|]. intros q s Hq Hin [Hsub Hr] Hd.
  destruct (child_of d q s Hs Hq Hin Hd) as (_ & Hsub' & _). destruct (decide (is_revoked_at s = None)); [left|by right].
  split; [congruence|done].
Qed.

Lemma revoke_all_good requester subjectID reason allow clk n d d' : iam_inv d ->
  RevokeAllSessions requester subjectID reason allow clk d = Ok (n, d') -> good d d'.
Proof.
  intros Hi H. unfold RevokeAllSessions in H. do 2 inv_ok_step H. cbv zeta in H. inv_ok_step H. injection H as _ <-.
  eapply iam_good_trans; [by eapply raise_watermark_good|]. intros Hi1.
  apply update_sessions_good; [done|intros s _ _; apply revoke_le|].
  apply revoke_subject_closed; [apply Hi1|intros s; apply revoke_le|intros s; apply revoke_le].
Qed.

(** ** Back-channel logout *)
Lemma logout_sessions_good (P : iam_session -> Prop) `{HdP : !forall s, Decision (P s)} now d : iam_inv d ->
  (forall q s, q ∈ iam_sessions d -> s ∈ iam_sessions d -> P q -> inherits q s -> P s \/ revoked s) ->
  good d (revoke_logged_out P now d).2.
Proof.
  intros Hi HP. cbn. apply update_sessions_good; [done|intros s _ _; apply logout_le|].
  apply revoke_iam_closed; [apply Hi|intros s; apply logout_le|intros s; apply logout_le|].
  intros q s Hq Hs HPq Hd. apply (HP q s Hq Hs HPq), (child_of d); [apply Hi|done..].
Qed.

Lemma apply_logout_good logout issued clk n d d' : iam_inv d -> apply_logout logout issued clk d = Ok (n, d') -> good d d'.
Proof.
  intros Hi H. unfold apply_logout in H. destruct (decide _) as [Hsid|_].
  - injection H as H H2. rewrite <- H2. clear H H2. apply (logout_sessions_good (logged_out logout d) (clk 1%nat) d); [done|].
    intros q s _ _ (Hu & Hp & _) (_ & Hsub & Hps & _). destruct (decide (is_revoked_at s = None)); [left|by right].
    unfold logged_out. by rewrite Hsub, Hps.
  - destruct (first_where _ _) as [u|]; [|injection H as _ <-; by apply good_refl]. inv_ok_step H. injection H as H H2. rewrite <- H2.
    clear H H2. eapply iam_good_trans; [by eapply raise_watermark_good|]. intros Hi1. apply (logout_sessions_good (open_session_of (su_id u)) (clk 2%nat) a); [done|].
    intros q s _ _ [Hsub' Hr] (_ & Hsub & _). destruct (decide (is_revoked_at s = None)); [left|by right]. split; [congruence|done].
Qed.

Lemma apply_logout_events logout issued clk n d d' : apply_logout logout issued clk d = Ok (n, d') ->
  iam_logout_events d' = iam_logout_events d.
Proof.
  intros H. unfold apply_logout in H. destruct (decide _) as [Hsid|_]; [by injection H as _ <-|].
  destruct (first_where _ _) as [u|]; [|by injection H as _ <-]. inv_ok_step H. injection H as _ <-. cbn.
  unfold raise_watermark in E. destruct (first_where _ _); [by injection E as <-|]. inv_ok_step E. by injection E as <-.
Qed.

Lemma logout_good eventID logout clk r d d' : iam_inv d -> ApplyBackchannelLogout eventID logout clk d = Ok (r, d') -> good d d'.
Proof.
  intros Hi H. unfold ApplyBackchannelLogout in H. destruct (li_issued_at logout) as [issued|]; [|done].
  destruct (li_expires_at logout) as [expires|]; [|done]. inv_ok_step H. cbv zeta in H. inv_ok_step H.
  destruct (first_where _ _) as [e|] eqn:He; [injection H as _ <-; by apply good_refl|]. do 2 inv_ok_step H. destruct a as [n e].
  injection H as _ <-. set (ev := mkLogoutEvent _ _ _ _ _ _ _ _ _) in E.
  destruct (ii_logouts d Hi) as [L1 L2]. assert (le_token_id_hash ev ∉ le_token_id_hash <$> iam_logout_events d) as Hn by (by apply no_first_key).
  assert (good d (d <| iam_logout_events := iam_logout_events d ++ [ev] |>)) as Hg.
  { apply logouts_good; [done|]. split; cbn; rewrite fmap_app; apply NoDup_app; split_and!; try done; try apply NoDup_singleton.
    - intros x Hx ->%list_elem_of_singleton. by apply (not_exists_key _ _ _ Hc1).
    - intros x Hx ->%list_elem_of_singleton. done. }
  eapply iam_good_trans; [exact Hg|]. intros Hi1. eapply iam_good_trans; [by eapply apply_logout_good|]. intros Hi2.
  apply logouts_good; [done|]. destruct (ii_logouts _ Hi2) as [M1 M2].
  assert (rows_evolve (fun x y => le_id y = le_id x /\ le_token_id_hash y = le_token_id_hash x) (fun _ => False) (iam_logout_events e)
    (update_where (fun x => le_id x = eventID) (fun x => x <| le_revoked_sessions := n |>) (iam_logout_events e))) as Hev
    by (apply rows_evolve_update; [by intros x|by intros x _ _]).
  split; cbn; eapply rows_evolve_key; try exact Hev; try done; by intros x y [? ?].
Qed.

(** ** The device flow *)
Lemma create_device_good newID code user ttl interval clk b d d' : iam_inv d ->
  CreateDeviceAuthorization newID code user ttl interval clk d = Ok (b, d') -> good d d'.
Proof.
  intros Hi H. unfold CreateDeviceAuthorization in H. inv_ok_step H. cbv zeta in H. inv_ok_step H.
  set (kept := delete_where _ (iam_devices d)) in H. destruct (ii_devices d Hi) as (D1 & D2 & D3 & D4).
  assert (kept `sublist_of` iam_devices d) as Hsub by apply sublist_filter.
  assert (forall {K} (key : device_authorization -> K), NoDup (key <$> iam_devices d) -> NoDup (key <$> kept)) as Hnd.
  { intros K key Hk. eapply sublist_NoDup; [exact Hk|by apply fmap_sublist]. }
  case_decide as Hx; injection H as _ <-; (apply devices_good; [done|]).
  - split_and!; cbn; [by apply Hnd..|]. intros v Hv. apply D4. by eapply elem_of_sublist.
  - assert (forall {K} (key : device_authorization -> K) x, NoDup (key <$> iam_devices d) ->
      (forall v, v ∈ kept -> key v <> key x) -> NoDup (key <$> (kept ++ [x]))) as Hins.
    { intros K key x Hk Hne. rewrite fmap_app. apply NoDup_app. split_and!; [by apply Hnd| |apply NoDup_singleton].
      intros k (v & -> & Hv)%list_elem_of_fmap Hin%list_elem_of_singleton. by apply (Hne v). }
    assert (forall v, v ∈ kept -> dv_id v <> newID /\ dv_device_code_hash v <> code /\ dv_user_code v <> user) as Hne.
    { intros v Hv. split_and!; intros E; apply Hx, Exists_exists; exists v; (split; [done|]); auto. }
    split_and!; cbn; [apply Hins; [done|]; intros v Hv; by apply Hne..|].
    intros v [Hv|Hv%list_elem_of_singleton]%elem_of_app; [apply D4; by eapply elem_of_sublist|]. subst v. split; [cbn; lia|done].
Qed.

Lemma open_cases v : open_device v -> dv_status v = DvPending \/ dv_status v = DvApproved.
Proof. unfold open_device. rewrite !elem_of_cons, elem_of_nil. tauto. Qed.

Lemma expire_shape v l : open_device v -> device_shape v l -> device_shape (expire_device v) l.
Proof. intros [E|E]%open_cases [Hi Hs]; rewrite E in Hs; (split; [done|]); cbn; tauto. Qed.
Lemma deny_shape v l now : open_device v -> device_shape v l -> device_shape (deny_device now v) l.
Proof. intros [E|E]%open_cases [Hi Hs]; rewrite E in Hs; (split; [done|]); cbn; (split; [done|tauto]). Qed.

Lemma decide_good user p approve policy clk v d d' : iam_inv d ->
  DecideDeviceAuthorization user p approve policy clk d = Ok (v, d') -> good d d'.
Proof.
  intros Hi H. unfold DecideDeviceAuthorization in H. inv_ok_step H. cbv zeta in H.
  set (d1 := d <| iam_devices := _ |>) in H.
  assert (good d d1) as Hg.
  { apply set_devices_ok; [done|]. intros x _ (_ & Ho & _). split_and!; try done. by apply expire_shape. }
  clearbody d1. destruct (first_where _ _) as [x|] eqn:Hx; [|done]. inv_ok_step H. injection H as _ <-.
  eapply iam_good_trans; [exact Hg|]. intros Hi1. apply set_devices_ok; [done|]. intros y Hy (_ & Hs & _).
  destruct approve; (split_and!; [done|done|done|]).
  - intros [Hiv Hsh]. rewrite Hs in Hsh. destruct Hsh as (_ & _ & _ & Hden & Hcon). split; [done|]. cbn.
    unfold deciding_session in Hc0. apply Exists_exists in Hc0 as (s & Hsin & Hid & Hsub & _).
    split_and!; try done. exists s. cbn. by rewrite Hid, Hsub.
  - apply deny_shape. unfold open_device. rewrite Hs. set_solver.
Qed.

Lemma source_spec v policy now d s : device_source v policy now d = Some s ->
  dv_status v = DvApproved /\ now < dv_expires_at v /\ s ∈ iam_sessions d /\ source_of v policy now d s.
Proof.
  unfold device_source. intros H. case_decide as Hs; [|done]. apply first_where_some in H as [? ?]. by destruct Hs.
Qed.

Lemma approved_set_good id f d : iam_inv d ->
  (forall v, v ∈ iam_devices d -> dv_status v = DvApproved -> dv_id (f v) = dv_id v /\ dv_device_code_hash (f v) = dv_device_code_hash v /\
     dv_user_code (f v) = dv_user_code v /\ (device_shape v (iam_sessions d) -> device_shape (f v) (iam_sessions d))) ->
  good d (set_approved id f d).
Proof. intros Hi Hf. apply set_devices_ok; [done|]. intros v Hv [_ Hs]. by apply Hf. Qed.

Lemma deny_approved_good id now d : iam_inv d -> good d (set_approved id (deny_device now) d).
Proof.
  intros Hi. apply approved_set_good; [done|]. intros v _ Hs. split_and!; try done. apply deny_shape.
  unfold open_device. rewrite Hs. set_solver.
Qed.

(** The session a device gets is a child of the one that approved it. *)
Lemma cli_fresh newID hash policy now v s d : iam_inv d -> source_of v policy now d s -> s ∈ iam_sessions d ->
  session_shape (cli_session newID hash policy now s) ->
  ~ exists_row (fun x => is_id x = newID \/ is_token_hash x = hash) (iam_sessions d) ->
  good d (d <| iam_sessions := iam_sessions d ++ [cli_session newID hash policy now s] |>).
Proof.
  intros Hi (_ & _ & (Hr & _) & Hw) Hs Hsh Hx. destruct (ii_sessions d Hi) as (S1 & _).
  apply insert_session_good; [done| |by intros ?|].
  - split_and!; [| |done| |right; exists s; split; [done|]].
    + intros (x & Hxi & Hin)%list_elem_of_fmap. apply Hx, Exists_exists. exists x. split; [done|]. left. by rewrite <- Hxi.
    + intros (x & Hxi & Hin)%list_elem_of_fmap. apply Hx, Exists_exists. exists x. split; [done|]. right. by rewrite <- Hxi.
    + apply Exists_exists in Hw as (w & Hw & Hws & _). cbn. rewrite <- Hws. by apply list_elem_of_fmap_2.
    + split_and!; try done. cbn. lia.
  - cbn. intros q Hq [= Hqi] Hrq. assert (q = s) as -> by (by apply (key_unique is_id (iam_sessions d))). done.
Qed.

Lemma consume_good newID hash policy v clk r d d' : iam_inv d -> consume_device newID hash policy v clk d = Ok (r, d') -> good d d'.
Proof.
  intros Hi H. unfold consume_device in H. cbv zeta in H.
  destruct (device_source v policy (clk 1%nat) d) as [s1|]; [|injection H as _ <-; by apply deny_approved_good].
  destruct (device_source v policy (clk 2%nat) d) as [s|] eqn:Hs; [|injection H as _ <-; by apply deny_approved_good].
  apply source_spec in Hs as (_ & _ & Hin & Hsrc). do 2 inv_ok_step H.
  pose proof (cli_fresh _ _ _ _ _ _ _ Hi Hsrc Hin Hc Hc0) as Hg.
  destruct (first_where _ _) as [u|]; injection H as _ <-; (eapply iam_good_trans; [exact Hg|]; intros Hi1);
    [|by apply deny_approved_good]. apply approved_set_good; [done|].
  intros x _ Hx. split_and!; try done. intros [Hiv Hsh]. rewrite Hx in Hsh. split; [done|]. cbn. naive_solver.
Qed.

Lemma poll_good newID code hash policy clk r d d' : iam_inv d ->
  PollDeviceAuthorization newID code hash policy clk d = Ok (r, d') -> good d d'.
Proof.
  intros Hi H. unfold PollDeviceAuthorization in H. inv_ok_step H. destruct (first_where _ _) as [v|] eqn:Hv; [|injection H as _ <-; by apply good_refl].
  apply first_where_some in Hv as [Hv _]. cbv zeta in H. destruct (ii_devices d Hi) as (D1 & _).
  destruct (decide (dv_expires_at v <= clk 0%nat)).
  { injection H as _ <-. case_decide as Ho; [|by apply good_refl]. apply set_devices_ok; [done|]. intros x Hx Hid.
    assert (x = v) as -> by (by apply (key_unique dv_id (iam_devices d))). split_and!; try done. by apply expire_shape. }
  destruct (decide (dv_status v = DvDenied)); [injection H as _ <-; by apply good_refl|].
  destruct (decide (dv_status v = DvConsumed \/ _)); [injection H as _ <-; by apply good_refl|].
  destruct (decide (too_fast v _)).
  { injection H as _ <-. apply set_devices_ok; [done|]. intros x Hx Hid. split_and!; try done. intros [Hiv Hsh].
    split; [cbn; lia|]. cbn. done. }
  destruct (decide (dv_status v = DvPending)); [|by eapply consume_good].
  injection H as _ <-. apply set_devices_ok; [done|]. intros x Hx Hid. by split_and!.
Qed.

(** ** Memberships *)
Lemma provision_good newID issuer subject now id d d' : iam_inv d -> provision_subject newID issuer subject now d = Ok (id, d') -> good d d'.
Proof.
  intros Hi H. unfold provision_subject in H. destruct (first_where _ _) as [s|] eqn:Hs; [injection H as _ <-; by apply good_refl|].
  inv_ok_step H. injection H as _ <-. apply subjects_good; [done|]. apply rows_evolve_insert; [apply _|].
  split; [by apply not_exists_key|by apply no_first_identity].
Qed.

Lemma put_member_good newID project issuer subject role granted ps clk m d d' : iam_inv d ->
  PutMembership newID project issuer subject role granted ps clk d = Ok (m, d') -> good d d'.
Proof.
  intros Hi H. unfold PutMembership in H. inv_ok_step H. destruct a as [id d1]. do 3 inv_ok_step H. cbv zeta in H. inv_ok_step H.
  do 2 match type of H with match ?t with _ => _ end = _ => destruct t; [|done] end. injection H as _ <-.
  eapply iam_good_trans; [by eapply provision_good|]. intros Hi1. destruct (ii_members d1 Hi1) as [M1 M2].
  destruct (first_where (member_of project id) (project_memberships d1)) as [y|] eqn:Hy.
  - injection E0 as <-. apply members_good; [done|]. split; cbn.
    + eapply (rows_evolve_key (fun x y => member_key y = member_key x) (fun _ => False) member_key); [|intros ? ? Hk; exact Hk|done|exact M1].
      apply rows_evolve_update; [by intros z|by intros z _ _].
    + intros z (z0 & Hz & [[_ ->]|[_ ->]])%elem_of_update_where; [done|by apply M2].
  - inv_ok_step E0. injection E0 as <-. apply members_good; [done|]. split; cbn.
    + rewrite fmap_app. apply NoDup_app. split_and!; [done| |apply NoDup_singleton].
      intros k (z & -> & Hz)%list_elem_of_fmap [= Hp Hs]%list_elem_of_singleton. apply (first_where_none _ _ Hy z Hz). by split.
    + intros z [Hz|Hz%list_elem_of_singleton]%elem_of_app; [by apply M2|by subst z].
Qed.

Lemma delete_member_good project subject d d' : iam_inv d -> DeleteMembership project subject d = Ok d' -> good d d'.
Proof.
  intros Hi H. unfold DeleteMembership in H. destruct (first_where _ _) as [x|]; [|done]. inv_ok_step H. injection H as <-.
  destruct (ii_members d Hi) as [M1 M2]. apply members_good; [done|]. split; cbn.
  - eapply sublist_NoDup; [exact M1|apply fmap_sublist, sublist_filter].
  - intros z [_ Hz]%elem_of_delete_where. by apply M2.
Qed.
