(* ===== verification/IamSafety.v ===== *)
(** * What sessions, devices and roles promise

    The theorems about every state the operations of [Iam] reach, in any order
    and with any clocks. *)

From S2P Require Import Prelude GoStrings GoRegexp GoSha256 Schema JobLedger Iam IamSystem.
From Stdlib Require Import Ascii.
Open Scope string_scope.
Open Scope list_scope.
Open Scope Z_scope.

#[local] Arguments update_where : simpl never.
#[local] Arguments delete_where : simpl never.

(** ** The system *)
Inductive iam_step : iam_db -> iam_db -> Prop :=
| im_observe newID identity admin now p d d' : ObserveSubject newID identity admin now d = Ok (p, d') -> iam_step d d'
| im_authorize newID p identity policy clk q d d' :
    AuthorizeSession newID p identity policy clk d = Ok (q, d') -> iam_step d d'
| im_platform raw policy now p d d' : AuthorizePlatformSession raw policy now d = Ok (p, d') -> iam_step d d'
| im_revoke requester sessionID reason allow now s d d' :
    RevokeSession requester sessionID reason allow now d = Ok (s, d') -> iam_step d d'
| im_revoke_all requester subjectID reason allow clk n d d' :
    RevokeAllSessions requester subjectID reason allow clk d = Ok (n, d') -> iam_step d d'
| im_logout eventID logout clk r d d' : ApplyBackchannelLogout eventID logout clk d = Ok (r, d') -> iam_step d d'
| im_create_device newID code user ttl interval clk b d d' :
    CreateDeviceAuthorization newID code user ttl interval clk d = Ok (b, d') -> iam_step d d'
| im_decide user p approve policy clk v d d' :
    DecideDeviceAuthorization user p approve policy clk d = Ok (v, d') -> iam_step d d'
| im_poll newID code hash policy clk r d d' :
    PollDeviceAuthorization newID code hash policy clk d = Ok (r, d') -> iam_step d d'
| im_put_member newID project issuer subject role granted ps clk m d d' :
    PutMembership newID project issuer subject role granted ps clk d = Ok (m, d') -> iam_step d d'
| im_delete_member project subject d d' : DeleteMembership project subject d = Ok d' -> iam_step d d'.

Definition empty_iam : iam_db := mkIamDb [] [] [] [] [] [].
Definition iam_reachable (d : iam_db) : Prop := rtc iam_step empty_iam d.

Lemma iam_step_good d d' : iam_inv d -> iam_step d d' -> good d d'.
Proof.
  intros Hi Hs. destruct Hs; eauto using observe_good, authorize_iam_good, platform_good, revoke_good, revoke_all_good,
    logout_good, create_device_good, decide_good, poll_good, put_member_good, delete_member_good.
Qed.

Lemma iam_steps_good d d' : iam_inv d -> rtc iam_step d d' -> good d d'.
Proof.
  intros Hi Hr. induction Hr as [|x y z Hs _ IH]; [by apply good_refl|].
  eapply iam_good_trans; [by apply iam_step_good|done].
Qed.

Lemma empty_iam_inv : iam_inv empty_iam.
Proof.
  assert (forall {A} (P : A -> Prop), forall x, x ∈ @nil A -> P x) as Hn by (by intros A P x ?%elem_of_nil).
  split; unfold subjects_ok, security_ok, sessions_ok, devices_ok, logouts_ok, members_ok; cbn; split_and!;
    try apply NoDup_nil_2; try (by intros i s); try (by intros q s ?%elem_of_nil); apply Hn.
Qed.
Lemma iam_reachable_inv d : iam_reachable d -> iam_inv d.
Proof. intros Hr. by apply (iam_steps_good empty_iam d empty_iam_inv). Qed.

(** The row a session had, later. *)
Lemma session_later d d' s : iam_inv d' -> iam_later d d' -> s ∈ iam_sessions d ->
  forall s', s' ∈ iam_sessions d' -> is_id s' = is_id s \/ is_token_hash s' = is_token_hash s -> session_le s s'.
Proof.
  intros Hi (_ & _ & Hl) Hs s' Hs' Hk. destruct (Hl s Hs) as (x & Hx & Hle).
  destruct (ii_sessions d' Hi) as (S1 & S2 & _). assert (s' = x) as ->; [|done]. destruct Hk as [Hk|Hk].
  - apply (key_unique is_id (iam_sessions d')); [done|done|done|]. by rewrite Hk, (session_key s x Hle).
  - apply (key_unique is_token_hash (iam_sessions d')); [done|done|done|]. by rewrite Hk, (session_hash s x Hle).
Qed.

Lemma session_le_revoked s s' : session_le s s' -> revoked s -> revoked s'.
Proof. intros [_ H] Hr. specialize (H Hr). injection H as H _ _. unfold revoked in *. congruence. Qed.

(** ** Derivation and revocation *)
Lemma lineage_facts d q s : sessions_ok d -> q ∈ iam_sessions d -> s ∈ iam_sessions d ->
  rtc (derives (iam_sessions d)) (is_id q) (is_id s) ->
  is_subject_id s = is_subject_id q /\ is_expires_at s <= is_expires_at q /\ (revoked q -> revoked s).
Proof.
  intros Hok Hq Hs Hr. remember (is_id q) as a eqn:Ha. remember (is_id s) as b eqn:Hb.
  pose proof Hok as (S1 & _ & _ & _ & S5). revert q Hq Ha.
  induction Hr as [x|x y z (c & Hc & Hcy & Hd) _ IH]; intros q Hq Ha.
  - assert (s = q) as -> by (apply (key_unique is_id (iam_sessions d)); [done|done|done|congruence]). split_and!; [done|lia|done].
  - subst x y. destruct (IH Hb c Hc eq_refl) as (H1 & H2 & H3). destruct (child_of d q c Hok Hq Hc Hd) as (_ & H4 & _ & H5).
    split_and!; [congruence|lia|]. intros Hrq. apply H3. by apply (S5 q c).
Qed.

(** C13. Revocation follows derivation: in every reachable state, a session that
    was derived from another one, directly or through others, belongs to the
    same subject, expires no later, and is revoked if the other one is. *)
Theorem revocation_follows_derivation (d : iam_db) (q s : iam_session) (R : iam_reachable d)
    (Hq : q ∈ iam_sessions d) (Hs : s ∈ iam_sessions d) (Hd : rtc (derives (iam_sessions d)) (is_id q) (is_id s)) :
  is_subject_id s = is_subject_id q /\ is_expires_at s <= is_expires_at q /\ (revoked q -> revoked s).
Proof. apply (lineage_facts d); [apply iam_reachable_inv, R|done|done|done]. Qed.

Lemma revoked_not_fresh policy now s : revoked s -> ~ session_fresh policy now s.
Proof. intros Hr (H & _). done. Qed.

Lemma platform_refused d s : sessions_ok d -> s ∈ iam_sessions d ->
  (forall policy now, ~ (session_fresh policy now s /\ past_watermark d s)) ->
  forall raw policy now r, EncodeToString (Sum256 (bytes raw)) = is_token_hash s -> AuthorizePlatformSession raw policy now d <> Ok r.
Proof.
  intros (_ & S2 & _) Hs Hno raw policy now r Hh H. unfold AuthorizePlatformSession in H. inv_ok_step H. cbv zeta in H.
  destruct (first_where _ (iam_sessions d)) as [x|] eqn:Hx; [|done]. apply first_where_some in Hx as [Hx (Hxh & _ & Hf & Hw)].
  assert (x = s) as -> by (apply (key_unique is_token_hash (iam_sessions d)); [done|done|done|congruence]). by apply (Hno policy now).
Qed.

(** C5. A revoked session is dead for good: in every later state neither its
    bearer token nor a provider token it was opened with is accepted, it cannot
    decide a device request, and a device it approved gets no session. *)
Theorem revoked_session_shut_out (d d' : iam_db) (s : iam_session) (R : iam_reachable d) (Hs : s ∈ iam_sessions d)
    (Hrev : revoked s) (S : rtc iam_step d d') :
  (forall raw policy now r, EncodeToString (Sum256 (bytes raw)) = is_token_hash s ->
     AuthorizePlatformSession raw policy now d' <> Ok r) /\
  (forall newID p identity policy clk r, ei_token_hash identity = is_token_hash s ->
     AuthorizeSession newID p identity policy clk d' <> Ok r) /\
  (forall user p approve policy clk r, pc_session_id p = is_id s ->
     DecideDeviceAuthorization user p approve policy clk d' <> Ok r) /\
  (forall v newID code hash policy clk r d'', v ∈ iam_devices d' -> dv_device_code_hash v = code ->
     dv_approver_session_id v = Some (is_id s) ->
     PollDeviceAuthorization newID code hash policy clk d' = Ok (r, d'') -> po_status r <> PollApproved).
Proof.
  pose proof (iam_reachable_inv d R) as Hi. destruct (iam_steps_good d d' Hi S) as [Hi' Hl].
  pose proof (ii_sessions d' Hi') as Hok. destruct (proj2 (proj2 Hl) s Hs) as (t & Ht & Hle).
  pose proof (session_le_revoked _ _ Hle Hrev) as Hrt. pose proof (session_key _ _ Hle) as Hti. pose proof (session_hash _ _ Hle) as Hth.
  assert (forall policy now x, x ∈ iam_sessions d' -> is_id x = is_id s \/ is_token_hash x = is_token_hash s ->
    ~ session_fresh policy now x) as Hno.
  { intros policy now x Hx Hk. apply revoked_not_fresh. eapply session_le_revoked; [|exact Hrev].
    by apply (session_later d d' s Hi' Hl Hs). }
  split_and!.
  - intros raw policy now r Hh. apply (platform_refused d' t Hok Ht); [|congruence].
    intros policy' now' [Hf _]. apply (Hno policy' now' t Ht); [by left|done].
  - intros newID p identity policy clk r Hh H. unfold AuthorizeSession in H.
    destruct (ei_issued_at identity) as [issued|]; [|done]. destruct (ei_expires_at identity) as [expires|]; [|done].
    do 4 inv_ok_step H. rename a into d1. assert (iam_sessions d1 = iam_sessions d') as Hd1.
    { unfold ensure_security in E. destruct (first_where _ _); [by injection E as <-|]. inv_ok_step E. by injection E as <-. }
    destruct (first_where _ (iam_security d1)) as [w|]; [|done]. do 2 inv_ok_step H. clear H. unfold upsert_session in E0.
    do 2 inv_ok_step E0. cbv zeta in E0. rewrite Hd1 in E0. destruct (first_where _ (iam_sessions d')) as [x|] eqn:Hx.
    + inv_ok_step E0. destruct Hc5 as (_ & _ & _ & Hf). apply first_where_some in Hx as [Hx Hxh].
      apply (Hno policy (clk 2%nat) x Hx); [right; cbn in Hxh; congruence|done].
    + apply (first_where_none _ _ Hx t Ht). cbn. congruence.
  - intros user p approve policy clk r Hp H. unfold DecideDeviceAuthorization in H. inv_ok_step H. cbv zeta in H.
    destruct (first_where _ _) as [v|]; [|done]. inv_ok_step H. unfold deciding_session in Hc0.
    apply Exists_exists in Hc0 as (x & Hx & Hxi & _ & Hf & _). apply (Hno policy (clk 1%nat) x Hx); [left; congruence|done].
  - intros v newID code hash policy clk r d'' Hv Hvc Hva H Hap. destruct (ii_devices d' Hi') as (_ & D2 & _).
    unfold PollDeviceAuthorization in H. inv_ok_step H. destruct (first_where _ (iam_devices d')) as [v'|] eqn:Hv'; [|injection H as <- _; done].
    apply first_where_some in Hv' as [Hv' Hvc']. assert (v' = v) as -> by (apply (key_unique dv_device_code_hash (iam_devices d')); [done|done|done|congruence]).
    cbv zeta in H. repeat (case_decide; [by injection H as <- _|]).
    unfold consume_device in H. cbv zeta in H. destruct (device_source v policy (clk 1%nat) d') as [x|] eqn:Hx; [|by injection H as <- _].
    apply source_spec in Hx as (_ & _ & Hx & (Hxa & _ & Hf & _)). apply (Hno policy (clk 1%nat) x Hx); [left; congruence|done].
Qed.

Definition may_revoke (requester : Principal) (sessionID : uuid) (allow : bool) (d : iam_db) : Prop :=
  exists s, s ∈ iam_sessions d /\ is_id s = sessionID /\
    (allow = true \/ Some (is_subject_id s) = null_if_empty (pc_subject_id requester)).

Lemma update_where_Forall2 {A} (P : A -> Prop) `{HdP : !forall x, Decision (P x)} f (l : list A) :
  Forall2 (fun x x' => x' = if decide (P x) then f x else x) l (update_where P f l).
Proof. unfold update_where. induction l; constructor; auto. Qed.

(** C12. Revoking a session walks exactly its descendants: the recursive walk
    always ends, and of all sessions those become revoked that were derived from
    the given one, by the closure of "derived from"; every other session, and
    the record of an earlier revocation, stays as it was.  It is refused exactly
    if the session is not there for the requester, or if the reason is longer
    than 1024 characters and one of the sessions is not revoked yet. *)
Theorem revoke_session_exact (d : iam_db) (requester : Principal) (sessionID : uuid) (reason : string) (allow : bool)
    (now : time) (R : iam_reachable d) :
  match RevokeSession requester sessionID reason allow now d with
  | Ok (s, d') =>
      may_revoke requester sessionID allow d /\ is_id s = sessionID /\ s ∈ iam_sessions d' /\
      Forall2 (fun x x' => session_le x x' /\
        (revoked x' <-> revoked x \/ rtc (derives (iam_sessions d)) sessionID (is_id x)) /\
        (~ rtc (derives (iam_sessions d)) sessionID (is_id x) -> x' = x)) (iam_sessions d) (iam_sessions d') /\
      (1024 < char_length reason ->
       forall x, x ∈ iam_sessions d -> rtc (derives (iam_sessions d)) sessionID (is_id x) -> revoked x)
  | Err SessionUnknown => ~ may_revoke requester sessionID allow d
  | Err SessionConstraint => may_revoke requester sessionID allow d /\ 1024 < char_length reason /\
      exists x, x ∈ iam_sessions d /\ rtc (derives (iam_sessions d)) sessionID (is_id x) /\ ~ revoked x
  | Err _ => False
  end.
Proof.
  pose proof (ii_sessions d (iam_reachable_inv d R)) as Hok. unfold RevokeSession. cbv zeta.
  set (root := filter _ _). assert (root <> [] <-> may_revoke requester sessionID allow d) as Hroot.
  { split.
    - intros H. destruct root as [|s l] eqn:E; [done|]. assert (s ∈ root) as [Hs Hin]%list_elem_of_filter by (rewrite E; set_solver). by exists s.
    - intros (s & Hs & Hp) E. assert (s ∈ root) as H by (by apply list_elem_of_filter). rewrite E in H. by apply elem_of_nil in H. }
  destruct (lineage _ _ _) as [ids|] eqn:Hl.
  2:{ destruct (proj1 (revoke_lineage d requester sessionID allow [] Hok)) as [ids Hids]. unfold root in Hl. congruence. }
  pose proof (proj2 (revoke_lineage d requester sessionID allow ids Hok) Hl) as Hids. fold root in Hids.
  destruct (decide (char_length reason <= 1024 \/ _)) as [Hc|Hc].
  2:{ destruct (decide (exists_row (fun s => is_id s ∈ ids /\ is_revoked_at s = None) (iam_sessions d))) as [He|]; [|tauto].
      apply Exists_exists in He as (x & Hx & Hxi & Hxr). apply Hids in Hxi as [Hne Hd]. split_and!; [by apply Hroot|lia|].
      exists x. split_and!; [done|done|]. intros Hr. by apply Hr. }
  set (f := revoke_session _ _ _). set (d' := d <| iam_sessions := _ |>).
  assert (iam_sessions d' = update_where (fun s => is_id s ∈ ids) f (iam_sessions d)) as Hd' by done. clearbody d'.
  destruct (first_where _ (iam_sessions d')) as [s|] eqn:Hs; rewrite ?Hd'; rewrite Hd' in Hs.
  - apply first_where_some in Hs as [Hin [Hsi Hsids]]. assert (root <> []) as Hne by (by apply (Hids (is_id s))).
    split_and!; [by apply Hroot|done|done| |].
    2:{ intros Hlong x Hx Hd. destruct Hc as [|Hc]; [lia|]. unfold revoked. destruct (is_revoked_at x) eqn:Er; [done|].
        destruct Hc. apply Exists_exists. exists x. split_and!; [done|by apply Hids|done]. }
    eapply Forall2_impl; [apply update_where_Forall2|]. intros x x' ->. cbn.
    destruct (revoke_le (null_if_empty (pc_subject_id requester)) reason now x) as [Hle Hrev].
    destruct (decide (is_id x ∈ ids)) as [Hx|Hx]; rewrite Hids in Hx.
    + split_and!; [done|tauto|tauto].
    + split_and!; [done|tauto|done].
  - intros Hm. assert (root <> []) as Hne by (by apply Hroot). destruct Hm as (s & Hin & Hsi & _).
    apply (first_where_none _ _ Hs (f s)).
    + apply elem_of_update_where. exists s. split; [done|]. left. split; [|done]. apply Hids. by rewrite Hsi.
    + rewrite (session_key s (f s)) by apply revoke_le. split; [done|]. apply Hids. by rewrite Hsi.
Qed.

(** ** Revoking everything a subject has *)
Lemma mark_after subjectID mark now d d' : raise_watermark subjectID mark now d = Ok d' -> security_ok d ->
  (exists w, w ∈ iam_security d' /\ sc_subject_id w = subjectID /\ mark <= sc_tokens_valid_after w) /\
  iam_sessions d' = iam_sessions d.
Proof.
  intros H [W1 _]. unfold raise_watermark in H. destruct (first_where _ _) as [w|] eqn:Hw.
  - apply first_where_some in Hw as [Hw Hws]. injection H as <-. split; [|done]. eexists. split.
    + cbn. apply elem_of_update_where. exists w. split; [done|]. left. split; [exact Hws|reflexivity].
    + cbn. split; [done|lia].
  - inv_ok_step H. injection H as <-. split; [|done]. exists (mkSecurity subjectID mark now). cbn. split_and!; [|done|lia]. set_solver.
Qed.

Lemma mark_later d d' w : iam_inv d' -> iam_later d d' -> w ∈ iam_security d -> forall w', w' ∈ iam_security d' ->
  sc_subject_id w' = sc_subject_id w -> sc_tokens_valid_after w <= sc_tokens_valid_after w'.
Proof.
  intros Hi (_ & Hl & _) Hw w' Hw' Hk. destruct (Hl w Hw) as (x & Hx & Hxs & Hle). destruct (ii_security d' Hi) as [W1 _].
  assert (w' = x) as ->; [|done]. apply (key_unique sc_subject_id (iam_security d')); [done|done|done|congruence].
Qed.

(** C14. Revoking all sessions of a subject closes every door that was open: in
    every later state each session the subject had is refused by its token, and
    so is every provider token issued up to the second of the revocation, seen
    before or not. *)
Theorem revoked_subject_shut_out (d d1 d2 : iam_db) (requester : Principal) (subjectID : uuid) (reason : string)
    (allow : bool) (clk : clock) (n : Z) (R : iam_reachable d)
    (H1 : RevokeAllSessions requester subjectID reason allow clk d = Ok (n, d1)) (S : rtc iam_step d1 d2) :
  n = Z.of_nat (count_where (open_session_of subjectID) (iam_sessions d)) /\
  (forall s raw policy now r, s ∈ iam_sessions d -> is_subject_id s = subjectID ->
     EncodeToString (Sum256 (bytes raw)) = is_token_hash s -> AuthorizePlatformSession raw policy now d2 <> Ok r) /\
  (forall newID p identity policy clk' issued r, pc_subject_id p = subjectID -> ei_issued_at identity = Some issued ->
     issued <= trunc_second (clk 0%nat) -> AuthorizeSession newID p identity policy clk' d2 <> Ok r).
Proof.
  pose proof (iam_reachable_inv d R) as Hi. pose proof (revoke_all_good _ _ _ _ _ _ _ _ Hi H1) as [Hi1 Hl1].
  destruct (iam_steps_good d1 d2 Hi1 S) as [Hi2 Hl2]. unfold RevokeAllSessions in H1. do 2 inv_ok_step H1. cbv zeta in H1.
  inv_ok_step H1. injection H1 as <- <-. destruct (mark_after _ _ _ _ _ E (ii_security d Hi)) as [(w & Hw & Hws & Hwm) Hsess].
  rewrite Hsess in *. split_and!; [done| |].
  - intros s raw policy now r Hs Hsub Hh. set (f := revoke_session _ _ _) in *.
    assert (exists t, t ∈ update_where (open_session_of subjectID) f (iam_sessions d) /\ session_le s t /\ revoked t) as (t & Ht & Hle & Hrt).
    { destruct (decide (is_revoked_at s = None)) as [Ho|Ho].
      - exists (f s). split_and!; [|apply revoke_le|apply revoke_le]. apply elem_of_update_where. exists s. split; [done|]. by left.
      - exists s. split_and!; [|done|done]. apply elem_of_update_where. exists s. split; [done|]. right. split; [|done]. by intros [_ ?]. }
    destruct (proj2 (proj2 Hl2) t Ht) as (u & Hu & Hle2). apply (platform_refused d2 u); [apply Hi2|done| |].
    + intros policy' now' [Hf _]. eapply revoked_not_fresh; [|exact Hf]. by eapply session_le_revoked.
    + by rewrite (session_hash _ _ Hle2), (session_hash _ _ Hle).
  - intros newID p identity policy clk' issued r Hp Hiss Hle H. unfold AuthorizeSession in H. rewrite Hiss in H.
    destruct (ei_expires_at identity) as [expires|]; [|done]. do 4 inv_ok_step H. rename a0 into d3.
    destruct (first_where _ (iam_security d3)) as [x|] eqn:Hx; [|done]. apply first_where_some in Hx as [Hx Hxs]. inv_ok_step H.
    destruct (ensure_security_good _ _ _ _ Hi2 E0) as [Hi3 Hl3].
    assert (sc_tokens_valid_after w <= sc_tokens_valid_after x); [|lia].
    eapply (mark_later _ d3); [done|etrans; [exact Hl2|exact Hl3]|exact Hw|done|congruence].
Qed.

(** ** A device code gives one session *)

(** The step hands out [code] (again). *)
Definition issues (code : string) (d d' : iam_db) : Prop :=
  exists newID user ttl interval clk, CreateDeviceAuthorization newID code user ttl interval clk d = Ok (true, d').

Definition code_spent (code : string) (d : iam_db) : Prop :=
  forall v, v ∈ iam_devices d -> dv_device_code_hash v = code -> dv_status v = DvConsumed.

Lemma spent_same code d d' : iam_devices d' = iam_devices d -> code_spent code d -> code_spent code d'.
Proof. unfold code_spent. by intros ->. Qed.

Lemma spent_update code (P : device_authorization -> Prop) `{HdP : !forall v, Decision (P v)} f d :
  code_spent code d -> (forall v, dv_device_code_hash (f v) = dv_device_code_hash v) ->
  (forall v, v ∈ iam_devices d -> P v -> dv_status v = DvConsumed -> dv_status (f v) = DvConsumed) ->
  code_spent code (d <| iam_devices := update_where P f (iam_devices d) |>).
Proof.
  intros Hs Hh Hf v' (v & Hv & [[HP ->]|[_ ->]])%elem_of_update_where Hc; [|by apply Hs].
  rewrite Hh in Hc. by apply Hf, Hs.
Qed.

Lemma open_not_consumed v : open_device v -> dv_status v <> DvConsumed.
Proof. intros [->| ->]%open_cases; done. Qed.

Lemma decide_spent code user p approve policy clk r d d' : code_spent code d ->
  DecideDeviceAuthorization user p approve policy clk d = Ok (r, d') -> code_spent code d'.
Proof.
  intros Hs H. unfold DecideDeviceAuthorization in H. inv_ok_step H. cbv zeta in H. set (d1 := d <| iam_devices := _ |>) in H.
  assert (code_spent code d1) as Hs1.
  { apply spent_update; [done|done|]. intros v _ (_ & Ho & _) Hv. by apply open_not_consumed in Ho. }
  clearbody d1. destruct (first_where _ _) as [v|]; [|done]. inv_ok_step H. injection H as _ <-.
  apply spent_update; [done|by destruct approve|]. intros x _ (_ & Hx & _). congruence.
Qed.


Lemma poll_spent newID code code' hash policy clk r d d' : devices_ok d -> code_spent code d ->
  PollDeviceAuthorization newID code' hash policy clk d = Ok (r, d') -> code_spent code d'.
Proof.
  intros (D1 & _) Hs H. unfold PollDeviceAuthorization in H. inv_ok_step H.
  destruct (first_where _ _) as [v|] eqn:Hv; [|by injection H as _ <-]. apply first_where_some in Hv as [Hv _]. cbv zeta in H.
  assert (forall f x, (forall y, dv_device_code_hash (f y) = dv_device_code_hash y) ->
    code_spent code x -> code_spent code (set_approved (dv_id v) f x)) as Happ.
  { intros f x Hf Hx. apply spent_update; [done|done|]. intros y _ [_ ->]. done. }
  destruct (decide (dv_expires_at v <= clk 0%nat)).
  { injection H as _ <-. case_decide as Ho; [|done]. apply spent_update; [done|done|]. intros x Hx Hid Hcon.
    assert (x = v) as -> by (by apply (key_unique dv_id (iam_devices d))). by apply open_not_consumed in Ho. }
  do 2 (case_decide; [by injection H as _ <-|]).
  do 2 (case_decide; [injection H as _ <-; by apply spent_update|]).
  unfold consume_device in H. cbv zeta in H. destruct (device_source _ _ (clk 1%nat) _); [|injection H as _ <-; by apply Happ].
  destruct (device_source _ _ (clk 2%nat) _); [|injection H as _ <-; by apply Happ]. do 2 inv_ok_step H.
  destruct (first_where _ _); injection H as _ <-; (apply Happ; [done|]); by eapply spent_same.
Qed.

(** ** Which tables a step leaves alone *)
Inductive device_op : iam_db -> iam_db -> Prop :=
| do_create newID code user ttl interval clk b d d' :
    CreateDeviceAuthorization newID code user ttl interval clk d = Ok (b, d') -> device_op d d'
| do_decide user p approve policy clk v d d' :
    DecideDeviceAuthorization user p approve policy clk d = Ok (v, d') -> device_op d d'
| do_poll newID code hash policy clk r d d' :
    PollDeviceAuthorization newID code hash policy clk d = Ok (r, d') -> device_op d d'.
Inductive member_op : iam_db -> iam_db -> Prop :=
| mo_put newID project issuer subject role granted ps clk m d d' :
    PutMembership newID project issuer subject role granted ps clk d = Ok (m, d') -> member_op d d'
| mo_delete project subject d d' : DeleteMembership project subject d = Ok d' -> member_op d d'.

Definition iam_frame (devices logouts members : bool) (d d' : iam_db) : Prop :=
  (devices = true -> iam_devices d' = iam_devices d) /\ (logouts = true -> iam_logout_events d' = iam_logout_events d) /\
  (members = true -> project_memberships d' = project_memberships d).

Lemma frame_all d d' : iam_devices d' = iam_devices d -> iam_logout_events d' = iam_logout_events d ->
  project_memberships d' = project_memberships d -> forall a b c, iam_frame a b c d d'.
Proof. intros ? ? ? a b c. by split_and!. Qed.

Lemma frame_trans d1 d2 d3 : (forall a b c, iam_frame a b c d1 d2) -> forall a b c, iam_frame a b c d2 d3 -> iam_frame a b c d1 d3.
Proof. intros H a b c (H1 & H2 & H3). destruct (H true true true) as (G1 & G2 & G3). split_and!; intros E; [rewrite <- G1 by done; by apply H1|rewrite <- G2 by done; by apply H2|rewrite <- G3 by done; by apply H3]. Qed.

Lemma raise_frame subjectID mark now d d' : raise_watermark subjectID mark now d = Ok d' -> forall a b c, iam_frame a b c d d'.
Proof. intros H. unfold raise_watermark in H. destruct (first_where _ _); inv_ok H; simplify_eq; by apply frame_all. Qed.

Lemma authorize_frame newID p identity policy clk q d d' : AuthorizeSession newID p identity policy clk d = Ok (q, d') ->
  forall a b c, iam_frame a b c d d'.
Proof.
  intros H. unfold AuthorizeSession in H. destruct (ei_issued_at identity); [|done]. destruct (ei_expires_at identity); [|done].
  do 4 inv_ok_step H. rename a into d1. destruct (first_where _ _); [|done]. do 2 inv_ok_step H. destruct a. injection H as _ <-.
  intros a b c. apply (frame_trans d d1).
  - unfold ensure_security in E. destruct (first_where _ _); inv_ok E; simplify_eq; by apply frame_all.
  - unfold upsert_session in E0. do 2 inv_ok_step E0. cbv zeta in E0. destruct (first_where _ _); inv_ok E0; simplify_eq; by apply frame_all.
Qed.

Lemma revokes_frame d d' :
  (exists requester sessionID reason allow now s, RevokeSession requester sessionID reason allow now d = Ok (s, d')) \/
  (exists requester subjectID reason allow clk n, RevokeAllSessions requester subjectID reason allow clk d = Ok (n, d')) ->
  forall a b c, iam_frame a b c d d'.
Proof.
  intros [(requester & sessionID & reason & allow & now & s & H)|(requester & subjectID & reason & allow & clk & n & H)].
  - unfold RevokeSession in H. cbv zeta in H. destruct (lineage _ _ _); [|done]. inv_ok_step H.
    destruct (first_where _ _); [|done]. injection H as _ <-. by apply frame_all.
  - unfold RevokeAllSessions in H. do 2 inv_ok_step H. cbv zeta in H. inv_ok_step H. injection H as _ <-.
    intros x y z. apply (frame_trans d a); [by eapply raise_frame|]. by apply frame_all.
Qed.

Lemma logout_frame eventID logout clk r d d' : ApplyBackchannelLogout eventID logout clk d = Ok (r, d') -> iam_frame true false true d d'.
Proof.
  intros H. unfold ApplyBackchannelLogout in H. destruct (li_issued_at logout); [|done]. destruct (li_expires_at logout); [|done].
  inv_ok_step H. cbv zeta in H. inv_ok_step H. destruct (first_where _ _); [injection H as _ <-; by apply frame_all|].
  do 2 inv_ok_step H. destruct a as [n e]. injection H as _ <-. set (d0 := d <| iam_logout_events := _ |>) in E.
  assert (forall a b c, iam_frame a b c d0 e) as He.
  { unfold apply_logout in E. case_decide; [injection E as _ <-; by apply frame_all|].
    destruct (first_where _ _); [|injection E as _ <-; by apply frame_all]. inv_ok_step E. injection E as _ <-.
    intros x1 x2 x3. apply (frame_trans d0 a); [by eapply raise_frame|]. by apply frame_all. }
  destruct (He true false true) as (H1 & _ & H3). split_and!; [exact H1|done|exact H3].
Qed.

Lemma device_frame d d' : device_op d d' -> iam_frame false true true d d'.
Proof.
  intros Hop. destruct Hop as [newID code user ttl interval clk b d d' H|user p approve policy clk v d d' H|newID code hash policy clk r d d' H].
  - unfold CreateDeviceAuthorization in H. inv_ok_step H. cbv zeta in H. inv_ok_step H. case_decide; by injection H as _ <-.
  - unfold DecideDeviceAuthorization in H. inv_ok_step H. cbv zeta in H. destruct (first_where _ _); [|done]. inv_ok_step H. by injection H as _ <-.
  - unfold PollDeviceAuthorization in H. inv_ok_step H. destruct (first_where _ _) as [v|]; [|by injection H as _ <-]. cbv zeta in H.
    case_decide; [injection H as _ <-; by case_decide|]. repeat (case_decide; [by injection H as _ <-|]).
    unfold consume_device in H. cbv zeta in H. destruct (device_source _ _ (clk 1%nat) _); [|by injection H as _ <-].
    destruct (device_source _ _ (clk 2%nat) _); [|by injection H as _ <-]. do 2 inv_ok_step H.
    destruct (first_where _ _); by injection H as _ <-.
Qed.

Lemma member_frame d d' : member_op d d' -> iam_frame true true false d d'.
Proof.
  intros Hop. destruct Hop as [newID project issuer subject role granted ps clk m d d' H|project subject d d' H].
  - unfold PutMembership in H. inv_ok_step H. destruct a as [id d1]. do 3 inv_ok_step H. cbv zeta in H. inv_ok_step H.
    do 2 match type of H with match ?t with _ => _ end = _ => destruct t; [|done] end. injection H as _ <-. apply (frame_trans d d1).
    + unfold provision_subject in E. destruct (first_where _ _); inv_ok E; simplify_eq; by apply frame_all.
    + destruct (first_where _ (project_memberships d1)); inv_ok E0; by simplify_eq.
  - unfold DeleteMembership in H. destruct (first_where _ _); [|done]. inv_ok_step H. by injection H as <-.
Qed.

(** What a step is, seen from the tables beside the sessions. *)
Lemma step_frame d d' : iam_step d d' ->
  (forall a b c, iam_frame a b c d d') \/ (device_op d d' /\ iam_frame false true true d d') \/
  (member_op d d' /\ iam_frame true true false d d') \/
  ((exists eventID logout clk r, ApplyBackchannelLogout eventID logout clk d = Ok (r, d')) /\ iam_frame true false true d d').
Proof.
  intros Hs. assert (device_op d d' -> device_op d d' /\ iam_frame false true true d d') as Hdev by (intros; by split; [|apply device_frame]).
  assert (member_op d d' -> member_op d d' /\ iam_frame true true false d d') as Hmem by (intros; by split; [|apply member_frame]).
  destruct Hs as [newID identity admin now p d d' H| |raw policy now p d d' H| | |eventID logout clk r d d' H| | | | |].
  - left. unfold ObserveSubject in H. cbv zeta in H. inv_ok_step H. destruct a. injection H as _ <-.
    destruct (first_where _ _); [|inv_ok_step E]; injection E as _ <-; by apply frame_all.
  - left. by eapply authorize_frame.
  - left. unfold AuthorizePlatformSession in H. inv_ok_step H. cbv zeta in H. destruct (first_where _ _); [|done].
    destruct (first_where _ _); [|done]. injection H as _ <-. by apply frame_all.
  - left. apply revokes_frame. eauto 10.
  - left. apply revokes_frame. eauto 10.
  - do 3 right. split; [eauto|by eapply logout_frame].
  - right; left. apply Hdev. by eapply do_create.
  - right; left. apply Hdev. by eapply do_decide.
  - right; left. apply Hdev. by eapply do_poll.
  - do 2 right; left. apply Hmem. by eapply mo_put.
  - do 2 right; left. apply Hmem. by eapply mo_delete.
Qed.

Lemma step_spent code d d' : iam_inv d -> iam_step d d' -> ~ issues code d d' -> code_spent code d -> code_spent code d'.
Proof.
  intros Hi Hs Hn Hc. apply step_frame in Hs as [H|[[Hop _]|[[_ H]|[_ H]]]].
  1,3,4: apply (spent_same code d); [|done]; by apply (H true true true) || by apply H.
  destruct Hop as [newID code' user ttl interval clk b d d' H|user p approve policy clk v d d' H|newID code' hash policy clk r d d' H].
  - assert (b = true -> code' <> code) as Hb by (intros -> ->; apply Hn; unfold issues; eauto 10).
    unfold CreateDeviceAuthorization in H. inv_ok_step H. cbv zeta in H. inv_ok_step H. case_decide; injection H as <- <-.
    + intros v [_ Hv]%elem_of_delete_where. by apply Hc.
    + intros v [[_ Hv]%elem_of_delete_where|Hv%list_elem_of_singleton]%elem_of_app; [by apply Hc|]. subst v. cbn. intros E. by destruct (Hb eq_refl).
  - by eapply decide_spent.
  - eapply poll_spent; [apply Hi|done|done].
Qed.

Lemma poll_approved newID code hash policy clk r d d' : iam_inv d ->
  PollDeviceAuthorization newID code hash policy clk d = Ok (r, d') -> po_status r = PollApproved ->
  code_spent code d' /\ exists v q p,
    v ∈ iam_devices d /\ dv_device_code_hash v = code /\ dv_approver_session_id v = Some (is_id q) /\
    q ∈ iam_sessions d /\ session_fresh policy (clk 2%nat) q /\ past_watermark d q /\
    iam_sessions d' = iam_sessions d ++ [cli_session newID hash policy (clk 2%nat) q] /\
    po_principal r = Some p /\ pc_subject_id p = is_subject_id q /\ pc_session_id p = newID.
Proof.
  intros Hi H Hap. destruct (ii_devices d Hi) as (D1 & D2 & _). unfold PollDeviceAuthorization in H. inv_ok_step H.
  destruct (first_where _ (iam_devices d)) as [v|] eqn:Hv; [|injection H as <- _; done]. apply first_where_some in Hv as [Hv Hvc].
  cbv zeta in H. repeat (case_decide; [by injection H as <- _|]). unfold consume_device in H. cbv zeta in H.
  destruct (device_source v policy (clk 1%nat) d) as [s1|]; [|by injection H as <- _].
  destruct (device_source v policy (clk 2%nat) d) as [q|] eqn:Hq; [|by injection H as <- _].
  apply source_spec in Hq as (Hst & _ & Hq & (Ha & _ & Hf & Hw)). do 2 inv_ok_step H.
  destruct (first_where _ _) as [u|] eqn:Hu; [|by injection H as <- _]. injection H as <- <-. apply first_where_some in Hu as [_ Hu].
  split; [|by exists v, q, (session_principal u (cli_session newID hash policy (clk 2%nat) q))].
  intros x (y & Hy & [[_ ->]|[Hn ->]])%elem_of_update_where Hx; [done|]. destruct Hn.
  assert (y = v) as ->; [|done]. apply (key_unique dv_device_code_hash (iam_devices d)); [done|done|done|congruence].
Qed.

Lemma spent_steps code d d' : iam_inv d -> code_spent code d -> rtc (fun x y => iam_step x y /\ ~ issues code x y) d d' ->
  iam_inv d' /\ code_spent code d'.
Proof.
  intros Hi Hc Hr. induction Hr as [|x y z [Hs Hn] _ IH]; [done|]. apply IH; [by apply (iam_step_good x y)|by apply (step_spent code x y)].
Qed.

(** C15. A device code is exchanged once: the session a terminal gets is derived
    from a session that was alive when it did, of the same subject, and expires no
    later; and from then on, as long as the code is not handed out anew, every
    further use of it is answered as expired and opens no session. *)
Theorem device_code_single_use (d d1 d2 d3 : iam_db) (code hash hash' : string) (newID newID' : uuid)
    (policy policy' : IAMSessionPolicy) (clk clk' : clock) (r r' : DeviceAuthorizationPoll) (R : iam_reachable d)
    (H1 : PollDeviceAuthorization newID code hash policy clk d = Ok (r, d1)) (Hap : po_status r = PollApproved)
    (S : rtc (fun x y => iam_step x y /\ ~ issues code x y) d1 d2)
    (H2 : PollDeviceAuthorization newID' code hash' policy' clk' d2 = Ok (r', d3)) :
  (exists q s p, q ∈ iam_sessions d /\ session_fresh policy (clk 2%nat) q /\ past_watermark d q /\
     iam_sessions d1 = iam_sessions d ++ [s] /\ inherits q s /\ is_token_hash s = hash /\
     po_principal r = Some p /\ pc_session_id p = is_id s /\ pc_subject_id p = is_subject_id q) /\
  po_status r' = PollExpired /\ po_principal r' = None /\ iam_sessions d3 = iam_sessions d2.
Proof.
  pose proof (iam_reachable_inv d R) as Hi. destruct (poll_good _ _ _ _ _ _ _ _ Hi H1) as [Hi1 _].
  destruct (poll_approved _ _ _ _ _ _ _ _ Hi H1 Hap) as (Hsp & v & q & p & _ & _ & _ & Hq & Hf & Hw & Hs & Hp & Hpq & Hpn).
  destruct (spent_steps code d1 d2 Hi1 Hsp S) as [Hi2 Hsp2]. split.
  - exists q, (cli_session newID hash policy (clk 2%nat) q), p. unfold inherits. split_and!; try done. cbn. lia.
  - unfold PollDeviceAuthorization in H2. inv_ok_step H2. destruct (first_where _ (iam_devices d2)) as [x|] eqn:Hx.
    + apply first_where_some in Hx as [Hx Hxc]. pose proof (Hsp2 x Hx Hxc) as Hst. cbv zeta in H2.
      destruct (decide (dv_expires_at x <= clk' 0%nat)); [injection H2 as <- <-; split_and!; [done|done|by case_decide]|].
      rewrite (decide_False (P := dv_status x = DvDenied)), decide_True in H2 by (rewrite Hst; auto). by injection H2 as <- <-.
    + by injection H2 as <- <-.
Qed.

(** ** Back-channel logout, once *)
Lemma logout_recorded eventID logout clk r d d' : ApplyBackchannelLogout eventID logout clk d = Ok (r, d') ->
  exists e, e ∈ iam_logout_events d' /\ le_token_id_hash e = logout_token_hash logout /\ le_revoked_sessions e = lr_revoked_sessions r.
Proof.
  intros H. unfold ApplyBackchannelLogout in H. destruct (li_issued_at logout); [|done]. destruct (li_expires_at logout); [|done].
  inv_ok_step H. cbv zeta in H. inv_ok_step H. destruct (first_where _ _) as [e|] eqn:He.
  - injection H as <- <-. apply first_where_some in He as [? ?]. by exists e.
  - do 2 inv_ok_step H. destruct a as [n e]. injection H as <- <-. apply apply_logout_events in E. eexists. split.
    + cbn. rewrite E. apply elem_of_update_where. eexists. split; [apply elem_of_app; right; by apply list_elem_of_singleton|]. left. split; reflexivity.
    + done.
Qed.

Lemma step_events d d' e : iam_inv d -> iam_step d d' -> e ∈ iam_logout_events d -> e ∈ iam_logout_events d'.
Proof.
  intros Hi Hs He. apply step_frame in Hs as [H|[[_ H]|[[_ H]|[(eventID & logout & clk & r & H) _]]]].
  - destruct (H true true true) as (_ & -> & _); done.
  - destruct H as (_ & -> & _); done.
  - destruct H as (_ & -> & _); done.
  - unfold ApplyBackchannelLogout in H. destruct (li_issued_at logout); [|done]. destruct (li_expires_at logout); [|done].
    inv_ok_step H. cbv zeta in H. inv_ok_step H. destruct (first_where _ _); [by injection H as _ <-|].
    do 2 inv_ok_step H. destruct a as [n x]. injection H as _ <-. apply apply_logout_events in E. cbn. rewrite E.
    apply elem_of_update_where. exists e. split; [set_solver|]. right. split; [|done]. intros Hid. apply Hc1, Exists_exists. by exists e.
Qed.

Lemma steps_events d d' e : iam_inv d -> rtc iam_step d d' -> e ∈ iam_logout_events d -> e ∈ iam_logout_events d'.
Proof.
  intros Hi Hr He. induction Hr as [|x y z Hs _ IH]; [done|]. apply IH; [by apply (iam_step_good x y)|by apply (step_events x y)].
Qed.

(** A logout token is applied once: whenever the provider sends it again, the
    answer is that it was seen and how many sessions it revoked the first time,
    and nothing changes. *)
Theorem logout_applied_once (d d1 d2 : iam_db) (eventID eventID' : uuid) (logout : LogoutIdentity) (clk clk' : clock)
    (r : BackchannelLogoutResult) (R : iam_reachable d) (H1 : ApplyBackchannelLogout eventID logout clk d = Ok (r, d1))
    (S : rtc iam_step d1 d2) :
  ApplyBackchannelLogout eventID' logout clk' d2 = Ok (mkLogoutResult true (lr_revoked_sessions r), d2).
Proof.
  pose proof (iam_reachable_inv d R) as Hi. destruct (logout_good _ _ _ _ _ _ Hi H1) as [Hi1 _].
  destruct (iam_steps_good d1 d2 Hi1 S) as [Hi2 _]. destruct (logout_recorded _ _ _ _ _ _ H1) as (e & He & Heh & Hen).
  apply (steps_events d1 d2 e Hi1 S) in He. unfold ApplyBackchannelLogout in H1 |- *. destruct (li_issued_at logout); [|done].
  destruct (li_expires_at logout); [|done]. inv_ok_step H1. cbv zeta in H1 |- *. inv_ok_step H1. clear H1.
  destruct (first_where _ (iam_logout_events d2)) as [x|] eqn:Hx; [|by destruct (first_where_none _ _ Hx e He)].
  apply first_where_some in Hx as [Hx Hxh]. assert (x = e) as ->; [|by rewrite Hen].
  apply (key_unique le_token_id_hash (iam_logout_events d2)); [apply Hi2|done|done|congruence].
Qed.

(** ** The shape of the rows *)

(** C33. References between sessions, subjects and device requests lead where they
    say: a session belongs to a known subject that has a watermark; a session
    derived from another one has that session beside it, with the same subject and
    the same session of the provider, and does not outlive it; a device request has
    the columns of its state, and an approved or consumed one names a session that
    is there, of the subject it was approved for. *)
Theorem identity_references_hold (d : iam_db) (R : iam_reachable d) :
  (forall s, s ∈ iam_sessions d ->
     (exists u w, u ∈ iam_subjects d /\ w ∈ iam_security d /\ su_id u = is_subject_id s /\ sc_subject_id w = is_subject_id s) /\
     forall parent, is_derived_from s = Some parent ->
       exists q, q ∈ iam_sessions d /\ is_id q = parent /\ is_subject_id q = is_subject_id s /\
         is_provider_session_id q = is_provider_session_id s /\ is_expires_at s <= is_expires_at q) /\
  (forall v, v ∈ iam_devices d ->
     (dv_status v = DvApproved \/ dv_status v = DvConsumed ->
        exists q, q ∈ iam_sessions d /\ dv_approver_session_id v = Some (is_id q) /\ dv_subject_id v = Some (is_subject_id q) /\
          dv_approved_at v <> None /\ dv_denied_at v = None) /\
     (dv_status v = DvPending -> dv_subject_id v = None /\ dv_approver_session_id v = None /\ dv_approved_at v = None /\ dv_denied_at v = None) /\
     (dv_status v = DvDenied -> dv_denied_at v <> None) /\
     (dv_consumed_at v <> None <-> dv_status v = DvConsumed)).
Proof.
  destruct (iam_reachable_inv d R) as [_ (_ & W2) (_ & _ & S3 & S4 & _) (_ & _ & _ & D4) _ _]. split.
  - intros s Hs. destruct (S3 s Hs) as [_ (w & Hw & Hin)%list_elem_of_fmap]. split.
    + pose proof (W2 w Hin) as (u & Hu & Hui)%list_elem_of_fmap. exists u, w. split_and!; [done|done|congruence|done].
    + intros parent Hp. destruct (lineage_parent _ s S4 Hs) as (q & Hq & H1 & H2 & H3 & H4); [by rewrite Hp|].
      exists q. split_and!; [done|congruence|done|done|done].
  - intros v Hv. destruct (D4 v Hv) as [_ Hsh]. unfold approved_by in Hsh. destruct (dv_status v); naive_solver.
Qed.

(** ** Owners *)
Definition owner_row (project : uuid) (m : membership) : Prop := mb_project_id m = project /\ mb_role m = "owner".

Lemma owners_pos project d : (0 < owners project d)%nat <-> exists m, m ∈ project_memberships d /\ owner_row project m.
Proof. apply count_where_pos. Qed.

(** A second owner, if there is one to spare. *)
Lemma other_owner project subject d : members_ok d -> (1 < owners project d)%nat ->
  exists m, m ∈ project_memberships d /\ owner_row project m /\ mb_subject_id m <> subject.
Proof.
  intros [M1 _] Ho. unfold owners in Ho. rewrite (count_where_split _ (fun m => mb_subject_id m = subject)) in Ho.
  assert (count_where (fun m => (mb_project_id m = project /\ mb_role m = "owner") /\ mb_subject_id m = subject)
    (project_memberships d) <= 1)%nat.
  { apply (count_where_key member_key); [done|]. intros x y _ _ [[Hx _] Hxs] [[Hy _] Hys]. unfold member_key. congruence. }
  match type of Ho with (1 < _ + ?n)%nat => assert (0 < n)%nat as Hp by lia end.
  apply count_where_pos in Hp as (m & Hm & H1 & H2). by exists m.
Qed.

Lemma spared_owner project project' subject d : members_ok d -> spares_owner project' subject d ->
  (0 < owners project d)%nat -> exists m, m ∈ project_memberships d /\ owner_row project m /\ ~ member_of project' subject m.
Proof.
  intros Hok Hs (m & Hm & Ho)%owners_pos. destruct (decide (member_of project' subject m)) as [Hmo|Hmo]; [|by exists m].
  unfold spares_owner in Hs. destruct (first_where _ _) as [x|] eqn:Hx.
  - apply first_where_some in Hx as [Hx Hxm]. assert (x = m) as ->.
    { apply (key_unique member_key (project_memberships d)); [apply Hok|done|done|]. destruct Hxm, Hmo. unfold member_key. congruence. }
    destruct Ho as [<- Hr]. destruct Hmo as [<- _]. destruct (other_owner _ subject d Hok (Hs Hr)) as (y & Hy & Hyo & Hys).
    exists y. split_and!; [done|done|]. by intros [_ ?].
  - by destruct (first_where_none _ _ Hx m Hm).
Qed.

Lemma provision_members newID issuer subject now d id d1 : provision_subject newID issuer subject now d = Ok (id, d1) ->
  project_memberships d1 = project_memberships d.
Proof. intros H. unfold provision_subject in H. destruct (first_where _ _); inv_ok H; by simplify_eq. Qed.

Lemma member_op_owner project d d' : members_ok d -> member_op d d' -> (0 < owners project d)%nat -> (0 < owners project d')%nat.
Proof.
  intros Hok Hop Ho. destruct Hop as [newID project' issuer subject role granted ps clk m d d' H|project' subject d d' H].
  - unfold PutMembership in H. inv_ok_step H. destruct a as [id d1]. do 3 inv_ok_step H. cbv zeta in H. inv_ok_step H.
    do 2 match type of H with match ?t with _ => _ end = _ => destruct t; [|done] end. injection H as _ <-.
    apply provision_members in E as Hd1. assert (members_ok d1) as Hok1 by (unfold members_ok in *; by rewrite Hd1).
    assert (0 < owners project d1)%nat as Ho1 by (unfold owners in *; by rewrite Hd1). apply owners_pos.
    destruct Hc as [->|Hsp].
    + apply owners_pos in Ho1 as (x & Hx & Hxo).
      destruct (first_where _ (project_memberships d1)); [|inv_ok_step E0]; injection E0 as <-; cbn.
      * destruct (decide (member_of project' id x)) as [Hm|Hm].
        -- eexists. split; [apply elem_of_update_where; exists x; split; [done|left; by split]|]. by destruct Hxo.
        -- exists x. split; [|done]. apply elem_of_update_where. exists x. auto.
      * exists x. split; [set_solver|done].
    + destruct (spared_owner project project' id d1 Hok1 Hsp Ho1) as (x & Hx & Hxo & Hxm). exists x. split; [|done].
      destruct (first_where _ (project_memberships d1)); [|inv_ok_step E0]; injection E0 as <-; cbn; [|set_solver].
      apply elem_of_update_where. exists x. auto.
  - unfold DeleteMembership in H. destruct (first_where _ _); [|done]. inv_ok_step H. injection H as <-. apply owners_pos.
    destruct (spared_owner project project' subject d Hok Hc Ho) as (x & Hx & Hxo & Hxm). exists x.
    split; [|done]. cbn. by apply elem_of_delete_where.
Qed.

(** C32. A project that has an owner keeps one: no sequence of the operations,
    neither giving the last owner another role nor removing them, leaves it
    without. *)
Theorem last_owner_kept (d d' : iam_db) (project : uuid) (R : iam_reachable d) (S : rtc iam_step d d')
    (Ho : (0 < owners project d)%nat) : (0 < owners project d')%nat.
Proof.
  apply iam_reachable_inv in R. induction S as [|x y z Hs _ IH]; [done|]. apply IH; [by apply (iam_step_good x y)|].
  pose proof (step_frame x y Hs) as [H|[[_ H]|[[Hop _]|[_ H]]]].
  - destruct (H true true true) as (_ & _ & Hm). unfold owners in *. by rewrite Hm.
  - destruct H as (_ & _ & Hm). unfold owners in *. by rewrite Hm.
  - by apply (member_op_owner project x y); [apply R| |].
  - destruct H as (_ & _ & Hm). unfold owners in *. by rewrite Hm.
Qed.

(** ** Which project a request is for *)
Definition grants (principal : Principal) (requiredRole : string) (a : ProjectAccess) (ps : list project) (d : iam_db) : Prop :=
  (exists p, p ∈ ps /\ pr_id p = pa_project_id a /\ pr_name p = pa_project_name a) /\
  (pc_system_admin principal = true \/
   exists m, m ∈ project_memberships d /\ member_of (pa_project_id a) (pc_subject_id principal) m /\
     mb_role m = pa_role a /\ RoleAtLeast (pa_role a) requiredRole = true).

Lemma listed principal ps d a : a ∈ ListProjects principal ps d ->
  (exists p, p ∈ ps /\ pr_id p = pa_project_id a /\ pr_name p = pa_project_name a) /\
  (pc_system_admin principal = true \/
   exists m, m ∈ project_memberships d /\ member_of (pa_project_id a) (pc_subject_id principal) m /\ mb_role m = pa_role a).
Proof.
  unfold ListProjects. destruct (pc_system_admin principal); rewrite elem_of_sort_by.
  - intros (p & -> & Hp)%list_elem_of_fmap. split; [by exists p|by left].
  - intros (m & Ha & [Hs Hm]%list_elem_of_filter)%list_elem_of_bind.
    apply list_elem_of_bind in Ha as (p & Ha%list_elem_of_singleton & [Hid Hp]%list_elem_of_filter). subst a. cbn.
    split; [by exists p|]. right. exists m. split_and!; [done|by split|done].
Qed.

Lemma resolve_in_spec principal selector role l :
  match resolve_in principal selector role l with
  | Ok a => a ∈ l /\ (pa_project_id a = selector \/ pa_project_name a = selector) /\
            (pc_system_admin principal = true \/ RoleAtLeast (pa_role a) role = true)
  | Err RoleInsufficient => exists a, a ∈ l /\ (pa_project_id a = selector \/ pa_project_name a = selector) /\
                            pc_system_admin principal = false /\ RoleAtLeast (pa_role a) role = false
  | Err ProjectUnknown => forall a, a ∈ l -> pa_project_id a <> selector /\ pa_project_name a <> selector
  | Err _ => False
  end.
Proof.
  induction l as [|p l IH]; cbn; [by intros a ?%elem_of_nil|]. case_decide as Hp.
  - destruct (resolve_in _ _ _ l) as [a|[]]; try done.
    + destruct IH as (? & ? & ?). split_and!; [set_solver|done|done].
    + destruct IH as (a & ? & ?). exists a. split; [set_solver|done].
    + intros a [->|Ha]%elem_of_cons; auto.
  - assert (pa_project_id p = selector \/ pa_project_name p = selector) as Hsel.
    { destruct (decide (pa_project_id p = selector)); [by left|]. destruct (decide (pa_project_name p = selector)); [by right|]. tauto. }
    case_decide as Hr.
    + split_and!; [set_solver|done|]. destruct (pc_system_admin principal), (RoleAtLeast _ _); naive_solver.
    + exists p. split_and!; [set_solver|done|..]; destruct (pc_system_admin principal), (RoleAtLeast _ _); naive_solver.
Qed.

(** C19. A request is admitted to a project only by a role in it: the project
    exists, is the one the caller named (by id or name) or, with no name, the only
    one the caller belongs to (for a system administrator, the default one), and
    the caller is a system administrator or a member whose role suffices.  A
    refusal for the role happens only to a member of the project they named, or of
    their only one, whose role in it does not suffice; so a project the caller
    does not belong to is answered as one that does not exist. *)
Theorem project_access_sound (principal : Principal) (selector role : string) (ps : list project) (d : iam_db) :
  match ResolveProject principal selector role ps d with
  | Ok a => grants principal role a ps d /\
      (TrimSpace selector <> "" -> pa_project_id a = TrimSpace selector \/ pa_project_name a = TrimSpace selector) /\
      (TrimSpace selector = "" -> if pc_system_admin principal
         then pa_project_id a = DefaultProjectName \/ pa_project_name a = DefaultProjectName
         else ListProjects principal ps d = [a])
  | Err RoleInsufficient => pc_system_admin principal = false /\
      exists a m, a ∈ ListProjects principal ps d /\ RoleAtLeast (pa_role a) role = false /\
        m ∈ project_memberships d /\ member_of (pa_project_id a) (pc_subject_id principal) m /\ mb_role m = pa_role a /\
        if decide (TrimSpace selector = "") then ListProjects principal ps d = [a]
        else pa_project_id a = TrimSpace selector \/ pa_project_name a = TrimSpace selector
  | Err ProjectUnknown => forall a, a ∈ ListProjects principal ps d ->
      let wanted := if decide (TrimSpace selector = "") then DefaultProjectName else TrimSpace selector in
      pa_project_id a <> wanted /\ pa_project_name a <> wanted
  | Err ProjectRequired => TrimSpace selector = "" /\ pc_system_admin principal = false /\
      length (ListProjects principal ps d) <> 1%nat
  | Err _ => False
  end.
Proof.
  unfold ResolveProject, grants. cbv zeta. pose proof (listed principal ps d) as Hl. set (l := ListProjects principal ps d) in *. clearbody l.
  assert (forall a, a ∈ l -> pc_system_admin principal = true \/ RoleAtLeast (pa_role a) role = true ->
    (exists p, p ∈ ps /\ pr_id p = pa_project_id a /\ pr_name p = pa_project_name a) /\
    (pc_system_admin principal = true \/
     exists m, m ∈ project_memberships d /\ member_of (pa_project_id a) (pc_subject_id principal) m /\
       mb_role m = pa_role a /\ RoleAtLeast (pa_role a) role = true)) as Hg by (intros a Ha Hr; destruct (Hl a Ha); naive_solver).
  assert (forall a, a ∈ l -> pc_system_admin principal = false -> exists m, m ∈ project_memberships d /\
    member_of (pa_project_id a) (pc_subject_id principal) m /\ mb_role m = pa_role a) as Hm
    by (intros a Ha Hadm; destruct (Hl a Ha) as [_ [?|?]]; [congruence|done]).
  destruct (decide (TrimSpace selector = "")) as [Hsel|Hsel].
  - destruct (pc_system_admin principal) eqn:Hadm.
    + pose proof (resolve_in_spec principal DefaultProjectName role l) as Hs.
      destruct (resolve_in _ _ _ _) as [a|[]]; rewrite ?Hadm in *; try done; [|naive_solver].
      destruct Hs as (Ha & Hn & _). split; [by apply Hg; [|left]|]. by split; [intros []|].
    + destruct l as [|a [|b l]]; [done| |done]. case_decide as Hr.
      * split; [by apply Hg; [set_solver|right]|]. by split; [intros []|].
      * split; [done|]. destruct (Hm a) as (m & H1 & H2 & H3); [set_solver|done|]. exists a, m.
        split_and!; [set_solver|by destruct (RoleAtLeast _ _)|done|done..].
  - pose proof (resolve_in_spec principal (TrimSpace selector) role l) as Hs.
    destruct (resolve_in _ _ _ _) as [a|[]]; try done.
    + destruct Hs as (Ha & Hn & Hr). split; [by apply Hg|]. by split.
    + destruct Hs as (a & Ha & Hn & Hadm & Hr). destruct (Hm a) as (m & H1 & H2 & H3); [done|done|]. eauto 10.
Qed.

(** ** A run: sign in, approve a terminal, revoke *)
Definition after {A} (r : result iam_error (A * iam_db)) : iam_db := match r with Ok (_, d) => d | Err _ => empty_iam end.
Definition hash_ex (s : string) : string := EncodeToString (Sum256 (bytes s)).
Definition session_policy_ex : IAMSessionPolicy := mkSessionPolicy (3600 * Second) (86400 * Second).
Definition identity_ex : ExternalIdentity :=
  mkIdentity "idp" "https://idp.example" "alice" "alice" "Alice" "alice@example.org" (hash_ex "token") "sid-1" "jti-1"
    (Some (100 * Second)) (Some (100 * Second)) (Some (5000 * Second)) "" ["pwd"].
Definition principal_ex : Principal :=
  mkPrincipal "idp" "u1" "https://idp.example" "alice" "alice" "Alice" "alice@example.org" "oidc" false "s1"
    (Some (100 * Second)) (Some (5000 * Second)) (Some (100 * Second)) "" ["pwd"] false.

Definition observed_ex : iam_db := after (ObserveSubject "u1" identity_ex false (110 * Second) empty_iam).
Definition signed_in_ex : iam_db :=
  after (AuthorizeSession "s1" principal_ex identity_ex session_policy_ex (at_time 120) observed_ex).
Definition asked_ex : iam_db :=
  after (CreateDeviceAuthorization "v1" (hash_ex "device") "ABCD-EFGH" 600 5 (at_time 130) signed_in_ex).
Definition approved_ex : iam_db :=
  after (DecideDeviceAuthorization "ABCD-EFGH" principal_ex true session_policy_ex (at_time 140) asked_ex).
Definition poll_ex (newID token : string) (now : Z) (d : iam_db) : result iam_error (DeviceAuthorizationPoll * iam_db) :=
  PollDeviceAuthorization newID (hash_ex "device") (hash_ex token) session_policy_ex (at_time now) d.
Definition issued_ex : iam_db := after (poll_ex "s2" "cli" 150 approved_ex).
Definition revoked_ex : iam_db := after (RevokeSession principal_ex "s1" "user_requested" false (160 * Second) issued_ex).
Definition logout_ex : LogoutIdentity :=
  mkLogoutIdentity "idp" "https://idp.example" "" "sid-1" "jti-9" (Some (155 * Second)) (Some (255 * Second)).

Lemma signed_in_reachable : iam_reachable signed_in_ex.
Proof.
  apply (rtc_l _ _ observed_ex); [eapply (im_observe "u1" identity_ex false (110 * Second)); vm_compute; reflexivity|].
  apply rtc_once. eapply (im_authorize "s1" principal_ex identity_ex session_policy_ex (at_time 120)). vm_compute. reflexivity.
Qed.
Lemma approved_reachable : iam_reachable approved_ex.
Proof.
  unfold iam_reachable; etrans; [exact signed_in_reachable|]. apply (rtc_l _ _ asked_ex).
  { eapply (im_create_device "v1" (hash_ex "device") "ABCD-EFGH" 600 5 (at_time 130)). vm_compute. reflexivity. }
  apply rtc_once. eapply (im_decide "ABCD-EFGH" principal_ex true session_policy_ex (at_time 140)). vm_compute. reflexivity.
Qed.

Lemma issued_reachable : iam_reachable issued_ex.
Proof.
  unfold iam_reachable; etrans; [exact approved_reachable|]. apply rtc_once.
  eapply (im_poll "s2" (hash_ex "device") (hash_ex "cli") session_policy_ex (at_time 150)). vm_compute. reflexivity.
Qed.

Definition nth_session (n : nat) (d : iam_db) : iam_session :=
  nth n (iam_sessions d) (new_session "" principal_ex identity_ex 0 0 0).
Lemma nth_session_in n d : bool_decide (n < length (iam_sessions d))%nat = true -> nth_session n d ∈ iam_sessions d.
Proof.
  intros H%bool_decide_eq_true. unfold nth_session. apply list_elem_of_In, nth_In, H.
Qed.

Lemma revoked_reachable : iam_reachable revoked_ex.
Proof.
  unfold iam_reachable; etrans; [exact issued_reachable|]. apply rtc_once.
  eapply (im_revoke principal_ex "s1" "user_requested" false (160 * Second)). vm_compute. reflexivity.
Qed.

Lemma revocation_follows_derivation_witness :
  is_id (nth_session 1 revoked_ex) = "s2" /\ is_subject_id (nth_session 1 revoked_ex) = is_subject_id (nth_session 0 revoked_ex) /\
  revoked (nth_session 1 revoked_ex).
Proof.
  assert (nth_session 0 revoked_ex ∈ iam_sessions revoked_ex) as Hq by (apply nth_session_in; vm_compute; reflexivity).
  assert (nth_session 1 revoked_ex ∈ iam_sessions revoked_ex) as Hs by (apply nth_session_in; vm_compute; reflexivity).
  assert (rtc (derives (iam_sessions revoked_ex)) (is_id (nth_session 0 revoked_ex)) (is_id (nth_session 1 revoked_ex))) as Hd.
  { apply rtc_once. exists (nth_session 1 revoked_ex). split_and!; [exact Hs|reflexivity|vm_compute; reflexivity]. }
  destruct (revocation_follows_derivation revoked_ex (nth_session 0 revoked_ex) (nth_session 1 revoked_ex) revoked_reachable Hq Hs Hd) as (H1 & _ & H3).
  split_and!; [vm_compute; reflexivity|exact H1|]. apply H3. vm_compute. discriminate.
Defined.

Lemma revoked_session_shut_out_witness :
  is_ok (AuthorizePlatformSession "cli" session_policy_ex (155 * Second) issued_ex) = true /\
  is_ok (AuthorizePlatformSession "cli" session_policy_ex (170 * Second) revoked_ex) = false.
Proof.
  split; [vm_compute; reflexivity|]. assert (revoked (nth_session 1 revoked_ex)) as Hrev by (vm_compute; discriminate).
  assert (nth_session 1 revoked_ex ∈ iam_sessions revoked_ex) as Hs by (apply nth_session_in; vm_compute; reflexivity).
  pose proof (proj1 (revoked_session_shut_out revoked_ex revoked_ex (nth_session 1 revoked_ex) revoked_reachable Hs Hrev
    (rtc_refl _ _)) "cli" session_policy_ex (170 * Second)) as H.
  destruct (AuthorizePlatformSession _ _ _ _) as [r|e]; [|reflexivity]. exfalso. apply (H r); [vm_compute; reflexivity|reflexivity].
Defined.

Lemma revoke_session_exact_witness :
  may_revoke principal_ex "s1" false issued_ex /\ is_id (nth_session 0 revoked_ex) = "s1".
Proof.
  pose proof (revoke_session_exact issued_ex principal_ex "s1" "user_requested" false (160 * Second) issued_reachable) as H.
  assert (RevokeSession principal_ex "s1" "user_requested" false (160 * Second) issued_ex = Ok (nth_session 0 revoked_ex, revoked_ex)) as E
    by (vm_compute; reflexivity).
  rewrite E in H. destruct H as (H1 & H2 & _). split; [exact H1|exact H2].
Defined.

Definition shut_ex : iam_db := after (RevokeAllSessions principal_ex "u1" "lost laptop" false (at_time 160) issued_ex).
Lemma revoked_subject_shut_out_witness :
  is_ok (AuthorizePlatformSession "cli" session_policy_ex (170 * Second) shut_ex) = false.
Proof.
  assert (RevokeAllSessions principal_ex "u1" "lost laptop" false (at_time 160) issued_ex = Ok (2, shut_ex)) as E by (vm_compute; reflexivity).
  assert (nth_session 1 issued_ex ∈ iam_sessions issued_ex) as Hs by (apply nth_session_in; vm_compute; reflexivity).
  pose proof (proj1 (proj2 (revoked_subject_shut_out issued_ex shut_ex shut_ex principal_ex "u1" "lost laptop" false (at_time 160) 2
    issued_reachable E (rtc_refl _ _))) (nth_session 1 issued_ex) "cli" session_policy_ex (170 * Second)) as H.
  destruct (AuthorizePlatformSession _ _ _ _) as [r|e]; [|reflexivity].
  exfalso. apply (H r); [exact Hs|vm_compute; reflexivity|vm_compute; reflexivity|reflexivity].
Defined.

Definition polled {A} (x : A) (r : result iam_error (A * iam_db)) : A := match r with Ok (a, _) => a | Err _ => x end.
Definition no_poll : DeviceAuthorizationPoll := mkPoll PollPending 0 None.
Definition first_poll_ex : DeviceAuthorizationPoll := polled no_poll (poll_ex "s2" "cli" 150 approved_ex).
Definition second_poll_ex : DeviceAuthorizationPoll := polled no_poll (poll_ex "s3" "other" 170 issued_ex).
Lemma device_code_single_use_witness : po_status first_poll_ex = PollApproved /\ po_status second_poll_ex = PollExpired.
Proof.
  assert (PollDeviceAuthorization "s2" (hash_ex "device") (hash_ex "cli") session_policy_ex (at_time 150) approved_ex =
    Ok (first_poll_ex, issued_ex)) as H1 by (vm_compute; reflexivity).
  assert (PollDeviceAuthorization "s3" (hash_ex "device") (hash_ex "other") session_policy_ex (at_time 170) issued_ex =
    Ok (second_poll_ex, issued_ex)) as H2 by (vm_compute; reflexivity).
  assert (po_status first_poll_ex = PollApproved) as Hap by (vm_compute; reflexivity). split; [exact Hap|].
  exact (proj1 (proj2 (device_code_single_use approved_ex issued_ex issued_ex issued_ex (hash_ex "device") (hash_ex "cli")
    (hash_ex "other") "s2" "s3" session_policy_ex session_policy_ex (at_time 150) (at_time 170) first_poll_ex second_poll_ex
    approved_reachable H1 Hap (rtc_refl _ _) H2))).
Defined.

Definition logged_out_ex : iam_db := after (ApplyBackchannelLogout "e1" logout_ex (at_time 160) issued_ex).
Lemma logout_applied_once_witness :
  ApplyBackchannelLogout "e2" logout_ex (at_time 170) logged_out_ex = Ok (mkLogoutResult true 2, logged_out_ex).
Proof.
  assert (ApplyBackchannelLogout "e1" logout_ex (at_time 160) issued_ex = Ok (mkLogoutResult false 2, logged_out_ex)) as H1
    by (vm_compute; reflexivity).
  exact (logout_applied_once issued_ex logged_out_ex logged_out_ex "e1" "e2" logout_ex (at_time 160) (at_time 170) _
    issued_reachable H1 (rtc_refl _ _)).
Defined.

Lemma identity_references_hold_witness :
  exists q, q ∈ iam_sessions issued_ex /\ is_id q = "s1" /\ is_subject_id q = "u1".
Proof.
  assert (nth_session 1 issued_ex ∈ iam_sessions issued_ex) as Hs by (apply nth_session_in; vm_compute; reflexivity).
  destruct (proj2 (proj1 (identity_references_hold issued_ex issued_reachable) _ Hs) "s1") as (q & H1 & H2 & H3 & _); [vm_compute; reflexivity|].
  exists q. split_and!; [exact H1|exact H2|]. rewrite H3. vm_compute. reflexivity.
Defined.

Definition owned_ex : iam_db :=
  after (PutMembership "u9" "p1" "https://idp.example" "alice" "owner" "u1" [mkProject "p1" "default" ""] (at_time 170) issued_ex).
Definition shared_ex : iam_db :=
  after (PutMembership "u2" "p1" "https://idp.example" "bob" "viewer" "u1" [mkProject "p1" "default" ""] (at_time 180) owned_ex).

Lemma last_owner_kept_witness : (0 < owners "p1" shared_ex)%nat.
Proof.
  set (ps := [mkProject "p1" "default" ""]). assert (iam_reachable owned_ex) as R.
  { unfold iam_reachable; etrans; [exact issued_reachable|]. apply rtc_once.
    eapply (im_put_member "u9" "p1" "https://idp.example" "alice" "owner" "u1" ps (at_time 170)). vm_compute. reflexivity. }
  assert (rtc iam_step owned_ex shared_ex) as S.
  { apply rtc_once. eapply (im_put_member "u2" "p1" "https://idp.example" "bob" "viewer" "u1" ps (at_time 180)). vm_compute. reflexivity. }
  assert (0 < owners "p1" owned_ex)%nat as Ho by (vm_compute; lia).
  exact (last_owner_kept owned_ex shared_ex "p1" R S Ho).
Defined.
