(* ===== verification/IamServer.v ===== *)
(** * Who may send which request

    [internal/server/iam.go], the authentication middleware of
    [internal/server/server.go] and the verifiers of [internal/iam]: how a
    request gets a principal, which paths are open, which need a system
    administrator and which a fresh authentication, how a provider's identity is
    exchanged for a session, and the handlers of the identity endpoints, over the
    tables of [Iam].

    A handler is a function of the server, of the request and of the tables; it
    returns what it answers, the tables, and the audit records it asks for.  The
    decoded body of a request is an argument ([None]: it did not decode).  What
    the repository calls and the clock give during one request is an [ambient]. *)

From S2P Require Import GoUrl GoPath Prelude GoStrings GoRegexp GoSha256 GoText Schema JobLedger Iam.
From stdpp Require Import gmap strings.
From Stdlib Require Import Ascii.
Open Scope string_scope.
Open Scope list_scope.
Open Scope Z_scope.

(** ** Requests and answers *)
Record http_request := mkRequest {
  rq_method : string;
  rq_path : string;
  rq_header : string -> string;
  rq_query : string -> string;
  rq_principal : option Principal
}.
#[export] Instance request_eta : Eta http_request := fun r =>
  mkRequest (rq_method r) (rq_path r) (rq_header r) (rq_query r) (rq_principal r).
Definition set_header (key value : string) (r : http_request) : http_request :=
  r <| rq_header := fun k => if decide (k = key) then value else rq_header r k |>.

Inductive failure :=
| PlainText (message : string)
| IAMMessage (message : string)
| RepositoryMessage (e : iam_error)
| OAuthMessage (code description : string) (interval : Z)
| StepUpRequired.
(** [Panicked]: a method is called on a repository that is not there. *)
Inductive answer (A : Type) := Answered (a : A) | Refused (status : Z) (why : failure) | Panicked.
Arguments Answered {A} a.
Arguments Refused {A} status why.
Arguments Panicked {A}.

(** The details of an audit record are left out. *)
Record audit_entry := mkAudit {
  au_actor : string;
  au_subject_id : uuid;
  au_action : string;
  au_resource_type : string;
  au_resource_id : string;
  au_project_id : string;
  au_outcome : string
}.
Record served (A : Type) := mkServed { sd_answer : A; sd_db : iam_db; sd_audit : list audit_entry }.
Arguments mkServed {A} sd_answer sd_db sd_audit.
Arguments sd_answer {A} s.
Arguments sd_db {A} s.
Arguments sd_audit {A} s.

(** The k-th repository call of a request: the ids and the clock of its
    statements; the k-th reading of the server's clock; the k-th random value. *)
Record ambient := mkAmbient {
  am_uuid : nat -> uuid;
  am_clock : nat -> clock;
  am_wall : nat -> time;
  am_random : nat -> list ascii
}.

(** ** The server *)
Record ProviderCapabilities := mkCapabilities {
  pv_provider_id : string;
  pv_issuer : string;
  pv_backchannel_logout : bool;
  pv_backchannel_session : bool
}.
Record IdentityProviderConfig := mkProvider {
  ip_id : string;
  ip_type : string;
  ip_display_name : string;
  ip_issuer_url : string;
  ip_audience : string;
  ip_client_id : string;
  ip_allow_insecure_http : bool;
  ip_backchannel_logout : bool;
  ip_backchannel_require_sid : bool;
  ip_backchannel_max_age_seconds : Z
}.

(** An [IdentityVerifier], and a [Verifier]. *)
Definition identity_verifier : Type := time -> string -> option ExternalIdentity.
Record oidc_verifier := mkVerifier {
  vf_Verify : identity_verifier;
  vf_VerifyLogout : string -> option LogoutIdentity;
  vf_Capabilities : ProviderCapabilities
}.

Record server_config := mkConfig {
  cf_AuthMode : string;
  cf_APIKey : string;
  cf_StepUpAPIKey : string;
  cf_OIDCIssuerURL : string;
  cf_OIDCAudience : string;
  cf_OIDCAllowInsecureHTTP : bool;
  cf_IdentityProviders : list IdentityProviderConfig;
  cf_IdentityAdminSubjects : list string;
  cf_OIDCAdminSubjects : list string;
  cf_OIDCSessionIdleMinutes : Z;
  cf_OIDCSessionMaxMinutes : Z;
  cf_OIDCStepUpMaxAgeMin : Z;
  cf_OIDCStepUpAMRValues : list string;
  cf_OIDCStepUpACRValues : list string
}.

Record server := mkServer {
  sv_config : server_config;
  sv_repository : bool;
  sv_identityVerifiers : gmap string identity_verifier;
  sv_oidcVerifiers : gmap string oidc_verifier;
  sv_oidcVerifier : option oidc_verifier;
  sv_providerIssuers : gmap string string;
  sv_providerConfigs : gmap string IdentityProviderConfig;
  sv_identityAdmins : gset string
}.
#[export] Instance server_eta : Eta server := fun s =>
  mkServer (sv_config s) (sv_repository s) (sv_identityVerifiers s) (sv_oidcVerifiers s) (sv_oidcVerifier s)
    (sv_providerIssuers s) (sv_providerConfigs s) (sv_identityAdmins s).

Definition NUL : string := of_bytes [ascii_of_N 0].

Definition configuredIdentityProviders (cfg : server_config) : list IdentityProviderConfig * bool :=
  match cf_IdentityProviders cfg with
  | [] => ([mkProvider "oidc" "oidc" "OpenID Connect" (cf_OIDCIssuerURL cfg) (cf_OIDCAudience cfg) (cf_OIDCAudience cfg)
              (cf_OIDCAllowInsecureHTTP cfg) false false 0], true)
  | l => (l, false)
  end.

Definition validateBackchannelCapabilities (provider : IdentityProviderConfig) (capabilities : ProviderCapabilities) : bool :=
  negb (ip_backchannel_logout provider && negb (pv_backchannel_logout capabilities)) &&
  negb (ip_backchannel_require_sid provider && negb (pv_backchannel_session capabilities)).

Definition identityAdminKey (issuer subject : string) : string := TrimSpace issuer +:+ NUL +:+ TrimSpace subject.

(** [None]: an entry names no provider or no subject, and the server does not
    start. *)
Fixpoint configured_admins (issuers : gmap string string) (entries : list string) (admins : gset string)
    : option (gset string) :=
  match entries with
  | [] => Some admins
  | entry :: rest =>
      match cut_byte ":"%char (bytes (TrimSpace entry)) with
      | None => None
      | Some (providerID, subject) =>
          let issuer := default "" (issuers !! of_bytes providerID) in
          let subject := of_bytes subject in
          if decide (issuer = "" \/ TrimSpace subject = "") then None
          else configured_admins issuers rest ({[identityAdminKey issuer subject]} ∪ admins)
      end
  end.

Definition legacy_admins (issuer : string) (subjects : list string) (admins : gset string) : gset string :=
  foldl (fun admins subject =>
           let subject := TrimSpace subject in
           if decide (subject <> "") then {[identityAdminKey issuer subject]} ∪ admins else admins) admins subjects.

Definition configureIdentityAdmins (s : server) (providers : list IdentityProviderConfig) : option server :=
  admins ← configured_admins (sv_providerIssuers s) (cf_IdentityAdminSubjects (sv_config s)) (sv_identityAdmins s);
  Some (s <| sv_identityAdmins :=
    match providers with
    | [p] => legacy_admins (default "" (sv_providerIssuers s !! ip_id p)) (cf_OIDCAdminSubjects (sv_config s)) admins
    | _ => admins
    end |>).

(** ** Paths *)
Definition ModeLegacy : string := "legacy".
Definition ModeHybrid : string := "hybrid".

Definition authMode (s : server) : string :=
  let mode := ToLower (TrimSpace (cf_AuthMode (sv_config s))) in if decide (mode = "") then ModeLegacy else mode.

Definition backchannel_prefix : string := "/api/v1/iam/providers/".
Definition backchannel_suffix : string := "/backchannel-logout".
Definition backchannelProviderID (path : string) : string :=
  if negb (HasPrefix path backchannel_prefix) || negb (HasSuffix path backchannel_suffix) then ""
  else let providerID := TrimSuffix (TrimPrefix path backchannel_prefix) backchannel_suffix in
       if decide (providerID = "" \/ "/"%char ∈ bytes providerID) then "" else providerID.

Definition public_paths : list string :=
  ["/readyz"; "/livez"; "/metrics"; "/metrics/prometheus"; "/api/v1/iam/exchange"; "/api/v1/iam/device/authorization";
   "/api/v1/iam/device/token"; "/api/v1/binhosts"; "/api/v1/gpg/public-key"; "/api/v1/public/packages";
   "/api/v1/public/status"].
Definition publicControlPlanePath (path : string) : bool :=
  bool_decide (path ∈ public_paths) || bool_decide (backchannelProviderID path <> "") ||
  HasPrefix path "/binpkgs/" || HasPrefix path "/verify-binhost/".

Definition admin_prefixes : list string :=
  ["/api/v1/settings/"; "/api/v1/instances"; "/api/v1/builders/"; "/api/v1/scheduler/"; "/api/v1/worker-gateway/";
   "/api/v1/ledger/"; "/api/v1/image-factory/"; "/api/v1/runtime-metadata/"; "/api/v1/cache/"; "/api/v1/artifacts/";
   "/api/v1/heartbeat"].
Definition systemAdminPath (path : string) : bool :=
  existsb (HasPrefix path) admin_prefixes ||
  bool_decide (path ∈ ["/api/v1/builds/cleanup-failed"; "/api/v1/gpg/generate"; "/health"]).

Definition stepUpRequired (method path : string) : bool :=
  if decide (method = "OPTIONS") then false
  else if decide (path = "/api/v1/instances/shell") then true
  else if decide (method = "GET" \/ method = "HEAD") then false
  else if decide (path = "/api/v1/projects") then bool_decide (method = "POST")
  else if decide (path = "/api/v1/projects/members") then bool_decide (method = "PUT" \/ method = "DELETE")
  else if decide (path = "/api/v1/projects/policy") then bool_decide (method = "PUT")
  else if decide (path = "/api/v1/builds/delete" \/ path = "/api/v1/iam/sessions/revoke-all") then true
  else if decide (path = "/api/v1/iam/device/decision") then true
  else if decide (path = "/api/v1/heartbeat") then false
  else systemAdminPath path.

(** ** Who sends a request *)
Definition extractBearerToken (header : string) : string :=
  match cut_byte " "%char (bytes (TrimSpace header)) with
  | Some (scheme, token) => if EqualFold (of_bytes scheme) "Bearer" then TrimSpace (of_bytes token) else ""
  | None => ""
  end.

(** A map is walked in some order: two providers of one issuer give no answer. *)
Fixpoint provider_of (issuer : string) (l : list (string * string)) (found : string) : string :=
  match l with
  | [] => found
  | (providerID, candidate) :: l =>
      if decide (candidate <> issuer) then provider_of issuer l found
      else if decide (found <> "") then "" else provider_of issuer l providerID
  end.
Definition providerIDForIssuer (s : server) (issuer : string) : string :=
  provider_of issuer (map_to_list (sv_providerIssuers s)) "".

Definition iamSessionPolicy (s : server) : IAMSessionPolicy :=
  let minutes n fallback := int64 ((if decide (n <= 0) then fallback else n) * Minute) in
  mkSessionPolicy (minutes (cf_OIDCSessionIdleMinutes (sv_config s)) 60)
                  (minutes (cf_OIDCSessionMaxMinutes (sv_config s)) 720).

Definition isIdentityAdmin (s : server) (issuer subject : string) : bool :=
  bool_decide (identityAdminKey issuer subject ∈ sv_identityAdmins s).

Definition matchesAuthenticationContext (actual required : list string) : bool :=
  match required with
  | [] => true
  | _ => existsb (fun candidate => existsb (fun accepted => bool_decide (TrimSpace candidate = TrimSpace accepted)) required) actual
  end.

Definition oidcStepUpSatisfied (s : server) (principal : Principal) (now : time) : bool :=
  match pc_authenticated_at principal with
  | None => false
  | Some at_ =>
      if decide ((pc_authentication principal <> "oidc" /\ pc_authentication principal <> "federated-session") \/
                 now + 2 * Minute < at_) then false
      else let maxAge := int64 (cf_OIDCStepUpMaxAgeMin (sv_config s) * Minute) in
           let maxAge := if decide (maxAge <= 0) then 10 * Minute else maxAge in
           if decide (maxAge < time_Sub now at_) then false
           else matchesAuthenticationContext (pc_amr principal) (cf_OIDCStepUpAMRValues (sv_config s)) &&
                matchesAuthenticationContext [pc_acr principal] (cf_OIDCStepUpACRValues (sv_config s))
  end.

Definition built_in (subject : string) : Principal :=
  mkPrincipal "" "" "portage-engine" subject "" "" "" subject true "" None None None "" [] false.
Definition no_principal : Principal := mkPrincipal "" "" "" "" "" "" "" "" false "" None None None "" [] false.

Inductive auth_error :=
| BearerRequired | ExchangeRequired | VerifierRefused | AuthorityRefused (e : iam_error)
| StepUpMissing | StepUpMismatch | StepUpUnsatisfied | StepUpKeyRequired | StepUpImpossible.

(** The platform's view of a session's principal. *)
Definition platform_principal (s : server) (now : time) (p : Principal) : Principal :=
  let p := p <| pc_provider_id := providerIDForIssuer s (pc_issuer p) |>
             <| pc_system_admin := isIdentityAdmin s (pc_issuer p) (pc_subject p) |> in
  p <| pc_step_up := oidcStepUpSatisfied s p now |>.

Definition authenticateOIDCIdentity (s : server) (identity : ExternalIdentity) (k : nat) (env : ambient) (d : iam_db)
    : result auth_error Principal * iam_db :=
  match ObserveSubject (am_uuid env k) identity (isIdentityAdmin s (ei_issuer identity) (ei_subject identity))
          (am_clock env k 0%nat) d with
  | Err e => (Err (AuthorityRefused e), d)
  | Ok (principal, d) =>
      match AuthorizeSession (am_uuid env (S k)) principal identity (iamSessionPolicy s) (am_clock env (S k)) d with
      | Err e => (Err (AuthorityRefused e), d)
      | Ok (principal, d) => (Ok (principal <| pc_step_up := oidcStepUpSatisfied s principal (am_wall env k) |>), d)
      end
  end.

(** Repository calls from the k-th on. *)
Definition authenticateRequest (s : server) (r : http_request) (k : nat) (env : ambient) (d : iam_db)
    : result auth_error Principal * iam_db :=
  let mode := authMode s in
  let key := cf_APIKey (sv_config s) in
  let apiKey := TrimSpace (rq_header r "X-API-Key") in
  let bearer := extractBearerToken (rq_header r "Authorization") in
  let candidate := if decide (apiKey = "") then bearer else apiKey in
  if decide ((mode = ModeLegacy \/ mode = ModeHybrid) /\ key <> "" /\ candidate = key) then (Ok (built_in "legacy-api-key"), d)
  else if decide (mode = ModeLegacy /\ key = "") then (Ok (built_in "anonymous-compatibility"), d)
  else if decide (bearer = "" \/ sv_repository s = false) then (Err BearerRequired, d)
  else if HasPrefix bearer "pe1_" then
    match AuthorizePlatformSession bearer (iamSessionPolicy s) (am_clock env k 0%nat) d with
    | Err e => (Err (AuthorityRefused e), d)
    | Ok (principal, d) => (Ok (platform_principal s (am_wall env k) principal), d)
    end
  else match sv_oidcVerifier s with
       | None => (Err ExchangeRequired, d)
       | Some v =>
           match vf_Verify v (am_wall env k) bearer with
           | None => (Err VerifierRefused, d)
           | Some identity => authenticateOIDCIdentity s identity k env d
           end
       end.

Definition federated (p : Principal) : Prop := pc_authentication p = "oidc" \/ pc_authentication p = "federated-session".
#[export] Instance federated_dec p : Decision (federated p).
Proof. unfold federated. apply _. Defined.

(** A refusal comes with the principal the code returns beside its error. *)
Definition authorizeStepUp (s : server) (r : http_request) (principal : Principal) (k : nat) (env : ambient) (d : iam_db)
    : result (Principal * auth_error) Principal * iam_db :=
  if decide (federated principal) then
    if pc_step_up principal then (Ok principal, d)
    else
      let raw := extractBearerToken (rq_header r "X-Step-Up-Authorization") in
      if decide (raw = "") then (Err (no_principal, StepUpMissing), d)
      else match authenticateRequest s (set_header "Authorization" ("Bearer " +:+ raw) r) k env d with
           | (Err _, d) => (Err (no_principal, StepUpMismatch), d)
           | (Ok elevated, d) =>
               if decide (pc_issuer elevated <> pc_issuer principal \/ pc_subject elevated <> pc_subject principal)
               then (Err (no_principal, StepUpMismatch), d)
               else if pc_step_up elevated then (Ok elevated, d) else (Err (no_principal, StepUpUnsatisfied), d)
           end
  else if decide (pc_authentication principal = "legacy-api-key") then
    let candidate := TrimSpace (rq_header r "X-Step-Up-Key") in
    let key := cf_StepUpAPIKey (sv_config s) in
    if decide (key = "" \/ candidate <> key \/ cf_APIKey (sv_config s) = key) then (Err (no_principal, StepUpKeyRequired), d)
    else (Ok (principal <| pc_step_up := true |>), d)
  else (Err (no_principal, StepUpImpossible), d).

(** ** The gate before every handler *)
Definition audit (s : server) (p : Principal) (action resourceType resourceID projectID outcome : string) : list audit_entry :=
  if sv_repository s
  then [mkAudit (auditActor p) (pc_subject_id p) action resourceType resourceID projectID outcome] else [].

Definition unknown_principal : Principal := no_principal <| pc_authentication := "unknown" |>.

(** [Answered r]: the next handler gets [r]. *)
Definition apiKeyAuthMiddleware (s : server) (r : http_request) (env : ambient) (d : iam_db) : served (answer http_request) :=
  if publicControlPlanePath (rq_path r) then mkServed (Answered r) d []
  else if decide (rq_method r = "OPTIONS") then mkServed (Answered r) d []
  else match authenticateRequest s r 0 env d with
  | (Err _, d) =>
      mkServed (Refused 401 (IAMMessage "unauthorized: invalid or missing identity")) d
        (audit s unknown_principal "request.authenticate" "http_request" (rq_path r) "" "denied")
  | (Ok principal, d) =>
      if systemAdminPath (rq_path r) && negb (pc_system_admin principal) then
        mkServed (Refused 403 (IAMMessage "system administrator role required")) d
          (audit s principal "request.authorize" "http_request" (rq_path r) "" "denied")
      else if stepUpRequired (rq_method r) (rq_path r) then
        match authorizeStepUp s r principal 2 env d with
        | (Err (principal, _), d) =>
            mkServed (Refused 428 StepUpRequired) d
              (audit s principal "request.step_up" "http_request" (rq_path r) "" "denied")
        | (Ok principal, d) =>
            mkServed (Answered (r <| rq_principal := Some principal |>)) d
              (audit s principal "request.step_up" "http_request" (rq_path r) "" "success")
        end
      else mkServed (Answered (r <| rq_principal := Some principal |>)) d []
  end.

(** ** Verifiers *)
Record token_claims := mkClaims {
  tc_sub : string;
  tc_preferred_username : string;
  tc_name : string;
  tc_email : string;
  tc_email_verified : bool;
  tc_sid : string;
  tc_jti : string;
  tc_auth_time : Z;
  tc_acr : string;
  tc_amr : list string
}.
(** What the OpenID Connect library returns of a token it accepts. *)
Record IDToken := mkIDToken {
  it_issued_at : option time;
  it_expiry : option time;
  it_claims : option token_claims
}.
Record LogoutToken := mkLogoutToken {
  lt_subject : string;
  lt_session_id : string;
  lt_token_id : string;
  lt_issued_at : option time;
  lt_expiry : option time
}.

Definition valid_methods (amr : list string) : option (list string) :=
  mapM (fun method => let method := TrimSpace method in
          if decide (method = "" \/ 128 < go_len method) then None else Some method) amr.

(** [Some None]: the token does not say when. *)
Definition authenticated_at (auth_time : Z) (now expiry : time) : option (option time) :=
  if decide (0 < auth_time) then
    let t := auth_time * Second in
    if decide (now + 2 * Minute < t \/ expiry < t) then None else Some (Some t)
  else Some None.

Definition token_hash (raw : string) : string := EncodeToString (Sum256 (bytes raw)).

Definition OIDCVerifier_Verify (library : string -> option IDToken) (providerID issuer : string) (now : time) (raw : string)
    : option ExternalIdentity :=
  let raw := TrimSpace raw in
  if decide (raw = "") then None else
  token ← library raw;
  claims ← it_claims token;
  if decide (TrimSpace (tc_sub claims) = "") then None else
  match it_issued_at token, it_expiry token with
  | Some issued, Some expiry =>
      if decide (now + 2 * Minute < issued \/ ~ issued < expiry) then None else
      if decide (512 < go_len (tc_sid claims) \/ 512 < go_len (tc_jti claims) \/ 512 < go_len (tc_acr claims) \/
                 (32 < length (tc_amr claims))%nat) then None else
      amr ← valid_methods (tc_amr claims);
      authenticated ← authenticated_at (tc_auth_time claims) now expiry;
      let email := TrimSpace (tc_email claims) in
      Some (mkIdentity providerID issuer (tc_sub claims) (TrimSpace (tc_preferred_username claims)) (TrimSpace (tc_name claims))
              (if decide (email <> "" /\ tc_email_verified claims = false) then "" else email) (token_hash raw)
              (TrimSpace (tc_sid claims)) (TrimSpace (tc_jti claims)) (Some issued) authenticated (Some expiry)
              (TrimSpace (tc_acr claims)) amr)
  | _, _ => None
  end.

Definition OIDCVerifier_VerifyLogout (library : string -> option LogoutToken) (providerID issuer raw : string)
    : option LogoutIdentity :=
  let raw := TrimSpace raw in
  if decide (raw = "") then None else
  token ← library raw;
  let subject := TrimSpace (lt_subject token) in
  let sessionID := TrimSpace (lt_session_id token) in
  let tokenID := TrimSpace (lt_token_id token) in
  if decide (tokenID = "") then None else
  if decide (512 < go_len subject \/ 512 < go_len sessionID \/ 512 < go_len tokenID) then None else
  match lt_issued_at token, lt_expiry token with
  | Some issued, Some expiry =>
      if decide (issued < expiry)
      then Some (mkLogoutIdentity providerID issuer subject sessionID tokenID (Some issued) (Some expiry)) else None
  | _, _ => None
  end.

(** What GitHub answers about a token of this application: the user's number,
    login, name and e-mail, and when the token was made and ends. *)
Record github_token := mkGithubToken {
  gh_created_at : option time;
  gh_expires_at : option time;
  gh_user_id : Z;
  gh_login : string;
  gh_name : string;
  gh_email : string
}.

Definition GitHubVerifier_Verify (check_token : string -> option github_token) (providerID : string)
    (now : time) (raw : string) : option ExternalIdentity :=
  let raw := TrimSpace raw in
  if decide (raw = "" \/ 4096 < go_len raw) then None else
  token ← check_token raw;
  if decide (gh_user_id token <= 0 \/ TrimSpace (gh_login token) = "") then None else
  let issued := match gh_created_at token with
                | None => now
                | Some t => if decide (now + 2 * Minute < t) then now else t
                end in
  let expires := match gh_expires_at token with
                 | Some t => if decide (now < t) then t else now + 12 * Hour
                 | None => now + 12 * Hour
                 end in
  Some (mkIdentity providerID "https://github.com" (of_bytes (format_decimal (gh_user_id token))) (TrimSpace (gh_login token))
          (TrimSpace (gh_name token)) (TrimSpace (gh_email token)) (token_hash raw) "" "" (Some issued) None (Some expires)
          "" ["oauth"]).

(** ** Random values *)
Definition sextet (n : N) : ascii :=
  default "A"%char (bytes "ABCDEFGHIJKLMNOPQRSTUVWXYZabcdefghijklmnopqrstuvwxyz0123456789-_" !! N.to_nat n).
Fixpoint RawURLEncoding (l : list ascii) : list ascii :=
  match l with
  | a :: b :: c :: l =>
      let v := (N_of_ascii a * 65536 + N_of_ascii b * 256 + N_of_ascii c)%N in
      sextet (v / 262144) :: sextet (v / 4096 mod 64) :: sextet (v / 64 mod 64) :: sextet (v mod 64) :: RawURLEncoding l
  | [a; b] =>
      let v := (N_of_ascii a * 65536 + N_of_ascii b * 256)%N in
      [sextet (v / 262144); sextet (v / 4096 mod 64); sextet (v / 64 mod 64)]
  | [a] => let v := (N_of_ascii a * 65536)%N in [sextet (v / 262144); sextet (v / 4096 mod 64)]
  | [] => []
  end.
Definition randomDeviceCode (value : list ascii) : string := "ped1_" +:+ of_bytes (RawURLEncoding value).
Definition randomPlatformSession (value : list ascii) : string := "pe1_" +:+ of_bytes (RawURLEncoding value).

Definition deviceUserCodeAlphabet : string := "ABCDEFGHJKLMNPQRSTUVWXYZ23456789".
Definition code_letter (b : ascii) : ascii :=
  default "A"%char (bytes deviceUserCodeAlphabet !! N.to_nat (N.land (N_of_ascii b) 31)).
Definition hyphenate (l : list ascii) : string := of_bytes (take 4 l ++ ["-"%char] ++ drop 4 l).
Definition randomDeviceUserCode (value : list ascii) : string := hyphenate (code_letter <$> value).

Definition normalizeDeviceUserCode (raw : string) : option string :=
  let compact := filter (fun c => c <> "-"%char /\ c <> " "%char) (upper_fold (bytes (TrimSpace raw))) in
  if decide (length compact <> 8%nat) then None
  else if forallb (fun c => bool_decide (c ∈ bytes deviceUserCodeAlphabet)) compact then Some (hyphenate compact) else None.

(** ** Sessions for an identity *)
Definition issueFederatedSession (s : server) (identity : ExternalIdentity) (k : nat) (env : ambient) (d : iam_db)
    : result auth_error (string * Principal) * iam_db :=
  let now := am_wall env k in
  let policy := iamSessionPolicy s in
  let longest := now + sp_max_lifetime policy in
  let expires := match ei_expires_at identity with
                 | Some t => if decide (t < longest) then t else longest
                 | None => longest
                 end in
  if decide (~ now < expires) then (Err VerifierRefused, d)
  else match ObserveSubject (am_uuid env k) identity (isIdentityAdmin s (ei_issuer identity) (ei_subject identity))
               (am_clock env k 0%nat) d with
  | Err e => (Err (AuthorityRefused e), d)
  | Ok (principal, d) =>
      let raw := randomPlatformSession (am_random env k) in
      let session := identity <| ei_token_hash := token_hash raw |> <| ei_issued_at := Some now |>
                              <| ei_expires_at := Some expires |> in
      match AuthorizeSession (am_uuid env (S k)) principal session policy (am_clock env (S k)) d with
      | Err e => (Err (AuthorityRefused e), d)
      | Ok (principal, d) =>
          let principal := principal <| pc_provider_id := ei_provider_id identity |>
                                     <| pc_authentication := "federated-session" |> in
          (Ok (raw, principal <| pc_step_up := oidcStepUpSatisfied s principal now |>), d)
      end
  end.

(** ** Handlers *)
Definition refuse {A} (status : Z) (why : failure) (d : iam_db) : served (answer A) := mkServed (Refused status why) d [].
Definition method_not_allowed {A} (d : iam_db) : served (answer A) := refuse 405 (PlainText "Method not allowed") d.

(** Less than a second of the session is left. *)
Definition nearly_expired (p : Principal) (now : time) : Prop :=
  match pc_token_expires_at p with Some t => time_Sub t now < Second | None => True end.
#[export] Instance nearly_expired_dec p now : Decision (nearly_expired p now).
Proof. unfold nearly_expired. destruct (pc_token_expires_at p); apply _. Defined.

Definition handleIAMExchange (s : server) (r : http_request) (body : option (string * string)) (env : ambient) (d : iam_db)
    : served (answer string) :=
  if decide (rq_method r <> "POST") then method_not_allowed d
  else if decide (sv_repository s = false \/ size (sv_identityVerifiers s) = 0%nat)
  then refuse 503 (IAMMessage "identity exchange is unavailable") d
  else match body with
  | None => refuse 400 (IAMMessage "invalid identity exchange request") d
  | Some (providerID, credential) =>
      let credential := TrimSpace credential in
      let rejected := refuse 401 (IAMMessage "identity provider credential was rejected") d in
      match sv_identityVerifiers s !! TrimSpace providerID with
      | None => rejected
      | Some verify =>
          if decide (credential = "" \/ 12288 < go_len credential) then rejected
          else match verify (am_wall env 0%nat) credential with
          | None => rejected
          | Some identity =>
              match issueFederatedSession s identity 1 env d with
              | (Err _, d) => refuse 503 (IAMMessage "session authority is unavailable") d
              | (Ok (raw, principal), d) =>
                  let log := audit s principal "iam.session.exchange" "iam_session" (pc_session_id principal) "" "success" in
                  if decide (nearly_expired principal (am_wall env 2%nat))
                  then mkServed (Refused 401 (IAMMessage "identity provider credential is expired")) d log
                  else mkServed (Answered raw) d log
              end
          end
      end
  end.

Definition oauth {A} (status : Z) (code description : string) (interval : Z) (d : iam_db) : served (answer A) :=
  refuse status (OAuthMessage code description interval) d.

Record parsed_url := mkParsedUrl {
  pu_scheme : string; pu_host : string; pu_user : bool; pu_path : string; pu_raw_query : string; pu_fragment : string
}.
Definition verification_page (u : parsed_url) : Prop :=
  ~ (pu_host u = "" \/ pu_user u = true \/ pu_raw_query u <> "" \/ pu_fragment u <> "" \/ pu_path u <> "/device" \/
     (pu_scheme u <> "https" /\ pu_scheme u <> "http")).
#[export] Instance verification_page_dec u : Decision (verification_page u).
Proof. unfold verification_page. apply _. Defined.

Definition deviceAuthorizationTTL : duration := 10 * Minute.
Definition deviceAuthorizationInterval : Z := 5.
Definition deviceGrantType : string := "urn:ietf:params:oauth:grant-type:device_code".

(** Up to [attempts] pairs of codes, until one is new. *)
Fixpoint create_codes (attempts k : nat) (env : ambient) (d : iam_db) : option (string * string) * iam_db :=
  match attempts with
  | O => (None, d)
  | S attempts =>
      let raw := randomDeviceCode (am_random env (2 * k)%nat) in
      let user := randomDeviceUserCode (am_random env (2 * k + 1)%nat) in
      match CreateDeviceAuthorization (am_uuid env k) (token_hash raw) user (Z.quot deviceAuthorizationTTL Second)
              deviceAuthorizationInterval (am_clock env k) d with
      | Err _ => (None, d)
      | Ok (true, d) => (Some (raw, user), d)
      | Ok (false, d) => create_codes attempts (S k) env d
      end
  end.

(** The repository is there exactly if the store of devices is. *)
Definition handleIAMDeviceAuthorization (url_Parse : string -> option parsed_url) (verification : string) (s : server)
    (r : http_request) (env : ambient) (d : iam_db) : served (answer (string * string)) :=
  let unavailable d := oauth 503 "temporarily_unavailable" "device authorization is unavailable" 0 d in
  if decide (rq_method r <> "POST") then method_not_allowed d
  else if decide (authMode s = ModeLegacy \/ sv_repository s = false \/ TrimSpace verification = "") then unavailable d
  else match url_Parse (TrimSpace verification) with
  | None => unavailable d
  | Some u =>
      if decide (verification_page u)
      then match create_codes 5 0 env d with
           | (None, d) => unavailable d
           | (Some codes, d) => mkServed (Answered codes) d []
           end
      else unavailable d
  end.

Definition handleIAMDeviceDecision (s : server) (r : http_request) (body : option (string * string)) (env : ambient)
    (d : iam_db) : served (answer device_status) :=
  let invalid := refuse 400 (IAMMessage "invalid device authorization decision") d in
  let no_session := refuse 403 (IAMMessage "an authenticated federated platform session is required") d in
  if decide (rq_method r <> "POST") then method_not_allowed d
  else match rq_principal r with
  | None => no_session
  | Some principal =>
      if decide (pc_authentication principal <> "federated-session" \/ pc_subject_id principal = "" \/
                 pc_session_id principal = "" \/ sv_repository s = false) then no_session
      else match body with
      | None => invalid
      | Some (user_code, decision) =>
          let decision := ToLower (TrimSpace decision) in
          match normalizeDeviceUserCode user_code with
          | None => invalid
          | Some userCode =>
              if decide (decision <> "approve" /\ decision <> "deny") then invalid
              else match DecideDeviceAuthorization userCode principal (bool_decide (decision = "approve")) (iamSessionPolicy s)
                           (am_clock env 0%nat) d with
              | Err _ =>
                  mkServed (Refused 400 (IAMMessage "device code is invalid, expired, or already decided")) d
                    (audit s principal "iam.device.decision" "iam_device_authorization" "" "" "denied")
              | Ok (device, d) =>
                  mkServed (Answered (da_status device)) d
                    (audit s principal "iam.device.decision" "iam_device_authorization" (da_id device) "" "success")
              end
          end
      end
  end.

Definition media_type (r : http_request) : string :=
  let value := bytes (rq_header r "Content-Type") in
  let first := match cut_byte ";"%char value with Some (x, _) => x | None => value end in
  ToLower (TrimSpace (of_bytes first)).
Definition form_encoded : string := "application/x-www-form-urlencoded".

(** A form: the values of each key. *)
Definition form : Type := gmap string (list string).
Definition device_form (f : form) : option string :=
  match f !! "grant_type", f !! "device_code" with
  | Some [grant], Some [code] => if decide (size f = 2%nat /\ grant = deviceGrantType) then Some code else None
  | _, _ => None
  end.

Definition handleIAMDeviceToken (s : server) (r : http_request) (body : option form) (env : ambient) (d : iam_db)
    : served (answer (string * Principal)) :=
  let gone := oauth 503 "temporarily_unavailable" "session authority is unavailable" 0 d in
  if decide (rq_method r <> "POST") then method_not_allowed d
  else if decide (authMode s = ModeLegacy \/ sv_repository s = false)
  then oauth 503 "temporarily_unavailable" "device authorization is unavailable" 0 d
  else if decide (media_type r <> form_encoded)
  then oauth 400 "invalid_request" "form-encoded device token request is required" 0 d
  else match body ≫= device_form with
  | None => oauth 400 "invalid_request" "device_code and the device grant_type are required" 0 d
  | Some code =>
      let rawDeviceCode := TrimSpace code in
      if decide (rawDeviceCode = "" \/ 256 < go_len rawDeviceCode)
      then oauth 400 "expired_token" "device code is invalid or expired" 0 d
      else
        let rawAccessToken := randomPlatformSession (am_random env 0%nat) in
        match PollDeviceAuthorization (am_uuid env 0%nat) (token_hash rawDeviceCode) (token_hash rawAccessToken)
                (iamSessionPolicy s) (am_clock env 0%nat) d with
        | Err _ => gone
        | Ok (poll, d) =>
            match po_status poll with
            | PollPending => oauth 400 "authorization_pending" "authorization is still pending" (po_interval_seconds poll) d
            | PollSlowDown => oauth 400 "slow_down" "polling too quickly" (po_interval_seconds poll) d
            | PollDenied => oauth 400 "access_denied" "the user denied the request" 0 d
            | PollExpired => oauth 400 "expired_token" "device code is invalid, expired, or already consumed" 0 d
            | PollApproved =>
                let principal := platform_principal s (am_wall env 0%nat) (default no_principal (po_principal poll)) in
                mkServed (Answered (rawAccessToken, principal)) d
                  (audit s principal "iam.device.consume" "iam_session" (pc_session_id principal) "" "success")
            end
        end
  end.

(** The zero [time.Time]: the first of January of the year 1. *)
Definition zero_time : time := - 62135596800 * Second.

(** The address a provider sends logout tokens to. *)
Definition handleIAMProviderLifecycle (s : server) (r : http_request) (body : option form) (env : ambient) (d : iam_db)
    : served (answer BackchannelLogoutResult) :=
  let providerID := backchannelProviderID (rq_path r) in
  match sv_providerConfigs s !! providerID, sv_oidcVerifiers s !! providerID with
  | Some provider, Some verifier =>
      if decide (providerID = "" \/ ip_backchannel_logout provider = false) then refuse 404 (PlainText "404 page not found") d
      else if decide (rq_method r <> "POST") then method_not_allowed d
      else if decide (media_type r <> form_encoded) then refuse 400 (IAMMessage "logout token form is required") d
      else match body with
      | None => refuse 400 (IAMMessage "invalid logout token form") d
      | Some values =>
          let one := refuse 400 (IAMMessage "exactly one logout_token is required") d in
          match values !! "logout_token" with
          | Some [value] =>
              if decide (TrimSpace value = "") then one
              else match vf_VerifyLogout verifier value with
              | None => refuse 400 (IAMMessage "logout token was rejected") d
              | Some logout =>
                  let now := am_wall env 0%nat in
                  let age := int64 (ip_backchannel_max_age_seconds provider * Second) in
                  let maxAge := if decide (age <= 0) then 5 * Minute else age in
                  let issued := default zero_time (li_issued_at logout) in
                  if decide (now + 2 * Minute < issued \/ maxAge < time_Sub now issued \/
                             (ip_backchannel_require_sid provider = true /\ li_provider_session_id logout = ""))
                  then refuse 400 (IAMMessage "logout token is outside provider policy") d
                  else match ApplyBackchannelLogout (am_uuid env 0%nat) logout (am_clock env 0%nat) d with
                  | Err _ => refuse 503 (IAMMessage "session authority is unavailable") d
                  | Ok (result, d) =>
                      let principal := no_principal <| pc_provider_id := providerID |> <| pc_issuer := li_issuer logout |>
                                         <| pc_subject := li_subject logout |> <| pc_authentication := "oidc-backchannel" |> in
                      mkServed (Answered result) d
                        (audit s principal "iam.session.backchannel_logout" "identity_provider" providerID "" "success")
                  end
              end
          | _ => one
          end
      end
  | _, _ => refuse 404 (PlainText "404 page not found") d
  end.

Inductive project_error := NoPrincipal | AccessRefused (e : iam_error) | OtherProject.

(** A principal comes back with every refusal of the repository. *)
Definition authorizeProject (s : server) (r : http_request) (requiredRole : string) (ps : list project) (d : iam_db)
    : Principal * result project_error ProjectAccess :=
  if sv_repository s then
    match rq_principal r with
    | None => (no_principal, Err NoPrincipal)
    | Some principal =>
        let header := TrimSpace (rq_header r "X-Project-ID") in
        let selector := if decide (header = "") then TrimSpace (rq_query r "project_id") else header in
        (principal, match ResolveProject principal selector requiredRole ps d with
                    | Ok a => Ok a
                    | Err e => Err (AccessRefused e)
                    end)
    end
  else (default (built_in "direct-handler-compatibility") (rq_principal r), Ok (mkAccess "" "" "")).

Definition authorizeJob (s : server) (r : http_request) (statusProjectID requiredRole : string) (ps : list project)
    (d : iam_db) : Principal * result project_error unit :=
  match authorizeProject s r requiredRole ps d with
  | (principal, Err e) => (principal, Err e)
  | (principal, Ok p) =>
      (principal, if decide (pa_project_id p <> "" /\ statusProjectID <> "" /\ pa_project_id p <> statusProjectID)
                  then Err OtherProject else Ok tt)
  end.

Definition handleIAMMe (s : server) (r : http_request) (ps : list project) (d : iam_db)
    : served (answer (Principal * list ProjectAccess)) :=
  if decide (rq_method r <> "GET") then method_not_allowed d
  else match rq_principal r with
  | None => refuse 401 (IAMMessage "authenticated identity required") d
  | Some principal =>
      mkServed (Answered (principal, if sv_repository s then ListProjects principal ps d else [])) d []
  end.

(** Every provider that is configured, in the order of their names. *)
Definition identityProviderStatus (s : server) : list (IdentityProviderConfig * option ProviderCapabilities) :=
  providerID ← SortStrings ((map_to_list (sv_providerConfigs s)).*1);
  match sv_providerConfigs s !! providerID with
  | Some provider => [(provider, vf_Capabilities <$> (sv_oidcVerifiers s !! providerID))]
  | None => []
  end.

(** [strings.TrimRight(s, "/")] *)
Definition trim_slashes (s : string) : string := of_bytes (rev (trim_byte_left "/"%char (rev (bytes s)))).

Section sessions.
Context (uuid_Parse : string -> bool).

Definition handleIAMSessions (s : server) (r : http_request) (env : ambient) (d : iam_db)
    : served (answer (list iam_session)) :=
  let unavailable := refuse 503 (IAMMessage "federated session authority is unavailable") d in
  match rq_principal r with
  | None => unavailable
  | Some principal =>
      if decide (sv_repository s = false \/ pc_subject_id principal = "") then unavailable
      else if decide (rq_method r = "GET") then
        let asked := TrimSpace (rq_query r "subject_id") in
        let target := if decide (asked = "") then pc_subject_id principal else asked in
        if decide (target <> pc_subject_id principal /\ pc_system_admin principal = false)
        then refuse 403 (IAMMessage "system administrator role required") d
        else mkServed (Answered (ListSessions target d)) d []
      else if decide (rq_method r = "DELETE") then
        let asked := TrimSpace (rq_query r "session_id") in
        let sessionID := if decide (asked = "") then pc_session_id principal else asked in
        if uuid_Parse sessionID then
          let done principal session d :=
            mkServed (Answered [session]) d
              (audit s principal "iam.session.revoke" "iam_session" (is_id session) "" "success") in
          match RevokeSession principal sessionID "user_requested" false (am_clock env 0%nat 0%nat) d with
          | Ok (session, d) => done principal session d
          | Err e =>
              let '(principal, d) :=
                if decide (pc_system_admin principal = true /\ pc_step_up principal = false) then
                  match authorizeStepUp s r principal 1 env d with
                  | (Ok elevated, d) => (elevated, d)
                  | (Err _, d) => (principal, d)
                  end
                else (principal, d) in
              if decide (pc_system_admin principal = true /\ pc_step_up principal = true) then
                match RevokeSession principal sessionID "administrator_revoked" true (am_clock env 3%nat 0%nat) d with
                | Ok (session, d) => done principal session d
                | Err e => refuse 403 (RepositoryMessage e) d
                end
              else refuse 403 (RepositoryMessage e) d
          end
        else refuse 400 (IAMMessage "valid session_id is required") d
      else method_not_allowed d
  end.

Definition handleIAMRevokeAllSessions (s : server) (r : http_request) (body : option (string * string)) (env : ambient)
    (d : iam_db) : served (answer Z) :=
  let unavailable := refuse 503 (IAMMessage "federated session authority is unavailable") d in
  if decide (rq_method r <> "POST") then method_not_allowed d
  else match rq_principal r with
  | None => unavailable
  | Some principal =>
      if decide (sv_repository s = false \/ pc_subject_id principal = "") then unavailable
      else match body with
      | None => refuse 400 (IAMMessage "invalid session revocation request") d
      | Some (subject_id, reason) =>
          let asked := TrimSpace subject_id in
          let subjectID := if decide (asked = "") then pc_subject_id principal else asked in
          if decide (uuid_Parse subjectID = false \/ 1024 < go_len reason)
          then refuse 400 (IAMMessage "subject_id or reason is invalid") d
          else
            let other := bool_decide (subjectID <> pc_subject_id principal) in
            if other && negb (pc_system_admin principal) then refuse 403 (IAMMessage "system administrator role required") d
            else if pc_step_up principal then
              let given := TrimSpace reason in
              let reason := if decide (given = "") then "revoke_all_requested" else given in
              match RevokeAllSessions principal subjectID reason other (am_clock env 0%nat) d with
              | Err e => refuse 409 (RepositoryMessage e) d
              | Ok (count, d) =>
                  mkServed (Answered count) d
                    (audit s principal "iam.sessions.revoke_all" "iam_subject" subjectID "" "success")
              end
            else refuse 428 (IAMMessage "fresh step-up authentication required") d
      end
  end.

Record member_request := mkMemberRequest { mr_issuer : string; mr_subject : string; mr_role : string }.

Inductive members_reply := MembersListed (l : list ProjectMember) | MemberPut (m : ProjectMember) | MemberDeleted (id : uuid).

Definition handleProjectMembers (s : server) (r : http_request) (body : option member_request) (ps : list project)
    (env : ambient) (d : iam_db) : served (answer members_reply) :=
  match authorizeProject s r "owner" ps d with
  | (principal, Err e) =>
      mkServed (Refused 403 match e with AccessRefused e => RepositoryMessage e
                                  | _ => IAMMessage "request has no authenticated principal" end) d
        (audit s principal "project.members.authorize" "project" "" "" "denied")
  | (principal, Ok project) =>
      let projectID := pa_project_id project in
      let call served := if sv_repository s then served else mkServed Panicked d [] in
      if decide (rq_method r = "GET") then call (mkServed (Answered (MembersListed (ListMembers projectID d))) d [])
      else if decide (rq_method r = "PUT") then
        match body with
        | None => refuse 400 (IAMMessage "invalid membership request") d
        | Some q =>
            let issuer := trim_slashes (TrimSpace (mr_issuer q)) in
            let subject := TrimSpace (mr_subject q) in
            let role := TrimSpace (mr_role q) in
            if decide (issuer <> trim_slashes (cf_OIDCIssuerURL (sv_config s)) \/ subject = "" \/ 512 < go_len subject \/
                       RoleAtLeast role "viewer" = false)
            then refuse 400 (IAMMessage "issuer, subject, or role is invalid") d
            else call match PutMembership (am_uuid env 0%nat) projectID issuer subject role (pc_subject_id principal) ps
                         (am_clock env 0%nat) d with
            | Err _ => refuse 409 (IAMMessage "membership could not be updated") d
            | Ok (member, d) =>
                mkServed (Answered (MemberPut member)) d
                  (audit s principal "project.membership.put" "iam_subject" (pm_subject_id member) projectID "success")
            end
        end
      else if decide (rq_method r = "DELETE") then
        let subjectID := TrimSpace (rq_query r "subject_id") in
        if uuid_Parse subjectID then
          call match DeleteMembership projectID subjectID d with
          | Err _ => refuse 404 (IAMMessage "membership not found") d
          | Ok d =>
              mkServed (Answered (MemberDeleted subjectID)) d
                (audit s principal "project.membership.delete" "iam_subject" subjectID projectID "success")
          end
        else refuse 400 (IAMMessage "valid subject_id is required") d
      else method_not_allowed d
  end.
End sessions.
