(* ===== verification/IamServerSafety.v ===== *)
(** * What the gate lets through

    Theorems about the server of [IamServer] over the tables of [Iam]: who passes
    the authentication middleware, what a fresh authentication changes, which
    sessions the handlers hand out and revoke, and which codes people type. *)

From S2P Require Import Prelude GoStrings GoRegexp GoSha256 GoSha512 GoText Schema JobLedger Iam IamSystem IamSafety IamServer.
From stdpp Require Import gmap strings.
From Stdlib Require Import Ascii.
Open Scope string_scope.
Open Scope list_scope.
Open Scope Z_scope.

#[local] Arguments update_where : simpl never.
#[local] Arguments delete_where : simpl never.

(** ** Every request is a sequence of operations *)
Lemma oidc_steps s identity k env d : rtc iam_step d (authenticateOIDCIdentity s identity k env d).2.
Proof.
  unfold authenticateOIDCIdentity. destruct (ObserveSubject _ _ _ _ _) as [[p d1]|e] eqn:H1; [|reflexivity].
  apply im_observe in H1. destruct (AuthorizeSession _ _ _ _ _ _) as [[q d2]|e] eqn:H2; cbn; [|by apply rtc_once].
  apply im_authorize in H2. eapply rtc_l; [exact H1|by apply rtc_once].
Qed.

Lemma authenticate_steps s r k env d : rtc iam_step d (authenticateRequest s r k env d).2.
Proof.
  unfold authenticateRequest. cbv zeta.
  do 3 match goal with |- rtc _ _ (if ?b then _ else _).2 => destruct b; [reflexivity|] end. destruct (HasPrefix _ "pe1_").
  - destruct (AuthorizePlatformSession _ _ _ _) as [[p d1]|e] eqn:Hp; [|reflexivity]. cbn. by eapply rtc_once, im_platform.
  - destruct (sv_oidcVerifier s) as [v|]; [|reflexivity]. destruct (vf_Verify v _ _); [|reflexivity]. apply oidc_steps.
Qed.

Lemma step_up_steps s r p k env d : rtc iam_step d (authorizeStepUp s r p k env d).2.
Proof.
  unfold authorizeStepUp. case_decide.
  - destruct (pc_step_up p); [reflexivity|]. cbv zeta. case_decide; [reflexivity|].
    pose proof (authenticate_steps s (set_header "Authorization"
      ("Bearer " +:+ extractBearerToken (rq_header r "X-Step-Up-Authorization")) r) k env d) as Hst.
    destruct (authenticateRequest _ _ _ _ _) as [[q|e] d1]; [|done]. cbn in *. case_decide; [done|]. by destruct (pc_step_up q).
  - case_decide; [|reflexivity]. cbv zeta. by case_decide.
Qed.

(** ** What an authenticated principal is *)
Definition built_in_principal (s : server) (p : Principal) : Prop :=
  (p = built_in "legacy-api-key" /\ (authMode s = ModeLegacy \/ authMode s = ModeHybrid) /\ cf_APIKey (sv_config s) <> "") \/
  (p = built_in "anonymous-compatibility" /\ authMode s = ModeLegacy /\ cf_APIKey (sv_config s) = "").

(** The session a principal speaks for, alive when it was looked up. *)
Definition speaks_for (p : Principal) (d : iam_db) : Prop :=
  exists x u, x ∈ iam_sessions d /\ u ∈ iam_subjects d /\ is_id x = pc_session_id p /\ is_subject_id x = pc_subject_id p /\
    su_id u = pc_subject_id p /\ su_issuer u = pc_issuer p /\ su_subject u = pc_subject p /\ is_revoked_at x = None.

Definition federated_principal (s : server) (now : time) (p : Principal) (d : iam_db) : Prop :=
  federated p /\ pc_system_admin p = isIdentityAdmin s (pc_issuer p) (pc_subject p) /\
  pc_step_up p = oidcStepUpSatisfied s p now /\ speaks_for p d.

Lemma observe_principal newID identity admin now d p d' : ObserveSubject newID identity admin now d = Ok (p, d') ->
  pc_issuer p = ei_issuer identity /\ pc_subject p = ei_subject identity /\ pc_system_admin p = admin /\
  pc_authentication p = "oidc" /\
  exists u, u ∈ iam_subjects d' /\ su_id u = pc_subject_id p /\ su_issuer u = pc_issuer p /\ su_subject u = pc_subject p.
Proof.
  intros H. unfold ObserveSubject in H. cbv zeta in H. inv_ok_step H. destruct a as [id d1]. injection H as <- <-. cbn.
  split_and!; try done. destruct (first_where _ _) as [u|] eqn:Hu.
  - apply first_where_some in Hu as [Hu Hs]. injection E as <- <-. cbn. eexists. split.
    + apply elem_of_update_where. exists u. split; [done|]. left. split; [done|reflexivity].
    + cbn. by destruct Hs.
  - inv_ok_step E. injection E as <- <-. eexists. split; [apply elem_of_app; right; by apply list_elem_of_singleton|done].
Qed.

Lemma authorize_principal newID p identity policy clk d q d' : AuthorizeSession newID p identity policy clk d = Ok (q, d') ->
  pc_issuer q = pc_issuer p /\ pc_subject q = pc_subject p /\ pc_system_admin q = pc_system_admin p /\
  pc_authentication q = pc_authentication p /\ pc_subject_id q = pc_subject_id p /\ iam_subjects d' = iam_subjects d /\
  exists x, x ∈ iam_sessions d' /\ is_id x = pc_session_id q /\ is_subject_id x = pc_subject_id q /\ is_revoked_at x = None.
Proof.
  intros H. unfold AuthorizeSession in H. destruct (ei_issued_at identity) as [issued|]; [|done].
  destruct (ei_expires_at identity) as [expires|]; [|done]. do 4 inv_ok_step H. rename a into d1.
  destruct (first_where _ (iam_security d1)); [|done]. do 2 inv_ok_step H. destruct a as [x d2]. injection H as <- <-. cbn.
  assert (iam_subjects d1 = iam_subjects d) as Hd1.
  { unfold ensure_security in E. destruct (first_where _ _); inv_ok E; by simplify_eq. }
  unfold upsert_session in E0. do 2 inv_ok_step E0. cbv zeta in E0. destruct (first_where _ (iam_sessions d1)) as [y|] eqn:Hy.
  - inv_ok_step E0. injection E0 as <- <-. split_and!; try done. apply first_where_some in Hy as [Hy Hyh].
    destruct Hc5 as (Hsub & _ & _ & (Hrev & _)). exists (touch_seen (clk 2%nat) y). split_and!; try done.
    cbn. apply elem_of_update_where. exists y. split; [done|]. by left.
  - do 2 inv_ok_step E0. injection E0 as <- <-. split_and!; try done. eexists. split; [apply elem_of_app; right; by apply list_elem_of_singleton|done].
Qed.

Lemma platform_found raw policy now d p d' : AuthorizePlatformSession raw policy now d = Ok (p, d') ->
  exists x u, x ∈ iam_sessions d /\ is_token_hash x = token_hash raw /\ session_fresh policy now x /\ past_watermark d x /\
    u ∈ iam_subjects d /\ su_id u = is_subject_id x /\ p = session_principal u x /\ iam_subjects d' = iam_subjects d /\
    iam_sessions d' = update_where (platform_session (token_hash raw) policy now d) (touch_seen now) (iam_sessions d).
Proof.
  intros H. unfold AuthorizePlatformSession in H. inv_ok_step H. cbv zeta in H. fold (token_hash raw) in H.
  destruct (first_where _ (iam_sessions d)) as [x|] eqn:Hx; [|done]. destruct (first_where _ (iam_subjects d)) as [u|] eqn:Hu; [|done].
  injection H as <- <-. apply first_where_some in Hx as [Hx (Hh & _ & Hf & Hw)]. apply first_where_some in Hu as [Hu Hui].
  exists x, u. by split_and!.
Qed.

Lemma authenticated s r k env d p d' : authenticateRequest s r k env d = (Ok p, d') ->
  built_in_principal s p \/ federated_principal s (am_wall env k) p d'.
Proof.
  intros H. unfold authenticateRequest in H. cbv zeta in H.
  match type of H with (if ?b then _ else _) = _ => destruct b as [(Hm & Hk & _)|_] end.
  { injection H as <- _. left. left. done. }
  match type of H with (if ?b then _ else _) = _ => destruct b as [[Hm Hk]|_] end.
  { injection H as <- _. left. right. done. }
  match type of H with (if ?b then _ else _) = _ => destruct b; [done|] end. right. destruct (HasPrefix _ "pe1_").
  - destruct (AuthorizePlatformSession _ _ _ _) as [[q d1]|e] eqn:E; [|done]. injection H as <- <-.
    destruct (platform_found _ _ _ _ _ _ E) as (x & u & Hx & Hh & Hf & Hw & Hu & Hui & -> & Hsub & Hses).
    split_and!; [by right|done|done|]. exists (touch_seen (am_clock env k 0%nat) x), u. rewrite Hsub, Hses. split_and!; try done.
    + apply elem_of_update_where. exists x. split; [done|]. left. split; [|done]. split_and!; try done. apply Exists_exists. by exists u.
    + by destruct Hf.
  - destruct (sv_oidcVerifier s) as [v|]; [|done]. destruct (vf_Verify v _ _) as [identity|]; [|done].
    unfold authenticateOIDCIdentity in H. destruct (ObserveSubject _ _ _ _ _) as [[q d1]|e] eqn:E1; [|done].
    destruct (AuthorizeSession _ _ _ _ _ _) as [[q2 d2]|e] eqn:E2; [|done]. injection H as <- <-.
    destruct (observe_principal _ _ _ _ _ _ _ E1) as (H1 & H2 & H3 & H4 & u & Hu & Hui & Hus & Hun).
    destruct (authorize_principal _ _ _ _ _ _ _ _ E2) as (G1 & G2 & G3 & G4 & G5 & G6 & x & Hx & Hxi & Hxs & Hxr).
    split_and!; cbn; [by left; cbn; congruence|by rewrite G1, G2, G3, H1, H2|done|].
    exists x, u. cbn. rewrite G6. split_and!; try done; congruence.
Qed.

Lemma built_in_facts s p : built_in_principal s p -> ~ federated p /\ pc_step_up p = false /\ pc_system_admin p = true.
Proof. intros [[-> _]|[-> _]]; (split; [by intros [?|?]|done]). Qed.

(** How a step-up succeeds. *)
Lemma stepped_up s r p k env d p' d' : authorizeStepUp s r p k env d = (Ok p', d') ->
  pc_step_up p' = true /\ pc_issuer p' = pc_issuer p /\ pc_subject p' = pc_subject p /\
  ((federated p /\ p' = p /\ d' = d) \/
   (federated p /\ federated_principal s (am_wall env k) p' d') \/
   (~ federated p /\ p' = p <| pc_step_up := true |> /\ d' = d)).
Proof.
  intros H. unfold authorizeStepUp in H. destruct (decide (federated p)) as [Hfed|Hfed].
  - destruct (pc_step_up p) eqn:Hs; [injection H as <- <-; split_and!; auto|]. cbv zeta in H. case_decide; [done|].
    destruct (authenticateRequest _ _ _ _ _) as [[q|e] d1] eqn:E; [|done].
    match type of H with (if ?b then _ else _) = _ => destruct b as [|Hn]; [done|] end.
    destruct (pc_step_up q) eqn:Hq; [|done]. injection H as <- <-.
    assert (pc_issuer q = pc_issuer p /\ pc_subject q = pc_subject p) as [-> ->].
    { destruct (decide (pc_issuer q = pc_issuer p)), (decide (pc_subject q = pc_subject p)); tauto. }
    split_and!; [done|done|done|]. right; left. split; [done|].
    destruct (authenticated _ _ _ _ _ _ _ E) as [Hb|Hf]; [|done]. destruct (built_in_facts s q Hb) as (_ & ? & _). congruence.
  - case_decide; [|done]. cbv zeta in H. case_decide; [done|]. injection H as <- <-. split_and!; try done. by right; right.
Qed.

Lemma speaks_same d d' p p' : iam_inv d' -> iam_later d d' -> speaks_for p d -> speaks_for p' d' ->
  pc_issuer p' = pc_issuer p -> pc_subject p' = pc_subject p -> pc_subject_id p' = pc_subject_id p.
Proof.
  intros Hi (Hl & _ & _) (x & u & _ & Hu & _ & _ & H1 & H2 & H3 & _) (x' & u' & _ & Hu' & _ & _ & G1 & G2 & G3 & _) E1 E2.
  destruct (Hl u Hu) as (v & Hv & K1 & K2 & K3). destruct (ii_subjects d' Hi) as [_ U2].
  assert (u' = v) as ->; [|congruence]. apply (key_unique subject_key (iam_subjects d')); [done|done|done|]. unfold subject_key. congruence.
Qed.

(** C17. A fresh authentication elevates the person who asked and nobody else: the
    principal a step-up yields has the issuer, the subject, the row and the
    administrator flag of the principal the request was authenticated as, and is
    stepped up. *)
Theorem step_up_same_person (s : server) (r : http_request) (env : ambient) (d d1 d2 : iam_db) (p p' : Principal)
    (R : iam_reachable d) (H1 : authenticateRequest s r 0 env d = (Ok p, d1))
    (H2 : authorizeStepUp s r p 2 env d1 = (Ok p', d2)) :
  pc_step_up p' = true /\ pc_issuer p' = pc_issuer p /\ pc_subject p' = pc_subject p /\
  pc_subject_id p' = pc_subject_id p /\ pc_system_admin p' = pc_system_admin p.
Proof.
  destruct (stepped_up _ _ _ _ _ _ _ _ H2) as (Hs & Hi & Hsub & Hc). split_and!; [done|done|done|..].
  - destruct Hc as [(_ & -> & _)|[(Hf & Hf')|(_ & -> & _)]]; [done| |done].
    destruct (authenticated _ _ _ _ _ _ _ H1) as [Hb|(_ & _ & _ & Hsp)]; [by apply built_in_facts in Hb as [? _]|].
    destruct Hf' as (_ & _ & _ & Hsp'). pose proof (authenticate_steps s r 0 env d) as S1. rewrite H1 in S1.
    pose proof (step_up_steps s r p 2 env d1) as S2. rewrite H2 in S2. cbn in S1, S2.
    destruct (iam_steps_good d d1 (iam_reachable_inv d R) S1) as [Hi1 _]. destruct (iam_steps_good d1 d2 Hi1 S2) as [Hi2 Hl2].
    by apply (speaks_same d1 d2).
  - destruct Hc as [(_ & -> & _)|[(Hf & Hf')|(_ & -> & _)]]; [done| |done].
    destruct (authenticated _ _ _ _ _ _ _ H1) as [Hb|(_ & Ha & _)]; [by apply built_in_facts in Hb as [? _]|].
    destruct Hf' as (_ & Ha' & _). by rewrite Ha, Ha', Hi, Hsub.
Qed.

(** ** The gate *)
Lemma gate_steps s r env d : rtc iam_step d (sd_db (apiKeyAuthMiddleware s r env d)).
Proof.
  unfold apiKeyAuthMiddleware. destruct (publicControlPlanePath _); [reflexivity|]. case_decide; [reflexivity|].
  pose proof (authenticate_steps s r 0 env d) as S1. destruct (authenticateRequest _ _ _ _ _) as [[p|e] d1]; [|done]. cbn in S1.
  destruct (systemAdminPath _ && _); [done|]. destruct (stepUpRequired _ _); [|done].
  pose proof (step_up_steps s r p 2 env d1) as S2. destruct (authorizeStepUp _ _ _ _ _ _) as [[q|[e1 e2]] d2]; cbn in *; by etrans.
Qed.

(** What a request that is not for the public brings to its handler. *)
Definition admitted (s : server) (r r' : http_request) (d' : iam_db) : Prop :=
  exists p, r' = r <| rq_principal := Some p |> /\
    (systemAdminPath (rq_path r) = true -> pc_system_admin p = true) /\
    (stepUpRequired (rq_method r) (rq_path r) = true -> pc_step_up p = true) /\
    ((~ federated p /\ pc_subject p ∈ ["legacy-api-key"; "anonymous-compatibility"] /\ authMode s ∈ [ModeLegacy; ModeHybrid]) \/
     (federated p /\ pc_system_admin p = isIdentityAdmin s (pc_issuer p) (pc_subject p) /\ speaks_for p d')).

(** C4. The gate: a request that is neither for an open path nor a preflight
    reaches its handler only with a principal.  On an administrator's path that
    principal is a system administrator, on a sensitive one it is freshly
    authenticated.  It is either the key or the anonymous access of the legacy
    modes, or it speaks for a session in the tables that is not revoked, of the
    subject the session belongs to, and is a system administrator exactly if that
    subject is configured as one.  Every other request is refused with 401, 403
    or 428. *)
Theorem gate_admits_only (s : server) (r : http_request) (env : ambient) (d : iam_db)
    (Hp : publicControlPlanePath (rq_path r) = false) (Ho : rq_method r <> "OPTIONS") :
  match sd_answer (apiKeyAuthMiddleware s r env d) with
  | Answered r' => admitted s r r' (sd_db (apiKeyAuthMiddleware s r env d))
  | Refused status _ => status ∈ [401; 403; 428]
  | Panicked => False
  end.
Proof.
  unfold apiKeyAuthMiddleware. rewrite Hp. destruct (decide (rq_method r = "OPTIONS")); [done|].
  destruct (authenticateRequest s r 0 env d) as [[p|e] d1] eqn:E; cbn; [|set_solver].
  pose proof (authenticated _ _ _ _ _ _ _ E) as Ha.
  assert (forall q, pc_issuer q = pc_issuer p -> pc_subject q = pc_subject p -> pc_authentication q = pc_authentication p ->
    built_in_principal s p -> ~ federated q /\ pc_subject q ∈ ["legacy-api-key"; "anonymous-compatibility"] /\
    authMode s ∈ [ModeLegacy; ModeHybrid]) as Hbuilt.
  { intros q _ Hs Hau Hb. split_and!.
    - unfold federated. rewrite Hau. by apply (built_in_facts s p).
    - rewrite Hs. destruct Hb as [[-> _]|[-> _]]; cbn; set_solver.
    - destruct Hb as [(_ & [-> | ->] & _)|(_ & -> & _)]; set_solver. }
  destruct (systemAdminPath (rq_path r)) eqn:Hadm; cbn.
  1: destruct (pc_system_admin p) eqn:Hpa; cbn; [|set_solver].
  all: destruct (stepUpRequired (rq_method r) (rq_path r)) eqn:Hst; cbn.
  2, 4: exists p; split_and!; [done|congruence|congruence|]; destruct Ha as [Hb|(Hf & Hsa & _ & Hsp)]; [left; by apply Hbuilt|by right].
  all: destruct (authorizeStepUp s r p 2 env d1) as [[q|[e1 e2]] d2] eqn:E2; cbn; [|set_solver].
  all: destruct (stepped_up _ _ _ _ _ _ _ _ E2) as (Hs & Hi & Hsub & Hc).
  all: exists q; split_and!; [done| |done|].
  1: intros _; destruct Hc as [(_ & -> & _)|[(Hf & _ & Hsa & _)|(_ & -> & _)]]; [done| |done].
  1: rewrite Hsa, Hi, Hsub; destruct Ha as [Hb|(_ & <- & _)]; [by apply built_in_facts in Hb as [? _]|done].
  2: congruence.
  all: destruct Hc as [(Hf & -> & ->)|[(Hf & Hf' & Hsa & _ & Hsp)|(Hf & -> & ->)]].
  all: destruct Ha as [Hb|(Hfp & Hsap & _ & Hspp)]; try (by apply built_in_facts in Hb as [? _]); try (by right); try done.
  all: left; by apply Hbuilt.
Qed.

(** ** Open paths *)
Lemma both_prefixes path p q : HasPrefix path p = true -> HasPrefix path q = true ->
  bytes p `prefix_of` bytes q \/ bytes q `prefix_of` bytes p.
Proof. unfold HasPrefix. intros H1%bool_decide_eq_true H2%bool_decide_eq_true. by eapply prefix_weak_total. Qed.

Definition disjoint_prefix (p q : string) : bool :=
  negb (bool_decide (bytes p `prefix_of` bytes q)) && negb (bool_decide (bytes q `prefix_of` bytes p)).
Lemma disjoint_prefix_spec path p q : disjoint_prefix p q = true -> HasPrefix path p = true -> HasPrefix path q = false.
Proof.
  unfold disjoint_prefix. intros [H1 H2]%andb_true_iff Hp. destruct (HasPrefix path q) eqn:Hq; [|done].
  apply negb_true_iff, bool_decide_eq_false in H1, H2. by destruct (both_prefixes _ _ _ Hp Hq).
Qed.

Definition sensitive_paths : list string :=
  ["/api/v1/builds/cleanup-failed"; "/api/v1/gpg/generate"; "/health"; "/api/v1/instances/shell"; "/api/v1/projects";
   "/api/v1/projects/members"; "/api/v1/projects/policy"; "/api/v1/builds/delete"; "/api/v1/iam/sessions/revoke-all";
   "/api/v1/iam/device/decision"].

Lemma plain_prefix path prefix : HasPrefix path prefix = true ->
  forallb (disjoint_prefix prefix) admin_prefixes = true -> forallb (fun q => negb (HasPrefix q prefix)) sensitive_paths = true ->
  systemAdminPath path = false /\ path ∉ sensitive_paths.
Proof.
  intros Hp Hd Hs. assert (path ∉ sensitive_paths) as Hn.
  { intros Hin. rewrite forallb_forall in Hs. specialize (Hs path (proj1 (list_elem_of_In _ _) Hin)). by rewrite Hp in Hs. }
  split; [|done]. unfold systemAdminPath. apply orb_false_iff. split.
  - apply not_true_is_false. intros (q & Hq & Hqp)%existsb_exists. rewrite forallb_forall in Hd.
    by rewrite (disjoint_prefix_spec path prefix q (Hd q Hq) Hp) in Hqp.
  - apply bool_decide_eq_false. intros Hin. apply Hn. unfold sensitive_paths. set_solver.
Qed.

Lemma step_up_paths method path : stepUpRequired method path = true -> systemAdminPath path = true \/ path ∈ sensitive_paths.
Proof. unfold stepUpRequired, sensitive_paths. intros H. repeat case_decide; try done; [right; set_solver..|by left]. Qed.

Lemma public_exact path : path ∈ public_paths -> systemAdminPath path = false /\ path ∉ sensitive_paths.
Proof.
  intros H. assert (forallb (fun p => negb (systemAdminPath p) && negb (bool_decide (p ∈ sensitive_paths))) public_paths = true) as Hf
    by (vm_compute; reflexivity).
  rewrite forallb_forall in Hf. specialize (Hf path (proj1 (list_elem_of_In _ _) H)). apply andb_true_iff in Hf as [H1 H2].
  split; [by apply negb_true_iff|]. by apply negb_true_iff, bool_decide_eq_false in H2.
Qed.

(** What is open to everyone carries no authority: a path that needs no
    principal is neither one for system administrators nor one that asks for a
    fresh authentication, with any method. *)
Theorem open_paths_carry_no_authority (path : string) (Hp : publicControlPlanePath path = true) :
  systemAdminPath path = false /\ forall method, stepUpRequired method path = false.
Proof.
  assert (systemAdminPath path = false /\ path ∉ sensitive_paths) as [H1 H2].
  { unfold publicControlPlanePath in Hp. apply orb_true_iff in Hp as [Hp|Hp]; [|by apply (plain_prefix _ _ Hp); vm_compute].
    apply orb_true_iff in Hp as [Hp|Hp]; [|by apply (plain_prefix _ _ Hp); vm_compute].
    apply orb_true_iff in Hp as [Hp%bool_decide_eq_true|Hp%bool_decide_eq_true]; [by apply public_exact|].
    apply (plain_prefix path backchannel_prefix); [|by vm_compute|by vm_compute].
    unfold backchannelProviderID in Hp. by destruct (HasPrefix path backchannel_prefix). }
  split; [done|]. intros method. apply not_true_is_false. intros [H|H]%step_up_paths; [congruence|done].
Qed.

Lemma open_paths_carry_no_authority_witness : systemAdminPath "/api/v1/iam/providers/corp/backchannel-logout" = false.
Proof. apply (open_paths_carry_no_authority "/api/v1/iam/providers/corp/backchannel-logout"). vm_compute. reflexivity. Defined.

(** ** Two things the gate does not do *)
Definition bare_request (method path : string) : http_request := mkRequest method path (fun _ => "") (fun _ => "") None.

(** The health probe is not open: without credentials, and unless the legacy
    mode runs without a key, it is refused with 401, and with a session of anyone
    but a system administrator with 403. *)
Theorem health_probe_closed (s : server) (r : http_request) (env : ambient) (d : iam_db) (Hpath : rq_path r = "/health")
    (Hm : rq_method r = "GET") (Hmode : ~ (authMode s = ModeLegacy /\ cf_APIKey (sv_config s) = "")) :
  (rq_header r "X-API-Key" = "" -> rq_header r "Authorization" = "" ->
     sd_answer (apiKeyAuthMiddleware s r env d) = Refused 401 (IAMMessage "unauthorized: invalid or missing identity")) /\
  (forall p d', authenticateRequest s r 0 env d = (Ok p, d') -> pc_system_admin p = false ->
     sd_answer (apiKeyAuthMiddleware s r env d) = Refused 403 (IAMMessage "system administrator role required")).
Proof.
  unfold apiKeyAuthMiddleware. rewrite Hpath, Hm. split.
  - intros Hk Hb. assert (authenticateRequest s r 0 env d = (Err BearerRequired, d)) as ->; [|done].
    unfold authenticateRequest. rewrite Hk, Hb. change (TrimSpace "") with "". change (extractBearerToken "") with "". cbn.
    rewrite (decide_False (P := _ /\ _ /\ _)) by (intros (_ & Hne & He); apply Hne; symmetry; exact He). by rewrite (decide_False (P := _ /\ _)) by done.
  - intros p d' -> Hp. cbn. by rewrite Hp.
Qed.

Lemma step_up_refused s r p k env d q e d' : authorizeStepUp s r p k env d = (Err (q, e), d') -> q = no_principal.
Proof.
  unfold authorizeStepUp. intros H. case_decide; [destruct (pc_step_up p); [done|]; case_decide; [congruence|]|].
  - destruct (authenticateRequest _ _ _ _ _) as [[x|x] d1]; [|congruence]. case_decide; [congruence|]. destruct (pc_step_up x); congruence.
  - repeat case_decide; congruence.
Qed.

(** The record of a refused step-up names nobody: whenever a request that was
    authenticated lacks the fresh authentication, the audit record is written with
    an empty actor and no subject, whoever the request was authenticated as. *)
Theorem refused_step_up_anonymous (s : server) (r : http_request) (env : ambient) (d : iam_db) (Hs : sv_repository s = true)
    (H : sd_answer (apiKeyAuthMiddleware s r env d) = Refused 428 StepUpRequired) :
  (exists p d', authenticateRequest s r 0 env d = (Ok p, d')) /\
  sd_audit (apiKeyAuthMiddleware s r env d) =
    [mkAudit "" "" "request.step_up" "http_request" (rq_path r) "" "denied"].
Proof.
  unfold apiKeyAuthMiddleware in *. destruct (publicControlPlanePath _); [done|]. case_decide; [done|].
  destruct (authenticateRequest s r 0 env d) as [[p|e] d1]; [|done]. destruct (systemAdminPath _ && _); [done|].
  destruct (stepUpRequired _ _); [|done]. destruct (authorizeStepUp _ _ _ _ _ _) as [[q|[q e]] d2] eqn:E; [done|]. cbn.
  apply step_up_refused in E as ->. split; [by exists p, d1|]. unfold audit. by rewrite Hs.
Qed.

(** ** Providers *)
Lemma provider_of_found issuer l found : found <> "" -> (forall x, x ∈ l -> x.1 <> "") ->
  provider_of issuer l found = if decide (exists_row (fun x => x.2 = issuer) l) then "" else found.
Proof.
  intros Hf. induction l as [|[id c] l IH]; intros Hid; cbn.
  - by rewrite decide_False by (intros H; by apply Exists_nil in H).
  - destruct (decide (c <> issuer)) as [Hc|Hc].
    + rewrite IH by (intros x Hx; apply Hid; set_solver). apply decide_ext. unfold exists_row. rewrite Exists_cons. cbn. tauto.
    + rewrite !decide_True; [done| |done]. apply Exists_cons. left. cbn. by apply dec_stable.
Qed.

Definition the_only (l : list (string * string)) : string := match l with [x] => x.1 | _ => "" end.
Lemma provider_of_only issuer l : (forall x, x ∈ l -> x.1 <> "") ->
  provider_of issuer l "" = the_only (filter (fun x => x.2 = issuer) l).
Proof.
  induction l as [|[id c] l IH]; intros Hid; [done|]. cbn [provider_of]. rewrite filter_cons. cbn [snd].
  destruct (decide (c <> issuer)) as [Hc|Hc].
  - rewrite (decide_False (P := c = issuer)) by done. apply IH. intros x Hx. apply Hid. set_solver.
  - apply dec_stable in Hc as Hc'. rewrite (decide_True (P := c = issuer)) by done. cbn.
    rewrite (decide_False (P := "" <> "")) by (by intros []).
    rewrite provider_of_found; [|apply (Hid (id, c)); set_solver|intros x Hx; apply Hid; set_solver].
    destruct (filter (fun x => x.2 = issuer) l) as [|y l'] eqn:E; cbn.
    + rewrite decide_False; [done|]. intros (x & Hx & Hxi)%Exists_exists.
      assert (x ∈ filter (fun x => x.2 = issuer) l) as Hin by (by apply list_elem_of_filter). rewrite E in Hin. by apply elem_of_nil in Hin.
    + rewrite decide_True; [done|]. assert (y ∈ filter (fun x => x.2 = issuer) l) as [Hy Hin]%list_elem_of_filter by (rewrite E; set_solver).
      apply Exists_exists. eauto.
Qed.

(** The provider of a session does not depend on the order a map is walked in:
    for every order the answer is the one provider with that issuer, and none if
    two providers share it or nobody has it. *)
Theorem provider_walk_order (issuer : string) (l l' : list (string * string)) (Hp : l ≡ₚ l')
    (Hid : forall x, x ∈ l -> x.1 <> "") :
  provider_of issuer l "" = provider_of issuer l' "" /\
  (forall id, id <> "" -> provider_of issuer l "" = id <-> filter (fun x => x.2 = issuer) l = [(id, issuer)]).
Proof.
  rewrite !provider_of_only; [|intros x Hx; apply Hid; by rewrite Hp|done]. split.
  - assert (filter (fun x => x.2 = issuer) l ≡ₚ filter (fun x => x.2 = issuer) l') as Hf by (by rewrite Hp).
    revert Hf. generalize (filter (fun x => x.2 = issuer) l) (filter (fun x : string * string => x.2 = issuer) l').
    intros a b Hf. pose proof (Permutation_length Hf) as Hlen.
    destruct a as [|x [|y a]], b as [|z [|w b]]; try done. by apply Permutation_singleton_inj in Hf as [= ->].
  - intros id Hne. split.
    + destruct (filter _ l) as [|[x c] [|y a]] eqn:E; cbn; [by intros <-| |by intros <-]. intros ->.
      assert ((id, c) ∈ filter (fun x => x.2 = issuer) l) as [Hc _]%list_elem_of_filter by (rewrite E; set_solver). cbn in Hc. by rewrite Hc.
    + by intros ->.
Qed.

Lemma provider_walk_order_witness :
  provider_of "https://b" [("a", "https://a"); ("b", "https://b")] "" = provider_of "https://b" [("b", "https://b"); ("a", "https://a")] "".
Proof.
  refine (proj1 (provider_walk_order "https://b" [("a", "https://a"); ("b", "https://b")] [("b", "https://b"); ("a", "https://a")]
    (perm_swap _ _ _) _)).
  intros x Hx. repeat (apply elem_of_cons in Hx as [->|Hx]; [discriminate|]). by apply elem_of_nil in Hx.
Defined.

(** ** Codes that people type *)
Lemma alphabet_letters c : c ∈ bytes deviceUserCodeAlphabet -> user_code_char c = true /\ upper_fold [c] = [c] /\
  c <> "-"%char /\ c <> " "%char.
Proof.
  intros H. assert (forallb (fun c => user_code_char c && bool_decide (upper_fold [c] = [c] /\ c <> "-"%char /\ c <> " "%char))
    (bytes deviceUserCodeAlphabet) = true) as Hf by (vm_compute; reflexivity).
  rewrite forallb_forall in Hf. specialize (Hf c (proj1 (list_elem_of_In _ _) H)). apply andb_true_iff in Hf as [H1 H2].
  apply bool_decide_eq_true in H2 as (? & ? & ?). done.
Qed.

Lemma times_class f n l : length l = n -> Forall (fun c => f c = true) l -> denotes (Times n (Cls f)) l.
Proof.
  revert l. induction n as [|n IH]; intros [|c l] Hl Hf; try done; [by constructor|].
  apply Forall_cons in Hf as [Hc Hf]. apply (d_cat _ _ [c] l); [by constructor|]. apply IH; [by injection Hl|done].
Qed.

Lemma hyphenated_matches l : length l = 8%nat -> Forall (fun c => user_code_char c = true) l ->
  MatchString user_code_pattern (hyphenate l) = true.
Proof.
  intros Hl Hf. unfold MatchString, hyphenate. rewrite bytes_of_bytes. apply accepts_spec. unfold user_code_pattern.
  apply d_cat; [|apply d_cat].
  - apply times_class; [rewrite length_take; lia|by apply Forall_take].
  - by constructor.
  - apply times_class; [rewrite length_drop; lia|by apply Forall_drop].
Qed.

Lemma upper_fold_cons c l : (N_of_ascii c < 128)%N -> upper_fold (c :: l) = upper_fold [c] ++ upper_fold l.
Proof.
  intros Hc. destruct l as [|b l]; [done|]. cbn [upper_fold app]. rewrite !decide_False by lia. done.
Qed.
Lemma upper_fold_fixed l : Forall (fun c => (N_of_ascii c < 128)%N /\ upper_fold [c] = [c]) l -> upper_fold l = l.
Proof. induction 1 as [|c l [H1 H2] _ IH]; [done|]. by rewrite upper_fold_cons, H2, IH. Qed.

Lemma alphabet_ascii c : c ∈ bytes deviceUserCodeAlphabet -> (N_of_ascii c < 128)%N /\ plain c = true.
Proof.
  intros H. assert (forallb (fun c => (N_of_ascii c <? 128)%N && plain c) (bytes deviceUserCodeAlphabet) = true) as Hf by (vm_compute; reflexivity).
  rewrite forallb_forall in Hf. specialize (Hf c (proj1 (list_elem_of_In _ _) H)). apply andb_true_iff in Hf as [H1 H2].
  split; [by apply N.ltb_lt|done].
Qed.

Definition typed (l : list ascii) : option string :=
  if decide (length l <> 8%nat) then None
  else if forallb (fun c => bool_decide (c ∈ bytes deviceUserCodeAlphabet)) l then Some (hyphenate l) else None.
Lemma typed_letters l : length l = 8%nat -> Forall (fun c => c ∈ bytes deviceUserCodeAlphabet) l -> typed l = Some (hyphenate l).
Proof.
  intros Hl Hf. unfold typed. rewrite decide_False by lia.
  assert (forallb (fun c => bool_decide (c ∈ bytes deviceUserCodeAlphabet)) l = true) as ->; [|done].
  apply forallb_forall. intros c Hc%list_elem_of_In. apply bool_decide_eq_true. rewrite Forall_forall in Hf. by apply Hf.
Qed.

Lemma hyphenated_normal l : length l = 8%nat -> Forall (fun c => c ∈ bytes deviceUserCodeAlphabet) l ->
  normalizeDeviceUserCode (hyphenate l) = Some (hyphenate l).
Proof.
  intros Hl Hf. set (h := take 4 l ++ ["-"%char] ++ drop 4 l).
  assert (Forall (fun c => c ∈ bytes deviceUserCodeAlphabet \/ c = "-"%char) h) as Hh.
  { apply Forall_app. split; [|apply Forall_cons; split; [by right|]].
    - eapply Forall_impl; [by apply Forall_take|]. by left.
    - eapply Forall_impl; [by apply Forall_drop|]. by left. }
  change (typed (filter (fun c => c <> "-"%char /\ c <> " "%char) (upper_fold (bytes (TrimSpace (hyphenate l))))) = Some (hyphenate l)).
  rewrite (TrimSpace_plain (hyphenate l)).
  2:{ unfold hyphenate. rewrite bytes_of_bytes. eapply Forall_impl; [exact Hh|]. intros c [Hc| ->]; [by apply alphabet_ascii|done]. }
  assert (bytes (hyphenate l) = h) as -> by (unfold hyphenate; by rewrite bytes_of_bytes). rewrite upper_fold_fixed.
  2:{ eapply Forall_impl; [exact Hh|]. intros c [Hc| ->]; [|done]. split; [by apply alphabet_ascii|by apply alphabet_letters]. }
  assert (filter (fun c => c <> "-"%char /\ c <> " "%char) h = l) as ->; [|by apply typed_letters].
  assert (forall k, Forall (fun c => c ∈ bytes deviceUserCodeAlphabet) k -> filter (fun c => c <> "-"%char /\ c <> " "%char) k = k) as Hk.
  { induction 1 as [|c k Hc _ IH]; [done|]. rewrite filter_cons, decide_True, IH by (by apply alphabet_letters). done. }
  unfold h. rewrite filter_app, filter_app, (Hk (take 4 l)), (Hk (drop 4 l)) by (by apply Forall_take || by apply Forall_drop).
  assert (filter (fun c => c <> "-"%char /\ c <> " "%char) ["-"%char] = []) as -> by reflexivity. apply take_drop.
Qed.

Lemma code_letters value : Forall (fun c => c ∈ bytes deviceUserCodeAlphabet) (code_letter <$> value).
Proof.
  apply Forall_fmap, Forall_true. intros b. change (code_letter b ∈ bytes deviceUserCodeAlphabet). unfold code_letter.
  destruct (bytes deviceUserCodeAlphabet !! N.to_nat (N.land (N_of_ascii b) 31)) as [c|] eqn:E.
  { change (c ∈ bytes deviceUserCodeAlphabet). by eapply list_elem_of_lookup_2. }
  exfalso.
  apply lookup_ge_None in E. assert (N.land (N_of_ascii b) 31 < 32)%N as Hn.
  { change 31%N with (N.ones 5). rewrite N.land_ones. apply N.mod_lt. done. }
  change (length (bytes deviceUserCodeAlphabet)) with 32%nat in E. lia.
Qed.


Lemma lowered c : c ∈ bytes deviceUserCodeAlphabet -> plain (lower_ascii c) = true /\ (N_of_ascii (lower_ascii c) < 128)%N /\
  upper_fold [lower_ascii c] = [c].
Proof.
  intros H. assert (forallb (fun c => bool_decide (plain (lower_ascii c) = true /\ (N_of_ascii (lower_ascii c) < 128)%N /\
    upper_fold [lower_ascii c] = [c])) (bytes deviceUserCodeAlphabet) = true) as Hf by (vm_compute; reflexivity).
  rewrite forallb_forall in Hf. specialize (Hf c (proj1 (list_elem_of_In _ _) H)). by apply bool_decide_eq_true in Hf.
Qed.
Lemma lower_letters l : Forall (fun c => c ∈ bytes deviceUserCodeAlphabet) l -> Forall (fun c => plain c = true) (lower_ascii <$> l).
Proof. intros H. apply Forall_fmap. eapply Forall_impl; [exact H|]. intros c Hc. by apply lowered. Qed.
Lemma upper_lower l : Forall (fun c => c ∈ bytes deviceUserCodeAlphabet) l ->
  filter (fun c => c <> "-"%char /\ c <> " "%char) (upper_fold (lower_ascii <$> l)) = l.
Proof.
  induction 1 as [|c l Hc _ IH]; [done|]. rewrite fmap_cons, upper_fold_cons by (by apply lowered).
  destruct (lowered c Hc) as (_ & _ & ->). cbn [app]. rewrite filter_cons, decide_True, IH by (by apply alphabet_letters). done.
Qed.

(** The codes people type: a code of the server survives being read back, with
    or without its hyphen and in lower case, and the table accepts it; and whatever
    is typed, the reader gives nothing or a code the table accepts and which reads
    as itself. *)
Theorem user_codes_read_back (value : list ascii) (Hv : length value = 8%nat) (raw code : string)
    (Hr : normalizeDeviceUserCode raw = Some code) :
  (normalizeDeviceUserCode (randomDeviceUserCode value) = Some (randomDeviceUserCode value) /\
   normalizeDeviceUserCode (of_bytes (lower_ascii <$> (code_letter <$> value))) = Some (randomDeviceUserCode value) /\
   MatchString user_code_pattern (randomDeviceUserCode value) = true) /\
  (normalizeDeviceUserCode code = Some code /\ MatchString user_code_pattern code = true).
Proof.
  assert (forall l, Forall (fun c => c ∈ bytes deviceUserCodeAlphabet) l -> Forall (fun c => user_code_char c = true) l) as Hchar.
  { intros l Hl. eapply Forall_impl; [exact Hl|]. intros c Hc. by apply alphabet_letters. }
  pose proof (code_letters value) as Hl. split; [split_and!|].
  - apply hyphenated_normal; [by rewrite length_fmap|done].
  - unfold randomDeviceUserCode. set (l := code_letter <$> value) in *. assert (length l = 8%nat) as Hlen by (by unfold l; rewrite length_fmap).
    change (typed (filter (fun c => c <> "-"%char /\ c <> " "%char) (upper_fold (bytes (TrimSpace (of_bytes (lower_ascii <$> l)))))) = Some (hyphenate l)).
    rewrite TrimSpace_plain, bytes_of_bytes; [|rewrite bytes_of_bytes; by apply lower_letters].
    by rewrite upper_lower, typed_letters.
  - apply hyphenated_matches; [by rewrite length_fmap|by apply Hchar].
  - unfold normalizeDeviceUserCode in Hr. cbv zeta in Hr. case_decide as Hlen; [done|]. destruct (forallb _ _) eqn:Hf; [|done].
    injection Hr as <-. rewrite forallb_forall in Hf.
    match goal with |- context [hyphenate ?l] => set (k := l) in * end.
    assert (Forall (fun c => c ∈ bytes deviceUserCodeAlphabet) k) as Hk.
    { apply Forall_forall. intros c Hc%list_elem_of_In. apply Hf in Hc. by apply bool_decide_eq_true in Hc. }
    split; [by apply hyphenated_normal|apply hyphenated_matches; [done|by apply Hchar]].
Qed.

Lemma user_codes_read_back_witness : normalizeDeviceUserCode "abcd efgh" = Some "ABCD-EFGH" /\
  MatchString user_code_pattern "ABCD-EFGH" = true.
Proof.
  assert (normalizeDeviceUserCode "abcd efgh" = Some "ABCD-EFGH") as H by (vm_compute; reflexivity).
  split; [exact H|]. exact (proj2 (proj2 (user_codes_read_back (bytes "01234567") eq_refl "abcd efgh" "ABCD-EFGH" H))).
Defined.

(** ** A session that was handed out works *)
Lemma authorize_row newID p identity policy clk d q d' : AuthorizeSession newID p identity policy clk d = Ok (q, d') ->
  exists x, x ∈ iam_sessions d' /\ is_token_hash x = ei_token_hash identity /\ is_id x = pc_session_id q /\
    is_subject_id x = pc_subject_id q /\ is_revoked_at x = None /\ is_last_seen_at x = clk 2%nat /\
    pc_token_issued_at q = Some (is_issued_at x) /\ pc_token_expires_at q = Some (is_expires_at x) /\
    past_watermark d' x /\ 0 < sp_idle_timeout policy /\ 0 < sp_max_lifetime policy /\ ei_token_hash identity <> "".
Proof.
  intros H. unfold AuthorizeSession in H. destruct (ei_issued_at identity) as [issued|] eqn:Hiss; [|done].
  destruct (ei_expires_at identity) as [expires|] eqn:Hexp; [|done]. do 4 inv_ok_step H. rename a into d1.
  destruct (first_where _ (iam_security d1)) as [w|] eqn:Hw; [|done]. apply first_where_some in Hw as [Hw Hws].
  do 2 inv_ok_step H. destruct a as [x d2]. injection H as <- <-. cbn. set (row := new_session _ _ _ _ _ _) in *.
  assert (exists y, (y = row \/ (y ∈ iam_sessions d1 /\ is_token_hash y = is_token_hash row /\ is_subject_id y = is_subject_id row /\
    is_issued_at y = issued /\ is_revoked_at y = None)) /\ x = touch_seen (clk 2%nat) y /\ x ∈ iam_sessions d2 /\
    iam_security d2 = iam_security d1) as (y & Hy & -> & Hin & Hsec).
  { unfold upsert_session in E0. do 2 inv_ok_step E0. cbv zeta in E0. destruct (first_where _ (iam_sessions d1)) as [y|] eqn:Hy.
    - inv_ok_step E0. injection E0 as <- <-. apply first_where_some in Hy as [Hy Hyh]. destruct Hc5 as (Hsub & Hyi & _ & (Hrev & _)).
      exists y. split_and!; [by right|done| |done]. apply elem_of_update_where. exists y. split; [done|]. by left.
    - do 2 inv_ok_step E0. injection E0 as <- <-. exists row. split_and!; [by left|done| |done].
      apply elem_of_app. right. by apply list_elem_of_singleton. }
  exists (touch_seen (clk 2%nat) y). assert (is_token_hash y = ei_token_hash identity /\ is_subject_id y = pc_subject_id p /\
    is_issued_at y = issued /\ is_revoked_at y = None) as (Y1 & Y2 & Y3 & Y4) by (destruct Hy as [->|(_ & -> & -> & -> & ->)]; done).
  split_and!; try done; [|lia|lia|by intros ?; apply Hc; right].
  apply Exists_exists. exists w. rewrite Hsec. split; [done|]. cbn. rewrite Y2, Y3. done.
Qed.

Lemma plain_sextet n : plain (sextet n) = true.
Proof.
  unfold sextet. set (l := bytes _). assert (forallb plain l = true) as Hf by (vm_compute; reflexivity). rewrite forallb_forall in Hf.
  destruct (l !! N.to_nat n) as [c|] eqn:E; [|done]. apply Hf, list_elem_of_In. by eapply list_elem_of_lookup_2.
Qed.
Lemma plain_encoding l : Forall (fun c => plain c = true) (RawURLEncoding l).
Proof.
  remember (length l) as n eqn:Hn. revert l Hn. induction (lt_wf n) as [n _ IH]. intros l ->.
  destruct l as [|a [|b [|c l]]]; cbn [RawURLEncoding]; repeat (apply Forall_cons; split; [apply plain_sextet|]); try apply Forall_nil; try done.
  apply (IH (length l)); [cbn; lia|done].
Qed.

Lemma plain_session value : Forall (fun c => plain c = true) (bytes (randomPlatformSession value)).
Proof.
  unfold randomPlatformSession. rewrite bytes_app, bytes_of_bytes. apply Forall_app. split; [|apply plain_encoding].
  by repeat (apply Forall_cons; split; [done|]).
Qed.

Lemma cut_first c l l' : c ∉ l -> cut_byte c (l ++ c :: l') = Some (l, l').
Proof.
  induction l as [|b l IH]; intros Hc; cbn; [by rewrite decide_True|].
  rewrite decide_False by set_solver. rewrite IH by set_solver. done.
Qed.

Lemma bearer_of token : Forall (fun c => plain c = true) (bytes token) -> token <> "" ->
  extractBearerToken ("Bearer " +:+ token) = token.
Proof.
  intros Hp Hne. unfold extractBearerToken.
  assert (TrimSpace ("Bearer " +:+ token) = "Bearer " +:+ token) as ->.
  { apply bytes_inj. unfold TrimSpace. rewrite bytes_of_bytes, bytes_app.
    change (bytes "Bearer " ++ bytes token) with ("B"%char :: bytes "earer " ++ bytes token). rewrite trim_left_plain by done.
    change ("B"%char :: bytes "earer " ++ bytes token) with (bytes "Bearer " ++ bytes token). rewrite rev_app_distr.
    destruct (rev (bytes token)) as [|b m] eqn:E.
    - destruct Hne. apply bytes_nil. rewrite <- (rev_involutive (bytes token)), E. done.
    - cbn [app]. rewrite trim_left_rev_plain; [by rewrite app_comm_cons, rev_app_distr, <- E, !rev_involutive|].
      rewrite Forall_forall in Hp. apply Hp, list_elem_of_In, in_rev. rewrite E. by left. }
  rewrite bytes_app. change (bytes "Bearer " ++ bytes token) with (["B"; "e"; "a"; "r"; "e"; "r"]%char ++ " "%char :: bytes token).
  rewrite cut_first by set_solver.
  assert (EqualFold (of_bytes ["B"; "e"; "a"; "r"; "e"; "r"]%char) "Bearer" = true) as -> by (vm_compute; reflexivity).
  by rewrite of_bytes_bytes, TrimSpace_plain.
Qed.

Lemma platform_accepts raw policy t d x : iam_inv d -> x ∈ iam_sessions d -> is_token_hash x = token_hash raw -> raw <> "" ->
  0 < sp_idle_timeout policy -> 0 < sp_max_lifetime policy -> session_fresh policy t x -> past_watermark d x ->
  exists u d', u ∈ iam_subjects d /\ su_id u = is_subject_id x /\ AuthorizePlatformSession raw policy t d = Ok (session_principal u x, d').
Proof.
  intros Hi Hx Hh Hraw H1 H2 Hf Hw. destruct (ii_sessions d Hi) as (_ & S2 & S3 & _). destruct (ii_security d Hi) as (_ & W2).
  assert (exists_row (fun u => su_id u = is_subject_id x) (iam_subjects d)) as Hex.
  { destruct (S3 x Hx) as [_ (w & -> & Hw')%list_elem_of_fmap]. pose proof (W2 w Hw') as (u & Hu & Hin)%list_elem_of_fmap.
    apply Exists_exists. by exists u. }
  unfold AuthorizePlatformSession. rewrite decide_True by (intros [?|[?|?]]; [done|lia|lia]). cbv zeta. fold (token_hash raw).
  destruct (first_where _ (iam_sessions d)) as [y|] eqn:Hy.
  - apply first_where_some in Hy as [Hy (Hyh & _)].
    assert (y = x) as -> by (apply (key_unique is_token_hash (iam_sessions d)); [done|done|done|congruence]).
    destruct (first_where _ (iam_subjects d)) as [u|] eqn:Hu; [apply first_where_some in Hu as [Hu Hui]; eauto|].
    apply Exists_exists in Hex as (u & Hin & Hui). by destruct (first_where_none _ _ Hu u Hin).
  - destruct (first_where_none _ _ Hy x Hx). by split_and!.
Qed.

Lemma issued_steps s identity k env d : rtc iam_step d (issueFederatedSession s identity k env d).2.
Proof.
  unfold issueFederatedSession. cbv zeta. match goal with |- rtc _ _ (if ?b then _ else _).2 => destruct b; [reflexivity|] end.
  destruct (ObserveSubject _ _ _ _ _) as [[p d1]|e] eqn:H1; [|reflexivity]. apply im_observe in H1.
  destruct (AuthorizeSession _ _ _ _ _ _) as [[q d2]|e] eqn:H2; cbn; [|by apply rtc_once].
  apply im_authorize in H2. eapply rtc_l; [exact H1|by apply rtc_once].
Qed.

(** C16. A session that was handed out works: a client that exchanged a provider's
    identity and sends the token it got, after whatever else happened to the
    identity tables, is authenticated as the subject of that identity, in that very
    session, and as a system administrator exactly if the subject is one.  The
    session must be neither revoked, expired, too old nor idle for too long, and
    the sessions of the subject not revoked as a whole since it was issued; and
    the server must not take the request for one of the old kind: the client
    sends no API key, the token is not the API key itself, and the server is not
    in the legacy mode without a key, where everybody is let in anonymously. *)
Theorem exchanged_session_works (s : server) (identity : ExternalIdentity) (k k' : nat) (env env' : ambient) (d d1 d2 : iam_db)
    (r : http_request) (raw : string) (p : Principal) (issued expires : time) (R : iam_reachable d) (Hs : sv_repository s = true)
    (H : issueFederatedSession s identity k env d = (Ok (raw, p), d1)) (Hlater : rtc iam_step d1 d2)
    (Hr : rq_header r "Authorization" = "Bearer " +:+ raw) (Hkey : TrimSpace (rq_header r "X-API-Key") = "")
    (Hraw : raw <> cf_APIKey (sv_config s)) (Hmode : authMode s = ModeLegacy -> cf_APIKey (sv_config s) <> "")
    (Hti : pc_token_issued_at p = Some issued) (Hte : pc_token_expires_at p = Some expires)
    (Hexp : am_clock env' k' 0%nat < expires) (Hage : am_clock env' k' 0%nat - age_bound (iamSessionPolicy s) < issued)
    (Hlive : forall x, x ∈ iam_sessions d2 -> is_id x = pc_session_id p ->
       is_revoked_at x = None /\ am_clock env' k' 0%nat - idle_bound (iamSessionPolicy s) < is_last_seen_at x)
    (Hmark : forall w, w ∈ iam_security d2 -> sc_subject_id w = pc_subject_id p -> sc_tokens_valid_after w < issued) :
  exists q d3, authenticateRequest s r k' env' d2 = (Ok q, d3) /\ pc_session_id q = pc_session_id p /\
    pc_subject_id q = pc_subject_id p /\ pc_issuer q = ei_issuer identity /\ pc_subject q = ei_subject identity /\
    pc_system_admin q = isIdentityAdmin s (ei_issuer identity) (ei_subject identity).
Proof.
  pose proof (issued_steps s identity k env d) as S. rewrite H in S. cbn in S.
  destruct (iam_steps_good d d1 (iam_reachable_inv d R) S) as [Hi1 _]. unfold issueFederatedSession in H. cbv zeta in H.
  match type of H with (if ?b then _ else _) = _ => destruct b; [done|] end.
  destruct (ObserveSubject _ _ _ _ _) as [[p1 dx]|e] eqn:E1; [|done].
  destruct (AuthorizeSession _ _ _ _ _ _) as [[p2 dy]|e] eqn:E2; [|done]. injection H as <- <- <-.
  destruct (observe_principal _ _ _ _ _ _ _ E1) as (O1 & O2 & O3 & O4 & u & Hu & Hui & Hus & Hun).
  destruct (authorize_principal _ _ _ _ _ _ _ _ E2) as (G1 & G2 & G3 & G4 & G5 & G6 & _).
  destruct (authorize_row _ _ _ _ _ _ _ _ E2) as (x & Hx & Hh & Hxi & Hxs & Hxr & Hseen & Hiss & Hex & Hw & Hp1 & Hp2 & _).
  cbn in Hti, Hte, Hh. simplify_eq/=. set (raw := randomPlatformSession _) in *.
  destruct (iam_steps_good dy d2 Hi1 Hlater) as [Hi2 (L1 & L2 & L3)].
  destruct (L3 x Hx) as (y & Hy & [[= Y1 Y2 Y3 Y4 Y5 Y6 Y7 Y8 Y9 Y10 Y11 Y12] _]).
  assert (past_watermark d2 y) as Hpast.
  { apply Exists_exists in Hw as (w & Hw & Hws & _). destruct (L2 w Hw) as (w' & Hw' & Hws' & _).
    apply Exists_exists. exists w'. split_and!; [done|congruence|]. rewrite Y6. apply Hmark; [done|congruence]. }
  destruct (Hlive y Hy) as [Hrev Hseen']; [congruence|].
  assert (raw <> "") as Hne by (by intros ?). pose proof (plain_session (am_random env k)) as Hplain. fold raw in Hplain.
  destruct (platform_accepts raw (iamSessionPolicy s) (am_clock env' k' 0%nat) d2 y) as (v & d3 & Hv & Hvi & HA); try done.
  { congruence. }
  { split_and!; [done|by rewrite Y8|done|by rewrite Y6]. }
  exists (platform_principal s (am_wall env' k') (session_principal v y)), d3.
  destruct (L1 u) as (u' & Hu' & U1 & U2 & U3); [by rewrite G6|].
  assert (v = u') as ->.
  { apply (key_unique su_id (iam_subjects d2)); [apply Hi2|done|done|]. congruence. }
  split_and!; cbn; [|congruence..]. unfold authenticateRequest. rewrite Hr, Hkey, bearer_of by done. cbv zeta.
  rewrite (decide_True (P := ("" : string) = "")) by done.
  rewrite (decide_False (P := (_ \/ _) /\ _)) by (by intros (_ & _ & ?)).
  rewrite (decide_False (P := _ = ModeLegacy /\ _)) by (by intros [? ?]; destruct Hmode).
  rewrite (decide_False (P := raw = "" \/ _)) by (intros [?|?]; congruence).
  assert (HasPrefix raw "pe1_" = true) as ->; [|by rewrite HA].
  unfold raw, randomPlatformSession, HasPrefix. apply bool_decide_eq_true. rewrite bytes_app. by apply prefix_app_r.
Qed.






(** ** Revoking over the network *)
Lemma revoke_owned d requester sessionID reason now x d' : iam_inv d ->
  RevokeSession requester sessionID reason false now d = Ok (x, d') -> is_subject_id x = pc_subject_id requester /\ revoked x.
Proof.
  intros Hi H. destruct (ii_sessions d Hi) as (S1 & Hok). pose proof (ii_sessions d Hi) as Hs. unfold RevokeSession in H. cbv zeta in H.
  set (root := filter _ _) in H. destruct (lineage _ _ _) as [ids|] eqn:Hl; [|done].
  pose proof (proj2 (revoke_lineage d requester sessionID false ids Hs) Hl) as Hids. fold root in Hids. inv_ok_step H.
  set (f := revoke_session _ _ _) in H. destruct (first_where _ _) as [y|] eqn:Hy; [|done]. injection H as <- _.
  apply first_where_some in Hy as [(z & Hz & [[Hzi ->]|[Hzi ->]])%elem_of_update_where [Hyi Hyids]]; [|done].
  pose proof (revoke_le (null_if_empty (pc_subject_id requester)) reason now z) as [[Hst _] Hr]. fold f in Hst, Hr.
  split; [|done]. injection Hst as E1 E2 _. rewrite E2. assert (root <> []) as Hne by (by apply (Hids (is_id z))).
  destruct root as [|w l] eqn:Eroot; [done|]. assert (w ∈ root) as [[Hwi [?|Hws]] Hw]%list_elem_of_filter by (rewrite Eroot; set_solver); [done|].
  assert (w = z) as -> by (apply (key_unique is_id (iam_sessions d)); [done|done|done|congruence]).
  unfold null_if_empty in Hws. case_decide; [done|]. by injection Hws.
Qed.

(** Who may end a session: a request that ended one did so for a session of the
    subject it was authenticated as, or as the same person with a fresh
    authentication and the administrator role. *)
Theorem session_ended_by_its_owner (uuid_Parse : string -> bool) (s : server) (r : http_request) (env : ambient) (d : iam_db)
    (p : Principal) (ended : list iam_session) (R : iam_reachable d) (Hm : rq_method r = "DELETE") (Hp : rq_principal r = Some p)
    (H : sd_answer (handleIAMSessions uuid_Parse s r env d) = Answered ended) :
  exists x, ended = [x] /\ (is_subject_id x = pc_subject_id p \/
    exists q, pc_system_admin q = true /\ pc_step_up q = true /\ pc_issuer q = pc_issuer p /\ pc_subject q = pc_subject p).
Proof.
  pose proof (iam_reachable_inv d R) as Hi. unfold handleIAMSessions in H. rewrite Hp in H. cbv zeta in H.
  match type of H with sd_answer (if ?b then _ else _) = _ => destruct b; [done|] end.
  rewrite Hm in H. rewrite (decide_False (P := "DELETE" = "GET")), (decide_True (P := "DELETE" = "DELETE")) in H by done.
  destruct (uuid_Parse _); [|done]. set (id := if decide _ then _ else _) in H.
  destruct (RevokeSession p id "user_requested" false _ d) as [[x d1]|e] eqn:E.
  { injection H as <-. exists x. split; [done|]. left. by eapply (revoke_owned d). }
  clearbody id. destruct (decide (pc_system_admin p = true /\ pc_step_up p = false)) as [[Ha Hs]|Hn].
  - destruct (authorizeStepUp s r p 1 env d) as [[q|e1] d1] eqn:E1.
    + destruct (stepped_up _ _ _ _ _ _ _ _ E1) as (Hqs & Hqi & Hqn & _).
      destruct (decide (pc_system_admin q = true /\ pc_step_up q = true)) as [[Hqa _]|]; [|done].
      destruct (RevokeSession q id _ true _ d1) as [[x d2]|e2]; [|done]. injection H as <-. exists x. split; [done|]. right. by exists q.
    + rewrite decide_False in H by (intros [_ ?]; congruence). done.
  - destruct (decide (pc_system_admin p = true /\ pc_step_up p = true)) as [[Hpa Hps]|]; [|done].
    destruct (RevokeSession p id _ true _ d) as [[x d2]|e2]; [|done]. injection H as <-. exists x. split; [done|]. right. by exists p.
Qed.

(** The members of a project cannot be served without a database: the handler
    calls a repository that is not there, where the handlers beside it answer 503. *)
Theorem members_need_database (uuid_Parse : string -> bool) (s : server) (r : http_request) (body : option member_request)
    (ps : list project) (env : ambient) (d : iam_db) (Hs : sv_repository s = false) (Hm : rq_method r = "GET") :
  sd_answer (handleProjectMembers uuid_Parse s r body ps env d) = Panicked.
Proof. unfold handleProjectMembers, authorizeProject. by rewrite Hs, Hm. Qed.

(** ** A run *)
Definition config_ex : server_config :=
  mkConfig "oidc" "" "" "https://idp.example" "portage" false [] ["idp:root"] [] 60 720 10 [] [].
Definition server_ex : server :=
  mkServer config_ex true ∅ ∅ None {["idp" := "https://idp.example"]} ∅
    {[identityAdminKey "https://idp.example" "root"]}.
Definition ambient_ex (id : uuid) (t : time) : ambient :=
  mkAmbient (fun _ => id) (fun _ _ => t) (fun _ => t) (fun _ => bytes "0123456789abcdef0123456789abcdef").
Definition with_token (method path token : string) : http_request :=
  mkRequest method path (fun k => if decide (k = "Authorization") then "Bearer " +:+ token else "") (fun _ => "") None.

(** Half past the second. *)
Definition half : clock := fun _ => 160 * Second + 500000000.
Definition cut_off_ex : iam_db := after (RevokeAllSessions principal_ex "u1" "lost laptop" false half issued_ex).
Definition early_ex : ambient := ambient_ex "s9" (160 * Second + 200000000).
Definition token_ex : string := randomPlatformSession (am_random early_ex 0%nat).
Definition survivor_ex : iam_db := (issueFederatedSession server_ex identity_ex 0 early_ex cut_off_ex).2.

(** Revoking all sessions does not reach into its own second: a session of the
    platform whose time of issue is in the second of the revocation, even before
    it, is accepted after it, because that time has a fraction and the watermark
    has none. *)
Theorem same_second_session_survives :
  iam_reachable issued_ex /\
  RevokeAllSessions principal_ex "u1" "lost laptop" false half issued_ex = Ok (2, cut_off_ex) /\
  trunc_second (am_wall early_ex 0%nat) = trunc_second (half 0%nat) /\ am_wall early_ex 0%nat < half 0%nat /\
  (exists p, (issueFederatedSession server_ex identity_ex 0 early_ex cut_off_ex).1 = Ok (token_ex, p) /\
     pc_subject_id p = "u1" /\ pc_token_issued_at p = Some (am_wall early_ex 0%nat)) /\
  (exists p, (authenticateRequest server_ex (with_token "GET" "/api/v1/iam/me" token_ex) 0 (ambient_ex "x" (161 * Second))
     survivor_ex).1 = Ok p /\ pc_subject_id p = "u1").
Proof.
  split; [exact issued_reachable|]. split; [vm_compute; reflexivity|]. split; [vm_compute; reflexivity|]. split; [vm_compute; reflexivity|].
  split; eexists; (split; [vm_compute; reflexivity|]); [split|]; vm_compute; reflexivity.
Qed.

(** ** Witnesses *)
Definition me_ex : http_request := with_token "GET" "/api/v1/iam/me" token_ex.
Definition exchanged_ex : iam_db := (issueFederatedSession server_ex identity_ex 0 (ambient_ex "s9" (170 * Second)) issued_ex).2.
Lemma exchanged_reachable : iam_reachable exchanged_ex.
Proof. unfold iam_reachable. etrans; [exact issued_reachable|]. apply issued_steps. Qed.

Definition soon_ex : ambient := ambient_ex "x" (180 * Second).
Definition late_ex : ambient := ambient_ex "x" (1000 * Second).
Definition principal_of (x : result auth_error Principal * iam_db) : Principal :=
  match x.1 with Ok p => p | Err _ => no_principal end.
Definition me_principal_ex : Principal := principal_of (authenticateRequest server_ex me_ex 0 soon_ex exchanged_ex).
Definition me_db_ex : iam_db := (authenticateRequest server_ex me_ex 0 soon_ex exchanged_ex).2.
Lemma me_authenticated : authenticateRequest server_ex me_ex 0 soon_ex exchanged_ex = (Ok me_principal_ex, me_db_ex).
Proof. vm_compute. reflexivity. Qed.

Lemma gate_admits_only_witness :
  match sd_answer (apiKeyAuthMiddleware server_ex me_ex soon_ex exchanged_ex) with
  | Answered r' => admitted server_ex me_ex r' (sd_db (apiKeyAuthMiddleware server_ex me_ex soon_ex exchanged_ex))
  | Refused status _ => status ∈ [401; 403; 428]
  | Panicked => False
  end.
Proof. apply (gate_admits_only server_ex me_ex soon_ex exchanged_ex); [vm_compute; reflexivity|discriminate]. Defined.

Lemma step_up_same_person_witness : pc_step_up me_principal_ex = true /\ pc_subject_id me_principal_ex = "u1".
Proof.
  assert (authorizeStepUp server_ex me_ex me_principal_ex 2 soon_ex me_db_ex = (Ok me_principal_ex, me_db_ex)) as H2 by (vm_compute; reflexivity).
  split; [|vm_compute; reflexivity].
  exact (proj1 (step_up_same_person server_ex me_ex soon_ex exchanged_ex me_db_ex me_db_ex me_principal_ex me_principal_ex
    exchanged_reachable me_authenticated H2)).
Defined.

Definition exchanged_principal_ex : Principal :=
  match (issueFederatedSession server_ex identity_ex 0 (ambient_ex "s9" (170 * Second)) issued_ex).1 with
  | Ok (_, p) => p | Err _ => no_principal end.
Lemma exchanged_session_works_witness : exists q d2,
  authenticateRequest server_ex me_ex 0 soon_ex exchanged_ex = (Ok q, d2) /\ pc_session_id q = "s9".
Proof.
  assert (issueFederatedSession server_ex identity_ex 0 (ambient_ex "s9" (170 * Second)) issued_ex =
    (Ok (token_ex, exchanged_principal_ex), exchanged_ex)) as H by (vm_compute; reflexivity).
  destruct (exchanged_session_works server_ex identity_ex 0 0 (ambient_ex "s9" (170 * Second)) soon_ex issued_ex exchanged_ex exchanged_ex me_ex
    token_ex exchanged_principal_ex (170 * Second) (5000 * Second) issued_reachable eq_refl H (rtc_refl _ _)) as (q & d2 & H1 & H2 & _).
  - vm_compute. reflexivity.
  - vm_compute. reflexivity.
  - vm_compute. discriminate.
  - vm_compute. discriminate.
  - vm_compute. reflexivity.
  - vm_compute. reflexivity.
  - vm_compute. reflexivity.
  - vm_compute. reflexivity.
  - apply (proj1 (Forall_forall (fun x => is_id x = pc_session_id exchanged_principal_ex -> is_revoked_at x = None /\
      am_clock soon_ex 0 0%nat - idle_bound (iamSessionPolicy server_ex) < is_last_seen_at x) _)).
    apply (bool_decide_unpack _). vm_compute. exact I.
  - apply (proj1 (Forall_forall (fun w => sc_subject_id w = pc_subject_id exchanged_principal_ex ->
      sc_tokens_valid_after w < 170 * Second) _)).
    apply (bool_decide_unpack _). vm_compute. exact I.
  -   exists q, d2. split; [exact H1|]. rewrite H2. vm_compute. reflexivity.
Defined.

Definition revoke_all_ex : http_request := with_token "POST" "/api/v1/iam/sessions/revoke-all" token_ex.
Lemma refused_step_up_anonymous_witness :
  sd_audit (apiKeyAuthMiddleware server_ex revoke_all_ex late_ex exchanged_ex) =
    [mkAudit "" "" "request.step_up" "http_request" "/api/v1/iam/sessions/revoke-all" "" "denied"].
Proof.
  refine (proj2 (refused_step_up_anonymous server_ex revoke_all_ex late_ex exchanged_ex eq_refl _)). vm_compute. reflexivity.
Defined.

Lemma health_probe_closed_witness :
  sd_answer (apiKeyAuthMiddleware server_ex (bare_request "GET" "/health") soon_ex exchanged_ex) =
    Refused 401 (IAMMessage "unauthorized: invalid or missing identity").
Proof.
  refine (proj1 (health_probe_closed server_ex (bare_request "GET" "/health") soon_ex exchanged_ex eq_refl eq_refl _) eq_refl eq_refl).
  intros [H _]. vm_compute in H. discriminate H.
Defined.


Definition end_session_ex : http_request :=
  mkRequest "DELETE" "/api/v1/iam/sessions" (fun _ => "") (fun k => if decide (k = "session_id") then "s2" else "") (Some me_principal_ex).
Lemma session_ended_by_its_owner_witness : exists x,
  sd_answer (handleIAMSessions (fun _ => true) server_ex end_session_ex soon_ex exchanged_ex) = Answered [x].
Proof.
  destruct (sd_answer (handleIAMSessions (fun _ => true) server_ex end_session_ex soon_ex exchanged_ex)) as [l|st why|] eqn:E;
    [|vm_compute in E; discriminate E..].
  destruct (session_ended_by_its_owner (fun _ => true) server_ex end_session_ex soon_ex exchanged_ex me_principal_ex l
    exchanged_reachable eq_refl eq_refl E) as (x & H & _).
  exists x. f_equal. exact H.
Defined.

Lemma members_need_database_witness :
  sd_answer (handleProjectMembers (fun _ => true) (server_ex <| sv_repository := false |>) (bare_request "GET" "/api/v1/projects/members")
    None [] soon_ex empty_iam) = Panicked.
Proof. apply members_need_database; reflexivity. Defined.
