(* ===== verification/ProjectPolicy.v ===== *)
(** * Project policies

    [internal/persistence/iam.go]: creating a project with its policy and its
    place in the scheduler's accounting, replacing a policy under an optimistic
    version, and reading it with the usage it limits; and the checks and handlers
    of [internal/server/iam.go] before them. *)

From S2P Require Import GoUrl GoPath Prelude GoStrings GoRegexp Schema Capabilities Budgets Fairness JobLedger Iam IamServer.
From Stdlib Require Import Ascii.
Open Scope string_scope.
Open Scope list_scope.
Open Scope Z_scope.

(** ** The table *)

(** The checks of [project_policies] over its migrations; a column of type
    [integer] holds 32 bits, one of type [bigint] 64. *)
Definition int4 (x : Z) : Prop := - 2 ^ 31 <= x < 2 ^ 31.
Definition positive4 (x : Z) : Prop := 0 < x < 2 ^ 31.
Definition positive8 (x : Z) : Prop := 0 < x <= int64_max.
#[export] Instance int4_dec x : Decision (int4 x). Proof. unfold int4. apply _. Defined.
#[export] Instance positive4_dec x : Decision (positive4 x). Proof. unfold positive4. apply _. Defined.
#[export] Instance positive8_dec x : Decision (positive8 x). Proof. unfold positive8. apply _. Defined.

Definition policy_shape (p : project_policy) : Prop :=
  Forall positive4 [pp_max_queued_jobs p; pp_max_active_jobs p; pp_max_daily_submissions p; pp_max_active_vcpus p;
    pp_max_active_memory_mib p; pp_max_active_disk_gib p; pp_max_claimed_attempts p; pp_max_provision_attempts p;
    pp_max_build_attempts p; pp_max_verify_attempts p; pp_max_publish_attempts p; pp_max_failures_per_hour p] /\
  Forall positive8 [pp_max_artifact_bytes_per_job p; pp_max_daily_build_seconds p; pp_max_daily_cloud_cost_microunits p;
    pp_version p] /\
  60 <= pp_abuse_cooldown_seconds p <= 604800 /\ 0 <= pp_abuse_generation p /\ 1 <= pp_priority_weight p <= 1000 /\
  30 <= pp_starvation_threshold_seconds p <= 86400.
#[export] Instance policy_shape_dec p : Decision (policy_shape p).
Proof. unfold policy_shape. apply _. Defined.

(** A row with the defaults of its columns. *)
Definition default_policy (projectID : uuid) (updatedBy : string) (now : time) : project_policy :=
  mkPolicyRow projectID false 100 4 500 32 131072 1000 4 4 4 4 4 34359738368 86400 1000000000 20 3600 None "" 0 100 300 1
    updatedBy now.

Inductive policy_error :=
| ProjectExists | PolicyConstraint | VersionConflict | PolicyUnknown | LimitInvalid.

(** ** A new project *)
Definition CreateProject (newID : uuid) (name description : string) (clk : clock) (d : db)
    : result policy_error (project * db) :=
  check ~ exists_row (fun p => pr_id p = newID \/ pr_name p = name) (projects d) else ProjectExists;;
  let p := mkProject newID name description in
  let d := d <| projects := projects d ++ [p] |> in
  check ~ exists_row (fun p => pp_project_id p = newID) (project_policies d) else ProjectExists;;
  let d := d <| project_policies := project_policies d ++ [default_policy newID "project.create" (clk 0%nat)] |> in
  check ~ exists_row (fun f => fa_project_id f = newID) (scheduler_fairness d) else ProjectExists;;
  let row := mkFairness newID (max_by fa_admission_vruntime (scheduler_fairness d))
               (max_by fa_phase_vruntime (scheduler_fairness d)) 0 0 0 0 None None (clk 2%nat) in
  Ok (p, d <| scheduler_fairness := scheduler_fairness d ++ [row] |>).

(** ** Reading a policy *)

(** The limits, and the usage at the time of the query. *)
Record ProjectPolicy := mkPolicyView {
  vw_policy : project_policy;
  vw_abuse_suspended : bool;
  vw_queued_jobs : Z;
  vw_active_jobs : Z;
  vw_submissions_today : Z;
  vw_build_seconds_today : Z;
  vw_cloud_cost_today : Z;
  vw_active_runtime_budgets : Z;
  vw_failures_last_hour : Z;
  vw_reserved_vcpus : Z;
  vw_reserved_memory_mib : Z;
  vw_reserved_disk_gib : Z;
  vw_quarantine_bytes : Z;
  vw_active_artifact_budgets : Z;
  vw_reservations : ReservationPhase -> Z;
  vw_phase_work_shadow : Z;
  vw_phase_work_active : Z;
  vw_phase_work : WorkState -> Z;
  vw_phase_work_unschedulable : Z;
  vw_day_starts_at : time;
  vw_day_ends_at : time
}.

Definition finished_since (since : time) (o : option time) : Prop := match o with Some t => since <= t | None => False end.
#[export] Instance finished_since_dec since o : Decision (finished_since since o).
Proof. destruct o; simpl; apply _. Defined.
(** Attempts of the project that failed or expired since then. *)
Definition failures_since (projectID : uuid) (since : time) (d : db) : Z :=
  Z.of_nat (count_where (fun a => exists_row (fun j => j_id j = a_job_id a /\ j_project_id j = projectID) (build_jobs d) /\
    a_state a ∈ ["failed"; "expired"] /\ finished_since since (a_finished_at a)) (build_attempts d)).

Definition project_items (projectID : uuid) (d : db) : list phase_work :=
  filter (fun w => pw_project_id w = projectID) (phase_work_items d).
Definition active_item (w : phase_work) : Prop := pw_execution_mode w = ActiveMode.
#[export] Instance active_item_dec w : Decision (active_item w). Proof. unfold active_item. apply _. Defined.

(** Ready, and no executor that was seen lately could take it. *)
Definition unschedulable (now : time) (d : db) (w : phase_work) : Prop :=
  active_item w /\ pw_state w = SReady /\
  ~ exists_row (fun j => j_id j = pw_job_id w /\
      exists_row (executor_fits now (j_minimum_executor_protocol j) (pw_required_capabilities w)) (workers d)) (build_jobs d).
#[export] Instance unschedulable_dec now d w : Decision (unschedulable now d w).
Proof. unfold unschedulable. apply _. Defined.

Definition readProjectPolicy (projectID : uuid) (now : time) (d : db) : result policy_error ProjectPolicy :=
  match first_where (fun p => pp_project_id p = projectID) (project_policies d) with
  | None => Err PolicyUnknown
  | Some p =>
      let starts := utc_day now * day_length in
      let usage := day_usage projectID (utc_day now) d in
      let live := live_reservations projectID d in
      let items := project_items projectID d in
      let budgets := filter (fun b => ab_project_id b = projectID /\ ab_state b = Live) (artifact_budgets d) in
      Ok (mkPolicyView p (bool_decide (is_Some (abuse_suspended p now))) (queued_jobs projectID d)
            (active_jobs projectID (fun _ => false) d)
            (Z.of_nat (count_where (fun j => j_project_id j = projectID /\ starts <= j_created_at j < starts + day_length)
                         (build_jobs d)))
            (sum_by build_seconds usage) (sum_by cloud_cost usage)
            (Z.of_nat (count_where (fun u => us_state u = UActive) usage))
            (failures_since projectID (now - Hour) d)
            (sum_by rv_vcpus live) (sum_by rv_memory_mib live) (sum_by rv_disk_gib live)
            (sum_by ab_active_bytes budgets) (Z.of_nat (length budgets))
            (fun phase => Z.of_nat (count_where (fun r => rv_phase r = phase) live))
            (Z.of_nat (count_where (fun w => pw_execution_mode w = Shadow) items))
            (Z.of_nat (count_where active_item items))
            (fun state => Z.of_nat (count_where (fun w => active_item w /\ pw_state w = state) items))
            (Z.of_nat (count_where (unschedulable now d) items))
            starts (starts + day_length))
  end.
Definition GetProjectPolicy (projectID : uuid) (now : time) (d : db) : result policy_error ProjectPolicy :=
  readProjectPolicy projectID now d.

(** ** Replacing a policy *)
Record ProjectPolicyUpdate := mkPolicyUpdate {
  up_suspended : bool;
  up_priority_weight : Z;
  up_starvation_threshold_seconds : Z;
  up_max_queued_jobs : Z;
  up_max_active_jobs : Z;
  up_max_daily_submissions : Z;
  up_max_active_vcpus : Z;
  up_max_active_memory_mib : Z;
  up_max_active_disk_gib : Z;
  up_max_artifact_bytes_per_job : Z;
  up_max_daily_build_seconds : Z;
  up_max_daily_cloud_cost_microunits : Z;
  up_max_failures_per_hour : Z;
  up_abuse_cooldown_seconds : Z;
  up_clear_abuse_suspension : bool;
  up_max_claimed_attempts : Z;
  up_max_provision_attempts : Z;
  up_max_build_attempts : Z;
  up_max_verify_attempts : Z;
  up_max_publish_attempts : Z;
  up_version : Z
}.

(** The parameters the statement passes as [integer]. *)
Definition integer_parameters (u : ProjectPolicyUpdate) : list Z :=
  [up_priority_weight u; up_starvation_threshold_seconds u; up_max_queued_jobs u; up_max_active_jobs u;
   up_max_daily_submissions u; up_max_active_vcpus u; up_max_active_memory_mib u; up_max_active_disk_gib u;
   up_max_claimed_attempts u; up_max_provision_attempts u; up_max_build_attempts u; up_max_verify_attempts u;
   up_max_publish_attempts u; up_max_failures_per_hour u; up_abuse_cooldown_seconds u].

Definition or_keep (x old : Z) : Z := if decide (0 < x) then x else old.

Definition replace_policy (u : ProjectPolicyUpdate) (updatedBy : string) (now : time) (p : project_policy) : project_policy :=
  p <| pp_suspended := up_suspended u |>
    <| pp_priority_weight := or_keep (up_priority_weight u) (pp_priority_weight p) |>
    <| pp_starvation_threshold_seconds := or_keep (up_starvation_threshold_seconds u) (pp_starvation_threshold_seconds p) |>
    <| pp_max_queued_jobs := up_max_queued_jobs u |> <| pp_max_active_jobs := up_max_active_jobs u |>
    <| pp_max_daily_submissions := up_max_daily_submissions u |> <| pp_max_active_vcpus := up_max_active_vcpus u |>
    <| pp_max_active_memory_mib := up_max_active_memory_mib u |> <| pp_max_active_disk_gib := up_max_active_disk_gib u |>
    <| pp_max_artifact_bytes_per_job := or_keep (up_max_artifact_bytes_per_job u) (pp_max_artifact_bytes_per_job p) |>
    <| pp_max_claimed_attempts := or_keep (up_max_claimed_attempts u) (pp_max_claimed_attempts p) |>
    <| pp_max_provision_attempts := or_keep (up_max_provision_attempts u) (pp_max_provision_attempts p) |>
    <| pp_max_build_attempts := or_keep (up_max_build_attempts u) (pp_max_build_attempts p) |>
    <| pp_max_verify_attempts := or_keep (up_max_verify_attempts u) (pp_max_verify_attempts p) |>
    <| pp_max_publish_attempts := or_keep (up_max_publish_attempts u) (pp_max_publish_attempts p) |>
    <| pp_max_daily_build_seconds := or_keep (up_max_daily_build_seconds u) (pp_max_daily_build_seconds p) |>
    <| pp_max_daily_cloud_cost_microunits :=
         or_keep (up_max_daily_cloud_cost_microunits u) (pp_max_daily_cloud_cost_microunits p) |>
    <| pp_max_failures_per_hour := or_keep (up_max_failures_per_hour u) (pp_max_failures_per_hour p) |>
    <| pp_abuse_cooldown_seconds := or_keep (up_abuse_cooldown_seconds u) (pp_abuse_cooldown_seconds p) |>
    <| pp_abuse_suspended_until := if up_clear_abuse_suspension u then None else pp_abuse_suspended_until p |>
    <| pp_abuse_reason := if up_clear_abuse_suspension u then "" else pp_abuse_reason p |>
    <| pp_version := pp_version p + 1 |> <| pp_updated_by := updatedBy |> <| pp_updated_at := now |>.

Definition versioned (projectID : uuid) (version : Z) (p : project_policy) : Prop :=
  pp_project_id p = projectID /\ pp_version p = version.
#[export] Instance versioned_dec projectID version p : Decision (versioned projectID version p).
Proof. unfold versioned. apply _. Defined.

Definition UpdateProjectPolicy (projectID : uuid) (u : ProjectPolicyUpdate) (updatedBy : string) (clk : clock) (d : db)
    : result policy_error (ProjectPolicy * db) :=
  check Forall int4 (integer_parameters u) else PolicyConstraint;;
  let replace := replace_policy u updatedBy (clk 0%nat) in
  let hit := versioned projectID (up_version u) in
  check Forall (fun p => policy_shape (replace p)) (filter hit (project_policies d)) else PolicyConstraint;;
  check count_where hit (project_policies d) = 1%nat else VersionConflict;;
  let d := d <| project_policies := update_where hit replace (project_policies d) |> in
  let! policy := readProjectPolicy projectID (clk 1%nat) d in
  Ok (policy, d).

(** ** Checks of the server *)
Definition validPhaseCaps (u : ProjectPolicyUpdate) : bool :=
  forallb (fun limit => negb (bool_decide (limit <= 0 \/ 10000 < limit)))
    [up_max_claimed_attempts u; up_max_provision_attempts u; up_max_build_attempts u; up_max_verify_attempts u;
     up_max_publish_attempts u].

(** Each limit with the range it may lie in. *)
Definition policy_limits (u : ProjectPolicyUpdate) : list (Z * Z * Z) :=
  [(up_version u, 1, 2 ^ 63 - 1); (up_max_queued_jobs u, 1, 100000); (up_max_active_jobs u, 1, 10000);
   (up_max_daily_submissions u, 1, 1000000); (up_max_active_vcpus u, 1, 1280000);
   (up_max_active_memory_mib u, 1, 1048576000); (up_max_active_disk_gib u, 1, 40960000);
   (up_max_artifact_bytes_per_job u, 1, 2 ^ 40); (up_max_daily_build_seconds u, 1, 365 * 24 * 60 * 60);
   (up_max_daily_cloud_cost_microunits u, 1, 1000000000000000); (up_max_failures_per_hour u, 1, 100000);
   (up_abuse_cooldown_seconds u, 60, 7 * 24 * 60 * 60)].

Definition validateProjectPolicyUpdate (u : ProjectPolicyUpdate) : result policy_error unit :=
  check ~ (up_priority_weight u < 0 \/ 1000 < up_priority_weight u \/ up_starvation_threshold_seconds u < 0 \/
           86400 < up_starvation_threshold_seconds u \/
           (0 < up_starvation_threshold_seconds u /\ up_starvation_threshold_seconds u < 30)) else LimitInvalid;;
  check Forall (fun '(value, low, high) => ~ (value < low \/ high < value)) (policy_limits u) else LimitInvalid;;
  check validPhaseCaps u = true else LimitInvalid;;
  Ok tt.

(** [^[a-z][a-z0-9-]{1,62}$] *)
Definition name_tail : ascii -> bool := fun c => in_range "a" "z" c || in_range "0" "9" c || bool_decide (c = "-"%char).
Definition projectNamePattern : re := Cat (Cls (in_range "a" "z")) (Cat (Cls name_tail) (UpTo 61 (Cls name_tail))).

(** ** Handlers *)
Inductive projects_reply := ProjectsListed (l : list ProjectAccess) | ProjectCreated (p : project).

(** The tables of the job system, and the audit records. *)
Record project_served (A : Type) := mkProjectServed { ps_answer : answer A; ps_db : db; ps_audit : list audit_entry }.
Arguments mkProjectServed {A} ps_answer ps_db ps_audit.
Arguments ps_answer {A} p.
Arguments ps_db {A} p.
Arguments ps_audit {A} p.
Definition turn_away {A} (status : Z) (why : failure) (d : db) : project_served A := mkProjectServed (Refused status why) d [].

Definition handleProjects (s : server) (r : http_request) (body : option (string * string)) (env : ambient) (i : iam_db) (d : db)
    : project_served projects_reply :=
  match rq_principal r with
  | None => turn_away 503 (IAMMessage "project authority is unavailable") d
  | Some principal =>
      if negb (sv_repository s) then turn_away 503 (IAMMessage "project authority is unavailable") d
      else if decide (rq_method r = "GET") then
        mkProjectServed (Answered (ProjectsListed (ListProjects principal (projects d) i))) d []
      else if decide (rq_method r = "POST") then
        if pc_system_admin principal then
          match body with
          | None => turn_away 400 (IAMMessage "invalid project request") d
          | Some (name, description) =>
              let name := TrimSpace name in
              let description := TrimSpace description in
              if decide (MatchString projectNamePattern name = false \/ 4096 < go_len description)
              then turn_away 400 (IAMMessage "project name or description is invalid") d
              else match CreateProject (am_uuid env 0%nat) name description (am_clock env 0%nat) d with
              | Err _ => turn_away 409 (IAMMessage "project could not be created") d
              | Ok (p, d) =>
                  mkProjectServed (Answered (ProjectCreated p)) d
                    (audit s principal "project.create" "project" (pr_id p) (pr_id p) "success")
              end
          end
        else mkProjectServed (Refused 403 (IAMMessage "system administrator role required")) d
               (audit s principal "project.create" "project" "" "" "denied")
      else turn_away 405 (PlainText "Method not allowed") d
  end.

Definition handleProjectPolicy (s : server) (r : http_request) (body : option ProjectPolicyUpdate) (env : ambient) (i : iam_db)
    (d : db) : project_served ProjectPolicy :=
  let requiredRole := if decide (rq_method r = "PUT") then "owner" else "viewer" in
  match authorizeProject s r requiredRole (projects d) i with
  | (principal, Err e) =>
      mkProjectServed (Refused 403 match e with AccessRefused e => RepositoryMessage e
                                         | _ => IAMMessage "request has no authenticated principal" end) d
        (audit s principal "project.policy.authorize" "project" "" "" "denied")
  | (principal, Ok project) =>
      let projectID := pa_project_id project in
      if negb (sv_repository s) then turn_away 503 (IAMMessage "project policy authority is unavailable") d
      else if decide (rq_method r = "GET") then
        match GetProjectPolicy projectID (am_clock env 0%nat 0%nat) d with
        | Err _ => turn_away 503 (IAMMessage "project policy is unavailable") d
        | Ok policy => mkProjectServed (Answered policy) d []
        end
      else if decide (rq_method r = "PUT") then
        match body with
        | None => turn_away 400 (IAMMessage "invalid project policy request") d
        | Some u =>
            match validateProjectPolicyUpdate u with
            | Err _ => turn_away 400 (IAMMessage "project policy limits or version are invalid") d
            | Ok _ =>
                let updatedBy := if decide (pc_subject_id principal <> "") then pc_subject_id principal
                                 else pc_authentication principal in
                match UpdateProjectPolicy projectID u updatedBy (am_clock env 0%nat) d with
                | Err _ =>
                    mkProjectServed (Refused 409 (IAMMessage "update project policy")) d
                      (audit s principal "project.policy.update" "project" projectID projectID "failure")
                | Ok (policy, d) =>
                    mkProjectServed (Answered policy) d
                      (audit s principal "project.policy.update" "project" projectID projectID "success")
                end
            end
        end
      else turn_away 405 (PlainText "Method not allowed") d
  end.
