(* ===== verification/ProjectPolicySafety.v ===== *)
(** * What a policy's version promises

    Theorems about [ProjectPolicy]: a replacement that was made is never lost, a
    replacement the server accepts fits the table, a suspension survives every
    replacement that does not lift it, and only an owner replaces a policy. *)

From S2P Require Import GoUrl GoPath Prelude GoStrings GoRegexp Schema Capabilities Budgets Fairness JobLedger Iam IamSystem IamSafety IamServer IamServerSafety ProjectPolicy.
From Stdlib Require Import Ascii.
Open Scope string_scope.
Open Scope list_scope.
Open Scope Z_scope.

#[local] Arguments update_where : simpl never.

(** ** The system *)

(** The three statements that write the table, and everything else that leaves
    it alone. *)
Inductive policy_step : db -> db -> Prop :=
| ps_create newID name description clk p d d' : CreateProject newID name description clk d = Ok (p, d') -> policy_step d d'
| ps_update projectID u updatedBy clk v d d' : UpdateProjectPolicy projectID u updatedBy clk d = Ok (v, d') -> policy_step d d'
| ps_storm projectID now d d' : applyFailureStormSuspension projectID now d = Ok d' -> policy_step d d'
| ps_other d d' : project_policies d' = project_policies d -> policy_step d d'.

Definition policies_ok (d : db) : Prop :=
  NoDup (pp_project_id <$> project_policies d) /\ forall p, p ∈ project_policies d -> policy_shape p.

(** The row of a project, later: the same project, and a version that only rises. *)
Definition policy_le (p p' : project_policy) : Prop := pp_project_id p' = pp_project_id p /\ pp_version p <= pp_version p'.
#[export] Instance policy_le_preorder : PreOrder policy_le.
Proof. split; [intros p; split; [done|lia]|]. intros x y z [? ?] [? ?]. split; [congruence|lia]. Qed.

Definition fresh_policy (d : db) (p : project_policy) : Prop :=
  pp_project_id p ∉ pp_project_id <$> project_policies d /\ policy_shape p.

Lemma policies_evolve d d' : policies_ok d -> rows_evolve policy_le (fresh_policy d) (project_policies d) (project_policies d') ->
  (forall p, p ∈ project_policies d' -> policy_shape p) ->
  policies_ok d' /\ rows_later policy_le (project_policies d) (project_policies d').
Proof.
  intros [H1 H2] He Hs. split; [split; [|done]|by eapply evolve_later].
  eapply rows_evolve_key; [exact He|by intros x y [? _]|by intros x [? _]|done].
Qed.

(** An update of rows that are in the table, every result well-shaped. *)
Lemma policies_update d d' (P : project_policy -> Prop) `{HdP : !forall p, Decision (P p)} f : policies_ok d ->
  project_policies d' = update_where P f (project_policies d) ->
  (forall p, p ∈ project_policies d -> P p -> policy_le p (f p) /\ policy_shape (f p)) ->
  policies_ok d' /\ rows_later policy_le (project_policies d) (project_policies d').
Proof.
  intros Hok Hd Hf. apply policies_evolve; [done| |]; rewrite Hd.
  - apply rows_evolve_update; [apply _|]. intros p Hp HP. by apply Hf.
  - intros x (y & Hy & [[Hv ->]|[_ ->]])%elem_of_update_where; [by apply Hf|by apply Hok].
Qed.

Lemma default_shape projectID updatedBy now : policy_shape (default_policy projectID updatedBy now).
Proof. apply (bool_decide_unpack _). vm_compute. exact I. Qed.

(** The bounds the server enforces, seen from the statement. *)
Lemma validated_bounds u : validateProjectPolicyUpdate u = Ok tt ->
  0 <= up_priority_weight u <= 1000 /\
  (up_starvation_threshold_seconds u = 0 \/ 30 <= up_starvation_threshold_seconds u <= 86400) /\
  1 <= up_version u <= int64_max /\ 1 <= up_max_queued_jobs u <= 100000 /\ 1 <= up_max_active_jobs u <= 10000 /\
  1 <= up_max_daily_submissions u <= 1000000 /\ 1 <= up_max_active_vcpus u <= 1280000 /\
  1 <= up_max_active_memory_mib u <= 1048576000 /\ 1 <= up_max_active_disk_gib u <= 40960000 /\
  1 <= up_max_artifact_bytes_per_job u <= 2 ^ 40 /\ 1 <= up_max_daily_build_seconds u <= 31536000 /\
  1 <= up_max_daily_cloud_cost_microunits u <= 1000000000000000 /\ 1 <= up_max_failures_per_hour u <= 100000 /\
  60 <= up_abuse_cooldown_seconds u <= 604800 /\
  Forall (fun limit => 1 <= limit <= 10000) [up_max_claimed_attempts u; up_max_provision_attempts u; up_max_build_attempts u;
    up_max_verify_attempts u; up_max_publish_attempts u].
Proof.
  intros H. unfold validateProjectPolicyUpdate in H. do 3 inv_ok_step H. unfold policy_limits in Hc0.
  repeat (apply Forall_cons in Hc0 as [? Hc0]). clear Hc0. unfold validPhaseCaps in Hc1. cbn in Hc1.
  repeat (apply andb_true_iff in Hc1 as [? Hc1]). clear Hc1.
  repeat match goal with H : negb _ = true |- _ => apply negb_true_iff, bool_decide_eq_false in H end.
  unfold int64_max. repeat (apply conj); try lia. repeat (apply Forall_cons; split; [lia|]). apply Forall_nil. exact I.
Qed.

Lemma validated_integers u : validateProjectPolicyUpdate u = Ok tt -> Forall int4 (integer_parameters u).
Proof.
  intros H%validated_bounds. destruct H as (?&?&?&?&?&?&?&?&?&?&?&?&?&?&Hf). repeat (apply Forall_cons in Hf as [? Hf]).
  unfold integer_parameters, int4. repeat (apply Forall_cons; split; [lia|]). apply Forall_nil. exact I.
Qed.

Lemma or_keep_pos x old : 0 < x -> or_keep x old = x.
Proof. intros. unfold or_keep. by rewrite decide_True. Qed.

Lemma validated_shape u updatedBy now p : validateProjectPolicyUpdate u = Ok tt -> policy_shape p -> pp_version p < int64_max ->
  policy_shape (replace_policy u updatedBy now p).
Proof.
  intros H%validated_bounds (P1 & P2 & P3 & P4 & P5 & P6) Hv. destruct H as (Hw&Hs&?&?&?&?&?&?&?&?&?&?&?&?&Hf).
  repeat (apply Forall_cons in Hf as [? Hf]). repeat (apply Forall_cons in P2 as [? P2]). unfold positive8 in *.
  unfold policy_shape, replace_policy. cbn. rewrite !(or_keep_pos _ (pp_max_artifact_bytes_per_job p)), !(or_keep_pos _ (pp_max_claimed_attempts p)),
    !(or_keep_pos _ (pp_max_provision_attempts p)), !(or_keep_pos _ (pp_max_build_attempts p)), !(or_keep_pos _ (pp_max_verify_attempts p)),
    !(or_keep_pos _ (pp_max_publish_attempts p)), !(or_keep_pos _ (pp_max_daily_build_seconds p)),
    !(or_keep_pos _ (pp_max_daily_cloud_cost_microunits p)), !(or_keep_pos _ (pp_max_failures_per_hour p)),
    !(or_keep_pos _ (pp_abuse_cooldown_seconds p)) by lia.
  unfold or_keep, positive4, positive8, int64_max in *. split_and!; try lia.
  - repeat (apply Forall_cons; split; [lia|]). by apply Forall_nil.
  - repeat (apply Forall_cons; split; [lia|]). by apply Forall_nil.
  - case_decide; lia.
  - case_decide; lia.
  - case_decide; lia.
  - case_decide; lia.
Qed.

(** What a replacement does to the tables. *)
Lemma update_cases projectID u updatedBy clk v d d' : UpdateProjectPolicy projectID u updatedBy clk d = Ok (v, d') ->
  exists p, p ∈ project_policies d /\ versioned projectID (up_version u) p /\
    policy_shape (replace_policy u updatedBy (clk 0%nat) p) /\
    d' = d <| project_policies := update_where (versioned projectID (up_version u)) (replace_policy u updatedBy (clk 0%nat)) (project_policies d) |> /\
    readProjectPolicy projectID (clk 1%nat) d' = Ok v.
Proof.
  intros H. unfold UpdateProjectPolicy in H. inv_ok_step H. cbv zeta in H. do 3 inv_ok_step H. injection H as -> <-.
  assert (0 < count_where (versioned projectID (up_version u)) (project_policies d))%nat as (p & Hp & Hv)%count_where_pos by lia.
  exists p. split_and!; [done|done| |done|done]. rewrite Forall_forall in Hc0. apply Hc0. by apply list_elem_of_filter.
Qed.

Lemma shape_storm p until reason now : policy_shape p ->
  policy_shape (p <| pp_abuse_suspended_until := until |> <| pp_abuse_reason := reason |>
    <| pp_abuse_generation := pp_abuse_generation p + 1 |> <| pp_updated_by := "scheduler.abuse-gate" |> <| pp_updated_at := now |>).
Proof. intros (H1 & H2 & H3 & H4 & H5 & H6). unfold policy_shape. cbn in *. split_and!; try done; lia. Qed.

Lemma policy_step_ok d d' : policies_ok d -> policy_step d d' ->
  policies_ok d' /\ rows_later policy_le (project_policies d) (project_policies d').
Proof.
  intros Hok Hs. destruct Hs as [newID name description clk p d d' H|projectID u updatedBy clk v d d' H|projectID now d d' H|d d' H].
  - unfold CreateProject in H. inv_ok_step H. cbv zeta in H. do 2 inv_ok_step H. injection H as <- <-. cbn in Hc0.
    apply policies_evolve; [done| |]; cbn.
    + apply rows_evolve_insert; [apply _|]. split; [|apply default_shape]. by apply not_exists_key.
    + intros q [Hq|Hq%list_elem_of_singleton]%elem_of_app; [by apply Hok|]. subst q. apply default_shape.
  - destruct (update_cases _ _ _ _ _ _ _ H) as (p & Hp & [Hpi Hpv] & Hsh & -> & _).
    eapply policies_update; [done|reflexivity|]. intros x Hx [Hxi Hxv]. split; [split; [done|cbn; lia]|].
    replace x with p; [done|]. apply (key_unique pp_project_id (project_policies d)); [apply Hok|done|done|congruence].
  - unfold applyFailureStormSuspension in H. inv_ok_step H. cbv zeta in H. case_decide; [injection H as <-; by split|].
    injection H as <-. eapply policies_update; [done|reflexivity|]. intros x Hx _. split; [split; [done|cbn; lia]|].
    apply shape_storm. by apply Hok.
  - unfold policies_ok. by rewrite H.
Qed.

Lemma policy_steps_ok d d' : policies_ok d -> rtc policy_step d d' ->
  policies_ok d' /\ rows_later policy_le (project_policies d) (project_policies d').
Proof.
  intros Hok Hr. induction Hr as [|x y z Hs _ IH]; [done|]. destruct (policy_step_ok x y Hok Hs) as [H1 H2].
  destruct (IH H1) as [H3 H4]. split; [done|by etrans].
Qed.

(** C21. A replacement is never lost: what it returns is the row it wrote, under
    the next version; and from then on, whatever happens to the tables, nobody who
    read the policy before can replace it. *)
Theorem policy_update_not_lost (d d1 d2 : db) (projectID : uuid) (u u' : ProjectPolicyUpdate) (by_ by' : string) (clk clk' : clock)
    (v : ProjectPolicy) (Hok : policies_ok d) (H1 : UpdateProjectPolicy projectID u by_ clk d = Ok (v, d1))
    (S : rtc policy_step d1 d2) (Hv : up_version u' <= up_version u) :
  vw_policy v ∈ project_policies d1 /\ pp_project_id (vw_policy v) = projectID /\
  pp_version (vw_policy v) = up_version u + 1 /\ pp_updated_by (vw_policy v) = by_ /\
  forall r, UpdateProjectPolicy projectID u' by' clk' d2 <> Ok r.
Proof.
  destruct (policy_step_ok d d1 Hok (ps_update _ _ _ _ _ _ _ H1)) as [Hok1 _].
  destruct (update_cases _ _ _ _ _ _ _ H1) as (p & Hp & [Hpi Hpv] & _ & Hd1 & Hread).
  set (p' := replace_policy u by_ (clk 0%nat) p) in *. assert (p' ∈ project_policies d1) as Hp'.
  { rewrite Hd1. cbn. apply elem_of_update_where. exists p. split; [done|]. by left. }
  assert (vw_policy v = p') as ->.
  { unfold readProjectPolicy in Hread. destruct (first_where _ _) as [q|] eqn:Hq; [|done]. injection Hread as <-. cbn.
    apply first_where_some in Hq as [Hq Hqi]. apply (key_unique pp_project_id (project_policies d1)); [apply Hok1|done|done|]. cbn. congruence. }
  split_and!; [done|done|cbn; congruence|done|]. intros [v2 d3] H2.
  destruct (update_cases _ _ _ _ _ _ _ H2) as (q & Hq & [Hqi Hqv] & _). destruct (policy_steps_ok d1 d2 Hok1 S) as [Hok2 Hl].
  destruct (Hl p' Hp') as (q' & Hq' & Hqi' & Hle). assert (q' = q) as ->.
  { apply (key_unique pp_project_id (project_policies d2)); [apply Hok2|done|done|]. cbn in Hqi'. congruence. }
  cbn in Hle. lia.
Qed.

(** What the server accepts, the table accepts: a replacement within the
    server's limits fails only because the policy has moved on, and otherwise
    leaves every policy within the checks of the table. *)
Theorem accepted_policy_fits (d : db) (projectID : uuid) (u : ProjectPolicyUpdate) (updatedBy : string) (clk : clock)
    (Hok : policies_ok d) (Hu : validateProjectPolicyUpdate u = Ok tt) (Hmax : up_version u < int64_max) :
  match UpdateProjectPolicy projectID u updatedBy clk d with
  | Ok (_, d') => policies_ok d' /\ exists_row (versioned projectID (up_version u)) (project_policies d)
  | Err VersionConflict => ~ exists_row (versioned projectID (up_version u)) (project_policies d)
  | Err _ => False
  end.
Proof.
  destruct (UpdateProjectPolicy _ _ _ _ _) as [[v d']|e] eqn:E.
  - split; [by eapply policy_step_ok; [|by eapply ps_update]|]. destruct (update_cases _ _ _ _ _ _ _ E) as (p & Hp & Hv & _).
    apply Exists_exists. eauto.
  - unfold UpdateProjectPolicy in E. rewrite decide_True in E by (by apply validated_integers). cbv zeta in E.
    rewrite decide_True in E.
    2:{ apply Forall_forall. intros p [[_ Hv] Hp]%list_elem_of_filter. apply validated_shape; [done|by apply Hok|lia]. }
    case_decide as Hc.
    + unfold readProjectPolicy in E. cbn in E. destruct (first_where _ _) as [q|] eqn:Hq; [done|]. exfalso.
      assert (0 < count_where (versioned projectID (up_version u)) (project_policies d))%nat as (p & Hp & Hv)%count_where_pos by lia.
      apply (first_where_none _ _ Hq (replace_policy u updatedBy (clk 0%nat) p)); [|by destruct Hv].
      apply elem_of_update_where. exists p. auto.
    + injection E as <-. intros (p & Hp & Hv)%Exists_exists. apply Hc.
      assert (0 < count_where (versioned projectID (up_version u)) (project_policies d))%nat by (apply count_where_pos; eauto).
      assert (count_where (versioned projectID (up_version u)) (project_policies d) <= 1)%nat; [|lia].
      apply (count_where_key pp_project_id); [apply Hok|]. intros x y _ _ [? _] [? _]. congruence.
Qed.

(** ** Who replaces a policy *)

Lemma resolved_grants principal selector role ps d a : ResolveProject principal selector role ps d = Ok a -> grants principal role a ps d.
Proof.
  intros H. assert (a ∈ ListProjects principal ps d /\ (pc_system_admin principal = true \/ RoleAtLeast (pa_role a) role = true)) as [Ha Hr].
  { unfold ResolveProject in H. cbv zeta in H. case_decide.
    - destruct (pc_system_admin principal) eqn:Hadm; [split; [|by left]|].
      + pose proof (resolve_in_spec principal DefaultProjectName role (ListProjects principal ps d)) as Hs. rewrite H in Hs. by destruct Hs.
      + destruct (ListProjects principal ps d) as [|b [|c l]]; [done| |done]. case_decide; [|done]. injection H as <-. split; [set_solver|by right].
    - pose proof (resolve_in_spec principal (TrimSpace selector) role (ListProjects principal ps d)) as Hs. rewrite H in Hs.
      destruct Hs as (? & _ & ?). by split. }
  destruct (listed principal ps d a Ha). unfold grants. naive_solver.
Qed.

Lemma owner_only role : RoleAtLeast role "owner" = true -> role = "owner".
Proof.
  intros [H _]%andb_true_iff. apply bool_decide_eq_true in H. change (role_rank "owner") with 4 in H.
  unfold role_rank in H. repeat (case_decide; [lia || done|]). lia.
Qed.

(** C20. Only an owner of a project (or a system administrator) changes its policy,
    with the limits the server accepts; the change is to that project's row alone,
    it is audited under that person, and an ongoing suspension for a failure storm
    is lifted only on request. *)
Theorem owner_replaces_policy (s : server) (r : http_request) (body : option ProjectPolicyUpdate) (env : ambient) (i : iam_db) (d : db)
    (Hrepo : sv_repository s = true) (Hc : ps_db (handleProjectPolicy s r body env i d) <> d) :
  exists principal u projectID,
    rq_principal r = Some principal /\ rq_method r = "PUT" /\ body = Some u /\ validateProjectPolicyUpdate u = Ok tt /\
    (pc_system_admin principal = true \/
     exists m, m ∈ project_memberships i /\ member_of projectID (pc_subject_id principal) m /\ mb_role m = "owner") /\
    ps_audit (handleProjectPolicy s r body env i d) =
      [mkAudit (auditActor principal) (pc_subject_id principal) "project.policy.update" "project" projectID projectID "success"] /\
    (forall p, pp_project_id p <> projectID ->
       p ∈ project_policies (ps_db (handleProjectPolicy s r body env i d)) <-> p ∈ project_policies d) /\
    (forall p, p ∈ project_policies d -> up_clear_abuse_suspension u = false ->
       exists p', p' ∈ project_policies (ps_db (handleProjectPolicy s r body env i d)) /\ pp_project_id p' = pp_project_id p /\
         pp_abuse_suspended_until p' = pp_abuse_suspended_until p).
Proof.
  unfold handleProjectPolicy, authorizeProject in *. rewrite Hrepo in *. cbv zeta in *.
  destruct (rq_principal r) as [principal|] eqn:Hp; [|done]. destruct (ResolveProject _ _ _ _ _) as [a|e] eqn:Ha; [|done].
  cbn [negb] in *. destruct (decide (rq_method r = "GET")) as [Hg|Hg]; [by destruct (GetProjectPolicy _ _ _)|].
  destruct (decide (rq_method r = "PUT")) as [Hput|]; [|done]. destruct body as [u|]; [|done].
  destruct (validateProjectPolicyUpdate u) as [[]|] eqn:Hu; [|done].
  destruct (UpdateProjectPolicy _ _ _ _ _) as [[v d']|] eqn:E; [|done]. cbn in *.
  exists principal, u, (pa_project_id a). destruct (update_cases _ _ _ _ _ _ _ E) as (_ & _ & _ & _ & -> & _).
  pose proof (resolved_grants _ _ _ _ _ _ Ha) as [_ Hgr]. split_and!; [done|done|done|done| | | |].
  - destruct Hgr as [?|(m & Hm & Hmo & Hr & Ho)]; [by left|right]. exists m. split_and!; [done..|]. apply owner_only in Ho. congruence.
  - unfold audit. by rewrite Hrepo.
  - intros p Hne. cbn. rewrite elem_of_update_where. split.
    + intros (q & Hq & [[[Hqi _] ->]|[_ ->]]); [|done]. by destruct Hne.
    + intros Hin. exists p. split; [done|]. right. split; [|done]. by intros [? _].
  - intros p Hin Hcl. cbn. destruct (decide (versioned (pa_project_id a) (up_version u) p)) as [Hv|Hv].
    + eexists. split; [apply elem_of_update_where; exists p; split; [done|left; by split]|]. cbn. by rewrite Hcl.
    + exists p. split; [|done]. apply elem_of_update_where. exists p. split; [done|by right].
Qed.

(** ** A run: a project, a suspension, and two people changing its limits *)

Definition kept_ex (d : db) (r : result policy_error (project * db)) : db := match r with Ok (_, d') => d' | Err _ => d end.
Definition founded_ex : db := kept_ex empty_db (CreateProject "p1" "default" "" (at_time 10) empty_db).
Definition update_ex : ProjectPolicyUpdate :=
  mkPolicyUpdate false 200 0 100 8 500 64 131072 1000 34359738368 86400 1000000000 20 3600 false 4 4 4 4 4 1.
Definition stormed_ex : db := founded_ex <| project_policies :=
  update_where (fun p => pp_project_id p = "p1") (fun p => p <| pp_abuse_suspended_until := Some (9000 * Second) |>) (project_policies founded_ex) |>.
Definition read_ex : ProjectPolicy := match UpdateProjectPolicy "p1" update_ex "u1" (at_time 20) stormed_ex with
  | Ok (v, _) => v | Err _ => mkPolicyView (default_policy "" "" 0) false 0 0 0 0 0 0 0 0 0 0 0 0 (fun _ => 0) 0 0 (fun _ => 0) 0 0 0 end.
Definition replaced_ex : db := match UpdateProjectPolicy "p1" update_ex "u1" (at_time 20) stormed_ex with
  | Ok (_, d) => d | Err _ => stormed_ex end.

Lemma stormed_ok : policies_ok stormed_ex.
Proof.
  split; [apply (bool_decide_unpack _); vm_compute; exact I|]. apply Forall_forall, (bool_decide_unpack _). vm_compute. exact I.
Qed.

Lemma policy_update_not_lost_witness :
  pp_version (vw_policy read_ex) = 2 /\ forall r, UpdateProjectPolicy "p1" update_ex "u2" (at_time 30) replaced_ex <> Ok r.
Proof.
  assert (UpdateProjectPolicy "p1" update_ex "u1" (at_time 20) stormed_ex = Ok (read_ex, replaced_ex)) as H by (vm_compute; reflexivity).
  destruct (policy_update_not_lost stormed_ex replaced_ex replaced_ex "p1" update_ex update_ex "u1" "u2" (at_time 20) (at_time 30) read_ex
    stormed_ok H (rtc_refl _ _) (Z.le_refl _)) as (_ & _ & Hv & _ & Hr).
  split; [exact Hv|exact Hr].
Defined.

Lemma accepted_policy_fits_witness :
  match UpdateProjectPolicy "p1" update_ex "u1" (at_time 20) stormed_ex with
  | Ok (_, d') => policies_ok d' /\ exists_row (versioned "p1" 1) (project_policies stormed_ex)
  | Err VersionConflict => ~ exists_row (versioned "p1" 1) (project_policies stormed_ex)
  | Err _ => False
  end.
Proof. apply (accepted_policy_fits stormed_ex "p1" update_ex "u1" (at_time 20)); [exact stormed_ok|vm_compute; reflexivity|reflexivity]. Defined.

Definition alice_ex : Principal := no_principal <| pc_subject_id := "u1" |>.
Definition put_ex : http_request :=
  mkRequest "PUT" "/api/v1/projects/policy" (fun k => if decide (k = "X-Project-ID") then "default" else "") (fun _ => "") (Some alice_ex).

Lemma owner_replaces_policy_witness : exists principal u projectID,
  rq_principal put_ex = Some principal /\ Some update_ex = Some u /\
  (pc_system_admin principal = true \/
   exists m, m ∈ project_memberships owned_ex /\ member_of projectID (pc_subject_id principal) m /\ mb_role m = "owner").
Proof.
  destruct (owner_replaces_policy server_ex put_ex (Some update_ex) (ambient_ex "x" (30 * Second)) owned_ex stormed_ex)
    as (p & u & projectID & H1 & _ & H2 & _ & H3 & _); [reflexivity| |by exists p, u, projectID].
  intros H. apply (f_equal (fun d => pp_version <$> project_policies d)) in H. vm_compute in H. discriminate.
Defined.
