(* ===== verification/GoTime.v ===== *)
(** * [time]: the JSON text of a time

    [Time.MarshalJSON] and [Time.UnmarshalJSON] (RFC 3339 with nanoseconds, the
    year between 0 and 9999), [IsZero], [Sub] and [Before]; the text of a time in
    UTC is read back as that time. *)

From S2P Require Import Prelude GoStrings GoUrl.
From Stdlib Require Import Ascii.
Open Scope string_scope.
Open Scope list_scope.
Open Scope Z_scope.

(** An instant in nanoseconds since 1970, and the offset of its zone in seconds. *)
Record go_time := mkTime { tm_ns : Z; tm_offset : Z }.
#[export] Instance go_time_eq_dec : EqDecision go_time.
Proof. solve_decision. Defined.

(** The first of January of the year 1. *)
Definition zero_go_time : go_time := mkTime (-62135596800 * 1000000000) 0.
Definition IsZero (t : go_time) : bool := bool_decide (tm_ns t = tm_ns zero_go_time).
Definition UTC (ns : Z) : go_time := mkTime ns 0.

(** The difference, kept within a [Duration]. *)
Definition Sub (t u : go_time) : Z := Z.max int64_min (Z.min int64_max (tm_ns t - tm_ns u)).

(** ** The calendar *)

(** Days since 1970 of a date, counting years from March. *)
Definition days_of_civil (y m d : Z) : Z :=
  let y := if decide (m <= 2) then y - 1 else y in
  let era := y / 400 in
  let yoe := y - era * 400 in
  let doy := (153 * (if decide (2 < m) then m - 3 else m + 9) + 2) / 5 + d - 1 in
  era * 146097 + (yoe * 365 + yoe / 4 - yoe / 100 + doy) - 719468.

(** The century, the group of four years and the year within 400 years, the last
    of each a day longer or shorter than the others. *)
Definition civil_of_days (z : Z) : Z * Z * Z :=
  let z := z + 719468 in
  let era := z / 146097 in
  let doe := z - era * 146097 in
  let century := Z.min 3 (doe / 36524) in
  let rest := doe - century * 36524 in
  let group := rest / 1461 in
  let rest := rest - group * 1461 in
  let year := Z.min 3 (rest / 365) in
  let yoe := century * 100 + group * 4 + year in
  let doy := rest - year * 365 in
  let mp := (5 * doy + 2) / 153 in
  let m := if decide (mp < 10) then mp + 3 else mp - 9 in
  (if decide (m <= 2) then yoe + era * 400 + 1 else yoe + era * 400, m, doy - (153 * mp + 2) / 5 + 1).

Definition leap_year (y : Z) : bool := bool_decide (y mod 4 = 0 /\ (y mod 100 <> 0 \/ y mod 400 = 0)).
Definition days_in (m y : Z) : Z :=
  if decide (m = 2) then if leap_year y then 29 else 28
  else if decide (m ∈ [4; 6; 9; 11]) then 30 else 31.

(** ** Printing *)
Definition two (n : Z) : list ascii := [digit (n / 10); digit (n mod 10)].
Definition four (n : Z) : list ascii := two (n / 100) ++ two (n mod 100).

Fixpoint drop_zeros (l : list ascii) : list ascii :=
  match l with
  | c :: l' => if decide (c = "0"%char) then drop_zeros l' else l
  | [] => []
  end.
Definition nine (n : Z) : list ascii := (fun k => digit (n / 10 ^ k mod 10)) <$> [8; 7; 6; 5; 4; 3; 2; 1; 0].
Definition fraction (n : Z) : list ascii :=
  match rev (drop_zeros (rev (nine n))) with [] => [] | l => "."%char :: l end.

Definition zone (offset : Z) : list ascii :=
  if decide (offset = 0) then ["Z"%char]
  else
    let minutes := Z.quot offset 60 in
    (if decide (minutes < 0) then "-"%char else "+"%char) :: two (Z.abs minutes / 60) ++ ":"%char :: two (Z.abs minutes mod 60).

(** Without the quotes; [None]: the year or the zone has no text. *)
Definition format_time (t : go_time) : option (list ascii) :=
  let local := tm_ns t + tm_offset t * 1000000000 in
  let seconds := local / 1000000000 in
  let '(y, m, d) := civil_of_days (seconds / 86400) in
  let s := seconds mod 86400 in
  if decide (0 <= y <= 9999 /\ Z.abs (Z.quot (tm_offset t) 60) / 60 <= 23) then
    Some (four y ++ "-"%char :: two m ++ "-"%char :: two d ++ "T"%char :: two (s / 3600) ++ ":"%char :: two (s / 60 mod 60) ++
          ":"%char :: two (s mod 60) ++ fraction (local mod 1000000000) ++ zone (tm_offset t))
  else None.

(** ** Reading *)

(** A field of that many digits within bounds, and the text after it. *)
Definition field (width : nat) (low high : Z) (l : list ascii) : option (Z * list ascii) :=
  if decide (length (take width l) = width) then
    match read_digits (take width l) 0 with
    | Some n => if decide (low <= n <= high) then Some (n, drop width l) else None
    | None => None
    end
  else None.
Definition expect (c : ascii) (l : list ascii) : option (list ascii) :=
  match l with x :: l => if decide (x = c) then Some l else None | [] => None end.

(** The leading digits. *)
Fixpoint digit_run (l : list ascii) : list ascii * list ascii :=
  match l with
  | c :: l' => match digit_value c with
               | Some _ => let '(run, rest) := digit_run l' in (c :: run, rest)
               | None => ([], l)
               end
  | [] => ([], [])
  end.

Definition read_fraction (l : list ascii) : option (Z * list ascii) :=
  match l with
  | c :: l' =>
      if decide (c = "."%char) then
        match digit_run l' with
        | ([], _) => Some (0, l)
        | (run, rest) =>
            let run := take 9 run in
            v ← read_digits run 0; Some (v * 10 ^ (9 - Z.of_nat (length run)), rest)
        end
      else Some (0, l)
  | [] => Some (0, l)
  end.

(** The offset of the zone, which ends the text. *)
Definition read_zone (l : list ascii) : option Z :=
  match l with
  | [c] => if decide (c = "Z"%char) then Some 0 else None
  | c :: l =>
      '(hh, l) ← field 2 0 23 l; l ← expect ":"%char l; '(mm, l) ← field 2 0 59 l;
      if decide (l = []) then
        if decide (c = "+"%char) then Some ((hh * 60 + mm) * 60)
        else if decide (c = "-"%char) then Some (- ((hh * 60 + mm) * 60)) else None
      else None
  | [] => None
  end.

Definition parse_time (l : list ascii) : option go_time :=
  '(y, l) ← field 4 0 9999 l; l ← expect "-"%char l;
  '(m, l) ← field 2 1 12 l; l ← expect "-"%char l;
  '(d, l) ← field 2 1 (days_in m y) l; l ← expect "T"%char l;
  '(hh, l) ← field 2 0 23 l; l ← expect ":"%char l;
  '(mm, l) ← field 2 0 59 l; l ← expect ":"%char l;
  '(ss, l) ← field 2 0 59 l;
  '(frac, l) ← read_fraction l;
  offset ← read_zone l;
  Some (mkTime ((days_of_civil y m d * 86400 + hh * 3600 + mm * 60 + ss - offset) * 1000000000 + frac) offset).

Example time_ex :
  (of_bytes <$> format_time (UTC 1792000000123000000)) = Some "2026-10-14T17:46:40.123Z" /\
  parse_time (bytes "2026-10-14T19:46:40.123+02:00") = Some (mkTime 1792000000123000000 7200) /\
  (of_bytes <$> format_time zero_go_time) = Some "0001-01-01T00:00:00Z" /\
  parse_time (bytes "2025-02-29T00:00:00Z") = None.
Proof. vm_compute. repeat split. Qed.

(** ** A time in UTC is read back *)

Lemma leap_cycle y era : leap_year (y + era * 400) = leap_year y.
Proof. unfold leap_year. apply bool_decide_ext. split; intros H; Z.div_mod_to_equations; lia. Qed.

Lemma month_days doy y : let mp := (5 * doy + 2) / 153 in
  let m := if decide (mp < 10) then mp + 3 else mp - 9 in
  0 <= doy <= 365 -> (doy = 365 -> leap_year y = true) ->
  0 <= mp <= 11 /\ 1 <= doy - (153 * mp + 2) / 5 + 1 <= days_in m y.
Proof.
  cbv zeta. intros Hd Hl. set (mp := (5 * doy + 2) / 153).
  assert (0 <= mp <= 11 /\ 153 * mp <= 5 * doy + 2 < 153 * mp + 153) as [Hm Hb] by (subst mp; Z.div_mod_to_equations; lia).
  clearbody mp. split; [done|].
  assert (mp = 0 \/ mp = 1 \/ mp = 2 \/ mp = 3 \/ mp = 4 \/ mp = 5 \/ mp = 6 \/ mp = 7 \/ mp = 8 \/ mp = 9 \/ mp = 10 \/ mp = 11) as Hc by lia.
  destruct Hc as [->|[->|[->|[->|[->|[->|[->|[->|[->|[->|[->| ->]]]]]]]]]]];
    match goal with |- context [days_in ?m y] => let v := eval cbv -[leap_year] in (days_in m y) in change (days_in m y) with v end;
    match goal with |- context [(153 * ?k + 2) / 5] => let v := eval vm_compute in ((153 * k + 2) / 5) in change ((153 * k + 2) / 5) with v end;
    try lia.
  destruct (leap_year y) eqn:E; [lia|]. destruct (decide (doy = 365)) as [e|]; [by specialize (Hl e)|]. lia.
Qed.

Lemma civil_days z y m d : civil_of_days z = (y, m, d) -> days_of_civil y m d = z /\ 1 <= m <= 12 /\ 1 <= d <= days_in m y.
Proof.
  unfold civil_of_days. set (era := (z + 719468) / 146097). set (doe := z + 719468 - era * 146097).
  assert (0 <= doe < 146097) as Hdoe by (subst doe era; Z.div_mod_to_equations; lia).
  assert (z = era * 146097 + doe - 719468) as Hz by lia. clearbody era doe. cbv zeta.
  set (century := Z.min 3 (doe / 36524)). set (rest1 := doe - century * 36524).
  assert (0 <= century <= 3 /\ 0 <= rest1 < 36525 /\ (century < 3 -> rest1 < 36524)) as (Hc & Hr1 & Hr1')
    by (subst century rest1; Z.div_mod_to_equations; lia).
  assert (doe = century * 36524 + rest1) as He1 by lia. clearbody century rest1.
  set (group := rest1 / 1461). set (rest2 := rest1 - group * 1461).
  assert (0 <= group <= 24 /\ 0 <= rest2 <= 1460 /\ (group = 24 -> century < 3 -> rest2 < 1460)) as (Hg & Hr2 & Hr2')
    by (subst group rest2; Z.div_mod_to_equations; lia).
  assert (rest1 = group * 1461 + rest2) as He2 by lia. clearbody group rest2.
  set (year := Z.min 3 (rest2 / 365)). set (doy := rest2 - year * 365).
  assert (0 <= year <= 3 /\ 0 <= doy <= 365 /\ (doy = 365 -> year = 3 /\ rest2 = 1460)) as (Hy & Hdoy & Hlast)
    by (subst year doy; Z.div_mod_to_equations; lia).
  assert (rest2 = year * 365 + doy) as He3 by lia. clearbody year doy.
  set (yoe := century * 100 + group * 4 + year).
  assert (0 <= yoe < 400 /\ yoe / 4 = century * 25 + group /\ yoe / 100 = century) as (Hyoe & Hq & Hh)
    by (subst yoe; Z.div_mod_to_equations; lia).
  destruct (month_days doy (yoe + 1)) as [Hm Hd]; [lia| |].
  { intros Hl. destruct (Hlast Hl) as [Hy3 Hr]. unfold leap_year. apply bool_decide_eq_true.
    destruct (decide (group = 24)) as [Hg24|Hg24]; subst yoe; Z.div_mod_to_equations; lia. }
  assert (yoe * 365 + yoe / 4 - yoe / 100 + doy = doe) as Hdoe' by lia. clearbody yoe.
  set (mp := (5 * doy + 2) / 153) in *. clearbody mp. intros [= <- <- <-]. unfold days_of_civil.
  assert (forall a, (a + era * 400) / 400 = a / 400 + era) as Hdiv by (intros a; rewrite Z.div_add by lia; lia).
  destruct (decide (mp < 10)) as [Hmp|Hmp].
  - rewrite (decide_False (P := mp + 3 <= 2)) in * by lia. rewrite (decide_False (P := mp + 3 <= 2)), decide_True by lia.
    rewrite Hdiv, (Z.div_small yoe 400) by lia. replace (yoe + era * 400 - (0 + era) * 400) with yoe by lia.
    replace (mp + 3 - 3) with mp by lia. split; [lia|]. split; [lia|]. unfold days_in in *.
    by rewrite (decide_False (P := mp + 3 = 2)) in * by lia.
  - rewrite (decide_True (P := mp - 9 <= 2)) in * by lia. rewrite (decide_True (P := mp - 9 <= 2)), decide_False by lia.
    replace (yoe + era * 400 + 1 - 1) with (yoe + era * 400) by lia.
    rewrite Hdiv, (Z.div_small yoe 400) by lia. replace (yoe + era * 400 - (0 + era) * 400) with yoe by lia.
    replace (mp - 9 + 9) with mp by lia. split; [lia|]. split; [lia|]. unfold days_in in *.
    replace (yoe + era * 400 + 1) with (yoe + 1 + era * 400) by lia. by rewrite leap_cycle.
Qed.

Lemma read_two n rest : 0 <= n < 100 -> read_digits (two n ++ rest) 0 = read_digits rest n.
Proof.
  intros H. unfold two. cbn [app read_digits]. rewrite !digit_digit by (Z.div_mod_to_equations; lia).
  f_equal. Z.div_mod_to_equations. lia.
Qed.

Lemma field_two low high n rest : 0 <= n < 100 -> low <= n <= high -> field 2 low high (two n ++ rest) = Some (n, rest).
Proof.
  intros H1 H2. unfold field. change (take 2 (two n ++ rest)) with (two n). change (drop 2 (two n ++ rest)) with rest.
  rewrite decide_True by done. rewrite <- (app_nil_r (two n)), read_two by done. cbn. by rewrite decide_True.
Qed.

Lemma read_four n rest : 0 <= n <= 9999 -> read_digits (four n ++ rest) 0 = read_digits rest n.
Proof.
  intros H. unfold four, two. cbn [app read_digits]. rewrite !digit_digit by (Z.div_mod_to_equations; lia).
  f_equal. Z.div_mod_to_equations. lia.
Qed.

Lemma field_four n rest : 0 <= n <= 9999 -> field 4 0 9999 (four n ++ rest) = Some (n, rest).
Proof.
  intros H. unfold field. change (take 4 (four n ++ rest)) with (four n). change (drop 4 (four n ++ rest)) with rest.
  rewrite decide_True by done. rewrite <- (app_nil_r (four n)), read_four by done. cbn. by rewrite decide_True.
Qed.

Lemma expect_cons c rest : expect c (c :: rest) = Some rest.
Proof. unfold expect. by rewrite decide_True. Qed.

(** Digits that are no longer than nine stand for a number of billionths, and
    zeros at the end do not count. *)
Definition scaled (l : list ascii) : option Z := v ← read_digits l 0; Some (v * 10 ^ (9 - Z.of_nat (length l))).

Lemma read_digits_snoc l c v k : read_digits l v = Some k -> read_digits (l ++ [c]) v = d ← digit_value c; Some (10 * k + d).
Proof.
  revert v. induction l as [|x l IH]; intros v H; cbn in *; [injection H as ->; by destruct (digit_value c)|].
  destruct (digit_value x); [by apply IH|done].
Qed.
Lemma read_digits_prefix l r v k : read_digits (l ++ r) v = Some k -> exists k', read_digits l v = Some k'.
Proof.
  revert v. induction l as [|x l IH]; intros v H; cbn in *; [eauto|]. destruct (digit_value x); [by eapply IH|done].
Qed.

Lemma scaled_zeros l k : (length l <= 9)%nat -> scaled (rev l) = Some k -> scaled (rev (drop_zeros l)) = Some k.
Proof.
  induction l as [|c l IH]; intros Hl H; [done|]. cbn in Hl. cbn [drop_zeros]. case_decide as Hc; [|done]. subst c.
  apply IH; [lia|]. cbn [rev] in H. unfold scaled in *. destruct (read_digits (rev l ++ ["0"%char]) 0) as [v|] eqn:E; [|done].
  destruct (read_digits_prefix _ _ _ _ E) as [v' E']. rewrite (read_digits_snoc _ _ _ _ E') in E. cbn in E, H.
  injection E as <-. injection H as <-. rewrite E'. cbn. rewrite length_app, !length_rev. cbn. f_equal.
  replace (9 - Z.of_nat (length l)) with (Z.succ (9 - Z.of_nat (length l + 1))) by lia. rewrite Z.pow_succ_r by lia. lia.
Qed.

Lemma scaled_nine n : 0 <= n < 1000000000 -> scaled (nine n) = Some n.
Proof.
  intros H. unfold scaled, nine. cbn [fmap list_fmap read_digits length]. rewrite !digit_digit by (Z.div_mod_to_equations; lia).
  cbn. f_equal. Z.div_mod_to_equations. lia.
Qed.

Lemma digit_run_all l rest : Forall is_digit l -> (forall c r, rest = c :: r -> digit_value c = None) -> digit_run (l ++ rest) = (l, rest).
Proof.
  intros H Hr. induction H as [|c l (n & Hn & ->) _ IH]; cbn.
  - destruct rest as [|c r]; [done|]. cbn. by rewrite (Hr c r eq_refl).
  - by rewrite digit_digit, IH by done.
Qed.

Lemma drop_zeros_suffix l : exists k, l = k ++ drop_zeros l.
Proof.
  induction l as [|c l [k IH]]; [by exists []|]. cbn. case_decide; [|by exists []]. exists (c :: k). cbn. by rewrite <- IH.
Qed.

Lemma read_fraction_back n : 0 <= n < 1000000000 -> read_fraction (fraction n ++ ["Z"%char]) = Some (n, ["Z"%char]).
Proof.
  intros Hn. unfold fraction. pose proof (scaled_zeros (rev (nine n)) n) as Hs. rewrite rev_involutive in Hs.
  specialize (Hs ltac:(done) (scaled_nine n Hn)). destruct (drop_zeros_suffix (rev (nine n))) as [k Hk].
  assert (Forall is_digit (rev (nine n))) as Hd.
  { apply Forall_rev. unfold nine. repeat (apply Forall_cons; split; [eexists; split; [|reflexivity]; Z.div_mod_to_equations; lia|]).
    by apply Forall_nil. }
  assert (length (rev (nine n)) = 9%nat) as Hlen by done. set (l := drop_zeros (rev (nine n))) in *.
  rewrite Hk in Hd, Hlen. rewrite length_app in Hlen. apply Forall_app in Hd as [_ Hd%Forall_rev]. clearbody l.
  destruct (rev l) as [|c r] eqn:E; [cbn in *; unfold scaled in Hs; cbn in Hs; injection Hs as <-; done|].
  cbn [app read_fraction]. rewrite decide_True by done. change (c :: r ++ ["Z"%char]) with ((c :: r) ++ ["Z"%char]).
  rewrite digit_run_all; [|done|by intros ? ? [= <- <-]]. cbv iota beta. rewrite <- E in Hs |- *. rewrite take_ge by (rewrite length_rev; lia).
  unfold scaled in Hs. destruct (read_digits (rev l) 0); [|done]. cbn in *. by injection Hs as ->.
Qed.

#[local] Ltac next := cbn [mbind option_bind]; rewrite ?expect_cons; cbn [mbind option_bind]; rewrite field_two by lia.

(** A time in UTC with a text is what its text reads as. *)
Lemma parse_format_time ns text : format_time (UTC ns) = Some text -> parse_time text = Some (UTC ns).
Proof.
  unfold format_time. cbn [tm_ns tm_offset UTC]. rewrite Z.mul_0_l, Z.add_0_r.
  destruct (civil_of_days (ns / 1000000000 / 86400)) as [[y m] d] eqn:E. destruct (civil_days _ _ _ _ E) as (Hz & Hm & Hd).
  assert (1 <= days_in m y <= 31) as Hd' by (unfold days_in; repeat case_decide; destruct (leap_year y); lia).
  case_decide as Hy; [|done]. destruct Hy as [Hy _]. intros H. apply (inj Some) in H as <-. unfold parse_time.
  set (s := ns / 1000000000 mod 86400). assert (0 <= s < 86400) by (subst s; Z.div_mod_to_equations; lia).
  assert (0 <= s / 3600 <= 23 /\ 0 <= s / 60 mod 60 <= 59 /\ 0 <= s mod 60 <= 59) as (? & ? & ?) by (Z.div_mod_to_equations; lia).
  pose proof (Z.mod_pos_bound ns 1000000000 ltac:(lia)) as Hf.
  rewrite field_four by lia. do 5 next. cbn [mbind option_bind]. rewrite read_fraction_back by lia. cbn.
  rewrite decide_True by done. cbn. unfold UTC. f_equal. f_equal. rewrite Hz.
  pose proof (Z.div_mod ns 1000000000 ltac:(lia)) as Hn. pose proof (Z.div_mod (ns / 1000000000) 86400 ltac:(lia)) as Hs. fold s in Hs.
  assert (s / 3600 * 3600 + s / 60 mod 60 * 60 + s mod 60 = s) as Hc by (Z.div_mod_to_equations; lia). lia.
Qed.
