(* ===== verification/GoJsonTree.v ===== *)
(** * [encoding/json]: documents as trees

    What [json.Decoder] with [DisallowUnknownFields] makes of a text (the value it
    reads, the fields of a struct it finds by name, the errors that end in no
    result) and what [json.Marshal] writes, both by way of a tree that keeps
    strings and numbers as they are written. *)

From S2P Require Import GoUrl Prelude GoStrings GoSha256 GoJson GoTime.
From Stdlib Require Import Ascii.
Open Scope string_scope.
Open Scope list_scope.
Open Scope Z_scope.

#[local] Set Warnings "-register-all".

Inductive jvalue :=
| JNull
| JBool (b : bool)
| JNum (text : list ascii)
| JStr (raw : list ascii)
| JArr (l : list jvalue)
| JObj (l : list (list ascii * jvalue)).

(** ** Reading *)
Fixpoint skip_space (l : list ascii) : list ascii :=
  match l with
  | c :: l' => if is_space c then skip_space l' else l
  | [] => []
  end.

(** The text up to the closing quote, escapes as written. *)
Fixpoint string_body (l : list ascii) : option (list ascii * list ascii) :=
  match l with
  | [] => None
  | c :: l1 =>
      if decide (c = QUOTE) then Some ([], l1)
      else if decide (c = BS) then
        match l1 with
        | [] => None
        | e :: l2 =>
            if decide (e ∈ bytes "bfnrt/" ++ [BS; QUOTE]) then
              '(raw, rest) ← string_body l2; Some (c :: e :: raw, rest)
            else if decide (e = "u"%char) then
              match l2 with
              | h1 :: h2 :: h3 :: h4 :: l3 =>
                  if (hex_byte h1 && hex_byte h2 && hex_byte h3 && hex_byte h4)%bool then
                    '(raw, rest) ← string_body l3; Some (c :: e :: h1 :: h2 :: h3 :: h4 :: raw, rest)
                  else None
              | _ => None
              end
            else None
        end
      else if decide (N_of_ascii c < 32)%N then None
      else '(raw, rest) ← string_body l1; Some (c :: raw, rest)
  end.

Definition read_integer (l : list ascii) : option (list ascii * list ascii) :=
  match l with
  | c :: l' =>
      if decide (c = "0"%char) then Some ([c], l')
      else match digit_run l with ([], _) => None | (run, rest) => Some (run, rest) end
  | [] => None
  end.
Definition read_decimals (l : list ascii) : option (list ascii * list ascii) :=
  match l with
  | c :: l' => if decide (c = "."%char) then match digit_run l' with ([], _) => None | (run, rest) => Some (c :: run, rest) end
               else Some ([], l)
  | [] => Some ([], l)
  end.
Definition read_exponent (l : list ascii) : option (list ascii * list ascii) :=
  match l with
  | c :: l' =>
      if decide (c = "e"%char \/ c = "E"%char) then
        let '(sign, l') := match l' with
          | s :: l2 => if decide (s = "+"%char \/ s = "-"%char) then ([s], l2) else ([], l')
          | [] => ([], l')
          end in
        match digit_run l' with ([], _) => None | (run, rest) => Some (c :: sign ++ run, rest) end
      else Some ([], l)
  | [] => Some ([], l)
  end.
Definition read_number (l : list ascii) : option (list ascii * list ascii) :=
  let '(sign, l) := match l with c :: l' => if decide (c = "-"%char) then ([c], l') else ([], l) | [] => ([], l) end in
  '(whole, l) ← read_integer l; '(decimals, l) ← read_decimals l; '(exponent, l) ← read_exponent l;
  Some (sign ++ whole ++ decimals ++ exponent, l).

Fixpoint read_word (word l : list ascii) : option (list ascii) :=
  match word, l with
  | [], _ => Some l
  | w :: word, c :: l => if decide (w = c) then read_word word l else None
  | _, [] => None
  end.

Definition deeper (depth : Z) : bool := bool_decide (depth + 1 <= maxNestingDepth).

(** [depth] counts the objects and arrays that are open. *)
Fixpoint read_value (fuel : nat) (depth : Z) (l : list ascii) : option (jvalue * list ascii) :=
  match fuel with
  | O => None
  | S fuel =>
      match skip_space l with
      | [] => None
      | c :: l =>
          if decide (c = "{"%char) then
            if deeper depth then
              match skip_space l with
              | [] => None
              | e :: rest => if decide (e = "}"%char) then Some (JObj [], rest)
                             else '(ms, rest) ← read_members fuel (depth + 1) (e :: rest); Some (JObj ms, rest)
              end
            else None
          else if decide (c = "["%char) then
            if deeper depth then
              match skip_space l with
              | [] => None
              | e :: rest => if decide (e = "]"%char) then Some (JArr [], rest)
                             else '(vs, rest) ← read_elements fuel (depth + 1) (e :: rest); Some (JArr vs, rest)
              end
            else None
          else if decide (c = QUOTE) then '(raw, rest) ← string_body l; Some (JStr raw, rest)
          else if decide (c = "t"%char) then rest ← read_word (bytes "rue") l; Some (JBool true, rest)
          else if decide (c = "f"%char) then rest ← read_word (bytes "alse") l; Some (JBool false, rest)
          else if decide (c = "n"%char) then rest ← read_word (bytes "ull") l; Some (JNull, rest)
          else '(text, rest) ← read_number (c :: l); Some (JNum text, rest)
      end
  end
with read_members (fuel : nat) (depth : Z) (l : list ascii) : option (list (list ascii * jvalue) * list ascii) :=
  match fuel with
  | O => None
  | S fuel =>
      l ← expect QUOTE (skip_space l);
      '(key, l) ← string_body l;
      l ← expect ":"%char (skip_space l);
      '(v, l) ← read_value fuel depth l;
      match skip_space l with
      | [] => None
      | c :: l => if decide (c = ","%char) then '(ms, l) ← read_members fuel depth l; Some ((key, v) :: ms, l)
                  else if decide (c = "}"%char) then Some ([(key, v)], l) else None
      end
  end
with read_elements (fuel : nat) (depth : Z) (l : list ascii) : option (list jvalue * list ascii) :=
  match fuel with
  | O => None
  | S fuel =>
      '(v, l) ← read_value fuel depth l;
      match skip_space l with
      | [] => None
      | c :: l => if decide (c = ","%char) then '(vs, l) ← read_elements fuel depth l; Some (v :: vs, l)
                  else if decide (c = "]"%char) then Some ([v], l) else None
      end
  end.

(** The one value of a text: [Decode] reads it, and a second [Decode] meets the
    end.  Every second call consumes a byte at least. *)
Definition read_document (l : list ascii) : option jvalue :=
  '(v, rest) ← read_value (2 * length l) 0 l;
  if decide (skip_space rest = []) then Some v else None.

(** ** Strings *)
Definition hex_value (c : ascii) : Z :=
  let n := Z.of_N (N_of_ascii c) in if decide (n <= 57) then n - 48 else if decide (n <= 70) then n - 55 else n - 87.
Definition getu4 (l : list ascii) : option (Z * list ascii) :=
  match l with
  | b :: u :: h1 :: h2 :: h3 :: h4 :: rest =>
      if decide (b = BS /\ u = "u"%char) then
        Some (((hex_value h1 * 16 + hex_value h2) * 16 + hex_value h3) * 16 + hex_value h4, rest)
      else None
  | _ => None
  end.

Definition byte (n : Z) : ascii := ascii_of_N (Z.to_N n).
Definition AppendRune (r : Z) : list ascii :=
  if decide (r < 128) then [byte r]
  else if decide (r < 2048) then [byte (192 + r / 64); byte (128 + r mod 64)]
  else if decide (r < 65536) then [byte (224 + r / 4096); byte (128 + r / 64 mod 64); byte (128 + r mod 64)]
  else [byte (240 + r / 262144); byte (128 + r / 4096 mod 64); byte (128 + r / 64 mod 64); byte (128 + r mod 64)].
Definition RuneError : list ascii := AppendRune 65533.

Definition simple_escape (e : ascii) : ascii :=
  if decide (e = "b"%char) then byte 8 else if decide (e = "f"%char) then byte 12 else if decide (e = "n"%char) then byte 10
  else if decide (e = "r"%char) then byte 13 else if decide (e = "t"%char) then byte 9 else e.

(** What a string stands for; each step consumes at least a byte. *)
Fixpoint unquote (fuel : nat) (l : list ascii) : list ascii :=
  match fuel, l with
  | O, _ | _, [] => []
  | S fuel, c :: l1 =>
      if decide (c = BS) then
        match getu4 l with
        | Some (r, rest) =>
            if decide (55296 <= r < 57344) then
              match getu4 rest with
              | Some (r2, rest2) =>
                  if decide (r < 56320 /\ 56320 <= r2 < 57344)
                  then AppendRune ((r - 55296) * 1024 + (r2 - 56320) + 65536) ++ unquote fuel rest2
                  else RuneError ++ unquote fuel rest
              | None => RuneError ++ unquote fuel rest
              end
            else AppendRune r ++ unquote fuel rest
        | None => match l1 with e :: l2 => simple_escape e :: unquote fuel l2 | [] => [] end
        end
      else if decide (N_of_ascii c < 128)%N then c :: unquote fuel l1
      else match utf8_rune l with
           | None => RuneError ++ unquote fuel l1
           | Some n => take n l ++ unquote fuel (drop n l)
           end
  end.
Definition json_string (raw : list ascii) : string := of_bytes (unquote (length raw) raw).

(** ** Values of Go

    [decode v old] is the variable after the value was decoded into it. *)
Definition dec_string (v : jvalue) (old : string) : option string :=
  match v with JNull => Some old | JStr raw => Some (json_string raw) | _ => None end.
Definition dec_int (v : jvalue) (old : Z) : option Z :=
  match v with JNull => Some old | JNum text => ParseInt text | _ => None end.
Definition dec_time (v : jvalue) (old : go_time) : option go_time :=
  match v with JNull => Some old | JStr raw => parse_time raw | _ => None end.

(** Elements are decoded into the ones that are there. *)
Fixpoint dec_elements {A} (zero : A) (dec : jvalue -> A -> option A) (vs : list jvalue) (old : list A) : option (list A) :=
  match vs with
  | [] => Some []
  | v :: vs => x ← dec v (default zero (head old)); xs ← dec_elements zero dec vs (tail old); Some (x :: xs)
  end.
Definition dec_slice {A} (zero : A) (dec : jvalue -> A -> option A) (v : jvalue) (old : list A) : option (list A) :=
  match v with JNull => Some [] | JArr vs => dec_elements zero dec vs old | _ => None end.

(** A key names the field that is spelled like it, or the first one that differs
    in case only; the long s and the Kelvin sign fold to letters. *)
Fixpoint fold_key (l : list ascii) : list ascii :=
  match l with
  | [] => []
  | c :: l1 =>
      if decide (97 <= N_of_ascii c <= 122)%N then ascii_of_N (N_of_ascii c - 32) :: fold_key l1
      else match l1 with
           | d :: l2 =>
               if decide (N_of_ascii c = 197 /\ N_of_ascii d = 191)%N then "S"%char :: fold_key l2
               else match l2 with
                    | e :: l3 =>
                        if decide (N_of_ascii c = 226 /\ N_of_ascii d = 132 /\ N_of_ascii e = 170)%N
                        then "K"%char :: fold_key l3 else c :: fold_key l1
                    | [] => c :: fold_key l1
                    end
           | [] => [c]
           end
  end.

Record field_of (S : Type) := mkField { fd_name : string; fd_decode : jvalue -> S -> option S }.
Arguments mkField {S} fd_name fd_decode.
Arguments fd_name {S} f.
Arguments fd_decode {S} f.

Definition find_field {S} (fields : list (field_of S)) (key : string) : option (field_of S) :=
  match first_where (fun f => fd_name f = key) fields with
  | Some f => Some f
  | None => first_where (fun f => fold_key (bytes (fd_name f)) = fold_key (bytes key)) fields
  end.

(** An unknown field is an error. *)
Fixpoint dec_members {S} (fields : list (field_of S)) (ms : list (list ascii * jvalue)) (s : S) : option S :=
  match ms with
  | [] => Some s
  | (key, v) :: ms => f ← find_field fields (json_string key); s ← fd_decode f v s; dec_members fields ms s
  end.
Definition dec_struct {S} (fields : list (field_of S)) (v : jvalue) (old : S) : option S :=
  match v with JNull => Some old | JObj ms => dec_members fields ms old | _ => None end.

Definition decodeStrictJSON {S} (fields : list (field_of S)) (zero : S) (document : list ascii) : option S :=
  v ← read_document document; dec_struct fields v zero.

(** ** Printing *)
Definition quoted (raw : list ascii) : list ascii := QUOTE :: raw ++ [QUOTE].
Fixpoint jprint (v : jvalue) : list ascii :=
  match v with
  | JNull => bytes "null"
  | JBool b => bytes (if b then "true" else "false")
  | JNum text => text
  | JStr raw => quoted raw
  | JArr l => "["%char :: join_bytes (jprint <$> l) ++ ["]"%char]
  | JObj l => "{"%char :: join_bytes ((fun '(k, v) => quoted k ++ ":"%char :: jprint v) <$> l) ++ ["}"%char]
  end.

Definition raw_string (s : string) : list ascii := encode_bytes (length (bytes s)) (bytes s).
Definition jstring (s : string) : jvalue := JStr (raw_string s).
Definition jint (n : Z) : jvalue := JNum (format_decimal n).
Definition jtime (t : go_time) : option jvalue := JStr <$> format_time t.
Definition member (key : string) (v : jvalue) : list ascii * jvalue := (bytes key, v).
(** [omitempty] *)
Definition member_unless (empty : bool) (key : string) (v : jvalue) : list (list ascii * jvalue) :=
  if empty then [] else [member key v].

(** A text with ticks for quotes. *)
Definition ticks (s : string) : list ascii := (fun c => if decide (c = "'"%char) then QUOTE else c) <$> bytes s.

Example document_ex :
  (jprint <$> read_document (ticks " { 'n' : [ 1 , -2.5e+3 , true ] , 's':'aé\n' } ")) =
    Some (ticks "{'n':[1,-2.5e+3,true],'s':'aé\n'}") /\
  bytes (json_string (bytes "a\u00e9\ud83d\ude00\ud800x")) = bytes "aé😀" ++ RuneError ++ bytes "x" /\
  read_document (ticks "{'a':1,}") = None /\ read_document (bytes "[1] 2") = None.
Proof. vm_compute. repeat split. Qed.

(** ** A printed document is read back *)
Definition jvalue_rect' (P : jvalue -> Prop) (Hnull : P JNull) (Hbool : forall b, P (JBool b)) (Hnum : forall t, P (JNum t))
    (Hstr : forall r, P (JStr r)) (Harr : forall l, Forall P l -> P (JArr l))
    (Hobj : forall l, Forall (fun m => P m.2) l -> P (JObj l)) : forall v, P v :=
  fix go v := match v with
  | JNull => Hnull
  | JBool b => Hbool b
  | JNum t => Hnum t
  | JStr r => Hstr r
  | JArr l => Harr l ((fix all l := match l return Forall P l with
                       | [] => Forall_nil_2 P
                       | v :: l => Forall_cons_2 P v l (go v) (all l) end) l)
  | JObj l => Hobj l ((fix all l := match l return Forall (fun m : list ascii * jvalue => P m.2) l with
                       | [] => Forall_nil_2 _
                       | m :: l => Forall_cons_2 _ m l (go m.2) (all l) end) l)
  end.

(** What follows a value in a printed document. *)
Definition ends (rest : list ascii) : Prop :=
  match rest with [] => True | c :: _ => c ∈ [","; "]"; "}"]%char end.
Definition raw_ok (raw : list ascii) : Prop := forall rest, string_body (raw ++ QUOTE :: rest) = Some (raw, rest).
(** A number begins with a sign or a digit. *)
Definition number_start (c : ascii) : bool := bool_decide (c = "-"%char) || digit_byte c.
Definition number_ok (text : list ascii) : Prop :=
  (exists c l, text = c :: l /\ number_start c = true) /\ forall rest, ends rest -> read_number (text ++ rest) = Some (text, rest).

Fixpoint jdepth (v : jvalue) : Z :=
  match v with
  | JArr l => 1 + foldr (fun v n => Z.max (jdepth v) n) 0 l
  | JObj l => 1 + foldr (fun m n => Z.max (jdepth m.2) n) 0 l
  | _ => 0
  end.
Fixpoint printable (v : jvalue) : Prop :=
  match v with
  | JNum text => number_ok text
  | JStr raw => raw_ok raw
  | JArr l => foldr (fun v P => printable v /\ P) True l
  | JObj l => foldr (fun m P => (raw_ok m.1 /\ printable m.2) /\ P) True l
  | _ => True
  end.

Lemma jdepth_nonneg v : 0 <= jdepth v.
Proof.
  induction v as [| | | |l IH|l IH] using jvalue_rect'; cbn; try lia.
  - assert (0 <= foldr (fun v n => Z.max (jdepth v) n) 0 l); [induction IH; cbn; lia|lia].
  - assert (0 <= foldr (fun m n => Z.max (jdepth m.2) n) 0 l); [induction IH; cbn; lia|lia].
Qed.

Definition value_start (c : ascii) : Prop := is_space c = false /\ c <> "]"%char.
Definition start_ok (c : ascii) : bool :=
  implb (number_start c) (bool_decide ((is_space c = false /\ c <> "]"%char) /\ c <> "{"%char /\ c <> "["%char /\ c <> QUOTE /\
    c <> "t"%char /\ c <> "f"%char /\ c <> "n"%char)).
Lemma number_start_not c : number_start c = true ->
  value_start c /\ c <> "{"%char /\ c <> "["%char /\ c <> QUOTE /\ c <> "t"%char /\ c <> "f"%char /\ c <> "n"%char.
Proof.
  intros H. assert (start_ok c = true) as Hc by (apply all_bytes; vm_compute; reflexivity).
  unfold start_ok in Hc. rewrite H in Hc. by apply bool_decide_eq_true in Hc.
Qed.

Lemma skip_start c l : is_space c = false -> skip_space (c :: l) = c :: l.
Proof. intros H. cbn. by rewrite H. Qed.

Lemma jprint_head v : printable v -> exists c l, jprint v = c :: l /\ value_start c.
Proof.
  destruct v as [|[]|text|raw|l|l]; cbn; try (by intros _; do 2 eexists; split; [reflexivity|done]).
  - intros [(c & l & -> & Hc) _]. exists c, l. split; [done|]. by apply number_start_not.
Qed.

(** A value within an array or an object. *)
Definition reads (v : jvalue) : Prop := forall fuel d rest, (2 * length (jprint v) <= fuel)%nat -> d + jdepth v <= maxNestingDepth ->
  ends rest -> read_value fuel d (jprint v ++ rest) = Some (v, rest).

Lemma read_elements_back l d : Forall (fun v => printable v /\ reads v /\ d + jdepth v <= maxNestingDepth) l -> l <> [] -> forall fuel rest,
  (2 * length (join_bytes (jprint <$> l)) + 1 <= fuel)%nat ->
  read_elements fuel d (join_bytes (jprint <$> l) ++ "]"%char :: rest) = Some (l, rest).
Proof.
  intros H. induction H as [|v l (Hp & Hv & Hd) H IH]; intros Hne fuel rest Hf; [done|].
  destruct fuel as [|fuel]; [lia|]. destruct l as [|v' l].
  - cbn in *. rewrite Hv by (try done; lia || set_solver). by cbn.
  - change (join_bytes (jprint <$> v :: v' :: l)) with (jprint v ++ ","%char :: join_bytes (jprint <$> v' :: l)) in *.
    rewrite length_app in Hf. cbn [length] in Hf. rewrite <- app_assoc. cbn [app read_elements].
    rewrite Hv by (try done; lia || set_solver). cbn [mbind option_bind].
    change (skip_space (","%char :: ?r)) with (","%char :: r). cbv iota beta. rewrite decide_True by done.
    rewrite IH by (done || lia). done.
Qed.

Definition print_member (m : list ascii * jvalue) : list ascii := let '(k, v) := m in quoted k ++ ":"%char :: jprint v.

Lemma read_members_back l d : Forall (fun m => raw_ok m.1 /\ printable m.2 /\ reads m.2 /\ d + jdepth m.2 <= maxNestingDepth) l -> l <> [] ->
  forall fuel rest, (2 * length (join_bytes (print_member <$> l)) <= fuel)%nat ->
  read_members fuel d (join_bytes (print_member <$> l) ++ "}"%char :: rest) = Some (l, rest).
Proof.
  intros H. induction H as [|[k v] l (Hk & Hp & Hv & Hd) H IH]; intros Hne fuel rest Hf; [done|]. cbn [fst snd] in *.
  assert (forall fuel tail, (2 * length (quoted k ++ ":"%char :: jprint v) <= S fuel)%nat -> ends tail ->
    read_members (S fuel) d (quoted k ++ ":"%char :: jprint v ++ tail) =
      match skip_space tail with
      | [] => None
      | c :: l => if decide (c = ","%char) then '(ms, l) ← read_members fuel d l; Some ((k, v) :: ms, l)
                  else if decide (c = "}"%char) then Some ([(k, v)], l) else None
      end) as Hm.
  { intros f tail Hf' Ht. unfold quoted in *. rewrite length_app in Hf'. cbn in Hf'. rewrite length_app in Hf'. cbn in Hf'.
    cbn [app read_members]. change (expect QUOTE (skip_space (QUOTE :: ?r))) with (Some r). cbn [mbind option_bind].
    rewrite <- app_assoc. cbn [app]. rewrite Hk. cbn [mbind option_bind].
    change (expect ":"%char (skip_space (":"%char :: ?r))) with (Some r). cbn [mbind option_bind].
    rewrite Hv by (done || lia). done. }
  destruct fuel as [|fuel]; [unfold quoted in Hf; destruct l; cbn in Hf; lia|]. destruct l as [|m' l].
  - cbn [fmap list_fmap join_bytes print_member] in *. rewrite <- app_assoc. cbn [app]. rewrite Hm; [done|lia|]. cbn. set_solver.
  - change (join_bytes (print_member <$> (k, v) :: m' :: l))
      with ((quoted k ++ ":"%char :: jprint v) ++ ","%char :: join_bytes (print_member <$> m' :: l)) in *.
    rewrite length_app in Hf. cbn [length] in Hf. rewrite <- !app_assoc. cbn [app]. rewrite Hm; [|lia|cbn; set_solver].
    change (skip_space (","%char :: ?r)) with (","%char :: r). cbv iota beta. rewrite decide_True by done.
    rewrite IH by (done || lia). done.
Qed.

Lemma in_depth {A} (depth : A -> Z) l : Forall (fun v => depth v <= foldr (fun v n => Z.max (depth v) n) 0 l) l.
Proof.
  induction l as [|v l IH]; constructor; cbn; [lia|]. eapply Forall_impl; [exact IH|]. intros w. cbn. lia.
Qed.
Lemma printable_all l : foldr (fun v P => printable v /\ P) True l -> Forall printable l.
Proof. induction l; cbn; [constructor|]. intros [? ?]. constructor; auto. Qed.
Lemma printable_members l : foldr (fun (m : list ascii * jvalue) P => (raw_ok m.1 /\ printable m.2) /\ P) True l ->
  Forall (fun m : list ascii * jvalue => raw_ok m.1 /\ printable m.2) l.
Proof. induction l; cbn; [constructor|]. intros [? ?]. constructor; auto. Qed.

Lemma read_print v : printable v -> reads v.
Proof.
  induction v as [|[]|text|raw|l IH|l IH] using jvalue_rect'; intros Hp fuel d rest Hf Hd He.
  1-3: destruct fuel as [|fuel]; [cbn in Hf; lia|]; reflexivity.
  - destruct Hp as [(c & l & -> & Hc) Hn]. destruct fuel as [|fuel]; [cbn in Hf; lia|].
    apply number_start_not in Hc as ([Hs _] & ? & ? & ? & ? & ? & ?). cbn [jprint app read_value]. rewrite skip_start by done.
    rewrite !decide_False by done. change (c :: l ++ rest) with ((c :: l) ++ rest). by rewrite (Hn rest He).
  - destruct fuel as [|fuel]; [cbn in Hf; lia|]. cbn [jprint quoted app read_value]. rewrite skip_start by done.
    rewrite !(decide_False (P := QUOTE = _)) by done. rewrite decide_True by done. rewrite <- app_assoc. cbn [app]. by rewrite (Hp rest).
  - destruct fuel as [|fuel]; [cbn in Hf; lia|]. cbn [jprint] in *. cbn [length] in Hf. rewrite length_app in Hf. cbn [length] in Hf.
    apply printable_all in Hp. cbn [jdepth] in Hd. pose proof (in_depth jdepth l) as Hdep. set (m := foldr _ 0 l) in *.
    assert (0 <= m) by (subst m; clear; induction l; cbn; lia). cbn [app read_value]. rewrite skip_start by done.
    rewrite (decide_False (P := "["%char = _)), decide_True by done. unfold deeper. rewrite bool_decide_true by lia.
    destruct l as [|v l]; [done|]. destruct (jprint_head v) as (c & r & Hr & Hs & Hc); [by inversion Hp|].
    assert (exists r', join_bytes (jprint <$> v :: l) = c :: r') as [r' Hr'].
    { destruct l; cbn; rewrite Hr; eexists; reflexivity. }
    rewrite <- app_assoc. rewrite Hr'. cbn [app]. rewrite skip_start by done. rewrite decide_False by done.
    change (c :: r' ++ ?x) with ((c :: r') ++ x). rewrite <- Hr'. rewrite read_elements_back; [done| |done|lia].
    rewrite Forall_forall in IH, Hp, Hdep. apply Forall_forall. intros w Hw. split_and!; [by apply Hp|by apply IH; auto|].
    specialize (Hdep w Hw). lia.
  - destruct fuel as [|fuel]; [cbn in Hf; lia|]. cbn [jprint] in *. cbn [length] in Hf. rewrite length_app in Hf. cbn [length] in Hf.
    apply printable_members in Hp. cbn [jdepth] in Hd. pose proof (in_depth (fun m : list ascii * jvalue => jdepth m.2) l) as Hdep.
    set (m := foldr _ 0 l) in *. assert (0 <= m) by (subst m; clear; induction l; cbn; lia).
    cbn [app read_value]. rewrite skip_start by done. rewrite decide_True by done. unfold deeper. rewrite bool_decide_true by lia.
    destruct l as [|[k v] l]; [done|].
    assert (exists r', join_bytes (print_member <$> (k, v) :: l) = QUOTE :: r') as [r' Hr'] by (destruct l; cbn; eexists; reflexivity).
    change ((fun '(k, v) => quoted k ++ ":"%char :: jprint v) <$> (k, v) :: l) with (print_member <$> (k, v) :: l) in *.
    rewrite <- app_assoc. rewrite Hr'. cbn [app]. rewrite skip_start by done. rewrite decide_False by done.
    change (QUOTE :: r' ++ ?x) with ((QUOTE :: r') ++ x). rewrite <- Hr'. rewrite read_members_back; [done| |done|lia].
    rewrite Forall_forall in IH, Hp, Hdep. apply Forall_forall. intros w Hw. destruct (Hp w Hw). split_and!; [done|done|by apply IH; auto|].
    specialize (Hdep w Hw). clearbody m. lia.
Qed.

Lemma read_document_print v : printable v -> jdepth v <= maxNestingDepth -> read_document (jprint v) = Some v.
Proof.
  intros Hp Hd. unfold read_document. rewrite <- (app_nil_r (jprint v)) at 2. by rewrite (read_print v Hp) by (cbn; lia || done).
Qed.

(** ** Strings and numbers are read back *)

(** [utf8.ValidString] *)
Fixpoint valid_utf8 (fuel : nat) (l : list ascii) : bool :=
  match fuel, l with
  | _, [] => true
  | O, _ => false
  | S fuel, c :: rest =>
      if decide (Z.of_N (code c) < 128) then valid_utf8 fuel rest
      else match utf8_rune l with Some n => valid_utf8 fuel (drop n l) | None => false end
  end.
Definition ValidString (s : string) : bool := valid_utf8 (length (bytes s)) (bytes s).

Definition body_plain (c : ascii) : bool := bool_decide (c <> QUOTE /\ c <> BS /\ ~ (N_of_ascii c < 32)%N).
Lemma string_body_plain l rest : Forall (fun c => body_plain c = true) l ->
  string_body (l ++ rest) = '(raw, rest) ← string_body rest; Some (l ++ raw, rest).
Proof.
  intros H. induction H as [|c l Hc _ IH]; [cbn; by destruct (string_body rest) as [[]|]|].
  unfold body_plain in Hc. apply bool_decide_eq_true in Hc as (H1 & H2 & H3). cbn [app string_body].
  rewrite !decide_False by done. rewrite IH. by destruct (string_body rest) as [[]|].
Qed.
Lemma raw_ok_plain l : Forall (fun c => body_plain c = true) l -> raw_ok l.
Proof. intros H rest. rewrite string_body_plain by done. cbn [string_body]. rewrite decide_True by done. cbn [mbind option_bind]. by rewrite app_nil_r. Qed.

Lemma string_body_escape c rest : string_body (escape_ascii c ++ rest) = '(raw, rest) ← string_body rest; Some (escape_ascii c ++ raw, rest).
Proof. destruct c as [[] [] [] [] [] [] [] []]; reflexivity. Qed.

Lemma high_plain c : 128 <= Z.of_N (code c) -> body_plain c = true.
Proof.
  intros H. apply bool_decide_eq_true. unfold code in H. split_and!; [intros ->; done|intros ->; done|]. lia.
Qed.
Lemma cont_high lo hi c : 128 <= lo -> cont lo hi c = true -> 128 <= Z.of_N (code c).
Proof. unfold cont. intros Hl [H%Z.leb_le _]%andb_true_iff. lia. Qed.

#[local] Ltac high E := let H := fresh in pose proof E as H; apply cont_high in H; [|try case_decide; lia].
#[local] Ltac rune_case := split_and!; [repeat (constructor; [apply high_plain; lia|]); constructor|reflexivity|lia|].

(** The bytes of a rune: two, three or four of them, none below 128; what follows
    does not matter. *)
Lemma utf8_rune_cases l n : utf8_rune l = Some n ->
  Forall (fun c => body_plain c = true) (take n l) /\ (length (take n l) = n)%nat /\ (2 <= n)%nat /\
  (forall r, utf8_rune (take n l ++ r) = Some n).
Proof.
  destruct l as [|b0 [|b1 rest]]; [done|done|]. cbn [utf8_rune]. cbv zeta.
  case_decide as H0.
  { destruct (cont 128 191 b1) eqn:E1; [|done]. intros [= <-]. high E1.
    rune_case. intros r. cbn. rewrite decide_True by done. by rewrite E1. }
  case_decide as H1.
  { destruct rest as [|b2 rest]; [done|]. destruct (cont _ _ b1) eqn:E1; [|done]. destruct (cont 128 191 b2) eqn:E2; [|done].
    intros [= <-]. high E1. high E2.
    rune_case. intros r. cbn [take app utf8_rune]. cbv zeta. rewrite decide_False, decide_True by done. by rewrite E1, E2. }
  case_decide as H2; [|done].
  destruct rest as [|b2 [|b3 rest]]; [done|done|]. destruct (cont _ _ b1) eqn:E1; [|done]. destruct (cont 128 191 b2) eqn:E2; [|done].
  destruct (cont 128 191 b3) eqn:E3; [|done]. intros [= <-]. high E1.
  high E2. high E3.
  rune_case. intros r. cbn [take app utf8_rune]. cbv zeta. rewrite !decide_False, decide_True by done. by rewrite E1, E2, E3.
Qed.

Lemma separator_rune l n v : utf8_rune l = Some n -> line_separator l = Some v -> n = 3%nat /\ take 3 l = AppendRune v /\ (v = 8232 \/ v = 8233).
Proof.
  intros Hn. unfold line_separator. destruct l as [|b0 [|b1 [|b2 rest]]]; [done|..]; [by repeat case_decide|by repeat case_decide|].
  cbn [take]. case_decide as H1; [|case_decide as H2; [|done]]; intros [= <-];
    match goal with H : _ = _ |- _ => cbn in H; injection H as -> -> -> end; vm_compute in Hn; injection Hn as <-; split_and!; auto.
Qed.

Lemma raw_ok_app l : (forall rest, string_body (l ++ rest) = '(raw, rest) ← string_body rest; Some (l ++ raw, rest)) ->
  forall m, raw_ok m -> raw_ok (l ++ m).
Proof. intros H m Hm rest. by rewrite <- app_assoc, H, Hm. Qed.
Lemma string_body_hex4 v rest : v = 65533 \/ v = 8232 \/ v = 8233 ->
  string_body (hex4 v ++ rest) = '(raw, rest) ← string_body rest; Some (hex4 v ++ raw, rest).
Proof. intros [->|[->| ->]]; reflexivity. Qed.

Lemma encode_raw_ok fuel l : raw_ok (encode_bytes fuel l).
Proof.
  revert l. induction fuel as [|fuel IH]; intros l; [by apply raw_ok_plain|]. destruct l as [|c l]; [by apply raw_ok_plain|].
  cbn [encode_bytes]. case_decide; [apply raw_ok_app; [apply string_body_escape|apply IH]|].
  destruct (utf8_rune (c :: l)) as [n|] eqn:E.
  - apply raw_ok_app; [|apply IH]. intros rest. destruct (line_separator _) eqn:Es.
    + destruct (separator_rune _ _ _ E Es) as (_ & _ & Hv). apply string_body_hex4. tauto.
    + apply string_body_plain. by destruct (utf8_rune_cases _ _ E).
  - apply raw_ok_app; [|apply IH]. intros rest. apply string_body_hex4. tauto.
Qed.
Lemma raw_string_ok s : raw_ok (raw_string s).
Proof. apply encode_raw_ok. Qed.

Lemma hex_value_char d : 0 <= d < 16 -> hex_value (hex_char d) = d.
Proof.
  intros H. assert (d = 0 \/ d = 1 \/ d = 2 \/ d = 3 \/ d = 4 \/ d = 5 \/ d = 6 \/ d = 7 \/ d = 8 \/ d = 9 \/ d = 10 \/ d = 11 \/
    d = 12 \/ d = 13 \/ d = 14 \/ d = 15) as Hd by lia.
  repeat (destruct Hd as [->|Hd]; [reflexivity|]). by subst.
Qed.
Lemma getu4_hex4 v rest : 0 <= v < 65536 -> getu4 (hex4 v ++ rest) = Some (v, rest).
Proof.
  intros H. unfold hex4. cbn [app getu4]. rewrite decide_True by done. rewrite !hex_value_char by (Z.div_mod_to_equations; lia).
  f_equal. f_equal. Z.div_mod_to_equations. lia.
Qed.
Lemma getu4_not e rest : e <> "u"%char -> getu4 (BS :: e :: rest) = None.
Proof. intros H. do 4 (destruct rest as [|? rest]; [done|]). cbn. by rewrite decide_False by tauto. Qed.

Definition escape_kind (c : ascii) : bool :=
  match escape_ascii c with
  | [x] => bool_decide (x = c /\ c <> BS)
  | [x; e] => bool_decide (x = BS /\ e <> "u"%char /\ simple_escape e = c)
  | l => bool_decide (l = hex4 (Z.of_N (code c)) /\ AppendRune (Z.of_N (code c)) = [c] /\ Z.of_N (code c) < 128)
  end.
Lemma unquote_escape fuel c rest : Z.of_N (code c) < 128 -> unquote (S fuel) (escape_ascii c ++ rest) = c :: unquote fuel rest.
Proof.
  intros Hc. assert (implb (code c <? 128)%N (escape_kind c) = true) as H by (revert c Hc; intros c _; revert c; apply all_bytes; vm_compute; reflexivity).
  replace (code c <? 128)%N with true in H by (symmetry; apply N.ltb_lt; unfold code in *; lia). cbn [implb] in H. unfold escape_kind in H.
  destruct (escape_ascii c) as [|x [|e [|z l]]] eqn:E.
  - apply bool_decide_eq_true in H as (H & _). done.
  - apply bool_decide_eq_true in H as [-> Hx]. cbn [app unquote]. rewrite decide_False by done. unfold code in Hc. by rewrite decide_True by lia.
  - apply bool_decide_eq_true in H as (-> & He & Hs). cbn [app]. cbn [unquote]. rewrite decide_True by done. rewrite getu4_not by done. by rewrite Hs.
  - apply bool_decide_eq_true in H as (-> & Ha & Hlt). set (v := Z.of_N (code c)) in *. assert (0 <= v) by lia.
    replace (hex4 v ++ rest) with (BS :: (tail (hex4 v) ++ rest)) by done. cbn [unquote]. rewrite decide_True by done.
    change (BS :: tail (hex4 v) ++ rest) with (hex4 v ++ rest). rewrite getu4_hex4 by lia. rewrite decide_False by lia. by rewrite Ha.
Qed.

Lemma unquote_encode fuel l f : valid_utf8 fuel l = true -> (length (encode_bytes fuel l) <= f)%nat -> unquote f (encode_bytes fuel l) = l.
Proof.
  revert l f. induction fuel as [|fuel IH]; intros l f Hv Hf.
  { destruct l; [by destruct f|done]. }
  destruct l as [|c l]; [by destruct f|]. cbn [valid_utf8 encode_bytes] in *. case_decide as Hc.
  - rewrite length_app in Hf. assert (1 <= length (escape_ascii c))%nat as Hl.
    { assert (bool_decide (1 <= length (escape_ascii c))%nat = true) as H by (revert c Hc Hv Hf; intros c _ _ _; revert c; apply all_bytes; vm_compute; reflexivity).
      by apply bool_decide_eq_true in H. }
    destruct f as [|f]; [lia|]. rewrite unquote_escape by done. f_equal. apply IH; [done|lia].
  - destruct (utf8_rune (c :: l)) as [n|] eqn:E; [|done]. destruct (utf8_rune_cases _ _ E) as (Hp & Hlen & Hn & Hr).
    destruct (line_separator (c :: l)) as [v|] eqn:Es.
    + destruct (separator_rune _ _ _ E Es) as (-> & Ht & Hv'). rewrite length_app in Hf.
      destruct f as [|f]; [unfold hex4 in Hf; cbn in Hf; lia|].
      assert (unquote (S f) (hex4 v ++ encode_bytes fuel (drop 3 (c :: l))) = AppendRune v ++ unquote f (encode_bytes fuel (drop 3 (c :: l)))) as ->.
      { by destruct Hv' as [-> | ->]. }
      rewrite IH; [|done|unfold hex4 in Hf; cbn in Hf; cbn; lia]. rewrite <- Ht. apply take_drop.
    + rewrite length_app in Hf. destruct f as [|f]; [lia|].
      assert (exists t, take n (c :: l) = c :: t) as [t Ht] by (destruct n; [lia|]; cbn; eauto).
      cut (unquote (S f) (take n (c :: l) ++ encode_bytes fuel (drop n (c :: l))) = take n (c :: l) ++ unquote f (encode_bytes fuel (drop n (c :: l)))).
      { intros ->. rewrite IH by (done || lia). apply take_drop. }
      specialize (Hr (encode_bytes fuel (drop n (c :: l)))). rewrite Ht in *. cbn [app unquote]. cbn [app] in Hr. rewrite Hr.
      rewrite decide_False, decide_False.
      * change (c :: t ++ ?x) with ((c :: t) ++ x). rewrite <- Hlen. rewrite take_app_length, drop_app_length. done.
      * unfold code in Hc. lia.
      * intros ->. unfold code in Hc. by apply Hc.
Qed.

Lemma json_string_back s : ValidString s = true -> json_string (raw_string s) = s.
Proof. intros H. unfold json_string, raw_string. rewrite unquote_encode by done. apply of_bytes_bytes. Qed.

Lemma digits_head fuel n acc : 0 < n < 2 ^ Z.of_nat fuel -> exists c l, digits fuel n acc = c :: l /\ c <> "0"%char.
Proof.
  revert n acc. induction fuel as [|fuel IH]; intros n acc Hn; [cbn in Hn; lia|]. cbn [digits]. case_decide as Hlt.
  - exists (digit n), acc. split; [done|]. intros H. pose proof (digit_digit n ltac:(lia)) as Hd. rewrite H in Hd. cbn in Hd. injection Hd. lia.
  - apply IH. rewrite Nat2Z.inj_succ, Z.pow_succ_r in Hn by lia. split; [apply Z.div_str_pos; lia|]. apply Z.div_lt_upper_bound; lia.
Qed.

Lemma ends_not_digit rest c r : ends rest -> rest = c :: r -> GoUrl.digit_value c = None.
Proof.
  intros H ->. cbn in H. revert H. rewrite !elem_of_cons, elem_of_nil. by intros [->|[->|[->|[]]]].
Qed.
Lemma ends_number rest : ends rest -> read_decimals rest = Some ([], rest) /\ read_exponent rest = Some ([], rest).
Proof.
  destruct rest as [|c r]; [done|]. cbn. rewrite !elem_of_cons, elem_of_nil. by intros [->|[->|[->|[]]]].
Qed.

Lemma read_number_digits c l rest : is_digit c -> (c = "0"%char -> l = []) -> Forall is_digit l -> ends rest ->
  read_number ((c :: l) ++ rest) = Some (c :: l, rest).
Proof.
  intros Hc H0 Hl He. destruct (ends_number rest He) as [Hd Hx]. unfold read_number. cbn [app].
  rewrite decide_False by (intros ->; apply digit_code in Hc; cbn in Hc; lia). cbn [read_integer].
  destruct (decide (c = "0"%char)) as [E|E].
  - rewrite (H0 E). cbn [app mbind option_bind]. rewrite Hd. cbn [mbind option_bind]. rewrite Hx. done.
  - change (c :: l ++ rest) with ((c :: l) ++ rest). rewrite digit_run_all; [|by constructor|intros; by eapply ends_not_digit].
    cbn [mbind option_bind]. rewrite Hd. cbn [mbind option_bind]. rewrite Hx. cbn. by rewrite app_nil_r.
Qed.

Lemma format_number_ok n : 0 <= n -> number_ok (format_decimal n).
Proof.
  intros Hn. destruct (decide (n = 0)) as [->|Hz].
  - split; [do 2 eexists; split; [reflexivity|done]|]. intros rest He. change (format_decimal 0) with [digit 0].
    apply read_number_digits; [by exists 0|done|by constructor|done].
  - destruct (format_digits n) as (c & l & E & Hd & _); [lia|]. rewrite E. inversion Hd as [|? ? Hc Hl]; subst.
    assert (c <> "0"%char) as H0.
    { unfold format_decimal in E. rewrite decide_False in E by lia.
      destruct (digits_head (S (Z.to_nat (Z.log2 n))) n []) as (c' & l' & E' & Hc'); [|by rewrite E in E'; simplify_eq].
      split; [lia|]. rewrite Nat2Z.inj_succ, Z2Nat.id by apply Z.log2_nonneg. apply Z.log2_spec; lia. }
    split.
    + exists c, l. split; [done|]. unfold number_start, digit_byte. apply digit_code in Hc. apply orb_true_iff. right.
      apply andb_true_iff. split; apply N.leb_le; lia.
    + intros rest He. apply read_number_digits; [done|done|done|done].
Qed.

Lemma parse_format_nonneg n : 0 <= n < 2 ^ 63 -> ParseInt (format_decimal n) = Some n.
Proof. intros Hn. destruct (decide (n = 0)) as [->|]; [done|]. apply parse_format. lia. Qed.

Lemma digit_plain c : is_digit c -> body_plain c = true.
Proof.
  intros Hc%digit_code. apply bool_decide_eq_true. split_and!; [intros ->|intros ->|]; [cbn in Hc; lia|cbn in Hc; lia|lia].
Qed.
Lemma two_plain n : 0 <= n < 100 -> Forall (fun c => body_plain c = true) (two n).
Proof.
  intros H. repeat constructor; apply digit_plain; eexists; (split; [|reflexivity]); Z.div_mod_to_equations; lia.
Qed.

Lemma fraction_plain n : 0 <= n -> Forall (fun c => body_plain c = true) (fraction n).
Proof.
  intros Hn. unfold fraction. destruct (drop_zeros_suffix (rev (nine n))) as [k Hk].
  assert (Forall (fun c => body_plain c = true) (rev (nine n))) as Hd.
  { apply Forall_rev. unfold nine. repeat (apply Forall_cons; split; [apply digit_plain; eexists; split; [|reflexivity]; Z.div_mod_to_equations; lia|]).
    by apply Forall_nil. }
  rewrite Hk in Hd. apply Forall_app in Hd as [_ Hd%Forall_rev]. destruct (rev (drop_zeros (rev (nine n)))); [done|]. by constructor.
Qed.

Lemma format_time_plain t text : format_time t = Some text -> Forall (fun c => body_plain c = true) text.
Proof.
  unfold format_time. set (local := tm_ns t + tm_offset t * 1000000000).
  destruct (civil_of_days (local / 1000000000 / 86400)) as [[y m] d] eqn:E. destruct (civil_days _ _ _ _ E) as (_ & Hm & Hd).
  assert (1 <= days_in m y <= 31) as Hd' by (unfold days_in; repeat case_decide; destruct (leap_year y); lia).
  case_decide as Hy; [|done]. destruct Hy as [Hy Ho]. intros H. apply (inj Some) in H as <-.
  set (s := local / 1000000000 mod 86400). assert (0 <= s < 86400) by (subst s; Z.div_mod_to_equations; lia).
  assert (0 <= s / 3600 <= 23 /\ 0 <= s / 60 mod 60 <= 59 /\ 0 <= s mod 60 <= 59) as (? & ? & ?) by (Z.div_mod_to_equations; lia).
  pose proof (Z.mod_pos_bound local 1000000000 ltac:(lia)) as Hf. clearbody s local.
  assert (Forall (fun c => body_plain c = true) (zone (tm_offset t))) as Hz.
  { unfold zone. case_decide; [by constructor|]. constructor; [by case_decide|]. set (a := Z.abs _) in *. assert (0 <= a) by lia. clearbody a.
    apply Forall_app. split; [apply two_plain; Z.div_mod_to_equations; lia|]. constructor; [done|]. apply two_plain. Z.div_mod_to_equations; lia. }
  unfold four. rewrite <- !app_assoc. repeat first [apply Forall_cons; split; [done|] | apply Forall_app; split; [apply two_plain; lia|]
    | apply Forall_app; split; [apply two_plain; Z.div_mod_to_equations; lia|] | apply Forall_app; split; [apply fraction_plain; lia|]]. done.
Qed.
Lemma jtime_printable t v : jtime t = Some v -> printable v.
Proof.
  unfold jtime. destruct (format_time t) as [text|] eqn:E; [|done]. intros [= <-]. apply raw_ok_plain. by eapply format_time_plain.
Qed.

(** ** The fuel of a document is enough *)
Lemma skip_space_length l : (length (skip_space l) <= length l)%nat.
Proof. induction l as [|c l IH]; cbn; [done|]. destruct (is_space c); cbn; lia. Qed.
Lemma expect_length c l l' : expect c l = Some l' -> (length l' < length l)%nat.
Proof. destruct l; cbn; [done|]. case_decide; [|done]. intros [= ->]. lia. Qed.
Lemma string_body_length l raw rest : string_body l = Some (raw, rest) -> (length rest < length l)%nat.
Proof.
  revert raw rest. induction l as [l IH] using (induction_ltof1 _ length). unfold ltof in IH. intros raw rest. destruct l as [|c l1]; [done|].
  cbn [string_body]. case_decide; [intros [= <- <-]; cbn; lia|]. case_decide.
  - destruct l1 as [|e l2]; [done|]. case_decide.
    + destruct (string_body l2) as [[r t]|] eqn:E; [|done]. intros [= _ <-]. apply IH in E; cbn; lia.
    + case_decide; [|done]. destruct l2 as [|h1 [|h2 [|h3 [|h4 l3]]]]; try done. destruct (_ && _)%bool; [|done].
      destruct (string_body l3) as [[r t]|] eqn:E; [|done]. intros [= _ <-]. apply IH in E; cbn; lia.
  - case_decide; [done|]. destruct (string_body l1) as [[r t]|] eqn:E; [|done]. intros [= _ <-]. apply IH in E; cbn; lia.
Qed.
Lemma digit_run_length l run rest : digit_run l = (run, rest) -> (length l = length run + length rest)%nat.
Proof.
  revert run rest. induction l as [|c l IH]; intros run rest; cbn; [by intros [= <- <-]|]. destruct (GoUrl.digit_value c); [|by intros [= <- <-]].
  destruct (digit_run l) as [r t] eqn:E. intros [= <- <-]. cbn. rewrite (IH _ _ eq_refl). lia.
Qed.
Lemma read_number_length l text rest : read_number l = Some (text, rest) -> (length rest < length l)%nat.
Proof.
  unfold read_number. intros H. destruct (match l with [] => ([], l) | c :: l' => if decide (c = "-"%char) then ([c], l') else ([], l) end) as [sign l1] eqn:E0.
  assert (length l1 <= length l)%nat as H1. { destruct l; [by simplify_eq|]. case_decide; simplify_eq; cbn; lia. }
  destruct (read_integer l1) as [[whole l2]|] eqn:E1; [|done]. cbn in H.
  assert (length l2 < length l1)%nat as H2.
  { destruct l1 as [|c l1]; [done|]. cbn [read_integer] in E1. case_decide; [simplify_eq; cbn; lia|].
    destruct (digit_run (c :: l1)) as [[|x r] t] eqn:E; [done|]. apply digit_run_length in E. simplify_eq. cbn in *. lia. }
  destruct (read_decimals l2) as [[dec l3]|] eqn:E2; [|done]. cbn in H.
  assert (length l3 <= length l2)%nat as H3.
  { destruct l2 as [|c l2]; [cbn in E2; by simplify_eq|]. cbn [read_decimals] in E2. case_decide; [|by simplify_eq].
    destruct (digit_run l2) as [[|x r] t] eqn:E; [done|]. apply digit_run_length in E. simplify_eq. cbn in *. lia. }
  destruct (read_exponent l3) as [[ex l4]|] eqn:E3; [|done]. cbn in H. simplify_eq.
  cut (length rest <= length l3)%nat; [lia|].
  destruct l3 as [|c l3]; [cbn in E3; by simplify_eq|]. cbn [read_exponent] in E3. case_decide; [|by simplify_eq].
  destruct (match l3 with [] => ([], l3) | s :: l2 => if decide (s = "+"%char \/ s = "-"%char) then ([s], l2) else ([], l3) end) as [sg l5] eqn:E5.
  assert (length l5 <= length l3)%nat by (destruct l3; [by simplify_eq|]; case_decide; simplify_eq; cbn; lia).
  destruct (digit_run l5) as [[|x r] t] eqn:E; [done|]. apply digit_run_length in E. simplify_eq. cbn in *. lia.
Qed.
Lemma read_word_length w l rest : read_word w l = Some rest -> (length rest <= length l)%nat.
Proof.
  revert l. induction w as [|x w IH]; intros l; cbn; [intros [= <-]; lia|]. destruct l; [done|]. case_decide; [|done]. intros H1%IH. cbn. lia.
Qed.

Definition shorter {A} (l : list ascii) (r : option (A * list ascii)) : Prop :=
  match r with Some (_, rest) => (length rest < length l)%nat | None => True end.
Lemma read_shorter fuel : (forall d l, shorter l (read_value fuel d l)) /\ (forall d l, shorter l (read_members fuel d l)) /\
  (forall d l, shorter l (read_elements fuel d l)).
Proof.
  induction fuel as [|fuel (IHv & IHm & IHe)]; [done|]. split_and!; intros d l.
  - cbn [read_value]. pose proof (skip_space_length l) as Hl. destruct (skip_space l) as [|c l1]; [done|]. cbn [length] in Hl.
    pose proof (skip_space_length l1) as Hl1. destruct (decide (c = "{"%char)) as [_|_]; [|destruct (decide (c = "["%char)) as [_|_];
      [|destruct (decide (c = QUOTE)) as [_|_]; [|destruct (decide (c = "t"%char)) as [_|_]; [|destruct (decide (c = "f"%char)) as [_|_]; [|destruct (decide (c = "n"%char)) as [_|_]]]]]].
    + destruct (deeper d); [|done]. destruct (skip_space l1) as [|e l2]; [done|]. case_decide; [cbn in *; lia|].
      specialize (IHm (d + 1) (e :: l2)). destruct (read_members _ _ _) as [[]|]; cbn in *; [lia|done].
    + destruct (deeper d); [|done]. destruct (skip_space l1) as [|e l2]; [done|]. case_decide; [cbn in *; lia|].
      specialize (IHe (d + 1) (e :: l2)). destruct (read_elements _ _ _) as [[]|]; cbn in *; [lia|done].
    + destruct (string_body l1) as [[]|] eqn:E; [|done]. apply string_body_length in E. cbn. lia.
    + destruct (read_word _ l1) eqn:E; [|done]. apply read_word_length in E. cbn. lia.
    + destruct (read_word _ l1) eqn:E; [|done]. apply read_word_length in E. cbn. lia.
    + destruct (read_word _ l1) eqn:E; [|done]. apply read_word_length in E. cbn. lia.
    + destruct (read_number _) as [[]|] eqn:E; [|done]. apply read_number_length in E. cbn in *. lia.
  - cbn [read_members]. pose proof (skip_space_length l). destruct (expect QUOTE _) as [l1|] eqn:E1; [|done]. apply expect_length in E1. cbn [mbind option_bind].
    destruct (string_body l1) as [[k l2]|] eqn:E2; [|done]. apply string_body_length in E2. cbn [mbind option_bind]. pose proof (skip_space_length l2).
    destruct (expect _ _) as [l3|] eqn:E3; [|done]. apply expect_length in E3. cbn [mbind option_bind]. pose proof (IHv d l3) as Hv.
    destruct (read_value _ _ _) as [[v l4]|]; [|done]. cbn in Hv |- *. pose proof (skip_space_length l4). destruct (skip_space l4) as [|c l5]; [done|]. cbn in *.
    case_decide; [|case_decide; [cbn; lia|done]]. specialize (IHm d l5). destruct (read_members _ _ _) as [[]|]; cbn in *; [lia|done].
  - cbn [read_elements]. pose proof (IHv d l) as Hv. destruct (read_value _ _ _) as [[v l4]|]; [|done]. cbn in Hv |- *.
    pose proof (skip_space_length l4). destruct (skip_space l4) as [|c l5]; [done|]. cbn in *.
    case_decide; [|case_decide; [cbn; lia|done]]. specialize (IHe d l5). destruct (read_elements _ _ _) as [[]|]; cbn in *; [lia|done].
Qed.

Lemma fuel_step fuel :
  (forall d l, (2 * length l <= fuel)%nat -> read_value (S fuel) d l = read_value fuel d l) /\
  (forall d l, (2 * length l <= fuel)%nat -> read_members (S fuel) d l = read_members fuel d l) /\
  (forall d l, (2 * length l + 1 <= fuel)%nat -> read_elements (S fuel) d l = read_elements fuel d l).
Proof.
  induction fuel as [|fuel (IHv & IHm & IHe)]; [split_and!; intros d [|]; cbn; done || lia|]. split_and!; intros d l Hf.
  - cbn [read_value]. pose proof (skip_space_length l) as Hl. destruct (skip_space l) as [|c l1]; [done|]. cbn [length] in Hl.
    pose proof (skip_space_length l1) as Hl1. destruct (decide (c = "{"%char)) as [_|_]; [|destruct (decide (c = "["%char)) as [_|_]; [|done]];
      (destruct (deeper d); [|done]); (destruct (skip_space l1) as [|e l2]; [done|]); (case_decide; [done|]); cbn [length] in Hl1.
    + by rewrite IHm by (cbn; lia).
    + by rewrite IHe by (cbn; lia).
  - cbn [read_members]. pose proof (skip_space_length l). destruct (expect QUOTE _) as [l1|] eqn:E1; [|done]. apply expect_length in E1. cbn [mbind option_bind].
    destruct (string_body l1) as [[k l2]|] eqn:E2; [|done]. apply string_body_length in E2. cbn [mbind option_bind]. pose proof (skip_space_length l2).
    destruct (expect _ _) as [l3|] eqn:E3; [|done]. apply expect_length in E3. cbn [mbind option_bind]. rewrite IHv by lia.
    destruct (read_shorter fuel) as [Hv _]. specialize (Hv d l3). destruct (read_value _ _ _) as [[v l4]|]; [|done]. cbn in Hv |- *.
    pose proof (skip_space_length l4). destruct (skip_space l4) as [|c l5]; [done|]. cbn in *. case_decide; [|done]. by rewrite IHm by lia.
  - cbn [read_elements]. rewrite IHv by lia. destruct (read_shorter fuel) as [Hv _]. specialize (Hv d l).
    destruct (read_value _ _ _) as [[v l4]|]; [|done]. cbn in Hv |- *.
    pose proof (skip_space_length l4). destruct (skip_space l4) as [|c l5]; [done|]. cbn in *. case_decide; [|done]. by rewrite IHe by lia.
Qed.

(** More fuel than [read_document] gives changes nothing. *)
Lemma document_fuel_enough k l : read_value (k + 2 * length l) 0 l = read_value (2 * length l) 0 l.
Proof.
  induction k as [|k IH]; [done|]. destruct (fuel_step (k + 2 * length l)) as [H _]. cbn [Nat.add]. by rewrite H by lia.
Qed.
