(* ===== verification/Generation.v ===== *)
(** * Published generations: documents and keys

    [internal/storage/generation.go] (and the check of a binhost path in
    [internal/catalog/catalog.go]): the manifest of a generation, the pointer of a
    channel, the manifest of a quarantine, their JSON texts, and the object keys. *)

From S2P Require Import GoUrl Prelude GoStrings GoRegexp GoPath GoText GoSha256 GoJson GoTime GoJsonTree.
From Stdlib Require Import Ascii.
Open Scope string_scope.
Open Scope list_scope.
Open Scope Z_scope.

Definition GenerationManifestSchema : Z := 2.
Definition QuarantineManifestSchema : Z := 1.
Definition ChannelPointerSchema : Z := 1.
Definition QuarantineCapabilityName : string := ".portage-engine-capability".
Definition GenerationManifestName : string := "manifest.json".

Definition lower_hex_byte (c : ascii) : bool := in_range "a" "f" c || in_range "0" "9" c.
Definition generationDigestPattern : re := Times 64 (Cls lower_hex_byte).
Definition generationTokenPattern : re := Times 32 (Cls lower_hex_byte).

Inductive storage_error :=
| PathInvalid | IDInvalid | BinhostPathInvalid | IdentityInvalid | ProvenanceInvalid | DuplicateEntry | ManifestExpired
| KeyInvalid | DocumentSize | DocumentInvalid | ManifestKeyMismatch.

(** ** Data *)
Record GenerationArtifact := mkArtifact {
  ga_relative_path : string;
  ga_sha256 : string;
  ga_size : Z;
  ga_object_key : string
}.
#[export] Instance artifact_eta : Eta GenerationArtifact := fun a =>
  mkArtifact (ga_relative_path a) (ga_sha256 a) (ga_size a) (ga_object_key a).
#[export] Instance artifact_eq_dec : EqDecision GenerationArtifact.
Proof. solve_decision. Defined.

Record GenerationRepository := mkRepository { rp_id : string; rp_revision : string; rp_digest : string }.
#[export] Instance repository_eta : Eta GenerationRepository := fun r => mkRepository (rp_id r) (rp_revision r) (rp_digest r).

Record GenerationProvenance := mkProvenance {
  pv_package_atom : string;
  pv_build_input_sha256 : string;
  pv_catalog_version : Z;
  pv_build_mode : string;
  pv_image_id : string;
  pv_image_generation : string;
  pv_image_digest : string;
  pv_mirror_bundle_id : string;
  pv_mirror_bundle_digest : string;
  pv_egress_policy_digest : string;
  pv_package_set_ids : list string;
  pv_package_set_catalog_digest : string;
  pv_repositories : list GenerationRepository
}.
#[export] Instance provenance_eta : Eta GenerationProvenance := fun p =>
  mkProvenance (pv_package_atom p) (pv_build_input_sha256 p) (pv_catalog_version p) (pv_build_mode p) (pv_image_id p)
    (pv_image_generation p) (pv_image_digest p) (pv_mirror_bundle_id p) (pv_mirror_bundle_digest p)
    (pv_egress_policy_digest p) (pv_package_set_ids p) (pv_package_set_catalog_digest p) (pv_repositories p).

Record GenerationManifest := mkManifest {
  gm_schema_version : Z;
  gm_generation_id : string;
  gm_binhost_path : string;
  gm_architecture : string;
  gm_profile_id : string;
  gm_attempt_id : string;
  gm_signing_key_id : string;
  gm_packages_sha256 : string;
  gm_provenance : GenerationProvenance;
  gm_artifacts : list GenerationArtifact;
  gm_created_at : go_time
}.
#[export] Instance manifest_eta : Eta GenerationManifest := fun m =>
  mkManifest (gm_schema_version m) (gm_generation_id m) (gm_binhost_path m) (gm_architecture m) (gm_profile_id m)
    (gm_attempt_id m) (gm_signing_key_id m) (gm_packages_sha256 m) (gm_provenance m) (gm_artifacts m) (gm_created_at m).

Record ChannelPointer := mkPointer {
  cp_schema_version : Z;
  cp_channel : string;
  cp_binhost_path : string;
  cp_architecture : string;
  cp_generation_id : string;
  cp_manifest_key : string;
  cp_manifest_sha256 : string;
  cp_packages_sha256 : string;
  cp_previous_generation_id : string;
  cp_selected_at : go_time
}.
#[export] Instance pointer_eta : Eta ChannelPointer := fun p =>
  mkPointer (cp_schema_version p) (cp_channel p) (cp_binhost_path p) (cp_architecture p) (cp_generation_id p)
    (cp_manifest_key p) (cp_manifest_sha256 p) (cp_packages_sha256 p) (cp_previous_generation_id p) (cp_selected_at p).

Record QuarantineManifest := mkQuarantine {
  qm_schema_version : Z;
  qm_token : string;
  qm_generation : string;
  qm_architecture : string;
  qm_packages_sha256 : string;
  qm_artifacts : list GenerationArtifact;
  qm_expires_at : go_time
}.
#[export] Instance quarantine_eta : Eta QuarantineManifest := fun q =>
  mkQuarantine (qm_schema_version q) (qm_token q) (qm_generation q) (qm_architecture q) (qm_packages_sha256 q)
    (qm_artifacts q) (qm_expires_at q).

(** ** Keys *)
Definition binhostPart : re :=
  Cat (Cls (fun c => in_range "a" "z" c || in_range "A" "Z" c || in_range "0" "9" c))
      (UpTo 127 (Cls (fun c => in_range "a" "z" c || in_range "A" "Z" c || in_range "0" "9" c || one_of "+._-" c))).

Definition ValidateBinhostPath (value arch : string) : bool :=
  negb (bool_decide (value = "" \/ HasPrefix value "/" = true \/ BS ∈ bytes value \/ Clean value <> value)) &&
  match of_bytes <$> split_byte SLASH (bytes value) with
  | [p0; p1; p2; p3; p4] =>
      bool_decide (p0 = "releases" /\ p1 = arch /\ p2 = "binpackages") && MatchString binhostPart p1 && MatchString binhostPart p3 &&
      MatchString binhostPart p4
  | _ => false
  end.

(** Backslashes count as slashes; the path must be canonical and relative. *)
Definition cleanGenerationRelativePath (relative : string) : option string :=
  let relative := of_bytes (replace_byte BS SLASH (bytes relative)) in
  let clean := Clean relative in
  if decide (relative = "" \/ clean = "." \/ clean = ".." \/ HasPrefix clean "../" = true \/ HasPrefix clean "/" = true \/ clean <> relative)
  then None else Some clean.

Definition StableChannelKey (binhostPath architecture : string) : result storage_error string :=
  check ValidateBinhostPath binhostPath architecture = true else BinhostPathInvalid;;
  Ok (path_join [binhostPath; ".channels"; "stable.json"]).

Definition QuarantineGenerationKey (token relativePath : string) : result storage_error string :=
  check MatchString generationTokenPattern token = true else IDInvalid;;
  match cleanGenerationRelativePath relativePath with
  | None => Err PathInvalid
  | Some relative => Ok (path_join [".quarantine"; token; relative])
  end.
Definition QuarantineGenerationPrefix (token : string) : result storage_error string :=
  check MatchString generationTokenPattern token = true else IDInvalid;;
  Ok (path_join [".quarantine"; token] +:+ "/").
Definition QuarantineCapabilityKey (token : string) : result storage_error string :=
  QuarantineGenerationKey token QuarantineCapabilityName.

(** ** Checks *)
Definition validPrefixedSHA256 (digest : string) : bool :=
  HasPrefix digest "sha256:" && MatchString generationDigestPattern (TrimPrefix digest "sha256:").

Definition artifact_validate (a : GenerationArtifact) : result storage_error unit :=
  match cleanGenerationRelativePath (ga_relative_path a) with
  | None => Err PathInvalid
  | Some relative =>
      check ~ (relative = "Packages" \/ HasPrefix relative "." = true) else PathInvalid;;
      check MatchString generationDigestPattern (ga_sha256 a) = true /\ 0 <= ga_size a else IdentityInvalid;;
      Ok tt
  end.

(** No two entries with one name. *)
Fixpoint check_entries {A} (name : A -> string) (valid : A -> result storage_error unit) (seen : gset string) (l : list A)
    : result storage_error unit :=
  match l with
  | [] => Ok tt
  | x :: l =>
      let! _ := valid x in
      check name x ∉ seen else DuplicateEntry;;
      check_entries name valid ({[name x]} ∪ seen) l
  end.

Definition repository_validate (r : GenerationRepository) : result storage_error unit :=
  check ~ (TrimSpace (rp_id r) = "" \/ (rp_revision r = "" /\ rp_digest r = "")) else ProvenanceInvalid;;
  check rp_digest r = "" \/ validPrefixedSHA256 (rp_digest r) = true else ProvenanceInvalid;;
  Ok tt.

Definition provenance_validate (p : GenerationProvenance) : result storage_error unit :=
  check ~ (TrimSpace (pv_package_atom p) = "" \/ MatchString generationDigestPattern (pv_build_input_sha256 p) = false \/
           TrimSpace (pv_build_mode p) = "") else ProvenanceInvalid;;
  check Forall (fun digest => digest = "" \/ validPrefixedSHA256 digest = true)
    [pv_image_digest p; pv_mirror_bundle_digest p; pv_egress_policy_digest p; pv_package_set_catalog_digest p] else ProvenanceInvalid;;
  check_entries rp_id repository_validate ∅ (pv_repositories p).

(** The zero time stands for no time at all. *)
Definition quarantine_validate (now : go_time) (q : QuarantineManifest) : result storage_error unit :=
  check ~ (qm_schema_version q <> QuarantineManifestSchema \/ MatchString generationTokenPattern (qm_token q) = false \/
           (qm_generation q <> "unsigned" /\ qm_generation q <> "signed") \/ TrimSpace (qm_architecture q) = "" \/
           MatchString generationDigestPattern (qm_packages_sha256 q) = false \/ length (qm_artifacts q) = 0%nat \/
           (256 < length (qm_artifacts q))%nat \/ IsZero (qm_expires_at q) = true) else IdentityInvalid;;
  check ~ (IsZero now = false /\ ~ tm_ns now < tm_ns (qm_expires_at q)) else ManifestExpired;;
  check_entries ga_relative_path artifact_validate ∅ (qm_artifacts q).

Definition Allows (q : QuarantineManifest) (relativePath : string) : bool :=
  bool_decide (relativePath = "Packages") || existsb (fun a => bool_decide (ga_relative_path a = relativePath)) (qm_artifacts q).

(** [uuid_Parse] is google/uuid's parser: whether it accepts the text. *)
Section generation.
Context (uuid_Parse : string -> bool).

Definition validatePublishedKey (binhostPath : string) (a : GenerationArtifact) : result storage_error unit :=
  let prefix := path_join [binhostPath; ".generations"] +:+ "/" in
  check ~ (HasPrefix (ga_object_key a) prefix = false \/ HasSuffix (ga_object_key a) ("/" +:+ ga_relative_path a) = false) else KeyInvalid;;
  match cut_byte SLASH (bytes (TrimPrefix (ga_object_key a) prefix)) with
  | None => Err KeyInvalid
  | Some (generation, _) => check uuid_Parse (of_bytes generation) = true else KeyInvalid;; Ok tt
  end.

Definition manifest_validate (m : GenerationManifest) : result storage_error unit :=
  check ~ (gm_schema_version m <> 1 /\ gm_schema_version m <> GenerationManifestSchema) else IdentityInvalid;;
  check uuid_Parse (gm_generation_id m) = true else IDInvalid;;
  check uuid_Parse (gm_attempt_id m) = true else IDInvalid;;
  check ValidateBinhostPath (gm_binhost_path m) (gm_architecture m) = true else BinhostPathInvalid;;
  check ~ (TrimSpace (gm_profile_id m) = "" \/ TrimSpace (gm_signing_key_id m) = "" \/
           MatchString generationDigestPattern (gm_packages_sha256 m) = false \/ IsZero (gm_created_at m) = true \/
           gm_artifacts m = []) else IdentityInvalid;;
  let! _ := if decide (2 <= gm_schema_version m) then provenance_validate (gm_provenance m) else Ok tt in
  check_entries ga_relative_path
    (fun a => let! _ := artifact_validate a in validatePublishedKey (gm_binhost_path m) a) ∅ (gm_artifacts m).

Definition PublishedGenerationKey (binhostPath architecture generationID relativePath : string) : result storage_error string :=
  check ValidateBinhostPath binhostPath architecture = true else BinhostPathInvalid;;
  check uuid_Parse generationID = true else IDInvalid;;
  match cleanGenerationRelativePath relativePath with
  | None => Err PathInvalid
  | Some relative => Ok (path_join [binhostPath; ".generations"; generationID; relative])
  end.

Definition pointer_validate (p : ChannelPointer) : result storage_error unit :=
  check ~ (cp_schema_version p <> ChannelPointerSchema \/ cp_channel p <> "stable" \/
           MatchString generationDigestPattern (cp_manifest_sha256 p) = false \/
           MatchString generationDigestPattern (cp_packages_sha256 p) = false \/ IsZero (cp_selected_at p) = true) else IdentityInvalid;;
  check uuid_Parse (cp_generation_id p) = true else IDInvalid;;
  check cp_previous_generation_id p = "" \/ uuid_Parse (cp_previous_generation_id p) = true else IDInvalid;;
  check ValidateBinhostPath (cp_binhost_path p) (cp_architecture p) = true else BinhostPathInvalid;;
  match PublishedGenerationKey (cp_binhost_path p) (cp_architecture p) (cp_generation_id p) GenerationManifestName with
  | Ok expected => check cp_manifest_key p = expected else ManifestKeyMismatch;; Ok tt
  | Err _ => Err ManifestKeyMismatch
  end.
End generation.

(** ** JSON *)
Definition fld {S A} (name : string) (dec : jvalue -> A -> option A) (get : S -> A) (put : A -> S -> S) : field_of S :=
  mkField name (fun v s => x ← dec v (get s); Some (put x s)).

Definition zero_artifact : GenerationArtifact := mkArtifact "" "" 0 "".
Definition artifact_fields : list (field_of GenerationArtifact) :=
  [fld "relative_path" dec_string ga_relative_path (fun x a => a <| ga_relative_path := x |>);
   fld "sha256" dec_string ga_sha256 (fun x a => a <| ga_sha256 := x |>);
   fld "size" dec_int ga_size (fun x a => a <| ga_size := x |>);
   fld "object_key" dec_string ga_object_key (fun x a => a <| ga_object_key := x |>)].
Definition artifact_json (a : GenerationArtifact) : jvalue :=
  JObj ([member "relative_path" (jstring (ga_relative_path a)); member "sha256" (jstring (ga_sha256 a));
         member "size" (jint (ga_size a))] ++
        member_unless (bool_decide (ga_object_key a = "")) "object_key" (jstring (ga_object_key a))).
Definition artifacts_field {S} (get : S -> list GenerationArtifact) (put : list GenerationArtifact -> S -> S) : field_of S :=
  fld "artifacts" (dec_slice zero_artifact (dec_struct artifact_fields)) get put.

Definition zero_repository : GenerationRepository := mkRepository "" "" "".
Definition repository_fields : list (field_of GenerationRepository) :=
  [fld "id" dec_string rp_id (fun x r => r <| rp_id := x |>);
   fld "revision" dec_string rp_revision (fun x r => r <| rp_revision := x |>);
   fld "digest" dec_string rp_digest (fun x r => r <| rp_digest := x |>)].
Definition repository_json (r : GenerationRepository) : jvalue :=
  JObj ([member "id" (jstring (rp_id r))] ++
        member_unless (bool_decide (rp_revision r = "")) "revision" (jstring (rp_revision r)) ++
        member_unless (bool_decide (rp_digest r = "")) "digest" (jstring (rp_digest r))).

Definition zero_provenance : GenerationProvenance := mkProvenance "" "" 0 "" "" "" "" "" "" "" [] "" [].
Definition provenance_fields : list (field_of GenerationProvenance) :=
  [fld "package_atom" dec_string pv_package_atom (fun x p => p <| pv_package_atom := x |>);
   fld "build_input_sha256" dec_string pv_build_input_sha256 (fun x p => p <| pv_build_input_sha256 := x |>);
   fld "catalog_version" dec_int pv_catalog_version (fun x p => p <| pv_catalog_version := x |>);
   fld "build_mode" dec_string pv_build_mode (fun x p => p <| pv_build_mode := x |>);
   fld "image_id" dec_string pv_image_id (fun x p => p <| pv_image_id := x |>);
   fld "image_generation" dec_string pv_image_generation (fun x p => p <| pv_image_generation := x |>);
   fld "image_digest" dec_string pv_image_digest (fun x p => p <| pv_image_digest := x |>);
   fld "mirror_bundle_id" dec_string pv_mirror_bundle_id (fun x p => p <| pv_mirror_bundle_id := x |>);
   fld "mirror_bundle_digest" dec_string pv_mirror_bundle_digest (fun x p => p <| pv_mirror_bundle_digest := x |>);
   fld "egress_policy_digest" dec_string pv_egress_policy_digest (fun x p => p <| pv_egress_policy_digest := x |>);
   fld "package_set_ids" (dec_slice "" dec_string) pv_package_set_ids (fun x p => p <| pv_package_set_ids := x |>);
   fld "package_set_catalog_digest" dec_string pv_package_set_catalog_digest (fun x p => p <| pv_package_set_catalog_digest := x |>);
   fld "repositories" (dec_slice zero_repository (dec_struct repository_fields)) pv_repositories
     (fun x p => p <| pv_repositories := x |>)].
Definition text_unless_empty (key s : string) : list (list ascii * jvalue) := member_unless (bool_decide (s = "")) key (jstring s).
Definition provenance_json (p : GenerationProvenance) : jvalue :=
  JObj ([member "package_atom" (jstring (pv_package_atom p)); member "build_input_sha256" (jstring (pv_build_input_sha256 p))] ++
        member_unless (bool_decide (pv_catalog_version p = 0)) "catalog_version" (jint (pv_catalog_version p)) ++
        [member "build_mode" (jstring (pv_build_mode p))] ++
        text_unless_empty "image_id" (pv_image_id p) ++ text_unless_empty "image_generation" (pv_image_generation p) ++
        text_unless_empty "image_digest" (pv_image_digest p) ++ text_unless_empty "mirror_bundle_id" (pv_mirror_bundle_id p) ++
        text_unless_empty "mirror_bundle_digest" (pv_mirror_bundle_digest p) ++
        text_unless_empty "egress_policy_digest" (pv_egress_policy_digest p) ++
        member_unless (bool_decide (pv_package_set_ids p = [])) "package_set_ids" (JArr (jstring <$> pv_package_set_ids p)) ++
        text_unless_empty "package_set_catalog_digest" (pv_package_set_catalog_digest p) ++
        member_unless (bool_decide (length (pv_repositories p) = 0%nat)) "repositories" (JArr (repository_json <$> pv_repositories p))).

Definition zero_manifest : GenerationManifest := mkManifest 0 "" "" "" "" "" "" "" zero_provenance [] zero_go_time.
Definition manifest_fields : list (field_of GenerationManifest) :=
  [fld "schema_version" dec_int gm_schema_version (fun x m => m <| gm_schema_version := x |>);
   fld "generation_id" dec_string gm_generation_id (fun x m => m <| gm_generation_id := x |>);
   fld "binhost_path" dec_string gm_binhost_path (fun x m => m <| gm_binhost_path := x |>);
   fld "architecture" dec_string gm_architecture (fun x m => m <| gm_architecture := x |>);
   fld "profile_id" dec_string gm_profile_id (fun x m => m <| gm_profile_id := x |>);
   fld "attempt_id" dec_string gm_attempt_id (fun x m => m <| gm_attempt_id := x |>);
   fld "signing_key_id" dec_string gm_signing_key_id (fun x m => m <| gm_signing_key_id := x |>);
   fld "packages_sha256" dec_string gm_packages_sha256 (fun x m => m <| gm_packages_sha256 := x |>);
   fld "provenance" (dec_struct provenance_fields) gm_provenance (fun x m => m <| gm_provenance := x |>);
   artifacts_field gm_artifacts (fun x m => m <| gm_artifacts := x |>);
   fld "created_at" dec_time gm_created_at (fun x m => m <| gm_created_at := x |>)].
Definition manifest_json (m : GenerationManifest) : option jvalue :=
  created ← jtime (gm_created_at m);
  Some (JObj [member "schema_version" (jint (gm_schema_version m)); member "generation_id" (jstring (gm_generation_id m));
    member "binhost_path" (jstring (gm_binhost_path m)); member "architecture" (jstring (gm_architecture m));
    member "profile_id" (jstring (gm_profile_id m)); member "attempt_id" (jstring (gm_attempt_id m));
    member "signing_key_id" (jstring (gm_signing_key_id m)); member "packages_sha256" (jstring (gm_packages_sha256 m));
    member "provenance" (provenance_json (gm_provenance m)); member "artifacts" (JArr (artifact_json <$> gm_artifacts m));
    member "created_at" created]).

Definition zero_pointer : ChannelPointer := mkPointer 0 "" "" "" "" "" "" "" "" zero_go_time.
Definition pointer_fields : list (field_of ChannelPointer) :=
  [fld "schema_version" dec_int cp_schema_version (fun x p => p <| cp_schema_version := x |>);
   fld "channel" dec_string cp_channel (fun x p => p <| cp_channel := x |>);
   fld "binhost_path" dec_string cp_binhost_path (fun x p => p <| cp_binhost_path := x |>);
   fld "architecture" dec_string cp_architecture (fun x p => p <| cp_architecture := x |>);
   fld "generation_id" dec_string cp_generation_id (fun x p => p <| cp_generation_id := x |>);
   fld "manifest_key" dec_string cp_manifest_key (fun x p => p <| cp_manifest_key := x |>);
   fld "manifest_sha256" dec_string cp_manifest_sha256 (fun x p => p <| cp_manifest_sha256 := x |>);
   fld "packages_sha256" dec_string cp_packages_sha256 (fun x p => p <| cp_packages_sha256 := x |>);
   fld "previous_generation_id" dec_string cp_previous_generation_id (fun x p => p <| cp_previous_generation_id := x |>);
   fld "selected_at" dec_time cp_selected_at (fun x p => p <| cp_selected_at := x |>)].
Definition pointer_json (p : ChannelPointer) : option jvalue :=
  selected ← jtime (cp_selected_at p);
  Some (JObj ([member "schema_version" (jint (cp_schema_version p)); member "channel" (jstring (cp_channel p));
    member "binhost_path" (jstring (cp_binhost_path p)); member "architecture" (jstring (cp_architecture p));
    member "generation_id" (jstring (cp_generation_id p)); member "manifest_key" (jstring (cp_manifest_key p));
    member "manifest_sha256" (jstring (cp_manifest_sha256 p)); member "packages_sha256" (jstring (cp_packages_sha256 p))] ++
    text_unless_empty "previous_generation_id" (cp_previous_generation_id p) ++ [member "selected_at" selected])).

Definition zero_quarantine : QuarantineManifest := mkQuarantine 0 "" "" "" "" [] zero_go_time.
Definition quarantine_fields : list (field_of QuarantineManifest) :=
  [fld "schema_version" dec_int qm_schema_version (fun x q => q <| qm_schema_version := x |>);
   fld "token" dec_string qm_token (fun x q => q <| qm_token := x |>);
   fld "generation" dec_string qm_generation (fun x q => q <| qm_generation := x |>);
   fld "architecture" dec_string qm_architecture (fun x q => q <| qm_architecture := x |>);
   fld "packages_sha256" dec_string qm_packages_sha256 (fun x q => q <| qm_packages_sha256 := x |>);
   artifacts_field qm_artifacts (fun x q => q <| qm_artifacts := x |>);
   fld "expires_at" dec_time qm_expires_at (fun x q => q <| qm_expires_at := x |>)].
Definition quarantine_json (q : QuarantineManifest) : option jvalue :=
  expires ← jtime (qm_expires_at q);
  Some (JObj [member "schema_version" (jint (qm_schema_version q)); member "token" (jstring (qm_token q));
    member "generation" (jstring (qm_generation q)); member "architecture" (jstring (qm_architecture q));
    member "packages_sha256" (jstring (qm_packages_sha256 q)); member "artifacts" (JArr (artifact_json <$> qm_artifacts q));
    member "expires_at" expires]).

Definition marshal (json : option jvalue) : result storage_error (list ascii) :=
  match json with Some v => Ok (jprint v) | None => Err DocumentInvalid end.
(** A text of at most that many bytes. *)
Definition parse {S} (limit : Z) (fields : list (field_of S)) (zero : S) (valid : S -> result storage_error unit) (document : list ascii)
    : result storage_error S :=
  check ~ (document = [] \/ limit < Z.of_nat (length document)) else DocumentSize;;
  match decodeStrictJSON fields zero document with
  | None => Err DocumentInvalid
  | Some x => let! _ := valid x in Ok x
  end.

Definition quarantine_marshal (q : QuarantineManifest) : result storage_error (list ascii) :=
  let! _ := quarantine_validate zero_go_time q in marshal (quarantine_json q).
Definition ParseQuarantineManifest (now : go_time) : list ascii -> result storage_error QuarantineManifest :=
  parse (2 ^ 20) quarantine_fields zero_quarantine (quarantine_validate now).

Section documents.
Context (uuid_Parse : string -> bool).

Definition manifest_marshal (m : GenerationManifest) : result storage_error (list ascii) :=
  let! _ := manifest_validate uuid_Parse m in marshal (manifest_json m).
Definition ParseGenerationManifest : list ascii -> result storage_error GenerationManifest :=
  parse (4 * 2 ^ 20) manifest_fields zero_manifest (manifest_validate uuid_Parse).
Definition pointer_marshal (p : ChannelPointer) : result storage_error (list ascii) :=
  let! _ := pointer_validate uuid_Parse p in marshal (pointer_json p).
Definition ParseChannelPointer : list ascii -> result storage_error ChannelPointer :=
  parse (2 ^ 20) pointer_fields zero_pointer (pointer_validate uuid_Parse).
End documents.
