(* ===== verification/GenerationCodec.v ===== *)
(** * Documents of a generation are read back

    What [Marshal] writes of a manifest, a pointer or a quarantine manifest is
    what [Parse] reads, as long as the text is within the limit [Parse] has and
    [Marshal] has not. *)

From S2P Require Import GoUrl Prelude GoStrings GoRegexp GoPath GoText GoSha256 GoJson GoTime GoJsonTree Generation.
From Stdlib Require Import Ascii.
Open Scope string_scope.
Open Scope list_scope.
Open Scope Z_scope.

#[local] Opaque format_time parse_time.

(** ** Values Go can write and read *)
Definition text_ok (s : string) : Prop := ValidString s = true.
Definition count_ok (n : Z) : Prop := 0 <= n < 2 ^ 63.
Definition utc (t : go_time) : Prop := t = UTC (tm_ns t).

Definition artifact_ok (a : GenerationArtifact) : Prop :=
  text_ok (ga_relative_path a) /\ text_ok (ga_sha256 a) /\ count_ok (ga_size a) /\ text_ok (ga_object_key a).
Definition repository_ok (r : GenerationRepository) : Prop := text_ok (rp_id r) /\ text_ok (rp_revision r) /\ text_ok (rp_digest r).
Definition provenance_ok (p : GenerationProvenance) : Prop :=
  Forall text_ok [pv_package_atom p; pv_build_input_sha256 p; pv_build_mode p; pv_image_id p; pv_image_generation p; pv_image_digest p;
    pv_mirror_bundle_id p; pv_mirror_bundle_digest p; pv_egress_policy_digest p; pv_package_set_catalog_digest p] /\
  count_ok (pv_catalog_version p) /\ Forall text_ok (pv_package_set_ids p) /\ Forall repository_ok (pv_repositories p).
Definition manifest_ok (m : GenerationManifest) : Prop :=
  Forall text_ok [gm_generation_id m; gm_binhost_path m; gm_architecture m; gm_profile_id m; gm_attempt_id m; gm_signing_key_id m;
    gm_packages_sha256 m] /\
  count_ok (gm_schema_version m) /\ provenance_ok (gm_provenance m) /\ Forall artifact_ok (gm_artifacts m) /\ utc (gm_created_at m).
Definition pointer_ok (p : ChannelPointer) : Prop :=
  Forall text_ok [cp_channel p; cp_binhost_path p; cp_architecture p; cp_generation_id p; cp_manifest_key p; cp_manifest_sha256 p;
    cp_packages_sha256 p; cp_previous_generation_id p] /\ count_ok (cp_schema_version p) /\ utc (cp_selected_at p).
Definition quarantine_ok (q : QuarantineManifest) : Prop :=
  Forall text_ok [qm_token q; qm_generation q; qm_architecture q; qm_packages_sha256 q] /\ count_ok (qm_schema_version q) /\
  Forall artifact_ok (qm_artifacts q) /\ utc (qm_expires_at q).

(** ** Decoding *)
Lemma dec_string_back s old : text_ok s -> dec_string (jstring s) old = Some s.
Proof. intros H. cbn. by rewrite json_string_back. Qed.
Lemma dec_int_back n old : count_ok n -> dec_int (jint n) old = Some n.
Proof. intros H. cbn. by apply parse_format_nonneg. Qed.
Lemma jtime_text t v : jtime t = Some v -> exists text, format_time t = Some text /\ v = JStr text.
Proof. unfold jtime. intros H. destruct (format_time t) as [text|]; [|discriminate H]. injection H as <-. eauto. Qed.
Lemma parse_utc t text : utc t -> format_time t = Some text -> parse_time text = Some t.
Proof. unfold utc. intros Ht E. rewrite Ht in E. apply parse_format_time in E. rewrite E. f_equal. exact (eq_sym Ht). Qed.
Lemma dec_time_back t v old : utc t -> jtime t = Some v -> dec_time v old = Some t.
Proof. intros Ht (text & E & ->)%jtime_text. exact (parse_utc t text Ht E). Qed.
Lemma dec_elements_back {A} (zero : A) dec enc (l : list A) : Forall (fun x => dec (enc x) zero = Some x) l ->
  dec_elements zero dec (enc <$> l) [] = Some l.
Proof. intros H. induction H as [|x l Hx _ IH]; [done|]. cbn. rewrite Hx. cbn. by rewrite IH. Qed.

Lemma dec_member {S} (fields : list (field_of S)) f k v ms s : find_field fields (json_string (bytes k)) = Some f ->
  dec_members fields (member k v :: ms) s = s' ← fd_decode f v s; dec_members fields ms s'.
Proof. intros H. unfold member. cbn [dec_members]. by rewrite H. Qed.
Lemma dec_text {S} (fields : list (field_of S)) get put k x ms s :
  find_field fields (json_string (bytes k)) = Some (fld k dec_string get put) -> text_ok x ->
  dec_members fields (member k (jstring x) :: ms) s = dec_members fields ms (put x s).
Proof. intros H Hx. rewrite (dec_member _ _ _ _ _ _ H). cbn [fd_decode fld]. by rewrite dec_string_back. Qed.
Lemma dec_count {S} (fields : list (field_of S)) get put k x ms s :
  find_field fields (json_string (bytes k)) = Some (fld k dec_int get put) -> count_ok x ->
  dec_members fields (member k (jint x) :: ms) s = dec_members fields ms (put x s).
Proof. intros H Hx. rewrite (dec_member _ _ _ _ _ _ H). cbn [fd_decode fld]. by rewrite dec_int_back. Qed.
Lemma dec_text_unless {S} (fields : list (field_of S)) get put k x ms s :
  find_field fields (json_string (bytes k)) = Some (fld k dec_string get put) -> text_ok x -> put "" s = s ->
  dec_members fields (text_unless_empty k x ++ ms) s = dec_members fields ms (put x s).
Proof.
  intros H Hx Hp. unfold text_unless_empty, member_unless. case_bool_decide as E; [by rewrite E, Hp|]. by eapply dec_text.
Qed.

(** One member, by the lemma for its kind. *)
Ltac field_named fields k tac :=
  let r := eval hnf in (find_field fields k) in lazymatch r with Some (fld _ _ ?g ?p) => tac g p | Some (artifacts_field ?g ?p) => tac g p end.
Ltac tidy_state := lazymatch goal with |- dec_members _ _ ?s = _ => let s' := eval cbn in s in change s with s' end.
Ltac dec_one :=
  tidy_state; lazymatch goal with
  | |- context [dec_members ?fields (member ?k (jstring ?x) :: ?ms) ?s] =>
      field_named fields k ltac:(fun g p => rewrite (dec_text fields g p k x ms s eq_refl) by done)
  | |- context [dec_members ?fields (member ?k (jint ?x) :: ?ms) ?s] =>
      field_named fields k ltac:(fun g p => rewrite (dec_count fields g p k x ms s eq_refl) by done)
  | |- context [dec_members ?fields (text_unless_empty ?k ?x ++ ?ms) ?s] =>
      field_named fields k ltac:(fun g p => rewrite (dec_text_unless fields g p k x ms s eq_refl) by done)
  end.

Lemma artifact_back a : artifact_ok a -> dec_struct artifact_fields (artifact_json a) zero_artifact = Some a.
Proof.
  destruct a as [p h n k]. intros (H1 & H2 & H3 & H4). cbn in H1, H2, H3, H4. unfold artifact_json. cbn [dec_struct app ga_relative_path ga_sha256 ga_size ga_object_key].
  fold (text_unless_empty "object_key" k). rewrite <- (app_nil_r (text_unless_empty _ _)). do 4 dec_one. done.
Qed.

Lemma repository_back r : repository_ok r -> dec_struct repository_fields (repository_json r) zero_repository = Some r.
Proof.
  destruct r as [i v g]. intros (H1 & H2 & H3). cbn in H1, H2, H3. unfold repository_json. cbn [dec_struct app rp_id rp_revision rp_digest].
  fold (text_unless_empty "revision" v). fold (text_unless_empty "digest" g). rewrite <- (app_nil_r (text_unless_empty "digest" _)). do 3 dec_one. done.
Qed.

Lemma dec_list {S A} (fields : list (field_of S)) get put k (zero : A) dec enc x ms s :
  find_field fields (json_string (bytes k)) = Some (fld k (dec_slice zero dec) get put) ->
  Forall (fun y => dec (enc y) zero = Some y) x -> get s = [] ->
  dec_members fields (member k (JArr (enc <$> x)) :: ms) s = dec_members fields ms (put x s).
Proof.
  intros H Hx Hg. rewrite (dec_member _ _ _ _ _ _ H). cbn [fd_decode fld dec_slice]. rewrite Hg, dec_elements_back by done. done.
Qed.
Lemma dec_list_unless {S A} (fields : list (field_of S)) get put k (zero : A) dec enc x (empty : bool) ms s :
  find_field fields (json_string (bytes k)) = Some (fld k (dec_slice zero dec) get put) ->
  Forall (fun y => dec (enc y) zero = Some y) x -> get s = [] -> (empty = true -> x = []) -> put [] s = s ->
  dec_members fields (member_unless empty k (JArr (enc <$> x)) ++ ms) s = dec_members fields ms (put x s).
Proof.
  intros H Hx Hg He Hp. unfold member_unless. destruct empty; [by rewrite (He eq_refl), Hp|]. by eapply dec_list.
Qed.

Lemma provenance_back p : provenance_ok p -> dec_struct provenance_fields (provenance_json p) zero_provenance = Some p.
Proof.
  destruct p as [c1 c2 n c4 c5 c6 c7 c8 c9 c10 ids c12 repos]. intros (Ht & Hn & Hids & Hr).
  cbn in Ht, Hn, Hids, Hr. repeat (apply Forall_cons in Ht as [? Ht]). clear Ht. unfold provenance_json. cbn [dec_struct app
    pv_package_atom pv_build_input_sha256 pv_catalog_version pv_build_mode pv_image_id pv_image_generation pv_image_digest
    pv_mirror_bundle_id pv_mirror_bundle_digest pv_egress_policy_digest pv_package_set_ids pv_package_set_catalog_digest pv_repositories].
  do 2 dec_one. tidy_state. set (s2 := mkProvenance c1 c2 0 "" "" "" "" "" "" "" [] "" []).
  assert (forall ms, dec_members provenance_fields (member_unless (bool_decide (n = 0)) "catalog_version" (jint n) ++ ms) s2 =
    dec_members provenance_fields ms (s2 <| pv_catalog_version := n |>)) as Hc.
  { intros ms. unfold member_unless. case_bool_decide as E; [by subst n|]. cbn [app]. dec_one. done. }
  change (dec_members provenance_fields ?ms _) with (dec_members provenance_fields ms s2). rewrite Hc. clear Hc. cbn [app].
  do 7 dec_one.
  tidy_state. field_named provenance_fields "package_set_ids" ltac:(fun g p =>
    rewrite (dec_list_unless provenance_fields g p "package_set_ids" "" dec_string jstring ids _ _ _ eq_refl)).
  2:{ eapply Forall_impl; [exact Hids|]. intros x Hx. by apply dec_string_back. }
  2:{ done. } 2:{ apply bool_decide_eq_true. } 2:{ done. }
  dec_one. rewrite <- (app_nil_r (member_unless _ "repositories" _)).
  tidy_state. field_named provenance_fields "repositories" ltac:(fun g p =>
    rewrite (dec_list_unless provenance_fields g p "repositories" zero_repository (dec_struct repository_fields) repository_json repos _ _ _ eq_refl)).
  2:{ eapply Forall_impl; [exact Hr|]. intros x Hx. by apply repository_back. }
  2:{ done. } 2:{ intros He%bool_decide_eq_true. by apply length_zero_iff_nil. } 2:{ done. }
  tidy_state. done.
Qed.

Lemma dec_inner {S A} (fields : list (field_of S)) get put k dec v (x : A) ms s :
  find_field fields (json_string (bytes k)) = Some (fld k dec get put) -> dec v (get s) = Some x ->
  dec_members fields (member k v :: ms) s = dec_members fields ms (put x s).
Proof. intros H Hx. rewrite (dec_member _ _ _ _ _ _ H). cbn [fd_decode fld]. by rewrite Hx. Qed.

Lemma artifacts_back l : Forall artifact_ok l -> Forall (fun y => dec_struct artifact_fields (artifact_json y) zero_artifact = Some y) l.
Proof. intros H. eapply Forall_impl; [exact H|]. intros x. apply artifact_back. Qed.

Lemma manifest_back m v : manifest_ok m -> manifest_json m = Some v -> dec_struct manifest_fields v zero_manifest = Some m.
Proof.
  destruct m as [c1 c2 c3 c4 c5 c6 c7 c8 pv arts at_]. intros (Ht & Hn & Hpv & Ha & Hu) H. cbn in Ht, Hn, Hpv, Ha, Hu.
  repeat (apply Forall_cons in Ht as [? Ht]). clear Ht. unfold manifest_json in H. cbn [gm_schema_version gm_generation_id gm_binhost_path
    gm_architecture gm_profile_id gm_attempt_id gm_signing_key_id gm_packages_sha256 gm_provenance gm_artifacts gm_created_at] in H.
  destruct (jtime at_) as [tv|] eqn:E; [|discriminate H]. cbn [mbind option_bind] in H. injection H as <-. cbn [dec_struct].
  do 8 dec_one. tidy_state. field_named manifest_fields "provenance" ltac:(fun g p =>
    rewrite (dec_inner manifest_fields g p "provenance" _ _ pv _ _ eq_refl)).
  2:{ by apply provenance_back. }
  tidy_state. field_named manifest_fields "artifacts" ltac:(fun g p =>
    rewrite (dec_list manifest_fields g p "artifacts" zero_artifact (dec_struct artifact_fields) artifact_json arts _ _ eq_refl)).
  2:{ by apply artifacts_back. } 2:{ done. }
  tidy_state. field_named manifest_fields "created_at" ltac:(fun g p =>
    rewrite (dec_inner manifest_fields g p "created_at" _ _ at_ _ _ eq_refl)).
  2:{ by apply dec_time_back. }
  tidy_state. done.
Qed.

Lemma pointer_back p v : pointer_ok p -> pointer_json p = Some v -> dec_struct pointer_fields v zero_pointer = Some p.
Proof.
  destruct p as [c1 c2 c3 c4 c5 c6 c7 c8 c9 at_]. intros (Ht & Hn & Hu) H. cbn in Ht, Hn, Hu.
  repeat (apply Forall_cons in Ht as [? Ht]). clear Ht. unfold pointer_json in H. cbn [cp_schema_version cp_channel cp_binhost_path
    cp_architecture cp_generation_id cp_manifest_key cp_manifest_sha256 cp_packages_sha256 cp_previous_generation_id cp_selected_at app] in H.
  destruct (jtime at_) as [tv|] eqn:E; [|discriminate H]. cbn [mbind option_bind] in H. injection H as <-. cbn [dec_struct].
  do 9 dec_one. tidy_state. field_named pointer_fields "selected_at" ltac:(fun g p =>
    rewrite (dec_inner pointer_fields g p "selected_at" _ _ at_ _ _ eq_refl)).
  2:{ by apply dec_time_back. }
  tidy_state. done.
Qed.

Lemma quarantine_back q v : quarantine_ok q -> quarantine_json q = Some v -> dec_struct quarantine_fields v zero_quarantine = Some q.
Proof.
  destruct q as [c1 c2 c3 c4 c5 arts at_]. intros (Ht & Hn & Ha & Hu) H. cbn in Ht, Hn, Ha, Hu.
  repeat (apply Forall_cons in Ht as [? Ht]). clear Ht. unfold quarantine_json in H. cbn [qm_schema_version qm_token qm_generation
    qm_architecture qm_packages_sha256 qm_artifacts qm_expires_at] in H.
  destruct (jtime at_) as [tv|] eqn:E; [|discriminate H]. cbn [mbind option_bind] in H. injection H as <-. cbn [dec_struct].
  do 5 dec_one. tidy_state. field_named quarantine_fields "artifacts" ltac:(fun g p =>
    rewrite (dec_list quarantine_fields g p "artifacts" zero_artifact (dec_struct artifact_fields) artifact_json arts _ _ eq_refl)).
  2:{ by apply artifacts_back. } 2:{ done. }
  tidy_state. field_named quarantine_fields "expires_at" ltac:(fun g p =>
    rewrite (dec_inner quarantine_fields g p "expires_at" _ _ at_ _ _ eq_refl)).
  2:{ by apply dec_time_back. }
  tidy_state. done.
Qed.

(** ** Printing *)
Definition shallow (d : Z) (v : jvalue) : Prop := printable v /\ jdepth v <= d.
Lemma shallow_string s d : 0 <= d -> shallow d (jstring s).
Proof. intros. split; [apply raw_string_ok|done]. Qed.
Lemma shallow_int n d : 0 <= d -> 0 <= n -> shallow d (jint n).
Proof. intros. split; [by apply format_number_ok|done]. Qed.
Lemma shallow_arr l d : Forall (shallow d) l -> 0 <= d -> shallow (d + 1) (JArr l).
Proof.
  intros H Hd. split; cbn; [|enough (foldr (fun v n => Z.max (jdepth v) n) 0 l <= d) by lia]; induction H as [|x l [? ?] _ IH]; cbn; auto; lia.
Qed.
Definition key_ok (k : list ascii) : bool := forallb body_plain k.
Lemma shallow_obj l d : Forall (fun m : list ascii * jvalue => key_ok m.1 = true /\ shallow d m.2) l -> 0 <= d -> shallow (d + 1) (JObj l).
Proof.
  intros H Hd. split; cbn; [|enough (foldr (fun m n => Z.max (jdepth m.2) n) 0 l <= d) by lia]; induction H as [|x l [Hk [? ?]] _ IH]; cbn; auto; [|lia].
  split; [|done]. split; [|done]. apply raw_ok_plain. apply Forall_forall. intros c Hc. apply (proj1 (forallb_forall _ _) Hk). by apply list_elem_of_In.
Qed.

Lemma shallow_le d d' v : shallow d v -> d <= d' -> shallow d' v.
Proof. intros [? ?] ?. split; [done|lia]. Qed.
Lemma member_shallow d k v : key_ok (bytes k) = true -> shallow d v -> Forall (fun m : list ascii * jvalue => key_ok m.1 = true /\ shallow d m.2) [member k v].
Proof. intros. by constructor. Qed.
Lemma unless_shallow d empty k v : key_ok (bytes k) = true -> shallow d v ->
  Forall (fun m : list ascii * jvalue => key_ok m.1 = true /\ shallow d m.2) (member_unless empty k v).
Proof. intros. unfold member_unless. destruct empty; [done|]. by apply member_shallow. Qed.

(** The members of an object, one by one; what is left is about their values. *)
Ltac shallow_members :=
  repeat first [apply Forall_app; split | apply unless_shallow; [reflexivity|] | apply Forall_cons; split; [split; [reflexivity|]|] | by apply Forall_nil];
  try (apply shallow_string; lia).

Lemma artifact_shallow a : 0 <= ga_size a -> shallow 1 (artifact_json a).
Proof. intros H. apply (shallow_obj _ 0); [|done]. shallow_members. by apply shallow_int. Qed.
Lemma repository_shallow r : shallow 1 (repository_json r).
Proof. apply (shallow_obj _ 0); [|done]. shallow_members. Qed.
Lemma strings_shallow l : shallow 1 (JArr (jstring <$> l)).
Proof. apply (shallow_arr _ 0); [|done]. apply Forall_fmap, Forall_true. intros s. by apply shallow_string. Qed.
Lemma repositories_shallow l : shallow 2 (JArr (repository_json <$> l)).
Proof. apply (shallow_arr _ 1); [|done]. apply Forall_fmap, Forall_true. intros r. apply repository_shallow. Qed.
Lemma artifacts_shallow l : Forall artifact_ok l -> shallow 2 (JArr (artifact_json <$> l)).
Proof. intros H. apply (shallow_arr _ 1); [|done]. apply Forall_fmap. eapply Forall_impl; [exact H|]. intros a (_ & _ & [? _] & _). by apply artifact_shallow. Qed.
Lemma provenance_shallow p : 0 <= pv_catalog_version p -> shallow 3 (provenance_json p).
Proof.
  intros H. apply (shallow_obj _ 2); [|done]. shallow_members.
  - by apply shallow_int.
  - by eapply shallow_le; [apply strings_shallow|].
  - apply repositories_shallow.
Qed.
Lemma time_shallow t v d : jtime t = Some v -> 0 <= d -> shallow d v.
Proof. intros H ?. split; [by eapply jtime_printable|]. apply jtime_text in H as (text & _ & ->). done. Qed.

Lemma manifest_shallow m v : manifest_ok m -> manifest_json m = Some v -> shallow 4 v.
Proof.
  intros (_ & [Hn _] & (_ & [Hc _] & _) & Ha & _) H. unfold manifest_json in H. apply bind_Some in H as (tv & Ht & H). injection H as <-.
  apply (shallow_obj _ 3); [|done]. shallow_members.
  - by apply shallow_int.
  - by apply provenance_shallow.
  - by eapply shallow_le; [apply artifacts_shallow|].
  - by eapply time_shallow.
Qed.
Lemma pointer_shallow p v : pointer_ok p -> pointer_json p = Some v -> shallow 1 v.
Proof.
  intros (_ & [Hn _] & _) H. unfold pointer_json in H. apply bind_Some in H as (tv & Ht & H). injection H as <-.
  apply (shallow_obj _ 0); [|done]. shallow_members; [by apply shallow_int|by eapply time_shallow].
Qed.
Lemma quarantine_shallow q v : quarantine_ok q -> quarantine_json q = Some v -> shallow 3 v.
Proof.
  intros (_ & [Hn _] & Ha & _) H. unfold quarantine_json in H. apply bind_Some in H as (tv & Ht & H). injection H as <-.
  apply (shallow_obj _ 2); [|done]. shallow_members; [by apply shallow_int|by apply artifacts_shallow|by eapply time_shallow].
Qed.

(** ** Round trips *)
Lemma jprint_nonempty v : printable v -> jprint v <> [].
Proof. intros H. destruct (jprint_head v H) as (c & l & -> & _). done. Qed.

Lemma parse_marshal {S} limit (fields : list (field_of S)) zero valid v x : shallow 100 v -> dec_struct fields v zero = Some x ->
  valid x = Ok tt -> Z.of_nat (length (jprint v)) <= limit -> parse limit fields zero valid (jprint v) = Ok x.
Proof.
  intros [Hp Hd] Hv Hx Hl. unfold parse. rewrite decide_True by (intros [?|?]; [by eapply jprint_nonempty|lia]).
  unfold decodeStrictJSON. rewrite read_document_print; [|done|unfold maxNestingDepth; lia]. cbn [mbind option_bind]. by rewrite Hv, Hx.
Qed.

Lemma pointer_roundtrip uuid_Parse p doc : pointer_ok p -> pointer_marshal uuid_Parse p = Ok doc -> Z.of_nat (length doc) <= 2 ^ 20 ->
  ParseChannelPointer uuid_Parse doc = Ok p.
Proof.
  intros Hm H Hl. unfold pointer_marshal in H. destruct (pointer_validate uuid_Parse p) as [[]|] eqn:Hv; [|done]. cbn in H.
  destruct (pointer_json p) as [v|] eqn:Ej; [|done]. injection H as <-. apply parse_marshal; [|by apply pointer_back|done|done].
  eapply shallow_le; [by eapply pointer_shallow|done].
Qed.
Lemma quarantine_roundtrip q doc : quarantine_ok q -> quarantine_marshal q = Ok doc -> Z.of_nat (length doc) <= 2 ^ 20 ->
  ParseQuarantineManifest zero_go_time doc = Ok q.
Proof.
  intros Hm H Hl. unfold quarantine_marshal in H. destruct (quarantine_validate zero_go_time q) as [[]|] eqn:Hv; [|done]. cbn in H.
  destruct (quarantine_json q) as [v|] eqn:Ej; [|done]. injection H as <-. apply parse_marshal; [|by apply quarantine_back|done|done].
  eapply shallow_le; [by eapply quarantine_shallow|done].
Qed.

(** C31. A manifest that [Marshal] accepts is read back as it was written, every
    field of it, if every text in it is valid UTF-8 (the encoder writes U+FFFD for
    anything else), its version and sizes are in 0 .. 2^63-1, its time is in UTC, and
    its encoding is at most the four mebibytes a reader takes; [Marshal] itself
    checks neither the encoding of the texts nor this limit. *)
Theorem manifest_roundtrip (uuid_Parse : string -> bool) (m : GenerationManifest) (doc : list ascii) (Hm : manifest_ok m)
    (H : manifest_marshal uuid_Parse m = Ok doc) (Hl : Z.of_nat (length doc) <= 4 * 2 ^ 20) :
  ParseGenerationManifest uuid_Parse doc = Ok m.
Proof.
  unfold manifest_marshal in H. destruct (manifest_validate uuid_Parse m) as [[]|] eqn:Hv; [|done]. cbn in H.
  destruct (manifest_json m) as [v|] eqn:Ej; [|done]. injection H as <-. apply parse_marshal; [|by apply manifest_back|done|done].
  eapply shallow_le; [by eapply manifest_shallow|done].
Qed.

(** A generation of one package; the identifiers are told by their length. *)
Definition uuid_ex (s : string) : bool := bool_decide (String.length s = 36%nat).
Definition digest_ex : string := "0123456789abcdef0123456789abcdef0123456789abcdef0123456789abcdef".
Definition manifest_ex : GenerationManifest :=
  mkManifest 2 "6f1c0f0e-5f0a-4d6e-9c3b-0123456789ab" "releases/amd64/binpackages/23.0/x86-64" "amd64" "hardened"
    "7a1c0f0e-5f0a-4d6e-9c3b-0123456789ab" "0xC0FFEE" digest_ex
    (mkProvenance "app-misc/foo" digest_ex 3 "native" "" "" ("sha256:" +:+ digest_ex) "" "" "" ["base"] "" [mkRepository "gentoo" "abc1234" ""])
    [mkArtifact "app-misc/foo-1.gpkg.tar" digest_ex 4096
       "releases/amd64/binpackages/23.0/x86-64/.generations/6f1c0f0e-5f0a-4d6e-9c3b-0123456789ab/app-misc/foo-1.gpkg.tar"]
    (UTC (1700000000 * 10 ^ 9)).
#[local] Transparent format_time parse_time.
Definition manifest_text_ex : list ascii := match manifest_marshal uuid_ex manifest_ex with Ok doc => doc | Err _ => [] end.

Lemma manifest_roundtrip_witness : ParseGenerationManifest uuid_ex manifest_text_ex = Ok manifest_ex.
Proof.
  apply (manifest_roundtrip uuid_ex manifest_ex manifest_text_ex).
  - unfold manifest_ok, provenance_ok, artifact_ok, repository_ok, text_ok, count_ok, utc, UTC. cbn [gm_generation_id gm_binhost_path gm_architecture
      gm_profile_id gm_attempt_id gm_signing_key_id gm_packages_sha256 gm_schema_version gm_provenance gm_artifacts gm_created_at manifest_ex].
    repeat first [split | constructor]; vm_compute; try done; try discriminate.
  - vm_compute. reflexivity.
  - vm_compute. discriminate.
Defined.
