(* ===== verification/JobLimits.v ===== *)
(** * Limits, termination and bounds of the job system

    A claim stays within the limits of its project, a phase within its
    capacity; the retention and pruning loops end; the counters of expired
    leases are locked in one order; stored documents are bounded and carry no
    secret-like key; and the worker cache never hits with a fresh sample. *)

From S2P Require Import Prelude GoStrings Schema Capabilities CapacityLedger Budgets Fairness.
From S2P Require Import JobLedger Scheduler PhaseWork Fencing PhasePlan JobSystem JobSafety JobHistory.
From Stdlib Require Import Ascii.
Open Scope string_scope.
Open Scope list_scope.
Open Scope Z_scope.

#[local] Arguments update_where : simpl never.

(** ** Claims and project limits *)

(** What the admission check of a claim established. *)
Lemma claim_admission P J resources spec now d o :
  lockAndCheckClaimAdmission P J resources spec now d = Ok (true, o) -> exists p,
    policy_of P d = Ok p /\ pp_suspended p = false /\ abuse_suspended p now = None /\
    active_jobs P (fun j => bool_decide (j_id j = J)) d < pp_max_active_jobs p /\
    Z.of_nat (count_where (fun r => rv_phase r = RClaimed) (live_reservations P d)) < pp_max_claimed_attempts p /\
    sum_by rv_vcpus (live_reservations P d) + VCPUs resources <= pp_max_active_vcpus p /\
    sum_by rv_memory_mib (live_reservations P d) + MemoryMiB resources <= pp_max_active_memory_mib p /\
    sum_by rv_disk_gib (live_reservations P d) + DiskGiB resources <= pp_max_active_disk_gib p /\
    sum_by build_seconds (day_usage P (utc_day now) d) + MaxRuntimeSeconds spec <= pp_max_daily_build_seconds p /\
    sum_by cloud_cost (day_usage P (utc_day now) d) + ReservedCloudCostMicrounits spec
      <= pp_max_daily_cloud_cost_microunits p.
Proof.
  unfold lockAndCheckClaimAdmission. destruct (policy_of P d) as [p|]; [|done].
  case_decide as Hs; [done|]. destruct (abuse_suspended p now) eqn:Ha; [done|]. cbv zeta.
  case_decide; [done|]. case_decide; [done|]. case_decide as Hsum; [|done]. case_decide; [done|]. intros _.
  exists p. destruct Hsum as (? & ? & ?). split_and!; try done; try lia. by destruct (pp_suspended p).
Qed.

Lemma sum_by_single {A} (f : A -> Z) x : sum_by f [x] = f x.
Proof. unfold sum_by. cbn. lia. Qed.

Section limits.
Context (MarshalStatus : JobStatus -> list ascii) (MarshalRequest : BuildRequest -> list ascii)
        (uuid_Parse : string -> bool).
Notation step := (job_step MarshalStatus MarshalRequest uuid_Parse).
Notation reachable := (reachable MarshalStatus MarshalRequest uuid_Parse).

(** The rows a claim writes. *)
Lemma persist_effect ids c resources spec workerID name kind lease no fence now claim d d' :
  persistClaim MarshalStatus ids c resources spec workerID name kind lease no fence now d = Ok (claim, d') ->
  (exists r, resource_reservations d' = resource_reservations d ++ [r] /\ rv_project_id r = cc_project_id c /\
     rv_state r = Live /\ rv_phase r = RClaimed /\ rv_vcpus r = VCPUs resources /\
     rv_memory_mib r = MemoryMiB resources /\ rv_disk_gib r = DiskGiB resources) /\
  attempt_usages d' = attempt_usages (insertAttemptUsage (id_attempt ids) (cc_project_id c) (cc_job_id c) spec now d) /\
  project_policies d' = project_policies d /\
  st_project_id (bs_document (sc_status claim)) = st_project_id (bs_document (cc_status c)) /\
  exists f, build_jobs d' = update_where (fun j => j_id j = cc_job_id c) f (build_jobs d) /\
    forall j, j_id (f j) = j_id j /\ j_project_id (f j) = j_project_id j /\
      j_legacy_visible (f j) = j_legacy_visible j /\ j_state (f j) = "claimed".
Proof.
  unfold persistClaim. intros H. cbv beta zeta in H. do 2 inv_ok_step H. inv_ok_step H. injection H as <- <-.
  unfold insertPhaseWorkPlan in E. inv_ok E. subst a. cbn. split_and!; [eexists; split_and!; done|done|done|done|].
  eexists. split; [done|]. done.
Qed.

(** Giving out one job raises the count of active jobs to at most one more than
    that of the others. *)
Lemma active_after_claim P J f d d' : NoDup (j_id <$> build_jobs d) ->
  build_jobs d' = update_where (fun j => j_id j = J) f (build_jobs d) ->
  (forall j, j_id (f j) = j_id j /\ j_project_id (f j) = j_project_id j /\
     j_legacy_visible (f j) = j_legacy_visible j /\ j_state (f j) = "claimed") ->
  active_jobs P (fun _ => false) d' <= active_jobs P (fun j => bool_decide (j_id j = J)) d + 1.
Proof.
  intros Hnd Hj Hf. unfold active_jobs.
  rewrite (count_where_split _ (fun j => j_id j = J)).
  assert (count_where (fun x => (in_project P x /\ false = false /\ j_state x ∈ activeJobStates) /\ j_id x = J)
            (build_jobs d') <= 1)%nat as H1.
  { apply (count_where_key j_id); [|by intros x y _ _ [_ ->] [_ ->]]. rewrite Hj.
    rewrite (update_where_map j_id); [done|]. intros x _. apply Hf. }
  assert (count_where (fun x => (in_project P x /\ false = false /\ j_state x ∈ activeJobStates) /\ j_id x <> J)
            (build_jobs d') =
          count_where (fun j => in_project P j /\ bool_decide (j_id j = J) = false /\ j_state j ∈ activeJobStates)
            (build_jobs d)) as H2.
  { rewrite Hj, count_where_update.
    - apply Nat.le_antisymm; apply count_where_le_impl; intros x _; rewrite bool_decide_eq_false; tauto.
    - intros x _ Hx. destruct (Hf x) as (-> & _). tauto. }
  lia.
Qed.

(** The selection touches the fairness rows alone, and the candidate carries its
    own project. *)
Lemma candidate_project workerID lp lj clk (d d1 : db) (cand : claimCandidate) :
  selectClaimCandidate workerID lp lj clk d = (Some cand, d1) ->
  cc_project_id cand = st_project_id (bs_document (cc_status cand)) /\
  exists l, d1 = d <| scheduler_fairness := l |>.
Proof.
  intros Hsel. unfold selectClaimCandidate in Hsel.
  destruct (selectFairAdmissionProject _ _ _ _) as [s d2] eqn:Hs.
  unfold selectFairAdmissionProject in Hs. injection Hs as _ <-. injection Hsel as Hc <-.
  split; [|eexists; reflexivity]. destruct s as [s|]; [|done]. destruct (pick _ _) as [j|]; [|done].
  destruct (admission_scoring _ _ _ _); [|done]. by injection Hc as <-.
Qed.

(** What a granted claim was checked against, and the rows it wrote. *)
Lemma claim_effect ids workerID name kind lease lp lj clk (c : SchedulerClaim) (d d' : db) :
  claimNextTx MarshalStatus ids workerID name kind lease lp lj clk d = Ok (Some c, d') ->
  exists P J resources spec o l r f, st_project_id (bs_document (sc_status c)) = P /\
    lockAndCheckClaimAdmission P J resources spec (clk 3%nat) (d <| scheduler_fairness := l |>) = Ok (true, o) /\
    (live_reservation P r /\ rv_vcpus r = VCPUs resources /\ rv_memory_mib r = MemoryMiB resources /\
     rv_disk_gib r = DiskGiB resources) /\
    project_policies d' = project_policies d /\ resource_reservations d' = resource_reservations d ++ [r] /\
    attempt_usages d' = attempt_usages (insertAttemptUsage (id_attempt ids) P J spec (clk 5%nat) d) /\
    build_jobs d' = update_where (fun j => j_id j = J) f (build_jobs d) /\
    forall j, j_id (f j) = j_id j /\ j_project_id (f j) = j_project_id j /\
      j_legacy_visible (f j) = j_legacy_visible j /\ j_state (f j) = "claimed".
Proof.
  intros H. unfold claimNextTx in H.
  destruct (selectClaimCandidate _ _ _ _ _) as [[cand|] d1] eqn:Hsel; [|by simplify_eq].
  apply candidate_project in Hsel as (HP & l & ->).
  inv_ok_step H. destruct a as [acc d2]. unfold prepareClaimAccounting in E. do 3 inv_ok_step E.
  destruct a1 as [allowed retryAt]. destruct allowed; [|injection E as <- <-; by simplify_eq]. injection E as <- <-.
  unfold budget in E2. destruct (lockAndCheckClaimAdmission _ _ _ _ _ _) as [[b o]|] eqn:Hadm; [|done].
  injection E2 as -> ->. inv_ok_step H. destruct a1 as [no fence]. inv_ok_step H. destruct a1 as [cl d3].
  apply persist_effect in E2 as ((r & Hr & HrP & Hrs & _ & Hv & Hm & Hd) & Hu & Hpol & HcP & f & Hj & Hf).
  destruct (cc_scoring cand) as [[n1 n2] n3]. inv_ok_step H. destruct a1 as [rec d4].
  unfold fairly in E2. destruct (recordFairDispatch _ _ _ _ _) as [[rec' d5]|] eqn:Hdis; [|done]. injection E2 as -> ->.
  assert (cl = c) as -> by (by injection H).
  exists (cc_project_id cand), (cc_job_id cand), a, a0, retryAt, l, r, f.
  split; [by rewrite HcP|]. split; [exact Hadm|]. split; [done|].
  injection H as <-. unfold recordFairDispatch in Hdis. cbv beta zeta in Hdis.
  destruct (first_where _ (project_policies _)); [|destruct (decide _) in Hdis; done].
  rewrite decide_True in Hdis by done. destruct (first_where _ (scheduler_fairness _)); [|done]. simplify_eq/=. done.
Qed.

(** C26. A claim keeps its project within its limits: after a claim of a job, the
    project's active jobs, claimed attempts, reserved vCPUs, memory and disk are
    within the limits of its policy, the project was not suspended, and, unless
    the claim straddled midnight, the build seconds and cloud cost of the day
    are within the daily limits, with the whole reservation of the new attempt
    counted. *)
Theorem claim_within_limits ids workerID name kind lease lp lj clk (c : SchedulerClaim) (d d' : db)
    (R : reachable d)
    (H : claimNextTx MarshalStatus ids workerID name kind lease lp lj clk d = Ok (Some c, d')) :
  let P := st_project_id (bs_document (sc_status c)) in
  exists p, policy_of P d' = Ok p /\ pp_suspended p = false /\ abuse_suspended p (clk 3%nat) = None /\
    active_jobs P (fun _ => false) d' <= pp_max_active_jobs p /\
    Z.of_nat (count_where (fun r => rv_phase r = RClaimed) (live_reservations P d')) <= pp_max_claimed_attempts p /\
    sum_by rv_vcpus (live_reservations P d') <= pp_max_active_vcpus p /\
    sum_by rv_memory_mib (live_reservations P d') <= pp_max_active_memory_mib p /\
    sum_by rv_disk_gib (live_reservations P d') <= pp_max_active_disk_gib p /\
    (utc_day (clk 3%nat) = utc_day (clk 5%nat) ->
     sum_by build_seconds (day_usage P (utc_day (clk 5%nat)) d') <= pp_max_daily_build_seconds p /\
     sum_by cloud_cost (day_usage P (utc_day (clk 5%nat)) d') <= pp_max_daily_cloud_cost_microunits p).
Proof.
  apply reachable_inv in R as Hi.
  apply claim_effect in H as (P & J & res & spec & o & l & r & f & HP & Hadm & (HrP & Hv & Hm & Hd) & G1 & G2 & G3 & G4 & Hf).
  apply claim_admission in Hadm as (p & Hp & Hsus & Hab & H1 & H2 & H3 & H4 & H5 & H6 & H7).
  cbv zeta. rewrite HP. exists p.
  assert (live_reservations P d' = live_reservations P d ++ [r]) as Hlive.
  { unfold live_reservations. rewrite G2, filter_app. f_equal. cbn. by rewrite decide_True. }
  rewrite Hlive, !sum_by_app, count_where_app, !sum_by_single, Hv, Hm, Hd.
  assert (count_where (fun r => rv_phase r = RClaimed) [r] <= 1)%nat as Hone.
  { rewrite count_where_cons. unfold count_where. cbn. case_decide; lia. }
  change (live_reservations P (d <| scheduler_fairness := l |>)) with (live_reservations P d) in *.
  change (day_usage P (utc_day (clk 3%nat)) (d <| scheduler_fairness := l |>))
    with (day_usage P (utc_day (clk 3%nat)) d) in *.
  split_and!; try done; try lia.
  - unfold policy_of in *. by rewrite G1.
  - pose proof (active_after_claim P J f d d' (job_ids d Hi) G4 Hf) as Hact.
    change (active_jobs P (fun j => bool_decide (j_id j = J)) d < pp_max_active_jobs p) in H1. lia.
  - intros Hday. rewrite <- Hday.
    assert (exists u, build_seconds u = MaxRuntimeSeconds spec /\ cloud_cost u = ReservedCloudCostMicrounits spec /\
      day_usage P (utc_day (clk 3%nat)) d' = day_usage P (utc_day (clk 3%nat)) d ++ [u]) as (u & Hb & Hc & ->).
    { eexists. split_and!; [| |unfold day_usage; rewrite G3; cbn; rewrite filter_app, Hday; f_equal; cbn;
        by rewrite decide_True]; reflexivity. }
    rewrite !sum_by_app, !sum_by_single, Hb, Hc. lia.
Qed.
End limits.

(** ** Phase capacity *)

(** The live reservations of a project in a phase. *)
Definition occupancy (P : uuid) (phase : ReservationPhase) (d : db) : Z :=
  Z.of_nat (count_where (fun r => live_reservation P r /\ rv_phase r = phase) (resource_reservations d)).

Lemma occupancy_split P A phase d : NoDup (rv_attempt_id <$> resource_reservations d) ->
  phase_used P A phase d <= occupancy P phase d <= phase_used P A phase d + 1.
Proof.
  intros Hnd. unfold occupancy, phase_used.
  rewrite (count_where_split (fun r => live_reservation P r /\ rv_phase r = phase) (fun r => rv_attempt_id r = A)).
  assert (count_where (fun r => (live_reservation P r /\ rv_phase r = phase) /\ rv_attempt_id r = A)
    (resource_reservations d) <= 1)%nat by (apply (count_where_key rv_attempt_id); [done|by intros x y _ _ [_ ->] [_ ->]]).
  assert (count_where (fun r => (live_reservation P r /\ rv_phase r = phase) /\ rv_attempt_id r <> A)
    (resource_reservations d) =
    count_where (fun r => live_reservation P r /\ rv_phase r = phase /\ rv_attempt_id r <> A) (resource_reservations d))
    by (apply Nat.le_antisymm; apply count_where_le_impl; tauto).
  lia.
Qed.

(** Phases stay within their capacity: moving an attempt to a phase either
    finds it there already, or puts its reservation there when the project has
    room, after which the phase holds no more than the limit of the policy or
    what it held before; no other phase and no other project gains a
    reservation; and the move is refused for lack of capacity only when the
    phase is full. *)
Theorem phase_capacity_kept A state t (d : db) (phase : ReservationPhase)
    (Hpk : NoDup (rv_attempt_id <$> resource_reservations d)) (Hph : reservationPhase state = Some phase) :
  match updateResourceReservationPhase A state t d with
  | Ok d' => exists r p, attempt_reservation A d = Some r /\
      first_where (fun p => pp_project_id p = rv_project_id r) (project_policies d) = Some p /\
      rv_phase <$> attempt_reservation A d' = Some phase /\
      occupancy (rv_project_id r) phase d' <=
        Z.max (occupancy (rv_project_id r) phase d) (reservation_limit phase p) /\
      forall P q, q <> phase \/ P <> rv_project_id r -> occupancy P q d' <= occupancy P q d
  | Err (PhaseCapacity q used limit) => q = phase /\ exists r p, attempt_reservation A d = Some r /\
      first_where (fun p => pp_project_id p = rv_project_id r) (project_policies d) = Some p /\
      limit = reservation_limit phase p /\ limit <= used <= occupancy (rv_project_id r) phase d
  | Err e => e = ReservationMissing
  end.
Proof.
  unfold updateResourceReservationPhase. rewrite Hph.
  destruct (attempt_reservation A d) as [r|] eqn:Hr; [|done].
  destruct (first_where _ (project_policies d)) as [p|] eqn:Hp; [|done].
  apply first_where_some in Hr as Hr'. destruct Hr' as (Hin & HA & Hlive).
  case_decide as Hsame.
  { exists r, p. rewrite Hr. cbn. split_and!; [done|done|congruence|lia|done]. }
  cbv zeta. case_decide as Hroom.
  2:{ split; [done|]. exists r, p. split_and!; try done; [lia|]. by apply (occupancy_split _ A). }
  set (d' := d <| resource_reservations := _ |>). exists r, p. split_and!; [done|done|..].
  - unfold attempt_reservation in *. subst d'. cbn. unfold first_where in *. clear -Hr Hsame.
    induction (resource_reservations d) as [|x l IH]; [done|].
    unfold update_where. rewrite fmap_cons, !filter_cons. rewrite filter_cons in Hr.
    destruct (decide (rv_attempt_id x = A /\ rv_state x = Live)) as [Hx|Hx].
    + cbn in Hr. simplify_eq. rewrite decide_True by (case_decide; tauto). cbn. rewrite decide_True by tauto. done.
    + rewrite decide_False by (case_decide; tauto). by apply IH.
  - assert (phase_used (rv_project_id r) A phase d' = phase_used (rv_project_id r) A phase d) as Hu.
    { unfold phase_used. subst d'. cbn. rewrite count_where_update; [done|]. cbn. unfold live_reservation. cbn. naive_solver. }
    destruct (occupancy_split (rv_project_id r) A phase d') as [_ Hocc]; [subst d'; cbn; by rewrite (update_where_map rv_attempt_id)|].
    lia.
  - intros P q Hq. unfold occupancy. subst d'. cbn. apply inj_le. unfold count_where, update_where.
    clear -Hpk Hin HA Hlive Hq. 
    assert (forall x, x ∈ resource_reservations d -> rv_attempt_id x = A -> x = r) as Huniq.
    { intros x Hx HxA. apply (key_unique rv_attempt_id (resource_reservations d)); congruence. }
    clear Hin Hpk. induction (resource_reservations d) as [|x l IH]; [done|]. rewrite fmap_cons, !filter_cons.
    specialize (IH ltac:(intros; apply Huniq; set_solver)). specialize (Huniq x ltac:(set_solver)).
    unfold live_reservation in *. repeat case_decide; cbn in *; try lia; naive_solver lia.
Qed.

(** ** Batched loops

    Rows that satisfy [P] are taken [B] at a time in an order. *)
Section batches.
Context {A : Type} (key : A -> string) (P : A -> Prop) `{HdP : !forall x, Decision (P x)} (o : order A)
        `{!OrderLaws o} (B : nat).

Definition batch (l : list A) : list string := key <$> take B (sort_by o (filter P l)).

Lemma elem_of_batch l k : k ∈ batch l -> exists x, x ∈ l /\ P x /\ key x = k.
Proof.
  intros (x & -> & Hx)%list_elem_of_fmap. exists x.
  assert (x ∈ sort_by o (filter P l)) as Hin by (eapply elem_of_submseteq; [exact Hx|apply sublist_submseteq, sublist_take]).
  apply elem_of_sort_by, list_elem_of_filter in Hin as [? ?]. done.
Qed.

Lemma batch_selects l x : NoDup (key <$> l) -> x ∈ l -> key x ∈ batch l -> P x.
Proof.
  intros Hnd Hx (y & Hy & HP & Hk)%elem_of_batch. by rewrite (key_unique key l x y Hnd Hx Hy).
Qed.

(** A batch that is not full has them all. *)
Lemma batch_all l x : (length (batch l) < B)%nat -> x ∈ l -> P x -> key x ∈ batch l.
Proof.
  unfold batch. rewrite length_fmap, length_take. intros Hlen Hx HP. rewrite take_ge by lia.
  apply list_elem_of_fmap_2, elem_of_sort_by. by apply list_elem_of_filter.
Qed.

Lemma count_where_perm (Q : A -> Prop) `{HdQ : !forall x, Decision (Q x)} (l1 l2 : list A) :
  l1 ≡ₚ l2 -> count_where Q l1 = count_where Q l2.
Proof. intros H. unfold count_where. by rewrite H. Qed.

Lemma batch_count l : NoDup (key <$> l) ->
  count_where (fun x => P x /\ key x ∈ batch l) l = length (batch l).
Proof.
  intros Hnd. pose proof (sort_by_perm o (filter P l)) as Hperm.
  set (s := sort_by o (filter P l)) in *.
  assert (NoDup (key <$> s)) as Hs.
  { rewrite Hperm. eapply sublist_NoDup; [exact Hnd|]. apply fmap_sublist, sublist_filter. }
  transitivity (count_where (fun x => key x ∈ batch l) s).
  { rewrite (count_where_perm _ _ _ Hperm). rewrite <- count_where_filter.
    apply Nat.le_antisymm; apply count_where_le_impl; tauto. }
  transitivity (count_where (fun x => key x ∈ batch l) (take B s ++ drop B s)); [by rewrite take_drop|].
  unfold batch. fold s. rewrite count_where_app.
  assert (count_where (fun x => key x ∈ key <$> take B s) (drop B s) = 0)%nat as ->.
  { apply count_where_zero. intros x Hx Hin. rewrite <- (take_drop B s), fmap_app in Hs.
    apply NoDup_app in Hs as (_ & Hdis & _). apply (Hdis (key x) Hin). by apply list_elem_of_fmap_2. }
  unfold count_where. rewrite filter_all; [by rewrite length_fmap, Nat.add_0_r|].
  intros x Hx. by apply list_elem_of_fmap_2.
Qed.

Lemma batch_rest l : NoDup (key <$> l) ->
  (count_where (fun x => P x /\ key x ∉ batch l) l + length (batch l) = count_where P l)%nat.
Proof.
  intros Hnd. rewrite <- (batch_count l Hnd), (count_where_split P (fun x => key x ∈ batch l) l). lia.
Qed.
End batches.

(** ** Retention *)
Definition hide_row (j : build_job) : build_job :=
  j <| j_legacy_visible := false |> <| j_ledger_revision := j_ledger_revision j + 1 |>.

Lemma events_jobs jobs eventType payload d :
  build_jobs (foldl (fun d jobID => insertJobEvent jobID eventType payload d) d jobs) = build_jobs d.
Proof. revert d. induction jobs as [|J jobs IH]; intros d; [done|]. cbn. by rewrite IH. Qed.

Lemma expire_batch_effect before locked d :
  (expire_batch before locked d).1 =
    batch j_id (expirable before locked) retention_order terminalRetentionBatchSize (build_jobs d) /\
  build_jobs (expire_batch before locked d).2 =
    update_where (fun j => j_id j ∈ (expire_batch before locked d).1) hide_row (build_jobs d).
Proof. split; [done|]. unfold expire_batch. cbn [fst snd]. by rewrite events_jobs. Qed.

Lemma hidden_unexpirable before locked j : ~ expirable before locked (hide_row j).
Proof. intros [H _]. done. Qed.

(** C38. Retention ends and does what one statement would: with fuel for one
    batch more than full ones, [ExpireTerminal] returns the number of jobs that
    had to go, exactly these are hidden, every other job row is untouched, and
    no job that has to go is left. *)
Theorem expire_terminal_complete fuel before locked (d : db) (Hpk : NoDup (j_id <$> build_jobs d))
    (Hfuel : (count_where (expirable before locked) (build_jobs d) < terminalRetentionBatchSize * fuel)%nat) :
  exists d', ExpireTerminal fuel before locked d =
      Some (count_where (expirable before locked) (build_jobs d), d') /\
    build_jobs d' = update_where (expirable before locked) hide_row (build_jobs d) /\
    (forall j, j ∈ build_jobs d' -> ~ expirable before locked j).
Proof.
  revert d Hpk Hfuel. induction fuel as [|fuel IH]; intros d Hpk Hfuel; [lia|]. cbn [ExpireTerminal].
  destruct (expire_batch_effect before locked d) as [He Hj].
  destruct (expire_batch before locked d) as [expired d1]. cbn [fst snd] in He, Hj. rewrite He in Hj |- *. clear He.
  set (bt := batch _ _ _ _ _) in *.
  assert (forall j, j ∈ build_jobs d -> j_id j ∈ bt -> expirable before locked j) as Hsel
    by (intros j; by apply batch_selects).
  assert (count_where (expirable before locked) (build_jobs d1) + length bt =
          count_where (expirable before locked) (build_jobs d))%nat as Hcount.
  { rewrite <- (batch_rest j_id (expirable before locked) retention_order terminalRetentionBatchSize _ Hpk).
    fold bt. f_equal. rewrite Hj. unfold count_where, update_where. clear -Hsel. clearbody bt.
    induction (build_jobs d) as [|j l IH]; [done|]. rewrite fmap_cons, !filter_cons.
    specialize (IH ltac:(intros; apply Hsel; set_solver)). specialize (Hsel j ltac:(set_solver)).
    pose proof (hidden_unexpirable before locked j). repeat case_decide; cbn in *; (lia || tauto). }
  case_decide as Hlast.
  - assert (build_jobs d1 = update_where (expirable before locked) hide_row (build_jobs d)) as Hd1.
    { rewrite Hj. unfold update_where. apply list_fmap_ext. intros i j Hin%list_elem_of_lookup_2.
      assert (j_id j ∈ bt <-> expirable before locked j) as Hiff; [|repeat case_decide; tauto].
      split; [by apply Hsel|]. by apply batch_all. }
    exists d1. split_and!; [|done|].
    + f_equal. f_equal. rewrite <- Hcount.
      assert (count_where (expirable before locked) (build_jobs d1) = 0)%nat as ->; [|done].
      apply count_where_zero. rewrite Hd1. intros j' (j & _ & [[_ ->]|[Hn ->]])%elem_of_update_where; [|done].
      apply hidden_unexpirable.
    + rewrite Hd1. intros j' (j & _ & [[_ ->]|[Hn ->]])%elem_of_update_where; [|done]. apply hidden_unexpirable.
  - destruct (IH d1) as (d' & Hrun & Hjobs & Hnone).
    + rewrite Hj. by rewrite (update_where_map j_id).
    + lia.
    + exists d'. rewrite Hrun. split_and!; [|rewrite Hjobs, Hj|done].
      * f_equal. f_equal. lia.
      * unfold update_where. rewrite <- list_fmap_compose. apply list_fmap_ext.
        intros i j Hin%list_elem_of_lookup_2. cbn. specialize (Hsel j Hin).
        pose proof (hidden_unexpirable before locked j). repeat case_decide; tauto || done.
Qed.

(** ** Pruning *)
Lemma prunable_leases before locked d d' w : worker_leases d' = worker_leases d ->
  prunable before locked d' w <-> prunable before locked d w.
Proof. intros H. unfold prunable, idle_worker. by rewrite H. Qed.

Lemma prune_batch_effect before locked d : NoDup (w_id <$> workers d) ->
  let ids := batch w_id (prunable before locked d) prune_order staleWorkerPruneBatch (workers d) in
  let r := prune_batch before locked d in
  r.1 = (length ids, length ids) /\ worker_leases r.2 = worker_leases d /\
  workers r.2 = filter (fun w => w_id w ∉ ids) (workers d) /\
  build_attempts r.2 = update_where (fun a => exists_row (fun id => a_worker_id a = Some id) ids)
    (fun a => a <| a_worker_id := None |>) (build_attempts d).
Proof.
  intros Hnd ids r. subst r. unfold prune_batch. fold (batch w_id (prunable before locked d) prune_order
    staleWorkerPruneBatch (workers d)). change (batch w_id _ _ _ _) with ids. cbn [fst snd].
  assert (forall w, w ∈ workers d -> (w_id w ∈ ids /\ idle_worker d w <-> w_id w ∈ ids)) as Hdoomed.
  { intros w Hw. split; [tauto|]. intros Hin. split; [done|].
    by apply (batch_selects w_id (prunable before locked d) prune_order staleWorkerPruneBatch (workers d) w Hnd) in Hin as (_ & ? & _). }
  assert (count_where (fun w => w_id w ∈ ids /\ idle_worker d w) (workers d) = length ids) as Hcount.
  { transitivity (count_where (fun w => prunable before locked d w /\ w_id w ∈ ids) (workers d)); [|by apply batch_count].
    apply Nat.le_antisymm; apply count_where_le_impl; intros w Hw.
    - intros [Hin _]. split; [|done].
      by apply (batch_selects w_id (prunable before locked d) prune_order staleWorkerPruneBatch (workers d) w Hnd).
    - intros [_ Hin]. by apply Hdoomed. }
  split_and!.
  - by rewrite Hcount.
  - done.
  - cbn. unfold delete_where. apply filter_ext_elem. intros w Hw. specialize (Hdoomed w Hw); tauto.
  - cbn. unfold update_where. apply list_fmap_ext. intros i a _.
    assert (exists_row (fun id => a_worker_id a = Some id)
      (w_id <$> filter (fun w => w_id w ∈ ids /\ idle_worker d w) (workers d)) <->
      exists_row (fun id => a_worker_id a = Some id) ids) as Hiff; [|repeat case_decide; tauto].
    unfold exists_row. rewrite !Exists_exists. split; intros (id & Hid & Ha); exists id; (split; [|done]).
    + by apply list_elem_of_fmap in Hid as (w & -> & [[? _] _]%list_elem_of_filter).
    + destruct (elem_of_batch _ _ _ _ _ _ Hid) as (w & Hw & _ & <-). apply list_elem_of_fmap_2, list_elem_of_filter.
      split; [by apply Hdoomed|done].
Qed.

Lemma attempts_nulled fuel before locked d n d' a' id : PruneStaleWorkers fuel before locked d = Some (n, d') ->
  a' ∈ build_attempts d' -> a_worker_id a' = Some id ->
  exists a, a ∈ build_attempts d /\ a_worker_id a = Some id.
Proof.
  revert d n. induction fuel as [|fuel IH]; intros d n H Ha Hid; [done|]. cbn [PruneStaleWorkers] in H.
  destruct (prune_batch before locked d) as [[selected pruned] d1] eqn:He.
  assert (forall b, b ∈ build_attempts d1 -> a_worker_id b = Some id ->
    exists a, a ∈ build_attempts d /\ a_worker_id a = Some id) as Hb.
  { unfold prune_batch in He. injection He as _ _ <-. cbn.
    intros b (a & Hin & [[_ ->]|[_ ->]])%elem_of_update_where Hb; [done|eauto]. }
  case_decide; [simplify_eq; by eauto|].
  destruct (PruneStaleWorkers fuel before locked d1) as [[m d2]|] eqn:Hr; [|done]. injection H as <- <-.
  destruct (IH d1 m Hr Ha Hid) as (b & Hb1 & Hb2). eauto.
Qed.

(** Pruning ends and removes what is stale: with fuel for one batch more
    than full ones, [PruneStaleWorkers] deletes exactly the unlocked workers
    without a lease that were not seen since the given time, returns their
    number, leaves every lease alone, and no attempt refers to a deleted
    worker any more. *)
Theorem prune_stale_complete fuel before locked (d : db) (Hpk : NoDup (w_id <$> workers d))
    (Hfuel : (count_where (prunable before locked d) (workers d) < staleWorkerPruneBatch * fuel)%nat) :
  exists d', PruneStaleWorkers fuel before locked d =
      Some (count_where (prunable before locked d) (workers d), d') /\
    workers d' = delete_where (prunable before locked d) (workers d) /\
    worker_leases d' = worker_leases d /\
    forall w a, w ∈ workers d -> prunable before locked d w -> a ∈ build_attempts d' ->
      a_worker_id a <> Some (w_id w).
Proof.
  revert d Hpk Hfuel. induction fuel as [|fuel IH]; intros d Hpk Hfuel; [lia|]. cbn [PruneStaleWorkers].
  destruct (prune_batch_effect before locked d Hpk) as (Hn & Hl & Hw & Ha).
  destruct (prune_batch before locked d) as [[selected pruned] d1]. cbn [fst snd] in Hn, Hl, Hw, Ha.
  injection Hn as -> ->. set (ids := batch _ _ _ _ _) in *.
  pose proof (batch_rest w_id (prunable before locked d) prune_order staleWorkerPruneBatch _ Hpk) as Hrest. fold ids in Hrest.
  assert (forall w, w ∈ workers d -> w_id w ∈ ids -> prunable before locked d w) as Hsel
    by (intros w; by apply batch_selects).
  assert (forall w a, w_id w ∈ ids -> a ∈ build_attempts d1 -> a_worker_id a <> Some (w_id w)) as Hnull.
  { rewrite Ha. intros w a' Hin (a & _ & [[_ ->]|[Hn ->]])%elem_of_update_where Heq; [done|].
    apply Hn. apply Exists_exists. eauto. }
  case_decide as Hlast.
  - assert (forall w, w ∈ workers d -> prunable before locked d w -> w_id w ∈ ids) as Hall
      by (intros w; by apply batch_all).
    exists d1. split_and!; [| |done|].
    + f_equal. f_equal. rewrite <- Hrest.
      assert (count_where (fun x => prunable before locked d x /\ w_id x ∉ ids) (workers d) = 0)%nat as ->; [|done].
      apply count_where_zero. intros w Hin [Hp Hn]. by apply Hn, Hall.
    + rewrite Hw. unfold delete_where. apply filter_ext_elem. intros w Hin. split; [|by eauto].
      intros Hn Hp. by apply Hn, Hall.
    + intros w a Hin Hp. by apply Hnull, Hall.
  - assert (count_where (prunable before locked d1) (workers d1) =
      count_where (fun x => prunable before locked d x /\ w_id x ∉ ids) (workers d)) as Hcount.
    { rewrite Hw, count_where_filter. apply Nat.le_antisymm; apply count_where_le_impl; intros w _; by apply prunable_leases. }
    destruct (IH d1) as (d' & Hrun & Hws & Hls & Hatt).
    + rewrite Hw. eapply sublist_NoDup; [exact Hpk|]. apply fmap_sublist, sublist_filter.
    + rewrite Hcount. lia.
    + exists d'. rewrite Hrun, Hcount. split_and!; [f_equal; f_equal; lia| |congruence|].
      * rewrite Hws, Hw. unfold delete_where. rewrite list_filter_filter. apply filter_ext_elem. intros w Hin.
        rewrite (prunable_leases before locked d d1 w Hl). specialize (Hsel w Hin). tauto.
      * intros w a Hin Hp Hain. destruct (decide (w_id w ∈ ids)) as [Hid|Hid].
        -- intros Heq. destruct (attempts_nulled _ _ _ _ _ _ a (w_id w) Hrun Hain Heq) as (b & Hb & Hbid).
           by apply (Hnull w b).
        -- apply (Hatt w a); [rewrite Hw; by apply list_elem_of_filter|by apply (prunable_leases before locked d d1 w Hl)|done].
Qed.

(** ** The counters of expired leases *)
Definition expiries (d : db) : Z := sum_by ec_total (expiry_counters d).
Definition tallied (t : tally) : Z := sum_by (fun k => default 0 (t !! k)) (map_to_list t).*1.

Lemma sum_by_update_one {A} (f : A -> Z) (P : A -> Prop) `{HdP : !forall x, Decision (P x)} (g : A -> A) n (l : list A) :
  (forall x, f (g x) = f x + n) ->
  sum_by f (update_where P g l) = sum_by f l + n * Z.of_nat (count_where P l).
Proof.
  intros Hg. unfold update_where. induction l as [|a l IH]; [unfold sum_by, count_where; cbn; lia|].
  rewrite fmap_cons, count_where_cons. unfold sum_by in *. cbn [foldr]. rewrite IH. case_decide; [rewrite Hg|]; lia.
Qed.

Lemma sum_by_ext {A} (f g : A -> Z) (l : list A) : (forall x, x ∈ l -> f x = g x) -> sum_by f l = sum_by g l.
Proof.
  unfold sum_by. induction l as [|a l IH]; intros H; [done|]. cbn.
  rewrite IH by (intros; apply H; set_solver). by rewrite (H a (list_elem_of_here a l)).
Qed.

Definition map_sum (m : gmap (string * string) Z) : Z := sum_by (fun k => default 0 (m !! k)) (map_to_list m).*1.

Lemma map_sum_insert (m : gmap (string * string) Z) i v : m !! i = None -> map_sum (<[i := v]> m) = v + map_sum m.
Proof.
  intros Hm. unfold map_sum.
  rewrite (sum_by_perm _ _ (i :: (map_to_list m).*1)) by (by rewrite (map_to_list_insert m i v Hm)).
  unfold sum_by at 1. cbn. rewrite lookup_insert_eq. cbn. f_equal. apply sum_by_ext. intros x Hx.
  rewrite lookup_insert_ne; [done|]. intros ->. apply list_elem_of_fmap in Hx as ([y w] & -> & Hy).
  apply elem_of_map_to_list in Hy. cbn in *. congruence.
Qed.

(** One more in the tally. *)
Lemma map_sum_bump (m : gmap (string * string) Z) k n : map_sum (<[k := default 0 (m !! k) + n]> m) = map_sum m + n.
Proof.
  destruct (m !! k) as [v|] eqn:Hm; cbn.
  - rewrite <- (insert_delete_id m k v Hm) at 2. rewrite <- insert_delete_eq.
    rewrite !map_sum_insert by apply lookup_delete_eq. lia.
  - rewrite map_sum_insert by done. lia.
Qed.

Lemma tallied_bump (t : tally) k n : tallied (<[k := default 0 (t !! k) + n]> t) = tallied t + n.
Proof. exact (map_sum_bump t k n). Qed.

Lemma flush_all_counts keys t clk d d' : flush_all keys t clk d = Ok d' ->
  expiries d' = expiries d + sum_by (fun k => default 0 (t !! k)) keys.
Proof.
  revert clk d. induction keys as [|k keys IH]; intros clk d H; cbn [flush_all] in H; [simplify_eq; unfold sum_by; cbn; lia|].
  inv_ok_step H. apply IH in H. rewrite H. unfold recordLeaseExpiry in E. inv_ok E. subst a. unfold expiries. cbn.
  rewrite (sum_by_update_one ec_total _ _ (default 0 (t !! k))) by done. rewrite Hc0. unfold sum_by. cbn. lia.
Qed.

Lemma flush_counts t clk d d' : flushLeaseExpiries t clk d = Ok d' -> expiries d' = expiries d + tallied t.
Proof.
  intros H. apply flush_all_counts in H. rewrite H. f_equal. apply sum_by_perm. apply sort_by_perm.
Qed.

(** The outcomes of a recovery all have a counter. *)
Lemma outcome_counted row :
  validLeaseExpiryCounter (lease_kind_name (el_lease_kind row)) (leaseExpiryResult (expiredLeaseOutcome row).1) = true.
Proof.
  unfold expiredLeaseOutcome. repeat case_decide; by destruct (el_lease_kind row).
Qed.

Lemma settle_counters id reason state t d d' : settleAttemptUsage id reason state t d = Ok d' ->
  expiry_counters d' = expiry_counters d.
Proof.
  unfold settleAttemptUsage. destruct (first_where _ _) as [u|]; [|by intros [= <-]]. case_decide as Hst; [|by intros [= <-]].
  unfold applyFailureStormSuspension. intros H. inv_ok_step H. case_decide; by simplify_eq.
Qed.

Section recovery_counters.
Context (MarshalStatus : JobStatus -> list ascii).

Lemma recover_all_counts rows t clk d t' d' :
  recover_all MarshalStatus rows t clk d = Ok (t', d') ->
  tallied t' = tallied t + Z.of_nat (length rows) /\ expiry_counters d' = expiry_counters d.
Proof.
  revert t clk d. induction rows as [|row rows IH]; intros t clk d H; cbn [recover_all] in H; [simplify_eq; cbn; split; [lia|done]|].
  destruct (recoverExpiredLease _ _ _ _ _) as [[t1 d1]|] eqn:Hr; [|done]. apply IH in H as [H1 H2].
  unfold recoverExpiredLease in Hr. destruct (expiredLeaseOutcome row) as [state reason]. cbv beta zeta in Hr.
  inv_ok_step Hr. unfold budget in E. destruct (settleAttemptUsage _ _ _ _ _) as [d2|] eqn:Hs; [|done]. injection E as <-.
  inv_ok_step Hr. injection Hr as <- <-. rewrite tallied_bump in H1. cbn [length]. split; [lia|]. rewrite H2. cbn.
  by rewrite (settle_counters _ _ _ _ _ _ Hs).
Qed.

(** Every expired lease is counted once: a recovery pass adds exactly the
    number of leases it recovered to the persistent counters, it never meets an
    outcome without a counter, and the counter rows are updated in one fixed
    order, each at most once. *)
Theorem recovery_counts_leases limit locked clk (d : db) :
  (forall n d', recoverExpiredTx MarshalStatus limit locked clk d = Ok (n, d') ->
     expiries d' = expiries d + Z.of_nat n) /\
  (forall row t clk' e kind result,
     recoverExpiredLease MarshalStatus row t clk' d = Err e -> e <> CounterInvalid kind result) /\
  (forall t, StronglySorted (order_le counter_order) (flush_keys t) /\ NoDup (flush_keys t) /\
     forall k, k ∈ flush_keys t <-> is_Some (t !! k)).
Proof.
  split_and!.
  - intros n d' H. unfold recoverExpiredTx in H. cbv zeta in H.
    destruct (recover_all _ _ _ _ _) as [[t d1]|] eqn:Hr; [|done].
    destruct (flushLeaseExpiries _ _ _) as [d2|] eqn:Hf; [|done]. injection H as <- <-.
    apply recover_all_counts in Hr as [Ht Hc]. apply flush_counts in Hf. rewrite Hf, Ht.
    unfold expiries. rewrite Hc. change (tallied ∅) with 0. lia.
  - intros row t clk' e kind result H -> . unfold recoverExpiredLease in H.
    pose proof (outcome_counted row) as Hok. destruct (expiredLeaseOutcome row) as [state reason]. cbn [fst] in Hok.
    cbv beta zeta in H. unfold budget in H. destruct (settleAttemptUsage _ _ _ _ _) as [d2|]; [|done].
    rewrite decide_True in H by exact Hok. done.
  - intros t. split_and!.
    + apply (sort_by_sorted counter_order).
    + unfold flush_keys. rewrite (sort_by_perm counter_order). apply NoDup_fst_map_to_list.
    + intros k. unfold flush_keys. rewrite (elem_of_sort_by counter_order). rewrite list_elem_of_fmap. split.
      * intros ([k' v] & -> & Hv%elem_of_map_to_list). by exists v.
      * intros [v Hv]. exists (k, v). split; [done|]. by apply elem_of_map_to_list.
Qed.
End recovery_counters.

(** ** What is stored *)

(** No stored status document carries a long error: the error text of the
    document that is digested and stored is at most 64 KiB and the marker that
    says it was cut, whatever the status carried, and a short one is stored
    unchanged. *)
Lemma stored_error_bounded (status : BuildStatus) :
  go_len (st_error (statusDocument status)) <= maxLedgerErrorBytes + 36 /\
  (go_len (st_error (bs_document status)) <= maxLedgerErrorBytes -> statusDocument status = bs_document status).
Proof.
  unfold statusDocument. cbv zeta. case_decide as Hlong.
  - split; [|lia]. cbn [st_error set_field]. rewrite go_len_app.
    change (go_len (String.String _ _)) with 36.
    pose proof (prefix_bytes_len maxLedgerErrorBytes (st_error (bs_document status))) as Hp.
    unfold maxLedgerErrorBytes in *. specialize (Hp ltac:(lia)). lia.
  - split; [lia|done].
Qed.

(** ** The worker cache *)

(** A sample taken at another instant than the cached one is never found in
    the cache: the worker is registered again. *)
Theorem fresh_sample_registers newID name labels telemetry local now cache c (d : db)
    (Hc : cache !! name = Some c) (Hobs : ObservedAt telemetry <> ObservedAt (cached_key c).2) :
  schedulerWorker newID name labels telemetry local now cache d =
  let! (id, d') := register_worker (cached_id c) name
                     (capabilities_document "control-plane-admission" labels telemetry) now d in
  Ok (id, <[name := mkCached id local (labels, telemetry)]> cache, d').
Proof.
  unfold schedulerWorker. rewrite Hc. rewrite decide_False; [done|]. intros [Hk _]. by rewrite Hk in Hobs.
Qed.

(** ** Concrete runs *)
Definition registered_ex : db :=
  match schedulerWorker "w1" "executor-1" ["context:legacy"; "phase:provision"] (mkTelemetry 0 true 0 0 0 0 [])
          (20 * Second) (20 * Second) ∅ submitted_ex with
  | Ok (_, d) => d
  | Err _ => empty_db
  end.
Definition claim_tx_ex : result job_error (option SchedulerClaim * db) :=
  claimNextTx marshal_status_ex (ce_ids (claim_env_ex "1")) "w1" "executor-1" KAttempt (60 * Second) unlocked unlocked
    (at_time 20) registered_ex.

Lemma registered_reachable : reachable marshal_status_ex marshal_request_ex any_uuid registered_ex.
Proof.
  exists start_ex. split; [exact start_initial|]. eapply rtc_l; [apply js_op, submitted_op|]. apply rtc_once.
  apply js_other. unfold elsewhere. split_and!; vm_compute; reflexivity.
Qed.

Definition claim_tx_db_ex : db := (ok_or (None, empty_db) claim_tx_ex).2.

Lemma claim_within_limits_witness :
  sum_by rv_vcpus (live_reservations "p1" claim_tx_db_ex) = 4 /\
  exists p, policy_of "p1" claim_tx_db_ex = Ok p /\
    sum_by rv_vcpus (live_reservations "p1" claim_tx_db_ex) <= pp_max_active_vcpus p.
Proof.
  split; [vm_compute; reflexivity|].
  assert (is_ok claim_tx_ex = true) as H by (vm_compute; reflexivity).
  apply (ok_or_ran (None, empty_db)) in H. rewrite (surjective_pairing (ok_or _ _)) in H.
  assert (exists c, (ok_or (None, empty_db) claim_tx_ex).1 = Some c /\
    st_project_id (bs_document (sc_status c)) = "p1") as (c & Hc & HP).
  { eexists. split; vm_compute; reflexivity. }
  rewrite Hc in H.
  destruct (claim_within_limits marshal_status_ex marshal_request_ex any_uuid (ce_ids (claim_env_ex "1")) "w1" "executor-1"
    KAttempt (60 * Second) unlocked unlocked (at_time 20) c registered_ex claim_tx_db_ex registered_reachable H)
    as (p & Hp & _ & _ & _ & _ & Hv & _). rewrite HP in Hp, Hv. exists p. split; [exact Hp|exact Hv].
Defined.

Lemma phase_capacity_kept_witness :
  exists d', updateResourceReservationPhase "a1" "provisioning" (30 * Second) claimed_ex = Ok d' /\
    occupancy "p1" (RPhase Provision) d' <= 1.
Proof.
  pose proof (phase_capacity_kept "a1" "provisioning" (30 * Second) claimed_ex (RPhase Provision)) as H.
  assert (is_ok (updateResourceReservationPhase "a1" "provisioning" (30 * Second) claimed_ex) = true) as Hok
    by (vm_compute; reflexivity).
  destruct (updateResourceReservationPhase "a1" "provisioning" (30 * Second) claimed_ex) as [d'|]; [|discriminate Hok].
  exists d'. split; [reflexivity|]. destruct H as (r & p & Hr & Hp & _ & Hocc & _).
  - apply (bool_decide_unpack _). vm_compute. reflexivity.
  - reflexivity.
  - vm_compute in Hr. injection Hr as <-. vm_compute in Hp. injection Hp as <-. exact Hocc.
Defined.

Definition finished_ex (id : uuid) (updated : Z) : build_job :=
  (job_ex id "p1" "completed") <| j_updated_at := updated * Second |>.
Definition old_jobs_ex : db :=
  empty_db <| build_jobs := [finished_ex "j1" 10; finished_ex "j2" 90; job_ex "j3" "p1" "queued"] |>.

Lemma expire_terminal_complete_witness :
  exists d', ExpireTerminal 1 (50 * Second) unlocked old_jobs_ex = Some (1%nat, d') /\
    j_legacy_visible <$> build_jobs d' = [false; true; true].
Proof.
  destruct (expire_terminal_complete 1 (50 * Second) unlocked old_jobs_ex) as (d' & Hrun & Hjobs & _).
  - apply (bool_decide_unpack _). vm_compute. reflexivity.
  - apply (bool_decide_unpack _). vm_compute. reflexivity.
  - exists d'. split; [exact Hrun|]. rewrite Hjobs. vm_compute. reflexivity.
Defined.

Definition workers_ex : db :=
  empty_db <| workers := [executor_ex 9; (executor_ex 99) <| w_id := "w2" |> <| w_stable_name := "executor-2" |>] |>
           <| build_attempts := [attempt_ex "a1" "j1" 1] |>.

Lemma prune_stale_complete_witness :
  exists d', PruneStaleWorkers 1 (50 * Second) unlocked workers_ex = Some (1%nat, d') /\
    w_id <$> workers d' = ["w2"] /\ a_worker_id <$> build_attempts d' = [None].
Proof.
  destruct (prune_stale_complete 1 (50 * Second) unlocked workers_ex) as (d' & Hrun & Hws & _ & _).
  - apply (bool_decide_unpack _). vm_compute. reflexivity.
  - apply (bool_decide_unpack _). vm_compute. reflexivity.
  - exists d'. split; [exact Hrun|]. split; [rewrite Hws; vm_compute; reflexivity|].
    vm_compute in Hrun. injection Hrun as <-. reflexivity.
Defined.

Definition cache_ex : worker_cache :=
  {["executor-1" := mkCached "w1" (10 * Second) ([], mkTelemetry 1 true 0 0 0 0 [])]}.

Lemma fresh_sample_registers_witness :
  match schedulerWorker "w9" "executor-1" [] (mkTelemetry 2 true 0 0 0 0 []) (11 * Second) (11 * Second) cache_ex
          workers_ex with
  | Ok (_, d) => w_last_seen_at <$> workers d
  | Err _ => []
  end = [Some (11 * Second); Some (99 * Second)].
Proof.
  rewrite (fresh_sample_registers "w9" "executor-1" [] (mkTelemetry 2 true 0 0 0 0 []) (11 * Second) (11 * Second)
    cache_ex (mkCached "w1" (10 * Second) ([], mkTelemetry 1 true 0 0 0 0 [])) workers_ex).
  - vm_compute. reflexivity.
  - reflexivity.
  - discriminate.
Defined.

(** ** Hand-off documents *)
Lemma Contains_spec l sub : Contains l sub = true <-> exists p q, l = p ++ sub ++ q.
Proof.
  split.
  - induction l as [|c l IH]; cbn; rewrite orb_true_iff, bool_decide_eq_true.
    + intros [[q Hq]|Hf]; [|done]. by exists [], q.
    + intros [[q Hq]|(p & q & ->)%IH]; [by exists [], q|]. by exists (c :: p), q.
  - intros (p & q & ->). induction p as [|c p IH]; cbn.
    + destruct (sub ++ q) eqn:E; cbn; rewrite orb_true_iff, bool_decide_eq_true; left; rewrite <- ?E; by apply prefix_app_r.
    + rewrite orb_true_iff. by right.
Qed.

(** No secret-like key reaches the hand-off document: a document that is
    stored has no instance metadata key in which one of the forbidden words
    occurs in any letter case, and a document is refused for its keys only if
    the key named in the error has such a word. *)
Theorem stored_context_has_no_secret_key claim value now (d : db) :
  (forall d' i k v, SavePhaseExecutionContext claim value now d = Ok d' ->
     px_instance value = Some i -> pi_metadata i !! k = Some v ->
     forall word p q, word ∈ forbidden_words -> ascii_fold (bytes k) <> p ++ bytes word ++ q) /\
  (forall k, SavePhaseExecutionContext claim value now d = Err (ContextSecretKey k) ->
     exists i v word p q, px_instance value = Some i /\ pi_metadata i !! k = Some v /\
       word ∈ forbidden_words /\ ascii_fold (bytes k) = p ++ bytes word ++ q).
Proof.
  split.
  - intros d' i k v H Hi Hk word p q Hw Heq. unfold SavePhaseExecutionContext in H. inv_ok_step H.
    unfold validatePhaseContext in E. rewrite Hi in E. destruct (first_where _ _) as [key|] eqn:Hf; [done|].
    apply (first_where_none _ _ Hf k).
    + apply list_elem_of_fmap. exists (k, v). split; [done|]. by apply elem_of_map_to_list.
    + unfold secret_like. apply existsb_exists. exists word. split; [by apply list_elem_of_In|].
      apply Contains_spec. eauto.
  - intros k H. unfold SavePhaseExecutionContext in H.
    destruct (validatePhaseContext value) as [[]|e] eqn:E.
    { destruct (first_where _ (phase_work_items d)); [|done]. destruct (first_where _ (phase_execution_contexts d)); [|done].
      by case_decide. }
    injection H as ->. unfold validatePhaseContext in E. destruct (px_instance value) as [i|] eqn:Hi; [|done].
    destruct (first_where _ _) as [key|] eqn:Hf; [|done]. injection E as ->.
    apply first_where_some in Hf as (([k' v] & -> & Hv%elem_of_map_to_list)%list_elem_of_fmap & Hs).
    unfold secret_like in Hs. apply existsb_exists in Hs as (word & Hw%list_elem_of_In & (p & q & Heq)%Contains_spec).
    exists i, v, word, p, q. auto.
Qed.
